(* ===== verification/_CoqProject ===== *)
-Q . S2P
Prelude.v
Varint.v
Framing.v
Winnow.v
Grammar.v
Protocol.v
Stdio.v
Float.v
Assertion.v
Messages.v
Registry.v
Frame.v
Shm.v
RingConc.v
Arena.v
Spill.v
Stats.v
TensorStore.v
StatsSpec.v
Clock.v
Json.v
Session.v
SessionInv.v
Discover.v
Kv.v
Tick.v
Adapter.v
Worker.v
WorkerSpec.v
Target.v
Dispatch.v
DispatchSpec.v
InspectSpec.v
Host.v
HostSpec.v
Replay.v
HostInspect.v
HostInspectSpec.v
HostDispatch.v
HostDispatchSpec.v
HostTotal.v
Python.v
Bridge.v
BridgeSpec.v
Extension.v
Cleanup.v
ShmNames.v
Perfetto.v
PerfettoSpec.v
TuiCache.v
Tui.v
TuiSpec.v
TuiLayout.v
TuiPanels.v
TuiFraming.v
TuiLink.v
Notify.v
TuiDaemon.v
Orchestrator.v
Link.v
Bundle.v
SessionExport.v
Main.v
MainSpec.v
Tasks.v
TasksSpec.v
