(* ===== verification/Prelude.v ===== *)
(** * rocket_surgeon: a verification library

    rocket_surgeon is a debugger for the forward pass of a transformer.  A
    daemon ([crates/rocket-surgeon]) speaks JSON-RPC to its clients, keeps the
    session, the probe registry and the captured tensors, and drives a worker
    process ([crates/rocket-surgeon-worker]) that embeds Python, steps the model
    tick by tick, evaluates probes, applies interventions and saves checkpoints.
    Tensors travel from worker to daemon through a shared-memory ring
    ([crates/rocket-surgeon-shm]); messages travel as Content-Length framed JSON
    ([crates/rocket-surgeon-transport], [crates/rocket-surgeon-protocol]).

    ** Files

    Shared: [Prelude] (results and the [let?] operator, machine integers with
    their wrap-around, byte slices and field layouts, strings as character
    lists, decimal numbers, stable sorting, hash maps as keyed lists, the order
    of strings) and [Float] (IEEE 754 numbers as std uses them, over Rocq's
    [SpecFloat], with the lemmas on addition, comparison and rounding).

    Wire:
    - [Varint]: perfetto-writer/src/varint.rs.
    - [Framing]: rocket-surgeon-transport/src/framing.rs, with UTF-8 decoding.
    - [Stdio]: rocket-surgeon-transport/src (stdio.rs, lib.rs) and the message
      loop the serving processes share, as a function of their handler.
    - [Winnow], [Grammar]: rocket-surgeon-probes/src/grammar.rs; the third-party
      parser combinators are the class [Winnow] with laws [WinnowLaws] and a
      reference instance.
    - [Protocol], [Messages], [Json]: rocket-surgeon-protocol/src (types.rs,
      errors.rs, jsonrpc.rs, messages.rs, lib.rs) and the error construction of
      the daemon's dispatch.rs; serde_json is the class [SerdeJson].

    Daemon:
    - [Registry]: rocket-surgeon-probes/src/registry.rs.
    - [Assertion]: rocket-surgeon-probes/src/assertion.rs.
    - [Stats], [StatsSpec]: rocket-surgeon/src/tensor_stats.rs, the chunked
      computation and its comparison with the definition of each statistic.
    - [TensorStore]: rocket-surgeon/src/tensor_store.rs, over [Stats].
    - [Clock], [Session], [SessionInv], [Discover]: rocket-surgeon/src/session.rs
      (the timestamp arithmetic, the operations, their invariants, discovery).
    - [Target], [Dispatch], [DispatchSpec], [InspectSpec], [SessionExport]:
      rocket-surgeon/src/dispatch.rs (suggestions for unknown targets, the
      request handlers, what they guarantee, the ingestion of captured tensors,
      the export, over the archive writer of bundle.rs in [Bundle]).  Decoding
      of parameters and encoding of answers are the class [Wire].
    - [Notify]: notifications.rs and trace_log.rs.
    - [Link]: orchestrator_handle.rs, over a class [Peer] for the child process.
    - [Main], [MainSpec]: main.rs, the loop that puts these together, with the
      trace of [Perfetto] and the sweeps of [Cleanup]; its state is the record
      [Daemon], a turn is [turn], a run is [run].

    Orchestrator:
    - [Orchestrator]: rocket-surgeon-orchestrator/src (dispatch.rs,
      worker_handle.rs, main.rs), with the outcomes of spawn, send and receive as inputs.

    Data plane:
    - [Frame]: the probe-frame header of rocket-surgeon-shm/src/lib.rs and of
      rocket-surgeon-python/src/probe_frame.rs.
    - [Shm], [RingConc]: rocket-surgeon-shm/src (lib.rs, region.rs, ring.rs); the
      operations, and the byte-level interleaving of the two processes.

    Worker:
    - [Arena], [Spill]: rocket-surgeon-worker/src/checkpoint.rs.
    - [Kv]: kv.rs; [Tick]: tick.rs, step_driver.rs, replay.rs;
      [Adapter]: adapter.rs; [Worker], [WorkerSpec]: the step handler of
      dispatch.rs, with the embedded Python as the class [PyBridge].
    - [Host], [HostSpec]: the checkpoint handler of dispatch.rs over [Arena] and
      [Spill], the rest of Python as the class [HostBridge]; [Replay]: the replay
      handler and its loop.
    - [HostInspect], [HostInspectSpec]: capture.rs and the inspect handler, which
      feeds the ring of [Shm]; the theorem composes it with the ingestion of
      [Dispatch].
    - [HostDispatch], [HostDispatchSpec]: attach, detach and the other handlers,
      [dispatch] over all of them, and the process loop of main.rs.  The state is
      the record [Node]: the [Host] (Rust's WorkerState), its ring, and the
      system's shared objects.  [HostTotal]: what any run of the worker keeps,
      and the requests that can stop it.
    - [Python]: the interpreter as PyO3 shows it (any behaviour of imports and
      calls, the documented conversions); [Bridge], [BridgeSpec]: bridge.rs over
      it, and the attach handler over both; [Extension]:
      rocket-surgeon-python/src/lib.rs, the extension module.

    Trace and cleanup:
    - [Cleanup], [ShmNames]: rocket-surgeon-shm/src/cleanup.rs for Linux, and for
      macOS, where several processes rewrite a list of names under a lock.
    - [Perfetto], [PerfettoSpec]: perfetto-writer/src (intern.rs, proto.rs,
      writer.rs) and rocket-surgeon/src/perfetto_sink.rs; the encoding of a packet
      (the prost crate) is a parameter, the [BufWriter] of the file is part of
      the state.

    Terminal client (rocket-surgeon-tui/src):
    - [TuiCache]: the cache of tensor summaries; [TuiLayout]: the tiling tree.
    - [Tui], [TuiSpec]: the modes, the key decoder, the reducer of the
      application and its loop, what the panels show.
    - [TuiPanels]: the contents and rectangles of a frame, the detection of the
      terminal's capabilities, and the modes it is put into and taken out of.
    - [TuiFraming], [TuiLink]: the framing of the client and its connection:
      callers, writer and reader are steps of one state ([link_step]), and the pending
      table they share is part of it.
    - [TuiDaemon]: the task that owns the connection (handshake, notifications,
      reconnection) and the subscriptions.

    Build tasks:
    - [Tasks], [TasksSpec]: xtask/src/main.rs; a task is a program over the
      history of what was run and printed, the class [System] answers it.

    ** How code is modelled

    A w-bit integer is a [Z] with its wrap-around written out where the code can
    reach it ([u64_add], [u32_wrap], ...; arithmetic follows the release
    profile); a byte buffer is a [list byte]; a struct is a record, an enum an
    inductive type.  Mutating methods pass the state explicitly and return the
    answer with the state afterwards.  Errors are values of [result]; where a
    panic is reachable it is a value too ([None], or [Panic]).  A hash map is a
    [gmap], and where its iteration order shows, the order is an arbitrary
    permutation of its entries.  Fresh uuids, clock readings, BLAKE3, CRC-32, the
    half-precision crate and the Python side are parameters; the class [Numerics]
    of [Stats] holds those of a summary.  A vector of more than [isize::MAX]
    bytes panics where a length comes from outside ([Shm.read_vec]); memory is
    not exhausted otherwise.

    ** What is shown

    - Ring: under every interleaving of the single-byte copies and cursor
      accesses of both processes, each consumed frame is exactly a published one,
      no unconsumed frame is overwritten, the two never touch the same byte at
      once, and the calls refine a bounded FIFO queue; opening a created region
      connects both ends; no failing system call leaks a name or a descriptor.
    - Session: every reachable session is well formed, errors change nothing,
      checkpoints restore verbatim, worldlines form a tree, backward steps start
      from the latest earlier checkpoint, discovery is exact and sorted.
    - Requests: every request is answered, with its id and with a hint on errors;
      the daemon's loop keeps session, worker connection, model handle, ring and
      trace consistent under any messages and any behaviour of the worker, and panics only on three inputs that are named; an
      inspect that does not panic reports exactly the delivered tensors and returns
      their ring slots; a
      subscriber gets exactly the events of its filter; the orchestrator never
      leaks a child process.
    - Stores: the registry, the tensor store, the checkpoint arena and the KV
      bookkeeping refine an ordered list, an LRU cache, a bounded keyed store and
      one small machine per token position; spilled checkpoints load back.
    - Worker: whatever Python and the system do, the worker stays consistent and
      answers each request, up to one of the requests that can stop it; a step
      consumes exactly the planned ticks, moves the clocks accordingly, reports the
      first events and fails only where its recipes do; a checkpoint is restored
      as it was captured and a failing one leaves no trace; a replay runs a fresh
      pass up to its stopping point and reports the divergences its comparison
      finds, or ends where a comparison or recipe fails; the bytes of an inspected tensor arrive in the daemon unchanged;
      module resolution follows the tables.
    - Trace: a trace file that was closed with success reads back as its packets,
      and otherwise holds a first part of them; tracks do not collide and slices
      are balanced; and the daemon never defines the names they refer to.
    - Python: replies are read as the values they stand for, in range whatever is
      replied, and no reply makes the bridge panic; frame headers written through
      the extension read back.
    - Exports: the destination holds what it held or a complete bundle.
    - Statistics: a summary has the extremes, sparsity, histogram and top entries
      its definitions give, for any bytes and any shape without a zero.
    - Assertions: the texts the parser accepts are exactly those of the grammar,
      each read as its statistic, operator and nearest number.
    - Client: a response reaches the request with its id and no other, a request
      made before the connection closes returns, the status bar shows the state
      of the connection, a typed command is sent as typed, the two framing
      readers agree, the panels of a layout divide the screen, a frame shows the
      state, the terminal is given back.
    - Tasks: a green suite ran every check and every script with success, a
      failing script does not stop the others, and no task starts a Python tool
      but the virtual environment's.
    - Wire: framing, probe points, frame headers and varints round-trip; every
      input stream is read to an answer; the checkpoint-layer schedule computed
      in floating point has the intended gaps; timestamps are Gregorian dates.

    Some theorems state behaviour a reader may not expect and that the manifest
    lists as findings: a single-tick step applies no intervention, a new pass
    restarts the token clock, discovery offers names no component has and
    suggests patterns that cannot match, fallback component names are outside
    the probe grammar, an export without a model panics the daemon and so does a traced step in a
    layer beyond 65535 or an inspected tensor with a zero dimension, a replay
    does not start from the restored activations and compares them with the
    outputs of other modules, the slices of a trace have no names, a request made
    after the connection of the client has closed waits for ever, and closing a
    panel does not end its subscription at the daemon.

    ** Bounds and fuel

    Loops that are not structural take fuel and come with a theorem that some
    fuel suffices: [encode_varint_loop] (10 groups of 7 bits), [read_headers] (the
    length of the stream), [evict_loop] and the [evict] of [TuiCache] (the number of entries), [write_file] (the bytes to write), [step_loop] and
    [replay_loop] (one more than the ticks of the pass).  Interleaving theorems assume 64-bit
    cursors do not wrap within a run; the worldline theorem assumes fewer than
    2^32 calls; the theorems on the client's requests, ids below 2^63 - 1.  [checkpoint_layers] is checked by evaluation for the layer
    counts its theorem names and [civil] over one 400-year cycle.

    ** Not modelled

    The widgets of the terminal library and the reading of its events; sockets,
    timers and argument parsing; the tar and gzip formats; the Python library.  These are input and output, or
    calls of libraries the repository does not contain.  Serde's spelling of
    messages is a parameter wherever text is read or written. *)

From Stdlib Require Import ZArith Lia Ascii String Sorted.
From coqutil Require Import Byte Word.LittleEndianList.
From stdpp Require Import base gmap strings list fin_maps sorting sets.

Declare Scope rs_scope.
Delimit Scope rs_scope with rs.
Open Scope rs_scope.
Open Scope Z_scope.

Create HintDb rs.
Create Rewrite HintDb rs.

(** ** Results

    Rust's [Result<A, E>].  The [let?] notation is the [?] operator: it
    returns early with the error. *)
Inductive result (E A : Type) : Type :=
| Ok (a : A)
| Err (e : E).
Arguments Ok {E A} a.
Arguments Err {E A} e.

Definition is_ok {E A} (r : result E A) : bool :=
  match r with Ok _ => true | Err _ => false end.

Definition result_map {E A B} (f : A -> B) (r : result E A) : result E B :=
  match r with Ok a => Ok (f a) | Err e => Err e end.

Notation "'let?' x ':=' r 'in' k" :=
  (match r with Ok x => k | Err e => Err e end)
  (at level 10, x pattern, r at level 100, k at level 200)
  : rs_scope.

Definition ok_or {E A} (o : option A) (e : E) : result E A :=
  match o with Some a => Ok a | None => Err e end.

(** ** Machine integers

    A [w]-bit unsigned integer is a [Z]; [uN_ok] is its range and the
    arithmetic below is the wrap-around (release profile) arithmetic of the
    code, so that "no overflow" is a theorem and not a modelling choice. *)
Definition U8_MAX : Z := 2 ^ 8 - 1.
Definition U32_MAX : Z := 2 ^ 32 - 1.
Definition U64_MAX : Z := 2 ^ 64 - 1.
(** [usize] on the 64-bit targets the project builds for. *)
Definition USIZE_MAX : Z := U64_MAX.

Definition u8_ok (z : Z) : Prop := 0 <= z <= U8_MAX.
Definition u32_ok (z : Z) : Prop := 0 <= z <= U32_MAX.
Definition u64_ok (z : Z) : Prop := 0 <= z <= U64_MAX.

Definition u64_wrap (z : Z) : Z := z mod 2 ^ 64.
Definition u32_wrap (z : Z) : Z := z mod 2 ^ 32.
Definition u64_add (a b : Z) : Z := u64_wrap (a + b).
Definition u64_sub (a b : Z) : Z := u64_wrap (a - b).
Definition u64_mul (a b : Z) : Z := u64_wrap (a * b).
Definition u64_checked_add (a b : Z) : option Z :=
  if a + b <=? U64_MAX then Some (a + b) else None.
Definition u64_checked_mul (a b : Z) : option Z :=
  if a * b <=? U64_MAX then Some (a * b) else None.
Definition u64_saturating_sub (a b : Z) : Z := Z.max 0 (a - b).

Ltac unfold_int :=
  unfold u8_ok, u32_ok, u64_ok, u64_add, u64_sub, u64_mul, u64_wrap, u32_wrap,
    u64_checked_add, u64_checked_mul, u64_saturating_sub,
    USIZE_MAX, U64_MAX, U32_MAX, U8_MAX in *.

Lemma u64_add_small a b : 0 <= a -> 0 <= b -> a + b <= U64_MAX -> u64_add a b = a + b.
Proof. intros; unfold_int; apply Z.mod_small; lia. Qed.

Lemma u64_sub_small a b : 0 <= b -> b <= a -> a <= U64_MAX -> u64_sub a b = a - b.
Proof. intros; unfold_int; apply Z.mod_small; lia. Qed.

Lemma u64_wrap_ok z : u64_ok (u64_wrap z).
Proof. unfold_int; pose proof (Z.mod_pos_bound z (2 ^ 64)); lia. Qed.

Lemma u64_add_ok a b : u64_ok (u64_add a b).
Proof. apply u64_wrap_ok. Qed.

#[export] Hint Resolve u64_wrap_ok u64_add_ok : rs.

(** A field above [n] free bits. *)
Lemma lor_shiftl_add a b n : 0 <= n -> 0 <= b < 2 ^ n -> Z.lor (Z.shiftl a n) b = a * 2 ^ n + b.
Proof.
  intros Hn Hb. rewrite <- Z.shiftl_mul_pow2 by lia. pose proof (Z.add_lor_land (Z.shiftl a n) b) as E.
  assert (Hz : Z.land (Z.shiftl a n) b = 0); [|lia]. apply Z.bits_inj'. intros i Hi. rewrite Z.land_spec, Z.bits_0.
  destruct (Z.lt_ge_cases i n) as [Hl|Hl]; [rewrite Z.shiftl_spec, Z.testbit_neg_r by lia; done|].
  rewrite <- (Z.mod_small b (2 ^ n)) by lia. by rewrite Z.mod_pow2_bits_high, andb_false_r by lia.
Qed.

(** ** Case analysis

    [simplify_match] destructs the scrutinee of every match of the goal or of
    an hypothesis, keeping the equation, and cleans up constructor clashes. *)
Ltac match_step :=
  match goal with
  | |- context [match ?x with _ => _ end] => destruct x eqn:?
  | H : context [match ?x with _ => _ end] |- _ => destruct x eqn:?
  end.
Ltac simplify_match := repeat (match_step; simplify_eq/=; try done).

(** ** Slices of byte buffers

    [slice off len buf] is [&buf[off..off + len]]; [splice off data buf] is
    [buf[off..off + data.len()].copy_from_slice(data)]. *)
Section Slices.
Context {A : Type}.
Implicit Types (buf data : list A) (off len : nat).

Definition slice off len buf : list A := take len (drop off buf).
Definition splice off data buf : list A :=
  take off buf ++ data ++ drop (off + length data) buf.

Lemma length_slice off len buf :
  (off + len <= length buf)%nat -> length (slice off len buf) = len.
Proof. intros; unfold slice; rewrite length_take, length_drop; lia. Qed.

Lemma length_splice off data buf :
  (off + length data <= length buf)%nat -> length (splice off data buf) = length buf.
Proof.
  intros; unfold splice; rewrite !length_app, length_take, length_drop; lia.
Qed.

Lemma slice_splice_same off data buf :
  (off + length data <= length buf)%nat ->
  slice off (length data) (splice off data buf) = data.
Proof.
  intros; unfold slice, splice.
  rewrite drop_app_length' by (rewrite length_take; lia).
  by rewrite take_app_length.
Qed.

Lemma slice_ext off len buf1 buf2 :
  (forall i, off <= i < off + len -> buf1 !! i = buf2 !! i)%nat ->
  slice off len buf1 = slice off len buf2.
Proof.
  intros H; apply list_eq; intros i; unfold slice.
  destruct (decide (i < len)%nat).
  - rewrite !lookup_take_lt, !lookup_drop by lia; apply H; lia.
  - by rewrite !lookup_take_ge by lia.
Qed.

Lemma lookup_splice_in off data buf i :
  (off + length data <= length buf)%nat -> (off <= i < off + length data)%nat ->
  splice off data buf !! i = data !! (i - off)%nat.
Proof.
  intros Hb Hi. unfold splice. rewrite lookup_app_r by (rewrite length_take; lia).
  rewrite length_take, Nat.min_l by lia. by rewrite lookup_app_l by lia.
Qed.

Lemma lookup_splice_out off data buf i :
  (off + length data <= length buf)%nat ->
  (i < off \/ off + length data <= i)%nat ->
  splice off data buf !! i = buf !! i.
Proof.
  intros Hb [Hi|Hi]; unfold splice.
  - rewrite lookup_app_l by (rewrite length_take; lia). by apply lookup_take_lt.
  - rewrite lookup_app_r by (rewrite length_take; lia).
    rewrite lookup_app_r by (rewrite length_take; lia).
    rewrite lookup_drop; f_equal; rewrite length_take; lia.
Qed.

Lemma slice_splice_disjoint o n off data buf :
  (off + length data <= length buf)%nat ->
  (o + n <= off \/ off + length data <= o)%nat ->
  slice o n (splice off data buf) = slice o n buf.
Proof.
  intros Hb Hd; apply slice_ext; intros i Hi.
  apply lookup_splice_out; lia.
Qed.

Lemma slice_slice o1 n1 o2 n2 buf :
  (o2 + n2 <= n1)%nat -> slice o2 n2 (slice o1 n1 buf) = slice (o1 + o2) n2 buf.
Proof.
  intros H; apply list_eq; intros i; unfold slice.
  destruct (decide (i < n2)%nat).
  - rewrite lookup_take_lt, lookup_drop, lookup_take_lt, lookup_drop by lia.
    rewrite lookup_take_lt, lookup_drop by lia; f_equal; lia.
  - by rewrite !lookup_take_ge by lia.
Qed.

Lemma slice_0 len buf : slice 0 len buf = take len buf.
Proof. done. Qed.
End Slices.

#[export] Hint Rewrite @length_splice @length_slice using (simpl; lia) : rs.

(** ** Little-endian integers ([to_le_bytes], [from_le_bytes]) *)
Definition to_le_bytes (n : nat) (z : Z) : list byte := le_split n z.
Definition from_le_bytes (bs : list byte) : Z := le_combine bs.

Lemma length_to_le_bytes n z : length (to_le_bytes n z) = n.
Proof. apply length_le_split. Qed.

Lemma from_to_le_bytes n z :
  0 <= z < 2 ^ (Z.of_nat n * 8) -> from_le_bytes (to_le_bytes n z) = z.
Proof.
  intros H; unfold from_le_bytes, to_le_bytes.
  rewrite le_combine_split; by apply Z.mod_small.
Qed.

Lemma from_le_bytes_bound bs :
  0 <= from_le_bytes bs < 2 ^ (8 * Z.of_nat (length bs)).
Proof. apply le_combine_bound. Qed.

Lemma to_from_le_bytes n bs : length bs = n -> to_le_bytes n (from_le_bytes bs) = bs.
Proof. intros H; unfold to_le_bytes, from_le_bytes; by apply split_le_combine'. Qed.

#[export] Hint Rewrite length_to_le_bytes : rs.
Global Opaque to_le_bytes from_le_bytes.

#[export] Instance byte_eq_decision : EqDecision byte := Stdlib.Strings.Byte.byte_eq_dec.

(** A run of [copy_from_slice] statements at constant offsets.  [layout_ok n]
    checks that the fields lie within [n] bytes and do not overlap. *)
Definition apply_writes {A} (ws : list (nat * list A)) (buf : list A) : list A :=
  foldl (fun b w => splice w.1 w.2 b) buf ws.

Definition disjoint_fields (f g : nat * nat) : bool :=
  (Nat.leb (f.1 + f.2) g.1 || Nat.leb (g.1 + g.2) f.1)%bool.

Fixpoint layout_ok (n : nat) (fields : list (nat * nat)) : bool :=
  match fields with
  | [] => true
  | f :: fs => Nat.leb (f.1 + f.2) n && forallb (disjoint_fields f) fs && layout_ok n fs
  end.

Definition layout {A} (ws : list (nat * list A)) : list (nat * nat) :=
  (fun w => (w.1, length w.2)) <$> ws.

Section Writes.
Context {A : Type}.
Implicit Types (buf : list A) (ws : list (nat * list A)).

Lemma length_apply_writes ws buf :
  layout_ok (length buf) (layout ws) = true -> length (apply_writes ws buf) = length buf.
Proof.
  revert buf; induction ws as [|[o bs] ws IH]; intros buf H; [done|].
  cbn [layout fmap list_fmap layout_ok fst snd] in H. rewrite !andb_true_iff in H.
  destruct H as [[Hb _] H]. apply Nat.leb_le in Hb.
  change (apply_writes ((o, bs) :: ws) buf) with (apply_writes ws (splice o bs buf)).
  assert (length (splice o bs buf) = length buf) as E by (by apply length_splice).
  rewrite IH; [done|]. rewrite E. exact H.
Qed.

Lemma slice_apply_writes_out ws buf o n :
  layout_ok (length buf) (layout ws) = true ->
  forallb (disjoint_fields (o, n)) (layout ws) = true ->
  slice o n (apply_writes ws buf) = slice o n buf.
Proof.
  revert buf; induction ws as [|[o' bs] ws IH]; intros buf H Hd; [done|].
  cbn [layout fmap list_fmap layout_ok forallb fst snd] in H, Hd. rewrite !andb_true_iff in H.
  destruct H as [[Hb _] H]. apply Nat.leb_le in Hb. apply andb_true_iff in Hd as [Hd1 Hd2].
  assert (length (splice o' bs buf) = length buf) as E by (by apply length_splice).
  change (apply_writes ((o', bs) :: ws) buf) with (apply_writes ws (splice o' bs buf)).
  rewrite IH by (rewrite ?E; done). apply slice_splice_disjoint; [done|].
  unfold disjoint_fields in Hd1; cbn in Hd1. rewrite orb_true_iff, !Nat.leb_le in Hd1. lia.
Qed.

Lemma slice_apply_writes ws buf i o bs :
  layout_ok (length buf) (layout ws) = true -> ws !! i = Some (o, bs) ->
  slice o (length bs) (apply_writes ws buf) = bs.
Proof.
  revert buf i; induction ws as [|[o' bs'] ws IH]; intros buf i H Hi; [done|].
  cbn [layout fmap list_fmap layout_ok fst snd] in H. rewrite !andb_true_iff in H.
  destruct H as [[Hb Hd] H]. apply Nat.leb_le in Hb.
  assert (length (splice o' bs' buf) = length buf) as E by (by apply length_splice).
  change (apply_writes ((o', bs') :: ws) buf) with (apply_writes ws (splice o' bs' buf)).
  destruct i as [|i]; simplify_eq/=.
  - rewrite slice_apply_writes_out by (rewrite ?E; done). by apply slice_splice_same.
  - eapply IH; [|exact Hi]. by rewrite E.
Qed.

End Writes.

(** ** Text

    A Rust [String] is a [string]: its UTF-8 bytes.  The functions below work
    on the list of those bytes. *)
Definition chars (s : string) : list ascii := list_ascii_of_string s.
Definition text (cs : list ascii) : string := string_of_list_ascii cs.

Arguments chars : simpl never.
Arguments text : simpl never.

Lemma text_chars s : text (chars s) = s.
Proof. apply string_of_list_ascii_of_string. Qed.
Lemma chars_text cs : chars (text cs) = cs.
Proof. apply list_ascii_of_string_of_list_ascii. Qed.
Lemma chars_inj s1 s2 : chars s1 = chars s2 -> s1 = s2.
Proof. intros H; by rewrite <- (text_chars s1), H, text_chars. Qed.
Lemma text_inj c1 c2 : text c1 = text c2 -> c1 = c2.
Proof. intros H; by rewrite <- (chars_text c1), H, chars_text. Qed.

Lemma chars_app a b : chars (a +:+ b) = chars a ++ chars b.
Proof. induction a as [|x a IH]; [done|]. change (x :: chars (a +:+ b) = x :: chars a ++ chars b). by rewrite IH. Qed.

Definition ascii_code (c : ascii) : Z := Z.of_nat (nat_of_ascii c).

Definition is_ascii_digit (c : ascii) : bool := (48 <=? ascii_code c) && (ascii_code c <=? 57).
Definition is_ascii_alphabetic (c : ascii) : bool :=
  ((65 <=? ascii_code c) && (ascii_code c <=? 90)) ||
  ((97 <=? ascii_code c) && (ascii_code c <=? 122)).
Definition is_ascii_alphanumeric (c : ascii) : bool := is_ascii_alphabetic c || is_ascii_digit c.

Lemma ascii_code_inj c1 c2 : ascii_code c1 = ascii_code c2 -> c1 = c2.
Proof.
  unfold ascii_code; intros H.
  rewrite <- (ascii_nat_embedding c1), <- (ascii_nat_embedding c2); f_equal; lia.
Qed.

(** *** [str::split] on a character, [strip_prefix], [find] *)
Fixpoint split_on (sep : ascii) (cs : list ascii) : list (list ascii) :=
  match cs with
  | [] => [[]]
  | c :: cs' =>
      if decide (c = sep) then [] :: split_on sep cs'
      else match split_on sep cs' with
           | [] => [[c]]
           | seg :: segs => (c :: seg) :: segs
           end
  end.

(** Joins segments with a separator: [format!("{}:{}:...")]. *)
Fixpoint join_on (sep : ascii) (segs : list (list ascii)) : list ascii :=
  match segs with
  | [] => []
  | [seg] => seg
  | seg :: segs' => seg ++ sep :: join_on sep segs'
  end.

Lemma split_on_nonnil sep cs : split_on sep cs <> [].
Proof. destruct cs as [|c cs]; simpl; [done|]. case_decide; [done|]. by destruct (split_on sep cs). Qed.

Lemma join_split sep cs : join_on sep (split_on sep cs) = cs.
Proof.
  induction cs as [|c cs IH]; simpl; [done|].
  pose proof (split_on_nonnil sep cs) as Hn.
  case_decide as Hc; [subst c|]; destruct (split_on sep cs) as [|seg segs]; try done;
    rewrite <- IH; by destruct segs.
Qed.

Lemma split_on_sep_free sep seg : sep ∉ seg -> split_on sep seg = [seg].
Proof.
  induction seg as [|c seg IH]; simpl; [done|]. intros Hc.
  rewrite decide_False by set_solver. by rewrite IH by set_solver.
Qed.

Lemma split_on_app sep seg cs :
  sep ∉ seg -> split_on sep (seg ++ sep :: cs) = seg :: split_on sep cs.
Proof.
  induction seg as [|c seg IH]; intros Hc; simpl; [by rewrite decide_True|].
  rewrite decide_False by set_solver. by rewrite IH by set_solver.
Qed.

Lemma split_join sep segs :
  segs <> [] -> Forall (fun seg => sep ∉ seg) segs -> split_on sep (join_on sep segs) = segs.
Proof.
  induction segs as [|seg segs IH]; [done|]; intros _ Hf.
  apply Forall_cons in Hf as [H1 H2]. destruct segs as [|seg' segs].
  - by apply split_on_sep_free.
  - change (join_on sep (seg :: seg' :: segs)) with (seg ++ sep :: join_on sep (seg' :: segs)).
    rewrite split_on_app by done. by rewrite IH.
Qed.

Lemma split_on_segs_free sep cs : Forall (fun seg => sep ∉ seg) (split_on sep cs).
Proof.
  induction cs as [|c cs IH]; simpl; [by constructor; [set_solver|]|].
  case_decide; [constructor; [set_solver|done]|].
  destruct (split_on sep cs) as [|seg segs]; [constructor; set_solver|].
  apply Forall_cons in IH as [??]; constructor; set_solver.
Qed.

Fixpoint strip_prefix (pre cs : list ascii) : option (list ascii) :=
  match pre, cs with
  | [], _ => Some cs
  | p :: pre', c :: cs' => if decide (p = c) then strip_prefix pre' cs' else None
  | _ :: _, [] => None
  end.
Definition starts_with (pre cs : list ascii) : bool :=
  match strip_prefix pre cs with Some _ => true | None => false end.

(** [str::contains] with a string pattern *)
Fixpoint contains_chars (pat cs : list ascii) : bool :=
  starts_with pat cs || match cs with [] => false | _ :: r => contains_chars pat r end.

Lemma strip_prefix_spec pre cs rest : strip_prefix pre cs = Some rest <-> cs = pre ++ rest.
Proof.
  revert cs; induction pre as [|p pre IH]; intros cs; simpl; [naive_solver|].
  destruct cs as [|c cs]; [naive_solver|]. case_decide; [subst; rewrite IH; naive_solver|naive_solver].
Qed.

(** The prefix before the first character satisfying [p], and the rest. *)
Fixpoint span (p : ascii -> bool) (cs : list ascii) : list ascii * list ascii :=
  match cs with
  | [] => ([], [])
  | c :: cs' => if p c then let '(a, b) := span p cs' in (c :: a, b) else ([], cs)
  end.

Lemma span_app p cs : fst (span p cs) ++ snd (span p cs) = cs.
Proof. induction cs as [|c cs IH]; simpl; [done|]. destruct (p c), (span p cs); simpl in *; by subst. Qed.

Lemma span_Forall p cs : Forall (fun c => p c = true) (fst (span p cs)).
Proof.
  induction cs as [|c cs IH]; simpl; [done|].
  destruct (p c) eqn:E, (span p cs); simpl in *; by constructor.
Qed.

Lemma span_rest p cs c rest : snd (span p cs) = c :: rest -> p c = false.
Proof.
  induction cs as [|c' cs IH]; simpl; [done|].
  destruct (p c') eqn:E; [by destruct (span p cs)|]. simpl; by intros [= -> _].
Qed.

(** Spanning stops exactly at the first character outside [p]. *)
Lemma span_stop p cs rest :
  Forall (fun c => p c = true) cs ->
  match rest with c :: _ => p c = false | [] => True end ->
  span p (cs ++ rest) = (cs, rest).
Proof.
  intros Hf Hr; induction Hf as [|c cs Hc Hf IH]; simpl.
  - destruct rest as [|c rest]; simpl; [done|]. by rewrite Hr.
  - by rewrite Hc, IH.
Qed.

(** What follows a maximal run of [f]. *)
Definition stops (f : ascii -> bool) (rest : list ascii) : Prop :=
  match rest with c :: _ => f c = false | [] => True end.

Lemma span_stops f cs : stops f (snd (span f cs)).
Proof. unfold stops. destruct (snd (span f cs)) as [|c r] eqn:E; [done|]. by apply (span_rest f cs c r). Qed.

Lemma span_run f cs a b : span f cs = (a, b) <-> cs = a ++ b /\ Forall (fun c => f c = true) a /\ stops f b.
Proof.
  split.
  - intros H. pose proof (span_app f cs) as H1. pose proof (span_Forall f cs) as H2. pose proof (span_stops f cs) as H3. by rewrite H in *.
  - intros (-> & Ha & Hb). by apply span_stop.
Qed.

Lemma span_sub p q cs :
  (forall c, p c = true -> q c = true) ->
  span q cs = let '(a, b) := span p cs in let '(a', b') := span q b in (a ++ a', b').
Proof.
  intros Hpq; induction cs as [|c cs IH]; simpl; [done|].
  destruct (p c) eqn:Hp.
  - rewrite Hpq, IH by done. destruct (span p cs) as [a b]. by destruct (span q b).
  - simpl. by destruct (q c), (span q cs).
Qed.

(** *** Decimal numbers ([to_string], [parse::<uN>]) *)
Definition digit_char (d : Z) : ascii := ascii_of_nat (Z.to_nat (48 + d)).
Definition char_digit (c : ascii) : option Z :=
  if is_ascii_digit c then Some (ascii_code c - 48) else None.

Fixpoint print_dec_loop (fuel : nat) (n : Z) (acc : list ascii) : list ascii :=
  match fuel with
  | O => acc
  | S fuel' =>
      let acc' := digit_char (n mod 10) :: acc in
      if n <? 10 then acc' else print_dec_loop fuel' (n / 10) acc'
  end.
(** [log2 n + 1] bounds the number of decimal digits of [n]. *)
Definition print_dec (n : Z) : list ascii := print_dec_loop (S (Z.to_nat (Z.log2 n))) n [].
Definition to_string (n : Z) : string := text (print_dec n).

(** [{n:0w}] *)
Definition zero_padded (w : nat) (n : Z) : list ascii :=
  let ds := print_dec n in repeat "0"%char (w - List.length ds) ++ ds.
Definition zero_pad (w : nat) (n : Z) : string := text (zero_padded w n).

Fixpoint parse_digits (acc : Z) (cs : list ascii) : option Z :=
  match cs with
  | [] => Some acc
  | c :: cs' => match char_digit c with Some d => parse_digits (10 * acc + d) cs' | None => None end
  end.

(** [str::parse] of an unsigned integer with maximum [max]: an optional [+],
    then at least one decimal digit, and no overflow. *)
Definition parse_uint (max : Z) (cs : list ascii) : option Z :=
  let body := match cs with
    | c :: ((_ :: _) as rest) => if decide (c = "+"%char) then rest else cs
    | _ => cs
    end in
  match body with
  | [] => None
  | _ => match parse_digits 0 body with
         | Some n => if n <=? max then Some n else None
         | None => None
         end
  end.

(** [Display] of a signed integer *)
Definition i64_to_string (n : Z) : string := if n <? 0 then ("-" +:+ to_string (- n))%string else to_string n.

Lemma digit_char_code d : 0 <= d < 10 -> ascii_code (digit_char d) = 48 + d.
Proof. intros H; unfold ascii_code, digit_char; rewrite nat_ascii_embedding; lia. Qed.

Lemma digit_char_digit d : 0 <= d < 10 -> is_ascii_digit (digit_char d) = true.
Proof. intros H; unfold is_ascii_digit; rewrite digit_char_code by lia; lia. Qed.

Lemma char_digit_char d : 0 <= d < 10 -> char_digit (digit_char d) = Some d.
Proof.
  intros H; unfold char_digit; rewrite digit_char_digit, digit_char_code by lia; f_equal; lia.
Qed.

Lemma parse_digits_app acc cs1 cs2 :
  parse_digits acc (cs1 ++ cs2) =
  match parse_digits acc cs1 with Some v => parse_digits v cs2 | None => None end.
Proof.
  revert acc; induction cs1 as [|c cs1 IH]; intros acc; simpl; [done|].
  by destruct (char_digit c).
Qed.

Lemma parse_digits_Some_iff acc cs :
  is_Some (parse_digits acc cs) <-> Forall (fun c => is_ascii_digit c = true) cs.
Proof.
  revert acc; induction cs as [|c cs IH]; intros acc; simpl; [by split; eauto|].
  rewrite Forall_cons. unfold char_digit. destruct (is_ascii_digit c); [rewrite IH; naive_solver|].
  split; [by intros []|naive_solver].
Qed.

Lemma parse_digits_nonneg acc cs v : 0 <= acc -> parse_digits acc cs = Some v -> 0 <= v.
Proof.
  revert acc; induction cs as [|c cs IH]; intros acc Ha; simpl; [by intros [= <-]|].
  unfold char_digit. destruct (is_ascii_digit c) eqn:E; [|done].
  apply IH. unfold is_ascii_digit in E. lia.
Qed.

(** The digits printed before the accumulator, most significant first. *)
Lemma print_dec_loop_spec fuel n acc :
  0 <= n < 2 ^ (Z.of_nat fuel) -> (0 < fuel)%nat ->
  exists ds, print_dec_loop fuel n acc = ds ++ acc /\ ds <> [] /\ parse_digits 0 ds = Some n.
Proof.
  revert n acc; induction fuel as [|fuel IH]; [lia|]; intros n acc Hn _.
  cbn [print_dec_loop]. pose proof (Z.mod_pos_bound n 10 ltac:(lia)) as Hm.
  destruct (Z.ltb_spec n 10) as [Hlt|Hge].
  - exists [digit_char (n mod 10)]. split_and!; [done|done|].
    simpl. rewrite char_digit_char by lia. rewrite Z.mod_small by lia; f_equal; lia.
  - destruct fuel as [|fuel']; [simpl in Hn; lia|].
    assert (0 <= n / 10 < 2 ^ Z.of_nat (S fuel')) as Hd.
    { split; [apply Z.div_pos; lia|]. apply Z.div_lt_upper_bound; [lia|].
      rewrite Nat2Z.inj_succ, Z.pow_succ_r in Hn by lia.
      pose proof (Z.pow_pos_nonneg 2 (Z.of_nat (S fuel'))); lia. }
    destruct (IH (n / 10) (digit_char (n mod 10) :: acc) Hd ltac:(lia)) as (ds & -> & Hne & Hp).
    exists (ds ++ [digit_char (n mod 10)]). split_and!; [by rewrite <- app_assoc|by destruct ds|].
    rewrite parse_digits_app, Hp; simpl. rewrite char_digit_char by lia.
    f_equal. pose proof (Z.div_mod n 10); lia.
Qed.

Lemma print_dec_spec n : 0 <= n -> print_dec n <> [] /\ parse_digits 0 (print_dec n) = Some n.
Proof.
  intros Hn. unfold print_dec.
  destruct (print_dec_loop_spec (S (Z.to_nat (Z.log2 n))) n []) as (ds & -> & H1 & H2).
  - rewrite Nat2Z.inj_succ, Z2Nat.id by apply Z.log2_nonneg.
    destruct (decide (n = 0)) as [->|]; [simpl; lia|].
    pose proof (Z.log2_spec n); lia.
  - lia.
  - by rewrite app_nil_r.
Qed.

Lemma print_dec_digits n : 0 <= n -> Forall (fun c => is_ascii_digit c = true) (print_dec n).
Proof.
  intros Hn. destruct (print_dec_spec n Hn) as [_ H]. by apply (parse_digits_Some_iff 0); eauto.
Qed.

Lemma plus_not_digit : is_ascii_digit "+"%char = false.
Proof. done. Qed.

(** Printing then parsing is the identity below the type's maximum. *)
Lemma parse_print_dec max n : 0 <= n <= max -> parse_uint max (print_dec n) = Some n.
Proof.
  intros Hn. destruct (print_dec_spec n ltac:(lia)) as [Hne Hp].
  pose proof (print_dec_digits n ltac:(lia)) as Hd.
  unfold parse_uint. destruct (print_dec n) as [|c cs]; [done|].
  apply Forall_cons in Hd as [Hc _].
  assert (c <> "+"%char) by (intros ->; rewrite plus_not_digit in Hc; done).
  destruct cs; [|rewrite decide_False by done]; rewrite Hp; by rewrite Zle_imp_le_bool by lia.
Qed.

Lemma parse_uint_bound max cs n : parse_uint max cs = Some n -> 0 <= n <= max.
Proof.
  unfold parse_uint; cbv zeta.
  match goal with |- match ?b with [] => _ | _ => _ end = _ -> _ => destruct b; [done|] end.
  destruct (parse_digits 0 _) as [v|] eqn:E; [|done].
  destruct (Z.leb_spec v max); [|done]. intros [= <-].
  split; [by eapply parse_digits_nonneg; [|exact E]|done].
Qed.

Lemma to_string_inj n m : 0 <= n -> 0 <= m -> to_string n = to_string m -> n = m.
Proof.
  intros Hn Hm H%text_inj. destruct (print_dec_spec n Hn) as [_ E1], (print_dec_spec m Hm) as [_ E2].
  rewrite H, E2 in E1. by injection E1.
Qed.

(** ** [str::cmp]: the byte-wise lexicographic order *)

Definition string_le (a b : string) : bool :=
  match String.compare a b with Gt => false | _ => true end.

Lemma string_le_total a b : string_le a b = true \/ string_le b a = true.
Proof. unfold string_le. rewrite (String.compare_antisym b a). destruct (String.compare a b); cbn; auto. Qed.

Lemma ascii_compare_N a b : Ascii.compare a b = (N_of_ascii a ?= N_of_ascii b)%N.
Proof. reflexivity. Qed.

Lemma string_le_trans a b c : string_le a b = true -> string_le b c = true -> string_le a c = true.
Proof.
  unfold string_le. revert b c. induction a as [|x a IH]; intros [|y b] [|z c]; cbn; try done.
  rewrite !ascii_compare_N. intros H1 H2. specialize (IH b c).
  destruct (N.compare_spec (N_of_ascii x) (N_of_ascii y)) as [E1|E1|E1]; [| |done];
  destruct (N.compare_spec (N_of_ascii y) (N_of_ascii z)) as [E2|E2|E2]; try done;
  destruct (N.compare_spec (N_of_ascii x) (N_of_ascii z)) as [E3|E3|E3]; try done; try lia; auto.
Qed.

Lemma string_le_antisym a b : string_le a b = true -> string_le b a = true -> a = b.
Proof.
  unfold string_le. rewrite (String.compare_antisym b a). destruct (String.compare a b) eqn:E; cbn; try done.
  intros _ _. by apply String.compare_eq_iff.
Qed.

(** ** Stable sorting

    [slice::sort_by] and [sort_by_key] are stable sorts by a comparison. *)
Fixpoint insert_by {A} (le : A -> A -> bool) (x : A) (l : list A) : list A :=
  match l with
  | [] => [x]
  | y :: r => if le x y then x :: y :: r else y :: insert_by le x r
  end.

Definition sort_by {A} (le : A -> A -> bool) (l : list A) : list A :=
  foldr (insert_by le) [] l.

Section Sorting.
Context {A : Type} (le : A -> A -> bool).

Lemma insert_by_perm x l : insert_by le x l ≡ₚ x :: l.
Proof.
  induction l as [|y r IH]; [done|]. cbn [insert_by]. destruct (le x y); [done|].
  rewrite IH. by rewrite Permutation_swap.
Qed.

Lemma sort_by_perm l : sort_by le l ≡ₚ l.
Proof. induction l as [|x l IH]; [done|]. cbn. rewrite insert_by_perm. by f_equiv. Qed.

(** Insertion keeps a list sorted for any relation [R] that [le] decides on
    the elements at hand. *)
Lemma insert_by_sorted (R : relation A) x l :
  Transitive R ->
  (forall y, y ∈ l -> if le x y then R x y else R y x) ->
  StronglySorted R l -> StronglySorted R (insert_by le x l).
Proof.
  intros HT Hx Hs. induction Hs as [|y r Hs IH Hy]; [repeat constructor|].
  cbn [insert_by]. pose proof (Hx y ltac:(set_solver)) as Hxy. destruct (le x y).
  - repeat constructor; [done..|]. eapply Forall_impl; [exact Hy|]. intros z Hz. by etrans.
  - constructor; [apply IH; set_solver|].
    rewrite insert_by_perm. by constructor.
Qed.

Lemma sort_by_sorted (R : relation A) l :
  Transitive R -> (forall x y, if le x y then R x y else R y x) ->
  StronglySorted R (sort_by le l).
Proof.
  intros HT HR. induction l as [|x l IH]; [constructor|]. cbn.
  apply insert_by_sorted; [done| |done]. intros y _. apply HR.
Qed.

(** Only the comparisons of elements of the list matter. *)
Lemma sort_by_ext (le' : A -> A -> bool) l :
  (forall x y, x ∈ l -> y ∈ l -> le x y = le' x y) -> sort_by le l = sort_by le' l.
Proof.
  induction l as [|x l IH]; intros H; [done|].
  change (insert_by le x (sort_by le l) = insert_by le' x (sort_by le' l)). rewrite <- IH by (intros; apply H; by right).
  assert (Hx : forall y, y ∈ sort_by le l -> le x y = le' x y).
  { intros y. rewrite sort_by_perm. intros Hy. apply H; [apply list_elem_of_here|by right]. }
  clear IH H. induction (sort_by le l) as [|y r IHr]; [done|]. cbn [insert_by]. rewrite (Hx y) by apply list_elem_of_here.
  rewrite IHr; [done|]. intros z Hz. apply Hx. by right.
Qed.

(** A relation may be weakened on the elements of a sorted list. *)
Lemma StronglySorted_impl_on (R R' : relation A) l :
  StronglySorted R l -> (forall x y, x ∈ l -> y ∈ l -> R x y -> R' x y) -> StronglySorted R' l.
Proof.
  induction 1 as [|x l Hs IH Hx]; intros HR; constructor.
  - apply IH. intros y z Hy Hz. apply HR; by right.
  - rewrite Forall_forall in Hx |- *. intros y Hy. apply HR; [left|by right|by apply Hx].
Qed.

(** Stability: elements of a class whose members compare equal keep their order. *)
Lemma insert_by_stable (p : A -> bool) x l :
  (forall a b, p a = true -> p b = true -> le a b = true) ->
  List.filter p (insert_by le x l) = List.filter p (x :: l).
Proof.
  intros Hp. induction l as [|y r IH]; [done|]. cbn [insert_by]. destruct (le x y) eqn:E; [done|].
  cbn [List.filter] in *. rewrite IH. destruct (p x) eqn:Ex, (p y) eqn:Ey; try done.
  by rewrite (Hp x y Ex Ey) in E.
Qed.

Lemma sort_by_stable (p : A -> bool) l :
  (forall a b, p a = true -> p b = true -> le a b = true) -> List.filter p (sort_by le l) = List.filter p l.
Proof.
  intros Hp. induction l as [|x l IH]; [done|]. change (sort_by le (x :: l)) with (insert_by le x (sort_by le l)).
  rewrite insert_by_stable by done. cbn [List.filter]. by rewrite IH.
Qed.

End Sorting.

(** ** Hash maps as keyed lists

    A hash map whose values carry their own key is represented by the list of
    its values in some order of interest (insertion, recency). *)
Section Keyed.
Context {A K : Type} {EqK : EqDecision K} {CountK : Countable K} (key : A -> K).
Implicit Types (l : list A) (m : gmap K A).

Definition find_key l (k : K) : option A := List.find (fun a => bool_decide (key a = k)) l.
Definition drop_key l (k : K) : list A := List.filter (fun a => negb (bool_decide (key a = k))) l.

Record keyed_by m l : Prop := {
  kb_lookup : forall k, m !! k = find_key l k;
  kb_nodup : NoDup (key <$> l)
}.

Lemma find_key_cons a l k : find_key (a :: l) k = if decide (key a = k) then Some a else find_key l k.
Proof. unfold find_key; cbn. by case_bool_decide; case_decide. Qed.

Lemma find_key_Some l k a : find_key l k = Some a -> key a = k /\ a ∈ l.
Proof.
  intros [H1 H2]%List.find_some. split; [by apply bool_decide_eq_true in H2|by apply list_elem_of_In].
Qed.

Lemma find_key_None l k : find_key l k = None -> k ∉ key <$> l.
Proof.
  intros H Hin. apply list_elem_of_fmap in Hin as (a & -> & Ha%list_elem_of_In).
  apply (List.find_none _ _ H) in Ha. by apply bool_decide_eq_false in Ha.
Qed.

Lemma find_key_snoc l a k :
  key a ∉ key <$> l -> find_key (l ++ [a]) k = if decide (key a = k) then Some a else find_key l k.
Proof.
  induction l as [|x l IH]; intros Hn; cbn [app]; rewrite !find_key_cons; [done|].
  apply not_elem_of_cons in Hn as [Hx Hn]. rewrite IH by done. repeat case_decide; congruence.
Qed.

Lemma find_key_drop l i k : find_key (drop_key l i) k = if decide (k = i) then None else find_key l k.
Proof.
  induction l as [|x l IH]; [by destruct (decide (k = i))|]. cbn [drop_key List.filter]. fold (drop_key l i).
  case_bool_decide as E; cbn [negb]; rewrite !find_key_cons, IH; repeat case_decide; congruence.
Qed.

Lemma elem_of_drop_key l i a : a ∈ drop_key l i <-> a ∈ l /\ key a <> i.
Proof.
  unfold drop_key. rewrite !list_elem_of_In, List.filter_In, negb_true_iff, bool_decide_eq_false. done.
Qed.

Lemma NoDup_drop_key l i : NoDup (key <$> l) -> NoDup (key <$> drop_key l i) /\ i ∉ key <$> drop_key l i.
Proof.
  intros Hn. split.
  - induction l as [|x l IH]; [done|]. cbn in *. apply NoDup_cons in Hn as [Hx Hn].
    case_bool_decide; cbn; [auto|]. apply NoDup_cons. split; [|auto].
    intros (y & E & Hy)%list_elem_of_fmap. apply Hx. apply list_elem_of_fmap. exists y.
    split; [done|]. by apply elem_of_drop_key in Hy as [? _].
  - intros (y & -> & Hy)%list_elem_of_fmap. by apply elem_of_drop_key in Hy as [_ ?].
Qed.

Lemma keyed_iter m l : keyed_by m l -> map_to_list m ≡ₚ (fun a => (key a, a)) <$> l.
Proof.
  intros [Hl Hn]. assert (m = list_to_map ((fun a => (key a, a)) <$> l)) as ->.
  { apply map_eq. intros k. rewrite Hl. clear. induction l as [|a l IH]; [symmetry; apply lookup_empty|].
    rewrite find_key_cons. cbn. case_decide; [subst; by rewrite lookup_insert_eq|]. by rewrite lookup_insert_ne. }
  apply map_to_list_to_map. rewrite <- list_fmap_compose. exact Hn.
Qed.

Lemma keyed_size m l : keyed_by m l -> size m = length l.
Proof. intros H. rewrite <- length_map_to_list, (Permutation_length (keyed_iter m l H)). apply length_fmap. Qed.

Lemma keyed_empty : keyed_by ∅ [].
Proof. split; [intros k; apply lookup_empty|constructor]. Qed.

(** Dropping a key and putting a value with that key at the end. *)
Lemma keyed_insert m l k a : keyed_by m l -> key a = k -> keyed_by (<[k := a]> m) (drop_key l k ++ [a]).
Proof.
  intros [Hl Hn] Ha. destruct (NoDup_drop_key l k Hn) as [Hn1 Hn2]. split.
  - intros i. rewrite find_key_snoc by (by rewrite Ha). rewrite find_key_drop, Ha.
    destruct (decide (k = i)) as [->|Hne]; [apply lookup_insert_eq|].
    rewrite lookup_insert_ne, Hl by done. by rewrite decide_False by done.
  - rewrite fmap_app. apply NoDup_app. split_and!; [done| |apply NoDup_singleton].
    intros x Hx ->%list_elem_of_singleton. by rewrite Ha in Hx.
Qed.

Lemma drop_key_absent l k : find_key l k = None -> drop_key l k = l.
Proof.
  intros H. unfold drop_key. induction l as [|x l IH]; [done|]. rewrite find_key_cons in H.
  destruct (decide (key x = k)); [done|]. cbn. rewrite bool_decide_eq_false_2 by done. cbn. by rewrite IH.
Qed.

Lemma length_drop_key l k a :
  NoDup (key <$> l) -> find_key l k = Some a -> (length (drop_key l k) + 1)%nat = length l.
Proof.
  induction l as [|x l IH]; intros Hn Hf; [done|]. cbn [fmap list_fmap] in Hn. apply NoDup_cons in Hn as [Hx Hn].
  rewrite find_key_cons in Hf. unfold drop_key. cbn [List.filter]. fold (drop_key l k).
  destruct (decide (key x = k)) as [E|E].
  - rewrite bool_decide_eq_true_2 by done. cbn [negb length]. rewrite drop_key_absent; [lia|].
    destruct (find_key l k) as [y|] eqn:Ey; [|done]. exfalso. apply find_key_Some in Ey as [Ey Hy].
    apply Hx. rewrite E, <- Ey. by apply list_elem_of_fmap_2.
  - rewrite bool_decide_eq_false_2 by done. cbn [negb length]. specialize (IH Hn Hf). lia.
Qed.

Lemma keyed_delete_head m a l : keyed_by m (a :: l) -> keyed_by (delete (key a) m) l.
Proof.
  intros [Hl Hn]. apply NoDup_cons in Hn as [Hx Hn]. split; [|done]. intros k.
  destruct (decide (k = key a)) as [->|Hne].
  - rewrite lookup_delete_eq. destruct (find_key l (key a)) as [b|] eqn:E; [|done]. exfalso.
    apply find_key_Some in E as [E Hb]. apply Hx. rewrite <- E. by apply list_elem_of_fmap_2.
  - rewrite lookup_delete_ne, Hl, find_key_cons by done. by rewrite decide_False by done.
Qed.

End Keyed.
