(* ===== verification/Varint.v ===== *)
(** * Varint: the Perfetto length prefix

    [crates/perfetto-writer/src/varint.rs].  [encode_varint] is the loop of the
    source with an iteration budget; [varint_iterations] passes always suffice
    for a [u64].  [decode_varint] is the protobuf base-128 varint of the wire
    format, the specification the encoder is proved against. *)

From Stdlib Require Import ZArith Lia.
From coqutil Require Import Byte.
From stdpp Require Import base list.
From S2P Require Import Prelude.
Open Scope Z_scope.

(** ** The encoder *)

(** One run of the [loop], at most [fuel] iterations; [None] is "not finished". *)
Fixpoint encode_varint_loop (fuel : nat) (value : Z) (buf : list byte) : option (list byte) :=
  match fuel with
  | O => None
  | S fuel' =>
      let b := Z.land value 0x7F in
      let value' := Z.shiftr value 7 in
      if value' =? 0 then Some (buf ++ [byte.of_Z b])
      else encode_varint_loop fuel' value' (buf ++ [byte.of_Z (Z.lor b 0x80)])
  end.

(** ceil(64 / 7) iterations shift every [u64] to zero. *)
Definition varint_iterations : nat := 10.

Definition encode_varint (value : Z) (buf : list byte) : option (list byte) :=
  encode_varint_loop varint_iterations value buf.

Definition field1_tag_and_length (payload_len : Z) (buf : list byte) : option (list byte) :=
  encode_varint payload_len (buf ++ [byte.of_Z 0x0A]).

(** ** The wire format

    Little-endian groups of seven bits; the top bit of a byte says that another
    byte follows.  Returns the value and the bytes after it. *)
Fixpoint decode_varint (bs : list byte) : option (Z * list byte) :=
  match bs with
  | [] => None
  | b :: rest =>
      let g := Z.land (byte.unsigned b) 0x7F in
      if Z.testbit (byte.unsigned b) 7 then
        match decode_varint rest with
        | Some (v, rest') => Some (Z.lor g (Z.shiftl v 7), rest')
        | None => None
        end
      else Some (g, rest)
  end.

(** ** Bit facts *)

Lemma varint_group_small v : 0 <= Z.land v 0x7F < 128.
Proof.
  change 0x7F with (Z.ones 7). rewrite Z.land_ones by lia.
  pose proof (Z.mod_pos_bound v (2 ^ 7)); lia.
Qed.

Lemma varint_recompose v : 0 <= v -> Z.lor (Z.land v 0x7F) (Z.shiftl (Z.shiftr v 7) 7) = v.
Proof.
  intros Hv. change 0x7F with (Z.ones 7). rewrite <- Z.ldiff_ones_r by lia.
  rewrite Z.lor_comm. apply Z.lor_ldiff_and.
Qed.

Lemma varint_last_byte v :
  byte.unsigned (byte.of_Z (Z.land v 0x7F)) = Z.land v 0x7F.
Proof.
  pose proof (varint_group_small v). rewrite byte.unsigned_of_Z.
  unfold byte.wrap; apply Z.mod_small; lia.
Qed.

Lemma varint_more_byte v :
  byte.unsigned (byte.of_Z (Z.lor (Z.land v 0x7F) 0x80)) = Z.land v 0x7F + 128.
Proof.
  pose proof (varint_group_small v) as Hg. rewrite byte.unsigned_of_Z.
  assert (Z.lor (Z.land v 0x7F) 0x80 = Z.land v 0x7F + 128) as ->.
  { symmetry; apply Z.add_nocarry_lor.
    apply Z.bits_inj'; intros n Hn. rewrite Z.land_spec, Z.bits_0.
    change 0x80 with (2 ^ 7). rewrite Z.pow2_bits_eqb by lia.
    change 0x7F with (Z.ones 7). rewrite Z.land_spec.
    destruct (Z.eqb_spec 7 n) as [<-|]; [|by rewrite andb_false_r].
    by rewrite andb_comm, Z.ones_spec_high, andb_false_r by lia. }
  unfold byte.wrap; apply Z.mod_small; lia.
Qed.

Lemma testbit7_low g : 0 <= g < 128 -> Z.testbit g 7 = false.
Proof.
  intros H. destruct (decide (g = 0)) as [->|]; [apply Z.bits_0|].
  apply Z.bits_above_log2; [lia|]. apply Z.log2_lt_pow2; lia.
Qed.

Lemma testbit7_high g : 0 <= g < 128 -> Z.testbit (g + 128) 7 = true.
Proof.
  intros H. rewrite Z.testbit_true by lia.
  replace (g + 128) with (g + 1 * 128) by lia. change (2 ^ 7) with 128.
  rewrite Z.div_add, Z.div_small by lia. done.
Qed.

Lemma land7_high g : 0 <= g < 128 -> Z.land (g + 128) 0x7F = g.
Proof.
  intros H. change 0x7F with (Z.ones 7). rewrite Z.land_ones by lia.
  change (2 ^ 7) with (128). replace (g + 128) with (g + 1 * 128) by lia.
  rewrite Z.mod_add by lia. apply Z.mod_small; lia.
Qed.

Lemma shiftr7_bound v k : 0 <= v < 2 ^ (7 * (k + 1)) -> 0 <= k -> 0 <= Z.shiftr v 7 < 2 ^ (7 * k).
Proof.
  intros Hv Hk. rewrite Z.shiftr_div_pow2 by lia.
  replace (7 * (k + 1)) with (7 + 7 * k) in Hv by lia.
  rewrite Z.pow_add_r in Hv by lia.
  split; [apply Z.div_pos; lia|apply Z.div_lt_upper_bound; lia].
Qed.

(** ** The loop invariant *)

(** The loop appends to [buf] at least one and at most [fuel] bytes, which decode to the value. *)
Lemma encode_varint_loop_spec fuel v buf :
  0 <= v < 2 ^ (7 * Z.of_nat fuel) -> (0 < fuel)%nat ->
  exists bs, encode_varint_loop fuel v buf = Some (buf ++ bs) /\
    (1 <= length bs <= fuel)%nat /\
    forall rest, decode_varint (bs ++ rest) = Some (v, rest).
Proof.
  revert v buf; induction fuel as [|fuel IH]; [lia|]; intros v buf Hv _.
  cbn [encode_varint_loop]. pose proof (varint_group_small v) as Hg.
  destruct (Z.eqb_spec (Z.shiftr v 7) 0) as [Hz|Hnz].
  - exists [byte.of_Z (Z.land v 0x7F)]. split_and!; [done|simpl; lia|simpl; lia|].
    intros rest; cbn [decode_varint app]. rewrite varint_last_byte, testbit7_low by done.
    assert (Z.land v 0x7F = v) as Heq; [|by rewrite !Heq].
    rewrite <- (varint_recompose v) at 2 by lia. rewrite Hz. symmetry; apply Z.lor_0_r.
  - destruct fuel as [|fuel'].
    { exfalso; apply Hnz. pose proof (shiftr7_bound v 0) as H; simpl in *; lia. }
    destruct (IH (Z.shiftr v 7) (buf ++ [byte.of_Z (Z.lor (Z.land v 0x7F) 0x80)]))
      as (bs & Hr & Hl & Hd); [apply shiftr7_bound; lia|lia|].
    exists (byte.of_Z (Z.lor (Z.land v 0x7F) 0x80) :: bs). split_and!; [|simpl; lia|simpl; lia|].
    + rewrite Hr, <- app_assoc. done.
    + intros rest; cbn [decode_varint app]. rewrite varint_more_byte, testbit7_high by done.
      rewrite Hd, land7_high by done. by rewrite varint_recompose by lia.
Qed.

(** ** Properties *)

(** For every [u64] the encoder terminates within its ten iterations, appends between one and
    ten bytes to the buffer without touching what is there, and whatever follows them on the wire a
    protobuf reader decodes exactly the value back and resumes at the following byte. *)
Theorem encode_varint_roundtrip (v : Z) (buf rest : list byte) :
  u64_ok v ->
  exists bs, encode_varint v buf = Some (buf ++ bs) /\
    (1 <= length bs <= 10)%nat /\
    decode_varint (bs ++ rest) = Some (v, rest).
Proof.
  intros Hv. destruct (encode_varint_loop_spec 10 v buf) as (bs & H1 & H2 & H3);
    [unfold_int; lia|lia|]. by exists bs.
Qed.

Lemma encode_varint_roundtrip_witness :
  u64_ok 300 /\ exists bs, encode_varint 300 [] = Some ([] ++ bs) /\
    (1 <= length bs <= 10)%nat /\ decode_varint (bs ++ [byte.of_Z 7]) = Some (300, [byte.of_Z 7]).
Proof.
  assert (u64_ok 300) as H by (vm_compute; split; discriminate).
  split; [exact H|]. apply (encode_varint_roundtrip 300 [] [byte.of_Z 7] H).
Defined.

Example encode_varint_300 : encode_varint 300 [] = Some [byte.of_Z 0xAC; byte.of_Z 0x02].
Proof. vm_compute. reflexivity. Qed.

Example encode_varint_max :
  (map byte.unsigned <$> encode_varint U64_MAX []) =
  Some [255; 255; 255; 255; 255; 255; 255; 255; 255; 1].
Proof. vm_compute. reflexivity. Qed.
