(* ===== verification/Framing.v ===== *)
(** * Framing: Content-Length framed messages

    [crates/rocket-surgeon-transport/src/framing.rs].  The [BufRead] side is the
    finite byte stream still to be read; every result carries the stream left
    behind, so that reading several messages in a row is function composition.
    [String::from_utf8], [read_line], [str::trim] and [str::parse] are modelled
    with their UTF-8 semantics. *)

From Stdlib Require Import ZArith Lia Ascii String.
From stdpp Require Import base list strings sets.
From S2P Require Import Prelude.
Open Scope Z_scope.

Definition MAX_MESSAGE_BYTES : Z := 16 * 1024 * 1024.

Inductive IoErrorKind := UnexpectedEof | InvalidData | Io_Other (text : string).

Inductive FramingError :=
| MissingContentLength
| InvalidContentLength
| MessageTooLarge (n : Z)
| Io (kind : IoErrorKind).

(** ** UTF-8 *)

Definition is_cont (b : Z) : bool := (0x80 <=? b) && (b <=? 0xBF).
Definition in_range (lo hi b : Z) : bool := (lo <=? b) && (b <=? hi).
Definition cont_bits (b : Z) : Z := Z.land b 0x3F.

(** The code points of a byte sequence, or [None] when it is not UTF-8 (the
    well-formed sequences of Unicode table 3-7: no overlong forms, no
    surrogates, nothing above U+10FFFF). *)
Fixpoint utf8_decode (cs : list ascii) : option (list Z) :=
  match cs with
  | [] => Some []
  | c0 :: r0 =>
      let b0 := ascii_code c0 in
      if b0 <? 0x80 then cons b0 <$> utf8_decode r0
      else match r0 with
      | [] => None
      | c1 :: r1 =>
          let b1 := ascii_code c1 in
          if in_range 0xC2 0xDF b0 && is_cont b1 then
            cons (Z.lor (Z.shiftl (Z.land b0 0x1F) 6) (cont_bits b1)) <$> utf8_decode r1
          else match r1 with
          | [] => None
          | c2 :: r2 =>
              let b2 := ascii_code c2 in
              let ok3 := ((b0 =? 0xE0) && in_range 0xA0 0xBF b1)
                      || (in_range 0xE1 0xEC b0 && is_cont b1)
                      || ((b0 =? 0xED) && in_range 0x80 0x9F b1)
                      || (in_range 0xEE 0xEF b0 && is_cont b1) in
              if ok3 && is_cont b2 then
                cons (Z.lor (Z.shiftl (Z.land b0 0x0F) 12)
                     (Z.lor (Z.shiftl (cont_bits b1) 6) (cont_bits b2))) <$> utf8_decode r2
              else match r2 with
              | [] => None
              | c3 :: r3 =>
                  let b3 := ascii_code c3 in
                  let ok4 := ((b0 =? 0xF0) && in_range 0x90 0xBF b1)
                          || (in_range 0xF1 0xF3 b0 && is_cont b1)
                          || ((b0 =? 0xF4) && in_range 0x80 0x8F b1) in
                  if ok4 && is_cont b2 && is_cont b3 then
                    cons (Z.lor (Z.shiftl (Z.land b0 0x07) 18)
                         (Z.lor (Z.shiftl (cont_bits b1) 12)
                         (Z.lor (Z.shiftl (cont_bits b2) 6) (cont_bits b3)))) <$> utf8_decode r3
                  else None
              end
          end
      end
  end.

(** [char::encode_utf8] *)
Definition byte_char (b : Z) : ascii := ascii_of_nat (Z.to_nat b).
Definition utf8_encode (c : Z) : list ascii :=
  let tail n := byte_char (0x80 + c / 64 ^ n mod 64) in
  if c <? 0x80 then [byte_char c]
  else if c <? 0x800 then [byte_char (0xC0 + c / 64); tail 0]
  else if c <? 0x10000 then [byte_char (0xE0 + c / 64 ^ 2); tail 1; tail 0]
  else [byte_char (0xF0 + c / 64 ^ 3); tail 2; tail 1; tail 0].

Definition utf8_valid (cs : list ascii) : bool :=
  match utf8_decode cs with Some _ => true | None => false end.

(** [char::is_whitespace]: the code points with the White_Space property. *)
Definition char_is_whitespace (c : Z) : bool :=
  in_range 0x09 0x0D c || (c =? 0x20) || (c =? 0x85) || (c =? 0xA0) || (c =? 0x1680)
  || in_range 0x2000 0x200A c || (c =? 0x2028) || (c =? 0x2029) || (c =? 0x202F)
  || (c =? 0x205F) || (c =? 0x3000).

Fixpoint drop_while {A} (p : A -> bool) (l : list A) : list A :=
  match l with
  | [] => []
  | x :: l' => if p x then drop_while p l' else l
  end.
Definition drop_while_end {A} (p : A -> bool) (l : list A) : list A :=
  rev (drop_while p (rev l)).
(** [str::trim] *)
Definition trim (cps : list Z) : list Z :=
  drop_while_end char_is_whitespace (drop_while char_is_whitespace cps).

(** [s.trim().parse::<usize>()]; a non-ASCII character is an invalid digit. *)
Definition ascii_of_cp (cp : Z) : option ascii :=
  if cp <? 0x80 then Some (ascii_of_nat (Z.to_nat cp)) else None.
Definition parse_trimmed_usize (value : list ascii) : option Z :=
  match utf8_decode value with
  | Some cps => mapM ascii_of_cp (trim cps) ≫= parse_uint USIZE_MAX
  | None => None
  end.

(** ** Reading *)

Definition LF : ascii := ascii_of_nat 10.
Definition CR : ascii := ascii_of_nat 13.

(** The bytes up to and including the first LF, and the stream after them. *)
Fixpoint take_line (cs : list ascii) : list ascii * list ascii :=
  match cs with
  | [] => ([], [])
  | c :: cs' => if decide (c = LF) then ([c], cs')
                else let '(l, r) := take_line cs' in (c :: l, r)
  end.

(** [BufRead::read_line]: fails on a line that is not UTF-8. *)
Definition read_line (input : list ascii) : result IoErrorKind (list ascii) * list ascii :=
  let '(line, rest) := take_line input in
  if utf8_valid line then (Ok line, rest) else (Err InvalidData, rest).

Definition is_eol (c : ascii) : bool := bool_decide (c = CR) || bool_decide (c = LF).

(** [str::split_once(':')] *)
Fixpoint split_once (sep : ascii) (cs : list ascii) : option (list ascii * list ascii) :=
  match cs with
  | [] => None
  | c :: cs' => if decide (c = sep) then Some ([], cs')
                else '(k, v) ← split_once sep cs'; Some (c :: k, v)
  end.

Definition to_ascii_lowercase (c : ascii) : ascii :=
  if in_range 65 90 (ascii_code c) then ascii_of_nat (Z.to_nat (ascii_code c + 32)) else c.
Definition eq_ignore_ascii_case (a b : list ascii) : bool :=
  bool_decide (map to_ascii_lowercase a = map to_ascii_lowercase b).

Definition content_length_key : list ascii := chars "content-length".

(** The header loop: one line per iteration, at most [fuel] of them ([None]). *)
Fixpoint read_headers (fuel : nat) (content_length : option Z) (input : list ascii)
  : option (result FramingError (option Z) * list ascii) :=
  match fuel with
  | O => None
  | S fuel' =>
      match read_line input with
      | (Err k, rest) => Some (Err (Io k), rest)
      | (Ok line, rest) =>
          if (length line =? 0)%nat then Some (Err (Io UnexpectedEof), rest)
          else
            let trimmed := drop_while_end is_eol line in
            if (length trimmed =? 0)%nat then Some (Ok content_length, rest)
            else match split_once ":" trimmed with
                 | Some (key, value) =>
                     if eq_ignore_ascii_case key content_length_key then
                       match parse_trimmed_usize value with
                       | Some n => read_headers fuel' (Some n) rest
                       | None => Some (Err InvalidContentLength, rest)
                       end
                     else read_headers fuel' content_length rest
                 | None => read_headers fuel' content_length rest
                 end
      end
  end.

(** [read_exact] into a buffer of [n] bytes. *)
Definition read_exact (n : Z) (input : list ascii) : result IoErrorKind (list ascii) * list ascii :=
  if n <=? Z.of_nat (length input)
  then (Ok (take (Z.to_nat n) input), drop (Z.to_nat n) input)
  else (Err UnexpectedEof, []).

(** Every iteration of the header loop consumes a byte or leaves, so one more
    iteration than there are bytes is enough. *)
Definition read_message (input : list ascii) : option (result FramingError string * list ascii) :=
  match read_headers (S (length input)) None input with
  | None => None
  | Some (Err e, rest) => Some (Err e, rest)
  | Some (Ok None, rest) => Some (Err MissingContentLength, rest)
  | Some (Ok (Some content_length), rest) =>
      if MAX_MESSAGE_BYTES <? content_length
      then Some (Err (MessageTooLarge content_length), rest)
      else match read_exact content_length rest with
           | (Err k, rest') => Some (Err (Io k), rest')
           | (Ok body, rest') =>
               if utf8_valid body then Some (Ok (text body), rest')
               else Some (Err (Io InvalidData), rest')
           end
  end.

(** ** Writing *)

Definition write_message (body : string) : list ascii :=
  let bytes := chars body in
  chars "Content-Length: " ++ print_dec (Z.of_nat (length bytes)) ++ [CR; LF; CR; LF] ++ bytes.

(** ** Line and header lemmas *)

Lemma take_line_spec cs l r : take_line cs = (l, r) -> cs = l ++ r.
Proof.
  revert l r; induction cs as [|c cs IH]; simpl; intros l r; [by intros [= <- <-]|].
  case_decide; [by intros [= <- <-]|]. destruct (take_line cs) as [l' r'].
  intros [= <- <-]; simpl; f_equal; by apply IH.
Qed.

Lemma take_line_app l r : LF ∉ l -> take_line (l ++ LF :: r) = (l ++ [LF], r).
Proof.
  induction l as [|c l IH]; intros Hl; cbn [take_line app]; [by rewrite decide_True|].
  rewrite decide_False by set_solver. by rewrite IH by set_solver.
Qed.

Lemma take_line_nil cs r : take_line cs = ([], r) -> cs = [].
Proof.
  destruct cs as [|c cs]; simpl; [done|]. case_decide; [done|]. by destruct (take_line cs).
Qed.

Lemma utf8_decode_ascii cs :
  Forall (fun c => ascii_code c < 0x80) cs -> utf8_decode cs = Some (map ascii_code cs).
Proof.
  induction 1 as [|c cs Hc Hf IH]; simpl; [done|].
  destruct (Z.ltb_spec (ascii_code c) 0x80); [by rewrite IH|lia].
Qed.

(** *** Encoding is the inverse of decoding *)

Lemma byte_char_code c : byte_char (ascii_code c) = c.
Proof. unfold byte_char, ascii_code. by rewrite Nat2Z.id, ascii_nat_embedding. Qed.

Lemma ascii_code_range c : 0 <= ascii_code c < 256.
Proof. unfold ascii_code. pose proof (nat_ascii_bounded c). lia. Qed.

Ltac byte_ranges :=
  repeat match goal with
  | H : _ || _ = true |- _ => apply orb_true_iff in H
  | H : _ && _ = true |- _ => apply andb_true_iff in H as [? ?]
  | H : _ \/ _ |- _ => destruct H
  | H : (_ <=? _) = true |- _ => apply Z.leb_le in H
  | H : (_ =? _) = true |- _ => apply Z.eqb_eq in H
  | H : (_ <? _) = true |- _ => apply Z.ltb_lt in H
  | H : (_ <? _) = false |- _ => apply Z.ltb_ge in H
  end.

Lemma cont_bits_mod b : cont_bits b = b mod 64.
Proof. apply (Z.land_ones b 6). lia. Qed.

Lemma byte_char_eq c z : z = ascii_code c -> byte_char z = c.
Proof. intros ->. apply byte_char_code. Qed.

Lemma lor_low a b n m : m = 2 ^ n -> 0 <= n -> 0 <= b < m -> Z.lor (Z.shiftl a n) b = a * m + b.
Proof. intros -> Hn Hb. by apply lor_shiftl_add. Qed.

(** The first byte and the continuation bytes of a sequence, by what they carry. *)
Lemma lead_bits b k mask base : mask = 2 ^ k - 1 -> 0 <= k -> base mod 2 ^ k = 0 -> base <= b <= base + mask -> Z.land b mask = b - base.
Proof.
  intros -> Hk Hb Hr. replace (2 ^ k - 1) with (Z.ones k) by (rewrite Z.ones_equiv; lia). rewrite Z.land_ones by done.
  replace (b mod 2 ^ k) with ((b - base) mod 2 ^ k); [apply Z.mod_small; lia|].
  rewrite Zminus_mod, Hb, Z.sub_0_r. apply Z.mod_mod. lia.
Qed.

Lemma cont_value b : is_cont b = true -> cont_bits b = b - 0x80 /\ 0 <= b - 0x80 < 64.
Proof. unfold is_cont. intros H. byte_ranges. split; [|lia]. apply (lead_bits b 6); (done || lia). Qed.

Lemma utf8_encode_2 c0 c1 : in_range 0xC2 0xDF (ascii_code c0) = true -> is_cont (ascii_code c1) = true ->
  utf8_encode (Z.lor (Z.shiftl (Z.land (ascii_code c0) 0x1F) 6) (cont_bits (ascii_code c1))) = [c0; c1].
Proof.
  unfold in_range. intros H0 [-> H1]%cont_value. byte_ranges.
  rewrite (lead_bits _ 5 _ 0xC0), (lor_low _ _ 6 64) by (done || lia).
  set (b0 := ascii_code c0) in *. set (b1 := ascii_code c1) in *. unfold utf8_encode.
  rewrite (proj2 (Z.ltb_ge _ 0x80)), (proj2 (Z.ltb_lt _ 0x800)) by lia. cbn [Z.pow Z.pow_pos Pos.iter].
  repeat f_equal; apply byte_char_eq; fold b0 b1; Z.div_mod_to_equations; lia.
Qed.

Lemma utf8_encode_3 c0 c1 c2 v :
  (ascii_code c0 = 0xE0 /\ 0xA0 <= ascii_code c1 \/ 0xE1 <= ascii_code c0 <= 0xEF) ->
  is_cont (ascii_code c1) = true -> is_cont (ascii_code c2) = true -> v = 6 ->
  utf8_encode (Z.lor (Z.shiftl (Z.land (ascii_code c0) 0x0F) 12)
                     (Z.lor (Z.shiftl (cont_bits (ascii_code c1)) v) (cont_bits (ascii_code c2)))) = [c0; c1; c2].
Proof.
  intros H0 [-> H1]%cont_value [-> H2]%cont_value ->.
  rewrite (lead_bits _ 4 _ 0xE0), (lor_low _ _ 6 64), (lor_low _ _ 12 4096) by (done || lia).
  set (b0 := ascii_code c0) in *. set (b1 := ascii_code c1) in *. set (b2 := ascii_code c2) in *. unfold utf8_encode.
  rewrite (proj2 (Z.ltb_ge _ 0x80)), (proj2 (Z.ltb_ge _ 0x800)), (proj2 (Z.ltb_lt _ 0x10000)) by lia.
  cbn [Z.pow Z.pow_pos Pos.iter Z.mul Pos.mul Pos.add].
  repeat f_equal; apply byte_char_eq; fold b0 b1 b2; Z.div_mod_to_equations; lia.
Qed.

Lemma utf8_encode_4 c0 c1 c2 c3 :
  (ascii_code c0 = 0xF0 /\ 0x90 <= ascii_code c1 \/ 0xF1 <= ascii_code c0 <= 0xF4) ->
  is_cont (ascii_code c1) = true -> is_cont (ascii_code c2) = true -> is_cont (ascii_code c3) = true ->
  utf8_encode (Z.lor (Z.shiftl (Z.land (ascii_code c0) 0x07) 18)
                     (Z.lor (Z.shiftl (cont_bits (ascii_code c1)) 12)
                     (Z.lor (Z.shiftl (cont_bits (ascii_code c2)) 6) (cont_bits (ascii_code c3))))) = [c0; c1; c2; c3].
Proof.
  intros H0 [-> H1]%cont_value [-> H2]%cont_value [-> H3]%cont_value.
  rewrite (lead_bits _ 3 _ 0xF0), (lor_low _ _ 6 64), (lor_low _ _ 12 4096), (lor_low _ _ 18 262144) by (done || lia).
  set (b0 := ascii_code c0) in *. set (b1 := ascii_code c1) in *. set (b2 := ascii_code c2) in *. set (b3 := ascii_code c3) in *.
  unfold utf8_encode. rewrite (proj2 (Z.ltb_ge _ 0x80)), (proj2 (Z.ltb_ge _ 0x800)), (proj2 (Z.ltb_ge _ 0x10000)) by lia.
  cbn [Z.pow Z.pow_pos Pos.iter Z.mul Pos.mul Pos.add].
  repeat f_equal; apply byte_char_eq; fold b0 b1 b2 b3; Z.div_mod_to_equations; lia.
Qed.

(** Encoding the characters of a text gives its bytes back. *)
Lemma utf8_encode_decode cs cps : utf8_decode cs = Some cps -> concat (utf8_encode <$> cps) = cs.
Proof.
  remember (List.length cs) as n eqn:En. revert cs cps En. induction (lt_wf n) as [n _ IH]. intros cs cps ->.
  assert (Hrec : forall pre r d tail, cs = pre ++ r -> pre <> [] -> utf8_encode d = pre -> utf8_decode r = Some tail ->
                   concat (utf8_encode <$> d :: tail) = cs).
  { intros pre r d tail -> Hp Hd Ht. rewrite fmap_cons. cbn [concat]. rewrite Hd. f_equal.
    eapply (IH (List.length r)); [|done|done]. rewrite length_app. destruct pre; [done|cbn; lia]. }
  destruct cs as [|c0 r0]; [by intros [= <-]|]. cbn [utf8_decode].
  destruct (Z.ltb_spec (ascii_code c0) 0x80) as [Hb|Hb].
  { intros (t & Ht & ->)%fmap_Some. eapply (Hrec [c0]); [done..| |exact Ht]. unfold utf8_encode.
    rewrite (proj2 (Z.ltb_lt _ _)) by done. by rewrite byte_char_code. }
  destruct r0 as [|c1 r1]; [done|]. destruct (in_range 0xC2 0xDF (ascii_code c0) && is_cont (ascii_code c1)) eqn:E2.
  { apply andb_true_iff in E2 as [? ?]. intros (t & Ht & ->)%fmap_Some. eapply (Hrec [c0; c1]); [done..| |exact Ht]. by apply utf8_encode_2. }
  clear E2. destruct r1 as [|c2 r2]; [done|]. match goal with |- context [if ?b then _ else _] => destruct b eqn:E3 end.
  { apply andb_true_iff in E3 as [E3 H2]. intros (t & Ht & ->)%fmap_Some. eapply (Hrec [c0; c1; c2]); [done..| |exact Ht].
    unfold in_range, is_cont in E3. apply utf8_encode_3; [byte_ranges; lia| |done|done]. unfold is_cont. byte_ranges; apply andb_true_iff; split; apply Z.leb_le; lia. }
  clear E3. destruct r2 as [|c3 r3]; [done|]. match goal with |- context [if ?b then _ else _] => destruct b eqn:E4 end; [|done].
  apply andb_true_iff in E4 as [[E4 H2]%andb_true_iff H3]. intros (t & Ht & ->)%fmap_Some. eapply (Hrec [c0; c1; c2; c3]); [done..| |exact Ht].
  unfold in_range, is_cont in E4. apply utf8_encode_4; [byte_ranges; lia| |done|done]. unfold is_cont. byte_ranges; apply andb_true_iff; split; apply Z.leb_le; lia.
Qed.


Lemma digit_code c : is_ascii_digit c = true -> 48 <= ascii_code c <= 57.
Proof. unfold is_ascii_digit; lia. Qed.

Lemma digits_ascii ds :
  Forall (fun c => is_ascii_digit c = true) ds -> Forall (fun c => ascii_code c < 0x80) ds.
Proof. intros H; eapply Forall_impl; [exact H|]; intros c Hc%digit_code; lia. Qed.

Lemma drop_while_none {A} (p : A -> bool) l :
  match l with x :: _ => p x = false | [] => True end -> drop_while p l = l.
Proof. destruct l; simpl; [done|]. by intros ->. Qed.

Lemma drop_while_app {A} (p : A -> bool) l1 l2 :
  Forall (fun x => p x = true) l1 -> drop_while p (l1 ++ l2) = drop_while p l2.
Proof. induction 1 as [|x l1 Hx Hf IH]; simpl; [done|]. by rewrite Hx. Qed.

Lemma drop_while_end_app {A} (p : A -> bool) l suf :
  Forall (fun x => p x = true) suf ->
  match rev l with x :: _ => p x = false | [] => True end ->
  drop_while_end p (l ++ suf) = l.
Proof.
  intros Hs Hl. unfold drop_while_end. rewrite rev_app_distr, drop_while_app.
  - by rewrite drop_while_none, rev_involutive.
  - by apply Forall_rev.
Qed.

Lemma rev_Forall_head {A} (P : A -> Prop) l :
  Forall P l -> match rev l with x :: _ => P x | [] => True end.
Proof. intros H%Forall_rev. by destruct H. Qed.

Lemma digit_not_space c : is_ascii_digit c = true -> char_is_whitespace (ascii_code c) = false.
Proof. intros H%digit_code. unfold char_is_whitespace, in_range. lia. Qed.

Lemma trim_digits ds :
  Forall (fun c => is_ascii_digit c = true) ds ->
  trim (0x20 :: map ascii_code ds) = map ascii_code ds.
Proof.
  intros Hd. unfold trim. simpl drop_while.
  assert (Forall (fun z => char_is_whitespace z = false) (map ascii_code ds)) as Hw.
  { apply Forall_map. eapply Forall_impl; [exact Hd|]. by intros c Hc%digit_not_space. }
  rewrite drop_while_none by (by destruct Hw).
  rewrite <- (app_nil_r (map ascii_code ds)) at 1. apply drop_while_end_app; [done|].
  by apply (rev_Forall_head (fun z => char_is_whitespace z = false)).
Qed.

Lemma ascii_of_code c : ascii_code c < 0x80 -> ascii_of_cp (ascii_code c) = Some c.
Proof.
  intros H. unfold ascii_of_cp. destruct (Z.ltb_spec (ascii_code c) 0x80); [|lia].
  unfold ascii_code. by rewrite Nat2Z.id, ascii_nat_embedding.
Qed.

Lemma mapM_ascii_of_code ds :
  Forall (fun c => ascii_code c < 0x80) ds -> mapM ascii_of_cp (map ascii_code ds) = Some ds.
Proof. induction 1 as [|c ds Hc Hf IH]; simpl; [done|]. by rewrite ascii_of_code, IH. Qed.

Lemma parse_trimmed_print n :
  0 <= n <= USIZE_MAX -> parse_trimmed_usize (" "%char :: print_dec n) = Some n.
Proof.
  intros Hn. pose proof (print_dec_digits n ltac:(lia)) as Hd.
  unfold parse_trimmed_usize. rewrite utf8_decode_ascii.
  - change (map ascii_code (" "%char :: print_dec n)) with (0x20 :: map ascii_code (print_dec n)).
    rewrite trim_digits, mapM_ascii_of_code by auto using digits_ascii.
    by apply parse_print_dec.
  - constructor; [vm_compute; done|by apply digits_ascii].
Qed.

(** What the reader sees of the header a writer produced. *)
Definition header_line (n : Z) : list ascii := chars "Content-Length: " ++ print_dec n ++ [CR; LF].

Lemma header_line_read n rest :
  0 <= n -> read_line (header_line n ++ rest) = (Ok (header_line n), rest).
Proof.
  intros Hn. pose proof (print_dec_digits n Hn) as Hd.
  unfold read_line, header_line. rewrite (app_assoc (chars _)), <- app_assoc.
  change ([CR; LF] ++ rest) with ([CR] ++ LF :: rest). rewrite (app_assoc _ [CR]), take_line_app.
  - assert (utf8_valid (((chars "Content-Length: " ++ print_dec n) ++ [CR]) ++ [LF]) = true) as ->.
    { unfold utf8_valid. rewrite utf8_decode_ascii; [done|]. rewrite !Forall_app. split_and!.
      - vm_compute. repeat constructor.
      - by apply digits_ascii.
      - vm_compute. repeat constructor.
      - vm_compute. repeat constructor. }
    by rewrite <- !app_assoc.
  - rewrite !not_elem_of_app. split_and!.
    + vm_compute. set_solver.
    + intros Hin. apply (proj1 (Forall_forall _ _) Hd) in Hin. by vm_compute in Hin.
    + vm_compute. set_solver.
Qed.

Lemma header_line_trim n :
  0 <= n -> drop_while_end is_eol (header_line n) = chars "Content-Length: " ++ print_dec n.
Proof.
  intros Hn. pose proof (print_dec_digits n Hn) as Hd. destruct (print_dec_spec n Hn) as [Hne _].
  unfold header_line. rewrite app_assoc. apply drop_while_end_app; [by repeat constructor|].
  rewrite rev_app_distr. apply Forall_rev in Hd.
  destruct (rev (print_dec n)) as [|c cs] eqn:E.
  - destruct Hne. by rewrite <- (rev_involutive (print_dec n)), E.
  - apply Forall_cons in Hd as [Hc%digit_code _]. cbn [app]. unfold is_eol.
    rewrite !bool_decide_eq_false_2; [done| |]; intros ->.
    + change (ascii_code LF) with 10 in Hc; lia.
    + change (ascii_code CR) with 13 in Hc; lia.
Qed.

Lemma read_headers_written fuel n rest :
  0 <= n <= USIZE_MAX -> (2 <= fuel)%nat ->
  read_headers fuel None (header_line n ++ CR :: LF :: rest) = Some (Ok (Some n), rest).
Proof.
  intros Hn Hf. destruct fuel as [|[|fuel]]; [lia|lia|].
  cbn [read_headers]. rewrite header_line_read by lia.
  change (length (header_line n) =? 0)%nat with false; cbv iota.
  rewrite header_line_trim by lia.
  change (length (chars "Content-Length: " ++ print_dec n) =? 0)%nat with false; cbv iota.
  change (split_once ":" (chars "Content-Length: " ++ print_dec n))
    with (Some (chars "Content-Length", " "%char :: print_dec n)); cbv iota beta.
  change (eq_ignore_ascii_case (chars "Content-Length") content_length_key) with true; cbv iota.
  rewrite parse_trimmed_print by done.
  change (CR :: LF :: rest) with ([CR] ++ LF :: rest).
  unfold read_line. rewrite take_line_app by (vm_compute; set_solver). done.
Qed.

Lemma read_line_spec input r rest : read_line input = (r, rest) ->
  exists line, input = line ++ rest /\ match r with Ok l => l = line | Err _ => line <> [] end.
Proof.
  unfold read_line. destruct (take_line input) as [l r'] eqn:E.
  apply take_line_spec in E as ->. destruct (utf8_valid l) eqn:U; intros [= <- <-]; exists l; [done|].
  split; [done|]. by intros ->.
Qed.

(** A header loop with more iterations than bytes always leaves. *)
Lemma read_headers_total fuel cl input :
  (length input < fuel)%nat -> is_Some (read_headers fuel cl input).
Proof.
  revert cl input; induction fuel as [|fuel IH]; intros cl input Hf; [lia|]. cbn [read_headers].
  destruct (read_line input) as [[line|k] rest] eqn:E; [|by eauto].
  apply read_line_spec in E as (line' & -> & <-).
  destruct line as [|c line]; [by simpl; eauto|]. cbn [length Nat.eqb]; cbv iota.
  assert (length rest < fuel)%nat by (rewrite length_app in Hf; simpl in Hf; lia).
  simplify_match; eauto.
Qed.

Lemma read_headers_suffix fuel cl input r rest :
  read_headers fuel cl input = Some (r, rest) -> exists hdr, input = hdr ++ rest.
Proof.
  revert cl input; induction fuel as [|fuel IH]; intros cl input; [done|]. cbn [read_headers].
  destruct (read_line input) as [[line|k] rest'] eqn:E;
    apply read_line_spec in E as (line' & -> & _); [|intros [= <- <-]; eauto].
  intros H. cut (exists hdr, rest' = hdr ++ rest).
  { intros [hdr ->]; exists (line' ++ hdr). by rewrite app_assoc. }
  simplify_match; first [by exists [] | by eapply IH].
Qed.

(** ** Properties *)

(** C22: reading terminates on every input stream, whatever its headers look like: the header loop
    always leaves (with a length, an end of file or an error) within one iteration per byte. *)
Theorem read_message_total (input : list ascii) : is_Some (read_message input).
Proof.
  unfold read_message.
  destruct (read_headers_total (S (length input)) None input) as [[[[n|]|e] rest] ->]; [lia|..];
    [|by eauto..].
  destruct (MAX_MESSAGE_BYTES <? n); [by eauto|].
  destruct (read_exact n rest) as [[body|k] rest']; [|by eauto]. destruct (utf8_valid body); eauto.
Qed.

Lemma read_exact_spec n input body rest :
  read_exact n input = (Ok body, rest) -> input = body ++ rest /\ Z.of_nat (length body) <= Z.max 0 n.
Proof.
  unfold read_exact. destruct (Z.leb_spec n (Z.of_nat (length input))); [|done].
  intros [= <- <-]. rewrite take_drop, length_take. split; [done|lia].
Qed.

(** A message is only ever accepted if it is UTF-8, no longer than the 16 MiB limit, and the
    exact bytes of the stream between the headers and the point where reading resumes: no byte is
    invented, dropped or reordered by the reader. *)
Theorem read_message_sound (input rest : list ascii) (body : string) :
  read_message input = Some (Ok body, rest) ->
  utf8_valid (chars body) = true /\
  Z.of_nat (length (chars body)) <= MAX_MESSAGE_BYTES /\
  exists headers, input = headers ++ chars body ++ rest.
Proof.
  unfold read_message.
  destruct (read_headers _ None input) as [[[[n|]|e] rest0]|] eqn:E; try done.
  destruct (Z.ltb_spec MAX_MESSAGE_BYTES n) as [|Hn]; [done|].
  destruct (read_exact n rest0) as [[b|k] rest'] eqn:Er; [|done].
  destruct (utf8_valid b) eqn:Hu; [|done]. intros [= <- <-]. rewrite chars_text.
  apply read_exact_spec in Er as [-> Hl]. apply read_headers_suffix in E as [hdr ->].
  split; [done|]. split; [unfold MAX_MESSAGE_BYTES in *; lia|by exists hdr].
Qed.

(** A message a writer may send: UTF-8 (as every Rust [String]) and within the limit. *)
Definition sendable (m : string) : Prop :=
  utf8_valid (chars m) = true /\ Z.of_nat (length (chars m)) <= MAX_MESSAGE_BYTES.

Lemma read_written m rest :
  sendable m -> read_message (write_message m ++ rest) = Some (Ok m, rest).
Proof.
  intros [Hu Hl]. set (n := Z.of_nat (length (chars m))) in *.
  assert (write_message m ++ rest = header_line n ++ CR :: LF :: chars m ++ rest) as Heq.
  { unfold write_message, header_line. rewrite <- !app_assoc. done. }
  unfold read_message. rewrite Heq, read_headers_written.
  - destruct (Z.ltb_spec MAX_MESSAGE_BYTES n); [lia|].
    unfold read_exact. rewrite length_app, Zle_imp_le_bool by lia.
    unfold n. rewrite Nat2Z.id, take_app_length, drop_app_length, Hu. by rewrite text_chars.
  - unfold MAX_MESSAGE_BYTES in Hl. unfold_int. lia.
  - rewrite !length_app. simpl. lia.
Qed.

(** Reading [n] messages in a row. *)
Fixpoint read_messages (n : nat) (input : list ascii) : option (list string * list ascii) :=
  match n with
  | O => Some ([], input)
  | S n' => match read_message input with
            | Some (Ok m, rest) => '(ms, rest') ← read_messages n' rest; Some (m :: ms, rest')
            | _ => None
            end
  end.

Lemma read_messages_written (msgs : list string) (rest : list ascii) :
  Forall sendable msgs ->
  read_messages (length msgs) (concat (map write_message msgs) ++ rest) = Some (msgs, rest).
Proof.
  induction 1 as [|m msgs Hm Hf IH]; [done|].
  cbn [length map concat read_messages].
  by rewrite <- app_assoc, read_written, IH.
Qed.

(** A longer message is written all the same, and refused by the reader. *)
Lemma read_written_too_large m rest :
  MAX_MESSAGE_BYTES < Z.of_nat (length (chars m)) <= USIZE_MAX ->
  read_message (write_message m ++ rest) = Some (Err (MessageTooLarge (Z.of_nat (length (chars m)))), chars m ++ rest).
Proof.
  intros Hl. set (n := Z.of_nat (length (chars m))) in *.
  assert (write_message m ++ rest = header_line n ++ CR :: LF :: chars m ++ rest) as Heq.
  { unfold write_message, header_line. rewrite <- !app_assoc. done. }
  unfold read_message. rewrite Heq, read_headers_written.
  - by destruct (Z.ltb_spec MAX_MESSAGE_BYTES n); [|lia].
  - unfold MAX_MESSAGE_BYTES in Hl. lia.
  - rewrite !length_app. simpl. lia.
Qed.

(** C21: the framing is a faithful, self-delimiting channel for messages of UTF-8 text of at most
    16 MiB: any sequence of them written one after the other, followed by arbitrary further bytes, is
    read back message by message, unchanged and in order, and reading stops exactly where the last
    message ended.  The writer has no limit, but the reader refuses a longer message as too large
    and leaves its body unread, so the messages before it are still read and none after it is
    reached. *)
Theorem write_read_messages (msgs : list string) (rest : list ascii) :
  Forall sendable msgs ->
  read_messages (length msgs) (concat (map write_message msgs) ++ rest) = Some (msgs, rest) /\
  forall large, MAX_MESSAGE_BYTES < Z.of_nat (length (chars large)) <= USIZE_MAX ->
    read_messages (length msgs) (concat (map write_message (msgs ++ [large])) ++ rest) = Some (msgs, write_message large ++ rest) /\
    read_message (write_message large ++ rest) = Some (Err (MessageTooLarge (Z.of_nat (length (chars large)))), chars large ++ rest).
Proof.
  intros Hm. split; [by apply read_messages_written|]. intros large Hl. split; [|by apply read_written_too_large].
  rewrite map_app, concat_app. cbn [map concat]. rewrite app_nil_r, <- app_assoc. by apply read_messages_written.
Qed.

Lemma read_message_sound_witness :
  utf8_valid (chars "{}") = true /\
  Z.of_nat (length (chars "{}")) <= MAX_MESSAGE_BYTES /\
  exists headers, (write_message "{}" ++ [CR]) = headers ++ chars "{}" ++ [CR].
Proof.
  apply (read_message_sound (write_message "{}" ++ [CR]) [CR] "{}"). vm_compute. reflexivity.
Defined.

Lemma write_read_messages_witness :
  read_messages 2 (concat (map write_message ["{}"; "[1]"]%string) ++ [CR]) =
  Some (["{}"; "[1]"]%string, [CR]).
Proof.
  refine (proj1 (write_read_messages ["{}"; "[1]"]%string [CR] _)).
  repeat constructor; vm_compute; discriminate.
Defined.

Example read_case_insensitive :
  read_message (chars "content-LENGTH: 2" ++ [CR; LF; CR; LF] ++ chars "{}!") =
  Some (Ok "{}"%string, ["!"%char]).
Proof. vm_compute. reflexivity. Qed.

Example read_rejects_bad_length :
  read_message (chars "Content-Length: abc" ++ [CR; LF; CR; LF]) =
  Some (Err InvalidContentLength, [CR; LF]).
Proof. vm_compute. reflexivity. Qed.

Example read_rejects_missing_length :
  read_message (chars "Bad-Header: 10" ++ [CR; LF; CR; LF] ++ chars "xx") =
  Some (Err MissingContentLength, chars "xx").
Proof. vm_compute. reflexivity. Qed.
