(* ===== verification/Winnow.v ===== *)
(** * Winnow: the interface of the parser-combinator library

    The probe grammar and the assertion language are written with the [winnow]
    crate, which is not part of the repository.  [Winnow] is the operations the
    sources use, [WinnowLaws] their documented behaviour; the parsers of the
    other files are functions of a [Winnow] and their theorems use only the
    laws.  [winnow_ref] is an executable implementation that satisfies them.

    Text is a list of bytes.  The predicates the sources give to [one_of],
    [alpha1] and [digit1] hold of ASCII characters only, so running them byte
    by byte accepts the same prefixes as running them character by character. *)

From Stdlib Require Import ZArith Lia Ascii String.
From stdpp Require Import base list strings.
From S2P Require Import Prelude.
Open Scope Z_scope.

(** [ErrMode]: a [Backtrack] error lets [alt], [opt], [repeat] and [separated]
    try something else, a [Cut] error is final. *)
Inductive ErrMode := Backtrack | Cut.

(** [ModalResult] with the input left over on success. *)
Definition ModalResult (A : Type) : Type := result ErrMode (A * list ascii).
Definition parser (A : Type) : Type := list ascii -> ModalResult A.

Class Winnow := {
  alpha1 : parser (list ascii);
  digit1 : parser (list ascii);
  space0 : parser (list ascii);
  chr : ascii -> parser unit;
  one_of : (ascii -> bool) -> parser ascii;
  pmap : forall {A B}, (A -> B) -> parser A -> parser B;
  alt : forall {A}, parser A -> parser A -> parser A;
  opt : forall {A}, parser A -> parser (option A);
  preceded : forall {A B}, parser A -> parser B -> parser B;
  terminated : forall {A B}, parser A -> parser B -> parser A;
  repeat0 : forall {A}, parser A -> parser (list A);
  separated1 : forall {A B}, parser A -> parser B -> parser (list A);
  parse : forall {A}, parser A -> list ascii -> option A
}.

(** A parser that consumes input whenever it succeeds; [repeat] and [separated]
    reject (assert) parsers that do not. *)
Definition progress {A} (p : parser A) : Prop :=
  forall cs a r, p cs = Ok (a, r) -> (length r < length cs)%nat.

Definition is_space (c : ascii) : bool := (ascii_code c =? 32) || (ascii_code c =? 9).

Class WinnowLaws (W : Winnow) := {
  alpha1_law cs :
    alpha1 cs = match span is_ascii_alphabetic cs with
                | ([], _) => Err Backtrack
                | (w, r) => Ok (w, r)
                end;
  digit1_law cs :
    digit1 cs = match span is_ascii_digit cs with
                | ([], _) => Err Backtrack
                | (w, r) => Ok (w, r)
                end;
  space0_law cs : space0 cs = Ok (span is_space cs);
  chr_law c cs :
    chr c cs = match cs with
               | c' :: r => if decide (c' = c) then Ok (tt, r) else Err Backtrack
               | [] => Err Backtrack
               end;
  one_of_law f cs :
    one_of f cs = match cs with
                  | c :: r => if f c then Ok (c, r) else Err Backtrack
                  | [] => Err Backtrack
                  end;
  pmap_law A B (f : A -> B) p cs :
    pmap f p cs = match p cs with Ok (a, r) => Ok (f a, r) | Err e => Err e end;
  alt_law A (p q : parser A) cs :
    alt p q cs = match p cs with Err Backtrack => q cs | r => r end;
  opt_law A (p : parser A) cs :
    opt p cs = match p cs with
               | Ok (a, r) => Ok (Some a, r)
               | Err Backtrack => Ok (None, cs)
               | Err Cut => Err Cut
               end;
  preceded_law A B (p : parser A) (q : parser B) cs :
    preceded p q cs = match p cs with Ok (_, r) => q r | Err e => Err e end;
  terminated_law A B (p : parser A) (q : parser B) cs :
    terminated p q cs = match p cs with
                        | Ok (a, r) => match q r with Ok (_, r') => Ok (a, r') | Err e => Err e end
                        | Err e => Err e
                        end;
  repeat0_law A (p : parser A) cs : progress p ->
    repeat0 p cs = match p cs with
                   | Err Backtrack => Ok ([], cs)
                   | Err Cut => Err Cut
                   | Ok (a, r) => match repeat0 p r with
                                  | Ok (l, r') => Ok (a :: l, r')
                                  | Err e => Err e
                                  end
                   end;
  (** A separator with no element after it is given back. *)
  separated1_law A B (p : parser A) (s : parser B) cs : progress p -> progress s ->
    separated1 p s cs =
    match p cs with
    | Err e => Err e
    | Ok (a, r) =>
        match s r with
        | Err Backtrack => Ok ([a], r)
        | Err Cut => Err Cut
        | Ok (_, r1) => match separated1 p s r1 with
                        | Ok (l, r') => Ok (a :: l, r')
                        | Err Backtrack => Ok ([a], r)
                        | Err Cut => Err Cut
                        end
        end
    end;
  (** [Parser::parse] succeeds only if the whole input is consumed. *)
  parse_law A (p : parser A) cs :
    parse p cs = match p cs with Ok (a, []) => Some a | _ => None end
}.

(** ** A reference implementation *)

Fixpoint repeat0_fuel {A} (fuel : nat) (p : parser A) : parser (list A) := fun cs =>
  match fuel with
  | O => Err Cut
  | S fuel' =>
      match p cs with
      | Err Backtrack => Ok ([], cs)
      | Err Cut => Err Cut
      | Ok (a, r) => match repeat0_fuel fuel' p r with
                     | Ok (l, r') => Ok (a :: l, r')
                     | Err e => Err e
                     end
      end
  end.

Fixpoint separated1_fuel {A B} (fuel : nat) (p : parser A) (s : parser B) : parser (list A) := fun cs =>
  match fuel with
  | O => Err Cut
  | S fuel' =>
      match p cs with
      | Err e => Err e
      | Ok (a, r) =>
          match s r with
          | Err Backtrack => Ok ([a], r)
          | Err Cut => Err Cut
          | Ok (_, r1) => match separated1_fuel fuel' p s r1 with
                          | Ok (l, r') => Ok (a :: l, r')
                          | Err Backtrack => Ok ([a], r)
                          | Err Cut => Err Cut
                          end
          end
      end
  end.

Definition winnow_ref : Winnow := {|
  alpha1 cs := match span is_ascii_alphabetic cs with
               | ([], _) => Err Backtrack
               | (w, r) => Ok (w, r)
               end;
  digit1 cs := match span is_ascii_digit cs with
               | ([], _) => Err Backtrack
               | (w, r) => Ok (w, r)
               end;
  space0 cs := Ok (span is_space cs);
  chr c cs := match cs with
              | c' :: r => if decide (c' = c) then Ok (tt, r) else Err Backtrack
              | [] => Err Backtrack
              end;
  one_of f cs := match cs with
                 | c :: r => if f c then Ok (c, r) else Err Backtrack
                 | [] => Err Backtrack
                 end;
  pmap A B f p cs := match p cs with Ok (a, r) => Ok (f a, r) | Err e => Err e end;
  alt A p q cs := match p cs with Err Backtrack => q cs | r => r end;
  opt A p cs := match p cs with
                | Ok (a, r) => Ok (Some a, r)
                | Err Backtrack => Ok (None, cs)
                | Err Cut => Err Cut
                end;
  preceded A B p q cs := match p cs with Ok (_, r) => q r | Err e => Err e end;
  terminated A B p q cs :=
    match p cs with
    | Ok (a, r) => match q r with Ok (_, r') => Ok (a, r') | Err e => Err e end
    | Err e => Err e
    end;
  repeat0 A p cs := repeat0_fuel (S (length cs)) p cs;
  separated1 A B p s cs := separated1_fuel (S (length cs)) p s cs;
  parse A p cs := match p cs with Ok (a, []) => Some a | _ => None end
|}.

(** Any two budgets above the input's length give the same result. *)
Lemma repeat0_fuel_irrel {A} (p : parser A) f1 f2 cs :
  progress p -> (length cs < f1)%nat -> (length cs < f2)%nat ->
  repeat0_fuel f1 p cs = repeat0_fuel f2 p cs.
Proof.
  intros Hp; revert f2 cs; induction f1 as [|f1 IH]; intros f2 cs H1 H2; [lia|].
  destruct f2 as [|f2]; [lia|]. cbn [repeat0_fuel].
  destruct (p cs) as [[a r]|e] eqn:E; [|done]. apply Hp in E. by rewrite (IH f2) by lia.
Qed.

Lemma separated1_fuel_irrel {A B} (p : parser A) (s : parser B) f1 f2 cs :
  progress p -> progress s -> (length cs < f1)%nat -> (length cs < f2)%nat ->
  separated1_fuel f1 p s cs = separated1_fuel f2 p s cs.
Proof.
  intros Hp Hs; revert f2 cs; induction f1 as [|f1 IH]; intros f2 cs H1 H2; [lia|].
  destruct f2 as [|f2]; [lia|]. cbn [separated1_fuel].
  destruct (p cs) as [[a r]|e] eqn:E; [|done]. apply Hp in E.
  destruct (s r) as [[b r1]|e] eqn:E2; [|done]. apply Hs in E2. by rewrite (IH f2) by lia.
Qed.

Lemma winnow_ref_laws : WinnowLaws winnow_ref.
Proof.
  constructor; try done.
  - intros A p cs Hp. cbn [repeat0 winnow_ref]. cbn [repeat0_fuel].
    destruct (p cs) as [[a r]|e] eqn:E; [|done]. apply Hp in E.
    by rewrite (repeat0_fuel_irrel p (length cs) (S (length r))) by (done || lia).
  - intros A B p s cs Hp Hs. cbn [separated1 winnow_ref]. cbn [separated1_fuel].
    destruct (p cs) as [[a r]|e] eqn:E; [|done]. apply Hp in E.
    destruct (s r) as [[b r1]|e] eqn:E2; [|done]. apply Hs in E2.
    by rewrite (separated1_fuel_irrel p s (length cs) (S (length r1))) by (done || lia).
Qed.

(** ** Consequences of the laws *)
Section Derived.
Context {W : Winnow} {WL : WinnowLaws W}.

Lemma one_of_progress f : progress (one_of f).
Proof.
  intros [|c cs] a r; rewrite one_of_law; [done|]. destruct (f c); [|done].
  intros [= <- <-]; simpl; lia.
Qed.

Lemma chr_progress c : progress (chr c).
Proof.
  intros [|c' cs] a r; rewrite chr_law; [done|]. case_decide; [|done].
  intros [= <- <-]; simpl; lia.
Qed.

(** Repeating a character class is spanning it. *)
Lemma repeat0_one_of f cs : repeat0 (one_of f) cs = Ok (span f cs).
Proof.
  induction cs as [|c cs IH]; rewrite repeat0_law by apply one_of_progress; rewrite one_of_law; [done|].
  simpl. destruct (f c); [|done]. rewrite IH. by destruct (span f cs).
Qed.
End Derived.
