(* ===== verification/Grammar.v ===== *)
(** * Grammar: probe points

    [crates/rocket-surgeon-probes/src/grammar.rs]: the six-segment probe-point
    language [model:rank:layer:component:call_index:event], its parser (over the
    [Winnow] interface), its printer ([Display]) and wildcard matching. *)

From Stdlib Require Import ZArith Lia Ascii String.
From stdpp Require Import base list strings.
From S2P Require Import Prelude Winnow.
Open Scope Z_scope.

(** ** Data *)

Inductive NameOrWild := NWildcard | Name (s : string).
Inductive NumOrWild := NumWildcard | Num (n : Z).
Inductive ComponentSeg := Named (name : string) | Indexed (name : string) (index : Z).
Inductive ComponentOrWild := CWildcard | Path (segs : list ComponentSeg).

Record ProbePoint := mkProbePoint {
  model : NameOrWild;
  rank : NumOrWild;
  layer : NumOrWild;
  component : ComponentOrWild;
  call_index : NumOrWild;
  event : NameOrWild
}.

#[export] Instance NameOrWild_eq : EqDecision NameOrWild.
Proof. solve_decision. Defined.
#[export] Instance NumOrWild_eq : EqDecision NumOrWild.
Proof. solve_decision. Defined.
#[export] Instance ComponentSeg_eq : EqDecision ComponentSeg.
Proof. solve_decision. Defined.
#[export] Instance ComponentOrWild_eq : EqDecision ComponentOrWild.
Proof. solve_decision. Defined.
#[export] Instance ProbePoint_eq : EqDecision ProbePoint.
Proof. solve_decision. Defined.

(** ** Matching *)

Definition name_matches (pattern target : NameOrWild) : bool :=
  match pattern, target with
  | NWildcard, _ | _, NWildcard => true
  | Name a, Name b => bool_decide (a = b)
  end.

Definition num_matches (pattern target : NumOrWild) : bool :=
  match pattern, target with
  | NumWildcard, _ | _, NumWildcard => true
  | Num a, Num b => a =? b
  end.

Definition component_matches (pattern target : ComponentOrWild) : bool :=
  match pattern, target with
  | CWildcard, _ | _, CWildcard => true
  | Path a, Path b => bool_decide (a = b)
  end.

Definition matches (self other : ProbePoint) : bool :=
  name_matches (model self) (model other)
  && num_matches (rank self) (rank other)
  && num_matches (layer self) (layer other)
  && component_matches (component self) (component other)
  && num_matches (call_index self) (call_index other)
  && name_matches (event self) (event other).

(** ** Printing *)

Definition print_name (n : NameOrWild) : list ascii :=
  match n with NWildcard => ["*"%char] | Name s => chars s end.
Definition print_num (n : NumOrWild) : list ascii :=
  match n with NumWildcard => ["*"%char] | Num k => print_dec k end.
Definition print_seg (s : ComponentSeg) : list ascii :=
  match s with
  | Named n => chars n
  | Indexed n i => chars n ++ "["%char :: print_dec i ++ ["]"%char]
  end.
(** The [for] loop of [Display]: a dot before every segment but the first. *)
Fixpoint print_segs (segs : list ComponentSeg) : list ascii :=
  match segs with
  | [] => []
  | [s] => print_seg s
  | s :: segs' => print_seg s ++ "."%char :: print_segs segs'
  end.
Definition print_component (c : ComponentOrWild) : list ascii :=
  match c with CWildcard => ["*"%char] | Path segs => print_segs segs end.

Definition print_point (p : ProbePoint) : list ascii :=
  print_name (model p) ++ ":"%char :: print_num (rank p) ++ ":"%char :: print_num (layer p)
  ++ ":"%char :: print_component (component p) ++ ":"%char :: print_num (call_index p)
  ++ ":"%char :: print_name (event p).

(** ** Parsing *)

Definition ident_char (c : ascii) : bool :=
  is_ascii_alphanumeric c || bool_decide (c = "_"%char) || bool_decide (c = "-"%char).

Section Parser.
Context {W : Winnow}.

Definition identifier : parser string := fun input =>
  let? (first, input) := alpha1 input in
  let? (rest, input) := repeat0 (one_of ident_char) input in
  Ok (text (first ++ rest), input).

Definition non_neg_integer : parser Z := fun input =>
  let? (digits, input) := digit1 input in
  match parse_uint U32_MAX digits with
  | Some n => Ok (n, input)
  | None => Err Cut
  end.

Definition wildcard : parser unit := chr "*".

Definition name_or_wild : parser NameOrWild :=
  alt (pmap (fun _ => NWildcard) wildcard) (pmap Name identifier).

Definition num_or_wild : parser NumOrWild :=
  alt (pmap (fun _ => NumWildcard) wildcard) (pmap Num non_neg_integer).

Definition component_seg : parser ComponentSeg := fun input =>
  let? (name, input) := identifier input in
  let? (idx, input) := opt (preceded (chr "[") (terminated non_neg_integer (chr "]"))) input in
  Ok (match idx with Some index => Indexed name index | None => Named name end, input).

Definition component_or_wild : parser ComponentOrWild :=
  alt (pmap (fun _ => CWildcard) wildcard) (pmap Path (separated1 component_seg (chr "."))).

Definition probe_point : parser ProbePoint := fun input =>
  let? (model, input) := name_or_wild input in
  let? (_, input) := chr ":" input in
  let? (rank, input) := num_or_wild input in
  let? (_, input) := chr ":" input in
  let? (layer, input) := num_or_wild input in
  let? (_, input) := chr ":" input in
  let? (component, input) := component_or_wild input in
  let? (_, input) := chr ":" input in
  let? (call_index, input) := num_or_wild input in
  let? (_, input) := chr ":" input in
  let? (event, input) := name_or_wild input in
  Ok (mkProbePoint model rank layer component call_index event, input).

(** [ProbePoint::parse], errors as [None]. *)
Definition parse_point (input : string) : option ProbePoint := parse probe_point (chars input).
End Parser.

(** ** Well-formed points: what the grammar can express *)

Definition ident_ok (s : string) : Prop :=
  match chars s with
  | c :: cs => is_ascii_alphabetic c = true /\ Forall (fun c => ident_char c = true) cs
  | [] => False
  end.
Definition name_ok (n : NameOrWild) : Prop := match n with NWildcard => True | Name s => ident_ok s end.
Definition num_ok (n : NumOrWild) : Prop := match n with NumWildcard => True | Num k => u32_ok k end.
Definition seg_ok (s : ComponentSeg) : Prop :=
  match s with Named n => ident_ok n | Indexed n i => ident_ok n /\ u32_ok i end.
Definition component_ok (c : ComponentOrWild) : Prop :=
  match c with CWildcard => True | Path segs => segs <> [] /\ Forall seg_ok segs end.
Definition point_ok (p : ProbePoint) : Prop :=
  name_ok (model p) /\ num_ok (rank p) /\ num_ok (layer p) /\ component_ok (component p)
  /\ num_ok (call_index p) /\ name_ok (event p).

(** ** What each parser does *)

Lemma alphabetic_ident c : is_ascii_alphabetic c = true -> ident_char c = true.
Proof. intros H; unfold ident_char, is_ascii_alphanumeric; by rewrite H. Qed.

Section ParserSpec.
Context {W : Winnow} {WL : WinnowLaws W}.

Lemma identifier_spec cs :
  identifier cs = match cs with
                  | c :: _ => if is_ascii_alphabetic c
                              then let '(a, b) := span ident_char cs in Ok (text a, b)
                              else Err Backtrack
                  | [] => Err Backtrack
                  end.
Proof.
  unfold identifier. rewrite alpha1_law. destruct cs as [|c cs]; [done|].
  rewrite (span_sub is_ascii_alphabetic ident_char) by apply alphabetic_ident.
  simpl. destruct (is_ascii_alphabetic c) eqn:Hc; [|done].
  destruct (span is_ascii_alphabetic cs) as [a b]. rewrite repeat0_one_of.
  by destruct (span ident_char b).
Qed.

Lemma identifier_progress : progress identifier.
Proof.
  intros [|c cs] a r; rewrite identifier_spec; [done|].
  destruct (is_ascii_alphabetic c) eqn:Hc; [|done].
  simpl. rewrite alphabetic_ident by done.
  pose proof (span_app ident_char cs) as Hs. destruct (span ident_char cs) as [x y].
  intros [= _ <-]. simpl in *. rewrite <- Hs, length_app. lia.
Qed.

Lemma identifier_print s rest :
  ident_ok s -> stops ident_char rest -> identifier (chars s ++ rest) = Ok (s, rest).
Proof.
  unfold ident_ok. intros Hs Hr. rewrite identifier_spec.
  rewrite span_stop; [| |done].
  - rewrite text_chars. destruct (chars s) as [|c cs]; [done|].
    destruct Hs as [Hc _]. simpl. by rewrite Hc.
  - destruct (chars s) as [|c cs]; [done|]. destruct Hs. constructor; [|done].
    by apply alphabetic_ident.
Qed.

Lemma identifier_sound cs s r : identifier cs = Ok (s, r) -> ident_ok s.
Proof.
  rewrite identifier_spec. destruct cs as [|c cs]; [done|].
  destruct (is_ascii_alphabetic c) eqn:Hc; [|done].
  pose proof (span_Forall ident_char (c :: cs)) as Hf.
  simpl in *. rewrite alphabetic_ident in * by done.
  destruct (span ident_char cs) as [a b]. intros [= <- <-].
  unfold ident_ok. rewrite chars_text. simpl in Hf. apply Forall_cons in Hf as [_ Hf]. done.
Qed.

Lemma non_neg_integer_spec cs :
  non_neg_integer cs = match span is_ascii_digit cs with
                       | ([], _) => Err Backtrack
                       | (w, r) => match parse_uint U32_MAX w with
                                   | Some n => Ok (n, r)
                                   | None => Err Cut
                                   end
                       end.
Proof. unfold non_neg_integer. rewrite digit1_law. by destruct (span is_ascii_digit cs) as [[|c w] r]. Qed.

Lemma non_neg_integer_print n rest :
  u32_ok n -> stops is_ascii_digit rest -> non_neg_integer (print_dec n ++ rest) = Ok (n, rest).
Proof.
  intros Hn Hr. unfold u32_ok in Hn. destruct (print_dec_spec n) as [Hne _]; [lia|].
  rewrite non_neg_integer_spec, span_stop; [|apply print_dec_digits; lia|done].
  rewrite parse_print_dec by done. by destruct (print_dec n).
Qed.

Lemma non_neg_integer_sound cs n r : non_neg_integer cs = Ok (n, r) -> u32_ok n.
Proof.
  rewrite non_neg_integer_spec. destruct (span is_ascii_digit cs) as [[|c w] r']; [done|].
  destruct (parse_uint U32_MAX (c :: w)) as [k|] eqn:E; [|done]. intros [= <- <-].
  by eapply parse_uint_bound.
Qed.

(** The wildcard alternative is tried first and never shadows another one. *)
Lemma alt_wildcard {A B} (w : A) (f : B -> A) (p : parser B) cs :
  alt (pmap (fun _ => w) wildcard) (pmap f p) cs =
  let other := match p cs with Ok (b, r) => Ok (f b, r) | Err e => Err e end in
  match cs with
  | c :: r => if decide (c = "*"%char) then Ok (w, r) else other
  | [] => other
  end.
Proof.
  rewrite alt_law, !pmap_law. unfold wildcard. rewrite chr_law.
  destruct cs as [|c cs]; [done|]. by case_decide.
Qed.

Lemma digit_not_star c : is_ascii_digit c = true -> c <> "*"%char.
Proof. by intros H ->. Qed.
Lemma alphabetic_not_star c : is_ascii_alphabetic c = true -> c <> "*"%char.
Proof. by intros H ->. Qed.

Lemma name_or_wild_print n rest :
  name_ok n -> stops ident_char rest -> name_or_wild (print_name n ++ rest) = Ok (n, rest).
Proof.
  intros Hn Hr. unfold name_or_wild. rewrite alt_wildcard. destruct n as [|s]; [done|].
  cbn [print_name]. rewrite identifier_print by done.
  unfold name_ok, ident_ok in Hn. destruct (chars s) as [|c cs]; [done|]. destruct Hn as [Hc _].
  cbn [app]. by rewrite decide_False by (by apply alphabetic_not_star).
Qed.

Lemma num_or_wild_print n rest :
  num_ok n -> stops is_ascii_digit rest -> num_or_wild (print_num n ++ rest) = Ok (n, rest).
Proof.
  intros Hn Hr. unfold num_or_wild. rewrite alt_wildcard. destruct n as [|k]; [done|].
  cbn [print_num]. rewrite non_neg_integer_print by done.
  unfold num_ok, u32_ok in Hn. pose proof (print_dec_digits k ltac:(lia)) as Hd.
  destruct (print_dec_spec k) as [Hne _]; [lia|]. destruct (print_dec k) as [|c cs]; [done|].
  apply Forall_cons in Hd as [Hc _]. cbn [app]. by rewrite decide_False by (by apply digit_not_star).
Qed.

(** What may follow a component segment: not a letter of a name, not an index. *)
Definition seg_end (rest : list ascii) : Prop := stops ident_char rest /\ stops (fun c => bool_decide (c = "["%char)) rest.

Lemma component_seg_print sg rest :
  seg_ok sg -> seg_end rest -> component_seg (print_seg sg ++ rest) = Ok (sg, rest).
Proof.
  intros Hs [Hr1 Hr2]. unfold component_seg. destruct sg as [n|n i]; cbn [print_seg].
  - rewrite identifier_print by done. rewrite opt_law, preceded_law, chr_law.
    destruct rest as [|c rest]; [done|]. simpl in Hr2. apply bool_decide_eq_false in Hr2.
    by rewrite decide_False.
  - destruct Hs as [Hn Hi]. rewrite <- app_assoc, identifier_print by done.
    cbn [app]. rewrite opt_law, preceded_law, chr_law, decide_True by done.
    rewrite terminated_law, <- app_assoc, non_neg_integer_print by done.
    cbn [app]. by rewrite chr_law, decide_True by done.
Qed.

Lemma component_seg_progress : progress component_seg.
Proof.
  intros cs a r. unfold component_seg. destruct (identifier cs) as [[n r1]|e] eqn:E; [|done].
  apply identifier_progress in E. rewrite opt_law, preceded_law, chr_law.
  destruct r1 as [|c r1]; [by intros [= _ <-]|]. case_decide; [|by intros [= _ <-]].
  rewrite terminated_law, non_neg_integer_spec.
  pose proof (span_app is_ascii_digit r1) as Hs.
  destruct (span is_ascii_digit r1) as [[|d w] r2]; [by intros [= _ <-]|].
  destruct (parse_uint U32_MAX (d :: w)); [|done]. rewrite chr_law.
  apply (f_equal length) in Hs. simpl in *. rewrite length_app in Hs.
  destruct r2 as [|c2 r2]; [intros [= _ <-]; simpl in *; lia|].
  case_decide; intros [= _ <-]; simpl in *; lia.
Qed.

(** What may follow a component: a segment end that is not a further segment. *)
Definition comp_end (rest : list ascii) : Prop := seg_end rest /\ stops (fun c => bool_decide (c = "."%char)) rest.

Lemma separated_print segs rest :
  segs <> [] -> Forall seg_ok segs -> comp_end rest ->
  separated1 component_seg (chr ".") (print_segs segs ++ rest) = Ok (segs, rest).
Proof.
  intros Hne Hf [He Hd]; revert Hne; induction Hf as [|sg segs Hs Hf IH]; [done|]; intros _.
  rewrite separated1_law by (apply component_seg_progress || apply chr_progress).
  destruct segs as [|sg' segs].
  - cbn [print_segs]. rewrite component_seg_print by done. rewrite chr_law.
    destruct rest as [|c rest]; [done|]. simpl in Hd. apply bool_decide_eq_false in Hd.
    by rewrite decide_False.
  - change (print_segs (sg :: sg' :: segs)) with (print_seg sg ++ "."%char :: print_segs (sg' :: segs)).
    rewrite <- app_assoc. cbn [app]. rewrite component_seg_print by done.
    rewrite chr_law, decide_True by done. by rewrite IH.
Qed.

Lemma print_segs_head segs rest :
  segs <> [] -> Forall seg_ok segs ->
  exists c cs, print_segs segs ++ rest = c :: cs /\ is_ascii_alphabetic c = true.
Proof.
  destruct segs as [|sg segs]; [done|]. intros _ [Hs _]%Forall_cons.
  assert (exists c cs, print_seg sg = c :: cs /\ is_ascii_alphabetic c = true) as (c & cs & Hc & Ha).
  { destruct sg as [n|n i]; simpl in *; unfold ident_ok in Hs.
    - destruct (chars n) as [|c cs]; [done|]. destruct Hs. eauto.
    - destruct (chars n) as [|c cs]; [naive_solver|]. destruct Hs as [[] _]. simpl. eauto. }
  exists c. destruct segs as [|sg' segs].
  - cbn [print_segs]. rewrite Hc. simpl. eauto.
  - change (print_segs (sg :: sg' :: segs)) with (print_seg sg ++ "."%char :: print_segs (sg' :: segs)).
    rewrite Hc. simpl. eauto.
Qed.

Lemma component_or_wild_print c rest :
  component_ok c -> comp_end rest -> component_or_wild (print_component c ++ rest) = Ok (c, rest).
Proof.
  intros Hc Hr. unfold component_or_wild. rewrite alt_wildcard. destruct c as [|segs]; [done|].
  destruct Hc as [Hne Hf]. cbn [print_component]. rewrite separated_print by done.
  destruct (print_segs_head segs rest Hne Hf) as (c & cs & -> & Ha).
  by rewrite decide_False by (by apply alphabetic_not_star).
Qed.

Lemma probe_point_print p : point_ok p -> probe_point (print_point p) = Ok (p, []).
Proof.
  intros (H1 & H2 & H3 & H4 & H5 & H6). unfold probe_point, print_point.
  rewrite name_or_wild_print by done. rewrite chr_law, decide_True by done.
  rewrite num_or_wild_print by done. rewrite chr_law, decide_True by done.
  rewrite num_or_wild_print by done. rewrite chr_law, decide_True by done.
  rewrite component_or_wild_print by done. rewrite chr_law, decide_True by done.
  rewrite num_or_wild_print by done. rewrite chr_law, decide_True by done.
  rewrite <- (app_nil_r (print_name (event p))).
  rewrite name_or_wild_print by done. by destruct p.
Qed.

(** *** Soundness: only well-formed points are produced *)

Lemma name_or_wild_sound cs n r : name_or_wild cs = Ok (n, r) -> name_ok n.
Proof.
  unfold name_or_wild. rewrite alt_law, !pmap_law.
  destruct (wildcard cs) as [[u r1]|e]; [by intros [= <- <-]|]. destruct e; [|done].
  destruct (identifier cs) as [[s r2]|e] eqn:E; [|done]. intros [= <- <-].
  by eapply identifier_sound.
Qed.

Lemma num_or_wild_sound cs n r : num_or_wild cs = Ok (n, r) -> num_ok n.
Proof.
  unfold num_or_wild. rewrite alt_law, !pmap_law.
  destruct (wildcard cs) as [[u r1]|e]; [by intros [= <- <-]|]. destruct e; [|done].
  destruct (non_neg_integer cs) as [[k r2]|e] eqn:E; [|done]. intros [= <- <-].
  by eapply non_neg_integer_sound.
Qed.

Lemma component_seg_sound cs sg r : component_seg cs = Ok (sg, r) -> seg_ok sg.
Proof.
  unfold component_seg. destruct (identifier cs) as [[n r1]|e] eqn:E; [|done].
  apply identifier_sound in E. rewrite opt_law, preceded_law.
  destruct (chr "[" r1) as [[u r2]|[]]; [|by intros [= <- <-]|done].
  rewrite terminated_law. destruct (non_neg_integer r2) as [[k r3]|[]] eqn:En;
    [|by intros [= <- <-]|done]. apply non_neg_integer_sound in En.
  destruct (chr "]" r3) as [[u' r4]|[]]; [by intros [= <- <-]|by intros [= <- <-]|done].
Qed.

Lemma separated_sound n cs segs r :
  (length cs < n)%nat -> separated1 component_seg (chr ".") cs = Ok (segs, r) ->
  segs <> [] /\ Forall seg_ok segs.
Proof.
  revert cs segs r; induction n as [|n IH]; intros cs segs r Hl; [lia|].
  rewrite separated1_law by (apply component_seg_progress || apply chr_progress).
  destruct (component_seg cs) as [[sg r1]|e] eqn:E; [|done].
  pose proof (component_seg_progress _ _ _ E). apply component_seg_sound in E.
  destruct (chr "." r1) as [[u r2]|[]] eqn:Ec; [|intros [= <- <-]; split; [done|by repeat constructor]|done].
  apply chr_progress in Ec.
  destruct (separated1 component_seg (chr ".") r2) as [[l r3]|[]] eqn:El;
    [|intros [= <- <-]; split; [done|by repeat constructor]|done].
  intros [= <- <-]. apply IH in El as [??]; [|lia]. split; [done|by constructor].
Qed.

Lemma component_or_wild_sound cs c r : component_or_wild cs = Ok (c, r) -> component_ok c.
Proof.
  unfold component_or_wild. rewrite alt_law, !pmap_law.
  destruct (wildcard cs) as [[u r1]|e]; [by intros [= <- <-]|]. destruct e; [|done].
  destruct (separated1 component_seg (chr ".") cs) as [[l r2]|e] eqn:E; [|done].
  intros [= <- <-]. exact (separated_sound (S (length cs)) cs l r2 ltac:(lia) E).
Qed.

Lemma probe_point_sound cs p r : probe_point cs = Ok (p, r) -> point_ok p.
Proof.
  unfold probe_point. intros H.
  repeat match type of H with
  | match ?x with _ => _ end = _ => destruct x as [[? ?]|?] eqn:?; [|done]
  end.
  injection H as <- <-. unfold point_ok; simpl.
  split_and!; eauto using name_or_wild_sound, num_or_wild_sound, component_or_wild_sound.
Qed.
End ParserSpec.

(** ** Properties *)

(** C20: the printer and the parser of probe points are inverse to each other on everything the
    grammar can express: every well-formed point is recovered from its printed form, and every
    string that parses yields a well-formed point (identifiers start with a letter, numbers fit
    [u32], paths are not empty), hence one that survives another print/parse trip unchanged. *)
Theorem probe_point_roundtrip {W : Winnow} {WL : WinnowLaws W} :
  (forall p, point_ok p -> parse_point (text (print_point p)) = Some p) /\
  (forall s p, parse_point s = Some p ->
     point_ok p /\ parse_point (text (print_point p)) = Some p).
Proof.
  assert (forall p, point_ok p -> parse_point (text (print_point p)) = Some p) as Hprint.
  { intros p Hp. unfold parse_point. by rewrite chars_text, parse_law, probe_point_print. }
  split; [done|]. intros s p. unfold parse_point at 1. rewrite parse_law.
  destruct (probe_point (chars s)) as [[q r]|e] eqn:E; [|done]. destruct r; [|done].
  intros [= <-]. apply probe_point_sound in E. auto.
Qed.

Lemma probe_point_roundtrip_witness :
  (forall p, point_ok p -> @parse_point winnow_ref (text (print_point p)) = Some p) /\
  (forall s p, @parse_point winnow_ref s = Some p ->
     point_ok p /\ @parse_point winnow_ref (text (print_point p)) = Some p).
Proof. exact (@probe_point_roundtrip winnow_ref winnow_ref_laws). Defined.

(** A point without wildcards: one concrete coordinate of a forward pass. *)
Definition concrete (p : ProbePoint) : Prop :=
  model p <> NWildcard /\ rank p <> NumWildcard /\ layer p <> NumWildcard /\
  component p <> CWildcard /\ call_index p <> NumWildcard /\ event p <> NWildcard.

Definition pick_name (a b : NameOrWild) : NameOrWild :=
  match a, b with Name s, _ | _, Name s => Name s | _, _ => Name "x" end.
Definition pick_num (a b : NumOrWild) : NumOrWild :=
  match a, b with Num n, _ | _, Num n => Num n | _, _ => Num 0 end.
Definition pick_component (a b : ComponentOrWild) : ComponentOrWild :=
  match a, b with Path s, _ | _, Path s => Path s | _, _ => Path [Named "x"] end.

Lemma name_pick a b : name_matches a b = true ->
  pick_name a b <> NWildcard /\ name_matches a (pick_name a b) = true /\ name_matches b (pick_name a b) = true.
Proof. destruct a, b; simpl; rewrite ?bool_decide_eq_true; naive_solver. Qed.
Lemma num_pick a b : num_matches a b = true ->
  pick_num a b <> NumWildcard /\ num_matches a (pick_num a b) = true /\ num_matches b (pick_num a b) = true.
Proof. destruct a, b; simpl; rewrite ?Z.eqb_eq; naive_solver. Qed.
Lemma component_pick a b : component_matches a b = true ->
  pick_component a b <> CWildcard /\ component_matches a (pick_component a b) = true /\
  component_matches b (pick_component a b) = true.
Proof. destruct a, b; simpl; rewrite ?bool_decide_eq_true; naive_solver. Qed.

Lemma name_meet a b c : c <> NWildcard ->
  name_matches a c = true -> name_matches b c = true -> name_matches a b = true.
Proof. destruct a, b, c; simpl; rewrite ?bool_decide_eq_true; naive_solver. Qed.
Lemma num_meet a b c : c <> NumWildcard ->
  num_matches a c = true -> num_matches b c = true -> num_matches a b = true.
Proof. destruct a, b, c; simpl; rewrite ?Z.eqb_eq; naive_solver. Qed.
Lemma component_meet a b c : c <> CWildcard ->
  component_matches a c = true -> component_matches b c = true -> component_matches a b = true.
Proof. destruct a, b, c; simpl; rewrite ?bool_decide_eq_true; naive_solver. Qed.

(** [ProbePoint::matches] decides overlap: two patterns match exactly when some concrete
    coordinate (no wildcard in any segment) is matched by both.  In particular matching is
    symmetric, and against a concrete coordinate it is membership in the pattern. *)
Theorem matches_overlap (p q : ProbePoint) :
  matches p q = true <->
  exists c, concrete c /\ matches p c = true /\ matches q c = true.
Proof.
  unfold matches at 1. rewrite !andb_true_iff. split.
  - intros (((((H1 & H2) & H3) & H4) & H5) & H6).
    apply name_pick in H1 as (?&?&?), H6 as (?&?&?). apply component_pick in H4 as (?&?&?).
    apply num_pick in H2 as (?&?&?), H3 as (?&?&?), H5 as (?&?&?).
    exists (mkProbePoint (pick_name (model p) (model q)) (pick_num (rank p) (rank q))
              (pick_num (layer p) (layer q)) (pick_component (component p) (component q))
              (pick_num (call_index p) (call_index q)) (pick_name (event p) (event q))).
    unfold concrete, matches; simpl. rewrite !andb_true_iff. split_and!; done.
  - intros (c & (C1 & C2 & C3 & C4 & C5 & C6) & Hp & Hq). unfold matches in Hp, Hq.
    rewrite !andb_true_iff in Hp, Hq. destruct_and!.
    split_and!; eauto using name_meet, num_meet, component_meet.
Qed.

Example parse_indexed :
  @parse_point winnow_ref "mixtral:*:8:experts[3].gate_proj:0:output" =
  Some (mkProbePoint (Name "mixtral") NumWildcard (Num 8)
          (Path [Indexed "experts" 3; Named "gate_proj"]) (Num 0) (Name "output")).
Proof. vm_compute. reflexivity. Qed.

Example parse_rejects :
  map (@parse_point winnow_ref)
    ["llama:0:12:mlp:output"; ""; "llama:0:12:mlp:0:output:extra"; ":0:12:mlp:0:output";
     "llama:0:-1:mlp:0:output"; "llama:0:12:.mlp:0:output"; "llama:0:12:experts[3:0:output"]%string =
  [None; None; None; None; None; None; None].
Proof. vm_compute. reflexivity. Qed.
