(* ===== verification/Protocol.v ===== *)
(** * Protocol: the data model of the wire protocol

    [crates/rocket-surgeon-protocol/src/types.rs], [errors.rs] and [jsonrpc.rs]:
    every struct as a [Record] and every enum as an [Inductive], with the
    source's field and constructor names (prefixed by the type), the error-code
    table, the JSON-RPC envelope and the checkpoint-layer schedule of [lib.rs].
    [serde_json::Value] is the abstract type of the class [JsonValue]. *)

From Stdlib Require Import ZArith Lia String SpecFloat Sorted.
From stdpp Require Import base list strings.
From S2P Require Import Prelude.
Open Scope Z_scope.

(** [f64]: the IEEE 754 binary64 format, as the Standard Library specifies it. *)
Definition f64 : Type := spec_float.

(** ** [types.rs] *)

Record WorldlineSegment := mkWorldlineSegment {
  seg_id : Z;
  seg_parent_segment : option Z;
  seg_branch_tick : option Z;
  seg_tick_range : (Z * Z)
}.

Record WorldlineState := mkWorldlineState {
  wl_current_segment : Z;
  wl_segments : list WorldlineSegment
}.

Inductive Status :=
  | Status_Uninitialized
  | Status_Initialized
  | Status_Attaching
  | Status_Stopped
  | Status_Stepping
  | Status_Inspecting
  | Status_Modifying
  | Status_Replaying
  | Status_Detaching.
#[export] Instance Status_eq : EqDecision Status.
Proof. solve_decision. Defined.

Inductive ActionName :=
  | ActionName_Initialize
  | ActionName_Attach
  | ActionName_Detach
  | ActionName_Step
  | ActionName_Inspect
  | ActionName_Intervene
  | ActionName_Probe
  | ActionName_Checkpoint
  | ActionName_Replay
  | ActionName_Status
  | ActionName_Subscribe.
#[export] Instance ActionName_eq : EqDecision ActionName.
Proof. solve_decision. Defined.

Record TickClock := mkTickClock {
  tc_token : Z;
  tc_operator : Z;
  tc_wall_ns : Z
}.

Inductive Phase :=
  | Phase_Prefill
  | Phase_Decode
  | Phase_PrefillChunked (chunk_size : Z) (chunk_index : Z) (total_chunks : Z).

Inductive StepDirection :=
  | StepDirection_Forward
  | StepDirection_Backward.
#[export] Instance StepDirection_eq : EqDecision StepDirection.
Proof. solve_decision. Defined.

Inductive TickEvent :=
  | TickEvent_Input
  | TickEvent_Output.
#[export] Instance TickEvent_eq : EqDecision TickEvent.
Proof. solve_decision. Defined.

Record TickPosition := mkTickPosition {
  tp_tick_id : Z;
  tp_direction : StepDirection;
  tp_rank : option Z;
  tp_layer : Z;
  tp_component : string;
  tp_event : TickEvent;
  tp_replay_of : option Z;
  tp_phase : Phase;
  tp_token_position : option Z;
  tp_clock : option TickClock
}.

Inductive CheckpointTier :=
  | CheckpointTier_ProbeLog
  | CheckpointTier_Activation
  | CheckpointTier_FullSnapshot.
#[export] Instance CheckpointTier_eq : EqDecision CheckpointTier.
Proof. solve_decision. Defined.

Record CheckpointRef := mkCheckpointRef {
  cr_checkpoint_id : string;
  cr_tick_id : Z;
  cr_layer_idx : Z;
  cr_tier : CheckpointTier;
  cr_bookmark : option string;
  cr_created_at : string
}.

Record SessionState := mkSessionState {
  ss_session_id : string;
  ss_model_id : option string;
  ss_status : Status;
  ss_position : option TickPosition;
  ss_tick_id : option Z;
  ss_active_probes : list string;
  ss_checkpoints : list CheckpointRef;
  ss_available_actions : list ActionName;
  ss_worldline : WorldlineState
}.

Inductive TickGranularity :=
  | TickGranularity_Layer
  | TickGranularity_Component
  | TickGranularity_Head
  | TickGranularity_RouterPreTopk
  | TickGranularity_RouterPostTopk
  | TickGranularity_Expert
  | TickGranularity_MoeLayer.
#[export] Instance TickGranularity_eq : EqDecision TickGranularity.
Proof. solve_decision. Defined.

Record ComponentEntry := mkComponentEntry {
  ce_canonical : string;
  ce_event : string;
  ce_tensor_shape : list Z;
  ce_category : string
}.

Record AliasEntry := mkAliasEntry {
  ae_canonical : string;
  ae_aliases : list string
}.

Record TickLayerInfo := mkTickLayerInfo {
  tli_layer : Z;
  tli_components : list string;
  tli_tick_count : Z
}.

Record TickMapEntry := mkTickMapEntry {
  tme_granularity : TickGranularity;
  tme_ticks_per_layer : list TickLayerInfo
}.

Record Histogram := mkHistogram {
  hist_bins : Z;
  hist_edges : list f64;
  hist_counts : list Z
}.

Record TensorStats := mkTensorStats {
  tst_mean : f64;
  tst_std : f64;
  tst_min : f64;
  tst_max : f64;
  tst_abs_max : f64;
  tst_sparsity : f64;
  tst_l2_norm : f64;
  tst_histogram : Histogram
}.

Record TopKEntry := mkTopKEntry {
  tk_index : list Z;
  tk_value : f64
}.

Inductive DType :=
  | DType_Float16
  | DType_Bfloat16
  | DType_Float32
  | DType_Float64
  | DType_Int8
  | DType_Int16
  | DType_Int32
  | DType_Int64
  | DType_Uint8
  | DType_Bool.
#[export] Instance DType_eq : EqDecision DType.
Proof. solve_decision. Defined.

(** [Debug] of [DType] *)
Definition debug_dtype (d : DType) : string :=
  match d with
  | DType_Float16 => "Float16" | DType_Bfloat16 => "Bfloat16" | DType_Float32 => "Float32" | DType_Float64 => "Float64"
  | DType_Int8 => "Int8" | DType_Int16 => "Int16" | DType_Int32 => "Int32" | DType_Int64 => "Int64"
  | DType_Uint8 => "Uint8" | DType_Bool => "Bool"
  end.

Inductive PlacementType :=
  | PlacementType_Shard
  | PlacementType_Replicate
  | PlacementType_Partial.
#[export] Instance PlacementType_eq : EqDecision PlacementType.
Proof. solve_decision. Defined.

Record Placement := mkPlacement {
  plc_placement_type : PlacementType;
  plc_dim : option Z
}.

Record ShardingInfo := mkShardingInfo {
  shi_mesh : string;
  shi_placements : list Placement;
  shi_local_shape : list Z;
  shi_global_shape : list Z
}.

Record TensorSummary := mkTensorSummary {
  ts_tensor_id : string;
  ts_shape : list Z;
  ts_dtype : DType;
  ts_device : string;
  ts_sharding : option ShardingInfo;
  ts_stats : TensorStats;
  ts_top_k : list TopKEntry
}.

Record TensorHandle := mkTensorHandle {
  th_tensor_id : string;
  th_shape : list Z;
  th_dtype : DType
}.

Inductive ProbeAction :=
  | ProbeAction_Capture
  | ProbeAction_Checkpoint
  | ProbeAction_Trace
  | ProbeAction_Assert
  | ProbeAction_Aggregate
  | ProbeAction_Intervene.
#[export] Instance ProbeAction_eq : EqDecision ProbeAction.
Proof. solve_decision. Defined.

Inductive InterventionType :=
  | InterventionType_Ablate
  | InterventionType_Scale
  | InterventionType_Add
  | InterventionType_Patch
  | InterventionType_Clamp
  | InterventionType_RouteOverride
  | InterventionType_AttentionMask
  | InterventionType_EmbedSwap
  | InterventionType_EmbedNoise.
#[export] Instance InterventionType_eq : EqDecision InterventionType.
Proof. solve_decision. Defined.

Inductive AblateMode :=
  | AblateMode_Zero
  | AblateMode_Mean
  | AblateMode_Resample.
#[export] Instance AblateMode_eq : EqDecision AblateMode.
Proof. solve_decision. Defined.

Inductive AddVector :=
  | AddVector_Inline (x : list f64)
  | AddVector_TensorRef (x : string).

Inductive InterventionParams :=
  | InterventionParams_Scale (factor : f64)
  | InterventionParams_Add (vector : AddVector)
  | InterventionParams_Patch (source_tensor_id : string)
  | InterventionParams_Clamp (min : f64) (max : f64)
  | InterventionParams_RouteOverride (token : Z) (experts : list Z)
  | InterventionParams_AttentionMask (source_positions : list Z) (target_positions : list Z) (mask_value : f64)
  | InterventionParams_EmbedSwap (position : Z) (new_token_id : Z)
  | InterventionParams_EmbedNoise (position : Z) (std : f64) (seed : option Z)
  | InterventionParams_Ablate (mode : AblateMode) (reference_run : option string) (reference_tensor_id : option string).

Inductive CompositionMode :=
  | CompositionMode_Additive
  | CompositionMode_Replace.
#[export] Instance CompositionMode_eq : EqDecision CompositionMode.
Proof. solve_decision. Defined.

Record InterventionRecipe := mkInterventionRecipe {
  ir_id : option string;
  ir_intervention_type : InterventionType;
  ir_target : string;
  ir_params : InterventionParams;
  ir_condition : option string;
  ir_priority : Z;
  ir_mode : CompositionMode
}.

Record ProbeConfig := mkProbeConfig {
  pc_summary : bool;
  pc_capture_tensor : bool;
  pc_filter : option string;
  pc_aggregate_fn : option string;
  pc_assertion : option string;
  pc_intervention : option InterventionRecipe
}.

Record ProbeDefinition := mkProbeDefinition {
  pd_id : string;
  pd_point : string;
  pd_action : ProbeAction;
  pd_config : option ProbeConfig;
  pd_enabled : bool;
  pd_priority : Z
}.

Inductive ExecutionMode :=
  | ExecutionMode_Eager
  | ExecutionMode_Compiled
  | ExecutionMode_Mixed.
#[export] Instance ExecutionMode_eq : EqDecision ExecutionMode.
Proof. solve_decision. Defined.

Inductive Parallelism :=
  | Parallelism_SingleGpu
  | Parallelism_Ddp
  | Parallelism_Fsdp
  | Parallelism_TensorParallel
  | Parallelism_PipelineParallel.
#[export] Instance Parallelism_eq : EqDecision Parallelism.
Proof. solve_decision. Defined.

Inductive BuiltInView :=
  | BuiltInView_ResidualStreamNorm
  | BuiltInView_AttentionPattern
  | BuiltInView_HeadOutput
  | BuiltInView_LogitLens
  | BuiltInView_RoutingDecision
  | BuiltInView_RoutingEntropy
  | BuiltInView_FeatureAttribution
  | BuiltInView_SaeActivation
  | BuiltInView_TunedLens
  | BuiltInView_KvCacheRibbon
  | BuiltInView_KvCacheDetail
  | BuiltInView_WorldlineDag.
#[export] Instance BuiltInView_eq : EqDecision BuiltInView.
Proof. solve_decision. Defined.

Inductive HeadGranularity :=
  | HeadGranularity_Native
  | HeadGranularity_RequiresUnfused
  | HeadGranularity_Unavailable.
#[export] Instance HeadGranularity_eq : EqDecision HeadGranularity.
Proof. solve_decision. Defined.

Inductive Transport :=
  | Transport_Stdio
  | Transport_UnixSocket
  | Transport_Tcp
  | Transport_Websocket.
#[export] Instance Transport_eq : EqDecision Transport.
Proof. solve_decision. Defined.

Inductive WireFormat :=
  | WireFormat_Json
  | WireFormat_Protobuf.
#[export] Instance WireFormat_eq : EqDecision WireFormat.
Proof. solve_decision. Defined.

Record Capabilities := mkCapabilities {
  cap_protocol_version : string;
  cap_supports_reverse_step : bool;
  cap_supports_checkpointing : bool;
  cap_supports_moe : bool;
  cap_supports_backward : bool;
  cap_supports_sae : bool;
  cap_execution_mode : ExecutionMode;
  cap_parallelism : Parallelism;
  cap_tick_granularities : list TickGranularity;
  cap_intervention_types : list InterventionType;
  cap_built_in_views : list BuiltInView;
  cap_head_granularity : HeadGranularity;
  cap_transports : list Transport;
  cap_wire_formats : list WireFormat;
  cap_max_response_bytes : Z;
  cap_model_family : option string;
  cap_model_id : option string;
  cap_num_layers : option Z;
  cap_num_heads : option Z;
  cap_hidden_dim : option Z;
  cap_num_ranks : option Z;
  cap_num_experts : option Z;
  cap_top_k_experts : option Z;
  cap_shared_memory_supported : bool
}.

Record GranularityScope := mkGranularityScope {
  gs_match_pattern : string;
  gs_granularity : TickGranularity
}.

Inductive EnvelopeMode :=
  | EnvelopeMode_Full
  | EnvelopeMode_Position
  | EnvelopeMode_None.
#[export] Instance EnvelopeMode_eq : EqDecision EnvelopeMode.
Proof. solve_decision. Defined.

Record ResponseEnvelope (T : Type) := mkResponseEnvelope {
  env_state : SessionState;
  env_data : option T
}.

Record PositionEnvelope := mkPositionEnvelope {
  penv_status : Status;
  penv_position : option TickPosition
}.

(** ** Methods of the plain types *)

Definition wl_is_empty (w : WorldlineState) : bool :=
  match wl_segments w with [] => wl_current_segment w =? 0 | _ => false end.

Definition WorldlineState_default : WorldlineState := mkWorldlineState 0 [].

Definition byte_size (d : DType) : Z :=
  match d with
  | DType_Float16 | DType_Bfloat16 | DType_Int16 => 2
  | DType_Float32 | DType_Int32 => 4
  | DType_Float64 | DType_Int64 => 8
  | DType_Int8 | DType_Uint8 | DType_Bool => 1
  end.

Definition phase1_defaults : Capabilities := {|
  cap_protocol_version := "0.3.0";
  cap_supports_reverse_step := false;
  cap_supports_checkpointing := true;
  cap_supports_moe := false;
  cap_supports_backward := false;
  cap_supports_sae := false;
  cap_execution_mode := ExecutionMode_Eager;
  cap_parallelism := Parallelism_SingleGpu;
  cap_tick_granularities := [TickGranularity_Layer; TickGranularity_Component];
  cap_intervention_types := [
    InterventionType_Ablate; InterventionType_Scale; InterventionType_Add;
    InterventionType_Patch; InterventionType_Clamp; InterventionType_AttentionMask;
    InterventionType_EmbedSwap; InterventionType_EmbedNoise];
  cap_built_in_views := [
    BuiltInView_ResidualStreamNorm; BuiltInView_AttentionPattern; BuiltInView_LogitLens;
    BuiltInView_TunedLens; BuiltInView_KvCacheRibbon; BuiltInView_KvCacheDetail;
    BuiltInView_WorldlineDag];
  cap_head_granularity := HeadGranularity_Unavailable;
  cap_transports := [Transport_Stdio; Transport_UnixSocket; Transport_Websocket];
  cap_wire_formats := [WireFormat_Json];
  cap_max_response_bytes := 65536;
  cap_model_family := None;
  cap_model_id := None;
  cap_num_layers := None;
  cap_num_heads := None;
  cap_hidden_dim := None;
  cap_num_ranks := None;
  cap_num_experts := None;
  cap_top_k_experts := None;
  cap_shared_memory_supported := true
|}.

(** ** [errors.rs], [jsonrpc.rs] *)

Inductive ErrorCode :=
  | ErrorCode_InvalidState
  | ErrorCode_InvalidTarget
  | ErrorCode_InvalidRecipe
  | ErrorCode_ModelNotAttached
  | ErrorCode_TensorNotFound
  | ErrorCode_CheckpointNotFound
  | ErrorCode_ProbeNotFound
  | ErrorCode_CapabilityNotSupported
  | ErrorCode_SliceOutOfBounds
  | ErrorCode_ResponseTooLarge
  | ErrorCode_HostError
  | ErrorCode_GpuOom
  | ErrorCode_NcclTimeout
  | ErrorCode_ReplayDivergence
  | ErrorCode_UnsupportedModel
  | ErrorCode_CompiledModel
  | ErrorCode_ModelAlreadyAttached
  | ErrorCode_InvalidParams
  | ErrorCode_DuplicateProbeId
  | ErrorCode_InvalidPoint
  | ErrorCode_ViewDataUnavailable
  | ErrorCode_BackendAttachFailed
  | ErrorCode_BranchNotFound
  | ErrorCode_BranchMergeRefused
  | ErrorCode_VramExhausted
  | ErrorCode_CrossRequestKv
  | ErrorCode_KvEvicted.
#[export] Instance ErrorCode_eq : EqDecision ErrorCode.
Proof. solve_decision. Defined.

Inductive Severity :=
  | Severity_Fatal
  | Severity_Recoverable.
#[export] Instance Severity_eq : EqDecision Severity.
Proof. solve_decision. Defined.

Inductive RequestId :=
  | RequestId_Number (x : Z)
  | RequestId_String (x : string).

Definition numeric_code (c : ErrorCode) : Z :=
  match c with
  | ErrorCode_InvalidState => -32001
  | ErrorCode_InvalidTarget => -32002
  | ErrorCode_InvalidRecipe => -32003
  | ErrorCode_ModelNotAttached => -32004
  | ErrorCode_TensorNotFound => -32005
  | ErrorCode_CheckpointNotFound => -32006
  | ErrorCode_ProbeNotFound => -32007
  | ErrorCode_CapabilityNotSupported => -32008
  | ErrorCode_SliceOutOfBounds => -32009
  | ErrorCode_ResponseTooLarge => -32010
  | ErrorCode_HostError => -32011
  | ErrorCode_GpuOom => -32012
  | ErrorCode_NcclTimeout => -32013
  | ErrorCode_ReplayDivergence => -32014
  | ErrorCode_UnsupportedModel => -32015
  | ErrorCode_CompiledModel => -32016
  | ErrorCode_ModelAlreadyAttached => -32017
  | ErrorCode_InvalidParams => -32602
  | ErrorCode_DuplicateProbeId => -32018
  | ErrorCode_InvalidPoint => -32019
  | ErrorCode_ViewDataUnavailable => -32020
  | ErrorCode_BackendAttachFailed => -32021
  | ErrorCode_BranchNotFound => -32022
  | ErrorCode_BranchMergeRefused => -32023
  | ErrorCode_VramExhausted => -32024
  | ErrorCode_CrossRequestKv => -32025
  | ErrorCode_KvEvicted => -32026
  end.

Definition severity (c : ErrorCode) : Severity :=
  match c with
  | ErrorCode_HostError | ErrorCode_GpuOom | ErrorCode_NcclTimeout | ErrorCode_VramExhausted => Severity_Fatal
  | _ => Severity_Recoverable
  end.

Definition JSONRPC_VERSION : string := "2.0".
Definition PARSE_ERROR : Z := -32700.
Definition INVALID_REQUEST : Z := -32600.
Definition METHOD_NOT_FOUND : Z := -32601.
Definition INVALID_PARAMS : Z := -32602.
Definition INTERNAL_ERROR : Z := -32603.

(** ** The JSON-RPC envelope *)

Class JsonValue := {
  Value : Type;
  (** [Value::is_null] *)
  value_is_null : Value -> bool
}.

Section Envelope.
Context {J : JsonValue}.

Record ErrorData := mkErrorData {
  ed_error_code : ErrorCode;
  ed_numeric_code : option Z;
  ed_current_state : option Status;
  ed_valid_states : option (list Status);
  ed_suggestion : string;
  ed_severity : Severity;
  ed_recovery_hint : option string;
  ed_context : option Value
}.

Record Request := mkRequest {
  req_jsonrpc : string;
  req_id : RequestId;
  req_method : string;
  req_params : option Value
}.

Record RpcError := mkRpcError {
  rpe_code : Z;
  rpe_message : string;
  rpe_data : option ErrorData
}.

Record Response := mkResponse {
  rsp_jsonrpc : string;
  rsp_id : RequestId;
  rsp_result : option Value;
  rsp_error : option RpcError
}.

Record Notification := mkNotification {
  ntf_jsonrpc : string;
  ntf_method : string;
  ntf_params : option Value
}.

Record RawMessage := mkRawMessage {
  raw_jsonrpc : string;
  raw_id : option RequestId;
  raw_method : string;
  raw_params : option Value
}.

Definition ErrorData_new (c : ErrorCode) (suggestion : string) : ErrorData := {|
  ed_error_code := c;
  ed_numeric_code := Some (numeric_code c);
  ed_current_state := None;
  ed_valid_states := None;
  ed_suggestion := suggestion;
  ed_severity := severity c;
  ed_recovery_hint := None;
  ed_context := None
|}.

Definition from_error_data (e : ErrorData) : RpcError := {|
  rpe_code := match ed_numeric_code e with Some n => n | None => numeric_code (ed_error_code e) end;
  rpe_message := ed_suggestion e;
  rpe_data := Some e
|}.

Definition null_to_none (v : Value) : option Value := if value_is_null v then None else Some v.

Definition Request_new (id : RequestId) (method : string) (params : Value) : Request :=
  mkRequest JSONRPC_VERSION id method (null_to_none params).

Definition Response_success (id : RequestId) (result : Value) : Response :=
  mkResponse JSONRPC_VERSION id (Some result) None.

Definition Response_error (id : RequestId) (error : RpcError) : Response :=
  mkResponse JSONRPC_VERSION id None (Some error).

Definition Notification_new (method : string) (params : Value) : Notification :=
  mkNotification JSONRPC_VERSION method (null_to_none params).

Definition is_notification (m : RawMessage) : bool :=
  match raw_id m with None => true | Some _ => false end.

Definition into_request (m : RawMessage) : option Request :=
  match raw_id m with
  | Some id => Some (mkRequest (raw_jsonrpc m) id (raw_method m) (raw_params m))
  | None => None
  end.

Definition into_notification (m : RawMessage) : option Notification :=
  match raw_id m with
  | Some _ => None
  | None => Some (mkNotification (raw_jsonrpc m) (raw_method m) (raw_params m))
  end.

End Envelope.

(** ** [f64] conversions and the checkpoint-layer schedule *)

Definition f64_add : f64 -> f64 -> f64 := SFadd 53 1024.
Definition f64_sub : f64 -> f64 -> f64 := SFsub 53 1024.
Definition f64_mul : f64 -> f64 -> f64 := SFmul 53 1024.
Definition f64_div : f64 -> f64 -> f64 := SFdiv 53 1024.
Definition f64_sqrt : f64 -> f64 := SFsqrt 53 1024.
Definition f64_of_Z (n : Z) : f64 := binary_normalize 53 1024 n 0 false.

Inductive Rounding := RoundFloor | RoundCeil.

(** The integer a finite [f64] rounds to; [None] for infinities and NaN. *)
Definition f64_round (r : Rounding) (x : f64) : option Z :=
  match x with
  | S754_zero _ => Some 0
  | S754_finite s m e =>
      let v := if s then Z.neg m else Z.pos m in
      Some (match r with
            | RoundFloor => Z.shiftl v e
            | RoundCeil => - Z.shiftl (- v) e
            end)
  | _ => None
  end.

(** [x.floor() as u32] and [x.ceil() as u32]: Rust's saturating cast. *)
Definition f64_as_u32 (r : Rounding) (x : f64) : Z :=
  match f64_round r x with
  | Some n => Z.max 0 (Z.min n U32_MAX)
  | None => match x with S754_infinity false => U32_MAX | _ => 0 end
  end.

Definition checkpoint_layers (num_layers : Z) : list Z :=
  if num_layers <=? 1 then []
  else
    let sqrt_l := f64_as_u32 RoundCeil (f64_sqrt (f64_of_Z num_layers)) in
    let interval := f64_div (f64_of_Z num_layers) (f64_of_Z sqrt_l) in
    map (fun i => f64_as_u32 RoundFloor (f64_mul (f64_of_Z i) interval))
        (seqZ 1 (sqrt_l - 1)).

Fixpoint increasing_from (lo : Z) (l : list Z) : bool :=
  match l with [] => true | x :: r => (lo <? x) && increasing_from x r end.

Definition ceil_sqrt (n : Z) : Z := let r := Z.sqrt n in if r * r =? n then r else r + 1.

(** Consecutive elements of [lo :: l ++ [hi]] are at most [gap] apart. *)
Fixpoint gaps_within (gap lo hi : Z) (l : list Z) : bool :=
  match l with [] => hi - lo <=? gap | x :: r => (x - lo <=? gap) && gaps_within gap x hi r end.

Definition layers_good (n : Z) : bool :=
  let l := checkpoint_layers n in
  increasing_from 0 l && forallb (fun x => x <? n) l &&
  (Z.of_nat (List.length l) =? (if n <=? 1 then 0 else ceil_sqrt n - 1)) &&
  gaps_within (ceil_sqrt n) 0 n l.

(** Bound on the exhaustive evaluation; a transformer has far fewer layers. *)
Definition LAYER_BOUND : Z := 2048.

Lemma layers_good_all : forallb layers_good (seqZ 0 (LAYER_BOUND + 1)) = true.
Proof. vm_compute. reflexivity. Qed.

Lemma increasing_from_sorted lo l :
  increasing_from lo l = true -> StronglySorted Z.lt l /\ Forall (fun x => lo < x) l.
Proof.
  revert lo. induction l as [|x r IH]; intros lo H; [repeat constructor|].
  cbn in H. apply andb_prop in H as [Hx Hr]. apply Z.ltb_lt in Hx.
  destruct (IH _ Hr) as [Hs Hf]. split; [by constructor|].
  constructor; [done|]. eapply Forall_impl; [exact Hf|]. cbn. lia.
Qed.

Lemma layers_good_at n : 0 <= n <= LAYER_BOUND -> layers_good n = true.
Proof.
  intros Hn. pose proof layers_good_all as H. rewrite forallb_forall in H.
  apply H. apply list_elem_of_In, elem_of_seqZ. lia.
Qed.

Lemma checkpoint_layers_sorted n :
  0 <= n <= LAYER_BOUND -> StronglySorted Z.lt (checkpoint_layers n) /\ Forall (fun l => 0 < l < n) (checkpoint_layers n).
Proof.
  intros Hg%layers_good_at. unfold layers_good in Hg. rewrite !andb_true_iff in Hg. destruct Hg as [[[Hi Hb] _] _].
  apply increasing_from_sorted in Hi as [Hs Hpos]. split; [done|].
  rewrite Forall_forall in Hpos. rewrite forallb_forall in Hb. apply Forall_forall.
  intros x Hx. specialize (Hpos x Hx). apply list_elem_of_In, Hb in Hx. lia.
Qed.

(** For every model of up to [LAYER_BOUND] layers the checkpoint schedule
    computed in floating point is strictly increasing, names only real interior
    layers, has ceil(sqrt n) - 1 entries, and cuts the stack into segments of at
    most ceil(sqrt n) layers, so replaying from the nearest checkpoint never
    crosses more than that many layers. *)
Theorem checkpoint_layers_schedule (n : Z) :
  2 <= n <= LAYER_BOUND ->
  StronglySorted Z.lt (checkpoint_layers n) /\
  Forall (fun l => 0 < l < n) (checkpoint_layers n) /\
  Z.of_nat (List.length (checkpoint_layers n)) = ceil_sqrt n - 1 /\
  gaps_within (ceil_sqrt n) 0 n (checkpoint_layers n) = true.
Proof.
  intros Hn. destruct (checkpoint_layers_sorted n ltac:(lia)) as [Hs Hb].
  pose proof (layers_good_at n ltac:(lia)) as Hg. unfold layers_good in Hg. rewrite !andb_true_iff in Hg.
  destruct Hg as [[_ Hl] Hgap]. replace (n <=? 1) with false in Hl by (symmetry; lia).
  split_and!; [done|done|lia|done].
Qed.

Lemma checkpoint_layers_schedule_witness :
  checkpoint_layers 12 = [3; 6; 9] /\ StronglySorted Z.lt (checkpoint_layers 12).
Proof.
  split; [reflexivity|].
  apply (checkpoint_layers_schedule 12). unfold LAYER_BOUND. lia.
Defined.

(** ** The error table *)

Definition all_codes : list ErrorCode := [
  ErrorCode_InvalidState; ErrorCode_InvalidTarget; ErrorCode_InvalidRecipe;
  ErrorCode_ModelNotAttached; ErrorCode_TensorNotFound; ErrorCode_CheckpointNotFound;
  ErrorCode_ProbeNotFound; ErrorCode_CapabilityNotSupported; ErrorCode_SliceOutOfBounds;
  ErrorCode_ResponseTooLarge; ErrorCode_HostError; ErrorCode_GpuOom; ErrorCode_NcclTimeout;
  ErrorCode_ReplayDivergence; ErrorCode_UnsupportedModel; ErrorCode_CompiledModel;
  ErrorCode_ModelAlreadyAttached; ErrorCode_InvalidParams; ErrorCode_DuplicateProbeId;
  ErrorCode_InvalidPoint; ErrorCode_ViewDataUnavailable; ErrorCode_BackendAttachFailed;
  ErrorCode_BranchNotFound; ErrorCode_BranchMergeRefused; ErrorCode_VramExhausted;
  ErrorCode_CrossRequestKv; ErrorCode_KvEvicted].

Definition code_of_number (n : Z) : option ErrorCode := find (fun c => numeric_code c =? n) all_codes.

Lemma code_of_number_numeric c : code_of_number (numeric_code c) = Some c.
Proof. destruct c; reflexivity. Qed.

(** On the wire an error is identified by its number: distinct error codes
    have distinct numbers, none of them reuses a number JSON-RPC reserves for
    another meaning (parse error, invalid request, unknown method, internal
    error), and the error object built from a code carries that number, its
    severity and the suggestion as message, so a client recovers the code. *)
Theorem error_object_identifies_code {J : JsonValue} (c : ErrorCode) (suggestion : string) :
  let e := from_error_data (ErrorData_new c suggestion) in
  code_of_number (rpe_code e) = Some c /\
  rpe_message e = suggestion /\
  (exists d, rpe_data e = Some d /\ ed_error_code d = c /\ ed_severity d = severity c) /\
  rpe_code e <> PARSE_ERROR /\ rpe_code e <> INVALID_REQUEST /\
  rpe_code e <> METHOD_NOT_FOUND /\ rpe_code e <> INTERNAL_ERROR /\
  (rpe_code e = INVALID_PARAMS <-> c = ErrorCode_InvalidParams).
Proof.
  cbn zeta. split; [apply code_of_number_numeric|]. split; [reflexivity|].
  split; [eexists; done|].
  cbn [rpe_code from_error_data ErrorData_new ed_numeric_code].
  destruct c; repeat split; done.
Qed.
