(* ===== verification/Stdio.v ===== *)
(** * Stdio: JSON-RPC over a pair of streams, and the loop that serves it

    [crates/rocket-surgeon-transport/src/lib.rs] and [stdio.rs]: requests and
    responses as framed JSON texts, over the bytes to read and the bytes written.
    Printing and parsing JSON are parameters.  [message_loop] is the loop that
    [main] of the worker and of the orchestrator run. *)

From Stdlib Require Import ZArith Lia Ascii String.
From stdpp Require Import base strings list.
From S2P Require Import Prelude Framing Protocol.
Open Scope Z_scope.

Section Stdio.
Context `{J : JsonValue}.
(** [serde_json::to_string] and [from_str] *)
Context (print_request : Request -> string) (print_response : Response -> string)
  (parse_request : string -> result string Request) (parse_response : string -> result string Response).

Inductive TransportError := TE_Framing (e : FramingError) | TE_Json (message : string) | TE_Closed.

Record StdioTransport := mkStdioTransport { st_reader : list ascii; st_writer : list ascii }.

Definition StdioTransport_new (reader writer : list ascii) : StdioTransport := mkStdioTransport reader writer.

Definition send_text (json : string) (t : StdioTransport) : StdioTransport := mkStdioTransport (st_reader t) (st_writer t ++ write_message json).

Definition send_request (request : Request) (t : StdioTransport) : StdioTransport := send_text (print_request request) t.
Definition send_response (response : Response) (t : StdioTransport) : StdioTransport := send_text (print_response response) t.

(** [None] only if reading did not end ([Framing.read_message_total]). *)
Definition recv {A} (from_str : string -> result string A) (t : StdioTransport) : option (result TransportError A * StdioTransport) :=
  '(r, rest) ← read_message (st_reader t);
  let t := mkStdioTransport rest (st_writer t) in
  Some (match r with
        | Err e => Err (TE_Framing e)
        | Ok json => match from_str json with Ok x => Ok x | Err e => Err (TE_Json e) end
        end, t).

Definition recv_request : StdioTransport -> option (result TransportError Request * StdioTransport) := recv parse_request.
Definition recv_response : StdioTransport -> option (result TransportError Response * StdioTransport) := recv parse_response.

(** What one side sends the other receives. *)
Lemma recv_sent {A} (print : A -> string) (parse : string -> result string A) x rest w :
  parse (print x) = Ok x -> sendable (print x) ->
  recv parse (mkStdioTransport (write_message (print x) ++ rest) w) = Some (Ok x, mkStdioTransport rest w).
Proof. intros Hp Hs. unfold recv. cbn [st_reader]. rewrite read_written by done. cbn. by rewrite Hp. Qed.

Lemma exchange_over_streams request response client server :
  parse_request (print_request request) = Ok request -> parse_response (print_response response) = Ok response ->
  sendable (print_request request) -> sendable (print_response response) ->
  st_writer client = [] -> st_writer server = [] -> st_reader client = [] -> st_reader server = [] ->
  let client1 := send_request request client in
  let server1 := mkStdioTransport (st_writer client1) [] in
  exists server2, recv_request server1 = Some (Ok request, server2) /\
    let client2 := mkStdioTransport (st_writer (send_response response server2)) (st_writer client1) in
    exists client3, recv_response client2 = Some (Ok response, client3) /\ st_reader client3 = [].
Proof.
  intros Hq Hr Hsq Hsr Hc Hs _ _. cbn [send_request send_text st_writer]. rewrite Hc. cbn [app].
  eexists. split; [rewrite <- (app_nil_r (write_message _)); by apply recv_sent|]. cbn [send_response send_text st_writer app].
  eexists. split; [rewrite <- (app_nil_r (write_message _)); by apply recv_sent|]. done.
Qed.

End Stdio.

(** ** The main loop of a serving process *)

Section Loop.
Context `{J : JsonValue} {C S : Type} (step : C -> Request -> S -> option (Response * S)).
Context (parse_request : string -> result string Request) (print_response : Response -> string) (parse_failure : string -> string).

(** The messages of the input in turn, the process's surroundings during each
    one given; a message that cannot be read ends the loop.  What was written and
    the state at the end; [None] is a panic. *)
Fixpoint message_loop (calls : list C) (input : list ascii) (s : S) (written : list ascii) : option (list ascii * S) :=
  match calls with
  | [] => Some (written, s)
  | c :: calls =>
      '(r, rest) ← read_message input;
      match r with
      | Err _ => Some (written, s)
      | Ok raw =>
          match parse_request raw with
          | Err e => message_loop calls rest s (written ++ write_message (parse_failure e))
          | Ok request =>
              '(resp, s) ← step c request s;
              message_loop calls rest s (written ++ write_message (print_response resp))
          end
      end
  end.

(** What is written for each message. *)
Fixpoint loop_replies (calls : list C) (texts : list string) (s : S) : option (list string * S) :=
  match calls, texts with
  | c :: calls, t :: texts =>
      match parse_request t with
      | Err e => '(out, s) ← loop_replies calls texts s; Some (parse_failure e :: out, s)
      | Ok request =>
          '(resp, s) ← step c request s;
          '(out, s) ← loop_replies calls texts s;
          Some (print_response resp :: out, s)
      end
  | _, _ => Some ([], s)
  end.

Lemma message_loop_replies calls texts rest s written :
  Forall sendable texts -> length calls = length texts ->
  message_loop calls (concat (map write_message texts) ++ rest) s written =
  '(out, s) ← loop_replies calls texts s; Some (written ++ concat (map write_message out), s).
Proof.
  intros Ht. revert calls s written. induction Ht as [|t texts Hm Ht IH]; intros [|c calls] s written Hl; try discriminate Hl; cbn [message_loop loop_replies].
  - cbn. by rewrite app_nil_r.
  - injection Hl as Hl. cbn [map concat]. rewrite <- app_assoc, read_written by done. cbn [mbind option_bind].
    destruct (parse_request t) as [request|e].
    + destruct (step c request s) as [[resp s1]|]; [|done]. cbn [mbind option_bind]. rewrite IH by done.
      destruct (loop_replies calls texts s1) as [[out s2]|]; [|done]. cbn. by rewrite <- app_assoc.
    + rewrite IH by done. destruct (loop_replies calls texts s) as [[out s2]|]; [|done]. cbn. by rewrite <- app_assoc.
Qed.

Lemma loop_replies_length texts : forall calls s out s', length calls = length texts ->
  loop_replies calls texts s = Some (out, s') -> length out = length texts.
Proof.
  induction texts as [|t texts IH]; intros [|c calls] s out s' Hl; try discriminate Hl; cbn [loop_replies]; [by intros [= <- <-]|].
  injection Hl as Hl. destruct (parse_request t) as [request|e].
  - intros ([resp s1] & _ & ([o s2] & E & [= <- <-])%bind_Some)%bind_Some. cbn. f_equal. by eapply IH.
  - intros ([o s2] & E & [= <- <-])%bind_Some. cbn. f_equal. by eapply IH.
Qed.

(** The answers come back one by one. *)
Lemma message_loop_answers calls texts rest s :
  Forall sendable texts -> length calls = length texts ->
  match message_loop calls (concat (map write_message texts) ++ rest) s [], loop_replies calls texts s with
  | Some (written, s1), Some (out, s2) =>
      s1 = s2 /\ length out = length texts /\ (Forall sendable out -> read_messages (length texts) written = Some (out, []))
  | None, None => True
  | _, _ => False
  end.
Proof.
  intros Ht Hl. rewrite message_loop_replies by done. pose proof (loop_replies_length texts calls s) as Hlen.
  destruct (loop_replies calls texts s) as [[out s2]|]; [|done]. cbn. specialize (Hlen out s2 Hl eq_refl).
  split_and!; [done|done|]. intros Hs. rewrite <- Hlen, <- (app_nil_r (concat _)). by apply read_messages_written.
Qed.

(** What every request keeps, the loop keeps, whatever the input. *)
Lemma message_loop_invariant (P : S -> Prop) (Hstep : forall c request s resp s', P s -> step c request s = Some (resp, s') -> P s') calls :
  forall input s written out s', P s -> message_loop calls input s written = Some (out, s') -> P s'.
Proof.
  induction calls as [|c calls IH]; intros input s written out s' Hs; cbn [message_loop]; [by intros [= _ <-]|].
  intros ([r rest] & _ & H)%bind_Some. destruct r as [raw|e]; [|by injection H as _ <-]. destruct (parse_request raw) as [request|e]; [|by eapply IH].
  apply bind_Some in H as ([resp s1] & E & H). eapply IH; [|exact H]. by eapply Hstep.
Qed.

(** A loop whose requests are all answered does not stop before its input. *)
Lemma loop_replies_total calls texts s : (forall c request s, is_Some (step c request s)) -> is_Some (loop_replies calls texts s).
Proof.
  intros Ht. revert texts s. induction calls as [|c calls IH]; intros [|t texts] s; cbn [loop_replies]; try by eexists.
  destruct (parse_request t) as [request|e].
  - destruct (Ht c request s) as [[resp s1] ->]. cbn [mbind option_bind]. destruct (IH texts s1) as [[out s2] ->]. by eexists.
  - destruct (IH texts s) as [[out s2] ->]. by eexists.
Qed.

End Loop.
