(* ===== verification/Float.v ===== *)
(** * Float: [f64] as the Standard Library specifies it

    Conversions, the fused multiply-add, and the order of numbers, for the code
    that computes with tensors. *)

From Stdlib Require Import ZArith Lia Ascii String SpecFloat.
From coqutil Require Import Byte.
From stdpp Require Import base list strings.
From S2P Require Import Prelude Protocol.
Open Scope Z_scope.

Definition f64_ltb : f64 -> f64 -> bool := SFltb.
Definition f64_leb : f64 -> f64 -> bool := SFleb.
Definition f64_abs : f64 -> f64 := SFabs.
Definition f64_zero : f64 := S754_zero false.
Definition f64_one : f64 := S754_finite false 4503599627370496 (-52).
Definition f64_infinity : f64 := S754_infinity false.
Definition f64_neg_infinity : f64 := S754_infinity true.

(** [f64::EPSILON]: 2^-52 *)
Definition f64_EPSILON : f64 := S754_finite false 4503599627370496 (-104).

Definition is_nan (x : f64) : bool := match x with S754_nan => true | _ => false end.
Definition is_finite (x : f64) : bool := match x with S754_zero _ | S754_finite _ _ _ => true | _ => false end.

(** [f64::min] and [f64::max]: a NaN is ignored. *)
Definition f64_min (x y : f64) : f64 := if is_nan x then y else if is_nan y then x else if f64_ltb y x then y else x.
Definition f64_max (x y : f64) : f64 := if is_nan x then y else if is_nan y then x else if f64_ltb x y then y else x.

(** The integer [m * 2^e] at the smaller exponent [e']. *)
Definition at_exponent (e' : Z) (s : bool) (m : positive) (e : Z) : Z := Z.shiftl (if s then Z.neg m else Z.pos m) (e - e').

(** [x.mul_add(y, z)]: one rounding. *)
Definition f64_mul_add (x y z : f64) : f64 :=
  match x, y, z with
  | S754_nan, _, _ | _, S754_nan, _ | _, _, S754_nan => S754_nan
  | S754_infinity _, S754_zero _, _ | S754_zero _, S754_infinity _, _ => S754_nan
  | S754_infinity sx, (S754_infinity sy | S754_finite sy _ _), S754_infinity sz
  | S754_finite sx _ _, S754_infinity sy, S754_infinity sz => if eqb (xorb sx sy) sz then z else S754_nan
  | S754_infinity sx, (S754_infinity sy | S754_finite sy _ _), _ | S754_finite sx _ _, S754_infinity sy, _ => S754_infinity (xorb sx sy)
  | _, _, S754_infinity _ => z
  | S754_zero sx, (S754_zero sy | S754_finite sy _ _), S754_zero sz | S754_finite sx _ _, S754_zero sy, S754_zero sz => S754_zero (xorb sx sy && sz)
  | S754_zero _, _, _ | _, S754_zero _, _ => z
  | S754_finite sx mx ex, S754_finite sy my ey, S754_zero _ => f64_mul x y
  | S754_finite sx mx ex, S754_finite sy my ey, S754_finite sz mz ez =>
      let e := Z.min (ex + ey) ez in
      binary_normalize 53 1024 (at_exponent e (xorb sx sy) (mx * my) (ex + ey) + at_exponent e sz mz ez) e false
  end.

(** The number an IEEE 754 bit pattern stands for. *)
Definition float_of_bits (mantissa_bits exponent_bits : Z) (bits : Z) : f64 :=
  let s := Z.testbit bits (mantissa_bits + exponent_bits) in
  let m := bits mod 2 ^ mantissa_bits in
  let e := Z.shiftr bits mantissa_bits mod 2 ^ exponent_bits in
  let bias := 2 ^ (exponent_bits - 1) - 1 in
  if e =? 2 ^ exponent_bits - 1 then (if m =? 0 then S754_infinity s else S754_nan)
  else if e =? 0 then (if m =? 0 then S754_zero s else S754_finite s (Z.to_pos m) (1 - bias - mantissa_bits))
  else S754_finite s (Z.to_pos (m + 2 ^ mantissa_bits)) (e - bias - mantissa_bits).

Definition f64_from_bits : Z -> f64 := float_of_bits 52 11.

(** [f64::from(f32::from_bits(b))]: the same number. *)
Definition f64_from_f32_bits (bits : Z) : f64 :=
  match float_of_bits 23 8 bits with
  | S754_finite s m e => binary_normalize 53 1024 (if s then Z.neg m else Z.pos m) e false
  | x => x
  end.

(** [x.floor() as usize]: Rust's saturating cast. *)
Definition f64_floor_as_usize (x : f64) : Z :=
  match f64_round RoundFloor x with
  | Some n => Z.max 0 (Z.min n USIZE_MAX)
  | None => match x with S754_infinity false => USIZE_MAX | _ => 0 end
  end.

(** ** Printing

    [format!("{x:.digits}")]: the decimal nearest to the number, of two equally
    near ones the even one; the sign is kept. *)
Definition half_even_div (a b : Z) : Z :=
  let q := a / b in
  let r := 2 * (a mod b) in
  if (b <? r) || ((b =? r) && Z.odd q) then q + 1 else q.

(** [m * 2^e * 10^digits], rounded. *)
Definition fixed_point (digits : nat) (m : positive) (e : Z) : Z :=
  let n := Z.pos m * 10 ^ Z.of_nat digits in
  if 0 <=? e then n * 2 ^ e else half_even_div n (2 ^ (- e)).

Definition print_fixed (digits : nat) (x : f64) : string :=
  let number (s : bool) n :=
    let unit := 10 ^ Z.of_nat digits in
    text ((if s then chars "-" else []) ++ print_dec (n / unit) ++
          match digits with O => [] | _ => "."%char :: zero_padded digits (n mod unit) end) in
  match x with
  | S754_nan => "NaN"
  | S754_infinity s => if s then "-inf" else "inf"
  | S754_zero s => number s 0
  | S754_finite s m e => number s (fixed_point digits m e)
  end%string.

(** The printed decimal is within half a unit of its last place. *)
Lemma half_even_div_near a b : 0 < b -> 2 * Z.abs (a - b * half_even_div a b) <= b.
Proof.
  intros Hb. unfold half_even_div. pose proof (Z.div_mod a b ltac:(lia)) as E. pose proof (Z.mod_pos_bound a b Hb).
  destruct (Z.ltb_spec b (2 * (a mod b))), (Z.eqb_spec b (2 * (a mod b))), (Z.odd (a / b)); cbn; nia.
Qed.

Lemma fixed_point_near digits m e : e < 0 ->
  2 * Z.abs (Z.pos m * 10 ^ Z.of_nat digits - 2 ^ (- e) * fixed_point digits m e) <= 2 ^ (- e).
Proof. intros He. unfold fixed_point. rewrite (proj2 (Z.leb_gt _ _) He). apply half_even_div_near. by apply Z.pow_pos_nonneg; lia. Qed.

(** ** The order

    Numbers are ordered by sign, then exponent, then mantissa. *)

Definition sign_rank (x : f64) : Z :=
  match x with
  | S754_infinity true => -2 | S754_finite true _ _ => -1 | S754_zero _ | S754_nan => 0
  | S754_finite false _ _ => 1 | S754_infinity false => 2
  end.
Definition exponent_rank (x : f64) : Z := match x with S754_finite s _ e => if s then - e else e | _ => 0 end.
Definition mantissa_rank (x : f64) : Z := match x with S754_finite s m _ => if s then Z.neg m else Z.pos m | _ => 0 end.

Definition below (x y : f64) : Prop :=
  sign_rank x < sign_rank y \/ sign_rank x = sign_rank y /\
  (exponent_rank x < exponent_rank y \/ exponent_rank x = exponent_rank y /\ mantissa_rank x < mantissa_rank y).

#[export] Instance below_dec x y : Decision (below x y).
Proof. unfold below. apply _. Defined.

Lemma ltb_below x y : is_nan x = false -> is_nan y = false -> f64_ltb x y = true <-> below x y.
Proof.
  unfold below, f64_ltb, SFltb, SFcompare. destruct x as [[]|[]| |[] mx ex], y as [[]|[]| |[] my ey]; try done; intros _ _;
    cbn [sign_rank exponent_rank mantissa_rank]; try (split; intros; [lia|try done; exfalso; lia]).
  all: destruct (Z.compare_spec ex ey); try (split; intros; [try done; lia|try done; exfalso; lia]).
  all: unfold Pos.compare; rewrite ?Pos.compare_cont_spec; fold (Pos.compare mx my); destruct (Pos.compare_spec mx my); cbn;
    (split; intros; [try done; lia|try done; exfalso; lia]).
Qed.

Lemma ltb_nan x y : f64_ltb x y = true -> is_nan x = false /\ is_nan y = false.
Proof. by destruct x, y. Qed.

Lemma ltb_true x y : f64_ltb x y = true -> below x y.
Proof. intros H. destruct (ltb_nan x y H). by apply ltb_below. Qed.

Lemma ltb_false x y : is_nan x = false -> is_nan y = false -> f64_ltb x y = false -> ~ below x y.
Proof. intros Hx Hy H Hb. apply ltb_below in Hb; [congruence|done|done]. Qed.

Lemma below_ltb x y : is_nan x = false -> is_nan y = false -> ~ below x y -> f64_ltb x y = false.
Proof. intros Hx Hy Hb. apply not_true_iff_false. intros H. by apply Hb, ltb_true. Qed.

Lemma ltb_irrefl x : f64_ltb x x = false.
Proof. destruct (is_nan x) eqn:E; [by destruct x|]. apply below_ltb; [done|done|]. unfold below. lia. Qed.

Lemma ltb_trans x y z : f64_ltb x y = true -> f64_ltb y z = true -> f64_ltb x z = true.
Proof.
  intros H1 H2. destruct (ltb_nan _ _ H1), (ltb_nan _ _ H2). apply ltb_true in H1, H2. apply ltb_below; [done|done|]. unfold below in *. lia.
Qed.

(** Not being less is transitive. *)
Lemma geb_trans x y z : is_nan y = false -> f64_ltb x y = false -> f64_ltb y z = false -> f64_ltb x z = false.
Proof.
  intros Hy H1 H2. destruct (is_nan x) eqn:Ex; [by destruct x|]. destruct (is_nan z) eqn:Ez; [by destruct z, x|].
  apply ltb_false in H1, H2; try done. apply below_ltb; [done|done|]. unfold below in *. lia.
Qed.

Lemma ltb_asym x y : f64_ltb x y = true -> f64_ltb y x = false.
Proof. intros H. apply not_true_iff_false. intros H'. pose proof (ltb_trans _ _ _ H H') as E. by rewrite ltb_irrefl in E. Qed.

Lemma finite_number x : is_finite x = true -> is_nan x = false.
Proof. by destruct x. Qed.

(** The least and the greatest of two numbers. *)
Lemma f64_min_le x y : is_nan x = false -> is_nan y = false ->
  (f64_min x y = x \/ f64_min x y = y) /\ f64_ltb x (f64_min x y) = false /\ f64_ltb y (f64_min x y) = false.
Proof.
  intros Hx Hy. unfold f64_min. rewrite Hx, Hy. destruct (f64_ltb y x) eqn:E.
  - split_and!; [by right|by apply ltb_asym|apply ltb_irrefl].
  - split_and!; [by left|apply ltb_irrefl|done].
Qed.

Lemma finite_abs x : is_finite (f64_abs x) = is_finite x.
Proof. by destruct x. Qed.

(** For numbers, [<=] is the negation of [>]. *)
Lemma leb_not_ltb x y : is_nan x = false -> is_nan y = false -> f64_leb x y = negb (f64_ltb y x).
Proof.
  unfold f64_leb, f64_ltb, SFleb, SFltb, SFcompare. destruct x as [[]|[]| |[] mx ex], y as [[]|[]| |[] my ey]; try done; intros _ _.
  all: rewrite (Z.compare_antisym ex ey); destruct (Z.compare ex ey); try done; cbn [CompOpp].
  all: change (Pos.compare_cont Eq mx my) with (Pos.compare mx my); change (Pos.compare_cont Eq my mx) with (Pos.compare my mx).
  all: rewrite (Pos.compare_antisym mx my); by destruct (Pos.compare mx my).
Qed.

(** ** Rounding a product

    Rounding to nearest moves a number by less than a unit in its last place,
    and not at all when it has few enough digits. *)

Lemma digits2_log2 p : Z.pos (digits2_pos p) = Z.log2 (Z.pos p) + 1.
Proof.
  induction p as [p IH|p IH|]; [| |done]; cbn [digits2_pos]; rewrite Pos2Z.inj_succ, IH.
  - change (Z.pos p~1) with (2 * Z.pos p + 1). rewrite Z.log2_succ_double by done. lia.
  - change (Z.pos p~0) with (2 * Z.pos p). rewrite Z.log2_double by done. lia.
Qed.

Lemma iter_pos_iter {A} (f : A -> A) p : forall x, SpecFloat.iter_pos f p x = Pos.iter f x p.
Proof. induction p as [p IH|p IH|]; intros x; cbn; rewrite ?IH; [|done|done]. rewrite <- !Pos.iter_swap. done. Qed.

Lemma shr_1_half mrs : 0 <= shr_m mrs -> shr_m (shr_1 mrs) = shr_m mrs / 2.
Proof. destruct mrs as [[|[p|p|]|] r s]; intros H; cbn in *; try lia; rewrite <- Z.div2_div; done. Qed.

Lemma shr_iter mrs p : 0 <= shr_m mrs -> shr_m (SpecFloat.iter_pos shr_1 p mrs) = shr_m mrs / 2 ^ Z.pos p.
Proof.
  intros H. rewrite iter_pos_iter. induction p as [|p IH] using Pos.peano_ind; [by apply shr_1_half|].
  rewrite Pos.iter_succ, Pos2Z.inj_succ, Z.pow_succ_r, Z.mul_comm, <- Z.div_div by lia.
  rewrite shr_1_half, IH; [done|]. rewrite IH. apply Z.div_pos; lia.
Qed.

Lemma shr_spec mrs e n : 0 <= shr_m mrs -> shr_m (shr mrs e n).1 = shr_m mrs / 2 ^ Z.max 0 n /\ (shr mrs e n).2 = e + Z.max 0 n.
Proof.
  intros H. unfold shr. destruct n as [|p|p]; cbn [fst snd]; [rewrite Z.max_id, Z.div_1_r; lia| |].
  - rewrite Z.max_r by lia. by rewrite shr_iter.
  - rewrite Z.max_l, Z.div_1_r by lia. lia.
Qed.

Lemma round_nearest_even_bound m l : m <= round_nearest_even m l <= m + 1.
Proof. destruct l as [|[]]; cbn; try lia. destruct (Z.even m); lia. Qed.

Section Round.
Context (prec emax : Z).

Definition last_place (p : positive) (e : Z) : Z := Z.max 0 (fexp prec emax (Z.pos (digits2_pos p) + e) - e).

Lemma round_aux_bound p e m' e' : binary_round_aux prec emax false (Z.pos p) e loc_Exact = S754_finite false m' e' ->
  e <= e' /\ Z.pos m' * 2 ^ (e' - e) <= if last_place p e =? 0 then Z.pos p else Z.pos p + 2 ^ last_place p e.
Proof.
  unfold binary_round_aux, shr_fexp. cbn [shr_record_of_loc Zdigits2].
  pose proof (shr_spec {| shr_m := Z.pos p; shr_r := false; shr_s := false |} e (fexp prec emax (Z.pos (digits2_pos p) + e) - e) ltac:(done)) as H1.
  assert (Hx : last_place p e = 0 -> loc_of_shr_record (shr {| shr_m := Z.pos p; shr_r := false; shr_s := false |} e (fexp prec emax (Z.pos (digits2_pos p) + e) - e)).1 = loc_Exact).
  { unfold last_place, shr. by destruct (fexp _ _ _ - e) eqn:E. }
  destruct (shr _ e _) as [mrs1 e1]. cbn [fst snd shr_m] in *. fold (last_place p e) in H1. destruct H1 as [Hm1 He1].
  assert (Hk : 0 <= last_place p e) by (unfold last_place; lia). set (k := last_place p e) in *. clearbody k.
  set (m1 := round_nearest_even (shr_m mrs1) (loc_of_shr_record mrs1)).
  pose proof (round_nearest_even_bound (shr_m mrs1) (loc_of_shr_record mrs1)) as Hr. fold m1 in Hr.
  pose proof (Z.pow_pos_nonneg 2 k ltac:(lia) Hk) as Hp.
  assert (Hb : 0 <= m1 /\ m1 * 2 ^ k <= if k =? 0 then Z.pos p else Z.pos p + 2 ^ k).
  { pose proof (Z.mul_div_le (Z.pos p) (2 ^ k) Hp). pose proof (Z.div_pos (Z.pos p) (2 ^ k) ltac:(lia) Hp). rewrite Hm1 in Hr. split; [lia|]. destruct (Z.eqb_spec k 0) as [->|]; [|nia].
    unfold m1. rewrite (Hx eq_refl). cbn [round_nearest_even]. rewrite Hm1. lia. }
  pose proof (shr_spec {| shr_m := m1; shr_r := false; shr_s := false |} e1 (fexp prec emax (Zdigits2 m1 + e1) - e1) (proj1 Hb)) as H2.
  destruct (shr _ e1 _) as [mrs2 e2]. cbn [fst snd shr_m] in *. destruct H2 as [Hm2 He2]. set (n := Z.max 0 _) in *. assert (Hn : 0 <= n) by lia. clearbody n.
  destruct (shr_m mrs2) as [|q|q]; try done. destruct (e2 <=? _); [|done]. intros [= <- <-]. split; [lia|].
  etrans; [|apply Hb]. replace (e2 - e) with (n + k) by lia. rewrite Z.pow_add_r, Z.mul_assoc by lia.
  apply Z.mul_le_mono_nonneg_r; [lia|]. rewrite Hm2, Z.mul_comm. apply Z.mul_div_le. by apply Z.pow_pos_nonneg.
Qed.

(** Far from the largest exponent the result is not infinite. *)
Lemma round_aux_finite p e s : 0 < prec -> 3 - emax - prec <= e -> e + 2 * Z.pos (digits2_pos p) + 2 <= emax - prec ->
  binary_round_aux prec emax false (Z.pos p) e loc_Exact <> S754_infinity s.
Proof.
  intros Hprec He Hd. unfold binary_round_aux, shr_fexp. cbn [shr_record_of_loc Zdigits2].
  pose proof (shr_spec {| shr_m := Z.pos p; shr_r := false; shr_s := false |} e (fexp prec emax (Z.pos (digits2_pos p) + e) - e) ltac:(done)) as H1.
  destruct (shr _ e _) as [mrs1 e1]. cbn [fst snd shr_m] in *. destruct H1 as [Hm1 He1].
  set (m1 := round_nearest_even (shr_m mrs1) (loc_of_shr_record mrs1)).
  pose proof (round_nearest_even_bound (shr_m mrs1) (loc_of_shr_record mrs1)) as Hr. fold m1 in Hr.
  set (k := Z.max 0 _) in *. assert (Hk : 0 <= k <= Z.pos (digits2_pos p)) by (unfold k, fexp, emin; lia). clearbody k.
  pose proof (Z.pow_pos_nonneg 2 k ltac:(lia) ltac:(lia)) as Hp.
  assert (Hm : 0 <= m1 <= 2 * Z.pos p).
  { pose proof (Z.div_pos (Z.pos p) (2 ^ k) ltac:(lia) Hp). pose proof (Z.div_le_upper_bound (Z.pos p) (2 ^ k) (Z.pos p) Hp ltac:(nia)). lia. }
  pose proof (shr_spec {| shr_m := m1; shr_r := false; shr_s := false |} e1 (fexp prec emax (Zdigits2 m1 + e1) - e1) (proj1 Hm)) as H2.
  destruct (shr _ e1 _) as [mrs2 e2]. cbn [fst snd] in H2. destruct H2 as [_ He2].
  assert (Hz : Zdigits2 m1 <= Z.pos (digits2_pos p) + 1).
  { destruct m1 as [|q|q]; cbn [Zdigits2]; [lia| |lia]. rewrite !digits2_log2. pose proof (Z.log2_le_mono (Z.pos q) (2 * Z.pos p) ltac:(lia)) as Hq. rewrite Z.log2_double in Hq by lia. lia. }
  destruct (shr_m mrs2); try done. rewrite Zle_imp_le_bool; [done|]. unfold fexp, emin in He2. lia.
Qed.

(** A number with exactly [prec] digits and an exponent in range is kept. *)
Lemma round_aux_exact p e : Z.pos (digits2_pos p) = prec -> 3 - emax - prec <= e <= emax - prec ->
  binary_round_aux prec emax false (Z.pos p) e loc_Exact = S754_finite false p e.
Proof.
  intros Hd He. unfold binary_round_aux, shr_fexp. cbn [shr_record_of_loc Zdigits2].
  assert (E : fexp prec emax (Z.pos (digits2_pos p) + e) - e = 0) by (unfold fexp, emin; lia).
  rewrite E. cbn [shr shr_m loc_of_shr_record round_nearest_even Zdigits2]. rewrite E. cbn [shr shr_m].
  by rewrite Zle_imp_le_bool by lia.
Qed.

End Round.
