(* ===== verification/Assertion.v ===== *)
(** * Assertion: conditions on the statistics of a tensor

    [crates/rocket-surgeon-probes/src/assertion.rs]: the language
    [field op number], its parser (over the [Winnow] interface), and evaluation. *)

From Stdlib Require Import ZArith Lia Ascii String SpecFloat.
From stdpp Require Import base list strings sets.
From S2P Require Import Prelude Winnow Protocol Float.
Open Scope Z_scope.

Inductive StatsField :=
| StatsField_Mean | StatsField_Std | StatsField_Min | StatsField_Max | StatsField_AbsMax | StatsField_Sparsity | StatsField_L2Norm.
Inductive CmpOp := CmpOp_Lt | CmpOp_Gt | CmpOp_Le | CmpOp_Ge | CmpOp_Eq | CmpOp_Ne.

Record Assertion := mkAssertion { as_field : StatsField; as_op : CmpOp; as_value : f64 }.

(** ** Evaluation *)

Definition extract (f : StatsField) (stats : TensorStats) : f64 :=
  match f with
  | StatsField_Mean => tst_mean stats
  | StatsField_Std => tst_std stats
  | StatsField_Min => tst_min stats
  | StatsField_Max => tst_max stats
  | StatsField_AbsMax => tst_abs_max stats
  | StatsField_Sparsity => tst_sparsity stats
  | StatsField_L2Norm => tst_l2_norm stats
  end.

Definition compare (lhs : f64) (op : CmpOp) (value : f64) : bool :=
  match op with
  | CmpOp_Lt => f64_ltb lhs value
  | CmpOp_Gt => f64_ltb value lhs
  | CmpOp_Le => f64_leb lhs value
  | CmpOp_Ge => f64_leb value lhs
  | CmpOp_Eq => f64_ltb (f64_abs (f64_sub lhs value)) f64_EPSILON
  | CmpOp_Ne => f64_leb f64_EPSILON (f64_abs (f64_sub lhs value))
  end.

Definition evaluate (a : Assertion) (stats : TensorStats) : bool := compare (extract (as_field a) stats) (as_op a) (as_value a).

(** ** Parsing *)

Definition word_char (c : ascii) : bool := is_ascii_alphanumeric c || bool_decide (c = "_"%char).

Definition field_of_name (name : string) : option StatsField :=
  if bool_decide (name = "mean") then Some StatsField_Mean
  else if bool_decide (name = "std") then Some StatsField_Std
  else if bool_decide (name = "min") then Some StatsField_Min
  else if bool_decide (name = "max") then Some StatsField_Max
  else if bool_decide (name = "abs_max") then Some StatsField_AbsMax
  else if bool_decide (name = "sparsity") then Some StatsField_Sparsity
  else if bool_decide (name = "l2_norm") || bool_decide (name = "norm") then Some StatsField_L2Norm
  else None.

(** [str::parse::<f64>] of a decimal literal: the nearest number. *)
Definition f64_of_decimal (neg : bool) (int_part frac : list ascii) (exponent : Z) : f64 :=
  let digits := default 0 (parse_digits 0 (int_part ++ frac)) in
  let e := exponent - Z.of_nat (List.length frac) in
  if digits =? 0 then S754_zero neg
  else if 0 <=? e then binary_normalize 53 1024 ((if neg then - digits else digits) * 10 ^ e) 0 neg
  else f64_div (S754_finite neg (Z.to_pos digits) 0) (S754_finite false (Z.to_pos (10 ^ (- e))) 0).

Definition exponent_value (sign : option ascii) (digits : list ascii) : Z :=
  let n := default 0 (parse_digits 0 digits) in
  if bool_decide (sign = Some "-"%char) then - n else n.

Section Parser.
Context {W : Winnow}.

Definition field_name : parser StatsField := fun input =>
  let? (first, input) := alpha1 input in
  let? (rest, input) := repeat0 (one_of word_char) input in
  match field_of_name (text (first ++ rest)) with
  | Some f => Ok (f, input)
  | None => Err Cut
  end.

(** A string as a parser. *)
Fixpoint tag (s : list ascii) : parser unit := fun input =>
  match s with
  | [] => Ok (tt, input)
  | c :: s => let? (_, input) := chr c input in tag s input
  end.

Definition op_parser (s : string) (op : CmpOp) : parser CmpOp := pmap (fun _ => op) (tag (chars s)).

Definition cmp_op : parser CmpOp :=
  alt (op_parser "<=" CmpOp_Le) (alt (op_parser ">=" CmpOp_Ge) (alt (op_parser "!=" CmpOp_Ne)
    (alt (op_parser "==" CmpOp_Eq) (alt (op_parser "<" CmpOp_Lt) (op_parser ">" CmpOp_Gt))))).

Definition is_e (c : ascii) : bool := bool_decide (c = "e"%char) || bool_decide (c = "E"%char).
Definition is_sign (c : ascii) : bool := bool_decide (c = "+"%char) || bool_decide (c = "-"%char).

(** [('.', digit1)] *)
Definition fraction : parser (list ascii) := fun input =>
  let? (_, input) := chr "." input in digit1 input.

(** [(one_of(['e', 'E']), opt(one_of(['+', '-'])), digit1)] *)
Definition exponent : parser (option ascii * list ascii) := fun input =>
  let? (_, input) := one_of is_e input in
  let? (sign, input) := opt (one_of is_sign) input in
  let? (digits, input) := digit1 input in
  Ok ((sign, digits), input).

Definition float_literal : parser f64 := fun input =>
  let? (neg, input) := opt (chr "-") input in
  let? (int_part, input) := digit1 input in
  let? (frac, input) := opt fraction input in
  let? (exp, input) := opt exponent input in
  Ok (f64_of_decimal (bool_decide (is_Some neg)) int_part (default [] frac)
        (match exp with Some (sign, digits) => exponent_value sign digits | None => 0 end), input).

Definition assertion : parser Assertion := fun input =>
  let? (field, input) := preceded space0 field_name input in
  let? (op, input) := preceded space0 cmp_op input in
  let? (value, input) := preceded space0 float_literal input in
  Ok (mkAssertion field op value, input).

(** [Assertion::parse], the error message as [None] *)
Definition Assertion_parse (input : string) : option Assertion := parse assertion (chars input).

End Parser.

(** ** The language *)

Record Literal := mkLiteral {
  li_neg : bool;
  li_int : list ascii;
  li_frac : option (list ascii);
  li_exp : option (ascii * option ascii * list ascii)
}.

Definition digits_ok (ds : list ascii) : Prop := ds <> [] /\ Forall (fun c => is_ascii_digit c = true) ds.

Definition literal_ok (l : Literal) : Prop :=
  digits_ok (li_int l) /\ match li_frac l with Some ds => digits_ok ds | None => True end /\
  match li_exp l with
  | Some (e, sign, ds) => is_e e = true /\ (forall c, sign = Some c -> is_sign c = true) /\ digits_ok ds
  | None => True
  end.

Definition sign_text (sign : option ascii) : list ascii := match sign with Some c => [c] | None => [] end.

Definition literal_text (l : Literal) : list ascii :=
  (if li_neg l then ["-"%char] else []) ++ li_int l ++
  match li_frac l with Some ds => "."%char :: ds | None => [] end ++
  match li_exp l with Some (e, sign, ds) => e :: sign_text sign ++ ds | None => [] end.

Definition literal_value (l : Literal) : f64 :=
  f64_of_decimal (li_neg l) (li_int l) (default [] (li_frac l))
    (match li_exp l with Some (_, sign, ds) => exponent_value sign ds | None => 0 end).

Definition op_text (op : CmpOp) : string :=
  match op with CmpOp_Lt => "<" | CmpOp_Gt => ">" | CmpOp_Le => "<=" | CmpOp_Ge => ">=" | CmpOp_Eq => "==" | CmpOp_Ne => "!=" end.

Definition blank (s : list ascii) : Prop := Forall (fun c => is_space c = true) s.

(** ** What the parsers accept *)

Section Spec.
Context {W : Winnow} {WL : WinnowLaws W}.

Lemma digit1_ok cs ds r : digit1 cs = Ok (ds, r) <-> cs = ds ++ r /\ digits_ok ds /\ stops is_ascii_digit r.
Proof.
  rewrite digit1_law. destruct (span is_ascii_digit cs) as [a b] eqn:E. split.
  - intros H. destruct a as [|c a]; [done|]. injection H as <- <-. apply span_run in E as (-> & Ha & Hb). by split_and!.
  - intros (-> & [Hne Hd] & Hr). rewrite span_stop in E by done. injection E as <- <-. by destruct ds.
Qed.

Lemma digit1_err cs : digit1 cs = Err Backtrack \/ exists ds r, digit1 cs = Ok (ds, r).
Proof. rewrite digit1_law. destruct (span is_ascii_digit cs) as [[|c a] b]; [by left|right; by eexists _, _]. Qed.

Lemma field_name_law cs :
  field_name cs = match cs with
                  | c :: _ => if is_ascii_alphabetic c
                              then let '(a, b) := span word_char cs in
                                   match field_of_name (text a) with Some f => Ok (f, b) | None => Err Cut end
                              else Err Backtrack
                  | [] => Err Backtrack
                  end.
Proof.
  unfold field_name. rewrite alpha1_law. destruct cs as [|c cs]; [done|].
  rewrite (span_sub is_ascii_alphabetic word_char) by (intros x H; unfold word_char, is_ascii_alphanumeric; by rewrite H).
  cbn [span]. destruct (is_ascii_alphabetic c); [|done]. destruct (span is_ascii_alphabetic cs) as [a b].
  rewrite repeat0_one_of. by destruct (span word_char b).
Qed.

Lemma field_of_name_word name f : field_of_name name = Some f ->
  exists c cs, chars name = c :: cs /\ is_ascii_alphabetic c = true /\ Forall (fun c => word_char c = true) (chars name).
Proof.
  unfold field_of_name. repeat case_bool_decide; subst; try done; intros _; eexists _, _; (split; [reflexivity|]); (split; [reflexivity|]); repeat constructor.
Qed.

Lemma field_name_ok cs f r :
  field_name cs = Ok (f, r) <-> exists name, cs = chars name ++ r /\ field_of_name name = Some f /\ stops word_char r.
Proof.
  rewrite field_name_law. split.
  - destruct cs as [|c cs]; [done|]. destruct (is_ascii_alphabetic c); [|done]. destruct (span word_char (c :: cs)) as [a b] eqn:E.
    destruct (field_of_name (text a)) as [f'|] eqn:Ef; [|done]. intros [= <- <-]. apply span_run in E as (E & _ & Hb).
    exists (text a). by rewrite chars_text.
  - intros (name & -> & Hf & Hr). destruct (field_of_name_word name f Hf) as (c & cs & Hc & Ha & Hw).
    rewrite span_stop by done. rewrite text_chars, Hf, Hc. cbn [app]. by rewrite Ha.
Qed.

Lemma tag_ok s cs r u : tag s cs = Ok (u, r) <-> cs = s ++ r.
Proof.
  revert cs. induction s as [|c s IH]; intros cs; cbn [tag]; [destruct u; naive_solver|]. rewrite chr_law.
  destruct cs as [|c' cs]; [naive_solver|]. case_decide as E; [subst; rewrite IH; naive_solver|naive_solver].
Qed.

Lemma tag_err s cs e : tag s cs = Err e -> e = Backtrack.
Proof.
  revert cs. induction s as [|c s IH]; intros cs; cbn [tag]; [done|]. rewrite chr_law. destruct cs as [|c' cs]; [by intros [= <-]|].
  case_decide; [apply IH|by intros [= <-]].
Qed.

Lemma op_parser_law s op cs :
  op_parser s op cs = match strip_prefix (chars s) cs with Some r => Ok (op, r) | None => Err Backtrack end.
Proof.
  unfold op_parser. rewrite pmap_law. destruct (tag (chars s) cs) as [[u r]|e] eqn:E.
  - apply tag_ok in E. by rewrite (proj2 (strip_prefix_spec _ _ r) E).
  - rewrite (tag_err _ _ _ E). destruct (strip_prefix (chars s) cs) as [r|] eqn:Es; [|done].
    apply strip_prefix_spec in Es. rewrite (proj2 (tag_ok (chars s) cs r tt) Es) in E. done.
Qed.

(** After [<] and [>] no [=] may follow. *)
Definition op_end (op : CmpOp) (r : list ascii) : Prop :=
  match op with CmpOp_Lt | CmpOp_Gt => stops (fun c => bool_decide (c = "="%char)) r | _ => True end.

Lemma cmp_op_ok cs op r : cmp_op cs = Ok (op, r) <-> cs = chars (op_text op) ++ r /\ op_end op r.
Proof.
  unfold cmp_op. repeat (rewrite alt_law, op_parser_law). rewrite op_parser_law. split.
  - repeat (match goal with |- context [strip_prefix ?s cs] => let E := fresh "E" in destruct (strip_prefix s cs) eqn:E end;
      [intros [= <- <-]; match goal with E : strip_prefix _ cs = Some _ |- _ => apply strip_prefix_spec in E; rewrite E end; split; [done|]; try done|]); try done.
    all: match goal with |- op_end _ ?l => destruct l as [|c l']; [done|] end; apply bool_decide_eq_false; intros ->; subst cs; discriminate.
  - intros [-> Hr]. destruct op; try reflexivity.
    all: repeat match goal with |- context [strip_prefix ?s ?x] =>
           let y := fresh "y" in let E := fresh "E" in destruct (strip_prefix s x) as [y|] eqn:E;
           [apply strip_prefix_spec in E; cbn in E; try discriminate E; injection E as E; subst r; try done|try discriminate E]
         end; done.
Qed.

(** An optional part either is there or leaves the input alone. *)
Lemma opt_ok {A} (p : parser A) cs o r :
  opt p cs = Ok (o, r) <-> match o with Some a => p cs = Ok (a, r) | None => p cs = Err Backtrack /\ r = cs end.
Proof. rewrite opt_law. destruct (p cs) as [[a r']|[]]; destruct o; naive_solver. Qed.

Lemma chr_ok c cs u r : chr c cs = Ok (u, r) <-> cs = c :: r.
Proof. rewrite chr_law. destruct cs as [|c' cs]; [naive_solver|]. destruct u. case_decide; naive_solver. Qed.

Lemma one_of_ok f cs c r : one_of f cs = Ok (c, r) <-> cs = c :: r /\ f c = true.
Proof.
  rewrite one_of_law. destruct cs as [|c' cs]; [naive_solver|]. destruct (f c') eqn:E; split.
  - by intros [= <- <-].
  - by intros [[= -> ->] _].
  - done.
  - intros [[= -> ->] H]. congruence.
Qed.

Lemma fraction_ok cs ds r : fraction cs = Ok (ds, r) <-> cs = "."%char :: ds ++ r /\ digits_ok ds /\ stops is_ascii_digit r.
Proof.
  unfold fraction. split.
  - destruct (chr "." cs) as [[u r1]|e] eqn:E; [|done]. apply chr_ok in E as ->. intros (-> & ? & ?)%digit1_ok. done.
  - intros (-> & Hd). rewrite (proj2 (chr_ok "." _ tt _) eq_refl). by apply digit1_ok.
Qed.

Definition exponent_text (sign : option ascii) (ds : list ascii) : list ascii := sign_text sign ++ ds.

Lemma exponent_ok cs sign ds r :
  exponent cs = Ok ((sign, ds), r) <->
  exists e, cs = e :: exponent_text sign ds ++ r /\ is_e e = true /\ (forall c, sign = Some c -> is_sign c = true) /\ digits_ok ds /\ stops is_ascii_digit r.
Proof.
  unfold exponent. split.
  - destruct (one_of is_e cs) as [[e r1]|] eqn:E1; [|done]. apply one_of_ok in E1 as [-> He].
    destruct (opt (one_of is_sign) r1) as [[s r2]|] eqn:E2; [|done]. apply opt_ok in E2.
    destruct (digit1 r2) as [[ds' r3]|] eqn:E3; [|done]. apply digit1_ok in E3 as (-> & Hd & Hr). intros [= -> -> ->].
    exists e. destruct sign as [c|].
    + apply one_of_ok in E2 as [-> Hc]. split_and!; try done. by intros ? [= <-].
    + destruct E2 as [_ <-]. by split_and!.
  - intros (e & -> & He & Hs & Hd & Hr). rewrite (proj2 (one_of_ok is_e _ e _) (conj eq_refl He)).
    assert (Ho : opt (one_of is_sign) (exponent_text sign ds ++ r) = Ok (sign, ds ++ r)).
    { apply opt_ok. destruct sign as [c|]; [apply one_of_ok; split; [done|by apply Hs]|]. split; [|done]. rewrite one_of_law. cbn.
      destruct Hd as [Hne Hd]. destruct ds as [|d ds]; [done|]. apply Forall_cons in Hd as [Hd _]. cbn.
      destruct (is_sign d) eqn:E; [|done]. unfold is_sign in E. apply orb_true_iff in E as [->%bool_decide_eq_true| ->%bool_decide_eq_true]; done. }
    rewrite Ho. rewrite (proj2 (digit1_ok (ds ++ r) ds r)); done.
Qed.

Lemma literal_sound cs v r : float_literal cs = Ok (v, r) -> exists l, literal_ok l /\ cs = literal_text l ++ r /\ v = literal_value l.
Proof.
  unfold float_literal. destruct (opt (chr "-") cs) as [[neg r1]|] eqn:E1; [|done]. apply opt_ok in E1.
  destruct (digit1 r1) as [[ip r2]|] eqn:E2; [|done]. apply digit1_ok in E2 as (-> & Hi & _).
  destruct (opt fraction r2) as [[fr r3]|] eqn:E3; [|done]. apply opt_ok in E3.
  destruct (opt exponent r3) as [[ex r4]|] eqn:E4; [|done]. apply opt_ok in E4. intros [= <- ->].
  assert (Hf : r2 = match fr with Some ds => "."%char :: ds | None => [] end ++ r3 /\ match fr with Some ds => digits_ok ds | None => True end).
  { destruct fr as [ds|]; [|by destruct E3]. apply fraction_ok in E3 as (-> & ? & _). done. }
  assert (He : exists ex', r3 = match ex' with Some (e, sign, ds) => e :: sign_text sign ++ ds | None => [] end ++ r /\
    match ex' with Some (e, sign, ds) => is_e e = true /\ (forall c, sign = Some c -> is_sign c = true) /\ digits_ok ds | None => True end /\
    ex = match ex' with Some (_, sign, ds) => Some (sign, ds) | None => None end).
  { destruct ex as [[sign ds]|]; [|exists None; by destruct E4]. apply exponent_ok in E4 as (e & -> & ? & ? & ? & _). by exists (Some (e, sign, ds)). }
  destruct Hf as [-> Hfr], He as (ex' & -> & Hex & ->). exists (mkLiteral (bool_decide (is_Some neg)) ip fr ex'). split_and!.
  - by split_and!.
  - unfold literal_text. cbn. destruct neg as [u|]; [apply chr_ok in E1 as ->|destruct E1 as [_ <-]]; cbn; by rewrite <- !app_assoc.
  - unfold literal_value. cbn. by destruct ex' as [[[? ?] ?]|].
Qed.

(** The start of what follows the integer part. *)
Definition tail_text (l : Literal) : list ascii :=
  match li_frac l with Some ds => "."%char :: ds | None => [] end ++ match li_exp l with Some (e, sign, ds) => e :: sign_text sign ++ ds | None => [] end.

Lemma is_e_not_digit e : is_e e = true -> is_ascii_digit e = false /\ e <> "."%char.
Proof. unfold is_e. by intros [->%bool_decide_eq_true| ->%bool_decide_eq_true]%orb_true_iff. Qed.

Lemma literal_complete l : literal_ok l -> float_literal (literal_text l) = Ok (literal_value l, []).
Proof.
  destruct l as [neg ip fr ex]. intros (Hi & Hf & He). cbn in Hi, Hf, He. unfold float_literal, literal_text. cbn [li_neg li_int li_frac li_exp].
  set (ext := match ex with Some _ => _ | None => [] end). set (frt := match fr with Some _ => _ | None => [] end).
  assert (Hext : stops is_ascii_digit ext).
  { subst ext. destruct ex as [[[e s] ds]|]; [|done]. by destruct (is_e_not_digit e (proj1 He)). }
  assert (Hneg : opt (chr "-") ((if neg then ["-"%char] else []) ++ ip ++ frt ++ ext) = Ok (if neg then Some tt else None, ip ++ frt ++ ext)).
  { apply opt_ok. destruct neg; [by apply chr_ok|]. split; [|done]. destruct Hi as [Hne Hd]. destruct ip as [|d ip]; [done|].
    apply Forall_cons in Hd as [Hd _]. cbn [app]. rewrite chr_law, decide_False; [done|]. by intros ->. }
  rewrite Hneg. clear Hneg.
  rewrite (proj2 (digit1_ok _ ip (frt ++ ext))); [|split_and!; [done|done|subst frt; by destruct fr]].
  assert (Hfr : opt fraction (frt ++ ext) = Ok (fr, ext)).
  { apply opt_ok. subst frt. destruct fr as [ds|]; [by apply fraction_ok|]. split; [|done]. unfold fraction. rewrite chr_law. cbn [app].
    subst ext. destruct ex as [[[e s] ds]|]; [|done]. by rewrite decide_False by apply (is_e_not_digit e (proj1 He)). }
  rewrite Hfr.
  assert (Hex : opt exponent ext = Ok (match ex with Some (_, s, ds) => Some (s, ds) | None => None end, [])).
  { apply opt_ok. subst ext. destruct ex as [[[e s] ds]|].
    - destruct He as (He1 & He2 & He3). apply exponent_ok. exists e. rewrite app_nil_r. by split_and!.
    - split; [|done]. unfold exponent. by rewrite one_of_law. }
  rewrite Hex. unfold literal_value. cbn. destruct neg, ex as [[[e s] ds]|]; done.
Qed.

Lemma preceded_space {A} (p : parser A) cs a r :
  preceded space0 p cs = Ok (a, r) <-> exists s cs', cs = s ++ cs' /\ blank s /\ stops is_space cs' /\ p cs' = Ok (a, r).
Proof.
  rewrite preceded_law, space0_law. destruct (span is_space cs) as [s cs1] eqn:E. split.
  - intros H. apply span_run in E as (-> & Hs & Hr). by exists s, cs1.
  - intros (s' & cs' & -> & Hs & Hr & Hp). rewrite span_stop in E by done. by injection E as <- <-.
Qed.

Lemma space_apart c : is_space c = true -> word_char c = false /\ bool_decide (c = "="%char) = false.
Proof. by destruct c as [[] [] [] [] [] [] [] []]. Qed.

Lemma stops_blank f s t : (forall c, is_space c = true -> f c = false) -> blank s -> stops f t -> stops f (s ++ t).
Proof. intros Hf Hs Ht. destruct Hs as [|c s Hc Hs]; [exact Ht|]. by apply Hf. Qed.

Lemma literal_start l f :
  literal_ok l -> f "-"%char = false -> (forall c, is_ascii_digit c = true -> f c = false) -> stops f (literal_text l).
Proof.
  intros ([Hne Hd] & _) Hm Hf. unfold literal_text. destruct (li_neg l); [exact Hm|]. destruct (li_int l) as [|d ds]; [done|].
  apply Forall_cons in Hd as [Hd _]. by apply Hf.
Qed.

Lemma digit_apart c : is_ascii_digit c = true -> is_space c = false /\ bool_decide (c = "="%char) = false.
Proof. by destruct c as [[] [] [] [] [] [] [] []]. Qed.

Lemma op_start f op t :
  f "<"%char = false -> f ">"%char = false -> f "="%char = false -> f "!"%char = false -> stops f (chars (op_text op) ++ t).
Proof. by destruct op. Qed.

(** C38: the language of assertions.  A text is accepted exactly when it is, in
    this order and with blanks only before each part, the name of a statistic
    ([l2_norm] may be written [norm]), one of the six operators, and a decimal
    literal with optional sign, fraction and exponent; and the assertion read is
    that statistic, that operator and the number nearest to the literal. *)
Theorem assertion_language (input : string) (a : Assertion) :
  Assertion_parse input = Some a <->
  exists s1 name s2 op s3 l f,
    chars input = s1 ++ chars name ++ s2 ++ chars (op_text op) ++ s3 ++ literal_text l /\
    blank s1 /\ blank s2 /\ blank s3 /\ field_of_name name = Some f /\ literal_ok l /\ a = mkAssertion f op (literal_value l).
Proof.
  unfold Assertion_parse. rewrite parse_law. unfold assertion. split.
  - destruct (preceded space0 field_name (chars input)) as [[f r1]|] eqn:E1; [|done].
    destruct (preceded space0 cmp_op r1) as [[op r2]|] eqn:E2; [|done].
    destruct (preceded space0 float_literal r2) as [[v r3]|] eqn:E3; [|done]. destruct r3 as [|]; [|done]. intros [= <-].
    apply preceded_space in E1 as (s1 & c1 & E1 & H1 & _ & (name & -> & Hf & _)%field_name_ok).
    apply preceded_space in E2 as (s2 & c2 & -> & H2 & _ & [-> _]%cmp_op_ok).
    apply preceded_space in E3 as (s3 & c3 & -> & H3 & _ & (l & Hl & -> & ->)%literal_sound).
    exists s1, name, s2, op, s3, l, f. rewrite app_nil_r in E1. by split_and!.
  - intros (s1 & name & s2 & op & s3 & l & f & -> & H1 & H2 & H3 & Hf & Hl & ->).
    destruct (field_of_name_word name f Hf) as (c & cs & Hc & Ha & Hw).
    rewrite (proj2 (preceded_space field_name _ f (s2 ++ chars (op_text op) ++ s3 ++ literal_text l))).
    + rewrite (proj2 (preceded_space cmp_op _ op (s3 ++ literal_text l))).
      * rewrite (proj2 (preceded_space float_literal _ (literal_value l) [])); [done|].
        exists s3, (literal_text l). split_and!; [done|done| |by apply literal_complete]. apply literal_start; [done|done|apply digit_apart].
      * exists s2, (chars (op_text op) ++ s3 ++ literal_text l). split_and!; [done|done|by apply op_start|]. apply cmp_op_ok. split; [done|].
        assert (Hs : stops (fun c => bool_decide (c = "="%char)) (s3 ++ literal_text l)); [|by destruct op].
        apply stops_blank; [apply space_apart|done|]. apply literal_start; [done|done|apply digit_apart].
    + exists s1, (chars name ++ s2 ++ chars (op_text op) ++ s3 ++ literal_text l). split_and!; [done|done| |].
      * rewrite Hc. cbn. destruct (is_space c) eqn:E; [|done]. apply space_apart in E as [E _]. rewrite Hc in Hw. apply Forall_cons in Hw as [Hw _]. congruence.
      * apply field_name_ok. exists name. split_and!; [done|done|]. apply stops_blank; [apply space_apart|done|by apply op_start].
Qed.

End Spec.

(** ** What an assertion means *)

(** Operators come in opposite pairs.  For a statistic that is a number,
    exactly one of [<] and [>=] holds, exactly one of [>] and [<=], and, unless
    both sides are the same infinity, exactly one of [==] and [!=]; a statistic
    that is not a number satisfies no assertion, not even [!=]. *)
Theorem evaluate_opposites (f : StatsField) (value : f64) (stats : TensorStats) (Hv : is_nan value = false) :
  let holds op := evaluate (mkAssertion f op value) stats in
  if is_nan (extract f stats) then forall op, holds op = false
  else
    holds CmpOp_Ge = negb (holds CmpOp_Lt) /\ holds CmpOp_Le = negb (holds CmpOp_Gt) /\
    (holds CmpOp_Lt = true -> holds CmpOp_Gt = false) /\
    if is_nan (f64_sub (extract f stats) value) then holds CmpOp_Eq = false /\ holds CmpOp_Ne = false
    else holds CmpOp_Ne = negb (holds CmpOp_Eq).
Proof.
  cbv zeta. unfold evaluate. cbn [as_field as_op as_value]. generalize (extract f stats) as x. intros x. destruct (is_nan x) eqn:Ex.
  - destruct x; try done. intros op. by destruct op, value as [[]|[]| |[]].
  - cbn [compare]. rewrite !leb_not_ltb by done. split_and!; [done|done|apply ltb_asym|].
    destruct (is_nan (f64_sub x value)) eqn:En; [by destruct (f64_sub x value)|].
    by rewrite leb_not_ltb by (try done; by destruct (f64_sub x value)).
Qed.

Lemma evaluate_opposites_witness :
  let stats := mkTensorStats f64_one f64_zero f64_zero S754_nan f64_one f64_zero f64_one (mkHistogram 64 [] []) in
  evaluate (mkAssertion StatsField_Mean CmpOp_Ge f64_zero) stats = true /\ evaluate (mkAssertion StatsField_Max CmpOp_Ne f64_zero) stats = false.
Proof.
  pose (stats := mkTensorStats f64_one f64_zero f64_zero S754_nan f64_one f64_zero f64_one (mkHistogram 64 [] [])).
  pose proof (evaluate_opposites StatsField_Mean f64_zero stats eq_refl) as (H & _).
  pose proof (evaluate_opposites StatsField_Max f64_zero stats eq_refl CmpOp_Ne) as H2.
  split; [exact H|exact H2].
Defined.

Lemma assertion_language_witness : @Assertion_parse winnow_ref " l2_norm<= -1.5e2" = Some (mkAssertion StatsField_L2Norm CmpOp_Le (S754_finite true 5277655813324800 (-45))).
Proof.
  apply (proj2 (@assertion_language winnow_ref winnow_ref_laws " l2_norm<= -1.5e2" _)).
  exists (chars " "), "l2_norm"%string, [], CmpOp_Le, (chars " "), (mkLiteral true (chars "1") (Some (chars "5")) (Some ("e"%char, None, chars "2"))), StatsField_L2Norm.
  split_and!; [vm_compute; reflexivity|repeat constructor|constructor|repeat constructor|reflexivity| |vm_compute; reflexivity].
  assert (D : forall ds, forallb is_ascii_digit ds = true -> ds <> [] -> digits_ok ds).
  { intros ds H Hne. split; [done|]. apply Forall_forall. intros c Hc%list_elem_of_In. by apply (proj1 (forallb_forall _ _) H). }
  split; [by apply D|]. split; [by apply D|]. split; [done|]. split; [done|by apply D].
Defined.
