(* ===== verification/Messages.v ===== *)
(** * Messages: the requests, responses and events of the protocol

    [crates/rocket-surgeon-protocol/src/messages.rs]: the method and event
    names, and the types of every message some crate constructs or decodes. *)

From Stdlib Require Import ZArith String.
From stdpp Require Import base list strings.
From S2P Require Import Prelude Protocol.
Open Scope Z_scope.

Module method.
Definition INITIALIZE : string := "initialize".
Definition ATTACH : string := "attach".
Definition DETACH : string := "detach".
Definition STEP : string := "rocket/step".
Definition INSPECT : string := "rocket/inspect".
Definition INTERVENE : string := "rocket/intervene".
Definition PROBE : string := "rocket/probe".
Definition CHECKPOINT : string := "rocket/checkpoint".
Definition REPLAY : string := "rocket/replay".
Definition STATUS : string := "rocket/status".
Definition SUBSCRIBE : string := "rocket/subscribe".
Definition UNSUBSCRIBE : string := "rocket/unsubscribe".
Definition VIEW : string := "rocket/view".
Definition KV_READ : string := "rocket/kv.read".
Definition KV_INTERVENE : string := "rocket/kv.intervene".
Definition BRANCH_FORK : string := "rocket/branch.fork".
Definition BRANCH_DROP : string := "rocket/branch.drop".
Definition BRANCH_COMPARE : string := "rocket/branch.compare".
Definition DISCOVER : string := "rocket/discover".
Definition SWEEP : string := "rocket/sweep".
Definition VIEW_FOCUS : string := "rocket/view.focus".
Definition VIEW_DEFINE : string := "rocket/view.define".
Definition SESSION_EXPORT : string := "rocket/session.export".
End method.

Module event.
Definition TICK_STOPPED : string := "tick.stopped".
Definition TICK_HEARTBEAT : string := "tick.heartbeat".
Definition PROBE_FIRED : string := "probe.fired".
Definition REPLAY_DIVERGENCE : string := "replay.divergence".
Definition ERROR : string := "error".
Definition KV_UPDATE : string := "kv.update".
Definition KV_EVICTED : string := "kv.evicted".
Definition BRANCH_CREATED : string := "branch.created".
Definition BRANCH_TIER_CHANGED : string := "branch.tier_changed".
Definition SPEC_STEP : string := "spec.step".
Definition SWEEP_TRIAL_COMPLETE : string := "sweep.trial_complete".
End event.

Module internal.
Definition HOST_ATTACH : string := "_host/attach".
Definition HOST_DETACH : string := "_host/detach".
Definition HOST_CONFIGURE_HOOKS : string := "_host/configure_hooks".
Definition HOST_STEP : string := "_host/step".
Definition HOST_UPDATE_PROBES : string := "_host/update_probes".
Definition HOST_INSPECT : string := "_host/inspect".
Definition HOST_VIEW : string := "_host/view".
Definition HOST_CHECKPOINT : string := "_host/checkpoint".
Definition HOST_REPLAY : string := "_host/replay".
Definition HOST_KV_READ : string := "_host/kv.read".
Definition HOST_KV_INTERVENE : string := "_host/kv.intervene".
Definition HOST_EXPORT_ENV : string := "_host/export_env".
End internal.

Record InitializeResponse := mkInitializeResponse {
  InitializeResponse_capabilities : Capabilities
}.

Record AttachResponse := mkAttachResponse {
  AttachResponse_model_id : string;
  AttachResponse_model_family : string;
  AttachResponse_num_layers : Z;
  AttachResponse_num_heads : Z;
  AttachResponse_hidden_dim : Z;
  AttachResponse_num_ranks : Z;
  AttachResponse_capabilities : Capabilities;
  AttachResponse_component_vocabulary : list ComponentEntry;
  AttachResponse_module_tree : list string;
  AttachResponse_alias_table : list AliasEntry;
  AttachResponse_tick_map : list TickMapEntry
}.

Record DetachResponse := mkDetachResponse {
  DetachResponse_detached_model_id : string
}.

Record StepRequest := mkStepRequest {
  StepRequest_direction : StepDirection;
  StepRequest_count : Z;
  StepRequest_granularity : option TickGranularity;
  StepRequest_envelope : EnvelopeMode;
  StepRequest_run_to : option string;
  StepRequest_tokens : option (list Z)
}.

Record StepResponse := mkStepResponse {
  StepResponse_ticks_executed : Z;
  StepResponse_stopped_at : TickPosition;
  StepResponse_fired_interventions : list string
}.

Inductive InspectDetail :=
  | InspectDetail_Summary
  | InspectDetail_Slice
  | InspectDetail_Full.
#[export] Instance InspectDetail_eq : EqDecision InspectDetail.
Proof. solve_decision. Defined.

Record InspectRequest := mkInspectRequest {
  InspectRequest_target : string;
  InspectRequest_detail : InspectDetail;
  InspectRequest_slices : option (list (Z * Z));
  InspectRequest_format : option DType;
  InspectRequest_view : option BuiltInView;
  InspectRequest_envelope : EnvelopeMode
}.

Inductive InterveneRequest :=
  | InterveneRequest_Set (recipe : InterventionRecipe)
  | InterveneRequest_Clear (intervention_id : string)
  | InterveneRequest_List.

Record InterveneResponse := mkInterveneResponse {
  InterveneResponse_active_interventions : list InterventionRecipe;
  InterveneResponse_applied : option bool
}.

Inductive ProbeRequest :=
  | ProbeRequest_Define (probe : ProbeDefinition)
  | ProbeRequest_List
  | ProbeRequest_Enable (probe_id : string)
  | ProbeRequest_Disable (probe_id : string)
  | ProbeRequest_Remove (probe_id : string)
  | ProbeRequest_SetGranularity (scopes : list GranularityScope).

Record ProbeResponse := mkProbeResponse {
  ProbeResponse_probes : list ProbeDefinition;
  ProbeResponse_probe_id : option string
}.

Inductive CreateCheckpointTier :=
  | CreateCheckpointTier_Activation
  | CreateCheckpointTier_FullSnapshot.
#[export] Instance CreateCheckpointTier_eq : EqDecision CreateCheckpointTier.
Proof. solve_decision. Defined.

Inductive CheckpointRequest :=
  | CheckpointRequest_Create (tier : option CreateCheckpointTier)
  | CheckpointRequest_Restore (checkpoint_id : string)
  | CheckpointRequest_List
  | CheckpointRequest_Delete (checkpoint_id : string)
  | CheckpointRequest_Bookmark (tick_id : Z) (name : string).

Record CheckpointResponse := mkCheckpointResponse {
  CheckpointResponse_checkpoints : list CheckpointRef;
  CheckpointResponse_checkpoint_id : option string;
  CheckpointResponse_restored_to : option TickPosition
}.

Record ReplayStopAt := mkReplayStopAt {
  rsa_layer : Z;
  rsa_component : string
}.

Record ReplayRequest := mkReplayRequest {
  ReplayRequest_from_checkpoint : string;
  ReplayRequest_interventions : option (list InterventionRecipe);
  ReplayRequest_stop_at : option ReplayStopAt;
  ReplayRequest_verify : bool;
  ReplayRequest_envelope : EnvelopeMode;
  ReplayRequest_deterministic : option bool;
  ReplayRequest_cosine_threshold : option f64;
  ReplayRequest_mre_threshold : option f64
}.

Record Divergence := mkDivergence {
  dv_tick_id : Z;
  dv_original_tick_id : Z;
  dv_probe_point : string;
  dv_cosine_similarity : f64;
  dv_max_relative_error : f64;
  dv_message : string
}.

Record ReplayResponse := mkReplayResponse {
  ReplayResponse_ticks_replayed : Z;
  ReplayResponse_stopped_at : TickPosition;
  ReplayResponse_divergences : list Divergence;
  ReplayResponse_verified : bool
}.

Record MemoryUsage := mkMemoryUsage {
  MemoryUsage_gpu_mb : f64;
  MemoryUsage_cpu_mb : f64
}.

Record StatusResponse := mkStatusResponse {
  StatusResponse_uptime_seconds : f64;
  StatusResponse_connected_clients : Z;
  StatusResponse_memory_usage : MemoryUsage;
  StatusResponse_pending_interventions : Z;
  StatusResponse_trace_events_recorded : Z
}.

Inductive EventType :=
  | EventType_TickStopped
  | EventType_TickHeartbeat
  | EventType_ProbeFired
  | EventType_ReplayDivergence
  | EventType_Error.
#[export] Instance EventType_eq : EqDecision EventType.
Proof. solve_decision. Defined.

Record SubscribeFilter := mkSubscribeFilter {
  sf_events : option (list EventType);
  sf_layers : option (list Z);
  sf_components : option (list string)
}.

Record SubscribeRequest := mkSubscribeRequest {
  SubscribeRequest_filter : option SubscribeFilter
}.

Record SubscribeResponse := mkSubscribeResponse {
  SubscribeResponse_available_events : list EventType;
  SubscribeResponse_status : Status
}.

Record UnsubscribeRequest := mkUnsubscribeRequest { }.

Record UnsubscribeResponse := mkUnsubscribeResponse {
  UnsubscribeResponse_status : Status
}.

Inductive KvSlot :=
  | KvSlot_K
  | KvSlot_V
  | KvSlot_Both.
#[export] Instance KvSlot_eq : EqDecision KvSlot.
Proof. solve_decision. Defined.

Inductive KvMetric :=
  | KvMetric_L2Norm
  | KvMetric_Mean
  | KvMetric_AbsMax.
#[export] Instance KvMetric_eq : EqDecision KvMetric.
Proof. solve_decision. Defined.

Record KvReadRequest := mkKvReadRequest {
  KvReadRequest_layers : option (list Z);
  KvReadRequest_positions : option (list Z);
  KvReadRequest_heads : option (list Z);
  KvReadRequest_slot : KvSlot;
  KvReadRequest_metric : KvMetric
}.

Inductive KvOverlay :=
  | KvOverlay_Sink
  | KvOverlay_HeavyHitter
  | KvOverlay_Evicted
  | KvOverlay_Quantized
  | KvOverlay_PageBoundary
  | KvOverlay_SharedPrefix.
#[export] Instance KvOverlay_eq : EqDecision KvOverlay.
Proof. solve_decision. Defined.

Record KvCacheEntry := mkKvCacheEntry {
  kce_layer : Z;
  kce_position : Z;
  kce_head : Z;
  kce_k_metric : option f64;
  kce_v_metric : option f64;
  kce_overlay : option KvOverlay
}.

Record KvReadResponse := mkKvReadResponse {
  KvReadResponse_entries : list KvCacheEntry
}.

Inductive KvInterveneOp :=
  | KvInterveneOp_Zero
  | KvInterveneOp_Scale (factor : f64)
  | KvInterveneOp_Evict
  | KvInterveneOp_Pin.

Record KvInterveneRequest := mkKvInterveneRequest {
  KvInterveneRequest_layers : list Z;
  KvInterveneRequest_positions : list Z;
  KvInterveneRequest_heads : option (list Z);
  KvInterveneRequest_slot : KvSlot;
  KvInterveneRequest_operation : KvInterveneOp
}.

Record KvInterveneResponse := mkKvInterveneResponse {
  KvInterveneResponse_slots_modified : Z;
  KvInterveneResponse_applied_op : string
}.

Record DiscoverRequest := mkDiscoverRequest {
  DiscoverRequest_pattern : string
}.

Record DiscoverMatch := mkDiscoverMatch {
  dm_canonical : string;
  dm_tensor_shape : list Z;
  dm_aliases : list string
}.

Record DiscoverResponse := mkDiscoverResponse {
  DiscoverResponse_matches : list DiscoverMatch;
  DiscoverResponse_suggestions : list string
}.

Record ViewDefineResponse := mkViewDefineResponse {
  ViewDefineResponse_name : string;
  ViewDefineResponse_registered : bool
}.

Record TickStoppedEvent := mkTickStoppedEvent {
  tse_position : TickPosition;
  tse_state : Status
}.

Inductive RankActivity :=
  | RankActivity_Idle
  | RankActivity_Stopped
  | RankActivity_Waiting
  | RankActivity_Processing.

Record RankStatus := mkRankStatus {
  rs_rank : Z;
  rs_status : RankActivity;
  rs_gpu_memory_used_mb : f64;
  rs_gpu_memory_total_mb : f64
}.

Record TickHeartbeatEvent := mkTickHeartbeatEvent {
  the_position : TickPosition;
  the_uptime_seconds : f64;
  the_elapsed_stopped_sec : f64;
  the_per_rank_status : list RankStatus
}.

Record ProbeFiredEvent := mkProbeFiredEvent {
  pfe_probe_id : string;
  pfe_point : string;
  pfe_tick_id : Z;
  pfe_tensor_summary : option TensorSummary;
  pfe_action : ProbeAction;
  pfe_timestamp : string;
  pfe_rank : Z
}.

Record HostAttachResponse := mkHostAttachResponse {
  HostAttachResponse_model_handle : Z;
  HostAttachResponse_num_layers : Z;
  HostAttachResponse_num_heads : Z;
  HostAttachResponse_hidden_dim : Z;
  HostAttachResponse_module_tree : list string;
  HostAttachResponse_model_type : string;
  HostAttachResponse_component_vocabulary : list string;
  HostAttachResponse_shm_name : option string;
  HostAttachResponse_worker_pid : option Z
}.

Record HostDetachRequest := mkHostDetachRequest {
  HostDetachRequest_model_handle : Z
}.

Record HostDetachResponse := mkHostDetachResponse {
  HostDetachResponse_released : bool
}.

Record HostConfigureHooksRequest := mkHostConfigureHooksRequest {
  HostConfigureHooksRequest_model_handle : Z;
  HostConfigureHooksRequest_active_probes : list string
}.

Record HostConfigureHooksResponse := mkHostConfigureHooksResponse {
  HostConfigureHooksResponse_sentinel_count : Z;
  HostConfigureHooksResponse_capture_count : Z
}.

Record HostStepRequest := mkHostStepRequest {
  hsreq_model_handle : Z;
  hsreq_count : Z;
  hsreq_direction : StepDirection;
  hsreq_granularity : option TickGranularity;
  hsreq_max_events : option Z;
  hsreq_interventions : list InterventionRecipe;
  hsreq_input_ids : option (list Z)
}.

Record HostStepResponse := mkHostStepResponse {
  hsrsp_position : TickPosition;
  hsrsp_events : list ProbeFiredEvent;
  hsrsp_forward_complete : bool;
  hsrsp_events_truncated : bool;
  hsrsp_fired_interventions : list string
}.

Record HostUpdateProbesRequest := mkHostUpdateProbesRequest {
  HostUpdateProbesRequest_model_handle : Z;
  HostUpdateProbesRequest_active_probes : list ProbeDefinition
}.

Record HostUpdateProbesResponse := mkHostUpdateProbesResponse {
  HostUpdateProbesResponse_probes_active : Z
}.

Record HostInspectRequest := mkHostInspectRequest {
  HostInspectRequest_model_handle : Z;
  HostInspectRequest_target : string;
  HostInspectRequest_detail : InspectDetail;
  HostInspectRequest_slices : option (list (Z * Z))
}.

Record CapturedTensor := mkCapturedTensor {
  ct_module_path : string;
  ct_canonical : string;
  ct_layer : Z;
  ct_shape : list Z;
  ct_dtype : string;
  ct_device : string;
  ct_tensor_id : string;
  ct_shm_name : option string;
  ct_shm_offset : option Z;
  ct_byte_length : option Z;
  ct_data_base64 : option string
}.

Record HostInspectResponse := mkHostInspectResponse {
  HostInspectResponse_tensors : list CapturedTensor
}.

Inductive HostCheckpointRequest :=
  | HostCheckpointRequest_Create (model_handle : Z) (checkpoint_id : string) (tier : CreateCheckpointTier) (tick_id : Z) (layer_idx : Z)
  | HostCheckpointRequest_Restore (model_handle : Z) (checkpoint_id : string).

Record HostCheckpointResponse := mkHostCheckpointResponse {
  HostCheckpointResponse_checkpoint_id : string;
  HostCheckpointResponse_tier : CheckpointTier;
  HostCheckpointResponse_restored_to : option TickPosition;
  HostCheckpointResponse_bytes_captured : option Z
}.

Record HostReplayRequest := mkHostReplayRequest {
  HostReplayRequest_model_handle : Z;
  HostReplayRequest_checkpoint_id : string;
  HostReplayRequest_stop_at : option ReplayStopAt;
  HostReplayRequest_interventions : list InterventionRecipe;
  HostReplayRequest_verify : bool;
  HostReplayRequest_deterministic : bool;
  HostReplayRequest_cosine_threshold : f64;
  HostReplayRequest_mre_threshold : f64
}.

Record HostReplayResponse := mkHostReplayResponse {
  HostReplayResponse_ticks_replayed : Z;
  HostReplayResponse_stopped_at : TickPosition;
  HostReplayResponse_divergences : list Divergence;
  HostReplayResponse_verified : bool
}.

Record HostKvReadRequest := mkHostKvReadRequest {
  HostKvReadRequest_model_handle : Z;
  HostKvReadRequest_layers : option (list Z);
  HostKvReadRequest_positions : option (list Z);
  HostKvReadRequest_heads : option (list Z);
  HostKvReadRequest_slot : KvSlot;
  HostKvReadRequest_metric : KvMetric
}.

Record KvEvictionInfo := mkKvEvictionInfo {
  KvEvictionInfo_position : Z;
  KvEvictionInfo_evicted_at_tick : Z
}.

Record HostKvReadResponse := mkHostKvReadResponse {
  HostKvReadResponse_entries : list KvCacheEntry;
  HostKvReadResponse_evicted : list KvEvictionInfo
}.

Record HostKvInterveneRequest := mkHostKvInterveneRequest {
  HostKvInterveneRequest_model_handle : Z;
  HostKvInterveneRequest_layers : list Z;
  HostKvInterveneRequest_positions : list Z;
  HostKvInterveneRequest_heads : option (list Z);
  HostKvInterveneRequest_slot : KvSlot;
  HostKvInterveneRequest_operation : KvInterveneOp
}.

Record HostKvInterveneResponse := mkHostKvInterveneResponse {
  HostKvInterveneResponse_slots_modified : Z;
  HostKvInterveneResponse_applied_op : string
}.

Record ExportRequest := mkExportRequest {
  ExportRequest_path : string;
  ExportRequest_include_tensors : bool
}.

Record ExportResponse := mkExportResponse {
  ExportResponse_path : string;
  ExportResponse_size_bytes : Z;
  ExportResponse_artifact_count : Z
}.

Record HostExportEnvRequest := mkHostExportEnvRequest {
  HostExportEnvRequest_model_handle : Z
}.

(** ** Branches, sweeps and view focus: part of the protocol, used by no crate yet *)

Inductive BranchTier :=
  | BranchTier_Live
  | BranchTier_Spilled
  | BranchTier_Dropped.

Record BranchForkRequest := mkBranchForkRequest {
  BranchForkRequest_from_checkpoint : string;
  BranchForkRequest_name : option string
}.

Record BranchForkResponse := mkBranchForkResponse {
  BranchForkResponse_branch_id : string;
  BranchForkResponse_tier : BranchTier
}.

Record BranchDropRequest := mkBranchDropRequest {
  BranchDropRequest_branch_id : string
}.

Record BranchDropResponse := mkBranchDropResponse {
  BranchDropResponse_branch_id : string;
  BranchDropResponse_freed_mb : option f64
}.

Record BranchCompareRequest := mkBranchCompareRequest {
  BranchCompareRequest_branch_a : string;
  BranchCompareRequest_branch_b : string
}.

Record BranchCompareResponse := mkBranchCompareResponse {
  BranchCompareResponse_cosine_similarity : f64;
  BranchCompareResponse_max_relative_error : f64;
  BranchCompareResponse_kl_divergence : f64;
  BranchCompareResponse_per_layer_norm_delta : list f64
}.

Inductive FocusAnchor :=
  | FocusAnchor_Bos
  | FocusAnchor_Eos
  | FocusAnchor_PadBoundary
  | FocusAnchor_Sink
  | FocusAnchor_MaxAttention.

Inductive FocusSelector :=
  | FocusSelector_ById (token_id : Z)
  | FocusSelector_ByPosition (position : Z)
  | FocusSelector_ByRegex (pattern : string)
  | FocusSelector_ByAnchor (anchor : FocusAnchor)
  | FocusSelector_ByRange (range_start range_end : Z).

Record ViewFocusRequest := mkViewFocusRequest {
  ViewFocusRequest_selector : FocusSelector
}.

Record SweepTrial := mkSweepTrial {
  SweepTrial_interventions : list InterventionRecipe;
  SweepTrial_run_to : option string;
  SweepTrial_collect : option (list string)
}.

Record SweepMetric := mkSweepMetric {
  SweepMetric_metric_type : string;
  SweepMetric_tokens : option (list Z);
  SweepMetric_position : option Z
}.

Record SweepRequest := mkSweepRequest {
  SweepRequest_baseline_checkpoint : string;
  SweepRequest_trials : list SweepTrial;
  SweepRequest_metric : option SweepMetric
}.

Record SweepTrialResult := mkSweepTrialResult {
  SweepTrialResult_trial_index : Z;
  SweepTrialResult_stopped_at : TickPosition;
  SweepTrialResult_collected : list TensorSummary;
  SweepTrialResult_metric_value : option f64
}.

Record SweepResponse := mkSweepResponse {
  SweepResponse_results : list SweepTrialResult
}.

Record ReplayDivergenceEvent := mkReplayDivergenceEvent {
  ReplayDivergenceEvent_tick_id : Z;
  ReplayDivergenceEvent_original_tick_id : Z;
  ReplayDivergenceEvent_probe_point : string;
  ReplayDivergenceEvent_cosine_similarity : f64;
  ReplayDivergenceEvent_max_relative_error : f64;
  ReplayDivergenceEvent_message : string
}.

Record KvUpdateEvent := mkKvUpdateEvent {
  KvUpdateEvent_layer : Z;
  KvUpdateEvent_new_positions : list Z;
  KvUpdateEvent_total_positions : Z
}.

Record KvEvictedEvent := mkKvEvictedEvent {
  KvEvictedEvent_layer : Z;
  KvEvictedEvent_evicted_positions : list Z;
  KvEvictedEvent_reason : string
}.

Record BranchCreatedEvent := mkBranchCreatedEvent {
  BranchCreatedEvent_branch_id : string;
  BranchCreatedEvent_from_checkpoint : string;
  BranchCreatedEvent_tier : BranchTier
}.

Record BranchTierChangedEvent := mkBranchTierChangedEvent {
  BranchTierChangedEvent_branch_id : string;
  BranchTierChangedEvent_old_tier : BranchTier;
  BranchTierChangedEvent_new_tier : BranchTier
}.

(** The defaults of [AttachRequest]. *)
Definition default_device : string := "cuda:0".
Definition default_one_u32 : Z := 1.

Record DetachRequest := mkDetachRequest { }.

Record StatusRequest := mkStatusRequest { }.

Section WithValues.
Context {J : JsonValue}.

Record InitializeRequest := mkInitializeRequest {
  InitializeRequest_client_name : string;
  InitializeRequest_protocol_version : string;
  InitializeRequest_client_version : option string;
  InitializeRequest_client_capabilities : option Value
}.

Record AttachRequest := mkAttachRequest {
  AttachRequest_model_path : string;
  AttachRequest_model_family : string;
  AttachRequest_device : string;
  AttachRequest_dtype : option DType;
  AttachRequest_num_ranks : Z;
  AttachRequest_config : option Value
}.

Record InspectResponse := mkInspectResponse {
  InspectResponse_tensors : list TensorSummary;
  InspectResponse_view_result : option Value;
  InspectResponse_slice_data : option string
}.

Record ViewRequest := mkViewRequest {
  ViewRequest_view : BuiltInView;
  ViewRequest_params : option Value;
  ViewRequest_envelope : EnvelopeMode
}.

Record ViewResponse := mkViewResponse {
  ViewResponse_view : BuiltInView;
  ViewResponse_data : Value
}.

Record ViewDefineRequest := mkViewDefineRequest {
  ViewDefineRequest_name : string;
  ViewDefineRequest_spec : Value
}.

Record HostAttachRequest := mkHostAttachRequest {
  HostAttachRequest_model_source : string;
  HostAttachRequest_model_family : string;
  HostAttachRequest_device : string;
  HostAttachRequest_dtype : option DType;
  HostAttachRequest_rank : Z;
  HostAttachRequest_config : option Value
}.

Record HostViewRequest := mkHostViewRequest {
  HostViewRequest_model_handle : Z;
  HostViewRequest_view : BuiltInView;
  HostViewRequest_params : option Value
}.

Record HostViewResponse := mkHostViewResponse {
  HostViewResponse_view : BuiltInView;
  HostViewResponse_data : Value
}.

Record HostExportEnvResponse := mkHostExportEnvResponse {
  HostExportEnvResponse_env : Value;
  HostExportEnvResponse_model_info : Value;
  HostExportEnvResponse_prompt : option Value
}.

Record ViewFocusResponse := mkViewFocusResponse {
  ViewFocusResponse_position : Z;
  ViewFocusResponse_token : Value;
  ViewFocusResponse_per_layer_summaries : list TensorSummary
}.

Record ErrorEvent := mkErrorEvent {
  ErrorEvent_error_code : ErrorCode;
  ErrorEvent_message : string;
  ErrorEvent_details : option Value;
  ErrorEvent_fatal : bool
}.

End WithValues.
