(* ===== verification/Registry.v ===== *)
(** * Registry: the probe registry

    [crates/rocket-surgeon-probes/src/registry.rs].  The registry is a hash map
    from probe ids to stored probes plus a sequence counter.  Rust's [HashMap]
    iterates in an unspecified order, so the listing operations take the
    iteration order as an argument ([values]), and the step relation lets it be
    any permutation of the map.  The specification is a plain list of
    definitions in definition order; the refinement theorem shows that no
    client can tell the two apart, whatever the hash order does. *)

From Stdlib Require Import ZArith Lia String Sorted.
From stdpp Require Import base gmap strings list fin_maps sorting sets.
From S2P Require Import Prelude Winnow Grammar Protocol.
Open Scope Z_scope.

Inductive RegistryError :=
| NotFound (id : string)
| DuplicateId (id : string)
| InvalidPoint.

Record StoredProbe := mkStoredProbe {
  definition : ProbeDefinition;
  parsed_point : ProbePoint;
  seq : Z
}.

Record ProbeRegistry := mkProbeRegistry {
  probes : gmap string StoredProbe;
  next_seq : Z
}.

Definition set_enabled (p : ProbeDefinition) (b : bool) : ProbeDefinition :=
  mkProbeDefinition (pd_id p) (pd_point p) (pd_action p) (pd_config p) b (pd_priority p).

(** [sort_by_key(|s| (s.definition.priority, s.seq))] *)
Definition key_le (a b : StoredProbe) : bool :=
  let pa := pd_priority (definition a) in let pb := pd_priority (definition b) in
  (pa <? pb) || ((pa =? pb) && (seq a <=? seq b)).

Definition new : ProbeRegistry := mkProbeRegistry ∅ 0.

Section Operations.
Context {W : Winnow}.

Definition define (r : ProbeRegistry) (probe : ProbeDefinition) : result RegistryError string * ProbeRegistry :=
  match probes r !! pd_id probe with
  | Some _ => (Err (DuplicateId (pd_id probe)), r)
  | None =>
      match parse_point (pd_point probe) with
      | None => (Err InvalidPoint, r)
      | Some point =>
          let id := pd_id probe in
          (Ok id, mkProbeRegistry (<[id := mkStoredProbe probe point (next_seq r)]> (probes r))
                                  (u64_add (next_seq r) 1))
      end
  end.

End Operations.

Definition get (r : ProbeRegistry) (id : string) : option ProbeDefinition :=
  definition <$> probes r !! id.

Definition set_probe_enabled (b : bool) (r : ProbeRegistry) (id : string)
  : result RegistryError ProbeDefinition * ProbeRegistry :=
  match probes r !! id with
  | None => (Err (NotFound id), r)
  | Some s =>
      let d := set_enabled (definition s) b in
      (Ok d, mkProbeRegistry (<[id := mkStoredProbe d (parsed_point s) (seq s)]> (probes r)) (next_seq r))
  end.
Definition enable := set_probe_enabled true.
Definition disable := set_probe_enabled false.

Definition remove (r : ProbeRegistry) (id : string) : result RegistryError ProbeDefinition * ProbeRegistry :=
  match probes r !! id with
  | None => (Err (NotFound id), r)
  | Some s => (Ok (definition s), mkProbeRegistry (delete id (probes r)) (next_seq r))
  end.

(** The listing operations, given the values in hash-map iteration order. *)
Definition list_ (values : list StoredProbe) : list ProbeDefinition :=
  definition <$> sort_by key_le values.
Definition matching (values : list StoredProbe) (target : ProbePoint) : list ProbeDefinition :=
  definition <$> sort_by key_le (List.filter (fun s => matches (parsed_point s) target) values).
Definition matching_enabled (values : list StoredProbe) (target : ProbePoint) : list ProbeDefinition :=
  definition <$> sort_by key_le
    (List.filter (fun s => pd_enabled (definition s) && matches (parsed_point s) target) values).
Definition active_probe_ids (values : list StoredProbe) : list string :=
  (fun s => pd_id (definition s)) <$> List.filter (fun s => pd_enabled (definition s)) values.
Definition len (r : ProbeRegistry) : nat := size (probes r).
Definition is_empty (r : ProbeRegistry) : bool := Nat.eqb (len r) 0.

(** [values] is an iteration of the map. *)
Definition iterates (r : ProbeRegistry) (values : list StoredProbe) : Prop :=
  values ≡ₚ (map_to_list (probes r)).*2.

(** ** Histories: calls, answers and the step relation *)

Inductive call :=
| CDefine (p : ProbeDefinition)
| CGet (id : string)
| CList
| CEnable (id : string)
| CDisable (id : string)
| CRemove (id : string)
| CMatching (target : ProbePoint)
| CMatchingEnabled (target : ProbePoint)
| CLen.

Inductive answer :=
| AId (r : result RegistryError string)
| ADef (r : result RegistryError ProbeDefinition)
| AOpt (o : option ProbeDefinition)
| ADefs (l : list ProbeDefinition)
| ALen (n : nat).

Section Steps.
Context {W : Winnow}.

Inductive step : ProbeRegistry -> call -> answer -> ProbeRegistry -> Prop :=
| SDefine r p a r' : define r p = (a, r') -> step r (CDefine p) (AId a) r'
| SGet r id : step r (CGet id) (AOpt (get r id)) r
| SList r vs : iterates r vs -> step r CList (ADefs (list_ vs)) r
| SEnable r id a r' : enable r id = (a, r') -> step r (CEnable id) (ADef a) r'
| SDisable r id a r' : disable r id = (a, r') -> step r (CDisable id) (ADef a) r'
| SRemove r id a r' : remove r id = (a, r') -> step r (CRemove id) (ADef a) r'
| SMatching r t vs : iterates r vs -> step r (CMatching t) (ADefs (matching vs t)) r
| SMatchingEnabled r t vs : iterates r vs -> step r (CMatchingEnabled t) (ADefs (matching_enabled vs t)) r
| SLen r : step r CLen (ALen (len r)) r.

Inductive steps : ProbeRegistry -> list call -> list answer -> ProbeRegistry -> Prop :=
| steps_nil r : steps r [] [] r
| steps_cons r c a r1 cs rest r2 :
    step r c a r1 -> steps r1 cs rest r2 -> steps r (c :: cs) (a :: rest) r2.

(** ** Specification: definitions in definition order *)

Definition prio_le (a b : ProbeDefinition) : bool := pd_priority a <=? pd_priority b.

Definition point_matches (target : ProbePoint) (d : ProbeDefinition) : bool :=
  match parse_point (pd_point d) with Some p => matches p target | None => false end.

Definition spec_find (l : list ProbeDefinition) (id : string) : option ProbeDefinition :=
  List.find (fun d => bool_decide (pd_id d = id)) l.

Definition spec_set (b : bool) (l : list ProbeDefinition) (id : string) : list ProbeDefinition :=
  (fun d => if bool_decide (pd_id d = id) then set_enabled d b else d) <$> l.

Definition spec_update (b : bool) (l : list ProbeDefinition) (id : string) : answer * list ProbeDefinition :=
  match spec_find l id with
  | Some d => (ADef (Ok (set_enabled d b)), spec_set b l id)
  | None => (ADef (Err (NotFound id)), l)
  end.

Definition spec (l : list ProbeDefinition) (c : call) : answer * list ProbeDefinition :=
  match c with
  | CDefine p =>
      match spec_find l (pd_id p), parse_point (pd_point p) with
      | Some _, _ => (AId (Err (DuplicateId (pd_id p))), l)
      | None, None => (AId (Err InvalidPoint), l)
      | None, Some _ => (AId (Ok (pd_id p)), l ++ [p])
      end
  | CGet id => (AOpt (spec_find l id), l)
  | CList => (ADefs (sort_by prio_le l), l)
  | CEnable id => spec_update true l id
  | CDisable id => spec_update false l id
  | CRemove id =>
      match spec_find l id with
      | Some d => (ADef (Ok d), List.filter (fun d => negb (bool_decide (pd_id d = id))) l)
      | None => (ADef (Err (NotFound id)), l)
      end
  | CMatching t => (ADefs (sort_by prio_le (List.filter (point_matches t) l)), l)
  | CMatchingEnabled t =>
      (ADefs (sort_by prio_le (List.filter (fun d => pd_enabled d && point_matches t d) l)), l)
  | CLen => (ALen (List.length l), l)
  end.

Fixpoint spec_run (l : list ProbeDefinition) (cs : list call) : list answer * list ProbeDefinition :=
  match cs with
  | [] => ([], l)
  | c :: cs => let (a, l1) := spec l c in let (rest, l2) := spec_run l1 cs in (a :: rest, l2)
  end.

End Steps.

(** ** Lemmas *)

Definition find_stored (ss : list StoredProbe) (id : string) : option StoredProbe :=
  List.find (fun s => bool_decide (pd_id (definition s) = id)) ss.

Definition keyed (ss : list StoredProbe) : list (string * StoredProbe) :=
  (fun s => (pd_id (definition s), s)) <$> ss.

Definition ids (ss : list StoredProbe) : list string := (fun s => pd_id (definition s)) <$> ss.

Definition seq_lt (a b : StoredProbe) : Prop := seq a < seq b.

(** The concrete registry [r] holds exactly the probes [ss], listed in
    definition order, and the client sees the definitions [l]. *)
Record represents {W : Winnow} (r : ProbeRegistry) (ss : list StoredProbe) : Prop := {
  rep_lookup : forall id, probes r !! id = find_stored ss id;
  rep_nodup : NoDup (ids ss);
  rep_sorted : StronglySorted seq_lt ss;
  rep_seqs : Forall (fun s => seq s < next_seq r) ss;
  rep_points : Forall (fun s => parse_point (pd_point (definition s)) = Some (parsed_point s)) ss
}.

Lemma find_stored_id ss id s : find_stored ss id = Some s -> pd_id (definition s) = id /\ s ∈ ss.
Proof.
  intros [H1 H2]%List.find_some. split; [by apply bool_decide_eq_true in H2|by apply list_elem_of_In].
Qed.

Lemma find_stored_None ss id : find_stored ss id = None -> id ∉ ids ss.
Proof.
  intros H Hin. apply list_elem_of_fmap in Hin as (s & -> & Hs%list_elem_of_In).
  apply (List.find_none _ _ H) in Hs. by apply bool_decide_eq_false in Hs.
Qed.

Lemma find_stored_cons s ss id :
  find_stored (s :: ss) id = if decide (pd_id (definition s) = id) then Some s else find_stored ss id.
Proof. unfold find_stored; cbn. by case_bool_decide; case_decide. Qed.

Lemma find_stored_snoc ss s id :
  pd_id (definition s) ∉ ids ss ->
  find_stored (ss ++ [s]) id = if decide (pd_id (definition s) = id) then Some s else find_stored ss id.
Proof.
  induction ss as [|x ss IH]; intros Hn; cbn [app]; rewrite !find_stored_cons; [done|].
  apply not_elem_of_cons in Hn as [Hx Hn]. rewrite IH by done.
  repeat case_decide; congruence.
Qed.

Lemma find_stored_update ss id (f : StoredProbe -> StoredProbe) k :
  (forall s, pd_id (definition (f s)) = pd_id (definition s)) ->
  find_stored ((fun s => if bool_decide (pd_id (definition s) = id) then f s else s) <$> ss) k =
  if decide (k = id) then f <$> find_stored ss k else find_stored ss k.
Proof.
  intros Hf. induction ss as [|x ss IH]; cbn [fmap list_fmap]; [by destruct (decide (k = id))|].
  rewrite !find_stored_cons, IH. case_bool_decide as E; [rewrite Hf|]; repeat case_decide; naive_solver.
Qed.

Lemma find_stored_remove ss id k :
  find_stored (List.filter (fun s => negb (bool_decide (pd_id (definition s) = id))) ss) k =
  if decide (k = id) then None else find_stored ss k.
Proof.
  induction ss as [|x ss IH]; cbn [List.filter]; [by destruct (decide (k = id))|].
  case_bool_decide as E; cbn [negb]; rewrite !find_stored_cons, IH; repeat case_decide; congruence.
Qed.

Lemma spec_find_stored ss id : spec_find (definition <$> ss) id = definition <$> find_stored ss id.
Proof.
  induction ss as [|x ss IH]; [done|]. rewrite find_stored_cons.
  cbn. fold (spec_find (definition <$> ss) id). rewrite IH. by case_bool_decide; case_decide.
Qed.

Lemma filter_definition (f : ProbeDefinition -> bool) ss :
  List.filter f (definition <$> ss) = definition <$> List.filter (fun s => f (definition s)) ss.
Proof.
  induction ss as [|s ss IH]; [done|]. cbn. rewrite IH. by destruct (f (definition s)).
Qed.

Lemma filter_ext_Forall {A} (f g : A -> bool) l :
  Forall (fun x => f x = g x) l -> List.filter f l = List.filter g l.
Proof. induction 1 as [|x l H _ IH]; [done|]. cbn. by rewrite H, IH. Qed.

Lemma Forall_filter {A} (P : A -> Prop) (f : A -> bool) l : Forall P l -> Forall P (List.filter f l).
Proof. induction 1 as [|x l H _ IH]; [done|]. cbn. destruct (f x); auto. Qed.

Lemma StronglySorted_filter {A} (R : relation A) (f : A -> bool) l :
  StronglySorted R l -> StronglySorted R (List.filter f l).
Proof.
  induction 1 as [|x l _ IH Hx]; [constructor|]. cbn.
  destruct (f x); [constructor; [done|by apply Forall_filter]|done].
Qed.

Lemma filter_perm {A} (f : A -> bool) l k : l ≡ₚ k -> List.filter f l ≡ₚ List.filter f k.
Proof.
  induction 1 as [|x l k _ IH|x y l|l k m _ IH1 _ IH2]; cbn; [done| | |by etrans].
  - destruct (f x); [by constructor|done].
  - destruct (f x), (f y); try reflexivity. apply Permutation_swap.
Qed.

(** *** Sorting *)

Definition key_rel (a b : StoredProbe) : Prop := key_le a b = true.

Lemma key_rel_trans : Transitive key_rel.
Proof. intros a b c. unfold key_rel, key_le. lia. Qed.

Lemma key_rel_total a b : if key_le a b then key_rel a b else key_rel b a.
Proof. unfold key_rel. destruct (key_le a b) eqn:E; [done|]. unfold key_le in *. lia. Qed.

Lemma seq_sorted_inj ss a b :
  StronglySorted seq_lt ss -> a ∈ ss -> b ∈ ss -> seq a = seq b -> a = b.
Proof.
  induction 1 as [|x l _ IH Hx]; [by intros ?%elem_of_nil|].
  rewrite Forall_forall in Hx. unfold seq_lt in Hx.
  intros [->|Ha]%elem_of_cons [->|Hb]%elem_of_cons Hs; [done| | |auto].
  - specialize (Hx b Hb). lia.
  - specialize (Hx a Ha). lia.
Qed.

(** Hash order is invisible: sorting any iteration gives the same list. *)
Lemma sort_iteration vs ss :
  StronglySorted seq_lt ss -> vs ≡ₚ ss -> sort_by key_le vs = sort_by key_le ss.
Proof.
  intros Hs Hp. apply (StronglySorted_unique_strong key_rel).
  - intros a b Ha Hb Hab Hba.
    rewrite sort_by_perm, Hp in Ha. rewrite sort_by_perm in Hb.
    apply (seq_sorted_inj ss); [done..|]. unfold key_rel, key_le in *. lia.
  - apply sort_by_sorted; [apply key_rel_trans|apply key_rel_total].
  - apply sort_by_sorted; [apply key_rel_trans|apply key_rel_total].
  - by rewrite !sort_by_perm.
Qed.

Lemma insert_definition x ss :
  Forall (seq_lt x) ss ->
  definition <$> insert_by key_le x ss = insert_by prio_le (definition x) (definition <$> ss).
Proof.
  induction 1 as [|y l Hxy _ IH]; [done|]. cbn [insert_by fmap list_fmap].
  replace (prio_le (definition x) (definition y)) with (key_le x y).
  - destruct (key_le x y); cbn; [done|]. by f_equal.
  - unfold seq_lt, key_le, prio_le in *. lia.
Qed.

(** On a list in definition order the sequence numbers only break ties the
    way a stable sort by priority does. *)
Lemma sort_definitions ss :
  StronglySorted seq_lt ss -> definition <$> sort_by key_le ss = sort_by prio_le (definition <$> ss).
Proof.
  induction 1 as [|x l _ IH Hx]; [done|]. cbn [sort_by foldr fmap list_fmap].
  fold (sort_by key_le l) (sort_by prio_le (definition <$> l)).
  rewrite <- IH. apply insert_definition. by rewrite sort_by_perm.
Qed.

Section Refinement.
Context {W : Winnow}.
Implicit Types r : ProbeRegistry.

Lemma represents_iterates r ss vs : represents r ss -> iterates r vs -> vs ≡ₚ ss.
Proof.
  intros [Hl Hn _ _ _] ->.
  assert (probes r = list_to_map (keyed ss)) as ->.
  { apply map_eq. intros id. rewrite Hl. clear. induction ss as [|s ss IH]; [symmetry; apply lookup_empty|].
    rewrite find_stored_cons. cbn. case_decide; [subst; by rewrite lookup_insert_eq|].
    by rewrite lookup_insert_ne. }
  rewrite map_to_list_to_map.
  - unfold keyed. rewrite <- list_fmap_compose. cbn. by rewrite list_fmap_id.
  - unfold keyed. rewrite <- list_fmap_compose. exact Hn.
Qed.

Lemma represents_listing r ss vs (f : StoredProbe -> bool) (g : ProbeDefinition -> bool) :
  represents r ss -> iterates r vs ->
  Forall (fun s => f s = g (definition s)) ss ->
  definition <$> sort_by key_le (List.filter f vs) = sort_by prio_le (List.filter g (definition <$> ss)).
Proof.
  intros HR Hv Hfg. pose proof (represents_iterates _ _ _ HR Hv) as Hp.
  rewrite (sort_iteration _ (List.filter f ss)).
  - rewrite sort_definitions by apply StronglySorted_filter, HR.
    rewrite filter_definition. by rewrite (filter_ext_Forall _ _ _ Hfg).
  - apply StronglySorted_filter, HR.
  - by apply filter_perm.
Qed.

Lemma represents_matches r ss t :
  represents r ss -> Forall (fun s => matches (parsed_point s) t = point_matches t (definition s)) ss.
Proof.
  intros HR. eapply Forall_impl; [apply (rep_points _ _ HR)|].
  intros s Hs. cbn in Hs. unfold point_matches. by rewrite Hs.
Qed.

Lemma represents_new : represents new [].
Proof.
  split; try constructor.
Qed.

Lemma represents_len r ss : represents r ss -> len r = List.length ss.
Proof.
  intros HR. unfold len. rewrite <- length_map_to_list.
  pose proof (represents_iterates r ss _ HR ltac:(unfold iterates; reflexivity)) as Hp.
  apply Permutation_length in Hp. by rewrite length_fmap in Hp.
Qed.

Lemma represents_define r ss p pt :
  represents r ss -> 0 <= next_seq r < U64_MAX ->
  find_stored ss (pd_id p) = None -> parse_point (pd_point p) = Some pt ->
  represents (mkProbeRegistry (<[pd_id p := mkStoredProbe p pt (next_seq r)]> (probes r))
                              (u64_add (next_seq r) 1))
             (ss ++ [mkStoredProbe p pt (next_seq r)]).
Proof.
  intros [Hl Hn Hs Hq Hp] Hb Hf Hpt. apply find_stored_None in Hf as Hnin.
  split; cbn [probes next_seq].
  - intros id. rewrite find_stored_snoc by done. cbn. case_decide as E.
    + subst id. apply lookup_insert_eq.
    + by rewrite lookup_insert_ne.
  - unfold ids. rewrite fmap_app. apply NoDup_app. split_and!; [done| |apply NoDup_singleton].
    intros x Hx ->%list_elem_of_singleton. done.
  - clear -Hs Hq. induction Hs as [|x l _ IH Hx]; cbn; [repeat constructor|].
    apply Forall_cons in Hq as [Hq0 Hq]. constructor; [auto|].
    apply Forall_app_2; [done|]. by repeat constructor.
  - rewrite u64_add_small by (unfold_int; lia). apply Forall_app_2; [|repeat constructor; cbn; lia].
    eapply Forall_impl; [exact Hq|]. cbn. lia.
  - apply Forall_app_2; [done|by repeat constructor].
Qed.

Lemma represents_set b r ss id s :
  represents r ss -> find_stored ss id = Some s ->
  represents (mkProbeRegistry
                (<[id := mkStoredProbe (set_enabled (definition s) b) (parsed_point s) (seq s)]> (probes r))
                (next_seq r))
    ((fun s => if bool_decide (pd_id (definition s) = id)
               then mkStoredProbe (set_enabled (definition s) b) (parsed_point s) (seq s) else s) <$> ss).
Proof.
  set (f := fun s : StoredProbe => mkStoredProbe (set_enabled (definition s) b) (parsed_point s) (seq s)).
  intros [Hl Hn Hs Hq Hp] Hf. split; cbn [probes next_seq].
  - intros k. rewrite (find_stored_update ss id f) by done. case_decide as E.
    + subst k. by rewrite lookup_insert_eq, Hf.
    + by rewrite lookup_insert_ne.
  - unfold ids. rewrite <- list_fmap_compose. erewrite list_fmap_ext; [exact Hn|].
    intros i x _. cbn. by case_bool_decide.
  - clear -Hs. induction Hs as [|x l _ IH Hx]; cbn; constructor; [done|].
    apply Forall_fmap. eapply Forall_impl; [exact Hx|]. unfold seq_lt. intros y Hy. cbn.
    by repeat case_bool_decide.
  - apply Forall_fmap. eapply Forall_impl; [exact Hq|]. intros y Hy. cbn. by case_bool_decide.
  - apply Forall_fmap. eapply Forall_impl; [exact Hp|]. intros y Hy. cbn. by case_bool_decide.
Qed.

Lemma represents_remove r ss id :
  represents r ss ->
  represents (mkProbeRegistry (delete id (probes r)) (next_seq r))
    (List.filter (fun s => negb (bool_decide (pd_id (definition s) = id))) ss).
Proof.
  intros [Hl Hn Hs Hq Hp]. split; cbn [probes next_seq]; [| | |by apply Forall_filter..].
  - intros k. rewrite find_stored_remove. case_decide as E.
    + subst k. apply lookup_delete_eq.
    + by rewrite lookup_delete_ne.
  - clear -Hn. unfold ids in *. induction ss as [|x l IH]; [done|]. cbn in *.
    apply NoDup_cons in Hn as [Hx Hn]. case_bool_decide; cbn; [auto|].
    apply NoDup_cons. split; [|auto]. intros (y & E & Hy)%list_elem_of_fmap. apply Hx.
    apply list_elem_of_fmap. exists y. split; [done|].
    apply list_elem_of_In in Hy. apply list_elem_of_In. by apply List.filter_In in Hy as [? _].
  - by apply StronglySorted_filter.
Qed.

Lemma spec_set_definition b ss id :
  spec_set b (definition <$> ss) id =
  definition <$> ((fun s => if bool_decide (pd_id (definition s) = id)
               then mkStoredProbe (set_enabled (definition s) b) (parsed_point s) (seq s) else s) <$> ss).
Proof.
  unfold spec_set. rewrite <- !list_fmap_compose. apply list_fmap_ext.
  intros i s _. cbn. by case_bool_decide.
Qed.

Lemma set_refines b r ss id a r' :
  represents r ss -> set_probe_enabled b r id = (a, r') ->
  exists ss', represents r' ss' /\ next_seq r' = next_seq r /\
    spec_update b (definition <$> ss) id = (ADef a, definition <$> ss').
Proof.
  intros HR. unfold set_probe_enabled, spec_update.
  rewrite (rep_lookup _ _ HR), spec_find_stored.
  destruct (find_stored ss id) as [s|] eqn:E; intros [= <- <-]; [|by exists ss].
  eexists. split; [by apply represents_set|]. split; [done|]. cbn. by rewrite spec_set_definition.
Qed.

(** One call: the answer is the specification's. *)
Lemma step_refines r ss c a r' :
  represents r ss -> 0 <= next_seq r < U64_MAX -> step r c a r' ->
  exists ss', represents r' ss' /\ next_seq r <= next_seq r' <= next_seq r + 1 /\
    spec (definition <$> ss) c = (a, definition <$> ss').
Proof.
  intros HR Hb Hstep. destruct Hstep as [r p a r' H|r id|r vs Hv|r id a r' H|r id a r' H|r id a r' H|r t vs Hv|r t vs Hv|r];
    cbn [spec].
  - unfold define in H. rewrite (rep_lookup _ _ HR) in H. rewrite spec_find_stored.
    destruct (find_stored ss (pd_id p)) eqn:E; [simplify_eq; exists ss; split_and!; auto; lia|].
    destruct (parse_point (pd_point p)) eqn:Ep; simplify_eq; [|exists ss; split_and!; auto; lia].
    eexists. split; [by apply represents_define|]. cbn. rewrite fmap_app.
    rewrite u64_add_small by (unfold_int; lia). split; [lia|done].
  - exists ss. split_and!; [done|lia..|]. unfold get. by rewrite (rep_lookup _ _ HR), spec_find_stored.
  - exists ss. split_and!; [done|lia..|]. unfold list_.
    rewrite (sort_iteration vs ss) by (apply HR || by eapply represents_iterates).
    by rewrite sort_definitions by apply HR.
  - destruct (set_refines _ _ _ _ _ _ HR H) as (ss' & ? & ? & ?). exists ss'. split_and!; [done|lia..|done].
  - destruct (set_refines _ _ _ _ _ _ HR H) as (ss' & ? & ? & ?). exists ss'. split_and!; [done|lia..|done].
  - unfold remove in H. rewrite (rep_lookup _ _ HR) in H. rewrite spec_find_stored.
    destruct (find_stored ss id) eqn:E; simplify_eq; [|exists ss; split_and!; auto; lia].
    eexists. split; [by apply represents_remove|]. cbn. split; [lia|]. by rewrite filter_definition.
  - exists ss. split_and!; [done|lia..|]. unfold matching.
    by rewrite (represents_listing _ _ _ _ _ HR Hv (represents_matches _ _ t HR)).
  - exists ss. split_and!; [done|lia..|]. unfold matching_enabled.
    erewrite represents_listing; [done..|].
    eapply Forall_impl; [apply (represents_matches _ _ t HR)|]. cbn. by intros s ->.
  - exists ss. split_and!; [done|lia..|]. by rewrite (represents_len _ _ HR), length_fmap.
Qed.

Lemma steps_refine cs : forall r ss answers r',
  represents r ss -> 0 <= next_seq r -> next_seq r + Z.of_nat (List.length cs) <= U64_MAX ->
  steps r cs answers r' ->
  exists ss', represents r' ss' /\ spec_run (definition <$> ss) cs = (answers, definition <$> ss').
Proof.
  induction cs as [|c cs IH]; intros r ss answers r' HR H0 Hb Hst; inversion Hst; subst.
  - by exists ss.
  - cbn [List.length] in Hb. edestruct step_refines as (ss1 & HR1 & Hn & Hspec); [exact HR| |eassumption|]; [lia|].
    edestruct IH as (ss' & HR' & Hrun); [exact HR1|lia|lia|eassumption|].
    exists ss'. split; [done|]. cbn. by rewrite Hspec, Hrun.
Qed.

End Refinement.

(** C19: refinement.  Take any sequence of registry calls from an empty
    registry (fewer than 2^64 of them) and let every listing iterate the hash
    map in whatever order it likes: the answers are exactly those of the
    specification, a list of definitions in definition order, where [list],
    [matching] and [matching_enabled] are a stable sort by priority, [define]
    refuses duplicates before it looks at the point, and failed calls change
    nothing. *)
Theorem registry_refines_list {W : Winnow} (cs : list call) (answers : list answer) (r : ProbeRegistry) :
  Z.of_nat (List.length cs) <= U64_MAX ->
  steps new cs answers r ->
  exists l, spec_run [] cs = (answers, l) /\ forall vs, iterates r vs -> definition <$> vs ≡ₚ l.
Proof.
  intros Hb Hst. destruct (steps_refine cs new [] answers r) as (ss & HR & Hrun); [apply represents_new|done|done|done|].
  exists (definition <$> ss). split; [done|]. intros vs Hv.
  by rewrite (represents_iterates _ _ _ HR Hv).
Qed.

Definition demo_probe (id : string) (prio : Z) : ProbeDefinition :=
  mkProbeDefinition id "llama:*:*:*:*:output" ProbeAction_Capture None true prio.

Lemma step_list {W : Winnow} r l :
  list_ (map_to_list (probes r)).*2 = l -> step r CList (ADefs l) r.
Proof. intros <-. apply SList. unfold iterates. reflexivity. Qed.

Lemma registry_refines_list_witness :
  exists l,
    @spec_run winnow_ref [] [CDefine (demo_probe "a" 5); CDefine (demo_probe "b" 0); CDefine (demo_probe "a" 1); CList]
    = ([AId (Ok "a"); AId (Ok "b"); AId (Err (DuplicateId "a")); ADefs [demo_probe "b" 0; demo_probe "a" 5]], l).
Proof.
  edestruct (@registry_refines_list winnow_ref
    [CDefine (demo_probe "a" 5); CDefine (demo_probe "b" 0); CDefine (demo_probe "a" 1); CList]
    [AId (Ok "a"); AId (Ok "b"); AId (Err (DuplicateId "a")); ADefs [demo_probe "b" 0; demo_probe "a" 5]])
    as (l & Hl & _); [| |exists l; exact Hl].
  - vm_compute. discriminate.
  - do 3 (eapply steps_cons; [apply SDefine; vm_compute; reflexivity|]).
    eapply steps_cons; [apply step_list; vm_compute; reflexivity|]. apply steps_nil.
Defined.
