(* ===== verification/Frame.v ===== *)
(** * Frame: the 128-byte probe-frame header

    The header is written by [serialize_probe_frame] of
    [crates/rocket-surgeon-shm/src/lib.rs] and read by [ProbeFrameHeader::parse]
    of [crates/rocket-surgeon-python/src/probe_frame.rs], two crates that agree
    only by convention on the offsets. *)

From Stdlib Require Import ZArith Lia.
From coqutil Require Import Byte.
From stdpp Require Import base list.
From S2P Require Import Prelude.
Open Scope Z_scope.

(** ** Shared-memory crate *)
Definition PROBE_FRAME_HEADER_SIZE : nat := 128.
Definition FRAME_OFFSET_RANK : nat := 0.
Definition FRAME_OFFSET_LAYER : nat := 4.
Definition FRAME_OFFSET_COMP_ID : nat := 8.
Definition FRAME_OFFSET_DTYPE : nat := 10.
Definition FRAME_OFFSET_NDIM : nat := 11.
Definition FRAME_OFFSET_SHAPE : nat := 12.
Definition FRAME_OFFSET_TICK_ID : nat := 48.
Definition FRAME_OFFSET_DATA_OFF : nat := 56.
Definition FRAME_OFFSET_SIZE : nat := 64.
Definition FRAME_OFFSET_FLAGS : nat := 72.
Definition FRAME_OFFSET_GENERATION : nat := 76.

Definition zeros (n : nat) : list byte := repeat Byte.x00 n.

(** [for (i, &dim) in shape.iter().enumerate()]: one write per dimension. *)
Definition shape_writes (off : nat) (shape : list Z) : list (nat * list byte) :=
  imap (fun i dim => ((off + i * 4)%nat, to_le_bytes 4 dim)) shape.

Definition frame_writes (rank layer comp_id dtype ndim : Z) (shape : list Z)
    (tick_id data_off size flags generation : Z) : list (nat * list byte) :=
  [(FRAME_OFFSET_RANK, to_le_bytes 4 rank);
   (FRAME_OFFSET_LAYER, to_le_bytes 4 layer);
   (FRAME_OFFSET_COMP_ID, to_le_bytes 2 comp_id);
   (FRAME_OFFSET_DTYPE, to_le_bytes 1 dtype);
   (FRAME_OFFSET_NDIM, to_le_bytes 1 ndim)] ++
  shape_writes FRAME_OFFSET_SHAPE shape ++
  [(FRAME_OFFSET_TICK_ID, to_le_bytes 8 tick_id);
   (FRAME_OFFSET_DATA_OFF, to_le_bytes 8 data_off);
   (FRAME_OFFSET_SIZE, to_le_bytes 8 size);
   (FRAME_OFFSET_FLAGS, to_le_bytes 4 flags);
   (FRAME_OFFSET_GENERATION, to_le_bytes 4 generation)].

Definition serialize_probe_frame (rank layer comp_id dtype ndim : Z) (shape : list Z)
    (tick_id data_off size flags generation : Z) : list byte :=
  apply_writes (frame_writes rank layer comp_id dtype ndim shape tick_id data_off size flags generation)
    (zeros PROBE_FRAME_HEADER_SIZE).

(** ** Python crate *)
Definition HEADER_SIZE : nat := 128.
Definition MAX_DIMS : nat := 8.
Definition OFFSET_RANK : nat := 0.
Definition OFFSET_LAYER : nat := 4.
Definition OFFSET_COMP_ID : nat := 8.
Definition OFFSET_DTYPE : nat := 10.
Definition OFFSET_NDIM : nat := 11.
Definition OFFSET_SHAPE : nat := 12.
Definition OFFSET_TICK_ID : nat := 48.
Definition OFFSET_DATA_OFF : nat := 56.
Definition OFFSET_SIZE : nat := 64.
Definition OFFSET_FLAGS : nat := 72.
Definition OFFSET_GENERATION : nat := 76.

Record ProbeFrameHeader := mkProbeFrameHeader {
  pfh_rank : Z;
  pfh_layer : Z;
  pfh_comp_id : Z;
  pfh_dtype : Z;
  pfh_ndim : Z;
  pfh_shape : list Z;
  pfh_tick_id : Z;
  pfh_data_off : Z;
  pfh_size : Z;
  pfh_flags : Z;
  pfh_generation : Z
}.

Inductive ProbeFrameError := BufferTooSmall (expected got : nat).

Definition header_writes (h : ProbeFrameHeader) : list (nat * list byte) :=
  [(OFFSET_RANK, to_le_bytes 4 (pfh_rank h));
   (OFFSET_LAYER, to_le_bytes 4 (pfh_layer h));
   (OFFSET_COMP_ID, to_le_bytes 2 (pfh_comp_id h));
   (OFFSET_DTYPE, to_le_bytes 1 (pfh_dtype h));
   (OFFSET_NDIM, to_le_bytes 1 (pfh_ndim h))] ++
  shape_writes OFFSET_SHAPE (pfh_shape h) ++
  [(OFFSET_TICK_ID, to_le_bytes 8 (pfh_tick_id h));
   (OFFSET_DATA_OFF, to_le_bytes 8 (pfh_data_off h));
   (OFFSET_SIZE, to_le_bytes 8 (pfh_size h));
   (OFFSET_FLAGS, to_le_bytes 4 (pfh_flags h));
   (OFFSET_GENERATION, to_le_bytes 4 (pfh_generation h))].

Definition serialize (h : ProbeFrameHeader) : list byte :=
  apply_writes (header_writes h) (zeros HEADER_SIZE).

Definition field (data : list byte) (off n : nat) : Z := from_le_bytes (slice off n data).

Definition parse (data : list byte) : result ProbeFrameError ProbeFrameHeader :=
  if Nat.ltb (List.length data) HEADER_SIZE then Err (BufferTooSmall HEADER_SIZE (List.length data))
  else Ok {|
    pfh_rank := field data OFFSET_RANK 4;
    pfh_layer := field data OFFSET_LAYER 4;
    pfh_comp_id := field data OFFSET_COMP_ID 2;
    pfh_dtype := field data OFFSET_DTYPE 1;
    pfh_ndim := field data OFFSET_NDIM 1;
    pfh_shape := (fun i => field data (OFFSET_SHAPE + i * 4) 4) <$> List.seq 0 MAX_DIMS;
    pfh_tick_id := field data OFFSET_TICK_ID 8;
    pfh_data_off := field data OFFSET_DATA_OFF 8;
    pfh_size := field data OFFSET_SIZE 8;
    pfh_flags := field data OFFSET_FLAGS 4;
    pfh_generation := field data OFFSET_GENERATION 4
  |}.

(** The fields are within their Rust types. *)
Definition fits (bits z : Z) : Prop := 0 <= z < 2 ^ bits.
Definition header_ok (h : ProbeFrameHeader) : Prop :=
  fits 32 (pfh_rank h) /\ fits 32 (pfh_layer h) /\ fits 16 (pfh_comp_id h) /\
  fits 8 (pfh_dtype h) /\ fits 8 (pfh_ndim h) /\
  (List.length (pfh_shape h) = MAX_DIMS /\ Forall (fits 32) (pfh_shape h)) /\
  fits 64 (pfh_tick_id h) /\ fits 64 (pfh_data_off h) /\ fits 64 (pfh_size h) /\
  fits 32 (pfh_flags h) /\ fits 32 (pfh_generation h).

(** The shared-memory writer applied to the fields of a header. *)
Definition frame_of (h : ProbeFrameHeader) : list byte :=
  serialize_probe_frame (pfh_rank h) (pfh_layer h) (pfh_comp_id h) (pfh_dtype h) (pfh_ndim h)
    (pfh_shape h) (pfh_tick_id h) (pfh_data_off h) (pfh_size h) (pfh_flags h) (pfh_generation h).

(** Reading back the [i]-th of a list of field writes. *)
Lemma field_apply_writes ws buf i o n z :
  layout_ok (List.length buf) (layout ws) = true ->
  ws !! i = Some (o, to_le_bytes n z) -> fits (Z.of_nat n * 8) z ->
  field (apply_writes ws buf) o n = z.
Proof.
  intros Hl Hi Hz. unfold field. pose proof (slice_apply_writes ws buf _ _ _ Hl Hi) as E.
  rewrite length_to_le_bytes in E. rewrite E. by apply from_to_le_bytes.
Qed.

Lemma shape_8 (l : list Z) : List.length l = MAX_DIMS ->
  exists a b c d e f g h, l = [a; b; c; d; e; f; g; h].
Proof. do 8 (destruct l as [|? l]; [done|]). destruct l; [|done]. intros _. by repeat eexists. Qed.

Lemma header_layout_ok h :
  List.length (pfh_shape h) = MAX_DIMS -> layout_ok HEADER_SIZE (layout (header_writes h)) = true.
Proof.
  intros (a & b & c & d & e & f & g & i & E)%shape_8. unfold header_writes, layout, shape_writes.
  rewrite E. cbn [imap app fmap list_fmap fst snd]. rewrite !length_to_le_bytes. vm_compute. done.
Qed.

(** Reading back the [i]-th field of a serialized header. *)
Lemma field_serialize h rest i o n z :
  List.length (pfh_shape h) = MAX_DIMS -> header_writes h !! i = Some (o, to_le_bytes n z) ->
  Nat.leb (o + n) HEADER_SIZE = true -> fits (Z.of_nat n * 8) z ->
  field (serialize h ++ rest) o n = z.
Proof.
  intros Hs Hi Hn%Nat.leb_le Hz. pose proof (header_layout_ok h Hs) as Hl.
  assert (List.length (serialize h) = HEADER_SIZE) as Hlen
    by (unfold serialize; rewrite length_apply_writes; done).
  unfold field. rewrite (slice_ext _ _ _ (serialize h)).
  - by eapply field_apply_writes.
  - intros k Hk. apply lookup_app_l. lia.
Qed.

Lemma serialize_length h : header_ok h -> List.length (serialize h) = HEADER_SIZE.
Proof. intros (_ & _ & _ & _ & _ & [H _] & _). unfold serialize. rewrite length_apply_writes; [done|]. by apply header_layout_ok. Qed.

Lemma parse_serialize h rest : header_ok h -> parse (serialize h ++ rest) = Ok h.
Proof.
  intros Hh. pose proof (serialize_length h Hh) as Hlen. destruct Hh as (H1 & H2 & H3 & H4 & H5 & [H6 H6'] & H7 & H8 & H9 & H10 & H11).
  unfold parse.
  assert (Nat.ltb (List.length (serialize h ++ rest)) HEADER_SIZE = false) as ->.
  { apply Nat.ltb_ge. rewrite length_app. lia. }
  f_equal. pose proof (fun i o n z => field_serialize h rest i o n z H6) as F.
  unfold header_writes, shape_writes in F. set (data := serialize h ++ rest) in *. clearbody data.
  destruct (shape_8 _ H6) as (a & b & c & d & e & f & g & i & E).
  destruct h as [rk ly ci dt nd sh ti off sz fl ge]; cbn [pfh_rank pfh_layer pfh_comp_id pfh_dtype
    pfh_ndim pfh_shape pfh_tick_id pfh_data_off pfh_size pfh_flags pfh_generation] in *. subst sh.
  repeat match goal with H : Forall _ (_ :: _) |- _ => apply Forall_cons in H as [? H] end.
  f_equal; [exact (F 0%nat _ _ _ eq_refl eq_refl H1)|exact (F 1%nat _ _ _ eq_refl eq_refl H2)
    |exact (F 2%nat _ _ _ eq_refl eq_refl H3)|exact (F 3%nat _ _ _ eq_refl eq_refl H4)
    |exact (F 4%nat _ _ _ eq_refl eq_refl H5)|
    |exact (F 13%nat _ _ _ eq_refl eq_refl H7)|exact (F 14%nat _ _ _ eq_refl eq_refl H8)
    |exact (F 15%nat _ _ _ eq_refl eq_refl H9)|exact (F 16%nat _ _ _ eq_refl eq_refl H10)
    |exact (F 17%nat _ _ _ eq_refl eq_refl H11)].
  cbn [List.seq MAX_DIMS fmap list_fmap].
  rewrite (F 5%nat _ _ _ eq_refl eq_refl), (F 6%nat _ _ _ eq_refl eq_refl),
    (F 7%nat _ _ _ eq_refl eq_refl), (F 8%nat _ _ _ eq_refl eq_refl), (F 9%nat _ _ _ eq_refl eq_refl),
    (F 10%nat _ _ _ eq_refl eq_refl), (F 11%nat _ _ _ eq_refl eq_refl), (F 12%nat _ _ _ eq_refl eq_refl);
    done.
Qed.

(** What the shared-memory crate writes the Python crate reads: the two
    serializers produce the same 128 bytes, and parsing those bytes (with any
    bytes following them) returns every field unchanged. *)
Theorem probe_frame_roundtrip (h : ProbeFrameHeader) (rest : list byte) :
  header_ok h ->
  frame_of h = serialize h /\ List.length (frame_of h) = PROBE_FRAME_HEADER_SIZE /\
  parse (frame_of h ++ rest) = Ok h.
Proof.
  intros Hh. assert (frame_of h = serialize h) as -> by reflexivity.
  split; [done|]. split; [by apply serialize_length|by apply parse_serialize].
Qed.

Definition demo_header : ProbeFrameHeader :=
  mkProbeFrameHeader 0 12 3 2 3 [2; 4096; 4096; 0; 0; 0; 0; 0] 42 0x1000 65536 0 7.

Lemma probe_frame_roundtrip_witness :
  header_ok demo_header /\ parse (frame_of demo_header ++ [Byte.x01]) = Ok demo_header.
Proof.
  assert (header_ok demo_header) as H.
  { unfold header_ok, fits, demo_header; cbn [pfh_rank pfh_layer pfh_comp_id pfh_dtype pfh_ndim pfh_shape
      pfh_tick_id pfh_data_off pfh_size pfh_flags pfh_generation]. split_and!; try lia; [done|].
    repeat constructor; lia. }
  split; [exact H|]. exact (proj2 (proj2 (probe_frame_roundtrip demo_header [Byte.x01] H))).
Defined.
