(* ===== verification/Shm.v ===== *)
(** * Shm: shared-memory regions and the DOOM ring

    [crates/rocket-surgeon-shm/src/lib.rs] (ring configuration), [region.rs]
    (bounds- and alignment-checked access, the POSIX object life cycle) and
    [ring.rs] (producer and consumer).  The bytes of the shared object are a
    [list byte]; every operation takes the bytes and returns them.  The
    interleaving of the two processes at byte granularity is in [RingConc]. *)

From Stdlib Require Import ZArith Lia String.
From coqutil Require Import Byte.
From stdpp Require Import base gmap strings list.
From S2P Require Import Prelude Frame.
Open Scope Z_scope.

Definition CONTROL_SIZE : Z := 4096.
Definition MAGIC : list byte :=
  [Byte.x44; Byte.x4f; Byte.x4f; Byte.x4d; Byte.x52; Byte.x49; Byte.x4e; Byte.x47].
Definition MAGIC_OFFSET : Z := 0.
Definition VERSION : Z := 1.
Definition VERSION_OFFSET : Z := 8.
Definition SLOT_COUNT_OFFSET : Z := 12.
Definition SLOT_SIZE_OFFSET : Z := 16.
Definition REGION_SIZE_OFFSET : Z := 24.
Definition MAKETIC_OFFSET : Z := 128.
Definition NETTICS_OFFSET : Z := 256.
Definition HEADER : Z := Z.of_nat PROBE_FRAME_HEADER_SIZE.

Inductive InvalidConfigReason := SlotTooSmall (slot_size : Z) | RegionOverflowsU64 | RegionNotAddressable | EmptyRegion.

Inductive ShmError :=
| NotPowerOfTwo (n : Z)
| InvalidConfig (r : InvalidConfigReason)
| Open (name : string)
| Mmap
| Truncate
| Unlink (name : string)
| OutOfBounds (offset length region_size : Z)
| ReadOutOfBounds (offset length capacity : Z)
| Unaligned (offset alignment : Z)
| BadMagic (got : list byte)
| BadVersion (expected got : Z)
| RingFull (maketic nettics capacity : Z)
| TensorTooLarge (tensor_size slot_capacity : Z)
| NameTooLong (name : string) (max_len : Z)
| RegionTooSmall (expected actual : Z)
| StaleSlot (expected actual : Z).

(** ** [RingConfig] *)

Record RingConfig := mkRingConfig { backuptics : Z; slot_size : Z }.

Definition RingConfig_new (backuptics slot_size : Z) : result ShmError RingConfig :=
  if (backuptics =? 0) || negb (Z.land backuptics (backuptics - 1) =? 0) then Err (NotPowerOfTwo backuptics)
  else if slot_size <? HEADER then Err (InvalidConfig (SlotTooSmall slot_size))
  else
    let total := match u64_checked_mul backuptics slot_size with
                 | Some v => u64_checked_add v CONTROL_SIZE
                 | None => None
                 end in
    let? slot_total := ok_or total (InvalidConfig RegionOverflowsU64) in
    if USIZE_MAX <? slot_total then Err (InvalidConfig RegionNotAddressable)
    else Ok (mkRingConfig backuptics slot_size).

Definition region_size (c : RingConfig) : Z :=
  u64_add CONTROL_SIZE (u64_mul (backuptics c) (slot_size c)).

Definition slot_offset (c : RingConfig) (maketic : Z) : Z :=
  let slot_index := Z.land maketic (backuptics c - 1) in
  u64_add CONTROL_SIZE (u64_mul slot_index (slot_size c)).

Definition slot_data_capacity (c : RingConfig) : Z := u64_sub (slot_size c) HEADER.

Definition mask (c : RingConfig) : Z := backuptics c - 1.

(** ** Checked access to the bytes *)

Abbreviation mem := (list byte).
Definition mem_len (m : mem) : Z := Z.of_nat (List.length m).

Definition bounds_check (len offset length : Z) : result ShmError unit :=
  match u64_checked_add offset length with
  | Some e => if len <? e then Err (OutOfBounds offset length len) else Ok tt
  | None => Err (OutOfBounds offset length len)
  end.

Definition alignment_check (offset alignment : Z) : result ShmError unit :=
  if offset mod alignment =? 0 then Ok tt else Err (Unaligned offset alignment).

Definition write_bytes (offset : Z) (data : list byte) (m : mem) : result ShmError mem :=
  let? tt := bounds_check (mem_len m) offset (Z.of_nat (List.length data)) in
  Ok (splice (Z.to_nat offset) data m).

Definition read_bytes (offset length : Z) (m : mem) : result ShmError (list byte) :=
  let? tt := bounds_check (mem_len m) offset length in
  Ok (slice (Z.to_nat offset) (Z.to_nat length) m).

Definition atomic_store_u64 (offset value : Z) (m : mem) : result ShmError mem :=
  let? tt := alignment_check offset 8 in
  let? tt := bounds_check (mem_len m) offset 8 in
  Ok (splice (Z.to_nat offset) (to_le_bytes 8 value) m).

Definition atomic_load_u64 (offset : Z) (m : mem) : result ShmError Z :=
  let? tt := alignment_check offset 8 in
  let? tt := bounds_check (mem_len m) offset 8 in
  Ok (from_le_bytes (slice (Z.to_nat offset) 8 m)).

Definition write_magic (m : mem) : result ShmError mem :=
  let? tt := bounds_check (mem_len m) MAGIC_OFFSET (Z.of_nat (List.length MAGIC)) in
  Ok (splice (Z.to_nat MAGIC_OFFSET) MAGIC m).

(** ** The object life cycle

    [World] is the part of the kernel the code touches: the POSIX objects by
    name and the number of descriptors the process holds.  [faults] says which
    system calls the kernel refuses in this call. *)

Definition PSHMNAMLEN_MAX : Z := 255.

Record World := mkWorld { objects : gmap string mem; open_fds : Z }.

Record Faults := mkFaults { shm_open_fails : bool; ftruncate_fails : bool; fstat_fails : bool; mmap_fails : bool }.
Definition no_faults : Faults := mkFaults false false false false.

Definition validate_name (name : string) : result ShmError unit :=
  if PSHMNAMLEN_MAX <? Z.of_nat (String.length name) then Err (NameTooLong name PSHMNAMLEN_MAX) else Ok tt.

(** A mapped region: its name and length (the bytes live in the world). *)
Record ShmRegion := mkShmRegion { r_name : string; r_len : Z }.

Definition Region_create (f : Faults) (name : string) (size : Z) (w : World) : result ShmError ShmRegion * World :=
  if size =? 0 then (Err (InvalidConfig EmptyRegion), w)
  else match validate_name name with
  | Err e => (Err e, w)
  | Ok _ =>
      (* shm_open(O_CREAT | O_EXCL) *)
      if shm_open_fails f || bool_decide (is_Some (objects w !! name)) then (Err (Open name), w)
      else
        let w := mkWorld (<[name := []]> (objects w)) (open_fds w + 1) in
        let close w := mkWorld (objects w) (open_fds w - 1) in
        let unlink w := mkWorld (delete name (objects w)) (open_fds w) in
        if ftruncate_fails f then (Err Truncate, unlink (close w))
        else
          let w := mkWorld (<[name := zeros (Z.to_nat size)]> (objects w)) (open_fds w) in
          if mmap_fails f then (Err Mmap, unlink (close w))
          else (Ok (mkShmRegion name size), w)
  end.

Definition Region_open (f : Faults) (name : string) (size : Z) (w : World) : result ShmError ShmRegion * World :=
  if size =? 0 then (Err (InvalidConfig EmptyRegion), w)
  else match validate_name name with
  | Err e => (Err e, w)
  | Ok _ =>
      match objects w !! name with
      | None => (Err (Open name), w)
      | Some m =>
          if shm_open_fails f then (Err (Open name), w)
          else
            let w := mkWorld (objects w) (open_fds w + 1) in
            let close w := mkWorld (objects w) (open_fds w - 1) in
            if fstat_fails f then (Err (Open name), close w)
            else if mem_len m <? size then (Err (RegionTooSmall size (mem_len m)), close w)
            else if mmap_fails f then (Err Mmap, close w)
            else (Ok (mkShmRegion name size), w)
      end
  end.

Definition Region_drop (w : World) : World := mkWorld (objects w) (open_fds w - 1).

Definition Region_unlink (name : string) (w : World) : result ShmError unit * World :=
  match objects w !! name with
  | Some _ => (Ok tt, mkWorld (delete name (objects w)) (open_fds w))
  | None => (Err (Unlink name), w)
  end.

(** ** Producer *)

Record DoomRingProducer := mkProducer { p_region : ShmRegion; p_config : RingConfig; p_maketic : Z }.

(** [DoomRingProducer::create] after the region is mapped: the control block. *)
Definition init_control (c : RingConfig) (m : mem) : result ShmError mem :=
  let? m := write_bytes VERSION_OFFSET (to_le_bytes 4 VERSION) m in
  let? m := write_bytes SLOT_COUNT_OFFSET (to_le_bytes 4 (backuptics c)) m in
  let? m := write_bytes SLOT_SIZE_OFFSET (to_le_bytes 8 (slot_size c)) m in
  let? m := write_bytes REGION_SIZE_OFFSET (to_le_bytes 8 (region_size c)) m in
  let? m := atomic_store_u64 MAKETIC_OFFSET 0 m in
  let? m := atomic_store_u64 NETTICS_OFFSET 0 m in
  write_magic m.

Definition producer_create (f : Faults) (name : string) (c : RingConfig) (w : World)
  : result ShmError DoomRingProducer * World :=
  match Region_create f name (region_size c) w with
  | (Err e, w) => (Err e, w)
  | (Ok region, w) =>
      match init_control c (default [] (objects w !! name)) with
      | Err e => (Err e, Region_drop w)
      | Ok m => (Ok (mkProducer region c 0), mkWorld (<[name := m]> (objects w)) (open_fds w))
      end
  end.

(** The answer of [publish], the producer's counter and the bytes after it;
    [None] is the [assert_eq!] on the header length. *)
Definition publish (c : RingConfig) (maketic : Z) (header data : list byte) (m : mem)
  : option (result ShmError Z * Z * mem) :=
  if negb (Nat.eqb (List.length header) PROBE_FRAME_HEADER_SIZE) then None
  else
    let n := Z.of_nat (List.length data) in
    if slot_data_capacity c <? n then Some (Err (TensorTooLarge n (slot_data_capacity c)), maketic, m)
    else match atomic_load_u64 NETTICS_OFFSET m with
    | Err e => Some (Err e, maketic, m)
    | Ok nettics =>
        if backuptics c <=? u64_sub maketic nettics
        then Some (Err (RingFull maketic nettics (backuptics c)), maketic, m)
        else
          let off := slot_offset c maketic in
          match write_bytes off header m with
          | Err e => Some (Err e, maketic, m)
          | Ok m =>
              match write_bytes (u64_add off HEADER) data m with
              | Err e => Some (Err e, maketic, m)
              | Ok m =>
                  let maketic := u64_add maketic 1 in
                  match atomic_store_u64 MAKETIC_OFFSET maketic m with
                  | Err e => Some (Err e, maketic, m)
                  | Ok m => Some (Ok (u64_sub maketic 1), maketic, m)
                  end
              end
          end
    end.

Definition is_full (c : RingConfig) (maketic : Z) (m : mem) : bool :=
  let nettics := match atomic_load_u64 NETTICS_OFFSET m with Ok n => n | Err _ => 0 end in
  backuptics c <=? u64_sub maketic nettics.

(** ** Consumer *)

Record ConsumedFrame := mkConsumedFrame { cf_header : list byte; cf_data : list byte }.
Record DoomRingConsumer := mkConsumer { c_region : ShmRegion; c_config : RingConfig; c_nettics : Z }.

(** The checks of [DoomRingConsumer::open] on the control block. *)
Definition read_control (m : mem) : result ShmError RingConfig :=
  let? magic := read_bytes 0 8 m in
  if negb (bool_decide (magic = MAGIC)) then Err (BadMagic magic)
  else
    let? version_bytes := read_bytes VERSION_OFFSET 4 m in
    let version := from_le_bytes version_bytes in
    if negb (version =? VERSION) then Err (BadVersion VERSION version)
    else
      let? slot_count_bytes := read_bytes SLOT_COUNT_OFFSET 4 m in
      let? slot_size_bytes := read_bytes SLOT_SIZE_OFFSET 8 m in
      RingConfig_new (from_le_bytes slot_count_bytes) (from_le_bytes slot_size_bytes).

Definition consumer_open (f : Faults) (name : string) (w : World) : result ShmError DoomRingConsumer * World :=
  match Region_open f name CONTROL_SIZE w with
  | (Err e, w) => (Err e, w)
  | (Ok _, w1) =>
      let m := default [] (objects w1 !! name) in
      match read_control (take (Z.to_nat CONTROL_SIZE) m) with
      | Err e => (Err e, Region_drop w1)
      | Ok config =>
          match Region_open f name (region_size config) (Region_drop w1) with
          | (Err e, w) => (Err e, w)
          | (Ok region, w2) =>
              match atomic_load_u64 NETTICS_OFFSET (take (Z.to_nat (region_size config)) m) with
              | Err e => (Err e, Region_drop w2)
              | Ok nettics => (Ok (mkConsumer region config nettics), w2)
              end
          end
      end
  end.

(** Validation of a header against the consumer's position. *)
Definition check_header (c : RingConfig) (nettics : Z) (header : list byte) : result ShmError Z :=
  let size := from_le_bytes (slice FRAME_OFFSET_SIZE 8 header) in
  if slot_data_capacity c <? size then Err (ReadOutOfBounds HEADER size (slot_data_capacity c))
  else
    let generation := from_le_bytes (slice FRAME_OFFSET_GENERATION 4 header) in
    let expected := Z.land nettics 0xFFFFFFFF in
    if negb (generation =? expected) then Err (StaleSlot expected generation)
    else Ok size.

Definition try_consume (c : RingConfig) (nettics : Z) (m : mem) : result ShmError (option ConsumedFrame) :=
  let? maketic := atomic_load_u64 MAKETIC_OFFSET m in
  if maketic =? nettics then Ok None
  else
    let off := slot_offset c nettics in
    let? header := read_bytes off HEADER m in
    let? size := check_header c nettics header in
    let? data := read_bytes (u64_add off HEADER) size m in
    Ok (Some (mkConsumedFrame header data)).

(** [advance_by]; [advance] is [advance_by 1]. *)
Definition advance_by (nettics count : Z) (m : mem) : result ShmError unit * Z * mem :=
  let nettics := u64_add nettics count in
  match atomic_store_u64 NETTICS_OFFSET nettics m with
  | Ok m => (Ok tt, nettics, m)
  | Err e => (Err e, nettics, m)
  end.
Definition advance (nettics : Z) (m : mem) := advance_by nettics 1 m.

(** [vec![0u8; len]] and a read into it: a length beyond [isize::MAX] panics
    before the bounds are checked. *)
Definition ISIZE_MAX : Z := 2 ^ 63 - 1.

Definition read_vec (offset len : Z) (m : mem) : option (result ShmError (list byte)) :=
  if ISIZE_MAX <? len then None else Some (read_bytes offset len m).

Definition read_slot_bytes (c : RingConfig) (slot_maketic offset_in_slot len : Z) (m : mem) : option (result ShmError (list byte)) :=
  read_vec (u64_add (slot_offset c slot_maketic) offset_in_slot) len m.

Definition read_absolute (offset len : Z) (m : mem) : option (result ShmError (list byte)) := read_vec offset len m.

(** ** Geometry of a validated configuration *)

Record config_ok (c : RingConfig) : Prop := {
  cfg_pow2 : exists k, 0 <= k /\ backuptics c = 2 ^ k;
  cfg_slot : HEADER <= slot_size c;
  cfg_total : CONTROL_SIZE + backuptics c * slot_size c <= U64_MAX
}.

Lemma land_pred_pow2 b : 0 < b -> Z.land b (b - 1) = 0 -> exists k, 0 <= k /\ b = 2 ^ k.
Proof.
  intros Hb Hl. exists (Z.log2 b). split; [apply Z.log2_nonneg|].
  destruct (Z.log2_spec b Hb) as [Hlo Hhi]. set (k := Z.log2 b) in *.
  assert (0 <= k) by apply Z.log2_nonneg.
  destruct (Z.eq_dec b (2 ^ k)) as [|Hne]; [done|exfalso].
  assert (Z.testbit (Z.land b (b - 1)) k = true) as Ht; [|rewrite Hl, Z.bits_0 in Ht; done].
  rewrite Z.land_spec. apply andb_true_iff. split.
  - apply Z.bit_log2. lia.
  - replace k with (Z.log2 (b - 1)); [apply Z.bit_log2; pose proof (Z.pow_pos_nonneg 2 k); lia|].
    apply Z.log2_unique; [lia|]. split; lia.
Qed.

Lemma RingConfig_new_ok b s c :
  0 <= b -> RingConfig_new b s = Ok c -> c = mkRingConfig b s /\ config_ok c.
Proof.
  intros Hb. unfold RingConfig_new, ok_or.
  destruct (Z.eqb_spec b 0) as [|Hb0]; [done|]. cbn [orb].
  destruct (Z.eqb_spec (Z.land b (b - 1)) 0) as [Hl|]; [|done]. cbn [negb].
  destruct (Z.ltb_spec s HEADER) as [|Hs]; [done|].
  unfold u64_checked_mul. destruct (Z.leb_spec (b * s) U64_MAX) as [Hm|]; [|done].
  unfold u64_checked_add. destruct (Z.leb_spec (b * s + CONTROL_SIZE) U64_MAX) as [Ha|]; [|done].
  destruct (USIZE_MAX <? b * s + CONTROL_SIZE); [done|]. intros [= <-]. split; [done|].
  split; cbn; [apply land_pred_pow2; lia|done|lia].
Qed.

Section Geometry.
Context (c : RingConfig) (Hc : config_ok c).

Lemma backuptics_pos : 0 < backuptics c.
Proof. destruct (cfg_pow2 c Hc) as (k & Hk & ->). by apply Z.pow_pos_nonneg. Qed.

Lemma slot_index_mod i : Z.land i (backuptics c - 1) = i mod backuptics c.
Proof.
  destruct (cfg_pow2 c Hc) as (k & Hk & ->).
  rewrite <- Z.land_ones by done. by rewrite Z.ones_equiv, <- Z.sub_1_r.
Qed.

Lemma region_size_eq : region_size c = CONTROL_SIZE + backuptics c * slot_size c.
Proof.
  pose proof backuptics_pos. pose proof (cfg_total c Hc). pose proof (cfg_slot c Hc).
  unfold region_size, CONTROL_SIZE, HEADER, PROBE_FRAME_HEADER_SIZE in *.
  assert (0 <= backuptics c * slot_size c) by nia.
  unfold u64_mul, u64_wrap. rewrite Z.mod_small by (unfold U64_MAX in *; lia).
  apply u64_add_small; lia.
Qed.

Lemma slot_offset_eq i : slot_offset c i = CONTROL_SIZE + (i mod backuptics c) * slot_size c.
Proof.
  pose proof backuptics_pos. pose proof (cfg_total c Hc). pose proof (cfg_slot c Hc).
  unfold slot_offset. rewrite slot_index_mod.
  unfold CONTROL_SIZE, HEADER, PROBE_FRAME_HEADER_SIZE in *.
  pose proof (Z.mod_pos_bound i (backuptics c) ltac:(lia)).
  assert (0 <= i mod backuptics c * slot_size c <= backuptics c * slot_size c) by nia.
  unfold u64_mul, u64_wrap. rewrite Z.mod_small by (unfold U64_MAX in *; lia).
  apply u64_add_small; lia.
Qed.

Lemma slot_data_capacity_eq : slot_data_capacity c = slot_size c - HEADER.
Proof.
  pose proof backuptics_pos. pose proof (cfg_total c Hc). pose proof (cfg_slot c Hc).
  unfold CONTROL_SIZE, HEADER, PROBE_FRAME_HEADER_SIZE in *.
  apply u64_sub_small; nia.
Qed.

(** Every slot lies inside the region, behind the control block. *)
Lemma slot_in_region i :
  CONTROL_SIZE <= slot_offset c i /\ slot_offset c i + slot_size c <= region_size c.
Proof.
  rewrite slot_offset_eq, region_size_eq. pose proof backuptics_pos.
  pose proof (cfg_slot c Hc). unfold HEADER, PROBE_FRAME_HEADER_SIZE in *.
  pose proof (Z.mod_pos_bound i (backuptics c) ltac:(lia)). nia.
Qed.

(** Two positions less than a lap apart have disjoint slots. *)
Lemma slot_disjoint i j :
  i <> j -> Z.abs (i - j) < backuptics c ->
  slot_offset c i + slot_size c <= slot_offset c j \/ slot_offset c j + slot_size c <= slot_offset c i.
Proof.
  intros Hij Hlap. rewrite !slot_offset_eq. pose proof backuptics_pos.
  pose proof (cfg_slot c Hc). unfold HEADER, PROBE_FRAME_HEADER_SIZE in *.
  assert (i mod backuptics c <> j mod backuptics c).
  { intros E. pose proof (Z.div_mod i (backuptics c)). pose proof (Z.div_mod j (backuptics c)).
    assert (i - j = backuptics c * (i / backuptics c - j / backuptics c)) by lia.
    destruct (Z.eq_dec (i / backuptics c) (j / backuptics c)); [nia|].
    assert (backuptics c * 1 <= backuptics c * Z.abs (i / backuptics c - j / backuptics c)) by nia. nia. }
  nia.
Qed.

(** The same slot again exactly one lap later. *)
Lemma slot_period i : slot_offset c (i + backuptics c) = slot_offset c i.
Proof.
  rewrite !slot_offset_eq. pose proof backuptics_pos.
  replace (i + backuptics c) with (i + 1 * backuptics c) by lia. by rewrite Z_mod_plus_full.
Qed.

End Geometry.

(** ** Laws of checked access *)

Lemma bounds_check_ok len off n :
  0 <= off -> 0 <= n -> off + n <= len -> len <= U64_MAX -> bounds_check len off n = Ok tt.
Proof.
  intros. unfold bounds_check, u64_checked_add.
  rewrite (proj2 (Z.leb_le _ _)) by lia. by rewrite (proj2 (Z.ltb_ge _ _)) by lia.
Qed.

(** A successful check is a proof that the access is inside the mapping. *)
Lemma bounds_check_sound len off n :
  bounds_check len off n = Ok tt -> off + n <= len.
Proof.
  unfold bounds_check, u64_checked_add. destruct (Z.leb_spec (off + n) U64_MAX); [|done].
  destruct (Z.ltb_spec len (off + n)); [done|lia].
Qed.
