(* ===== verification/RingConc.v ===== *)
(** * RingConc: producer and consumer running concurrently

    [DoomRingProducer::publish] and [DoomRingConsumer::try_consume]/[advance_by]
    of [crates/rocket-surgeon-shm/src/ring.rs] run in two processes on the same
    bytes.  Here each call is cut into its shared-memory accesses: the atomic
    loads and stores of the cursors are one step each, and the two
    [copy_nonoverlapping] of a frame are one step per byte, interleaved in any
    order with the other process.  The invariant shows that the cursor protocol
    alone keeps the two byte copies apart, so reads are never torn. *)

From Stdlib Require Import ZArith Lia String.
From coqutil Require Import Byte.
From stdpp Require Import base gmap strings list.
From S2P Require Import Prelude Frame Shm.
Open Scope Z_scope.

Abbreviation frame := (list byte * list byte)%type.

(** Where each process is inside a call. *)
Inductive producer_pc :=
| PIdle
| PWrite (header data : list byte) (k : nat).
Inductive consumer_pc :=
| CIdle
| CHead (acc : list byte)
| CData (header : list byte) (size : Z) (acc : list byte).

Record state := mkState {
  bytes : mem;
  maketic : Z;
  ppc : producer_pc;
  nettics : Z;
  cpc : consumer_pc;
  (** ghost: the frames published so far and the answers of [try_consume] with
      the cursor at which each was given *)
  published : list frame;
  answers : list (Z * result ShmError (option ConsumedFrame))
}.

(** What the worker's [try_shm_publish] puts in a header: the data length and
    the low 32 bits of the position. *)
Definition well_framed (c : RingConfig) (position : Z) (f : frame) : Prop :=
  List.length f.1 = PROBE_FRAME_HEADER_SIZE /\
  Z.of_nat (List.length f.2) <= slot_data_capacity c /\
  from_le_bytes (slice FRAME_OFFSET_SIZE 8 f.1) = Z.of_nat (List.length f.2) /\
  from_le_bytes (slice FRAME_OFFSET_GENERATION 4 f.1) = Z.land position 0xFFFFFFFF.

Section Machine.
Context (c : RingConfig).

Definition slot (position : Z) : nat := Z.to_nat (slot_offset c position).

Inductive step : state -> state -> Prop :=
| step_publish_begin m mt nt cp pub ans h d n :
    (* capacity check, load of [nettics], full check *)
    well_framed c mt (h, d) ->
    atomic_load_u64 NETTICS_OFFSET m = Ok n ->
    (backuptics c <=? u64_sub mt n) = false ->
    step (mkState m mt PIdle nt cp pub ans) (mkState m mt (PWrite h d 0) nt cp pub ans)
| step_publish_byte m mt nt cp pub ans h d k b :
    (h ++ d) !! k = Some b ->
    step (mkState m mt (PWrite h d k) nt cp pub ans)
         (mkState (<[(slot mt + k)%nat := b]> m) mt (PWrite h d (S k)) nt cp pub ans)
| step_publish_commit m m' mt nt cp pub ans h d k :
    k = List.length (h ++ d) ->
    atomic_store_u64 MAKETIC_OFFSET (u64_add mt 1) m = Ok m' ->
    step (mkState m mt (PWrite h d k) nt cp pub ans)
         (mkState m' (u64_add mt 1) PIdle nt cp (pub ++ [(h, d)]) ans)
| step_consume_empty m mt pp nt pub ans n :
    atomic_load_u64 MAKETIC_OFFSET m = Ok n -> (n =? nt) = true ->
    step (mkState m mt pp nt CIdle pub ans) (mkState m mt pp nt CIdle pub (ans ++ [(nt, Ok None)]))
| step_consume_begin m mt pp nt pub ans n :
    atomic_load_u64 MAKETIC_OFFSET m = Ok n -> (n =? nt) = false ->
    step (mkState m mt pp nt CIdle pub ans) (mkState m mt pp nt (CHead []) pub ans)
| step_consume_head m mt pp nt pub ans acc b :
    (List.length acc < PROBE_FRAME_HEADER_SIZE)%nat ->
    m !! (slot nt + List.length acc)%nat = Some b ->
    step (mkState m mt pp nt (CHead acc) pub ans) (mkState m mt pp nt (CHead (acc ++ [b])) pub ans)
| step_consume_check m mt pp nt pub ans acc size :
    List.length acc = PROBE_FRAME_HEADER_SIZE -> check_header c nt acc = Ok size ->
    step (mkState m mt pp nt (CHead acc) pub ans) (mkState m mt pp nt (CData acc size []) pub ans)
| step_consume_reject m mt pp nt pub ans acc e :
    List.length acc = PROBE_FRAME_HEADER_SIZE -> check_header c nt acc = Err e ->
    step (mkState m mt pp nt (CHead acc) pub ans) (mkState m mt pp nt CIdle pub (ans ++ [(nt, Err e)]))
| step_consume_data m mt pp nt pub ans h size acc b :
    Z.of_nat (List.length acc) < size ->
    m !! (slot nt + PROBE_FRAME_HEADER_SIZE + List.length acc)%nat = Some b ->
    step (mkState m mt pp nt (CData h size acc) pub ans) (mkState m mt pp nt (CData h size (acc ++ [b])) pub ans)
| step_consume_done m mt pp nt pub ans h size acc :
    Z.of_nat (List.length acc) = size ->
    step (mkState m mt pp nt (CData h size acc) pub ans)
         (mkState m mt pp nt CIdle pub (ans ++ [(nt, Ok (Some (mkConsumedFrame h acc)))]))
| step_advance m m' mt pp nt pub ans n count :
    (* the client advances only past published frames *)
    atomic_load_u64 MAKETIC_OFFSET m = Ok n -> 0 <= count <= n - nt ->
    atomic_store_u64 NETTICS_OFFSET (u64_add nt count) m = Ok m' ->
    step (mkState m mt pp nt CIdle pub ans) (mkState m' mt pp (u64_add nt count) CIdle pub ans).

Inductive reachable : state -> Prop :=
| reach_init m :
    init_control c (zeros (Z.to_nat (region_size c))) = Ok m ->
    reachable (mkState m 0 PIdle 0 CIdle [] [])
| reach_step s s' : reachable s -> step s s' -> reachable s'.

(** ** The invariant *)

Definition cursor (off : Z) (m : mem) : Z := from_le_bytes (slice (Z.to_nat off) 8 m).

Definition holds (m : mem) (position : Z) (f : frame) : Prop :=
  slice (slot position) (List.length (f.1 ++ f.2)) m = f.1 ++ f.2.

Definition answer_ok (pub : list frame) (a : Z * result ShmError (option ConsumedFrame)) : Prop :=
  match a.2 with
  | Ok None => True
  | Ok (Some f) => pub !! Z.to_nat a.1 = Some (cf_header f, cf_data f)
  | Err _ => False
  end.

Definition producer_ok (s : state) : Prop :=
  match ppc s with
  | PIdle => True
  | PWrite h d k =>
      well_framed c (maketic s) (h, d) /\ maketic s < nettics s + backuptics c /\
      (k <= List.length (h ++ d))%nat /\
      slice (slot (maketic s)) k (bytes s) = take k (h ++ d)
  end.

Definition consumer_ok (s : state) : Prop :=
  match cpc s with
  | CIdle => True
  | CHead acc =>
      exists h d, published s !! Z.to_nat (nettics s) = Some (h, d) /\
        acc = take (List.length acc) h /\ (List.length acc <= PROBE_FRAME_HEADER_SIZE)%nat
  | CData h size acc =>
      exists d, published s !! Z.to_nat (nettics s) = Some (h, d) /\
        size = Z.of_nat (List.length d) /\ acc = take (List.length acc) d /\
        (List.length acc <= List.length d)%nat
  end.

Record inv (s : state) : Prop := {
  i_len : mem_len (bytes s) = region_size c;
  i_mt_mem : cursor MAKETIC_OFFSET (bytes s) = maketic s;
  i_nt_mem : cursor NETTICS_OFFSET (bytes s) = nettics s;
  i_count : maketic s = Z.of_nat (List.length (published s));
  i_bounds : 0 <= nettics s <= maketic s /\ maketic s <= nettics s + backuptics c /\ maketic s <= U64_MAX;
  i_framed : forall i f, published s !! i = Some f -> well_framed c (Z.of_nat i) f;
  i_slots : forall i f, published s !! i = Some f -> nettics s <= Z.of_nat i -> holds (bytes s) (Z.of_nat i) f;
  i_producer : producer_ok s;
  i_consumer : consumer_ok s;
  i_answers : Forall (answer_ok (published s)) (answers s)
}.

End Machine.

(** ** Byte-level lemmas *)

Lemma slice_insert_out {A} o n i (b : A) m :
  (i < o \/ o + n <= i)%nat -> slice o n (<[i := b]> m) = slice o n m.
Proof. intros H. apply slice_ext. intros j Hj. apply list_lookup_insert_ne. lia. Qed.

Lemma slice_S {A} o k (b : A) m : m !! (o + k)%nat = Some b -> slice o (S k) m = slice o k m ++ [b].
Proof. intros H. unfold slice. apply take_S_r. by rewrite lookup_drop. Qed.

Lemma slice_insert_next {A} o k (b : A) m :
  (o + k < length m)%nat -> slice o (S k) (<[(o + k)%nat := b]> m) = slice o k m ++ [b].
Proof.
  intros H. erewrite slice_S by (by apply list_lookup_insert_eq).
  by rewrite slice_insert_out by lia.
Qed.

Lemma load_cursor off m n : atomic_load_u64 off m = Ok n -> n = cursor off m.
Proof.
  unfold atomic_load_u64, cursor. destruct (alignment_check off 8) as [[]|]; [|done].
  destruct (bounds_check (mem_len m) off 8) as [[]|]; [|done]. by intros [= <-].
Qed.

Lemma store_splice off v m m' :
  atomic_store_u64 off v m = Ok m' ->
  m' = splice (Z.to_nat off) (to_le_bytes 8 v) m /\ off + 8 <= mem_len m.
Proof.
  unfold atomic_store_u64. destruct (alignment_check off 8) as [[]|]; [|done].
  destruct (bounds_check (mem_len m) off 8) as [[]|] eqn:E; [|done].
  intros [= <-]. split; [done|]. by apply bounds_check_sound in E.
Qed.

Lemma cursor_store off v m m' :
  0 <= off -> u64_ok v -> atomic_store_u64 off v m = Ok m' -> cursor off m' = v.
Proof.
  intros H0 Hv [-> Hb]%store_splice. unfold cursor, mem_len in *.
  rewrite <- (length_to_le_bytes 8 v) at 1. rewrite slice_splice_same.
  - apply from_to_le_bytes. unfold_int. lia.
  - rewrite length_to_le_bytes. lia.
Qed.

Lemma slice_store_out off v m m' o n :
  0 <= off -> atomic_store_u64 off v m = Ok m' ->
  (Z.of_nat (o + n) <= off \/ off + 8 <= Z.of_nat o) -> slice o n m' = slice o n m.
Proof.
  intros H0 [-> Hb]%store_splice Ho. unfold mem_len in Hb.
  apply slice_splice_disjoint; rewrite length_to_le_bytes; lia.
Qed.

Lemma mem_len_store off v m m' :
  0 <= off -> atomic_store_u64 off v m = Ok m' -> mem_len m' = mem_len m.
Proof.
  intros H0 [-> Hb]%store_splice. unfold mem_len in *.
  rewrite length_splice; [done|]. rewrite length_to_le_bytes. lia.
Qed.

(** Project the fields of explicit states without unfolding anything else. *)
Ltac sproj := cbn [bytes maketic ppc nettics cpc published answers fst snd] in *.

Section Proofs.
Context (c : RingConfig) (Hc : config_ok c).

Lemma slot_bounds i :
  (Z.to_nat CONTROL_SIZE <= slot c i)%nat /\ (slot c i + Z.to_nat (slot_size c) <= Z.to_nat (region_size c))%nat.
Proof.
  destruct (slot_in_region c Hc i). pose proof (cfg_slot c Hc).
  unfold slot, HEADER, CONTROL_SIZE in *. lia.
Qed.

Lemma framed_length i f :
  well_framed c i f -> (List.length (f.1 ++ f.2) <= Z.to_nat (slot_size c))%nat.
Proof.
  intros (H1 & H2 & _). rewrite (slot_data_capacity_eq c Hc) in H2.
  rewrite length_app, H1. unfold HEADER in *. lia.
Qed.

Lemma slots_apart i j :
  i <> j -> Z.abs (i - j) < backuptics c ->
  (slot c i + Z.to_nat (slot_size c) <= slot c j \/ slot c j + Z.to_nat (slot_size c) <= slot c i)%nat.
Proof.
  intros H1 H2. pose proof (slot_disjoint c Hc i j H1 H2).
  destruct (slot_in_region c Hc i), (slot_in_region c Hc j). pose proof (cfg_slot c Hc).
  unfold slot, HEADER, CONTROL_SIZE in *. lia.
Qed.

(** The frame at the consumer's position, byte by byte. *)
Lemma current_frame s h d :
  inv c s -> published s !! Z.to_nat (nettics s) = Some (h, d) ->
  well_framed c (nettics s) (h, d) /\ slice (slot c (nettics s)) (List.length (h ++ d)) (bytes s) = h ++ d.
Proof.
  intros I E. pose proof (i_bounds c s I) as Hb.
  pose proof (i_framed c s I _ _ E) as Hf. pose proof (i_slots c s I _ _ E ltac:(lia)) as Hs.
  unfold holds in Hs. rewrite Z2Nat.id in * by lia. done.
Qed.

Lemma frame_byte s h d k b :
  inv c s -> published s !! Z.to_nat (nettics s) = Some (h, d) ->
  (k < List.length (h ++ d))%nat -> bytes s !! (slot c (nettics s) + k)%nat = Some b ->
  (h ++ d) !! k = Some b.
Proof.
  intros I E Hk Hb. destruct (current_frame s h d I E) as [_ Hs].
  rewrite <- Hs. unfold slice. by rewrite lookup_take_lt, lookup_drop by done.
Qed.

(** A step of the consumer that touches neither the bytes nor the cursors. *)
Lemma inv_consumer_step m mt pp nt cp cp' pub ans extra :
  inv c (mkState m mt pp nt cp pub ans) ->
  consumer_ok (mkState m mt pp nt cp' pub (ans ++ extra)) ->
  Forall (answer_ok pub) extra ->
  inv c (mkState m mt pp nt cp' pub (ans ++ extra)).
Proof. intros [] Hcp He. split; try done. by apply Forall_app_2. Qed.

Lemma take_snoc_step {A} (l : list A) acc b :
  acc = take (length acc) l -> l !! length acc = Some b ->
  acc ++ [b] = take (length (acc ++ [b])) l.
Proof.
  intros E Hb. rewrite length_app. cbn. rewrite Nat.add_1_r, (take_S_r _ _ _ Hb).
  by rewrite <- E.
Qed.

Lemma check_header_framed i h d :
  well_framed c i (h, d) -> check_header c i h = Ok (Z.of_nat (List.length d)).
Proof.
  intros (_ & Hcap & Hsz & Hgen). cbn [fst snd] in *. unfold check_header. rewrite Hsz, Hgen.
  rewrite (proj2 (Z.ltb_ge _ _)) by lia. by rewrite Z.eqb_refl.
Qed.

Lemma inv_publish_begin m mt nt cp pub ans h d n :
  inv c (mkState m mt PIdle nt cp pub ans) ->
  well_framed c mt (h, d) -> atomic_load_u64 NETTICS_OFFSET m = Ok n ->
  (backuptics c <=? u64_sub mt n) = false ->
  inv c (mkState m mt (PWrite h d 0) nt cp pub ans).
Proof.
  intros I Hf Hn%load_cursor Hfull. pose proof (i_nt_mem c _ I) as Hnt. pose proof (i_bounds c _ I) as Hb.
  cbn [bytes maketic nettics] in *. rewrite Hnt in Hn. subst n. rewrite u64_sub_small in Hfull by lia.
  destruct I; split; try done. unfold producer_ok; sproj. split_and!; [done|lia|lia|done].
Qed.

Lemma inv_publish_byte m mt nt cp pub ans h d k b :
  inv c (mkState m mt (PWrite h d k) nt cp pub ans) -> (h ++ d) !! k = Some b ->
  inv c (mkState (<[(slot c mt + k)%nat := b]> m) mt (PWrite h d (S k)) nt cp pub ans).
Proof.
  intros I Hk. pose proof (i_producer c _ I) as (Hf & Hroom & Hkl & Hpre).
  pose proof (i_bounds c _ I) as Hb. pose proof (i_len c _ I) as Hlen. pose proof (i_count c _ I) as Hcnt.
  pose proof (i_framed c _ I) as Hframed.
  sproj. pose proof (framed_length _ _ Hf) as Hfl. sproj.
  destruct (slot_bounds mt) as [Hs1 Hs2]. apply lookup_lt_Some in Hk as Hkl'.
  assert (slot c mt + k < List.length m)%nat as Hin by (unfold mem_len in Hlen; lia).
  unfold CONTROL_SIZE, mem_len in *.
  destruct I as [_ Hm Hn _ _ _ Hsl _ Hcp Ha]; sproj. split; sproj; try done.
  - unfold mem_len. by rewrite length_insert.
  - unfold cursor, MAKETIC_OFFSET in *. by rewrite slice_insert_out by lia.
  - unfold cursor, NETTICS_OFFSET in *. by rewrite slice_insert_out by lia.
  - intros i f Hi Hni. apply lookup_lt_Some in Hi as Hil. unfold holds.
    pose proof (framed_length _ _ (Hframed _ _ Hi)).
    destruct (slots_apart mt (Z.of_nat i)); [lia|lia| |]; rewrite slice_insert_out by lia; by apply Hsl.
  - unfold producer_ok; sproj. split_and!; [done|done|lia|].
    rewrite slice_insert_next by done. by rewrite (take_S_r _ _ _ Hk), Hpre.
Qed.

Lemma inv_publish_commit m m' mt nt cp pub ans h d :
  inv c (mkState m mt (PWrite h d (List.length (h ++ d))) nt cp pub ans) -> mt < U64_MAX ->
  atomic_store_u64 MAKETIC_OFFSET (u64_add mt 1) m = Ok m' ->
  inv c (mkState m' (u64_add mt 1) PIdle nt cp (pub ++ [(h, d)]) ans).
Proof.
  intros I Hmax Hst. pose proof (i_producer c _ I) as (Hf & Hroom & _ & Hpre).
  destruct I as [Hlen Hm Hn Hcnt Hb Hframed Hsl _ Hcp Ha]; sproj.
  rewrite u64_add_small in * by lia. rewrite take_ge in Hpre by done.
  assert (forall i n, slice (slot c i) n m' = slice (slot c i) n m) as Hslice.
  { intros i n. destruct (slot_bounds i). unfold MAKETIC_OFFSET, CONTROL_SIZE in *.
    eapply slice_store_out; [|exact Hst|]; lia. }
  split; sproj; try done.
  - erewrite mem_len_store; [done| |exact Hst]. done.
  - eapply cursor_store; [done| |exact Hst]. unfold_int. lia.
  - unfold cursor in *. erewrite slice_store_out; [exact Hn| |exact Hst|]; unfold NETTICS_OFFSET, MAKETIC_OFFSET; lia.
  - rewrite length_app. cbn. lia.
  - lia.
  - intros i f [Hi|[Hi [Hi0 <-]%list_lookup_singleton_Some]]%lookup_app_Some; [by apply Hframed|].
    replace (Z.of_nat i) with mt by lia. done.
  - intros i f Hi Hni. unfold holds. rewrite Hslice.
    apply lookup_app_Some in Hi as [Hi|[Hi [Hi0 <-]%list_lookup_singleton_Some]]; [by apply Hsl|].
    replace (Z.of_nat i) with mt by lia. done.
  - unfold consumer_ok in *; sproj. destruct cp; [done| |].
    + destruct Hcp as (h0 & d0 & E & ?). exists h0, d0. split; [by apply lookup_app_l_Some|done].
    + destruct Hcp as (d0 & E & ?). exists d0. split; [by apply lookup_app_l_Some|done].
  - eapply Forall_impl; [exact Ha|]. intros [i [[f|]|e]] H; try done. unfold answer_ok in *; sproj.
    by apply lookup_app_l_Some.
Qed.

Lemma inv_advance m m' mt pp nt pub ans n count :
  inv c (mkState m mt pp nt CIdle pub ans) ->
  atomic_load_u64 MAKETIC_OFFSET m = Ok n -> 0 <= count <= n - nt ->
  atomic_store_u64 NETTICS_OFFSET (u64_add nt count) m = Ok m' ->
  inv c (mkState m' mt pp (u64_add nt count) CIdle pub ans).
Proof.
  intros I Hn%load_cursor Hcount Hst.
  destruct I as [Hlen Hm Hnt Hcnt Hb Hframed Hsl Hp Hcp Ha]; sproj.
  rewrite Hm in Hn. subst n. rewrite u64_add_small in * by lia.
  assert (forall i k, slice (slot c i) k m' = slice (slot c i) k m) as Hslice.
  { intros i k. destruct (slot_bounds i). unfold NETTICS_OFFSET, CONTROL_SIZE in *.
    eapply slice_store_out; [|exact Hst|]; lia. }
  split; sproj; try done.
  - erewrite mem_len_store; [done| |exact Hst]. done.
  - unfold cursor in *. erewrite slice_store_out; [exact Hm| |exact Hst|]; unfold NETTICS_OFFSET, MAKETIC_OFFSET; lia.
  - eapply cursor_store; [done| |exact Hst]. unfold_int. lia.
  - lia.
  - intros i f Hi Hni. unfold holds. rewrite Hslice. apply Hsl; [done|lia].
  - unfold producer_ok in *; sproj. destruct pp; [done|]. rewrite Hslice.
    destruct Hp as (?&?&?&?). split_and!; try done. lia.
Qed.

(** The header under construction is a prefix of the current frame's header. *)
Lemma consumer_head_byte m mt pp nt pub ans acc b :
  inv c (mkState m mt pp nt (CHead acc) pub ans) ->
  (List.length acc < PROBE_FRAME_HEADER_SIZE)%nat -> m !! (slot c nt + List.length acc)%nat = Some b ->
  consumer_ok (mkState m mt pp nt (CHead (acc ++ [b])) pub ans).
Proof.
  intros I Hacc Hb. destruct (i_consumer c _ I) as (h & d & E & Hpre & _). sproj.
  destruct (current_frame _ h d I E) as [(Hh & _) _]. sproj.
  assert (h !! List.length acc = Some b) as Hhb.
  { rewrite <- (lookup_app_l h d) by lia. eapply frame_byte; [exact I|exact E| |exact Hb].
    rewrite length_app. lia. }
  exists h, d. sproj. split_and!; [done|by apply take_snoc_step|rewrite length_app; cbn; lia].
Qed.

(** A completely read header passes the checks. *)
Lemma consumer_head_full m mt pp nt pub ans acc :
  inv c (mkState m mt pp nt (CHead acc) pub ans) -> List.length acc = PROBE_FRAME_HEADER_SIZE ->
  exists d, pub !! Z.to_nat nt = Some (acc, d) /\ check_header c nt acc = Ok (Z.of_nat (List.length d)).
Proof.
  intros I Hacc. destruct (i_consumer c _ I) as (h & d & E & Hpre & _). sproj.
  destruct (current_frame _ h d I E) as [Hf _]. sproj. pose proof Hf as (Hh & _). sproj.
  rewrite Hacc, <- Hh, take_ge in Hpre by done. subst acc.
  exists d. split; [done|]. by apply check_header_framed.
Qed.

Lemma consumer_data_byte m mt pp nt pub ans h size acc b :
  inv c (mkState m mt pp nt (CData h size acc) pub ans) -> Z.of_nat (List.length acc) < size ->
  m !! (slot c nt + PROBE_FRAME_HEADER_SIZE + List.length acc)%nat = Some b ->
  consumer_ok (mkState m mt pp nt (CData h size (acc ++ [b])) pub ans).
Proof.
  intros I Hacc Hb. destruct (i_consumer c _ I) as (d & E & -> & Hpre & _). sproj.
  destruct (current_frame _ h d I E) as [(Hh & _) _]. sproj.
  assert (d !! List.length acc = Some b) as Hdb.
  { pose proof (frame_byte _ h d (PROBE_FRAME_HEADER_SIZE + List.length acc) b I E) as Hfb. sproj.
    rewrite lookup_app_r in Hfb by lia. rewrite Hh in Hfb.
    replace (PROBE_FRAME_HEADER_SIZE + List.length acc - PROBE_FRAME_HEADER_SIZE)%nat with (List.length acc) in Hfb by lia.
    apply Hfb; [rewrite length_app; lia|]. by rewrite Nat.add_assoc. }
  exists d. sproj. split_and!; [done|done|by apply take_snoc_step|rewrite length_app; cbn; lia].
Qed.

Lemma consumer_data_full m mt pp nt pub ans h acc :
  inv c (mkState m mt pp nt (CData h (Z.of_nat (List.length acc)) acc) pub ans) ->
  pub !! Z.to_nat nt = Some (h, acc).
Proof.
  intros I. destruct (i_consumer c _ I) as (d & E & Hsz & Hpre & _). sproj.
  replace (List.length acc) with (List.length d) in Hpre by lia. rewrite take_ge in Hpre by lia. by subst acc.
Qed.

(** Every step preserves the invariant, up to 2^64 - 1 published frames. *)
Lemma inv_step s s' :
  inv c s -> step c s s' -> Z.of_nat (List.length (published s')) <= U64_MAX -> inv c s'.
Proof.
  intros I Hst Hmax.
  destruct Hst as [m mt nt cp pub ans h d n Hf Hl Hfull|m mt nt cp pub ans h d k b Hk
    |m m' mt nt cp pub ans h d k -> Hst|m mt pp nt pub ans n Hl Hn|m mt pp nt pub ans n Hl Hn
    |m mt pp nt pub ans acc b Hacc Hb|m mt pp nt pub ans acc size Hacc Hck|m mt pp nt pub ans acc e Hacc Hck
    |m mt pp nt pub ans h size acc b Hacc Hb|m mt pp nt pub ans h size acc Hacc
    |m m' mt pp nt pub ans n count Hl Hcount Hst].
  - by eapply inv_publish_begin.
  - by eapply inv_publish_byte.
  - eapply inv_publish_commit; [exact I| |exact Hst]. pose proof (i_count c _ I) as E. sproj.
    rewrite length_app in Hmax. cbn in Hmax. lia.
  - apply (inv_consumer_step _ _ _ _ CIdle CIdle); [done|done|]. by repeat constructor.
  - apply load_cursor in Hl. rewrite <- (app_nil_r ans). eapply inv_consumer_step; [exact I| |constructor].
    pose proof (i_mt_mem c _ I). pose proof (i_bounds c _ I). pose proof (i_count c _ I). sproj.
    destruct (lookup_lt_is_Some_2 pub (Z.to_nat nt)) as [[h d] E]; [lia|].
    exists h, d. split_and!; [done|done|cbn; lia].
  - rewrite <- (app_nil_r ans). eapply inv_consumer_step; [exact I| |constructor].
    rewrite app_nil_r. by eapply consumer_head_byte.
  - rewrite <- (app_nil_r ans). eapply inv_consumer_step; [exact I| |constructor].
    destruct (consumer_head_full _ _ _ _ _ _ _ I Hacc) as (d & E & Hd). rewrite Hd in Hck. injection Hck as <-.
    exists d. sproj. split_and!; [done|done|done|cbn; lia].
  - destruct (consumer_head_full _ _ _ _ _ _ _ I Hacc) as (d & E & Hd). by rewrite Hd in Hck.
  - rewrite <- (app_nil_r ans). eapply inv_consumer_step; [exact I| |constructor].
    rewrite app_nil_r. by eapply consumer_data_byte.
  - subst size. eapply inv_consumer_step; [exact I|done|]. apply consumer_data_full in I.
    by repeat constructor.
  - by eapply inv_advance.
Qed.

Lemma published_mono s s' : step c s s' -> (List.length (published s) <= List.length (published s'))%nat.
Proof. destruct 1; sproj; rewrite ?length_app; lia. Qed.


(** *** Initial state *)

Lemma length_zeros n : List.length (zeros n) = n.
Proof. apply repeat_length. Qed.

Lemma write_bytes_ok off bs m :
  0 <= off -> off + Z.of_nat (List.length bs) <= mem_len m -> mem_len m <= U64_MAX ->
  write_bytes off bs m = Ok (splice (Z.to_nat off) bs m).
Proof. intros. unfold write_bytes. by rewrite bounds_check_ok by lia. Qed.

Lemma store_ok off v m :
  0 <= off -> off mod 8 = 0 -> off + 8 <= mem_len m -> mem_len m <= U64_MAX ->
  exists m', atomic_store_u64 off v m = Ok m'.
Proof.
  intros H0 H8 ? ?. unfold atomic_store_u64, alignment_check. rewrite H8. cbn [Z.eqb].
  rewrite bounds_check_ok by lia. by eexists.
Qed.

Lemma mem_len_write off bs m m' : 0 <= off -> write_bytes off bs m = Ok m' -> mem_len m' = mem_len m.
Proof.
  intros H0. unfold write_bytes. destruct (bounds_check _ _ _) as [[]|] eqn:E; [|done]. intros [= <-].
  apply bounds_check_sound in E. unfold mem_len in *. rewrite length_splice; [done|lia].
Qed.

Lemma write_magic_bytes m : write_magic m = write_bytes MAGIC_OFFSET MAGIC m.
Proof. reflexivity. Qed.

Lemma region_size_range : CONTROL_SIZE + HEADER <= region_size c <= U64_MAX.
Proof.
  rewrite (region_size_eq c Hc). pose proof (backuptics_pos c Hc). pose proof (cfg_slot c Hc).
  pose proof (cfg_total c Hc). unfold HEADER, PROBE_FRAME_HEADER_SIZE in *. nia.
Qed.

Lemma slice_write_out off bs m m' o n :
  0 <= off -> write_bytes off bs m = Ok m' ->
  (Z.of_nat (o + n) <= off \/ off + Z.of_nat (List.length bs) <= Z.of_nat o) -> slice o n m' = slice o n m.
Proof.
  intros H0. unfold write_bytes. destruct (bounds_check _ _ _) as [[]|] eqn:E; [|done]. intros [= <-] Ho.
  apply bounds_check_sound in E. unfold mem_len in E. apply slice_splice_disjoint; lia.
Qed.

Lemma init_control_cursors m :
  init_control c (zeros (Z.to_nat (region_size c))) = Ok m ->
  mem_len m = region_size c /\ cursor MAKETIC_OFFSET m = 0 /\ cursor NETTICS_OFFSET m = 0.
Proof.
  pose proof region_size_range as Hr. unfold CONTROL_SIZE, HEADER in Hr. unfold init_control.
  assert (mem_len (zeros (Z.to_nat (region_size c))) = region_size c) as Hl
    by (unfold mem_len; rewrite length_zeros; lia).
  destruct (write_bytes VERSION_OFFSET _ _) as [m1|] eqn:E1; [|done]. apply mem_len_write in E1; [|done].
  destruct (write_bytes SLOT_COUNT_OFFSET _ _) as [m2|] eqn:E2; [|done]. apply mem_len_write in E2; [|done].
  destruct (write_bytes SLOT_SIZE_OFFSET _ _) as [m3|] eqn:E3; [|done]. apply mem_len_write in E3; [|done].
  destruct (write_bytes REGION_SIZE_OFFSET _ _) as [m4|] eqn:E4; [|done]. apply mem_len_write in E4; [|done].
  destruct (atomic_store_u64 MAKETIC_OFFSET _ _) as [m5|] eqn:E5; [|done].
  destruct (atomic_store_u64 NETTICS_OFFSET _ _) as [m6|] eqn:E6; [|done].
  rewrite write_magic_bytes. intros E7.
  pose proof (mem_len_store MAKETIC_OFFSET _ _ _ ltac:(done) E5). pose proof (mem_len_store NETTICS_OFFSET _ _ _ ltac:(done) E6).
  pose proof (mem_len_write MAGIC_OFFSET _ _ _ ltac:(done) E7). split; [lia|].
  assert (forall off, 8 <= off -> cursor off m = cursor off m6) as Hmag.
  { intros off Ho. unfold cursor. f_equal. eapply slice_write_out; [|exact E7|]; [done|].
    unfold MAGIC_OFFSET. cbn [List.length MAGIC]. lia. }
  rewrite !Hmag by done. split.
  - unfold cursor. erewrite (slice_store_out NETTICS_OFFSET); [|done|exact E6|left; unfold MAKETIC_OFFSET, NETTICS_OFFSET; lia].
    eapply cursor_store; [done| |exact E5]. unfold_int; lia.
  - eapply cursor_store; [done| |exact E6]. unfold_int; lia.
Qed.

Lemma inv_init m :
  init_control c (zeros (Z.to_nat (region_size c))) = Ok m -> inv c (mkState m 0 PIdle 0 CIdle [] []).
Proof.
  intros (Hl & Hm & Hn)%init_control_cursors. pose proof (backuptics_pos c Hc).
  split; sproj; try done. unfold_int. lia.
Qed.

Lemma reachable_inv s :
  reachable c s -> Z.of_nat (List.length (published s)) <= U64_MAX -> inv c s.
Proof.
  induction 1 as [m Hm|s s' Hr IH Hst]; intros Hb; [by apply inv_init|].
  eapply inv_step; [|exact Hst|done]. apply IH. pose proof (published_mono _ _ Hst). lia.
Qed.

End Proofs.

(** ** Whole calls are runs of the machine *)

Lemma splice_nil {A} o (m : list A) : splice o [] m = m.
Proof. unfold splice. cbn. by rewrite Nat.add_0_r, take_drop. Qed.

Lemma splice_snoc {A} o k b (l m : list A) :
  (o + length l <= length m)%nat -> l !! k = Some b ->
  <[(o + k)%nat := b]> (splice o (take k l) m) = splice o (take (S k) l) m.
Proof.
  intros Hlen Hk. apply lookup_lt_Some in Hk as Hkl. apply list_eq. intros i.
  assert (length (take k l) = k /\ length (take (S k) l) = S k) as [E1 E2] by (rewrite !length_take; lia).
  destruct (decide (i = (o + k)%nat)) as [->|Hi].
  - rewrite list_lookup_insert_eq by (rewrite length_splice; lia). rewrite lookup_splice_in by lia.
    rewrite lookup_take_lt by lia. by replace (o + k - o)%nat with k by lia.
  - rewrite list_lookup_insert_ne by done. destruct (decide (i < o \/ o + S k <= i)%nat).
    + by rewrite !lookup_splice_out by lia.
    + rewrite !lookup_splice_in by lia. by rewrite !lookup_take_lt by lia.
Qed.

Lemma splice_app {A} o (a b m : list A) :
  (o + length (a ++ b) <= length m)%nat -> splice (o + length a) b (splice o a m) = splice o (a ++ b) m.
Proof.
  intros H. pose proof (length_app a b). apply list_eq. intros i.
  assert (length (splice o a m) = length m) by (apply length_splice; lia).
  destruct (decide (i < o \/ o + length (a ++ b) <= i)%nat).
  - rewrite !lookup_splice_out by lia. done.
  - rewrite (lookup_splice_in o (a ++ b)) by lia. destruct (decide (i < o + length a)%nat).
    + rewrite lookup_splice_out, lookup_splice_in, lookup_app_l by lia. done.
    + rewrite lookup_splice_in, lookup_app_r by lia. f_equal. lia.
Qed.

Section Calls.
Context (c : RingConfig) (Hc : config_ok c).

Lemma run_bytes m mt nt cp pub ans h d k :
  (slot c mt + List.length (h ++ d) <= List.length m)%nat -> (k <= List.length (h ++ d))%nat ->
  rtc (step c) (mkState m mt (PWrite h d 0) nt cp pub ans)
    (mkState (splice (slot c mt) (take k (h ++ d)) m) mt (PWrite h d k) nt cp pub ans).
Proof.
  intros Hb. induction k as [|k IH]; intros Hk; [rewrite take_0, splice_nil; reflexivity|].
  etrans; [apply IH; lia|]. apply rtc_once.
  destruct (lookup_lt_is_Some_2 (h ++ d) k) as [b Eb]; [lia|].
  rewrite <- (splice_snoc _ _ _ _ _ Hb Eb). by constructor.
Qed.

Lemma load_ok off m :
  0 <= off -> off mod 8 = 0 -> off + 8 <= mem_len m -> mem_len m <= U64_MAX ->
  atomic_load_u64 off m = Ok (cursor off m).
Proof.
  intros H0 H8 ? ?. unfold atomic_load_u64, alignment_check. rewrite H8. cbn [Z.eqb].
  by rewrite bounds_check_ok by lia.
Qed.

Lemma inv_loads s :
  inv c s -> atomic_load_u64 NETTICS_OFFSET (bytes s) = Ok (nettics s) /\
             atomic_load_u64 MAKETIC_OFFSET (bytes s) = Ok (maketic s).
Proof.
  intros I. pose proof (region_size_range c Hc) as Hr. pose proof (i_len c s I) as Hl.
  unfold CONTROL_SIZE, HEADER in Hr. rewrite <- (i_nt_mem c s I), <- (i_mt_mem c s I).
  split; apply load_ok; unfold NETTICS_OFFSET, MAKETIC_OFFSET; done || lia.
Qed.

(** The slot of a position as the code addresses it. *)
Lemma slot_addresses i :
  0 <= slot_offset c i /\ Z.to_nat (slot_offset c i) = slot c i /\
  u64_add (slot_offset c i) HEADER = slot_offset c i + HEADER /\
  Z.to_nat (slot_offset c i + HEADER) = (slot c i + PROBE_FRAME_HEADER_SIZE)%nat /\
  slot_offset c i + slot_size c <= region_size c.
Proof.
  destruct (slot_in_region c Hc i). pose proof (region_size_range c Hc). pose proof (cfg_slot c Hc).
  unfold CONTROL_SIZE, HEADER, PROBE_FRAME_HEADER_SIZE, slot in *.
  split_and!; try lia. apply u64_add_small; lia.
Qed.

(** [publish] with room: it succeeds and is a run of the machine. *)
Lemma publish_run m mt nt cp pub ans h d :
  inv c (mkState m mt PIdle nt cp pub ans) -> mt < U64_MAX ->
  well_framed c mt (h, d) -> mt - nt < backuptics c ->
  exists m', publish c mt h d m = Some (Ok mt, mt + 1, m') /\
    rtc (step c) (mkState m mt PIdle nt cp pub ans) (mkState m' (mt + 1) PIdle nt cp (pub ++ [(h, d)]) ans).
Proof.
  intros I Hmax Hf Hroom. destruct (inv_loads _ I) as [Hld _]. pose proof (i_bounds c _ I) as Hb.
  pose proof (i_len c _ I) as Hlen. sproj. destruct (slot_addresses mt) as (Ha0 & Ha1 & Ha2 & Ha3 & Ha4).
  pose proof (region_size_range c Hc) as Hr. pose proof (framed_length c Hc _ _ Hf) as Hfl.
  pose proof Hf as (Hh & Hcap & _). sproj. pose proof (length_app h d) as Happ.
  pose proof (cfg_slot c Hc). unfold HEADER, CONTROL_SIZE, mem_len in *.
  assert (u64_sub mt nt = mt - nt) as Hsub by (apply u64_sub_small; lia).
  assert (u64_add mt 1 = mt + 1) as Hadd by (apply u64_add_small; lia).
  set (m2 := splice (slot c mt) (h ++ d) m).
  assert (List.length m2 = List.length m) as Hm2 by (apply length_splice; lia).
  destruct (store_ok MAKETIC_OFFSET (mt + 1) m2) as [m' Hst]; [done|done|unfold mem_len, MAKETIC_OFFSET; lia..|].
  exists m'. split.
  - unfold publish, HEADER. rewrite Hh, Nat.eqb_refl. cbn [negb].
    rewrite (proj2 (Z.ltb_ge _ _)) by done. rewrite Hld, Hsub, (proj2 (Z.leb_gt _ _)) by done.
    rewrite write_bytes_ok by (unfold mem_len; lia). rewrite Ha1.
    rewrite (write_bytes_ok (u64_add _ _)), Ha2, Ha3
      by (rewrite ?Ha2; unfold HEADER, mem_len; rewrite ?length_splice by lia; lia).
    rewrite <- Hh, splice_app by lia. fold m2. rewrite Hadd, Hst.
    rewrite u64_sub_small by lia. by rewrite Z.add_simpl_r.
  - eapply rtc_l; [eapply step_publish_begin; [exact Hf|exact Hld|]|].
    { rewrite Hsub. apply Z.leb_gt. done. }
    etrans; [apply (run_bytes _ _ _ _ _ _ _ _ (List.length (h ++ d))); lia|].
    rewrite take_ge by done. fold m2. rewrite <- Hadd. apply rtc_once.
    apply step_publish_commit; [done|]. by rewrite Hadd.
Qed.

Lemma read_bytes_ok off n m :
  0 <= off -> 0 <= n -> off + n <= mem_len m -> mem_len m <= U64_MAX ->
  read_bytes off n m = Ok (slice (Z.to_nat off) (Z.to_nat n) m).
Proof. intros. unfold read_bytes. by rewrite bounds_check_ok by lia. Qed.

Definition to_consumed (f : frame) : ConsumedFrame := mkConsumedFrame f.1 f.2.

(** [try_consume] answers with the frame at the cursor, if there is one. *)
Lemma try_consume_frame s :
  inv c s -> try_consume c (nettics s) (bytes s) = Ok (to_consumed <$> published s !! Z.to_nat (nettics s)).
Proof.
  intros I. destruct (inv_loads _ I) as [_ Hld]. pose proof (i_bounds c _ I) as Hb.
  pose proof (i_count c _ I) as Hcnt. pose proof (i_len c _ I) as Hlen.
  unfold try_consume, HEADER. rewrite Hld. destruct (Z.eqb_spec (maketic s) (nettics s)) as [E|E].
  { rewrite lookup_ge_None_2 by lia. done. }
  destruct (lookup_lt_is_Some_2 (published s) (Z.to_nat (nettics s))) as [[h d] Ef]; [lia|]. rewrite Ef.
  destruct (current_frame c s h d I Ef) as [Hf Hs]. pose proof (framed_length c Hc _ _ Hf) as Hfl.
  pose proof Hf as (Hh & Hcap & _). cbn [fst snd] in *. rewrite length_app in Hfl, Hs.
  destruct (slot_addresses (nettics s)) as (Ha0 & Ha1 & Ha2 & Ha3 & Ha4).
  pose proof (region_size_range c Hc) as Hr. pose proof (cfg_slot c Hc). unfold HEADER in *.
  rewrite read_bytes_ok by lia. rewrite Ha1, Nat2Z.id.
  assert (slice (slot c (nettics s)) PROBE_FRAME_HEADER_SIZE (bytes s) = h) as ->.
  { replace (slot c (nettics s)) with (slot c (nettics s) + 0)%nat by lia.
    rewrite <- (slice_slice _ (List.length h + List.length d)) by lia. rewrite Hs.
    rewrite slice_0, <- Hh. apply take_app_length. }
  rewrite (check_header_framed c _ _ _ Hf). rewrite read_bytes_ok by (rewrite ?Ha2; lia).
  rewrite Ha2, Ha3, Nat2Z.id. cbn. do 3 f_equal.
  rewrite <- (slice_slice _ (List.length h + List.length d)) by lia. rewrite Hs.
  unfold slice. rewrite <- Hh, drop_app_length.
  by rewrite firstn_all.
Qed.

Lemma reachable_rtc s s' : reachable c s -> rtc (step c) s s' -> reachable c s'.
Proof. intros Hr Hst. induction Hst as [|s1 s2 s3 H _ IH]; [done|]. apply IH. by eapply reach_step. Qed.

Lemma init_control_ok : exists m, init_control c (zeros (Z.to_nat (region_size c))) = Ok m.
Proof.
  pose proof (region_size_range c Hc) as Hr. unfold CONTROL_SIZE, HEADER in Hr.
  set (m0 := zeros (Z.to_nat (region_size c))).
  assert (mem_len m0 = region_size c) as Hl by (unfold mem_len, m0; rewrite length_zeros; lia).
  assert (forall off bs m, 0 <= off -> off + Z.of_nat (List.length bs) <= 4096 -> mem_len m = region_size c ->
    exists m', write_bytes off bs m = Ok m' /\ mem_len m' = region_size c) as W.
  { intros off bs m Ho Hb Hm. eexists. split; [apply write_bytes_ok; lia|].
    rewrite <- Hm. eapply mem_len_write; [exact Ho|]. apply write_bytes_ok; lia. }
  assert (forall off v m, 0 <= off -> off mod 8 = 0 -> off + 8 <= 4096 -> mem_len m = region_size c ->
    exists m', atomic_store_u64 off v m = Ok m' /\ mem_len m' = region_size c) as S.
  { intros off v m Ho H8 Hb Hm. destruct (store_ok off v m) as [m' E]; [lia..|]. exists m'. split; [done|].
    rewrite <- Hm. by eapply mem_len_store. }
  unfold init_control.
  repeat (edestruct W as (? & -> & ?);
    [| |eassumption|]; [done|rewrite length_to_le_bytes; unfold VERSION_OFFSET, SLOT_COUNT_OFFSET, SLOT_SIZE_OFFSET, REGION_SIZE_OFFSET; lia|]).
  do 2 (edestruct S as (? & -> & ?); [| | |eassumption|]; [done|done|unfold MAKETIC_OFFSET, NETTICS_OFFSET; lia|]).
  rewrite write_magic_bytes. edestruct W as (m' & E & _); [| |eassumption|exists m'; exact E]; [done|].
  unfold MAGIC_OFFSET; cbn; lia.
Qed.

End Calls.

(** C1: safety of the shared-memory ring.  However the byte copies and cursor
    accesses of the producer and the consumer interleave, every answer of
    [try_consume] is either "empty" or exactly the header and data that were
    published at the consumer's position: no torn, stale or out-of-bounds
    frame is ever returned, and no unconsumed frame is ever overwritten (at
    most [backuptics] frames are outstanding). *)
Theorem ring_no_torn_reads (c : RingConfig) (s : state) :
  config_ok c -> reachable c s -> Z.of_nat (List.length (published s)) <= U64_MAX ->
  (forall position r, (position, r) ∈ answers s ->
     r = Ok None \/
     exists h d, r = Ok (Some (mkConsumedFrame h d)) /\ published s !! Z.to_nat position = Some (h, d)) /\
  0 <= nettics s <= maketic s /\ maketic s - nettics s <= backuptics c /\
  maketic s = Z.of_nat (List.length (published s)) /\
  (forall i f, published s !! i = Some f -> nettics s <= Z.of_nat i -> holds c (bytes s) (Z.of_nat i) f).
Proof.
  intros Hc Hr Hb. pose proof (reachable_inv c Hc s Hr Hb) as I.
  pose proof (i_bounds c s I). split; [|split_and!; try lia; [apply I|apply I]].
  intros position r Hin. pose proof (i_answers c s I) as Ha. rewrite Forall_forall in Ha.
  specialize (Ha _ Hin). unfold answer_ok in Ha; cbn [fst snd] in Ha.
  destruct r as [[f|]|e]; [|by left|done]. right. exists (cf_header f), (cf_data f).
  split; [by destruct f|done].
Qed.

(** The byte address the producer writes next and the one the consumer reads
    next. *)
Definition writing (c : RingConfig) (s : state) : option nat :=
  match ppc s with
  | PWrite h d k => if Nat.ltb k (List.length (h ++ d)) then Some (slot c (maketic s) + k)%nat else None
  | PIdle => None
  end.
Definition reading (c : RingConfig) (s : state) : option nat :=
  match cpc s with
  | CHead acc => if Nat.ltb (List.length acc) PROBE_FRAME_HEADER_SIZE then Some (slot c (nettics s) + List.length acc)%nat else None
  | CData _ size acc =>
      if Z.of_nat (List.length acc) <? size then Some (slot c (nettics s) + PROBE_FRAME_HEADER_SIZE + List.length acc)%nat else None
  | CIdle => None
  end.

(** C2: the non-atomic byte copies of the two processes never race: whenever
    the producer is about to write one byte of a slot and the consumer is about
    to read one, the addresses differ, both lie behind the control block (so
    neither copy ever touches a cursor) and inside the mapping. *)
Theorem ring_race_free (c : RingConfig) (s : state) (w r : nat) :
  config_ok c -> reachable c s -> Z.of_nat (List.length (published s)) <= U64_MAX ->
  writing c s = Some w -> reading c s = Some r ->
  w <> r /\ (Z.to_nat CONTROL_SIZE <= w < List.length (bytes s))%nat /\
  (Z.to_nat CONTROL_SIZE <= r < List.length (bytes s))%nat.
Proof.
  intros Hc Hr Hb Hw Hrd. pose proof (reachable_inv c Hc s Hr Hb) as I.
  pose proof (i_producer c s I) as Hp. pose proof (i_consumer c s I) as Hcs.
  pose proof (i_bounds c s I) as Hbd. pose proof (i_len c s I) as Hlen. pose proof (i_count c s I) as Hcnt.
  unfold writing in Hw. unfold producer_ok in Hp. destruct (ppc s) as [|h d k]; [done|].
  destruct (Nat.ltb_spec k (List.length (h ++ d))) as [Hk|]; [|done]. injection Hw as <-.
  destruct Hp as (Hf & Hroom & _). pose proof (framed_length c Hc _ _ Hf) as Hfl. cbn [fst snd] in Hfl.
  assert (exists j, r = (slot c (nettics s) + j)%nat /\ (j < Z.to_nat (slot_size c))%nat /\ nettics s < maketic s) as (j & -> & Hj & Hlt).
  { unfold reading in Hrd. unfold consumer_ok in Hcs. destruct (cpc s) as [|acc|h' size acc]; [done| |].
    - destruct (Nat.ltb_spec (List.length acc) PROBE_FRAME_HEADER_SIZE) as [Ha|]; [|done]. injection Hrd as <-.
      destruct Hcs as (h' & d' & E & _). apply lookup_lt_Some in E as Hl.
      pose proof (cfg_slot c Hc). unfold HEADER in *. eexists; split_and!; [done|lia|lia].
    - destruct (Z.ltb_spec (Z.of_nat (List.length acc)) size) as [Ha|]; [|done]. injection Hrd as <-.
      destruct Hcs as (d' & E & -> & _). apply lookup_lt_Some in E as Hl.
      pose proof (framed_length c Hc _ _ (i_framed c s I _ _ E)) as Hfl'. pose proof (i_framed c s I _ _ E) as (Hh & _).
      cbn [fst snd] in *. rewrite length_app in Hfl'.
      exists (PROBE_FRAME_HEADER_SIZE + List.length acc)%nat. split_and!; lia. }
  destruct (slots_apart c Hc (maketic s) (nettics s)); [lia|lia| |];
    destruct (slot_bounds c Hc (maketic s)), (slot_bounds c Hc (nettics s)); unfold mem_len in Hlen; lia.
Qed.

(** C3: whole calls refine a bounded FIFO queue.  In any reachable state with
    both processes between calls, [try_consume] returns the oldest unconsumed
    frame (or none); [publish] of a well-framed tensor is refused with
    [RingFull] exactly when [backuptics] frames are outstanding, and otherwise
    succeeds, returns the position, appends the frame and leads to a reachable
    state; [advance_by] within the published frames drops them. *)
Theorem ring_calls_refine_queue (c : RingConfig) (m : mem) (mt nt : Z) (pub : list frame) ans :
  config_ok c -> Z.of_nat (List.length pub) < U64_MAX ->
  reachable c (mkState m mt PIdle nt CIdle pub ans) ->
  try_consume c nt m = Ok (to_consumed <$> pub !! Z.to_nat nt) /\
  (forall h d, well_framed c mt (h, d) ->
     if mt - nt <? backuptics c
     then exists m', publish c mt h d m = Some (Ok mt, mt + 1, m') /\
            reachable c (mkState m' (mt + 1) PIdle nt CIdle (pub ++ [(h, d)]) ans)
     else publish c mt h d m = Some (Err (RingFull mt nt (backuptics c)), mt, m)) /\
  (forall count, 0 <= count <= mt - nt ->
     exists m', advance_by nt count m = (Ok tt, nt + count, m') /\
       reachable c (mkState m' mt PIdle (nt + count) CIdle pub ans)).
Proof.
  intros Hc Hb Hr. pose proof (reachable_inv c Hc _ Hr) as I. cbn [published] in I. specialize (I ltac:(lia)).
  pose proof (i_bounds c _ I) as Hbd. pose proof (i_count c _ I) as Hcnt. destruct (inv_loads c Hc _ I) as [Hn Hm]. sproj.
  split; [exact (try_consume_frame c Hc _ I)|]. split.
  - intros h d Hf. destruct (Z.ltb_spec (mt - nt) (backuptics c)) as [Hroom|Hfull].
    + destruct (publish_run c Hc _ _ _ _ _ _ h d I) as (m' & Hp & Hrun); [lia|done|done|].
      exists m'. split; [done|]. by eapply reachable_rtc.
    + unfold publish. pose proof Hf as (Hh & Hcap & _). sproj. rewrite Hh, Nat.eqb_refl. cbn [negb].
      rewrite (proj2 (Z.ltb_ge _ _)) by done. rewrite Hn, u64_sub_small by lia.
      by rewrite (proj2 (Z.leb_le _ _)) by lia.
  - intros count Hcount. pose proof (region_size_range c Hc) as Hrs. pose proof (i_len c _ I) as Hlen.
    sproj. unfold CONTROL_SIZE, HEADER in Hrs.
    destruct (store_ok NETTICS_OFFSET (u64_add nt count) m) as [m' Hst]; [done|done|unfold NETTICS_OFFSET; lia|lia|].
    exists m'. unfold advance_by. rewrite Hst. rewrite u64_add_small in * by lia. split; [done|].
    eapply reach_step; [exact Hr|]. pose proof (u64_add_small nt count ltac:(lia) ltac:(lia) ltac:(lia)) as E.
    rewrite <- E. eapply step_advance; [exact Hm|done|]. by rewrite E.
Qed.

(** ** Witnesses: a two-slot ring *)

Definition demo_config : RingConfig := mkRingConfig 2 136.

Lemma demo_config_ok : config_ok demo_config.
Proof. split; [exists 1; done|vm_compute; done|vm_compute; done]. Qed.

Definition demo_frame (position size : Z) : frame :=
  (serialize_probe_frame 0 0 0 0 1 [size; 0; 0; 0; 0; 0; 0; 0] 0 0 size 0 (Z.land position 0xFFFFFFFF),
   repeat Byte.x07 (Z.to_nat size)).

Lemma demo_framed : well_framed demo_config 0 (demo_frame 0 3).
Proof. vm_compute. split_and!; congruence. Qed.

(** A reachable state with one frame published. *)
Lemma demo_reachable :
  exists m, reachable demo_config (mkState m 1 PIdle 0 CIdle [demo_frame 0 3] []).
Proof.
  destruct (init_control_ok demo_config demo_config_ok) as [m Hm].
  assert (reachable demo_config (mkState m 0 PIdle 0 CIdle [] [])) as Hr by (by constructor).
  pose proof (reachable_inv _ demo_config_ok _ Hr ltac:(done)) as I.
  destruct (publish_run _ demo_config_ok _ _ _ _ _ _ (demo_frame 0 3).1 (demo_frame 0 3).2 I)
    as (m' & _ & Hrun); [done|exact demo_framed|done|].
  exists m'. exact (reachable_rtc _ _ _ Hr Hrun).
Qed.

Lemma ring_no_torn_reads_witness :
  exists m, holds demo_config m 0 (demo_frame 0 3).
Proof.
  destruct demo_reachable as [m Hr]. exists m.
  destruct (ring_no_torn_reads demo_config _ demo_config_ok Hr) as (_ & _ & _ & _ & H); [done|].
  apply (H 0%nat); [reflexivity|reflexivity].
Defined.

Lemma ring_calls_refine_queue_witness :
  exists m, try_consume demo_config 0 m = Ok (Some (to_consumed (demo_frame 0 3))).
Proof.
  destruct demo_reachable as [m Hr]. exists m.
  exact (proj1 (ring_calls_refine_queue demo_config m 1 0 [demo_frame 0 3] [] demo_config_ok ltac:(done) Hr)).
Defined.

(** Both processes in the middle of a copy: the second frame is being written
    while the first is being read. *)
Lemma demo_racing :
  exists m, reachable demo_config
    (mkState m 1 (PWrite (demo_frame 1 3).1 (demo_frame 1 3).2 0) 0 (CHead []) [demo_frame 0 3] []).
Proof.
  destruct demo_reachable as [m Hr]. exists m.
  pose proof (reachable_inv _ demo_config_ok _ Hr ltac:(done)) as I.
  destruct (inv_loads _ demo_config_ok _ I) as [Hn Hm]. sproj.
  eapply reach_step; [eapply reach_step; [exact Hr|]|].
  - eapply step_consume_begin; [exact Hm|reflexivity].
  - eapply step_publish_begin; [|exact Hn|reflexivity]. vm_compute. split_and!; congruence.
Qed.

Lemma ring_race_free_witness : slot demo_config 1 <> slot demo_config 0.
Proof.
  destruct demo_racing as [m Hr].
  pose proof (ring_race_free demo_config _ (slot demo_config 1 + 0)%nat (slot demo_config 0 + 0)%nat
    demo_config_ok Hr ltac:(done) eq_refl eq_refl) as [H _].
  intros E. apply H. rewrite E. reflexivity.
Defined.

(** ** Creating and opening *)

(** The control block as a list of field writes. *)
Definition control_writes (c : RingConfig) : list (nat * list byte) :=
  [(8%nat, to_le_bytes 4 VERSION); (12%nat, to_le_bytes 4 (backuptics c));
   (16%nat, to_le_bytes 8 (slot_size c)); (24%nat, to_le_bytes 8 (region_size c));
   (128%nat, to_le_bytes 8 0); (256%nat, to_le_bytes 8 0); (0%nat, MAGIC)].

Lemma control_layout c n : (264 <= n)%nat -> layout_ok n (layout (control_writes c)) = true.
Proof.
  intros H. unfold control_writes, layout. cbn [fmap list_fmap fst snd]. rewrite !length_to_le_bytes.
  cbn [layout_ok fst snd]. rewrite !(proj2 (Nat.leb_le _ n)) by (cbn; lia). reflexivity.
Qed.

Lemma write_splice off bs m m' : write_bytes off bs m = Ok m' -> m' = splice (Z.to_nat off) bs m.
Proof. unfold write_bytes. destruct (bounds_check _ _ _) as [[]|]; [|done]. by intros [= <-]. Qed.

Lemma init_control_writes c m m' :
  init_control c m = Ok m' -> m' = apply_writes (control_writes c) m.
Proof.
  unfold init_control.
  destruct (write_bytes VERSION_OFFSET _ _) as [m1|] eqn:E1; [|done].
  destruct (write_bytes SLOT_COUNT_OFFSET _ _) as [m2|] eqn:E2; [|done].
  destruct (write_bytes SLOT_SIZE_OFFSET _ _) as [m3|] eqn:E3; [|done].
  destruct (write_bytes REGION_SIZE_OFFSET _ _) as [m4|] eqn:E4; [|done].
  destruct (atomic_store_u64 MAKETIC_OFFSET _ _) as [m5|] eqn:E5; [|done].
  destruct (atomic_store_u64 NETTICS_OFFSET _ _) as [m6|] eqn:E6; [|done].
  rewrite write_magic_bytes. intros E7. apply store_splice in E5 as [-> _], E6 as [-> _].
  apply write_splice in E1 as ->, E2 as ->, E3 as ->, E4 as ->, E7 as ->. reflexivity.
Qed.

Lemma read_bytes_take o n k m :
  (Z.to_nat o + Z.to_nat n <= k)%nat -> (k <= List.length m)%nat -> 0 <= o -> 0 <= n -> mem_len m <= U64_MAX ->
  read_bytes o n (take k m) = Ok (slice (Z.to_nat o) (Z.to_nat n) m).
Proof.
  intros Hk Hm Ho Hn Hl. rewrite read_bytes_ok; unfold mem_len in *; rewrite ?length_take; try lia.
  f_equal. apply slice_ext. intros i Hi. apply lookup_take_lt. lia.
Qed.

Section CreateOpen.
Context (c : RingConfig) (Hc : config_ok c) (Hslots : backuptics c <= U32_MAX).

Lemma slice_control_zeros i o bs :
  control_writes c !! i = Some (o, bs) ->
  slice o (List.length bs) (apply_writes (control_writes c) (zeros (Z.to_nat (region_size c)))) = bs.
Proof.
  intros Hi. eapply slice_apply_writes; [|exact Hi]. apply control_layout. rewrite length_zeros.
  pose proof (region_size_range c Hc). unfold CONTROL_SIZE, HEADER in *. lia.
Qed.

(** The consumer reads back the producer's configuration. *)
Lemma read_control_init m :
  init_control c (zeros (Z.to_nat (region_size c))) = Ok m ->
  read_control (take (Z.to_nat CONTROL_SIZE) m) = Ok c.
Proof.
  intros Hi. pose proof (init_control_cursors c Hc m Hi) as (Hl & _).
  apply init_control_writes in Hi. pose proof slice_control_zeros as S. rewrite <- Hi in S.
  pose proof (region_size_range c Hc) as Hr. pose proof (backuptics_pos c Hc) as Hb. pose proof (cfg_slot c Hc) as Hs.
  pose proof (cfg_total c Hc) as Ht. unfold CONTROL_SIZE, HEADER, mem_len in *.
  unfold read_control. rewrite !read_bytes_take by (cbn; unfold mem_len, VERSION_OFFSET, SLOT_COUNT_OFFSET, SLOT_SIZE_OFFSET; lia).
  pose proof (S 6%nat 0%nat MAGIC eq_refl) as S6.
  change (slice (Z.to_nat 0) (Z.to_nat 8) m = MAGIC) in S6. rewrite S6. rewrite bool_decide_eq_true_2 by done. cbn [negb].
  pose proof (S 0%nat _ _ eq_refl) as S0. pose proof (S 1%nat _ _ eq_refl) as S1. pose proof (S 2%nat _ _ eq_refl) as S2.
  rewrite length_to_le_bytes in S0, S1, S2.
  change (Z.to_nat VERSION_OFFSET) with 8%nat. change (Z.to_nat SLOT_COUNT_OFFSET) with 12%nat.
  change (Z.to_nat SLOT_SIZE_OFFSET) with 16%nat. change (Z.to_nat 4) with 4%nat. change (Z.to_nat 8) with 8%nat.
  rewrite S0, S1, S2. assert (slot_size c <= U64_MAX) by (unfold PROBE_FRAME_HEADER_SIZE in *; nia).
  rewrite !from_to_le_bytes by (unfold_int; unfold VERSION; lia). cbn [negb Z.eqb VERSION].
  unfold RingConfig_new. rewrite (proj2 (Z.eqb_neq _ 0)) by lia. cbn [orb].
  destruct (cfg_pow2 c Hc) as (k & Hk & E). rewrite E at 1 2.
  assert (Z.land (2 ^ k) (2 ^ k - 1) = 0) as ->.
  { replace (2 ^ k - 1) with (Z.ones k) by (rewrite Z.ones_equiv; lia).
    rewrite Z.land_ones by done. by rewrite Z_mod_same_full. }
  cbn [negb Z.eqb]. rewrite (proj2 (Z.ltb_ge _ _)) by (unfold HEADER; lia).
  unfold u64_checked_mul, u64_checked_add. rewrite !(proj2 (Z.leb_le _ _)) by (unfold CONTROL_SIZE; lia).
  cbn [ok_or]. rewrite (proj2 (Z.ltb_ge _ _)) by (unfold USIZE_MAX, CONTROL_SIZE; lia). by destruct c.
Qed.

End CreateOpen.

(** Starting the ring.  When the kernel refuses nothing and the name is
    free and short enough, [DoomRingProducer::create] followed by
    [DoomRingConsumer::open] connects the two sides: the consumer reads back
    the very configuration, starts at cursor 0, both hold one descriptor, and
    the shared bytes are an initial state of the ring machine. *)
Theorem ring_create_open (c : RingConfig) (name : string) (w : World) :
  config_ok c -> backuptics c <= U32_MAX -> objects w !! name = None ->
  Z.of_nat (String.length name) <= PSHMNAMLEN_MAX ->
  exists m, let r := mkShmRegion name (region_size c) in
    let w1 := mkWorld (<[name := m]> (objects w)) (open_fds w + 1) in
    producer_create no_faults name c w = (Ok (mkProducer r c 0), w1) /\
    consumer_open no_faults name w1 = (Ok (mkConsumer r c 0), mkWorld (objects w1) (open_fds w + 2)) /\
    reachable c (mkState m 0 PIdle 0 CIdle [] []).
Proof.
  intros Hc Hs Hfree Hname. destruct (init_control_ok c Hc) as [m Hm]. exists m. cbn zeta.
  pose proof (region_size_range c Hc) as Hr. unfold CONTROL_SIZE, HEADER in Hr.
  destruct (init_control_cursors c Hc m Hm) as (Hl & Hmt & Hnt).
  assert (validate_name name = Ok tt) as Hv by (unfold validate_name; by rewrite (proj2 (Z.ltb_ge _ _)) by lia).
  split_and!.
  - unfold producer_create, Region_create. rewrite (proj2 (Z.eqb_neq _ 0)) by lia. rewrite Hv, Hfree. cbn.
    rewrite lookup_insert_eq. cbn [default from_option id]. unfold id. rewrite Hm. by rewrite !insert_insert_eq.
  - unfold consumer_open, Region_open. rewrite Hv. change (CONTROL_SIZE =? 0) with false; cbn [objects]. rewrite lookup_insert_eq.
    cbn [no_faults shm_open_fails fstat_fails mmap_fails orb].
    rewrite (proj2 (Z.ltb_ge _ _)) by (unfold CONTROL_SIZE; lia). cbn [objects Region_drop open_fds]. rewrite lookup_insert_eq. cbn [default from_option].
    unfold id.     rewrite (read_control_init c Hc Hs m Hm). rewrite (proj2 (Z.eqb_neq _ 0)) by lia. cbn [Region_drop objects open_fds]. 
    rewrite Hl, Z.ltb_irrefl. 
    rewrite take_ge by (unfold mem_len in Hl; lia). rewrite load_ok by (unfold NETTICS_OFFSET; first [done | lia]).
    rewrite Hnt. do 2 f_equal. lia.
  - by constructor.
Qed.

Lemma ring_create_open_witness :
  exists m, let w1 := mkWorld {[ "/rs-1-0" := m ]} 1 in
    producer_create no_faults "/rs-1-0" demo_config (mkWorld ∅ 0)
      = (Ok (mkProducer (mkShmRegion "/rs-1-0" 4368) demo_config 0), w1).
Proof.
  destruct (ring_create_open demo_config "/rs-1-0" (mkWorld ∅ 0) demo_config_ok ltac:(done)
    (lookup_empty _) ltac:(done)) as (m & H & _). exists m. exact H.
Defined.

(** No descriptor or name leaks: whatever system call fails, [create]
    leaves the kernel as it found it, and a successful one adds exactly the
    zero-filled object and one descriptor; [open] never changes an object. *)
Theorem region_life_cycle (f : Faults) (name : string) (size : Z) (w : World) :
  match Region_create f name size w with
  | (Err _, w') => w' = w
  | (Ok r, w') => r = mkShmRegion name size /\ objects w !! name = None /\
      w' = mkWorld (<[name := zeros (Z.to_nat size)]> (objects w)) (open_fds w + 1)
  end /\
  match Region_open f name size w with
  | (Err _, w') => w' = w
  | (Ok r, w') => w' = mkWorld (objects w) (open_fds w + 1) /\
      exists m, objects w !! name = Some m /\ size <= mem_len m
  end.
Proof.
  destruct w as [objs fds]. split.
  - unfold Region_create. destruct (size =? 0); [done|]. destruct (validate_name name); [|done].
    destruct (shm_open_fails f); cbn; [done|].
    destruct (objs !! name) as [m|] eqn:E; cbn; [done|].
    destruct (ftruncate_fails f); cbn; [rewrite delete_insert_id by done; f_equal; lia|].
    rewrite insert_insert_eq.
    destruct (mmap_fails f); cbn; [rewrite delete_insert_id by done; f_equal; lia|done].
  - unfold Region_open. destruct (size =? 0); [done|]. destruct (validate_name name); [|done].
    cbn. destruct (objs !! name) as [m|] eqn:E; [|done]. destruct (shm_open_fails f); [done|].
    destruct (fstat_fails f); cbn; [f_equal; lia|]. destruct (Z.ltb_spec (mem_len m) size); cbn; [f_equal; lia|].
    destruct (mmap_fails f); cbn; [f_equal; lia|]. split; [done|]. by exists m.
Qed.
