(* ===== verification/Arena.v ===== *)
(** * Arena: the worker's checkpoint arena

    [crates/rocket-surgeon-worker/src/checkpoint.rs].  The mmap'd region is a
    [list byte]; slots are addressed by byte offset, as the code does with raw
    pointers.  The bookkeeping (free list, descriptor table, index, slots per
    checkpoint, checkpoint order) is the record [Arena]. *)

From Stdlib Require Import ZArith Lia Ascii String.
From coqutil Require Import Byte.
From stdpp Require Import base gmap strings list fin_maps sets.
From S2P Require Import Prelude Frame.
Open Scope Z_scope.

Definition SLOT_MAGIC : Z := 0x434B5054.
Definition SLOT_HEADER_SIZE : nat := 64.

Inductive DtypeTag := Float16 | Bfloat16 | Float32 | Float64.
#[export] Instance DtypeTag_eq : EqDecision DtypeTag.
Proof. solve_decision. Defined.

(** [dtype as u8] *)
Definition dtype_u8 (t : DtypeTag) : Z :=
  match t with Float16 => 0 | Bfloat16 => 1 | Float32 => 2 | Float64 => 3 end.

Definition from_u8 (v : Z) : option DtypeTag :=
  if v =? 0 then Some Float16 else if v =? 1 then Some Bfloat16
  else if v =? 2 then Some Float32 else if v =? 3 then Some Float64 else None.

Definition from_torch_str (s : string) : option DtypeTag :=
  if decide (s = "torch.float16"%string) then Some Float16
  else if decide (s = "torch.bfloat16"%string) then Some Bfloat16
  else if decide (s = "torch.float32"%string) then Some Float32
  else if decide (s = "torch.float64"%string) then Some Float64 else None.

Definition to_torch_str (t : DtypeTag) : string :=
  match t with
  | Float16 => "torch.float16"
  | Bfloat16 => "torch.bfloat16"
  | Float32 => "torch.float32"
  | Float64 => "torch.float64"
  end.

Record SlotHeader := mkSlotHeader {
  sh_magic : Z;
  sh_dtype : DtypeTag;
  sh_ndim : Z;
  sh_shape : list Z;
  sh_byte_len : Z
}.

(** Six [u64] dimensions at offsets 8, 16, ..., 48. *)
Definition dims_writes (shape : list Z) : list (nat * list byte) :=
  imap (fun i dim => ((8 + i * 8)%nat, to_le_bytes 8 dim)) shape.

Definition slot_writes (h : SlotHeader) : list (nat * list byte) :=
  [(0%nat, to_le_bytes 4 (sh_magic h)); (4%nat, to_le_bytes 1 (dtype_u8 (sh_dtype h)));
   (5%nat, to_le_bytes 1 (sh_ndim h)); (6%nat, zeros 2)] ++ dims_writes (sh_shape h) ++
  [(56%nat, to_le_bytes 8 (sh_byte_len h))].

Definition SlotHeader_write_to (h : SlotHeader) (buf : list byte) : list byte :=
  apply_writes (slot_writes h) buf.

Definition read_dims (buf : list byte) : list Z :=
  (fun i => field buf (8 + i * 8) 8) <$> List.seq 0 6.

Definition SlotHeader_read_from (buf : list byte) : option SlotHeader :=
  let magic := field buf 0 4 in
  if negb (magic =? SLOT_MAGIC) then None
  else match from_u8 (field buf 4 1) with
       | None => None
       | Some dtype => Some (mkSlotHeader magic dtype (field buf 5 1) (read_dims buf) (field buf 56 8))
       end.

Definition u64_not (x : Z) : Z := U64_MAX - x.
Definition align_up (val align : Z) : Z :=
  Z.land (u64_sub (u64_add val align) 1) (u64_not (align - 1)).

(** ** The arena *)

Record SlotDescriptor := mkSlotDescriptor { offset : nat; d_checkpoint_id : string; layer_idx : Z }.

Record ArenaSnapshot := mkArenaSnapshot { free_count : nat }.

Record Arena := mkArena {
  region : list byte;
  slot_size : nat;
  num_slots : nat;
  free_list : list nat;
  slots : list SlotDescriptor;
  index : gmap (string * Z) nat;
  checkpoint_slots : gmap string (list nat);
  checkpoint_order : list string
}.

Inductive ArenaError := CapacityOverflow | EmptyArena | MmapFailed | Exhausted.

(** [Vec::pop] and [Vec::push] work at the end of the list. *)
Definition pop {A} (l : list A) : option (A * list A) :=
  match rev l with [] => None | x :: r => Some (x, rev r) end.

(** [None] is the panic of [assert!(slot_size >= SLOT_HEADER_SIZE)]. *)
Definition Arena_new (mmap_ok : bool) (slot_size num_slots : nat) : option (result ArenaError Arena) :=
  if Nat.ltb slot_size SLOT_HEADER_SIZE then None
  else Some (
    let? capacity := ok_or (u64_checked_mul (Z.of_nat slot_size) (Z.of_nat num_slots)) CapacityOverflow in
    if capacity =? 0 then Err EmptyArena
    else if negb mmap_ok then Err MmapFailed
    else Ok (mkArena (zeros (slot_size * num_slots)) slot_size num_slots
               (rev (List.seq 0 num_slots)) [] ∅ ∅ [])).

Definition available (a : Arena) : nat := List.length (free_list a).

Definition set_region (a : Arena) (m : list byte) : Arena :=
  mkArena m (slot_size a) (num_slots a) (free_list a) (slots a) (index a) (checkpoint_slots a) (checkpoint_order a).

Definition fresh_header (a : Arena) : SlotHeader :=
  mkSlotHeader SLOT_MAGIC Float32 0 [0; 0; 0; 0; 0; 0] (Z.of_nat (slot_size a - SLOT_HEADER_SIZE)).

Definition header_bytes (h : SlotHeader) : list byte := SlotHeader_write_to h (zeros SLOT_HEADER_SIZE).

(** [update_header]: the slot pointer is an offset into the region. *)
Definition update_header (a : Arena) (slot_ptr : nat) (h : SlotHeader) : Arena :=
  set_region a (splice slot_ptr (header_bytes h) (region a)).

(** The copy of tensor bytes behind a slot's header. *)
Definition write_data (a : Arena) (slot_ptr : nat) (data : list byte) : Arena :=
  set_region a (splice (slot_ptr + SLOT_HEADER_SIZE) data (region a)).

Definition alloc_slot (a : Arena) (checkpoint_id : string) (layer : Z)
  : result ArenaError (nat * SlotHeader) * Arena :=
  match pop (free_list a) with
  | None => (Err Exhausted, a)
  | Some (slot_idx, rest) =>
      let off := (slot_idx * slot_size a)%nat in
      let header := fresh_header a in
      let desc_idx := List.length (slots a) in
      let owned := default [] (checkpoint_slots a !! checkpoint_id) in
      let is_new := match checkpoint_slots a !! checkpoint_id with None => true | Some _ => false end in
      (Ok (off, header),
       mkArena (splice off (header_bytes header) (region a)) (slot_size a) (num_slots a) rest
         (slots a ++ [mkSlotDescriptor off checkpoint_id layer])
         (<[(checkpoint_id, layer) := desc_idx]> (index a))
         (<[checkpoint_id := owned ++ [slot_idx]]> (checkpoint_slots a))
         (if is_new then checkpoint_order a ++ [checkpoint_id] else checkpoint_order a))
  end.

(** Outer [None]: the panic of indexing the descriptor table. *)
Definition get_slot (a : Arena) (checkpoint_id : string) (layer : Z) : option (option (nat * SlotHeader)) :=
  match index a !! (checkpoint_id, layer) with
  | None => Some None
  | Some desc_idx =>
      match slots a !! desc_idx with
      | None => None
      | Some desc =>
          Some (match SlotHeader_read_from (slice (offset desc) SLOT_HEADER_SIZE (region a)) with
                | Some h => Some (offset desc, h)
                | None => None
                end)
      end
  end.

Definition free_checkpoint (a : Arena) (checkpoint_id : string) : Arena :=
  match checkpoint_slots a !! checkpoint_id with
  | None => a
  | Some slot_indices =>
      mkArena (region a) (slot_size a) (num_slots a) (free_list a ++ slot_indices) (slots a)
        (filter (fun kv => kv.1.1 <> checkpoint_id) (index a))
        (delete checkpoint_id (checkpoint_slots a))
        (List.filter (fun id => negb (bool_decide (id = checkpoint_id))) (checkpoint_order a))
  end.

Definition snapshot (a : Arena) : ArenaSnapshot := mkArenaSnapshot (available a).

Definition rollback (a : Arena) (snap : ArenaSnapshot) (checkpoint_id : string) : Arena :=
  free_checkpoint a checkpoint_id.

Definition oldest_checkpoint (a : Arena) : option string := head (checkpoint_order a).

(** The segment number of a ["sub-<segment>-..."] checkpoint id. *)
Definition sub_segment (id : string) : option Z :=
  match strip_prefix (chars "sub-") (chars id) with
  | Some rest => match split_on "-"%char rest with s :: _ => parse_uint U32_MAX s | [] => None end
  | None => None
  end.

Definition oldest_evictable (a : Arena) (current_segment : Z) : option string :=
  match List.find (fun id => match sub_segment id with Some seg => negb (seg =? current_segment) | None => false end)
          (checkpoint_order a) with
  | Some id => Some id
  | None => List.find (fun id => starts_with (chars "auto-") (chars id)) (checkpoint_order a)
  end.

(** [entries] is the index in hash-map iteration order. *)
Definition slot_info_one (a : Arena) (entries : list ((string * Z) * nat)) (slot_idx : nat)
  : option (Z * nat * SlotHeader) :=
  let off := (slot_idx * slot_size a)%nat in
  match List.find (fun e => match slots a !! e.2 with Some d => Nat.eqb (offset d) off | None => false end) entries with
  | None => None
  | Some e =>
      match slots a !! e.2 with
      | None => None
      | Some desc =>
          match SlotHeader_read_from (slice off SLOT_HEADER_SIZE (region a)) with
          | Some h => Some (layer_idx desc, off, h)
          | None => None
          end
      end
  end.

Definition slot_info_for_checkpoint (a : Arena) (entries : list ((string * Z) * nat)) (checkpoint_id : string)
  : list (Z * nat * SlotHeader) :=
  match checkpoint_slots a !! checkpoint_id with
  | None => []
  | Some slot_indices => omap (slot_info_one a entries) slot_indices
  end.

(** ** Slot headers *)

Definition shape_ok (shape : list Z) : Prop := List.length shape = 6%nat /\ Forall (fits 64) shape.

Definition slot_header_ok (h : SlotHeader) : Prop :=
  sh_magic h = SLOT_MAGIC /\ fits 8 (sh_ndim h) /\ shape_ok (sh_shape h) /\ fits 64 (sh_byte_len h).

Lemma shape_6 (l : list Z) : List.length l = 6%nat -> exists a b c d e f, l = [a; b; c; d; e; f].
Proof. do 6 (destruct l as [|? l]; [done|]). destruct l; [|done]. intros _. by repeat eexists. Qed.

Lemma from_u8_dtype t : from_u8 (dtype_u8 t) = Some t.
Proof. by destruct t. Qed.

Lemma from_torch_to_torch t : from_torch_str (to_torch_str t) = Some t.
Proof. by destruct t. Qed.

Lemma dtype_fits t : fits 8 (dtype_u8 t).
Proof. by destruct t. Qed.

Lemma slot_layout_ok h : List.length (sh_shape h) = 6%nat -> layout_ok SLOT_HEADER_SIZE (layout (slot_writes h)) = true.
Proof.
  intros (a & b & c & d & e & f & E)%shape_6. unfold slot_writes, layout, dims_writes.
  rewrite E. cbn [imap app fmap list_fmap fst snd]. rewrite !length_to_le_bytes. vm_compute. done.
Qed.

Lemma length_header_bytes h : List.length (sh_shape h) = 6%nat -> List.length (header_bytes h) = SLOT_HEADER_SIZE.
Proof. intros H. unfold header_bytes, SlotHeader_write_to. rewrite length_apply_writes; [done|]. by apply slot_layout_ok. Qed.

Lemma slot_header_roundtrip h : slot_header_ok h -> SlotHeader_read_from (header_bytes h) = Some h.
Proof.
  intros (Hm & Hn & [Hs Hs'] & Hb). pose proof (slot_layout_ok h Hs) as Hl.
  pose proof (fun i o n z => field_apply_writes (slot_writes h) (zeros SLOT_HEADER_SIZE) i o n z Hl) as F.
  fold (SlotHeader_write_to h (zeros SLOT_HEADER_SIZE)) in F. fold (header_bytes h) in F.
  set (buf := header_bytes h) in *. clearbody buf. unfold slot_writes, dims_writes in F.
  destruct (shape_6 _ Hs) as (a & b & c & d & e & f & E).
  destruct h as [mg dt nd sh bl]; cbn [sh_magic sh_dtype sh_ndim sh_shape sh_byte_len] in *. subst sh mg.
  repeat match goal with H : Forall _ (_ :: _) |- _ => apply Forall_cons in H as [? H] end.
  unfold SlotHeader_read_from. rewrite (F 0%nat _ _ _ eq_refl) by done. rewrite Z.eqb_refl. cbn [negb].
  rewrite (F 1%nat _ _ _ eq_refl) by apply dtype_fits. rewrite from_u8_dtype.
  rewrite (F 2%nat _ _ _ eq_refl), (F 10%nat _ _ _ eq_refl) by done. do 2 f_equal.
  unfold read_dims. cbn [List.seq fmap list_fmap].
  by rewrite (F 4%nat _ _ _ eq_refl), (F 5%nat _ _ _ eq_refl), (F 6%nat _ _ _ eq_refl),
    (F 7%nat _ _ _ eq_refl), (F 8%nat _ _ _ eq_refl), (F 9%nat _ _ _ eq_refl).
Qed.

(** ** The allocator invariant *)

(** All slots owned by some checkpoint. *)
Definition owned (m : gmap string (list nat)) : list nat := concat (map_to_list m).*2.

Lemma owned_delete m id : owned m ≡ₚ default [] (m !! id) ++ owned (delete id m).
Proof.
  destruct (m !! id) as [l|] eqn:E; cbn.
  - unfold owned. rewrite <- (map_to_list_delete m id l E). done.
  - by rewrite delete_id.
Qed.

Lemma owned_insert m id l : owned (<[id := l]> m) ≡ₚ l ++ owned (delete id m).
Proof. rewrite (owned_delete _ id). rewrite lookup_insert_eq. cbn. by rewrite delete_insert_eq. Qed.

Lemma elem_of_owned m id l i : m !! id = Some l -> i ∈ l -> i ∈ owned m.
Proof. intros E Hi. rewrite (owned_delete m id), E. cbn. apply elem_of_app. by left. Qed.

Record arena_ok (a : Arena) : Prop := {
  ok_size : (SLOT_HEADER_SIZE <= slot_size a)%nat;
  ok_region : List.length (region a) = (slot_size a * num_slots a)%nat;
  (** every slot is either free or owned by exactly one checkpoint, once *)
  ok_partition : free_list a ++ owned (checkpoint_slots a) ≡ₚ List.seq 0 (num_slots a);
  ok_index : forall id l d, index a !! (id, l) = Some d ->
    exists i slots_of_id, slots a !! d = Some (mkSlotDescriptor (i * slot_size a) id l) /\
      checkpoint_slots a !! id = Some slots_of_id /\ i ∈ slots_of_id;
  ok_distinct : forall k1 k2 d1 d2 s1 s2,
    index a !! k1 = Some d1 -> index a !! k2 = Some d2 ->
    slots a !! d1 = Some s1 -> slots a !! d2 = Some s2 -> offset s1 = offset s2 -> k1 = k2;
  ok_order : NoDup (checkpoint_order a) /\
    forall id, id ∈ checkpoint_order a <-> is_Some (checkpoint_slots a !! id)
}.

Lemma pop_spec {A} (l : list A) x r : pop l = Some (x, r) <-> l = r ++ [x].
Proof.
  unfold pop. split.
  - destruct (rev l) as [|y t] eqn:E; [done|]. intros [= <- <-].
    rewrite <- (rev_involutive l), E. done.
  - intros ->. rewrite rev_app_distr. cbn. by rewrite rev_involutive.
Qed.

Lemma arena_new_ok mmap_ok ss n a :
  Arena_new mmap_ok ss n = Some (Ok a) ->
  arena_ok a /\ available a = n /\ slot_size a = ss /\ num_slots a = n /\
  checkpoint_order a = [] /\ index a = ∅ /\ checkpoint_slots a = ∅.
Proof.
  unfold Arena_new, ok_or, u64_checked_mul. destruct (Nat.ltb_spec ss SLOT_HEADER_SIZE) as [|Hs]; [done|].
  destruct (_ <=? U64_MAX); [|done]. destruct (_ =? 0); [done|]. destruct mmap_ok; [|done]. cbn. intros [= <-].
  split; [|split_and!; try done; unfold available; cbn; by rewrite length_rev, length_seq].
  split; cbn.
  - done.
  - apply repeat_length.
  - unfold owned. rewrite map_to_list_empty. cbn. rewrite app_nil_r. symmetry. apply Permutation_rev.
  - intros id l d. by rewrite lookup_empty.
  - intros k1 k2 d1 d2 s1 s2. by rewrite lookup_empty.
  - split; [constructor|]. intros id. rewrite lookup_empty. split; [by intros ?%elem_of_nil|by intros []].
Qed.

Section Ok.
Context (a : Arena) (Hok : arena_ok a).

Lemma partition_nodup : NoDup (free_list a ++ owned (checkpoint_slots a)).
Proof. rewrite (ok_partition a Hok). apply NoDup_seq. Qed.

Lemma slot_bound i : i ∈ free_list a ++ owned (checkpoint_slots a) -> (i * slot_size a + slot_size a <= List.length (region a))%nat.
Proof.
  rewrite (ok_partition a Hok), elem_of_seq, (ok_region a Hok). intros Hi. nia.
Qed.

(** Different slots occupy disjoint bytes. *)
Lemma slot_apart i j :
  i <> j -> (i * slot_size a + slot_size a <= j * slot_size a \/ j * slot_size a + slot_size a <= i * slot_size a)%nat.
Proof. intros H. nia. Qed.

Lemma slot_offset_inj i j : (i * slot_size a = j * slot_size a)%nat -> i = j.
Proof. pose proof (ok_size a Hok). unfold SLOT_HEADER_SIZE in *. nia. Qed.

Lemma index_slot id l d :
  index a !! (id, l) = Some d ->
  exists i, slots a !! d = Some (mkSlotDescriptor (i * slot_size a) id l) /\ i ∈ owned (checkpoint_slots a).
Proof.
  intros H. destruct (ok_index a Hok _ _ _ H) as (i & ls & Hd & Hs & Hi).
  exists i. split; [done|]. by eapply elem_of_owned.
Qed.

End Ok.

Lemma set_region_ok a m : arena_ok a -> List.length m = List.length (region a) -> arena_ok (set_region a m).
Proof. intros [] Hm. split; cbn; try done. congruence. Qed.

Lemma arena_alloc_ok a id l i rest :
  arena_ok a -> pop (free_list a) = Some (i, rest) -> arena_ok (alloc_slot a id l).2.
Proof.
  intros Hok Hpop. pose proof (proj1 (pop_spec _ _ _) Hpop) as Hfree.
  pose proof (partition_nodup a Hok) as Hnd. rewrite Hfree in Hnd.
  assert (i ∉ owned (checkpoint_slots a)) as Hi.
  { intros Hin. apply NoDup_app in Hnd as (_ & Hd & _). apply (Hd i); [set_solver|done]. }
  assert (i * slot_size a + slot_size a <= List.length (region a))%nat as Hb
    by (apply (slot_bound a Hok); rewrite Hfree; set_solver).
  pose proof (ok_size a Hok) as Hsz. unfold alloc_slot. rewrite Hpop. cbn [snd].
  set (ls := default [] (checkpoint_slots a !! id)).
  split; cbn [slot_size num_slots region free_list slots index checkpoint_slots checkpoint_order].
  - done.
  - rewrite length_splice; [apply (ok_region a Hok)|]. rewrite length_header_bytes by done. lia.
  - rewrite <- (ok_partition a Hok), Hfree. etrans; [apply Permutation_app_head, owned_insert|].
    rewrite <- !app_assoc. apply Permutation_app_head.
    etrans; [apply Permutation_app_swap_app|]. apply Permutation_app_head. symmetry.
    apply (owned_delete (checkpoint_slots a) id).
  - intros id' l' d. rewrite lookup_insert_Some. intros [[[= <- <-] <-]|[Hne Hd]].
    + exists i, (ls ++ [i]). rewrite lookup_insert_eq, list_lookup_middle by done. split_and!; [done|done|set_solver].
    + destruct (ok_index a Hok _ _ _ Hd) as (j & ls' & Hs & Hc & Hj).
      exists j. rewrite lookup_app_l by (by eapply lookup_lt_Some).
      destruct (decide (id' = id)) as [->|Hid].
      * exists (ls ++ [i]). rewrite lookup_insert_eq. split_and!; [done|done|]. unfold ls. rewrite Hc. set_solver.
      * exists ls'. by rewrite lookup_insert_ne by done.
  - assert (forall k d s, index a !! k = Some d -> (slots a ++ [mkSlotDescriptor (i * slot_size a) id l]) !! d = Some s ->
      slots a !! d = Some s /\ offset s <> (i * slot_size a)%nat) as Hold.
    { intros [id' l'] d s Hd Hs. destruct (index_slot a Hok _ _ _ Hd) as (j & Hj & Hjo).
      rewrite lookup_app_l in Hs by (by eapply lookup_lt_Some). split; [done|].
      rewrite Hj in Hs. injection Hs as <-. cbn. intros E%(slot_offset_inj a Hok). by subst j. }
    intros k1 k2 d1 d2 s1 s2 [[<- <-]|[Hn1 H1]]%lookup_insert_Some [[<- <-]|[Hn2 H2]]%lookup_insert_Some Hs1 Hs2 E; [done| | |].
    + rewrite list_lookup_middle in Hs1 by done. injection Hs1 as <-. destruct (Hold _ _ _ H2 Hs2) as [_ Hne]. by destruct Hne.
    + rewrite list_lookup_middle in Hs2 by done. injection Hs2 as <-. destruct (Hold _ _ _ H1 Hs1) as [_ Hne]. by destruct Hne.
    + destruct (Hold _ _ _ H1 Hs1), (Hold _ _ _ H2 Hs2). by eapply (ok_distinct a Hok).
  - destruct (ok_order a Hok) as [Hnd' Ho]. unfold ls. destruct (checkpoint_slots a !! id) as [ls'|] eqn:E.
    + split; [done|]. intros id'. rewrite Ho. destruct (decide (id' = id)) as [->|];
        [rewrite lookup_insert_eq, E|rewrite lookup_insert_ne by done]; split; eauto.
    + split.
      * apply NoDup_app. split_and!; [done| |apply NoDup_singleton]. intros x Hx ->%list_elem_of_singleton.
        apply Ho in Hx. rewrite E in Hx. by destruct Hx.
      * intros id'. rewrite elem_of_app, list_elem_of_singleton, Ho.
        destruct (decide (id' = id)) as [->|]; [rewrite lookup_insert_eq; split; eauto|].
        rewrite lookup_insert_ne by done. naive_solver.
Qed.

Lemma free_checkpoint_ok a id : arena_ok a -> arena_ok (free_checkpoint a id).
Proof.
  intros Hok. unfold free_checkpoint. destruct (checkpoint_slots a !! id) as [ls|] eqn:E; [|done].
  split; cbn [slot_size num_slots region free_list slots index checkpoint_slots checkpoint_order]; try apply Hok.
  - rewrite <- app_assoc, <- (ok_partition a Hok). apply Permutation_app_head. symmetry.
    pose proof (owned_delete (checkpoint_slots a) id) as H. rewrite E in H. exact H.
  - intros id' l d [Hd Hne]%map_lookup_filter_Some. cbn in Hne.
    destruct (ok_index a Hok _ _ _ Hd) as (j & ls' & Hs & Hc & Hj).
    exists j, ls'. by rewrite lookup_delete_ne.
  - intros k1 k2 d1 d2 s1 s2 [H1 _]%map_lookup_filter_Some [H2 _]%map_lookup_filter_Some.
    by apply (ok_distinct a Hok).
  - destruct (ok_order a Hok) as [Hnd Ho]. split.
    + apply NoDup_ListNoDup. apply List.NoDup_filter. by apply NoDup_ListNoDup.
    + intros id'. rewrite list_elem_of_In, List.filter_In, <- list_elem_of_In, Ho.
      rewrite negb_true_iff, bool_decide_eq_false. destruct (decide (id' = id)) as [->|].
      * rewrite lookup_delete_eq. split; [naive_solver|by intros []].
      * rewrite lookup_delete_ne by done. naive_solver.
Qed.

(** ** Saving and reading tensors *)

(** How the worker fills a slot: allocate, write the real header, copy the
    bytes. *)
Definition save (a : Arena) (id : string) (l : Z) (h : SlotHeader) (data : list byte) : result ArenaError nat * Arena :=
  match alloc_slot a id l with
  | (Err e, a') => (Err e, a')
  | (Ok (off, _), a') => (Ok off, write_data (update_header a' off h) off data)
  end.

(** The header and bytes a client finds through [get_slot]. *)
Definition read_tensor (a : Arena) (id : string) (l : Z) : option (SlotHeader * list byte) :=
  match get_slot a id l with
  | Some (Some (off, h)) => Some (h, slice (off + SLOT_HEADER_SIZE) (Z.to_nat (sh_byte_len h)) (region a))
  | _ => None
  end.

(** *** Specification: a bounded keyed store *)

Record Store := mkStore {
  st_free : nat;
  st_count : gmap string nat;
  st_tensors : gmap (string * Z) (SlotHeader * list byte);
  st_order : list string
}.

Inductive op :=
| OSave (id : string) (l : Z) (h : SlotHeader) (data : list byte)
| OFree (id : string).

Definition spec_op (st : Store) (o : op) : bool * Store :=
  match o with
  | OSave id l h data =>
      match st_free st with
      | O => (false, st)
      | S n => (true, mkStore n
          (<[id := S (default O (st_count st !! id))]> (st_count st))
          (<[(id, l) := (h, data)]> (st_tensors st))
          (match st_count st !! id with None => st_order st ++ [id] | Some _ => st_order st end))
      end
  | OFree id =>
      match st_count st !! id with
      | None => (true, st)
      | Some n => (true, mkStore (st_free st + n) (delete id (st_count st))
          (filter (fun kv => kv.1.1 <> id) (st_tensors st))
          (List.filter (fun x => negb (bool_decide (x = id))) (st_order st)))
      end
  end.

Definition arena_op (a : Arena) (o : op) : bool * Arena :=
  match o with
  | OSave id l h data => let (r, a') := save a id l h data in (is_ok r, a')
  | OFree id => (true, free_checkpoint a id)
  end.

Fixpoint run_ops {S} (f : S -> op -> bool * S) (s : S) (os : list op) : list bool * S :=
  match os with
  | [] => ([], s)
  | o :: os => let (b, s1) := f s o in let (bs, s2) := run_ops f s1 os in (b :: bs, s2)
  end.

Definition tensor_ok (ss : nat) (h : SlotHeader) (data : list byte) : Prop :=
  slot_header_ok h /\ sh_byte_len h = Z.of_nat (List.length data) /\
  (SLOT_HEADER_SIZE + List.length data <= ss)%nat.

Definition op_ok (ss : nat) (o : op) : Prop :=
  match o with OSave _ _ h data => tensor_ok ss h data | OFree _ => True end.

(** The bytes of slot [i] are exactly this tensor. *)
Definition slot_has (a : Arena) (i : nat) (t : SlotHeader * list byte) : Prop :=
  tensor_ok (slot_size a) t.1 t.2 /\
  slice (i * slot_size a) SLOT_HEADER_SIZE (region a) = header_bytes t.1 /\
  slice (i * slot_size a + SLOT_HEADER_SIZE) (List.length t.2) (region a) = t.2.

Record implements (a : Arena) (st : Store) : Prop := {
  im_ok : arena_ok a;
  im_free : available a = st_free st;
  im_count : st_count st = List.length <$> checkpoint_slots a;
  im_order : checkpoint_order a = st_order st;
  im_keys : forall k, is_Some (index a !! k) <-> is_Some (st_tensors st !! k);
  im_data : forall id l d t, index a !! (id, l) = Some d -> st_tensors st !! (id, l) = Some t ->
    exists i, slots a !! d = Some (mkSlotDescriptor (i * slot_size a) id l) /\ slot_has a i t
}.

Lemma implements_read a st id l : implements a st -> read_tensor a id l = st_tensors st !! (id, l).
Proof.
  intros I. unfold read_tensor, get_slot. pose proof (im_keys a st I (id, l)) as Hk.
  destruct (index a !! (id, l)) as [d|] eqn:Ed.
  - destruct (proj1 Hk ltac:(eauto)) as [[h data] Et]. rewrite Et.
    destruct (im_data a st I _ _ _ _ Ed Et) as (i & Hs & (Hh & Hb & _) & Hhdr & Hdat). cbn [fst snd] in *.
    rewrite Hs. cbn [offset]. rewrite Hhdr, slot_header_roundtrip by done.
    rewrite Hb, Nat2Z.id, Hdat. done.
  - destruct (st_tensors st !! (id, l)) eqn:Et; [|done]. destruct (proj2 Hk ltac:(eauto)). done.
Qed.

(** What saving into slot [i] does to the region. *)
Definition saved_region (a : Arena) (i : nat) (h : SlotHeader) (data m : list byte) : list byte :=
  splice (i * slot_size a + SLOT_HEADER_SIZE) data (splice (i * slot_size a) (header_bytes h)
    (splice (i * slot_size a) m (region a))).

Lemma saved_region_spec a i h data m :
  arena_ok a -> i ∈ free_list a -> tensor_ok (slot_size a) h data -> List.length m = SLOT_HEADER_SIZE ->
  List.length (saved_region a i h data m) = List.length (region a) /\
  slice (i * slot_size a) SLOT_HEADER_SIZE (saved_region a i h data m) = header_bytes h /\
  slice (i * slot_size a + SLOT_HEADER_SIZE) (List.length data) (saved_region a i h data m) = data /\
  (forall o n, (o + n <= i * slot_size a \/ i * slot_size a + slot_size a <= o)%nat ->
     slice o n (saved_region a i h data m) = slice o n (region a)).
Proof.
  intros Hok Hi ((_ & _ & [Hsh _] & _) & _ & Hfit) Hm.
  pose proof (slot_bound a Hok i ltac:(set_solver)) as Hb. pose proof (length_header_bytes h Hsh) as Hh.
  set (o := (i * slot_size a)%nat) in *. set (m1 := splice o m (region a)).
  assert (List.length m1 = List.length (region a)) as L1 by (apply length_splice; lia).
  set (m2 := splice o (header_bytes h) m1).
  assert (List.length m2 = List.length (region a)) as L2 by (rewrite <- L1; apply length_splice; lia).
  unfold saved_region. fold o m1 m2. split_and!.
  - rewrite length_splice; lia.
  - rewrite slice_splice_disjoint by lia. rewrite <- Hh at 1. apply slice_splice_same. lia.
  - apply slice_splice_same. lia.
  - intros o' n Hd. rewrite slice_splice_disjoint by lia. unfold m2. rewrite slice_splice_disjoint by lia.
    unfold m1. rewrite slice_splice_disjoint by lia. done.
Qed.

Lemma save_shape a id l h data i rest :
  pop (free_list a) = Some (i, rest) ->
  save a id l h data =
    (Ok (i * slot_size a)%nat,
     set_region (alloc_slot a id l).2 (saved_region a i h data (header_bytes (fresh_header a)))).
Proof. intros Hp. unfold save, alloc_slot. rewrite Hp. reflexivity. Qed.

(** Project the fields of explicit arenas. *)
Ltac aproj := cbn [region slot_size num_slots free_list slots index checkpoint_slots checkpoint_order
  set_region offset d_checkpoint_id layer_idx st_free st_count st_tensors st_order fst snd].

Lemma save_implements a st id l h data :
  implements a st -> tensor_ok (slot_size a) h data ->
  let r := arena_op a (OSave id l h data) in let s := spec_op st (OSave id l h data) in
  r.1 = s.1 /\ implements r.2 s.2.
Proof.
  intros I Ht. pose proof (im_ok a st I) as Hok. pose proof (im_free a st I) as Hf. unfold available in Hf.
  cbn [arena_op spec_op]. destruct (pop (free_list a)) as [[i rest]|] eqn:Hp.
  2: { assert (free_list a = []) as E.
       { unfold pop in Hp. destruct (rev (free_list a)) eqn:Er; [|done].
         rewrite <- (rev_involutive (free_list a)), Er. done. }
       rewrite E in Hf. cbn in Hf. rewrite <- Hf. unfold save, alloc_slot. rewrite Hp. done. }
  pose proof (proj1 (pop_spec _ _ _) Hp) as Hfree. rewrite (save_shape a id l h data i rest Hp).
  destruct (st_free st) as [|n] eqn:En; [rewrite Hfree, length_app in Hf; cbn in Hf; lia|].
  destruct (saved_region_spec a i h data (header_bytes (fresh_header a)) Hok) as (L & R1 & R2 & R3);
    [rewrite Hfree; set_solver|done|by apply length_header_bytes|].
  pose proof (arena_alloc_ok a id l i rest Hok Hp) as Hok'.
  assert (i ∉ owned (checkpoint_slots a)) as Hi.
  { intros Hin. pose proof (partition_nodup a Hok) as Hnd. rewrite Hfree in Hnd.
    apply NoDup_app in Hnd as (_ & Hd & _). apply (Hd i); [set_solver|done]. }
  split; [done|]. cbn [snd]. split.
  - apply set_region_ok; [done|]. rewrite L. symmetry. unfold alloc_slot. rewrite Hp. aproj.
    rewrite length_splice; [done|]. rewrite length_header_bytes by done.
    pose proof (slot_bound a Hok i ltac:(rewrite Hfree; set_solver)). pose proof (ok_size a Hok). lia.
  - unfold alloc_slot. rewrite Hp. aproj. rewrite Hfree, length_app in Hf. cbn in Hf. unfold available; aproj. lia.
  - unfold alloc_slot. rewrite Hp. aproj. rewrite fmap_insert, (im_count a st I). f_equal.
    rewrite lookup_fmap. destruct (checkpoint_slots a !! id); cbn; [rewrite length_app; cbn; lia|done].
  - unfold alloc_slot. rewrite Hp. aproj. rewrite (im_count a st I), lookup_fmap, (im_order a st I).
    by destruct (checkpoint_slots a !! id).
  - unfold alloc_slot. rewrite Hp. aproj. intros k. destruct (decide (k = (id, l))) as [->|Hne].
    + rewrite !lookup_insert_eq. split; eauto.
    + rewrite !lookup_insert_ne by done. apply (im_keys a st I).
  - unfold alloc_slot. rewrite Hp. aproj. intros id' l' d t [[[= <- <-] <-]|[Hne Hd]]%lookup_insert_Some.
    + rewrite lookup_insert_eq. intros [= <-]. exists i. rewrite list_lookup_middle by done. done.
    + rewrite lookup_insert_ne by done. intros Hs. destruct (im_data a st I _ _ _ _ Hd Hs) as (j & Hj & (T1 & T2 & T3)).
      destruct (index_slot a Hok _ _ _ Hd) as (j' & Hj' & Ho). rewrite Hj in Hj'. injection Hj' as Ej.
      apply (slot_offset_inj a Hok) in Ej. subst j'.
      exists j. rewrite lookup_app_l by (by eapply lookup_lt_Some). split; [done|].
      pose proof T1 as (_ & _ & Hfit). pose proof (slot_apart a i j ltac:(by intros ->)) as Hap.
      split; [done|]. aproj. split; rewrite R3 by lia; done.
Qed.

Lemma free_implements a st id :
  implements a st -> implements (free_checkpoint a id) (spec_op st (OFree id)).2.
Proof.
  intros I. pose proof (im_ok a st I) as Hok. cbn [spec_op]. rewrite (im_count a st I), lookup_fmap.
  pose proof (free_checkpoint_ok a id Hok) as Hok'. unfold free_checkpoint in *.
  destruct (checkpoint_slots a !! id) as [ls|] eqn:E; cbn [fmap option_fmap option_map snd]; [|done].
  split; [done|..]; cbn [checkpoint_slots checkpoint_order index slots slot_size region st_free st_count st_tensors st_order].
  - unfold available. cbn. rewrite length_app. f_equal. apply (im_free a st I).
  - by rewrite <- fmap_delete.
  - by rewrite (im_order a st I).
  - intros k. pose proof (im_keys a st I k) as Hk. split; intros [x [Hx Hne]%map_lookup_filter_Some]; cbn in Hne.
    + destruct (proj1 Hk ltac:(eauto)) as [t Et]. exists t. by apply map_lookup_filter_Some_2.
    + destruct (proj2 Hk ltac:(eauto)) as [t Et]. exists t. by apply map_lookup_filter_Some_2.
  - intros id' l d t [Hd _]%map_lookup_filter_Some [Ht _]%map_lookup_filter_Some. apply (im_data a st I _ _ _ _ Hd Ht).
Qed.

Lemma op_slot_size a o : slot_size (arena_op a o).2 = slot_size a.
Proof.
  destruct o as [id l h data|id]; cbn [arena_op snd].
  - unfold save, alloc_slot. destruct (pop (free_list a)) as [[i r]|]; done.
  - unfold free_checkpoint. by destruct (checkpoint_slots a !! id).
Qed.

Lemma run_implements os : forall a st,
  implements a st -> Forall (op_ok (slot_size a)) os ->
  (run_ops arena_op a os).1 = (run_ops spec_op st os).1 /\
  implements (run_ops arena_op a os).2 (run_ops spec_op st os).2.
Proof.
  induction os as [|o os IH]; intros a st I Hos; [done|]. apply Forall_cons in Hos as [Ho Hos].
  assert ((arena_op a o).1 = (spec_op st o).1 /\ implements (arena_op a o).2 (spec_op st o).2) as [Hb I'].
  { destruct o as [id l h data|id]; [by apply save_implements|]. split; [|by apply free_implements].
    cbn. by destruct (st_count st !! id). }
  pose proof (op_slot_size a o) as Hss.
  cbn [run_ops]. destruct (arena_op a o) as [b a1], (spec_op st o) as [b' st1]. cbn [fst snd] in *. subst b'.
  rewrite <- Hss in Hos. destruct (IH a1 st1 I' Hos) as [E1 E2].
  destruct (run_ops arena_op a1 os), (run_ops spec_op st1 os). cbn [fst snd] in *. by subst.
Qed.

(** A new arena is an empty store. *)
Lemma arena_new_implements mmap_ok ss n a :
  Arena_new mmap_ok ss n = Some (Ok a) -> implements a (mkStore n ∅ ∅ []) /\ slot_size a = ss.
Proof.
  intros Hn. destruct (arena_new_ok _ _ _ _ Hn) as (Hok & Hav & Hss & Hns & Ho & Hi & Hc). split; [|done].
  split; cbn; try done.
  - rewrite Hc. by rewrite fmap_empty.
  - intros k. by rewrite Hi, !lookup_empty.
Qed.

(** C16: refinement of the checkpoint arena.  Whatever sequence of saves and
    frees the worker performs on a new arena, the free-list allocator over raw
    bytes behaves like a bounded keyed store: a save succeeds exactly when a
    slot is free, reading a key returns the last header and bytes saved under
    it (never bytes of another slot, never freed data), freeing a checkpoint
    removes exactly its keys and returns all its slots, and the eviction order
    is first-save order. *)
Theorem arena_refines_store (mmap_ok : bool) (ss n : nat) (a : Arena) (os : list op) :
  Arena_new mmap_ok ss n = Some (Ok a) -> Forall (op_ok ss) os ->
  let r := run_ops arena_op a os in let s := run_ops spec_op (mkStore n ∅ ∅ []) os in
  r.1 = s.1 /\ arena_ok r.2 /\ available r.2 = st_free s.2 /\
  oldest_checkpoint r.2 = head (st_order s.2) /\
  forall id l, read_tensor r.2 id l = st_tensors s.2 !! (id, l).
Proof.
  intros Hn Hos. destruct (arena_new_implements _ _ _ _ Hn) as [I Hss].
  cbn zeta. rewrite <- Hss in Hos. destruct (run_implements os a _ I Hos) as [E I'].
  split_and!; [done|apply I'|apply I'| |].
  - unfold oldest_checkpoint. by rewrite (im_order _ _ I').
  - intros id l. by apply implements_read.
Qed.

Definition demo_slot_header : SlotHeader := mkSlotHeader SLOT_MAGIC Bfloat16 1 [2; 0; 0; 0; 0; 0] 2.

Lemma demo_tensor_ok : tensor_ok 66 demo_slot_header [Byte.x0a; Byte.x0b].
Proof.
  unfold tensor_ok, slot_header_ok, shape_ok, fits, demo_slot_header, SLOT_HEADER_SIZE.
  cbn [sh_magic sh_ndim sh_shape sh_byte_len List.length]. split_and!; try lia; repeat constructor; lia.
Qed.

Lemma arena_refines_store_witness :
  exists a, Arena_new true 66 2 = Some (Ok a) /\
    read_tensor (run_ops arena_op a [OSave "c1" 3 demo_slot_header [Byte.x0a; Byte.x0b]]).2 "c1" 3
    = Some (demo_slot_header, [Byte.x0a; Byte.x0b]).
Proof.
  eexists. split; [reflexivity|].
  eapply (fun H1 H2 => proj2 (proj2 (proj2 (proj2 (arena_refines_store true 66 2 _
    [OSave "c1" 3 demo_slot_header [Byte.x0a; Byte.x0b]] H1 H2)))) "c1"%string 3); [reflexivity|].
  apply Forall_singleton. exact demo_tensor_ok.
Defined.
