(* ===== verification/Spill.v ===== *)
(** * Spill: checkpoint spill files

    The second half of [crates/rocket-surgeon-worker/src/checkpoint.rs]:
    [SpillIndexEntry], [spill_checkpoint] and [load_spilled_checkpoint].  The
    file is its bytes; [crc32fast::hash] is a parameter.  The round trip says
    that a spilled checkpoint can be loaded into any arena with room. *)

From Stdlib Require Import ZArith Lia Ascii String.
From coqutil Require Import Byte.
From stdpp Require Import base gmap strings list fin_maps sets.
From S2P Require Import Prelude Frame Arena.
Open Scope Z_scope.

Definition SPILL_MAGIC : list byte :=
  [Byte.x43; Byte.x4b; Byte.x50; Byte.x54; Byte.x53; Byte.x50; Byte.x49; Byte.x4c].
Definition SPILL_VERSION : Z := 1.
Definition SPILL_INDEX_ENTRY_SIZE : nat := 80.

Record SpillIndexEntry := mkSpillIndexEntry {
  se_layer_idx : Z;
  se_dtype : DtypeTag;
  se_ndim : Z;
  se_shape : list Z;
  se_data_offset : Z;
  se_data_len : Z;
  se_crc32 : Z
}.

Definition entry_writes (e : SpillIndexEntry) : list (nat * list byte) :=
  [(0%nat, to_le_bytes 4 (se_layer_idx e)); (4%nat, to_le_bytes 1 (dtype_u8 (se_dtype e)));
   (5%nat, to_le_bytes 1 (se_ndim e)); (6%nat, zeros 2)] ++ dims_writes (se_shape e) ++
  [(56%nat, to_le_bytes 8 (se_data_offset e)); (64%nat, to_le_bytes 8 (se_data_len e));
   (72%nat, to_le_bytes 4 (se_crc32 e)); (76%nat, zeros 4)].

Definition Entry_write_to (e : SpillIndexEntry) (buf : list byte) : list byte := apply_writes (entry_writes e) buf.

Definition entry_bytes (e : SpillIndexEntry) : list byte := Entry_write_to e (zeros SPILL_INDEX_ENTRY_SIZE).

Definition Entry_read_from (buf : list byte) : option SpillIndexEntry :=
  match from_u8 (field buf 4 1) with
  | None => None
  | Some dtype => Some (mkSpillIndexEntry (field buf 0 4) dtype (field buf 5 1) (read_dims buf)
                          (field buf 56 8) (field buf 64 8) (field buf 72 4))
  end.

Inductive SpillError :=
| NotInArena | TooManySlots | IoFailed
| TooShort | BadMagic | BadVersion (v : Z) | TruncatedIndex | BadEntry (i : nat)
| TruncatedData (need got : Z) | TooLarge (len max : Z) | CrcMismatch (layer expected actual : Z)
| ArenaFull (e : ArenaError).

Section WithCrc.
Context (crc32 : list byte -> Z).

(** One iteration of the loop over the slots: index entry and bytes. *)
Definition spill_slot (a : Arena) (data_offset : Z) (info : Z * nat * SlotHeader) : SpillIndexEntry * list byte :=
  let '(layer, off, hdr) := info in
  let data_len := Z.min (sh_byte_len hdr) (Z.of_nat (slot_size a - SLOT_HEADER_SIZE)) in
  let data := slice (off + SLOT_HEADER_SIZE) (Z.to_nat data_len) (region a) in
  (mkSpillIndexEntry layer (sh_dtype hdr) (sh_ndim hdr) (sh_shape hdr) data_offset data_len (crc32 data), data).

Fixpoint spill_slots (a : Arena) (data_offset : Z) (infos : list (Z * nat * SlotHeader))
  : list (SpillIndexEntry * list byte) :=
  match infos with
  | [] => []
  | info :: rest =>
      let e := spill_slot a data_offset info in
      e :: spill_slots a (u64_add data_offset (align_up (se_data_len e.1) 64)) rest
  end.

Definition pad64 (n : Z) : list byte := zeros (Z.to_nat (align_up n 64 - n)).

Definition spill_file (es : list (SpillIndexEntry * list byte)) : list byte :=
  let current_pos := 16 + Z.of_nat (List.length es) * Z.of_nat SPILL_INDEX_ENTRY_SIZE in
  SPILL_MAGIC ++ to_le_bytes 4 SPILL_VERSION ++ to_le_bytes 4 (Z.of_nat (List.length es)) ++
  concat ((fun e => entry_bytes e.1) <$> es) ++ pad64 current_pos ++
  concat ((fun e => e.2 ++ pad64 (Z.of_nat (List.length e.2))) <$> es).

(** [io_ok]: creating and writing the file succeeds.  The answer, the file
    written and the arena afterwards. *)
Definition spill_checkpoint (io_ok : bool) (a : Arena) (entries : list ((string * Z) * nat)) (id : string)
  : result SpillError (list byte) * Arena :=
  let infos := slot_info_for_checkpoint a entries id in
  if Nat.eqb (List.length infos) 0 then (Err NotInArena, a)
  else if U32_MAX <? Z.of_nat (List.length infos) then (Err TooManySlots, a)
  else
    let header_size := 16 + Z.of_nat (List.length infos) * Z.of_nat SPILL_INDEX_ENTRY_SIZE in
    let es := spill_slots a (align_up header_size 64) infos in
    if negb io_ok then (Err IoFailed, a)
    else (Ok (spill_file es), free_checkpoint a id).

Fixpoint read_entries (file : list byte) (n i : nat) : result SpillError (list SpillIndexEntry) :=
  match n with
  | O => Ok []
  | S n =>
      let? e := ok_or (Entry_read_from (slice (16 + i * SPILL_INDEX_ENTRY_SIZE) SPILL_INDEX_ENTRY_SIZE file)) (BadEntry i) in
      let? rest := read_entries file n (S i) in
      Ok (e :: rest)
  end.

Definition entry_header (e : SpillIndexEntry) : SlotHeader :=
  mkSlotHeader SLOT_MAGIC (se_dtype e) (se_ndim e) (se_shape e) (se_data_len e).

(** The loading loop; [None] is the panic of slicing [start..end] with
    [end < start] after the addition wrapped. *)
Fixpoint load_entries (a : Arena) (file : list byte) (id : string) (es : list SpillIndexEntry)
  : option (result SpillError unit * Arena) :=
  match es with
  | [] => Some (Ok tt, a)
  | e :: es =>
      let flen := Z.of_nat (List.length file) in
      let max_data_size := Z.of_nat (slot_size a - SLOT_HEADER_SIZE) in
      let start := se_data_offset e in
      let end_ := u64_add start (se_data_len e) in
      if flen <? end_ then Some (Err (TruncatedData end_ flen), a)
      else if max_data_size <? se_data_len e then Some (Err (TooLarge (se_data_len e) max_data_size), a)
      else if end_ <? start then None
      else
        let data := slice (Z.to_nat start) (Z.to_nat (end_ - start)) file in
        if negb (crc32 data =? se_crc32 e) then Some (Err (CrcMismatch (se_layer_idx e) (se_crc32 e) (crc32 data)), a)
        else match alloc_slot a id (se_layer_idx e) with
             | (Err x, a') => Some (Err (ArenaFull x), a')
             | (Ok (ptr, _), a') => load_entries (write_data (update_header a' ptr (entry_header e)) ptr data) file id es
             end
  end.

Definition load_spilled_checkpoint (a : Arena) (file : list byte) (id : string)
  : option (result SpillError unit * Arena) :=
  if Z.of_nat (List.length file) <? 16 then Some (Err TooShort, a)
  else if negb (bool_decide (slice 0 8 file = SPILL_MAGIC)) then Some (Err BadMagic, a)
  else
    let version := from_le_bytes (slice 8 4 file) in
    if negb (version =? SPILL_VERSION) then Some (Err (BadVersion version), a)
    else
      let num_slots := Z.to_nat (from_le_bytes (slice 12 4 file)) in
      let index_end := (16 + num_slots * SPILL_INDEX_ENTRY_SIZE)%nat in
      if Nat.ltb (List.length file) index_end then Some (Err TruncatedIndex, a)
      else match read_entries file num_slots 0 with
           | Err e => Some (Err e, a)
           | Ok es => load_entries a file id es
           end.

(** ** Alignment *)

Lemma align_up_64 v : 0 <= v -> v + 64 <= U64_MAX -> align_up v 64 = (v + 63) / 64 * 64.
Proof.
  intros H0 Hm. unfold align_up. rewrite u64_add_small by (unfold_int; lia).
  rewrite u64_sub_small by (unfold_int; lia). replace (v + 64 - 1) with (v + 63) by lia.
  assert (u64_not (64 - 1) = Z.shiftl (Z.ones 58) 6) as -> by reflexivity.
  rewrite <- (Z.shiftl_mul_pow2 _ 6) by lia. rewrite <- (Z.shiftr_div_pow2 _ 6) by lia.
  apply Z.bits_inj'. intros n Hn. rewrite Z.land_spec, !Z.shiftl_spec by lia.
  destruct (Z.ltb_spec n 6) as [Hlt|Hge].
  - rewrite !(Z.testbit_neg_r _ (n - 6)) by lia. apply andb_false_r.
  - rewrite Z.shiftr_spec by lia. replace (n - 6 + 6) with n by lia.
    destruct (Z.ltb_spec n 64) as [Hlt|Hge'].
    + rewrite Z.ones_spec_low by lia. apply andb_true_r.
    + rewrite Z.ones_spec_high by lia. rewrite andb_false_r. symmetry.
      apply Z.bits_above_log2; [lia|]. apply Z.log2_lt_pow2; [unfold_int; lia|].
      apply Z.lt_le_trans with (2 ^ 64); [unfold_int; lia|]. apply Z.pow_le_mono_r; lia.
Qed.

Lemma align_up_range v : 0 <= v -> v + 64 <= U64_MAX -> v <= align_up v 64 < v + 64.
Proof. intros H0 Hm. rewrite align_up_64 by done. pose proof (Z.div_mod (v + 63) 64). pose proof (Z.mod_pos_bound (v + 63) 64). lia. Qed.

(** ** Index entries *)

Definition entry_ok (e : SpillIndexEntry) : Prop :=
  fits 32 (se_layer_idx e) /\ fits 8 (se_ndim e) /\ shape_ok (se_shape e) /\
  fits 64 (se_data_offset e) /\ fits 64 (se_data_len e) /\ fits 32 (se_crc32 e).

Lemma entry_layout_ok e :
  List.length (se_shape e) = 6%nat -> layout_ok SPILL_INDEX_ENTRY_SIZE (layout (entry_writes e)) = true.
Proof.
  intros (a & b & c & d & f & g & E)%shape_6. unfold entry_writes, layout, dims_writes.
  rewrite E. cbn [imap app fmap list_fmap fst snd]. rewrite !length_to_le_bytes. vm_compute. done.
Qed.

Lemma length_entry_bytes e : List.length (se_shape e) = 6%nat -> List.length (entry_bytes e) = SPILL_INDEX_ENTRY_SIZE.
Proof. intros H. unfold entry_bytes, Entry_write_to. rewrite length_apply_writes; [done|]. by apply entry_layout_ok. Qed.

Lemma entry_roundtrip e : entry_ok e -> Entry_read_from (entry_bytes e) = Some e.
Proof.
  intros (H1 & H2 & [H3 H3'] & H4 & H5 & H6). pose proof (entry_layout_ok e H3) as Hl.
  pose proof (fun i o n z => field_apply_writes (entry_writes e) (zeros SPILL_INDEX_ENTRY_SIZE) i o n z Hl) as F.
  fold (Entry_write_to e (zeros SPILL_INDEX_ENTRY_SIZE)) in F. fold (entry_bytes e) in F.
  set (buf := entry_bytes e) in *. clearbody buf. unfold entry_writes, dims_writes in F.
  destruct (shape_6 _ H3) as (a & b & c & d & f & g & E).
  destruct e as [ly dt nd sh off len crc]; cbn [se_layer_idx se_dtype se_ndim se_shape se_data_offset se_data_len se_crc32] in *. subst sh.
  repeat match goal with H : Forall _ (_ :: _) |- _ => apply Forall_cons in H as [? H] end.
  unfold Entry_read_from. rewrite (F 1%nat _ _ _ eq_refl) by apply dtype_fits. rewrite from_u8_dtype.
  rewrite (F 0%nat _ _ _ eq_refl), (F 2%nat _ _ _ eq_refl), (F 10%nat _ _ _ eq_refl),
    (F 11%nat _ _ _ eq_refl), (F 12%nat _ _ _ eq_refl) by done. do 2 f_equal.
  unfold read_dims. cbn [List.seq fmap list_fmap].
  by rewrite (F 4%nat _ _ _ eq_refl), (F 5%nat _ _ _ eq_refl), (F 6%nat _ _ _ eq_refl),
    (F 7%nat _ _ _ eq_refl), (F 8%nat _ _ _ eq_refl), (F 9%nat _ _ _ eq_refl).
Qed.

Lemma slice_mid {A} (p x s : list A) o n : o = length p -> n = length x -> slice o n (p ++ x ++ s) = x.
Proof. intros -> ->. unfold slice. by rewrite drop_app_length, take_app_length. Qed.

Lemma read_entries_spec es : forall file p s i,
  Forall entry_ok es -> file = p ++ concat (entry_bytes <$> es) ++ s ->
  List.length p = (16 + i * SPILL_INDEX_ENTRY_SIZE)%nat ->
  read_entries file (List.length es) i = Ok es.
Proof.
  induction es as [|e es IH]; intros file p s i Hes Hf Hp; [done|].
  apply Forall_cons in Hes as [He Hes]. cbn [List.length read_entries]. cbn [fmap list_fmap concat] in Hf.
  rewrite <- app_assoc in Hf. pose proof He as (_ & _ & [Hsh _] & _).
  assert (slice (16 + i * SPILL_INDEX_ENTRY_SIZE) SPILL_INDEX_ENTRY_SIZE file = entry_bytes e) as ->.
  { rewrite Hf. apply slice_mid; [done|]. by rewrite length_entry_bytes. }
  rewrite entry_roundtrip by done. cbn [ok_or].
  rewrite (IH file (p ++ entry_bytes e) s (S i)); [done|done|by rewrite Hf, <- app_assoc|].
  rewrite length_app, Hp, length_entry_bytes by done. lia.
Qed.

(** ** Slot information *)

Definition info_data (a : Arena) (info : Z * nat * SlotHeader) : list byte :=
  let '(_, off, h) := info in slice (off + SLOT_HEADER_SIZE) (Z.to_nat (sh_byte_len h)) (region a).

Definition good_info (a : Arena) (info : Z * nat * SlotHeader) : Prop :=
  fits 32 info.1.1 /\ tensor_ok (slot_size a) info.2 (info_data a info).

Definition entry_of (a : Arena) (off : Z) (info : Z * nat * SlotHeader) : SpillIndexEntry :=
  mkSpillIndexEntry info.1.1 (sh_dtype info.2) (sh_ndim info.2) (sh_shape info.2) off
    (Z.of_nat (List.length (info_data a info))) (crc32 (info_data a info)).

Lemma spill_slot_good a off info :
  good_info a info -> spill_slot a off info = (entry_of a off info, info_data a info).
Proof.
  destruct info as [[l o] h]. intros (_ & _ & Hb & Hfit). unfold spill_slot, entry_of, info_data in *. cbn [fst snd] in *.
  rewrite Z.min_l by (unfold SLOT_HEADER_SIZE in *; lia). by rewrite <- Hb.
Qed.

(** The blob of tensors behind the index. *)
Definition blob (a : Arena) (infos : list (Z * nat * SlotHeader)) : list byte :=
  concat ((fun info => info_data a info ++ pad64 (Z.of_nat (List.length (info_data a info)))) <$> infos).

Lemma length_padded (d : list byte) :
  Z.of_nat (List.length d) + 64 <= U64_MAX ->
  Z.of_nat (List.length (d ++ pad64 (Z.of_nat (List.length d)))) = align_up (Z.of_nat (List.length d)) 64.
Proof.
  intros H. rewrite length_app. unfold pad64, zeros. rewrite repeat_length.
  pose proof (align_up_range (Z.of_nat (List.length d))). lia.
Qed.

Lemma spill_slots_blob a infos : forall off,
  Forall (good_info a) infos ->
  concat ((fun e => e.2 ++ pad64 (Z.of_nat (List.length e.2))) <$> spill_slots a off infos) = blob a infos /\
  List.length (spill_slots a off infos) = List.length infos.
Proof.
  induction infos as [|info infos IH]; intros off Hg; [done|]. apply Forall_cons in Hg as [Hi Hg].
  cbn [spill_slots]. rewrite spill_slot_good by done. cbn [fmap list_fmap concat List.length snd fst se_data_len entry_of].
  destruct (IH (u64_add off (align_up (se_data_len (entry_of a off info)) 64)) Hg) as [E1 E2].
  split; [|by f_equal]. unfold blob. cbn [fmap list_fmap concat]. f_equal. exact E1.
Qed.

Context (Hcrc : forall d, fits 32 (crc32 d)).

(** Every generated entry is in range, as long as the file is addressable. *)
Lemma spill_slots_entries_ok a infos : forall off,
  Forall (good_info a) infos -> 0 <= off ->
  off + Z.of_nat (List.length (blob a infos)) + 64 <= U64_MAX ->
  Forall entry_ok (spill_slots a off infos).*1.
Proof.
  induction infos as [|info infos IH]; intros off Hg H0 Hm; [constructor|]. apply Forall_cons in Hg as [Hi Hg].
  unfold blob in Hm. cbn [fmap list_fmap concat] in Hm. rewrite length_app in Hm. fold (blob a infos) in Hm.
  rewrite length_app in Hm.
  cbn [spill_slots]. rewrite spill_slot_good by done. cbn [fmap list_fmap fst].
  pose proof Hi as (Hl & (_ & Hn & Hs & Hb) & Hbl & Hfit).
  pose proof (length_padded (info_data a info) ltac:(lia)) as Hp. rewrite length_app in Hp.
  constructor.
  - split_and!; try done; cbn [entry_of se_data_offset se_data_len se_crc32]; unfold fits; try (unfold_int; lia). apply Hcrc.
  - cbn [entry_of se_data_len]. rewrite u64_add_small by lia. apply IH; [done|lia|lia].
Qed.

(** ** Loading replays the saves *)

Definition saves (a : Arena) (id : string) (infos : list (Z * nat * SlotHeader)) : list op :=
  (fun info => OSave id info.1.1 info.2 (info_data a info)) <$> infos.

Lemma available_save a id l h data :
  (0 < available a)%nat -> exists off, save a id l h data = (Ok off, (arena_op a (OSave id l h data)).2) /\
    S (available (arena_op a (OSave id l h data)).2) = available a.
Proof.
  intros Hav. unfold available in *. cbn [arena_op].
  destruct (pop (free_list a)) as [[i rest]|] eqn:Hp.
  - rewrite (save_shape a id l h data i rest Hp). eexists. split; [done|].
    apply pop_spec in Hp as Hf. unfold alloc_slot. rewrite Hp. aproj. rewrite Hf, length_app. cbn. lia.
  - exfalso. unfold pop in Hp. destruct (rev (free_list a)) eqn:Er; [|done].
    rewrite <- (rev_involutive (free_list a)), Er in Hav. cbn in Hav. lia.
Qed.

Lemma load_entries_run a infos : forall a2 file p s off id,
  Forall (good_info a) infos -> slot_size a2 = slot_size a -> (List.length infos <= available a2)%nat ->
  file = p ++ blob a infos ++ s -> Z.of_nat (List.length p) = off ->
  Z.of_nat (List.length file) + 64 <= U64_MAX ->
  load_entries a2 file id (spill_slots a off infos).*1
  = Some (Ok tt, (run_ops arena_op a2 (saves a id infos)).2).
Proof.
  induction infos as [|info infos IH]; intros a2 file p s off id Hg Hss Hav Hf Hp Hm; [done|].
  apply Forall_cons in Hg as [Hi Hg]. pose proof Hi as (_ & Hhdr & Hbl & Hfit). cbn [List.length] in Hav.
  assert (Z.of_nat (List.length file) = off + Z.of_nat (List.length (info_data a info ++ pad64 (Z.of_nat (List.length (info_data a info)))))
    + Z.of_nat (List.length (blob a infos ++ s))) as Hlen.
  { rewrite Hf. unfold blob. cbn [fmap list_fmap concat]. fold (blob a infos). rewrite !length_app. lia. }
  pose proof (length_app (info_data a info) (pad64 (Z.of_nat (List.length (info_data a info))))) as Hla.
  pose proof (length_padded (info_data a info) ltac:(lia)) as Hpad.
  cbn [spill_slots]. rewrite spill_slot_good by done. cbn [fmap list_fmap fst load_entries entry_of se_data_offset se_data_len se_crc32 se_layer_idx].
  rewrite (u64_add_small off (Z.of_nat _)) by lia.
  rewrite !(proj2 (Z.ltb_ge _ _)) by (rewrite ?Hss; unfold SLOT_HEADER_SIZE in *; lia).
  assert (slice (Z.to_nat off) (Z.to_nat (off + Z.of_nat (List.length (info_data a info)) - off)) file = info_data a info) as ->.
  { rewrite Hf. unfold blob. cbn [fmap list_fmap concat]. rewrite <- !app_assoc. apply slice_mid; lia. }
  rewrite Z.eqb_refl. cbn [negb].
  destruct (available_save a2 id info.1.1 info.2 (info_data a info) ltac:(lia)) as (ptr & Hsv & Hav').
  cbn [saves fmap list_fmap run_ops]. fold (saves a id infos).
  assert (entry_header (entry_of a off info) = info.2) as Eh.
  { pose proof Hhdr as (Hmg & _). unfold entry_header, entry_of.
    cbn [se_dtype se_ndim se_shape se_data_len]. rewrite <- Hbl, <- Hmg. by destruct (info.2). }
  set (a3 := (arena_op a2 (OSave id info.1.1 info.2 (info_data a info))).2) in *.
  assert (slot_size a3 = slot_size a) as Hss3 by (unfold a3; by rewrite op_slot_size).
  unfold save in Hsv. destruct (alloc_slot a2 id info.1.1) as [[[ptr' h0]|e] a'] eqn:Ea; [|done].
  injection Hsv as E1 E2. fold (entry_of a off info). rewrite Eh, E2. rewrite (surjective_pairing (arena_op a2 _)). fold a3.
  rewrite (IH a3 file (p ++ info_data a info ++ pad64 (Z.of_nat (List.length (info_data a info)))) s); try done.
  - destruct (run_ops arena_op a3 _). done.
  - lia.
  - rewrite Hf. unfold blob. cbn [fmap list_fmap concat]. by rewrite <- !app_assoc.
  - rewrite length_app, u64_add_small by lia. lia.
Qed.

Lemma saves_spec id (f : Z -> SlotHeader * list byte) ls : forall st,
  (List.length ls <= st_free st)%nat -> forall id' l',
  st_tensors (run_ops spec_op st ((fun l => OSave id l (f l).1 (f l).2) <$> ls)).2 !! (id', l')
  = if decide (id' = id /\ l' ∈ ls) then Some (f l') else st_tensors st !! (id', l').
Proof.
  clear dependent crc32.
  induction ls as [|l ls IH]; intros st Hf id' l'.
  - rewrite decide_False by (intros [_ ?%elem_of_nil]; done). done.
  - cbn [List.length] in Hf. cbn [fmap list_fmap run_ops spec_op]. destruct (st_free st) as [|n] eqn:En; [lia|].
    set (st1 := mkStore _ _ _ _). specialize (IH st1 ltac:(cbn; lia) id' l').
    destruct (run_ops spec_op st1 _) as [bs st2]. cbn [snd] in *. rewrite IH. unfold st1; cbn [st_tensors].
    destruct (decide (id' = id)) as [->|Hid].
    + destruct (decide (l' = l)) as [->|Hl].
      * rewrite lookup_insert_eq. destruct (decide (id = id /\ l ∈ ls)), (decide (id = id /\ l ∈ l :: ls)); try set_solver.
        by destruct (f l).
      * rewrite lookup_insert_ne by congruence.
        destruct (decide (id = id /\ l' ∈ ls)), (decide (id = id /\ l' ∈ l :: ls)); set_solver.
    + rewrite lookup_insert_ne by congruence.
      destruct (decide (id' = id /\ l' ∈ ls)), (decide (id' = id /\ l' ∈ l :: ls)); set_solver.
Qed.

End WithCrc.

(** ** What [slot_info_for_checkpoint] lists *)

Lemma owner_unique m id1 id2 l1 l2 i :
  NoDup (owned m) -> m !! id1 = Some l1 -> m !! id2 = Some l2 -> i ∈ l1 -> i ∈ l2 -> id1 = id2.
Proof.
  intros Hnd H1 H2 Hi1 Hi2. destruct (decide (id1 = id2)) as [|Hne]; [done|exfalso].
  pose proof (owned_delete m id1) as Hp. rewrite H1 in Hp. rewrite Hp in Hnd. cbn in Hnd.
  apply NoDup_app in Hnd as (_ & Hd & _). apply (Hd i Hi1).
  eapply (elem_of_owned _ id2 l2); [by rewrite lookup_delete_ne|done].
Qed.

Section Infos.
Context (a : Arena) (st : Store) (I : implements a st) (id : string).
Context (entries : list ((string * Z) * nat)) (Hentries : entries ≡ₚ map_to_list (index a)).

Lemma entries_index k d : (k, d) ∈ entries <-> index a !! k = Some d.
Proof. rewrite Hentries. apply elem_of_map_to_list. Qed.

Lemma slot_info_sound i ls l off h :
  checkpoint_slots a !! id = Some ls -> i ∈ ls -> slot_info_one a entries i = Some (l, off, h) ->
  exists d, st_tensors st !! (id, l) = Some (h, d) /\ info_data a (l, off, h) = d /\
    index a !! (id, l) <> None.
Proof.
  intros Hls Hi. unfold slot_info_one. destruct (List.find _ entries) as [[[id' l'] d]|] eqn:Ef; [|done].
  apply List.find_some in Ef as [Hin Hoff]. apply list_elem_of_In, entries_index in Hin. cbn [snd] in *.
  destruct (slots a !! d) as [desc|] eqn:Ed; [|done]. apply Nat.eqb_eq in Hoff.
  pose proof (im_ok a st I) as Hok.
  destruct (ok_index a Hok _ _ _ Hin) as (j & ls' & Hd & Hc & Hj). rewrite Ed in Hd. injection Hd as ->. cbn in Hoff.
  apply (slot_offset_inj a Hok) in Hoff as ->.
  assert (id' = id) as ->.
  { eapply owner_unique; [|exact Hc|exact Hls|exact Hj|exact Hi].
    pose proof (partition_nodup a Hok) as Hnd. by apply NoDup_app in Hnd as (_ & _ & ?). }
  destruct (proj1 (im_keys a st I (id, l')) ltac:(eauto)) as [[h' data] Et].
  destruct (im_data a st I _ _ _ _ Hin Et) as (j & Hj' & (Hok1 & Hok2 & Hok3) & Hh & Hdat). cbn [fst snd] in *.
  rewrite Ed in Hj'. injection Hj' as Ej. rewrite <- Ej in *.
  rewrite Hh, slot_header_roundtrip by done. intros [= <- <- <-]. cbn [layer_idx].
  exists data. split_and!; [done| |by rewrite Hin]. unfold info_data. by rewrite Hok2, Nat2Z.id.
Qed.

Lemma slot_info_complete ls l t :
  checkpoint_slots a !! id = Some ls -> st_tensors st !! (id, l) = Some t ->
  exists i off h, i ∈ ls /\ slot_info_one a entries i = Some (l, off, h).
Proof.
  intros Hls Ht. pose proof (im_ok a st I) as Hok.
  destruct (proj2 (im_keys a st I (id, l)) ltac:(eauto)) as [d Hd].
  destruct (ok_index a Hok _ _ _ Hd) as (i & ls' & Hs & Hc & Hi). rewrite Hls in Hc. injection Hc as <-.
  exists i, (i * slot_size a)%nat, t.1. split; [done|].
  unfold slot_info_one. destruct (List.find _ entries) as [[[id' l'] d']|] eqn:Ef.
  - apply List.find_some in Ef as [Hin Hoff]. apply list_elem_of_In, entries_index in Hin. cbn [snd] in *.
    destruct (slots a !! d') as [desc|] eqn:Ed; [|done]. apply Nat.eqb_eq in Hoff.
    pose proof (ok_distinct a Hok _ _ _ _ _ _ Hin Hd Ed Hs Hoff) as [= -> ->].
    rewrite Hd in Hin. injection Hin as <-. rewrite Hs in Ed. injection Ed as <-.
    destruct (im_data a st I _ _ _ _ Hd Ht) as (j & Hj & (Hok1 & _) & Hh & _).
    rewrite Hs in Hj. injection Hj as Ej.
    cbn [snd layer_idx].
    rewrite Ej, Hh, slot_header_roundtrip by done. done.
  - exfalso. assert (List.In ((id, l), d) entries) as Hin by (by apply list_elem_of_In, entries_index).
    pose proof (List.find_none _ _ Ef _ Hin) as Hn. cbn [snd] in Hn. rewrite Hs in Hn.
    cbn [offset] in Hn. by rewrite Nat.eqb_refl in Hn.
Qed.

(** The tensor the store holds for a layer of [id]. *)
Definition tensor_at (l : Z) : SlotHeader * list byte :=
  default (mkSlotHeader 0 Float32 0 [] 0, []) (st_tensors st !! (id, l)).

Lemma slot_infos_spec ls :
  checkpoint_slots a !! id = Some ls ->
  (forall i l, is_Some (index a !! (i, l)) -> fits 32 l) ->
  let infos := slot_info_for_checkpoint a entries id in
  Forall (good_info a) infos /\ (List.length infos <= List.length ls)%nat /\
  (forall id2, saves a id2 infos = (fun l => OSave id2 l (tensor_at l).1 (tensor_at l).2) <$> infos.*1.*1) /\
  (forall l, l ∈ infos.*1.*1 <-> is_Some (st_tensors st !! (id, l))).
Proof.
  intros Hls Hfit. cbn zeta. unfold slot_info_for_checkpoint. rewrite Hls.
  set (infos := omap (slot_info_one a entries) ls).
  assert (forall info, info ∈ infos -> st_tensors st !! (id, info.1.1) = Some (info.2, info_data a info) /\
    fits 32 info.1.1 /\ tensor_ok (slot_size a) info.2 (info_data a info)) as Hs.
  { intros [[l off] h] Hin. apply list_elem_of_omap in Hin as (i & Hi & Hone).
    destruct (slot_info_sound i ls l off h Hls Hi Hone) as (d & Ht & Hd & Hidx).
    destruct (index a !! (id, l)) as [dd|] eqn:Ed; [|done]. cbn [fst snd]. rewrite Hd. split; [done|].
    split; [eapply Hfit; by rewrite Ed|]. destruct (im_data a st I _ _ _ _ Ed Ht) as (? & _ & H & _). exact H. }
  split_and!.
  - apply Forall_forall. intros info Hin. by apply Hs.
  - unfold infos. clear. induction ls as [|x ls IH]; [done|]. cbn. destruct (slot_info_one a entries x); cbn; lia.
  - intros id2. unfold saves. rewrite <- !list_fmap_compose. apply list_fmap_ext. intros j info Hj.
    cbn. unfold tensor_at. destruct (Hs info) as [-> _]; [by eapply list_elem_of_lookup_2|]. done.
  - intros l. rewrite <- list_fmap_compose. split.
    + intros (info & -> & Hin)%list_elem_of_fmap. destruct (Hs info Hin) as [E _]. cbn. by rewrite E.
    + intros [t Ht]. destruct (slot_info_complete ls l t Hls Ht) as (i & off & h & Hi & Hone).
      apply list_elem_of_fmap. exists (l, off, h). split; [done|]. apply list_elem_of_omap. by exists i.
Qed.

End Infos.

Lemma saves_ok a id infos : Forall (good_info a) infos -> Forall (op_ok (slot_size a)) (saves a id infos).
Proof. intros Hg. apply Forall_fmap. eapply Forall_impl; [exact Hg|]. by intros info [_ H]. Qed.

Lemma length_blob a infos :
  Forall (good_info a) infos -> Z.of_nat (slot_size a) + 64 <= U64_MAX ->
  Z.of_nat (List.length (blob a infos)) <= Z.of_nat (List.length infos) * (Z.of_nat (slot_size a) + 64).
Proof.
  intros Hg Hm. induction Hg as [|info infos (_ & _ & _ & Hfit) Hg IH]; [done|].
  unfold blob. cbn [fmap list_fmap concat]. fold (blob a infos). rewrite length_app, Nat2Z.inj_add.
  rewrite length_padded by (unfold SLOT_HEADER_SIZE in *; lia).
  pose proof (align_up_range (Z.of_nat (List.length (info_data a info)))) as Ha.
  unfold SLOT_HEADER_SIZE in *. cbn [List.length]. lia.
Qed.

(** The file written for [infos] loads by replaying the saves. *)
Lemma spilled_file_loads crc32 (Hcrc : forall d, fits 32 (crc32 d)) a infos a2 id2 :
  Forall (good_info a) infos -> slot_size a2 = slot_size a -> (List.length infos <= available a2)%nat ->
  Z.of_nat (List.length infos) <= U32_MAX ->
  Z.of_nat (List.length infos) * (Z.of_nat (slot_size a) + 256) + 256 <= U64_MAX /\ Z.of_nat (slot_size a) + 64 <= U64_MAX ->
  load_spilled_checkpoint crc32 a2
    (spill_file (spill_slots crc32 a (align_up (16 + Z.of_nat (List.length infos) * 80) 64) infos)) id2
  = Some (Ok tt, (run_ops arena_op a2 (saves a id2 infos)).2).
Proof.
  intros Hg Hss Hav Hcnt [Hsize Hslot].
  set (n := List.length infos) in *. set (base := align_up (16 + Z.of_nat n * 80) 64).
  pose proof (length_blob a infos Hg Hslot) as Hblob. fold n in Hblob.
  pose proof (align_up_range (16 + Z.of_nat n * 80)) as Hbase. fold base in Hbase.
  destruct (spill_slots_blob crc32 a infos base Hg) as [Hb Hl]. fold n in Hl.
  pose proof (spill_slots_entries_ok crc32 Hcrc a infos base Hg) as Hes.
  set (es := spill_slots crc32 a base infos) in *. set (file := spill_file es).
  set (hdr := SPILL_MAGIC ++ to_le_bytes 4 SPILL_VERSION ++ to_le_bytes 4 (Z.of_nat n)).
  set (idx := concat (entry_bytes <$> es.*1)). set (pad := pad64 (16 + Z.of_nat n * 80)).
  assert (file = hdr ++ idx ++ pad ++ blob a infos) as Hfile.
  { unfold file, spill_file, hdr, idx, pad. rewrite Hb, Hl, <- !app_assoc, <- list_fmap_compose. done. }
  assert (List.length hdr = 16%nat) as Lh by (unfold hdr; rewrite !length_app, !length_to_le_bytes; done).
  assert (Forall entry_ok es.*1) as Hok by (apply Hes; lia).
  assert (List.length idx = (n * 80)%nat) as Li.
  { rewrite <- Hl. unfold idx. clear -Hok. induction es as [|e es IH]; [done|].
    apply Forall_cons in Hok as [(_ & _ & [H _] & _) Hok]. cbn [fmap list_fmap concat List.length].
    rewrite length_app, length_entry_bytes, IH by done. unfold SPILL_INDEX_ENTRY_SIZE. lia. }
  assert (Z.of_nat (List.length pad) = base - (16 + Z.of_nat n * 80)) as Lp.
  { unfold pad, pad64, zeros. rewrite repeat_length. fold base. lia. }
  assert (Z.of_nat (List.length file) = base + Z.of_nat (List.length (blob a infos))) as Lf
    by (rewrite Hfile, !length_app; lia).
  unfold load_spilled_checkpoint.
  rewrite (proj2 (Z.ltb_ge _ _)) by lia.
  assert (slice 0 8 file = SPILL_MAGIC /\ slice 8 4 file = to_le_bytes 4 SPILL_VERSION /\
    slice 12 4 file = to_le_bytes 4 (Z.of_nat n)) as (-> & -> & ->).
  { rewrite Hfile. unfold hdr. rewrite <- !app_assoc. split_and!.
    - by apply (slice_mid []).
    - by apply slice_mid; [|rewrite length_to_le_bytes].
    - rewrite (app_assoc SPILL_MAGIC). apply slice_mid; [rewrite length_app|]; by rewrite length_to_le_bytes. }
  rewrite bool_decide_eq_true_2 by done. cbn [negb]. rewrite !from_to_le_bytes by (unfold SPILL_VERSION; unfold_int; lia).
  rewrite Z.eqb_refl. cbn [negb]. rewrite Nat2Z.id.
  rewrite (proj2 (Nat.ltb_ge _ _)) by (unfold SPILL_INDEX_ENTRY_SIZE; lia).
  replace n with (List.length es.*1) at 1 by (by rewrite length_fmap).
  rewrite (read_entries_spec _ file hdr (pad ++ blob a infos) 0); [|done|done|lia].
  apply (load_entries_run crc32 a infos a2 file (hdr ++ idx ++ pad) []); try done.
  - by rewrite app_nil_r, Hfile, <- !app_assoc.
  - rewrite !length_app. lia.
  - lia.
Qed.

(** C17: spill and load are inverse.  Take an arena that holds a checkpoint with
    at least one readable layer (any hash-map iteration order): spilling it
    writes a file and frees all its slots, and loading that file, under any id,
    into any arena with the same slot size and enough free slots succeeds;
    every layer then reads back with the same header and bytes, and everything
    else in the receiving arena is untouched.  CRC-32 may be any function into
    32 bits; the sizes must leave the file addressable. *)
Theorem spill_load_roundtrip (crc32 : list byte -> Z) (a a2 : Arena) (st st2 : Store)
    (entries : list ((string * Z) * nat)) (id id2 : string) (ls : list nat) (l0 : Z) :
  (forall d, fits 32 (crc32 d)) -> implements a st -> implements a2 st2 ->
  entries ≡ₚ map_to_list (index a) -> slot_size a2 = slot_size a ->
  (forall i l, is_Some (index a !! (i, l)) -> fits 32 l) ->
  checkpoint_slots a !! id = Some ls -> is_Some (read_tensor a id l0) ->
  (List.length ls <= available a2)%nat -> Z.of_nat (List.length ls) <= U32_MAX ->
  Z.of_nat (List.length ls) * (Z.of_nat (slot_size a) + 256) + 256 <= U64_MAX ->
  exists file a3,
    spill_checkpoint crc32 true a entries id = (Ok file, free_checkpoint a id) /\
    load_spilled_checkpoint crc32 a2 file id2 = Some (Ok tt, a3) /\ arena_ok a3 /\
    forall id' l, read_tensor a3 id' l =
      if decide (id' = id2) then match read_tensor a id l with Some t => Some t | None => read_tensor a2 id2 l end
      else read_tensor a2 id' l.
Proof.
  intros Hcrc I I2 Hent Hss Hfit Hls Hl0 Hav Hcnt Hsize.
  destruct (slot_infos_spec a st I id entries Hent ls Hls Hfit) as (Hg & Hn & Hsv & Hin).
  set (infos := slot_info_for_checkpoint a entries id) in *.
  assert (infos <> []) as Hne.
  { rewrite (implements_read a st id l0 I) in Hl0. apply Hin in Hl0. intros E. rewrite E in Hl0. by apply elem_of_nil in Hl0. }
  assert (0 < List.length infos)%nat as Hpos by (destruct infos; cbn; [done|lia]).
  pose proof (spilled_file_loads crc32 Hcrc a infos a2 id2 Hg Hss ltac:(lia) ltac:(lia) ltac:(nia)) as Hload.
  exists (spill_file (spill_slots crc32 a (align_up (16 + Z.of_nat (List.length infos) * 80) 64) infos)).
  exists (run_ops arena_op a2 (saves a id2 infos)).2. split_and!.
  - unfold spill_checkpoint. fold infos. rewrite (proj2 (Nat.eqb_neq _ _)) by lia.
    by rewrite (proj2 (Z.ltb_ge _ _)) by lia.
  - exact Hload.
  - destruct (run_implements (saves a id2 infos) a2 st2 I2) as [_ I3]; [|apply I3].
    rewrite Hss. by apply saves_ok.
  - destruct (run_implements (saves a id2 infos) a2 st2 I2) as [_ I3]; [rewrite Hss; by apply saves_ok|].
    intros id' l. rewrite (implements_read _ _ _ _ I3), !(implements_read _ _ _ _ I2), (implements_read _ _ _ _ I), Hsv.
    rewrite saves_spec by (rewrite !length_fmap, <- (im_free _ _ I2); lia).
    destruct (decide (id' = id2)) as [->|Hid].
    + destruct (decide (id2 = id2 /\ l ∈ infos.*1.*1)) as [[_ Hl]|Hl].
      * apply Hin in Hl as [t Ht]. unfold tensor_at. by rewrite Ht.
      * destruct (st_tensors st !! (id, l)) eqn:Et; [|done]. destruct Hl. split; [done|]. apply Hin. eauto.
    + rewrite decide_False by naive_solver. done.
Qed.

(** ** Witness and corner cases *)

Definition demo_crc (d : list byte) : Z := Z.of_nat (List.length d) mod 2 ^ 32.

Lemma demo_crc_fits d : fits 32 (demo_crc d).
Proof. apply Z.mod_pos_bound. lia. Qed.

Definition empty_arena : Arena := mkArena (zeros 132) 66 2 [1%nat; 0%nat] [] ∅ ∅ [].
Definition demo_ops : list op := [OSave "c1" 3 demo_slot_header [Byte.x0a; Byte.x0b]].
Definition demo_arena : Arena := (run_ops arena_op empty_arena demo_ops).2.

Lemma empty_arena_implements : implements empty_arena (mkStore 2 ∅ ∅ []).
Proof.
  destruct (arena_new_ok true 66 2 empty_arena eq_refl) as (Hok & _).
  split; [done|done|done|done| |].
  - intros k. cbn. rewrite !lookup_empty. done.
  - intros id l d t. cbn. by rewrite lookup_empty.
Qed.

Lemma demo_arena_implements : implements demo_arena (run_ops spec_op (mkStore 2 ∅ ∅ []) demo_ops).2.
Proof.
  apply run_implements; [exact empty_arena_implements|]. apply Forall_singleton. exact demo_tensor_ok.
Qed.

Lemma spill_load_roundtrip_witness :
  exists file a3,
    spill_checkpoint demo_crc true demo_arena (map_to_list (index demo_arena)) "c1"
      = (Ok file, free_checkpoint demo_arena "c1") /\
    load_spilled_checkpoint demo_crc empty_arena file "c2" = Some (Ok tt, a3) /\
    read_tensor a3 "c2" 3 = Some (demo_slot_header, [Byte.x0a; Byte.x0b]).
Proof.
  destruct (spill_load_roundtrip demo_crc demo_arena empty_arena _ _ (map_to_list (index demo_arena)) "c1" "c2" [0%nat] 3
    demo_crc_fits demo_arena_implements empty_arena_implements) as (file & a3 & H1 & H2 & _ & H4).
  - reflexivity.
  - reflexivity.
  - intros i l [d Hd]. change (index demo_arena) with (<[("c1"%string, 3) := 0%nat]> (∅ : gmap (string * Z) nat)) in Hd.
    apply lookup_insert_Some in Hd as [[[= <- <-] _]|[_ Hd]]; [vm_compute; done|]. by rewrite lookup_empty in Hd.
  - vm_compute. reflexivity.
  - vm_compute. by eexists.
  - vm_compute. lia.
  - vm_compute. discriminate.
  - vm_compute. discriminate.
  - exists file, a3. split; [exact H1|]. split; [exact H2|]. rewrite H4. vm_compute. reflexivity.
Defined.

(** A spill file whose index names an offset near 2^64: the end of the range
    wraps below its start, the length check passes, and slicing panics. *)
Definition wrapping_entry : SpillIndexEntry := mkSpillIndexEntry 0 Float32 0 [0; 0; 0; 0; 0; 0] U64_MAX 2 0.

Lemma load_wrapping_offset_panics :
  load_spilled_checkpoint demo_crc empty_arena (spill_file [(wrapping_entry, [])]) "c" = None.
Proof. vm_compute. reflexivity. Qed.

(** Loading is not transactional: when the arena fills up half-way the slots
    already taken stay allocated under the new id. *)
Lemma load_failure_keeps_slots :
  exists es a', load_entries demo_crc
      (run_ops arena_op empty_arena [OSave "x" 0 demo_slot_header [Byte.x0a; Byte.x0b]]).2 [] "c2" es
      = Some (Err (ArenaFull Exhausted), a') /\ checkpoint_slots a' !! "c2"%string = Some [1%nat].
Proof.
  exists [mkSpillIndexEntry 0 Float32 0 [0; 0; 0; 0; 0; 0] 0 0 0; mkSpillIndexEntry 1 Float32 0 [0; 0; 0; 0; 0; 0] 0 0 0].
  eexists. split; vm_compute; reflexivity.
Qed.
