(* ===== verification/Stats.v ===== *)
(** * Stats: the summary of a tensor

    [crates/rocket-surgeon/src/tensor_stats.rs].  The conversions of the [half]
    crate are parameters; which of several least entries is at the root of the
    heap, and the order in which the heap is emptied, are arbitrary.  A panic is
    [None]. *)

From Stdlib Require Import ZArith Lia SpecFloat Sorted.
From coqutil Require Import Byte.
From stdpp Require Import base list sorting sets.
From S2P Require Import Prelude Protocol Float.
Open Scope Z_scope.

Definition NUM_HISTOGRAM_BINS : Z := 64.
(** [1e-8] *)
Definition SPARSITY_EPSILON : f64 := S754_finite false 6044629098073146 (-79).
Definition DEFAULT_TOP_K : Z := 10.

Record Pass1Result := mkPass1Result {
  p1_n : Z;
  p1_mean : f64;
  p1_m2 : f64;
  p1_min : f64;
  p1_max : f64;
  p1_abs_max : f64;
  p1_sparse_count : Z;
  p1_nan_count : Z;
  p1_inf_count : Z;
  p1_l2_accum : f64;
  p1_l2_scale : f64
}.

Record TopKHeapEntry := mkTopKHeapEntry { he_abs_value : f64; he_original_value : f64; he_flat_index : Z }.

Record Pass2Result := mkPass2Result { p2_counts : list Z; p2_edges : list f64; p2_top_k : list TopKHeapEntry }.

(** ** The first pass *)

Definition pass1_start : Pass1Result :=
  mkPass1Result 0 f64_zero f64_zero f64_infinity f64_neg_infinity f64_zero 0 0 0 f64_zero f64_zero.

Definition pass1_step (p : Pass1Result) (x : f64) : Pass1Result :=
  let n := u64_add (p1_n p) 1 in
  if negb (is_finite x) then
    mkPass1Result n (p1_mean p) (p1_m2 p) (p1_min p) (p1_max p) (p1_abs_max p) (p1_sparse_count p)
      (if is_nan x then u64_add (p1_nan_count p) 1 else p1_nan_count p)
      (if is_nan x then p1_inf_count p else u64_add (p1_inf_count p) 1) (p1_l2_accum p) (p1_l2_scale p)
  else
    let finite := u64_sub (u64_sub n (p1_nan_count p)) (p1_inf_count p) in
    let delta := f64_sub x (p1_mean p) in
    let mean := f64_add (p1_mean p) (f64_div delta (f64_of_Z finite)) in
    let delta2 := f64_sub x mean in
    let m2 := f64_add (p1_m2 p) (f64_mul delta delta2) in
    let min := if f64_ltb x (p1_min p) then x else p1_min p in
    let max := if f64_ltb (p1_max p) x then x else p1_max p in
    let ax := f64_abs x in
    let abs_max := if f64_ltb (p1_abs_max p) ax then ax else p1_abs_max p in
    let sparse_count := if f64_ltb ax SPARSITY_EPSILON then u64_add (p1_sparse_count p) 1 else p1_sparse_count p in
    let larger := f64_ltb (p1_l2_scale p) ax in
    let accum := if larger && f64_ltb f64_zero (p1_l2_scale p)
                 then let ratio := f64_div (p1_l2_scale p) ax in f64_mul (f64_mul (p1_l2_accum p) ratio) ratio
                 else p1_l2_accum p in
    let scale := if larger then ax else p1_l2_scale p in
    let accum := if f64_ltb f64_zero scale then let scaled := f64_div x scale in f64_add accum (f64_mul scaled scaled) else accum in
    mkPass1Result n mean m2 min max abs_max sparse_count (p1_nan_count p) (p1_inf_count p) accum scale.

Definition compute_pass1 (values : list f64) : Pass1Result := foldl pass1_step pass1_start values.

Definition p1_finite (p : Pass1Result) : Z := u64_sub (u64_sub (p1_n p) (p1_nan_count p)) (p1_inf_count p).

Definition merge_pass1 (a b : Pass1Result) : Pass1Result :=
  if p1_n a =? 0 then b
  else if p1_n b =? 0 then a
  else
    let a_finite := p1_finite a in
    let b_finite := p1_finite b in
    let total_finite := u64_add a_finite b_finite in
    let '(mean, m2) :=
      if total_finite =? 0 then (f64_zero, f64_zero)
      else
        let delta := f64_sub (p1_mean b) (p1_mean a) in
        (f64_mul_add delta (f64_div (f64_of_Z b_finite) (f64_of_Z total_finite)) (p1_mean a),
         f64_mul_add (f64_mul delta delta)
           (f64_div (f64_mul (f64_of_Z a_finite) (f64_of_Z b_finite)) (f64_of_Z total_finite)) (f64_add (p1_m2 a) (p1_m2 b))) in
    let '(l2_scale, l2_accum) :=
      if f64_leb (p1_l2_scale b) (p1_l2_scale a) then
        if f64_ltb f64_zero (p1_l2_scale a) && f64_ltb f64_zero (p1_l2_scale b) then
          let ratio := f64_div (p1_l2_scale b) (p1_l2_scale a) in
          (p1_l2_scale a, f64_mul_add (f64_mul (p1_l2_accum b) ratio) ratio (p1_l2_accum a))
        else (p1_l2_scale a, p1_l2_accum a)
      else if f64_ltb f64_zero (p1_l2_scale b) && f64_ltb f64_zero (p1_l2_scale a) then
        let ratio := f64_div (p1_l2_scale a) (p1_l2_scale b) in
        (p1_l2_scale b, f64_mul_add (f64_mul (p1_l2_accum a) ratio) ratio (p1_l2_accum b))
      else (p1_l2_scale b, p1_l2_accum b) in
    mkPass1Result (u64_add (p1_n a) (p1_n b)) mean m2 (f64_min (p1_min a) (p1_min b)) (f64_max (p1_max a) (p1_max b))
      (f64_max (p1_abs_max a) (p1_abs_max b)) (u64_add (p1_sparse_count a) (p1_sparse_count b))
      (u64_add (p1_nan_count a) (p1_nan_count b)) (u64_add (p1_inf_count a) (p1_inf_count b)) l2_accum l2_scale.

(** ** The second pass *)

(** The bin of a value; [frac] may be anything when [range] overflows. *)
Definition bin_of (range_min range x : f64) : Z :=
  if f64_ltb f64_zero range
  then Z.min (f64_floor_as_usize (f64_mul (f64_div (f64_sub x range_min) range) (f64_of_Z NUM_HISTOGRAM_BINS))) (NUM_HISTOGRAM_BINS - 1)
  else NUM_HISTOGRAM_BINS / 2.

Definition count_bin (counts : list Z) (bin : Z) : list Z := alter (fun c => u64_add c 1) (Z.to_nat bin) counts.

Section Heap.
(** Where the heap has the entry it would pop next, and how it is iterated. *)
Context (root : list TopKHeapEntry -> nat) (drain : list TopKHeapEntry -> list TopKHeapEntry).

(** A min-heap of at most [k] entries. *)
Definition offer (k : nat) (entry : TopKHeapEntry) (heap : list TopKHeapEntry) : list TopKHeapEntry :=
  if Nat.ltb (List.length heap) k then entry :: heap
  else match heap !! root heap with
       | Some min_entry => if f64_ltb (he_abs_value min_entry) (he_abs_value entry) then entry :: delete (root heap) heap else heap
       | None => heap
       end.

(** The loop over the values, from index [i]. *)
Fixpoint pass2_loop (range_min range : f64) (k : nat) (i : Z) (values : list f64) (counts : list Z) (heap : list TopKHeapEntry)
  : list Z * list TopKHeapEntry :=
  match values with
  | [] => (counts, heap)
  | x :: rest =>
      if negb (is_finite x) then pass2_loop range_min range k (i + 1) rest counts heap
      else pass2_loop range_min range k (i + 1) rest (count_bin counts (bin_of range_min range x))
             (offer k (mkTopKHeapEntry (f64_abs x) x i) heap)
  end.

Definition edge (range_min range : f64) (i : Z) : f64 :=
  if f64_ltb f64_zero range then f64_mul_add range (f64_div (f64_of_Z i) (f64_of_Z NUM_HISTOGRAM_BINS)) range_min else range_min.

(** [b.abs_value.partial_cmp(&a.abs_value)] is not [Greater]. *)
Definition larger_first (a b : TopKHeapEntry) : bool := negb (f64_ltb (he_abs_value a) (he_abs_value b)).

Definition compute_pass2 (values : list f64) (range_min range_max : f64) (k : nat) : Pass2Result :=
  let range := f64_sub range_max range_min in
  let '(counts, heap) := pass2_loop range_min range k 0 values (replicate (Z.to_nat NUM_HISTOGRAM_BINS) 0) [] in
  mkPass2Result counts (edge range_min range <$> seqZ 0 (NUM_HISTOGRAM_BINS + 1)) (sort_by larger_first (drain heap)).

(** ** Values of a tensor *)

(** [half::f16::from_bits] and [half::bf16::from_bits], as [f64] *)
Context (f16_value bf16_value : Z -> f64).

(** [chunks_exact], each chunk as a little-endian integer *)
Definition chunks_exact (size : nat) (data : list byte) : list Z :=
  (fun i => from_le_bytes (slice (size * i) size data)) <$> seq 0 (List.length data / size).

Definition signed (bits : Z) (z : Z) : Z := if z <? 2 ^ (bits - 1) then z else z - 2 ^ bits.

Definition decode_values (data : list byte) (dtype : DType) : list f64 :=
  match dtype with
  | DType_Float16 => f16_value <$> chunks_exact 2 data
  | DType_Bfloat16 => bf16_value <$> chunks_exact 2 data
  | DType_Float32 => f64_from_f32_bits <$> chunks_exact 4 data
  | DType_Float64 => f64_from_bits <$> chunks_exact 8 data
  | DType_Int8 => (fun z => f64_of_Z (signed 8 z)) <$> chunks_exact 1 data
  | DType_Int16 => (fun z => f64_of_Z (signed 16 z)) <$> chunks_exact 2 data
  | DType_Int32 => (fun z => f64_of_Z (signed 32 z)) <$> chunks_exact 4 data
  | DType_Int64 => (fun z => f64_of_Z (signed 64 z)) <$> chunks_exact 8 data
  | DType_Uint8 => f64_of_Z <$> chunks_exact 1 data
  | DType_Bool => (fun z => if z =? 0 then f64_zero else f64_one) <$> chunks_exact 1 data
  end.

(** The loop from the last dimension to the first; a zero dimension panics. *)
Fixpoint multi_loop (remaining : Z) (dims : list Z) : option (list Z) :=
  match dims with
  | [] => Some []
  | d :: rest => if d =? 0 then None else indices ← multi_loop (remaining / d) rest; Some (remaining mod d :: indices)
  end.

Definition flat_index_to_multi (flat : Z) (shape : list Z) : option (list Z) := reverse <$> multi_loop flat (reverse shape).

Definition empty_stats : TensorStats :=
  mkTensorStats f64_zero f64_zero f64_zero f64_zero f64_zero f64_one f64_zero
    (mkHistogram NUM_HISTOGRAM_BINS (replicate (Z.to_nat (NUM_HISTOGRAM_BINS + 1)) f64_zero) (replicate (Z.to_nat NUM_HISTOGRAM_BINS) 0)).

Definition compute_summary (data : list byte) (dtype : DType) (shape : list Z) : option (TensorStats * list TopKEntry) :=
  let values := decode_values data dtype in
  match values with
  | [] => Some (empty_stats, [])
  | _ =>
      let p1 := compute_pass1 values in
      let finite_count := p1_finite p1 in
      if finite_count =? 0 then Some (empty_stats, [])
      else
        let variance := if 1 <? finite_count then f64_div (p1_m2 p1) (f64_of_Z finite_count) else f64_zero in
        let std_dev := f64_sqrt variance in
        let sparsity := if 0 <? finite_count then f64_div (f64_of_Z (p1_sparse_count p1)) (f64_of_Z finite_count) else f64_one in
        let l2_norm := if f64_ltb f64_zero (p1_l2_scale p1) then f64_mul (p1_l2_scale p1) (f64_sqrt (p1_l2_accum p1)) else f64_zero in
        let k := Z.min DEFAULT_TOP_K finite_count in
        let p2 := compute_pass2 values (p1_min p1) (p1_max p1) (Z.to_nat k) in
        top_k ← mapM (fun e => index ← flat_index_to_multi (he_flat_index e) shape; Some (mkTopKEntry index (he_original_value e))) (p2_top_k p2);
        Some (mkTensorStats (p1_mean p1) std_dev (p1_min p1) (p1_max p1) (p1_abs_max p1) sparsity l2_norm
                (mkHistogram NUM_HISTOGRAM_BINS (p2_edges p2) (p2_counts p2)), top_k)
  end.

Lemma multi_loop_total dims : Forall (fun d => d <> 0) dims -> forall flat, is_Some (multi_loop flat dims).
Proof.
  induction 1 as [|d dims Hd _ IH]; intros flat; cbn [multi_loop]; [by eexists|].
  destruct (Z.eqb_spec d 0); [done|]. destruct (IH (flat / d)) as [l ->]. by eexists.
Qed.

(** Only a zero dimension makes a summary panic. *)
Lemma compute_summary_total data dtype shape : Forall (fun d => d <> 0) shape -> is_Some (compute_summary data dtype shape).
Proof.
  intros Hs. unfold compute_summary. destruct (decode_values data dtype) as [|v vs]; [by eexists|]. cbv zeta.
  destruct (_ =? 0); [by eexists|]. match goal with |- context [mapM ?f ?l] => assert (Hm : is_Some (mapM f l)) end.
  { apply mapM_is_Some_2, Forall_forall. intros e _. unfold compose, flat_index_to_multi.
    destruct (multi_loop_total (reverse shape) (proj2 (Forall_reverse _ _) Hs) (he_flat_index e)) as [l ->]. by eexists. }
  destruct Hm as [top_k ->]. by eexists.
Qed.

Lemma compute_summary_None data dtype shape : compute_summary data dtype shape = None -> 0 ∈ shape.
Proof.
  intros H. destruct (decide (0 ∈ shape)) as [?|Hn]; [done|]. destruct (compute_summary_total data dtype shape) as [s Hs]; [|congruence].
  rewrite Forall_forall. intros d Hd ->. by apply Hn.
Qed.

End Heap.

(** What a summary relies on of its libraries: the heap's choices among equal
    entries, and the conversions of the [half] crate. *)
Class Numerics := {
  nm_root : list TopKHeapEntry -> nat;
  nm_drain : list TopKHeapEntry -> list TopKHeapEntry;
  nm_f16 : Z -> f64;
  nm_bf16 : Z -> f64
}.
