(* ===== verification/TensorStore.v ===== *)
(** * TensorStore: the daemon's content-addressed tensor cache

    [crates/rocket-surgeon/src/tensor_store.rs].  The hash map is a [gmap]; the
    access stamps are the [access_generation] counter.  Byte counts are of data
    held in memory, so they are plain integers; the generation counter is a
    wrapping [u64].  [blake3] is a parameter; summaries are those of [Stats], and
    a panic there (a stored shape with a zero dimension) is [None].  [Instant]
    values, which nothing reads, are left out.  The specification is a list of
    tensors, least recently used first. *)

From Stdlib Require Import ZArith Lia String Sorted.
From coqutil Require Import Byte.
From stdpp Require Import base gmap strings list fin_maps sorting sets.
From S2P Require Import Prelude Protocol Stats.
Open Scope Z_scope.

Definition DEFAULT_MAX_ENTRIES : Z := 1024.
Definition DEFAULT_MAX_BYTES : Z := 2 * 1024 * 1024 * 1024.

Inductive StoreError :=
| NotFound (tensor_id : string)
| SliceOutOfBounds (offset len data_len : Z).

Definition Summary : Type := TensorStats * list TopKEntry.

(** [tensor_stats::compute_summary] *)
Abbreviation compute_summary := (Stats.compute_summary nm_root nm_drain nm_f16 nm_bf16).

Record StoredTensor := mkStoredTensor {
  tensor_id : string;
  shape : list Z;
  dtype : DType;
  device : string;
  data : list byte;
  summary : option Summary;
  last_access_gen : Z
}.

Record TensorStore := mkTensorStore {
  entries : gmap string StoredTensor;
  access_generation : Z;
  max_entries : Z;
  max_bytes : Z;
  current_bytes : Z
}.

Definition with_limits (max_entries max_bytes : Z) : TensorStore := mkTensorStore ∅ 0 max_entries max_bytes 0.
Definition new : TensorStore := with_limits DEFAULT_MAX_ENTRIES DEFAULT_MAX_BYTES.

Definition data_len (t : StoredTensor) : Z := Z.of_nat (List.length (data t)).

Definition set_gen (g : Z) (t : StoredTensor) : StoredTensor :=
  mkStoredTensor (tensor_id t) (shape t) (dtype t) (device t) (data t) (summary t) g.
Definition set_summary (s : Summary) (t : StoredTensor) : StoredTensor :=
  mkStoredTensor (tensor_id t) (shape t) (dtype t) (device t) (data t) (Some s) (last_access_gen t).

(** The three statements every access starts with: stamp the entry and bump
    the generation. *)
Definition touch (s : TensorStore) (id : string) (t : StoredTensor) : TensorStore :=
  mkTensorStore (<[id := set_gen (access_generation s) t]> (entries s)) (u64_add (access_generation s) 1)
    (max_entries s) (max_bytes s) (current_bytes s).

(** [iter().min_by_key(|(_, e)| e.last_access_gen)]: the first minimum. *)
Fixpoint min_by_gen (l : list (string * StoredTensor)) : option (string * StoredTensor) :=
  match l with
  | [] => None
  | e :: r =>
      match min_by_gen r with
      | None => Some e
      | Some e' => if last_access_gen e'.2 <? last_access_gen e.2 then Some e' else Some e
      end
  end.

(** The map is iterated in the order [iter]. *)
Definition evict_oldest (iter : list (string * StoredTensor)) (s : TensorStore) : TensorStore :=
  match min_by_gen iter with
  | None => s
  | Some (id, _) =>
      match entries s !! id with
      | None => s
      | Some removed =>
          mkTensorStore (delete id (entries s)) (access_generation s) (max_entries s) (max_bytes s)
            (current_bytes s - data_len removed)
      end
  end.

(** Does the loop condition of [insert] hold? *)
Definition must_evict (s : TensorStore) (n : Z) : bool :=
  negb (Nat.eqb (size (entries s)) 0) &&
  ((max_entries s <=? Z.of_nat (size (entries s))) || (max_bytes s <? current_bytes s + n)).

(** The eviction loop, with fuel. *)
Fixpoint evict_loop (fuel : nat) (n : Z) (s : TensorStore) : option TensorStore :=
  if must_evict s n then
    match fuel with
    | O => None
    | S fuel => evict_loop fuel n (evict_oldest (map_to_list (entries s)) s)
    end
  else Some s.

(** [insert_with_id]; each turn of the loop removes an entry, so the number of
    entries is enough fuel ([None] never happens: [insert_total]). *)
Definition insert_with_id (s : TensorStore) (id : string) (bytes : list byte) (shp : list Z) (dt : DType) (dev : string)
  : option (TensorHandle * TensorStore) :=
  match entries s !! id with
  | Some existing =>
      Some (mkTensorHandle id (shape existing) (dtype existing), touch s id existing)
  | None =>
      let n := Z.of_nat (List.length bytes) in
      match evict_loop (size (entries s)) n s with
      | None => None
      | Some s =>
          let t := mkStoredTensor id shp dt dev bytes None (access_generation s) in
          Some (mkTensorHandle id shp dt,
                mkTensorStore (<[id := t]> (entries s)) (u64_add (access_generation s) 1)
                  (max_entries s) (max_bytes s) (current_bytes s + n))
      end
  end.

Section WithHash.
Context (blake3_hex : list byte -> string) `{NM : Numerics}.

Definition insert (s : TensorStore) (bytes : list byte) (shp : list Z) (dt : DType) (dev : string)
  : option (TensorHandle * TensorStore) :=
  insert_with_id s (blake3_hex bytes) bytes shp dt dev.

Definition get (s : TensorStore) (id : string) : option StoredTensor * TensorStore :=
  match entries s !! id with
  | Some t => (Some (set_gen (access_generation s) t), touch s id t)
  | None => (None, s)
  end.

Definition raw_data (s : TensorStore) (id : string) : option (list byte) * TensorStore :=
  match entries s !! id with
  | Some t => (Some (data t), touch s id t)
  | None => (None, s)
  end.

Definition summarize (s : TensorStore) (id : string) : option (option TensorSummary * TensorStore) :=
  match entries s !! id with
  | None => Some (None, s)
  | Some t =>
      t' ← match summary t with
           | Some _ => Some t
           | None => computed ← compute_summary (data t) (dtype t) (shape t); Some (set_summary computed t)
           end;
      '(stats, top_k) ← summary t';
      Some (Some (mkTensorSummary (tensor_id t) (shape t) (dtype t) (device t) None stats top_k), touch s id t')
  end.

Definition slice (s : TensorStore) (id : string) (offset len : Z) : result StoreError (list byte) * TensorStore :=
  match entries s !! id with
  | None => (Err (NotFound id), s)
  | Some t =>
      let n := data_len t in
      let out_of_bounds := match u64_checked_add offset len with Some e => n <? e | None => true end in
      (if out_of_bounds then Err (SliceOutOfBounds offset len n)
       else Ok (Prelude.slice (Z.to_nat offset) (Z.to_nat len) (data t)),
       touch s id t)
  end.

Definition contains (s : TensorStore) (id : string) : bool := bool_decide (is_Some (entries s !! id)).
Definition len (s : TensorStore) : nat := size (entries s).
Definition is_empty (s : TensorStore) : bool := Nat.eqb (len s) 0.
Definition bytes_used (s : TensorStore) : Z := current_bytes s.

(** ** Histories *)

Inductive call :=
| CInsert (bytes : list byte) (shp : list Z) (dt : DType) (dev : string)
| CInsertWithId (id : string) (bytes : list byte) (shp : list Z) (dt : DType) (dev : string)
| CGet (id : string)
| CRaw (id : string)
| CSummarize (id : string)
| CSlice (id : string) (offset len : Z).

Inductive answer :=
| AHandle (h : TensorHandle)
| ATensor (t : option (string * list Z * DType * string * list byte))
| ARaw (d : option (list byte))
| ASummary (s : option TensorSummary)
| ASlice (r : result StoreError (list byte)).

(** The fields of a tensor other than its stamp and cached summary. *)
Definition view (t : StoredTensor) : string * list Z * DType * string * list byte :=
  (tensor_id t, shape t, dtype t, device t, data t).

Definition run_call (s : TensorStore) (c : call) : option (answer * TensorStore) :=
  match c with
  | CInsert b shp dt dev => (fun r => (AHandle r.1, r.2)) <$> insert s b shp dt dev
  | CInsertWithId id b shp dt dev => (fun r => (AHandle r.1, r.2)) <$> insert_with_id s id b shp dt dev
  | CGet id => let (r, s') := get s id in Some (ATensor (view <$> r), s')
  | CRaw id => let (r, s') := raw_data s id in Some (ARaw r, s')
  | CSummarize id => (fun r => (ASummary r.1, r.2)) <$> summarize s id
  | CSlice id o n => let (r, s') := slice s id o n in Some (ASlice r, s')
  end.

Fixpoint run_calls (s : TensorStore) (cs : list call) : option (list answer * TensorStore) :=
  match cs with
  | [] => Some ([], s)
  | c :: cs =>
      match run_call s c with
      | None => None
      | Some (a, s1) =>
          match run_calls s1 cs with None => None | Some (l, s2) => Some (a :: l, s2) end
      end
  end.

End WithHash.

(** ** Specification: least recently used first *)

Abbreviation tensor := (string * list Z * DType * string * list byte)%type.
Definition t_id (t : tensor) : string := t.1.1.1.1.
Definition t_shape (t : tensor) : list Z := t.1.1.1.2.
Definition t_dtype (t : tensor) : DType := t.1.1.2.
Definition t_device (t : tensor) : string := t.1.2.
Definition t_data (t : tensor) : list byte := t.2.

Definition total_bytes (l : list tensor) : Z := Z.of_nat (list_sum ((fun t => List.length (t_data t)) <$> l)).

Section Spec.
Context (blake3_hex : list byte -> string) `{NM : Numerics}.
Context (maxe maxb : Z).

Definition use (l : list tensor) (t : tensor) : list tensor := drop_key t_id l (t_id t) ++ [t].

(** Forget the least recently used tensors until the new one fits. *)
Fixpoint spec_evict (n : Z) (l : list tensor) : list tensor :=
  match l with
  | [] => []
  | t :: r =>
      if (maxe <=? Z.of_nat (List.length l)) || (maxb <? total_bytes l + n) then spec_evict n r else l
  end.

Definition spec_insert (l : list tensor) (t : tensor) : answer * list tensor :=
  match find_key t_id l (t_id t) with
  | Some old => (AHandle (mkTensorHandle (t_id t) (t_shape old) (t_dtype old)), use l old)
  | None => (AHandle (mkTensorHandle (t_id t) (t_shape t) (t_dtype t)),
             spec_evict (Z.of_nat (List.length (t_data t))) l ++ [t])
  end.

(** [None] when the summary panics *)
Definition spec_summary (t : tensor) : option TensorSummary :=
  '(stats, top_k) ← compute_summary (t_data t) (t_dtype t) (t_shape t);
  Some (mkTensorSummary (t_id t) (t_shape t) (t_dtype t) (t_device t) None stats top_k).

Definition spec_slice (t : tensor) (offset len : Z) : result StoreError (list byte) :=
  let n := Z.of_nat (List.length (t_data t)) in
  if (offset + len <=? n) && (offset + len <=? U64_MAX)
  then Ok (Prelude.slice (Z.to_nat offset) (Z.to_nat len) (t_data t))
  else Err (SliceOutOfBounds offset len n).

Definition spec_access {B} (l : list tensor) (id : string) (missing : B) (f : tensor -> B) : B * list tensor :=
  match find_key t_id l id with Some t => (f t, use l t) | None => (missing, l) end.

Definition spec_call (l : list tensor) (c : call) : option (answer * list tensor) :=
  match c with
  | CInsert b shp dt dev => Some (spec_insert l (blake3_hex b, shp, dt, dev, b))
  | CInsertWithId id b shp dt dev => Some (spec_insert l (id, shp, dt, dev, b))
  | CGet id => Some (spec_access l id (ATensor None) (fun t => ATensor (Some t)))
  | CRaw id => Some (spec_access l id (ARaw None) (fun t => ARaw (Some (t_data t))))
  | CSummarize id =>
      match find_key t_id l id with
      | None => Some (ASummary None, l)
      | Some t => summary ← spec_summary t; Some (ASummary (Some summary), use l t)
      end
  | CSlice id o n => Some (spec_access l id (ASlice (Err (NotFound id))) (fun t => ASlice (spec_slice t o n)))
  end.

Fixpoint spec_calls (l : list tensor) (cs : list call) : option (list answer * list tensor) :=
  match cs with
  | [] => Some ([], l)
  | c :: cs => '(a, l1) ← spec_call l c; '(r, l2) ← spec_calls l1 cs; Some (a :: r, l2)
  end.

(** ** Simulation *)

Definition gen_lt (a b : StoredTensor) : Prop := last_access_gen a < last_access_gen b.

Record represents (s : TensorStore) (ts : list StoredTensor) : Prop := {
  rep_keyed : keyed_by tensor_id (entries s) ts;
  rep_sorted : StronglySorted gen_lt ts;
  rep_gens : Forall (fun t => last_access_gen t < access_generation s) ts;
  rep_summary : Forall (fun t => summary t = None \/ summary t = compute_summary (data t) (dtype t) (shape t)) ts;
  rep_bytes : current_bytes s = total_bytes (view <$> ts);
  rep_limits : max_entries s = maxe /\ max_bytes s = maxb
}.

Lemma find_view ts id : find_key t_id (view <$> ts) id = view <$> find_key tensor_id ts id.
Proof.
  induction ts as [|t ts IH]; [done|]. cbn [fmap list_fmap]. rewrite !find_key_cons, IH. cbn. by case_decide.
Qed.

Lemma drop_view ts id : drop_key t_id (view <$> ts) id = view <$> drop_key tensor_id ts id.
Proof.
  unfold drop_key. induction ts as [|t ts IH]; [done|]. cbn. rewrite IH. by case_bool_decide.
Qed.

Lemma total_bytes_cons t l : total_bytes (t :: l) = Z.of_nat (List.length (t_data t)) + total_bytes l.
Proof. unfold total_bytes. change (list_sum ((fun t => List.length (t_data t)) <$> t :: l)) with (List.length (t_data t) + list_sum ((fun t => List.length (t_data t)) <$> l))%nat. lia. Qed.

Lemma total_bytes_app l k : total_bytes (l ++ k) = total_bytes l + total_bytes k.
Proof. unfold total_bytes. rewrite fmap_app, list_sum_app. lia. Qed.

Lemma total_bytes_drop l t :
  NoDup (t_id <$> l) -> find_key t_id l (t_id t) = Some t ->
  total_bytes (drop_key t_id l (t_id t)) + Z.of_nat (List.length (t_data t)) = total_bytes l.
Proof.
  induction l as [|x l IH]; intros Hn Hf; [done|]. rewrite find_key_cons in Hf. cbn [fmap list_fmap] in Hn.
  apply NoDup_cons in Hn as [Hx Hn]. unfold drop_key. cbn [List.filter]. fold (drop_key t_id l (t_id t)).
  destruct (decide (t_id x = t_id t)) as [E|E].
  - injection Hf as ->. rewrite bool_decide_eq_true_2 by done. cbn [negb].
    rewrite drop_key_absent; [rewrite total_bytes_cons; lia|].
    destruct (find_key t_id l (t_id t)) as [y|] eqn:Ey; [|done]. exfalso.
    apply find_key_Some in Ey as [Ey Hy]. apply Hx. rewrite <- Ey. by apply list_elem_of_fmap_2.
  - rewrite bool_decide_eq_false_2 by done. cbn [negb]. specialize (IH Hn Hf). rewrite !total_bytes_cons. lia.
Qed.

Lemma sorted_snoc_gen (ts : list StoredTensor) t :
  StronglySorted gen_lt ts -> Forall (fun x => last_access_gen x < last_access_gen t) ts ->
  StronglySorted gen_lt (ts ++ [t]).
Proof.
  induction 1 as [|x l _ IH Hx]; intros Hf; cbn; [repeat constructor|].
  apply Forall_cons in Hf as [Hx' Hf]. constructor; [auto|]. apply Forall_app_2; [done|]. by repeat constructor.
Qed.

Lemma StronglySorted_drop_key ts id : StronglySorted gen_lt ts -> StronglySorted gen_lt (drop_key tensor_id ts id).
Proof.
  unfold drop_key. induction 1 as [|x l _ IH Hx]; [constructor|]. cbn.
  destruct (negb _); [|done]. constructor; [done|]. clear IH. induction Hx; [constructor|]. cbn. destruct (negb _); auto.
Qed.

Lemma Forall_drop_key (P : StoredTensor -> Prop) ts id : Forall P ts -> Forall P (drop_key tensor_id ts id).
Proof. rewrite !Forall_forall. intros H x Hx. apply H. by apply elem_of_drop_key in Hx as [? _]. Qed.

(** Accessing an entry moves it to the recent end; [t'] may differ from the
    stored tensor in its cached summary only. *)
Lemma touch_represents s ts id t t' :
  represents s ts -> 0 <= access_generation s < U64_MAX -> find_key tensor_id ts id = Some t ->
  view t' = view t -> (summary t' = None \/ summary t' = compute_summary (data t') (dtype t') (shape t')) ->
  exists ts', represents (touch s id t') ts' /\ view <$> ts' = use (view <$> ts) (view t).
Proof.
  intros [Hk Hs Hg Hm Hb Hl] Hgen Hf Hv Hsum. apply find_key_Some in Hf as Hid. destruct Hid as [Hid Hin].
  assert (tensor_id t' = id) as Hid' by (unfold view in Hv; congruence).
  exists (drop_key tensor_id ts id ++ [set_gen (access_generation s) t']). split.
  - unfold touch. split; cbn [entries access_generation current_bytes max_entries max_bytes].
    + by apply keyed_insert.
    + apply sorted_snoc_gen; [by apply StronglySorted_drop_key|]. cbn. by apply Forall_drop_key.
    + rewrite u64_add_small by lia. apply Forall_app_2; [|repeat constructor; cbn; lia].
      apply Forall_drop_key. eapply Forall_impl; [exact Hg|]. cbn. lia.
    + apply Forall_app_2; [by apply Forall_drop_key|]. apply Forall_singleton. exact Hsum.
    + rewrite Hb, fmap_app, total_bytes_app, <- drop_view.
      rewrite <- (total_bytes_drop (view <$> ts) (view t)).
      * change (t_id (view t)) with (tensor_id t). rewrite Hid. cbn [fmap list_fmap].
        change (view (set_gen (access_generation s) t')) with (view t'). rewrite Hv. unfold total_bytes; cbn. lia.
      * rewrite <- list_fmap_compose. apply Hk.
      * change (t_id (view t)) with (tensor_id t). rewrite find_view, Hid, Hf. done.
    + done.
  - rewrite fmap_app, <- drop_view. unfold use. change (t_id (view t)) with (tensor_id t). rewrite Hid.
    cbn [fmap list_fmap]. change (view (set_gen (access_generation s) t')) with (view t'). by rewrite Hv.
Qed.

(** *** Eviction *)

Lemma min_by_gen_None it : min_by_gen it = None -> it = [].
Proof. destruct it as [|e it]; [done|]. cbn. destruct (min_by_gen it); [by destruct (_ <? _)|done]. Qed.

Lemma min_by_gen_spec it e : min_by_gen it = Some e ->
  e ∈ it /\ forall e', e' ∈ it -> last_access_gen e.2 <= last_access_gen e'.2.
Proof.
  revert e. induction it as [|x it IH]; intros e; [done|]. cbn.
  destruct (min_by_gen it) as [y|] eqn:E.
  - destruct (IH y eq_refl) as [Hy Hmin]. destruct (Z.ltb_spec (last_access_gen y.2) (last_access_gen x.2)); intros [= <-].
    + split; [by right|]. intros e' [->|He']%elem_of_cons; [lia|by apply Hmin].
    + split; [by left|]. intros e' [->|He']%elem_of_cons; [lia|]. specialize (Hmin e' He'). lia.
  - intros [= <-]. apply min_by_gen_None in E as ->. split; [by left|].
    intros e' [->|He']%elem_of_cons; [lia|by apply elem_of_nil in He'].
Qed.

(** Whatever the iteration order, the victim is the least recently used. *)
Lemma min_by_gen_oldest it (t : StoredTensor) ts :
  StronglySorted gen_lt (t :: ts) -> it ≡ₚ (fun a => (tensor_id a, a)) <$> (t :: ts) ->
  min_by_gen it = Some (tensor_id t, t).
Proof.
  intros Hs Hp. apply StronglySorted_inv in Hs as [_ Hmin]. rewrite Forall_forall in Hmin. unfold gen_lt in Hmin.
  assert ((tensor_id t, t) ∈ it) as Hin by (rewrite Hp; cbn; left).
  destruct (min_by_gen it) as [e|] eqn:E; [|apply min_by_gen_None in E as ->; by apply elem_of_nil in Hin].
  apply min_by_gen_spec in E as [He Hle]. specialize (Hle _ Hin). cbn in Hle.
  rewrite Hp in He. apply list_elem_of_fmap in He as (a & -> & [->|Ha]%elem_of_cons); [done|].
  specialize (Hmin a Ha). cbn in Hle. lia.
Qed.

Lemma evict_represents s t ts it :
  represents s (t :: ts) -> it ≡ₚ map_to_list (entries s) ->
  represents (evict_oldest it s) ts /\ access_generation (evict_oldest it s) = access_generation s.
Proof.
  intros [Hk Hs Hg Hm Hb Hl] Hit. rewrite (keyed_iter _ _ _ Hk) in Hit.
  unfold evict_oldest. rewrite (min_by_gen_oldest it t ts Hs Hit).
  rewrite (kb_lookup _ _ _ Hk), find_key_cons, decide_True by done.
  split; [|done]. apply StronglySorted_inv in Hs as [Hs _]. apply Forall_cons in Hg as [_ Hg]. apply Forall_cons in Hm as [_ Hm].
  split; cbn [entries access_generation current_bytes max_entries max_bytes]; try done.
  - by apply keyed_delete_head.
  - rewrite Hb. cbn [fmap list_fmap]. rewrite total_bytes_cons. unfold data_len. cbn. lia.
Qed.

Lemma must_evict_spec s ts n :
  represents s ts ->
  must_evict s n = match view <$> ts with
                   | [] => false
                   | l => (maxe <=? Z.of_nat (List.length l)) || (maxb <? total_bytes l + n)
                   end.
Proof.
  intros [Hk _ _ _ Hb [Hl1 Hl2]]. unfold must_evict. rewrite (keyed_size _ _ _ Hk), Hb, Hl1, Hl2.
  destruct ts as [|t ts]; [done|]. cbn [List.length Nat.eqb negb andb fmap list_fmap]. by rewrite length_fmap.
Qed.

(** The loop terminates within one turn per entry and computes [spec_evict]. *)
Lemma evict_loop_spec n ts : forall s fuel,
  represents s ts -> (List.length ts <= fuel)%nat ->
  exists s' ts', evict_loop fuel n s = Some s' /\ represents s' ts' /\
    view <$> ts' = spec_evict n (view <$> ts) /\ access_generation s' = access_generation s /\
    (forall id, find_key tensor_id ts id = None -> find_key tensor_id ts' id = None).
Proof.
  induction ts as [|t ts IH]; intros s fuel HR Hf.
  - exists s, []. pose proof (must_evict_spec s [] n HR) as E. split_and!; try done. by destruct fuel; cbn [evict_loop]; rewrite E.
  - pose proof (must_evict_spec s (t :: ts) n HR) as E. cbn [fmap list_fmap] in E.
    cbn [spec_evict fmap list_fmap].
    destruct ((maxe <=? _) || (maxb <? _)) eqn:Ev.
    + destruct fuel as [|fuel]; [cbn in Hf; lia|].
      destruct (evict_represents s t ts (map_to_list (entries s)) HR) as [HR' Hgen]; [done|].
      destruct (IH _ fuel HR' ltac:(cbn in Hf; lia)) as (s' & ts' & H1 & H2 & H3 & H4 & H5).
      exists s', ts'. split_and!; [|done|done|congruence|].
      * cbn [evict_loop]. rewrite E. exact H1.
      * intros id Hid. apply H5. rewrite find_key_cons in Hid. by destruct (decide (tensor_id t = id)).
    + exists s, (t :: ts). split_and!; try done. destruct fuel; cbn [evict_loop]; by rewrite E.
Qed.

Lemma insert_represents s ts id bytes shp dt dev :
  represents s ts -> 0 <= access_generation s < U64_MAX ->
  exists h s' ts', insert_with_id s id bytes shp dt dev = Some (h, s') /\ represents s' ts' /\
    access_generation s' = access_generation s + 1 /\
    spec_insert (view <$> ts) (id, shp, dt, dev, bytes) = (AHandle h, view <$> ts').
Proof.
  intros HR Hg. unfold insert_with_id, spec_insert. rewrite find_view. change (t_id (id, shp, dt, dev, bytes)) with id.
  rewrite (kb_lookup _ _ _ (rep_keyed s ts HR)).
  destruct (find_key tensor_id ts id) as [t|] eqn:Ef; cbn [fmap option_fmap option_map].
  - destruct (touch_represents s ts id t t HR Hg Ef eq_refl) as (ts' & HR' & Hv).
    { pose proof (rep_summary s ts HR) as Hs. rewrite Forall_forall in Hs. apply Hs. by apply find_key_Some in Ef as [_ ?]. }
    eexists _, _, ts'. split; [done|]. split; [done|]. split; [cbn; apply u64_add_small; lia|]. by rewrite Hv.
  - rewrite (keyed_size _ _ _ (rep_keyed s ts HR)).
    destruct (evict_loop_spec (Z.of_nat (List.length bytes)) ts s _ HR (le_n _)) as (s1 & ts1 & -> & HR1 & Hv & Hgen & Hnone).
    eexists _, _, (ts1 ++ [mkStoredTensor id shp dt dev bytes None (access_generation s1)]).
    split; [done|]. split; [|split; [cbn; rewrite Hgen; apply u64_add_small; lia|]].
    + destruct HR1 as [Hk Hs Hgs Hm Hb Hl]. split; cbn [entries access_generation current_bytes max_entries max_bytes]; try done.
      * rewrite <- (drop_key_absent tensor_id ts1 id) by auto. by apply keyed_insert.
      * apply sorted_snoc_gen; [done|]. done.
      * rewrite u64_add_small by lia. apply Forall_app_2; [|repeat constructor; cbn; lia].
        eapply Forall_impl; [exact Hgs|]. cbn. lia.
      * apply Forall_app_2; [done|]. apply Forall_singleton. by left.
      * rewrite Hb, fmap_app, total_bytes_app. unfold total_bytes at 3. cbn. lia.
    + rewrite fmap_app, Hv. done.
Qed.

Lemma access_represents s ts id t t' :
  represents s ts -> 0 <= access_generation s < U64_MAX -> entries s !! id = Some t ->
  view t' = view t -> (summary t' = None \/ summary t' = compute_summary (data t') (dtype t') (shape t')) ->
  exists ts', represents (touch s id t') ts' /\ access_generation (touch s id t') = access_generation s + 1 /\
    find_key t_id (view <$> ts) id = Some (view t) /\ view <$> ts' = use (view <$> ts) (view t).
Proof.
  intros HR Hg Hf Hv Hs. rewrite (kb_lookup _ _ _ (rep_keyed s ts HR)) in Hf.
  destruct (touch_represents s ts id t t' HR Hg Hf Hv Hs) as (ts' & HR' & Hv').
  exists ts'. split_and!; [done|cbn; apply u64_add_small; lia| |done]. by rewrite find_view, Hf.
Qed.

Lemma missing_view s ts id : represents s ts -> entries s !! id = None -> find_key t_id (view <$> ts) id = None.
Proof. intros HR H. rewrite (kb_lookup _ _ _ (rep_keyed s ts HR)) in H. by rewrite find_view, H. Qed.

Lemma stored_summary s ts id t :
  represents s ts -> entries s !! id = Some t ->
  summary t = None \/ summary t = compute_summary (data t) (dtype t) (shape t).
Proof.
  intros HR H. rewrite (kb_lookup _ _ _ (rep_keyed s ts HR)) in H. apply find_key_Some in H as [_ Hin].
  pose proof (rep_summary s ts HR) as Hs. rewrite Forall_forall in Hs. by apply Hs.
Qed.

(** One call of either side: the same answer, or a panic on both. *)
Lemma call_represents s ts c :
  represents s ts -> 0 <= access_generation s < U64_MAX ->
  match run_call blake3_hex s c with
  | Some (a, s') => exists ts', represents s' ts' /\
      access_generation s <= access_generation s' <= access_generation s + 1 /\ spec_call (view <$> ts) c = Some (a, view <$> ts')
  | None => spec_call (view <$> ts) c = None
  end.
Proof.
  intros HR Hg. destruct c as [b shp dt dev|id b shp dt dev|id|id|id|id o n]; cbn [run_call spec_call].
  1,2: unfold insert; edestruct insert_represents as (h & s' & ts' & -> & HR' & Hgen & ->); [exact HR|exact Hg|];
       exists ts'; split_and!; [done|cbn; lia|cbn; lia|done].
  all: unfold get, raw_data, summarize, slice, spec_access; destruct (entries s !! id) as [t|] eqn:Ef;
    [|rewrite (missing_view s ts id HR Ef); exists ts; split_and!; [done|cbn; lia|cbn; lia|done]];
    pose proof (stored_summary s ts id t HR Ef) as Hsum.
  - destruct (access_represents s ts id t t HR Hg Ef eq_refl Hsum) as (ts' & HR' & Hgen & -> & Hv).
    exists ts'. split_and!; [done|lia|lia|by rewrite Hv].
  - destruct (access_represents s ts id t t HR Hg Ef eq_refl Hsum) as (ts' & HR' & Hgen & -> & Hv).
    exists ts'. split_and!; [done|lia|lia|by rewrite Hv].
  - destruct (access_represents s ts id t t HR Hg Ef eq_refl Hsum) as (_ & _ & _ & -> & _).
    unfold spec_summary. change (t_data (view t)) with (data t). change (t_dtype (view t)) with (dtype t).
    change (t_shape (view t)) with (shape t).
    destruct (summary t) as [sm|] eqn:Es; cbn [mbind option_bind].
    + destruct Hsum as [|Hsum]; [done|]. rewrite Es, <- Hsum. destruct sm as [stats top_k]. cbn [mbind option_bind fmap option_fmap option_map].
      destruct (access_represents s ts id t t HR Hg Ef eq_refl) as (ts' & HR' & Hgen & _ & Hv); [right; by rewrite Es|].
      exists ts'. split_and!; [done|cbn [fst snd]; lia|cbn [fst snd]; lia|by rewrite Hv].
    + clear Hsum. destruct (compute_summary (data t) (dtype t) (shape t)) as [[stats top_k]|] eqn:Ec; cbn [mbind option_bind]; [|done].
      destruct (access_represents s ts id t (set_summary (stats, top_k) t) HR Hg Ef eq_refl) as (ts' & HR' & Hgen & _ & Hv); [by right|].
      exists ts'. split_and!; [done|cbn [fst snd]; lia|cbn [fst snd]; lia|by rewrite Hv].
  - destruct (access_represents s ts id t t HR Hg Ef eq_refl Hsum) as (ts' & HR' & Hgen & -> & Hv).
    exists ts'. split_and!; [done|lia|lia|]. rewrite Hv. f_equal. f_equal. f_equal. unfold spec_slice, u64_checked_add, data_len.
    change (t_data (view t)) with (data t). destruct (Z.leb_spec (o + n) U64_MAX); [|by rewrite andb_false_r].
    rewrite andb_true_r. destruct (Z.ltb_spec (Z.of_nat (List.length (data t))) (o + n)), (Z.leb_spec (o + n) (Z.of_nat (List.length (data t)))); done || lia.
Qed.

Lemma calls_represent cs : forall s ts,
  represents s ts -> 0 <= access_generation s -> access_generation s + Z.of_nat (List.length cs) <= U64_MAX ->
  match run_calls blake3_hex s cs with
  | Some (answers, s') => exists ts', represents s' ts' /\ spec_calls (view <$> ts) cs = Some (answers, view <$> ts')
  | None => spec_calls (view <$> ts) cs = None
  end.
Proof.
  induction cs as [|c cs IH]; intros s ts HR H0 Hb; [by exists ts|]. cbn [List.length] in Hb.
  pose proof (call_represents s ts c HR ltac:(lia)) as Hc. cbn [run_calls spec_calls].
  destruct (run_call blake3_hex s c) as [[a s1]|]; [|by rewrite Hc]. destruct Hc as (ts1 & HR1 & Hg & ->). cbn [mbind option_bind].
  specialize (IH s1 ts1 HR1 ltac:(lia) ltac:(lia)). destruct (run_calls blake3_hex s1 cs) as [[l s2]|]; [|by rewrite IH].
  destruct IH as (ts2 & HR2 & ->). by exists ts2.
Qed.

(** *** Limits of the specification *)

Lemma spec_evict_fits n l :
  1 <= maxe -> Z.of_nat (List.length (spec_evict n l)) < maxe \/ spec_evict n l = [].
Proof.
  intros Hm. induction l as [|t l IH]; [by right|]. cbn [spec_evict].
  destruct ((maxe <=? _) || _) eqn:E; [done|]. left. lia.
Qed.

Lemma spec_evict_bytes n l : spec_evict n l = [] \/ total_bytes (spec_evict n l) + n <= maxb.
Proof.
  induction l as [|t l IH]; [by left|]. cbn [spec_evict].
  destruct ((maxe <=? _) || _) eqn:E; [done|]. right. lia.
Qed.

Definition within (l : list tensor) : Prop :=
  Z.of_nat (List.length l) <= maxe /\ (total_bytes l <= maxb \/ (List.length l <= 1)%nat).

Lemma within_use l t : NoDup (t_id <$> l) -> find_key t_id l (t_id t) = Some t -> within l -> within (use l t).
Proof.
  intros Hn Hf [H1 H2]. pose proof (total_bytes_drop l t Hn Hf) as Hd. unfold use, within.
  rewrite length_app. cbn [List.length]. rewrite (length_drop_key t_id l (t_id t) t Hn Hf).
  split; [done|]. rewrite total_bytes_app. unfold total_bytes at 2. cbn. destruct H2; [left; lia|by right].
Qed.

Lemma within_call l c a l' :
  1 <= maxe -> NoDup (t_id <$> l) -> within l -> spec_call l c = Some (a, l') -> within l'.
Proof.
  intros Hm Hn Hw.
  assert (forall t, within (spec_insert l t).2) as Hi.
  { intros t. unfold spec_insert. destruct (find_key t_id l (t_id t)) as [o|] eqn:E; cbn [snd].
    - apply find_key_Some in E as Eid. destruct Eid as [Eid _]. apply within_use; [done| |done]. by rewrite Eid.
    - set (n := Z.of_nat (List.length (t_data t))).
      pose proof (spec_evict_fits n l Hm) as H1. pose proof (spec_evict_bytes n l) as H2.
      unfold within. rewrite length_app, total_bytes_app, (total_bytes_cons t []).
      change (total_bytes []) with 0. cbn [List.length]. fold n.
      destruct H1 as [H1|H1], H2 as [H2|H2]; rewrite ?H1, ?H2 in *; cbn [List.length]; split; try lia; (left; lia) || (right; lia). }
  assert (forall B (m : B) f id, within (spec_access l id m f).2) as Ha.
  { intros B m f id. unfold spec_access. destruct (find_key t_id l id) as [t|] eqn:E; [|done]. cbn [snd].
    apply find_key_Some in E as Eid. destruct Eid as [Eid _]. apply within_use; [done| |done]. by rewrite Eid. }
  assert (forall x : answer * list tensor, within x.2 -> Some x = Some (a, l') -> within l') as Hx by (by intros x ? [= ->]).
  destruct c; cbn [spec_call]; try (apply Hx; auto; done).
  destruct (find_key t_id l id) as [t|] eqn:E; [|by intros [= <- <-]].
  destruct (spec_summary t); [|done]. intros [= <- <-].
  apply find_key_Some in E as Eid. destruct Eid as [Eid _]. apply within_use; [done| |done]. by rewrite Eid.
Qed.

(** *** When summaries cannot panic *)

Definition whole (t : tensor) : Prop := Forall (fun d => d <> 0) (t_shape t).

Definition inserts_whole (c : call) : Prop :=
  match c with CInsert _ shp _ _ | CInsertWithId _ _ shp _ _ => Forall (fun d => d <> 0) shp | _ => True end.

Lemma spec_summary_total t : whole t -> is_Some (spec_summary t).
Proof.
  intros H. unfold spec_summary. destruct (compute_summary_total nm_root nm_drain nm_f16 nm_bf16 (t_data t) (t_dtype t) (t_shape t) H) as [[stats top_k] ->].
  by eexists.
Qed.

Lemma spec_summary_None t : spec_summary t = None -> 0 ∈ t_shape t.
Proof.
  unfold spec_summary. destruct (compute_summary _ _ _) as [[stats top_k]|] eqn:E; [done|]. intros _. by eapply compute_summary_None.
Qed.

Lemma whole_use l t : Forall whole l -> whole t -> Forall whole (use l t).
Proof.
  intros Hl Ht. unfold use. apply Forall_app_2; [|by apply Forall_singleton]. rewrite Forall_forall in *. intros x Hx.
  apply Hl. by apply elem_of_drop_key in Hx as [? _].
Qed.

Lemma whole_evict n l : Forall whole l -> Forall whole (spec_evict n l).
Proof. induction l as [|t l IH]; [done|]. cbn [spec_evict]. intros H. destruct (_ || _); [|done]. apply Forall_cons in H as [_ H]. auto. Qed.

Lemma whole_find l id t : Forall whole l -> find_key t_id l id = Some t -> whole t.
Proof. rewrite Forall_forall. intros H Hf. apply find_key_Some in Hf as [_ Hin]. auto. Qed.

Lemma whole_insert l t : Forall whole l -> whole t -> Forall whole (spec_insert l t).2.
Proof.
  intros Hl Ht. unfold spec_insert. destruct (find_key t_id l (t_id t)) as [o|] eqn:E; cbn [snd].
  - apply whole_use; [done|]. by eapply whole_find.
  - apply Forall_app_2; [by apply whole_evict|by apply Forall_singleton].
Qed.

Lemma whole_call l c : Forall whole l -> inserts_whole c -> exists a l', spec_call l c = Some (a, l') /\ Forall whole l'.
Proof.
  intros Hl Hc.
  assert (Ha : forall B (m : B) f id, Forall whole (spec_access l id m f).2).
  { intros B m f id. unfold spec_access. destruct (find_key t_id l id) as [t|] eqn:E; [|done]. apply whole_use; [done|]. by eapply whole_find. }
  destruct c; cbn [spec_call inserts_whole] in *;
    try (eexists _, _; split; [by rewrite <- surjective_pairing|]; first [by apply whole_insert|by apply Ha]).
  destruct (find_key t_id l id) as [t|] eqn:E; [|by eexists _, _].
  destruct (spec_summary_total t) as [sm ->]; [by eapply whole_find|]. eexists _, _. split; [reflexivity|].
  apply whole_use; [done|]. by eapply whole_find.
Qed.

Lemma whole_calls cs : forall l, Forall whole l -> Forall inserts_whole cs -> is_Some (spec_calls l cs).
Proof.
  induction cs as [|c cs IH]; intros l Hl Hcs; [done|]. apply Forall_cons in Hcs as [Hc Hcs]. cbn [spec_calls].
  destruct (whole_call l c Hl Hc) as (a & l1 & -> & Hl1). cbn [mbind option_bind]. destruct (IH l1 Hl1 Hcs) as [[r l2] ->]. by eexists.
Qed.

End Spec.

Lemma store_represents_new `{Numerics} maxe maxb : represents maxe maxb (with_limits maxe maxb) [].
Proof. split; try done; [apply keyed_empty|constructor]. Qed.

Lemma represents_ids `{Numerics} maxe maxb s ts : represents maxe maxb s ts -> NoDup (t_id <$> (view <$> ts)).
Proof. intros HR. rewrite <- list_fmap_compose. apply (rep_keyed _ _ _ _ HR). Qed.

Lemma calls_within `{Numerics} blake3_hex maxe maxb calls : forall s ts answers l,
  1 <= maxe -> represents maxe maxb s ts -> within maxe maxb (view <$> ts) ->
  0 <= access_generation s -> access_generation s + Z.of_nat (List.length calls) <= U64_MAX ->
  spec_calls blake3_hex maxe maxb (view <$> ts) calls = Some (answers, l) -> within maxe maxb l.
Proof.
  induction calls as [|c calls IH]; intros s ts answers l Hm HR Hw H0 Hb; [by intros [= <- <-]|]. cbn [List.length] in Hb.
  pose proof (call_represents blake3_hex maxe maxb s ts c HR ltac:(lia)) as Hc. cbn [spec_calls].
  destruct (run_call blake3_hex s c) as [[a s1]|]; [|by rewrite Hc]. destruct Hc as (ts1 & HR1 & Hg & Hsp).
  pose proof (within_call blake3_hex maxe maxb _ c _ _ Hm (represents_ids _ _ _ _ HR) Hw Hsp) as Hw1. rewrite Hsp. cbn [mbind option_bind].
  destruct (spec_calls blake3_hex maxe maxb (view <$> ts1) calls) as [[r l2]|] eqn:E; [|done]. cbn [mbind option_bind]. intros [= <- <-].
  apply (IH s1 ts1 r l2 Hm HR1 Hw1); [lia|lia|exact E].
Qed.

(** C15: refinement and limits of the tensor cache.  For every history of fewer
    than 2^64 calls on a store with at least one entry allowed, the store and a
    plain list of tensors ordered by last use do the same: either both panic, at
    a [summarize] of a tensor whose summary panics (which needs a zero dimension
    in its shape), or every call returns (the eviction loop terminates) with the
    list's answer: reading moves a tensor to the recent end, inserting a known id
    keeps the stored shape and dtype, inserting a new one forgets the least
    recently used tensors, and only as many as needed.  Then the byte and entry
    counts are exact, the number of entries is within the limit, and so are the
    bytes unless a single oversized tensor is all that is left.  When no shape
    that is inserted has a zero dimension, every history returns.  Hash-map order
    never matters. *)
Theorem tensor_store_refines_lru `{Numerics} (blake3_hex : list byte -> string) (maxe maxb : Z) (calls : list call) :
  1 <= maxe -> Z.of_nat (List.length calls) <= U64_MAX ->
  match run_calls blake3_hex (with_limits maxe maxb) calls with
  | Some (answers, s) => exists l, spec_calls blake3_hex maxe maxb [] calls = Some (answers, l) /\
      bytes_used s = total_bytes l /\ len s = List.length l /\
      (forall id, contains s id = bool_decide (id ∈ t_id <$> l)) /\ within maxe maxb l
  | None => spec_calls blake3_hex maxe maxb [] calls = None
  end /\
  (Forall inserts_whole calls -> is_Some (run_calls blake3_hex (with_limits maxe maxb) calls)).
Proof.
  intros Hm Hb. pose proof (store_represents_new maxe maxb) as HR0.
  pose proof (calls_represent blake3_hex maxe maxb calls _ _ HR0 ltac:(done) ltac:(cbn; lia)) as Hc. change (view <$> []) with (@nil tensor) in Hc.
  split.
  - destruct (run_calls _ _ calls) as [[answers s]|]; [|exact Hc]. destruct Hc as (ts & HR & Hsp). exists (view <$> ts). split_and!; [done|apply HR| | |].
    + unfold len. by rewrite (keyed_size _ _ _ (rep_keyed _ _ _ _ HR)), length_fmap.
    + intros id. unfold contains. apply bool_decide_ext. rewrite (kb_lookup _ _ _ (rep_keyed _ _ _ _ HR)), <- list_fmap_compose.
      split.
      * intros [t Ht]. apply find_key_Some in Ht as [<- Ht]. apply list_elem_of_fmap. by exists t.
      * intros Hin. destruct (find_key tensor_id ts id) as [t|] eqn:E; [eauto|]. by apply find_key_None in E.
    + apply (calls_within blake3_hex maxe maxb calls _ [] answers _ Hm HR0); [|done|cbn; lia|exact Hsp].
      split; [cbn; lia|right; cbn; lia].
  - intros Hi. destruct (whole_calls blake3_hex maxe maxb calls [] ltac:(constructor) Hi) as [x Hx].
    destruct (run_calls _ _ calls) as [r|]; [by eexists|]. congruence.
Qed.

(** Two entries allowed: using [a] before inserting [c] makes [b] the victim. *)
Definition demo_calls : list call :=
  [CInsertWithId "a" [Byte.x01] [1] DType_Uint8 "cpu"; CInsertWithId "b" [Byte.x02] [1] DType_Uint8 "cpu";
   CRaw "a"; CInsertWithId "c" [Byte.x03] [1] DType_Uint8 "cpu"; CRaw "b"; CSummarize "c"].

(** A heap in order of insertion, and no half-precision tensors. *)
Definition numerics_ref : Numerics := {| nm_root := fun _ => 0%nat; nm_drain := fun l => l; nm_f16 := f64_of_Z; nm_bf16 := f64_of_Z |}.

Lemma tensor_store_refines_lru_witness :
  (exists s summary, @run_calls (fun _ => "h"%string) numerics_ref (with_limits 2 100) demo_calls
    = Some ([AHandle (mkTensorHandle "a" [1] DType_Uint8); AHandle (mkTensorHandle "b" [1] DType_Uint8);
             ARaw (Some [Byte.x01]); AHandle (mkTensorHandle "c" [1] DType_Uint8); ARaw None; ASummary (Some summary)], s) /\ len s = 2%nat /\
    tst_mean (ts_stats summary) = f64_of_Z 3) /\
  @spec_calls (fun _ => "h"%string) numerics_ref 2 100 [] [CInsertWithId "z" [Byte.x01] [0] DType_Uint8 "cpu"; CSummarize "z"] = None.
Proof.
  split.
  - destruct (@tensor_store_refines_lru numerics_ref (fun _ => "h"%string) 2 100 demo_calls) as [Hr Htot]; [lia|vm_compute; discriminate|].
    destruct Htot as [[answers s] E]; [repeat constructor; done|]. rewrite E in Hr. destruct Hr as (l & Hl & _ & Hlen & _).
    assert (Hn : (fun r => List.length r.2) <$> @spec_calls (fun _ => "h"%string) numerics_ref 2 100 [] demo_calls = Some 2%nat) by (vm_compute; reflexivity).
    assert (Ha : fst <$> @spec_calls (fun _ => "h"%string) numerics_ref 2 100 [] demo_calls = Some answers) by (by rewrite Hl).
    rewrite Hl in Hn. injection Hn as Hn. vm_compute in Ha. injection Ha as <-. exists s. eexists. split; [exact E|]. split; [by rewrite Hlen, Hn|vm_compute; reflexivity].
  - destruct (@tensor_store_refines_lru numerics_ref (fun _ => "h"%string) 2 100 [CInsertWithId "z" [Byte.x01] [0] DType_Uint8 "cpu"; CSummarize "z"]) as [Hr _];
      [lia|vm_compute; discriminate|].
    assert (E : @run_calls (fun _ => "h"%string) numerics_ref (with_limits 2 100) [CInsertWithId "z" [Byte.x01] [0] DType_Uint8 "cpu"; CSummarize "z"] = None)
      by (vm_compute; reflexivity).
    rewrite E in Hr. exact Hr.
Defined.
