(* ===== verification/StatsSpec.v ===== *)
(** * StatsSpec: what the summary of a tensor says

    The single-pass accumulators, the histogram, the bounded heap and the index
    arithmetic of [Stats] against direct definitions on the list of values. *)

From Stdlib Require Import ZArith Lia SpecFloat Sorted.
From coqutil Require Import Byte.
From stdpp Require Import base list sorting sets.
From S2P Require Import Prelude Protocol Float Stats.
Open Scope Z_scope.

(** ** The first pass *)

Definition count (P : f64 -> bool) (l : list f64) : Z := Z.of_nat (List.length (List.filter P l)).
Definition infinite (x : f64) : bool := negb (is_finite x) && negb (is_nan x).
Definition sparse (x : f64) : bool := is_finite x && f64_ltb (f64_abs x) SPARSITY_EPSILON.
Definition finites : list f64 -> list f64 := List.filter is_finite.

(** [x] is the best of [l] for [better], or [d] when there is none. *)
Definition best (better : f64 -> f64 -> bool) (d : f64) (l : list f64) (x : f64) : Prop :=
  (x = d /\ l = [] \/ x ∈ l) /\ forall y, y ∈ l -> better y x = false.

Definition least (l : list f64) : f64 -> Prop := best f64_ltb f64_infinity l.
Definition greatest (l : list f64) : f64 -> Prop := best (fun x y => f64_ltb y x) f64_neg_infinity l.

(** The largest magnitude of [l], or zero. *)
Definition absolute (l : list f64) (x : f64) : Prop :=
  (x = f64_zero \/ x ∈ f64_abs <$> l) /\ forall y, y ∈ l -> f64_ltb x (f64_abs y) = false.

Record pass1_of (values : list f64) (p : Pass1Result) : Prop := {
  po_n : p1_n p = Z.of_nat (List.length values);
  po_nan : p1_nan_count p = count is_nan values;
  po_inf : p1_inf_count p = count infinite values;
  po_sparse : p1_sparse_count p = count sparse values;
  po_min : least (finites values) (p1_min p);
  po_max : greatest (finites values) (p1_max p);
  po_abs : absolute (finites values) (p1_abs_max p)
}.

Lemma count_snoc P l x : count P (l ++ [x]) = count P l + (if P x then 1 else 0).
Proof. unfold count. rewrite List.filter_app, length_app. cbn. destruct (P x); cbn; lia. Qed.

Lemma count_app P l l' : count P (l ++ l') = count P l + count P l'.
Proof. unfold count. rewrite List.filter_app, length_app. lia. Qed.

Lemma count_nil P : count P [] = 0.
Proof. done. Qed.

Lemma count_cons P l x : count P (x :: l) = (if P x then 1 else 0) + count P l.
Proof. unfold count. cbn. destruct (P x); cbn; lia. Qed.

Lemma count_bound P l : 0 <= count P l <= Z.of_nat (List.length l).
Proof. unfold count. pose proof (List.filter_length_le P l). lia. Qed.

Lemma count_partition l : count is_finite l + count is_nan l + count infinite l = Z.of_nat (List.length l).
Proof.
  induction l as [|x l IH]; [done|]. rewrite !count_cons. cbn [List.length]. unfold infinite at 1. by destruct x; cbn; lia.
Qed.

Lemma finites_snoc l x : finites (l ++ [x]) = finites l ++ (if is_finite x then [x] else []).
Proof. unfold finites. rewrite List.filter_app. cbn. by destruct (is_finite x). Qed.

Lemma elem_of_finites l x : x ∈ finites l <-> x ∈ l /\ is_finite x = true.
Proof. unfold finites. by rewrite !list_elem_of_In, List.filter_In. Qed.

(** A number keeps its place as the best when a worse value comes, and gives it up to a better one. *)
Lemma best_snoc (better : f64 -> f64 -> bool) d l x y :
  (forall a b c, better a b = true -> better c b = false -> better c a = false) -> (forall a, better a a = false) ->
  best better d l x -> (l = [] -> better y d = true) ->
  best better d (l ++ [y]) (if better y x then y else x).
Proof.
  intros Htr Hirr [Hx Hb] Hd. destruct (better y x) eqn:E.
  - split; [right; set_solver|]. intros z [Hz|Hz%list_elem_of_singleton]%elem_of_app; [|subst z; apply Hirr].
    by apply (Htr y x z E), Hb.
  - split.
    + destruct Hx as [[-> ->]|Hx]; [by rewrite Hd in E|]. right. set_solver.
    + intros z [Hz|Hz%list_elem_of_singleton]%elem_of_app; [by apply Hb|by subst z].
Qed.

Lemma ltb_worse a b c : f64_ltb a b = true -> f64_ltb c b = false -> f64_ltb c a = false.
Proof. intros H1 H2. apply not_true_iff_false. intros H3. pose proof (ltb_trans _ _ _ H3 H1). congruence. Qed.

Lemma gtb_worse a b c : f64_ltb b a = true -> f64_ltb b c = false -> f64_ltb a c = false.
Proof. intros H1 H2. apply not_true_iff_false. intros H3. pose proof (ltb_trans _ _ _ H1 H3). congruence. Qed.

Lemma pass1_snoc values p x :
  Z.of_nat (List.length values) < U64_MAX -> pass1_of values p -> pass1_of (values ++ [x]) (pass1_step p x).
Proof.
  intros Hlen [H1 H2 H3 H4 H5 H6 H7].
  pose proof (count_bound is_nan values). pose proof (count_bound infinite values). pose proof (count_bound sparse values).
  assert (Hn : u64_add (p1_n p) 1 = Z.of_nat (List.length (values ++ [x]))) by (rewrite u64_add_small, length_app; cbn; lia).
  unfold pass1_step. destruct (is_finite x) eqn:Ef; cbn [negb].
  - pose proof (finite_number x Ef) as Enan.
    assert (Einf : infinite x = false) by (unfold infinite; by rewrite Ef).
    split; cbn [p1_n p1_nan_count p1_inf_count p1_sparse_count p1_min p1_max p1_abs_max].
    + done.
    + rewrite count_snoc, Enan. lia.
    + rewrite count_snoc, Einf. lia.
    + rewrite count_snoc. unfold sparse at 2. rewrite Ef. cbn [andb]. destruct (f64_ltb _ _); [rewrite u64_add_small by lia|]; lia.
    + rewrite finites_snoc, Ef. apply (best_snoc f64_ltb); [apply ltb_worse|apply ltb_irrefl|done|]. intros _. by destruct x as [| | |[]].
    + rewrite finites_snoc, Ef. apply (best_snoc (fun a b => f64_ltb b a)); [intros a b c; apply gtb_worse|apply ltb_irrefl|done|]. intros _. by destruct x as [| | |[]].
    + rewrite finites_snoc, Ef. destruct H7 as [Ha Hb]. destruct (f64_ltb (p1_abs_max p) (f64_abs x)) eqn:E.
      * split; [right; rewrite fmap_app; set_solver|]. intros y [Hy|Hy%list_elem_of_singleton]%elem_of_app; [|subst y; apply ltb_irrefl].
        by apply (gtb_worse _ (p1_abs_max p)), Hb.
      * split; [destruct Ha; [by left|right; rewrite fmap_app; set_solver]|].
        intros y [Hy|Hy%list_elem_of_singleton]%elem_of_app; [by apply Hb|by subst y].
  - assert (Hf : finites (values ++ [x]) = finites values) by (by rewrite finites_snoc, Ef, app_nil_r).
    split; cbn [p1_n p1_nan_count p1_inf_count p1_sparse_count p1_min p1_max p1_abs_max]; rewrite ?Hf; try done.
    + rewrite count_snoc. destruct (is_nan x); [rewrite u64_add_small by lia|]; lia.
    + rewrite count_snoc. unfold infinite at 2. rewrite Ef. cbn [negb andb]. destruct (is_nan x); cbn [negb]; [|rewrite u64_add_small by lia]; lia.
    + rewrite count_snoc. unfold sparse at 2. rewrite Ef. cbn [andb]. lia.
Qed.

Lemma pass1_correct values : Z.of_nat (List.length values) <= U64_MAX -> pass1_of values (compute_pass1 values).
Proof.
  unfold compute_pass1. induction values as [|x values IH] using rev_ind.
  - intros _. split; try done; try (split; [by left|set_solver]).
  - rewrite length_app, foldl_app. cbn. intros H. apply pass1_snoc; [lia|]. apply IH. lia.
Qed.

Lemma pass1_finite values p :
  Z.of_nat (List.length values) <= U64_MAX -> pass1_of values p -> p1_finite p = count is_finite values.
Proof.
  intros Hlen [H1 H2 H3 _ _ _ _]. pose proof (count_partition values). pose proof (count_bound is_nan values). pose proof (count_bound infinite values).
  unfold p1_finite. rewrite H1, H2, H3. pose proof (count_bound is_finite values). rewrite !u64_sub_small by (rewrite ?u64_sub_small by lia; lia). lia.
Qed.

(** ** Merging *)

(** Two numbers that compare equal (the two zeros, for instance). *)
Definition same (x y : f64) : Prop := f64_ltb x y = false /\ f64_ltb y x = false.

Lemma best_same (better : f64 -> f64 -> bool) d l x y : better d d = false ->
  best better d l x -> best better d l y -> better x y = false /\ better y x = false.
Proof.
  intros Hd [[[-> Hl]|Hx] Hbx] [[[-> Hl']|Hy] Hby].
  - done.
  - subst l. set_solver.
  - subst l. set_solver.
  - split; [by apply Hby|by apply Hbx].
Qed.

Lemma least_number l x : (forall y, y ∈ l -> is_finite y = true) -> least l x -> is_nan x = false.
Proof. intros Hl [[[-> _]|Hx] _]; [done|]. by apply finite_number, Hl. Qed.

Lemma greatest_number l x : (forall y, y ∈ l -> is_finite y = true) -> greatest l x -> is_nan x = false.
Proof. intros Hl [[[-> _]|Hx] _]; [done|]. by apply finite_number, Hl. Qed.

Lemma finites_finite l y : y ∈ finites l -> is_finite y = true.
Proof. by intros [_ ?]%elem_of_finites. Qed.

Lemma least_app l l' x y :
  (forall z, z ∈ l -> is_finite z = true) -> (forall z, z ∈ l' -> is_finite z = true) ->
  least l x -> least l' y -> least (l ++ l') (f64_min x y).
Proof.
  intros Hl Hl' Hx Hy. pose proof (least_number l x Hl Hx) as Nx. pose proof (least_number l' y Hl' Hy) as Ny.
  destruct Hx as [Hx Hbx], Hy as [Hy Hby]. unfold f64_min. rewrite Nx, Ny. split.
  - destruct Hx as [[-> ->]|Hx].
    + destruct Hy as [[-> ->]|Hy]; [by left|]. right. cbn [app]. pose proof (finite_number _ (Hl' y Hy)).
      pose proof (Hl' y Hy). replace (f64_ltb y f64_infinity) with true by (by destruct y as [| | |[]]). done.
    + destruct Hy as [[-> ->]|Hy]; [|right; destruct (f64_ltb y x); set_solver]. right.
      pose proof (Hl x Hx). replace (f64_ltb f64_infinity x) with false by (by destruct x as [| | |[]]). set_solver.
  - intros z [Hz|Hz]%elem_of_app.
    + destruct (f64_ltb y x) eqn:E; [by apply (ltb_worse _ x), Hbx|by apply Hbx].
    + destruct (f64_ltb y x) eqn:E; [by apply Hby|]. by apply (geb_trans z y x); [done|apply Hby|].
Qed.

Lemma greatest_app l l' x y :
  (forall z, z ∈ l -> is_finite z = true) -> (forall z, z ∈ l' -> is_finite z = true) ->
  greatest l x -> greatest l' y -> greatest (l ++ l') (f64_max x y).
Proof.
  intros Hl Hl' Hx Hy. pose proof (greatest_number l x Hl Hx) as Nx. pose proof (greatest_number l' y Hl' Hy) as Ny.
  destruct Hx as [Hx Hbx], Hy as [Hy Hby]. unfold f64_max. rewrite Nx, Ny. split.
  - destruct Hx as [[-> ->]|Hx].
    + destruct Hy as [[-> ->]|Hy]; [by left|]. right. cbn [app].
      pose proof (Hl' y Hy). replace (f64_ltb f64_neg_infinity y) with true by (by destruct y as [| | |[]]). done.
    + destruct Hy as [[-> ->]|Hy]; [|right; destruct (f64_ltb x y); set_solver]. right.
      pose proof (Hl x Hx). replace (f64_ltb x f64_neg_infinity) with false by (by destruct x as [| | |[]]). set_solver.
  - intros z [Hz|Hz]%elem_of_app.
    + destruct (f64_ltb x y) eqn:E; [by apply (gtb_worse _ x), Hbx|by apply Hbx].
    + destruct (f64_ltb x y) eqn:E; [by apply Hby|]. by apply (geb_trans x y z); [done| |apply Hby].
Qed.

Lemma absolute_number l x : (forall y, y ∈ l -> is_finite y = true) -> absolute l x -> is_nan x = false /\ f64_ltb x f64_zero = false.
Proof.
  intros Hl [[->|(y & -> & Hy)%list_elem_of_fmap] _]; [done|]. split; [|by destruct y].
  apply finite_number. rewrite finite_abs. by apply Hl.
Qed.

Lemma absolute_app l l' x y :
  (forall z, z ∈ l -> is_finite z = true) -> (forall z, z ∈ l' -> is_finite z = true) ->
  absolute l x -> absolute l' y -> absolute (l ++ l') (f64_max x y).
Proof.
  intros Hl Hl' Hx Hy. destruct (absolute_number l x Hl Hx) as [Nx _], (absolute_number l' y Hl' Hy) as [Ny _].
  destruct Hx as [Hx Hbx], Hy as [Hy Hby]. unfold f64_max. rewrite Nx, Ny. split.
  - rewrite fmap_app. destruct (f64_ltb x y), Hx, Hy; set_solver.
  - intros z [Hz|Hz]%elem_of_app; destruct (f64_ltb x y) eqn:E; try (by apply Hbx); try (by apply Hby).
    + by apply (gtb_worse _ x), Hbx.
    + by apply (geb_trans x y); [done| |apply Hby].
Qed.

Lemma absolute_same l x y : (forall z, z ∈ l -> is_finite z = true) -> absolute l x -> absolute l y -> same x y.
Proof.
  intros Hl Hx Hy. destruct (absolute_number l x Hl Hx) as [_ Zx], (absolute_number l y Hl Hy) as [_ Zy].
  destruct Hx as [Hx Hbx], Hy as [Hy Hby]. split.
  - destruct Hy as [->|(v & -> & Hv)%list_elem_of_fmap]; [done|by apply Hbx].
  - destruct Hx as [->|(v & -> & Hv)%list_elem_of_fmap]; [done|by apply Hby].
Qed.

(** Merging two partial results gives what one pass over both slices gives:
    the same counts of values, NaNs, infinities and near-zeros, and equal
    minimum, maximum and absolute maximum. *)
Theorem merge_pass1_correct (a b : list f64) (Hlen : Z.of_nat (List.length a + List.length b) <= U64_MAX) :
  let m := merge_pass1 (compute_pass1 a) (compute_pass1 b) in
  let p := compute_pass1 (a ++ b) in
  p1_n m = p1_n p /\ p1_nan_count m = p1_nan_count p /\ p1_inf_count m = p1_inf_count p /\ p1_sparse_count m = p1_sparse_count p /\
  same (p1_min m) (p1_min p) /\ same (p1_max m) (p1_max p) /\ same (p1_abs_max m) (p1_abs_max p).
Proof.
  pose proof (pass1_correct a ltac:(lia)) as Pa. pose proof (pass1_correct b ltac:(lia)) as Pb.
  pose proof (pass1_correct (a ++ b) ltac:(rewrite length_app; lia)) as Pab.
  assert (Hsame : forall x, same x x) by (intros x; split; apply ltb_irrefl).
  cbv zeta. unfold merge_pass1. destruct (Z.eqb_spec (p1_n (compute_pass1 a)) 0) as [Ea|Ea].
  { assert (a = []) as -> by (rewrite (po_n _ _ Pa) in Ea; destruct a; [done|cbn in Ea; lia]). cbn [app]. by split_and!. }
  destruct (Z.eqb_spec (p1_n (compute_pass1 b)) 0) as [Eb|Eb].
  { assert (b = []) as -> by (rewrite (po_n _ _ Pb) in Eb; destruct b; [done|cbn in Eb; lia]). rewrite app_nil_r. by split_and!. }
  repeat match goal with |- context [let '(_, _) := ?x in _] => destruct x end.
  cbn [p1_n p1_nan_count p1_inf_count p1_sparse_count p1_min p1_max p1_abs_max].
  destruct Pa as [A1 A2 A3 A4 A5 A6 A7], Pb as [B1 B2 B3 B4 B5 B6 B7], Pab as [C1 C2 C3 C4 C5 C6 C7].
  rewrite C1, C2, C3, C4, A1, A2, A3, A4, B1, B2, B3, B4, !count_app, length_app.
  pose proof (count_bound is_nan a); pose proof (count_bound is_nan b); pose proof (count_bound infinite a); pose proof (count_bound infinite b);
    pose proof (count_bound sparse a); pose proof (count_bound sparse b).
  rewrite !u64_add_small by lia. assert (Hf : finites (a ++ b) = finites a ++ finites b) by apply List.filter_app.
  split_and!; try lia.
  - apply (best_same f64_ltb f64_infinity (finites (a ++ b))); [done| |exact C5]. rewrite Hf. apply least_app; [apply finites_finite|apply finites_finite|done|done].
  - rewrite Hf in C6. pose proof (greatest_app _ _ _ _ (finites_finite a) (finites_finite b) A6 B6) as C6'.
    destruct (best_same _ _ _ _ _ eq_refl C6' C6). by split.
  - apply (absolute_same (finites (a ++ b))); [apply finites_finite| |exact C7]. rewrite Hf. apply absolute_app; [apply finites_finite|apply finites_finite|done|done].
Qed.

(** ** The histogram *)

Lemma bin_of_range range_min range x : 0 <= bin_of range_min range x < NUM_HISTOGRAM_BINS.
Proof.
  unfold bin_of, NUM_HISTOGRAM_BINS. destruct (f64_ltb _ _); [|by vm_compute]. split; [|lia]. apply Z.min_glb; [|lia].
  unfold f64_floor_as_usize. destruct (f64_round _ _); [unfold USIZE_MAX, U64_MAX; lia|]. by destruct (f64_mul _ _) as [|[]| |].
Qed.

(** The finite values of a bin. *)
Definition in_bin (range_min range : f64) (b : Z) (x : f64) : bool := is_finite x && (bin_of range_min range x =? b).

Section Heap.
Context (root : list TopKHeapEntry -> nat) (drain : list TopKHeapEntry -> list TopKHeapEntry).

Lemma pass2_counts range_min range k values : forall i counts heap,
  List.length counts = 64%nat -> (forall b c, counts !! b = Some c -> 0 <= c /\ c + Z.of_nat (List.length values) <= U64_MAX) ->
  let counts' := (pass2_loop root range_min range k i values counts heap).1 in
  List.length counts' = 64%nat /\
  forall b c, counts !! b = Some c -> counts' !! b = Some (c + count (in_bin range_min range (Z.of_nat b)) values).
Proof.
  induction values as [|x values IH]; intros i counts heap Hl Hc; cbn [pass2_loop].
  { split; [done|]. intros b c Hb. cbn [fst]. by rewrite count_nil, Z.add_0_r. }
  cbn [List.length] in Hc. destruct (is_finite x) eqn:Ef; cbn [negb].
  - set (counts1 := count_bin counts (bin_of range_min range x)). set (entry := mkTopKHeapEntry _ _ _).
    pose proof (bin_of_range range_min range x) as Hb.
    assert (H1 : forall b c, counts !! b = Some c -> counts1 !! b = Some (c + (if in_bin range_min range (Z.of_nat b) x then 1 else 0))).
    { intros b c Hbc. unfold counts1, count_bin, in_bin. rewrite Ef. cbn [andb]. destruct (Z.eqb_spec (bin_of range_min range x) (Z.of_nat b)) as [E|E].
      - rewrite E, Nat2Z.id, list_lookup_alter_eq, Hbc. cbn. destruct (Hc b c Hbc). by rewrite u64_add_small by lia.
      - rewrite list_lookup_alter_ne by lia. by rewrite Hbc, Z.add_0_r. }
    destruct (IH (i + 1) counts1 (offer root k entry heap)) as [L1 L2].
    + unfold counts1, count_bin. by rewrite length_alter.
    + intros b c Hbc. destruct (counts !! b) as [c0|] eqn:E0.
      * rewrite (H1 b c0 E0) in Hbc. injection Hbc as <-. destruct (Hc b c0 E0). destruct (in_bin _ _ _ _); lia.
      * apply lookup_lt_Some in Hbc. unfold counts1, count_bin in Hbc. rewrite length_alter in Hbc. apply lookup_ge_None in E0. lia.
    + split; [done|]. intros b c Hbc. rewrite (L2 b _ (H1 b c Hbc)), count_cons. f_equal. lia.
  - destruct (IH (i + 1) counts heap Hl) as [L1 L2]; [intros b c Hbc; destruct (Hc b c Hbc); lia|].
    split; [done|]. intros b c Hbc. rewrite (L2 b c Hbc), count_cons. unfold in_bin at 2. rewrite Ef. cbn [andb]. done.
Qed.

Lemma sum_alter (l : list Z) i :
  (i < List.length l)%nat -> (forall c, l !! i = Some c -> u64_add c 1 = c + 1) ->
  foldr Z.add 0 (alter (fun c => u64_add c 1) i l) = foldr Z.add 0 l + 1.
Proof.
  revert i. induction l as [|c l IH]; intros [|i] Hi Hc; cbn [List.length] in Hi; try lia.
  - cbn. rewrite (Hc c) by done. lia.
  - change (c + foldr Z.add 0 (alter (fun c => u64_add c 1) i l) = c + foldr Z.add 0 l + 1). rewrite IH; [lia|lia|exact Hc].
Qed.

(** No finite value is lost. *)
Lemma pass2_total range_min range k values : forall i counts heap,
  List.length counts = 64%nat -> (forall b c, counts !! b = Some c -> 0 <= c /\ c + Z.of_nat (List.length values) <= U64_MAX) ->
  foldr Z.add 0 (pass2_loop root range_min range k i values counts heap).1 = foldr Z.add 0 counts + count is_finite values.
Proof.
  induction values as [|x values IH]; intros i counts heap Hl Hc; cbn [pass2_loop]; [cbn; rewrite count_nil; lia|]. cbn [List.length] in Hc.
  rewrite count_cons. destruct (is_finite x); cbn [negb].
  - pose proof (bin_of_range range_min range x) as Hb. unfold NUM_HISTOGRAM_BINS in Hb. rewrite IH.
    + unfold count_bin. rewrite sum_alter; [lia|lia|]. intros c Hc'. destruct (Hc _ c Hc'). apply u64_add_small; lia.
    + unfold count_bin. by rewrite length_alter.
    + intros b c. unfold count_bin. destruct (decide (b = Z.to_nat (bin_of range_min range x))) as [->|E].
      * rewrite list_lookup_alter_eq. intros (c0 & E0 & ->)%fmap_Some. destruct (Hc _ c0 E0). rewrite u64_add_small by lia. lia.
      * rewrite list_lookup_alter_ne by done. intros Hbc. destruct (Hc b c Hbc). lia.
  - rewrite IH; [lia|done|]. intros b c Hbc. destruct (Hc b c Hbc). lia.
Qed.

(** ** The largest values *)

(** What is offered to the heap. *)
Fixpoint candidates (i : Z) (values : list f64) : list TopKHeapEntry :=
  match values with
  | [] => []
  | x :: rest => if is_finite x then mkTopKHeapEntry (f64_abs x) x i :: candidates (i + 1) rest else candidates (i + 1) rest
  end.

Definition magnitude_lt (a b : TopKHeapEntry) : bool := f64_ltb (he_abs_value a) (he_abs_value b).

(** The root of a heap is one of its least entries, and iterating over it gives its entries. *)
Definition root_ok : Prop := forall heap, heap <> [] ->
  exists e, heap !! root heap = Some e /\ forall e', e' ∈ heap -> magnitude_lt e' e = false.
Definition drain_ok : Prop := forall heap, drain heap ≡ₚ heap.

Definition numbered (e : TopKHeapEntry) : Prop := is_nan (he_abs_value e) = false.

(** [heap] and [out] are what was offered, and nothing in [out] is larger than an entry of the heap. *)
Record selects (k : nat) (offered heap out : list TopKHeapEntry) : Prop := {
  se_perm : heap ++ out ≡ₚ offered;
  se_size : List.length heap = Nat.min k (List.length offered);
  se_best : forall h o, h ∈ heap -> o ∈ out -> magnitude_lt h o = false
}.

Lemma offer_selects k e offered heap out :
  root_ok -> Forall numbered offered -> numbered e -> selects k offered heap out ->
  exists out', selects k (offered ++ [e]) (offer root k e heap) out'.
Proof.
  intros Hroot Hnum He [H1 H2 H3]. unfold offer. destruct (Nat.ltb_spec (List.length heap) k) as [Hk|Hk].
  - assert (out = []) as ->.
    { apply Permutation_length in H1. rewrite length_app in H1. destruct out; [done|cbn in H1; lia]. }
    exists []. split; [|cbn; rewrite length_app; cbn; lia|set_solver]. rewrite app_nil_r in *. trans (e :: offered); [by apply Permutation_skip|apply Permutation_cons_append].
  - assert (Hnum' : Forall numbered (heap ++ out)) by (by rewrite H1). apply Forall_app in Hnum' as [Nh No]. rewrite Forall_forall in Nh, No.
    destruct (decide (heap = [])) as [->|Hne].
    { rewrite lookup_nil. exists (e :: out). cbn in H2, Hk. split; [trans (e :: offered); [by apply Permutation_skip|apply Permutation_cons_append]|rewrite length_app; cbn; lia|set_solver]. }
    destruct (Hroot heap Hne) as (r & Hr & Hleast). rewrite Hr. pose proof (list_elem_of_lookup_2 _ _ _ Hr) as Hin.
    assert (Hp : heap ≡ₚ r :: delete (root heap) heap) by (by apply delete_Permutation).
    fold (magnitude_lt r e). destruct (magnitude_lt r e) eqn:E.
    + exists (r :: out). split.
      * trans (e :: offered); [|apply Permutation_cons_append]. cbn [app]. apply Permutation_skip. rewrite <- Permutation_middle.
        trans (heap ++ out); [|exact H1]. rewrite (app_comm_cons _ out r). apply Permutation_app_tail. by symmetry.
      * rewrite length_app. cbn. apply Permutation_length in Hp. cbn in Hp. lia.
      * assert (Hd : forall h, h ∈ delete (root heap) heap -> h ∈ heap) by (intros h Hh; apply (elem_of_Permutation_proper h _ _ Hp); by right).
        intros h o Hh Ho. apply elem_of_cons in Hh as [->|Hh], Ho as [->|Ho].
        -- by apply ltb_asym.
        -- apply (geb_trans _ (he_abs_value r)); [by apply Nh|by apply ltb_asym|by apply H3].
        -- by apply Hleast, Hd.
        -- by apply H3; [apply Hd|].
    + exists (e :: out). split.
      * trans (e :: offered); [|apply Permutation_cons_append]. rewrite <- Permutation_middle. by apply Permutation_skip.
      * rewrite length_app. cbn. lia.
      * intros h o Hh Ho. apply elem_of_cons in Ho as [->|Ho]; [|by apply H3].
        apply (geb_trans _ (he_abs_value r)); [by apply Nh|by apply Hleast|done].
Qed.

Lemma candidates_numbered values : forall i, Forall numbered (candidates i values).
Proof.
  induction values as [|x values IH]; intros i; cbn [candidates]; [done|]. destruct (is_finite x) eqn:E; [|apply IH].
  constructor; [|apply IH]. unfold numbered. cbn. apply finite_number. by rewrite finite_abs.
Qed.

Lemma candidates_length values : forall i, Z.of_nat (List.length (candidates i values)) = count is_finite values.
Proof.
  induction values as [|x values IH]; intros i; cbn [candidates]; [done|]. rewrite count_cons. destruct (is_finite x); [cbn [List.length]|]; rewrite <- (IH (i + 1)); lia.
Qed.

(** A candidate is a finite value at its index. *)
Lemma candidates_at values : forall i e, e ∈ candidates i values ->
  exists j, he_flat_index e = i + Z.of_nat j /\ values !! j = Some (he_original_value e) /\
    is_finite (he_original_value e) = true /\ he_abs_value e = f64_abs (he_original_value e).
Proof.
  induction values as [|x values IH]; intros i e; cbn [candidates]; [by intros ?%elem_of_nil|].
  assert (Hrest : e ∈ candidates (i + 1) values -> exists j, he_flat_index e = i + Z.of_nat j /\ (x :: values) !! j = Some (he_original_value e) /\
    is_finite (he_original_value e) = true /\ he_abs_value e = f64_abs (he_original_value e)).
  { intros (j & H1 & H2)%IH. exists (S j). split; [lia|exact H2]. }
  destruct (is_finite x) eqn:E; [|exact Hrest]. intros [->|He]%elem_of_cons; [|by apply Hrest].
  exists 0%nat. cbn. split_and!; [lia|done|done|done].
Qed.

Lemma pass2_heap range_min range k values : forall i counts offered heap out,
  root_ok -> Forall numbered offered -> selects k offered heap out ->
  exists out', selects k (offered ++ candidates i values) (pass2_loop root range_min range k i values counts heap).2 out'.
Proof.
  induction values as [|x values IH]; intros i counts offered heap out Hroot Hn Hs; cbn [pass2_loop candidates].
  { rewrite app_nil_r. by exists out. }
  destruct (is_finite x) eqn:E; cbn [negb]; [|by eapply IH].
  set (e := mkTopKHeapEntry _ _ _).
  assert (He : numbered e) by (apply finite_number; cbn; by rewrite finite_abs).
  destruct (offer_selects k e offered heap out Hroot Hn He Hs) as [out1 H1].
  destruct (IH (i + 1) (count_bin counts (bin_of range_min range x)) (offered ++ [e]) (offer root k e heap) out1 Hroot) as [out2 H2]; [|done|].
  - apply Forall_app_2; [done|by constructor].
  - exists out2. by rewrite <- app_assoc in H2.
Qed.

(** The order of the result: nothing is smaller than what follows it. *)
Definition no_smaller (a b : TopKHeapEntry) : Prop := magnitude_lt a b = false.

Lemma larger_first_sorted l : Forall numbered l -> StronglySorted no_smaller (sort_by larger_first l).
Proof.
  intros Hn. rewrite Forall_forall in Hn.
  rewrite (sort_by_ext larger_first (fun a b => negb (bool_decide (below (he_abs_value a) (he_abs_value b)))) l).
  - apply (StronglySorted_impl_on (fun a b => ~ below (he_abs_value a) (he_abs_value b))).
    + apply sort_by_sorted; [intros a b c; unfold below; lia|]. intros a b. case_bool_decide; cbn; unfold below in *; lia.
    + intros a b Ha Hb H. rewrite sort_by_perm in Ha, Hb. apply below_ltb; [by apply Hn|by apply Hn|done].
  - intros a b Ha Hb. unfold larger_first. f_equal. apply eq_true_iff_eq. rewrite bool_decide_eq_true. apply ltb_below; by apply Hn.
Qed.

(** The second pass in one statement. *)
Lemma pass2_correct values range_min range_max k :
  root_ok -> drain_ok -> Z.of_nat (List.length values) <= U64_MAX ->
  let p := compute_pass2 root drain values range_min range_max k in
  let range := f64_sub range_max range_min in
  p2_counts p = (fun b => count (in_bin range_min range b) values) <$> seqZ 0 NUM_HISTOGRAM_BINS /\
  foldr Z.add 0 (p2_counts p) = count is_finite values /\
  p2_edges p = edge range_min range <$> seqZ 0 (NUM_HISTOGRAM_BINS + 1) /\
  (exists out, selects k (candidates 0 values) (p2_top_k p) out) /\ StronglySorted no_smaller (p2_top_k p).
Proof.
  intros Hroot Hdrain Hlen. cbv zeta. unfold compute_pass2. set (range := f64_sub range_max range_min).
  set (zeros := replicate (Z.to_nat NUM_HISTOGRAM_BINS) 0).
  assert (Hz : forall b c, zeros !! b = Some c -> 0 <= c /\ c + Z.of_nat (List.length values) <= U64_MAX).
  { intros b c [-> _]%lookup_replicate. lia. }
  pose proof (pass2_counts range_min range k values 0 zeros [] eq_refl Hz) as [C1 C2].
  pose proof (pass2_total range_min range k values 0 zeros [] eq_refl Hz) as C3.
  assert (H0 : selects k [] [] []) by (split; [done|cbn; lia|set_solver]).
  destruct (pass2_heap range_min range k values 0 zeros [] [] [] Hroot (Forall_nil_2 _) H0) as [out [S1 S2 S3]]. cbn [app] in S1, S2.
  destruct (pass2_loop root range_min range k 0 values zeros []) as [counts heap]. cbn [fst snd p2_counts p2_edges p2_top_k] in *.
  assert (Hp : sort_by larger_first (drain heap) ≡ₚ heap) by (rewrite sort_by_perm; apply Hdrain).
  split_and!; [|exact C3|done| |].
  - apply list_eq_same_length with 64%nat; [by rewrite length_fmap, length_seqZ|done|]. intros b x y Hb. rewrite list_lookup_fmap, lookup_seqZ_lt by (unfold NUM_HISTOGRAM_BINS; lia).
    rewrite (C2 b 0) by (apply lookup_replicate; unfold NUM_HISTOGRAM_BINS; split; [done|lia]). cbn. rewrite !Z.add_0_l. congruence.
  - exists out. split; [trans (heap ++ out); [by apply Permutation_app_tail|done]|by rewrite (Permutation_length Hp)|].
    intros h o Hh. apply S3. by apply (elem_of_Permutation_proper h _ _ Hp).
  - apply larger_first_sorted. rewrite (Hdrain heap). pose proof (candidates_numbered values 0) as Hc. rewrite <- S1 in Hc. by apply Forall_app in Hc as [? _].
Qed.

(** ** Indices *)

(** The flat position of an index in a tensor stored row by row. *)
Fixpoint ravel_reversed (dims index : list Z) : Z :=
  match dims, index with
  | d :: dims, i :: index => i + d * ravel_reversed dims index
  | _, _ => 0
  end.
Definition ravel (shape index : list Z) : Z := ravel_reversed (reverse shape) (reverse index).
Definition numel (shape : list Z) : Z := foldr Z.mul 1 shape.
Definition inside (i d : Z) : Prop := 0 <= i < d.

Lemma multi_loop_correct dims : Forall (fun d => 0 < d) dims -> forall flat, 0 <= flat ->
  exists index, multi_loop flat dims = Some index /\ Forall2 inside index dims /\ (flat < numel dims -> ravel_reversed dims index = flat).
Proof.
  induction 1 as [|d dims Hd Hds IH]; intros flat Hf; cbn [multi_loop].
  { exists []. split_and!; [done|constructor|]. unfold numel. cbn. lia. }
  destruct (Z.eqb_spec d 0); [lia|]. destruct (IH (flat / d)) as (index & -> & Hin & Hr); [apply Z.div_pos; lia|]. cbn [mbind option_bind].
  exists (flat mod d :: index). split_and!; [done|constructor; [by apply Z.mod_pos_bound|done]|].
  change (numel (d :: dims)) with (d * numel dims). intros Hlt. cbn [ravel_reversed]. rewrite Hr; [pose proof (Z.div_mod flat d); lia|].
  apply Z.div_lt_upper_bound; lia.
Qed.

Lemma numel_reverse shape : numel (reverse shape) = numel shape.
Proof.
  unfold numel. induction shape as [|d shape IH]; [done|]. rewrite reverse_cons, foldr_app. cbn [foldr]. rewrite <- IH, Z.mul_1_r. clear IH.
  generalize (reverse shape). intros l. induction l as [|e l IH]; cbn [foldr]; [lia|]. rewrite IH. lia.
Qed.

Lemma flat_index_correct shape flat : Forall (fun d => 0 < d) shape -> 0 <= flat ->
  exists index, flat_index_to_multi flat shape = Some index /\ Forall2 inside index shape /\ (flat < numel shape -> ravel shape index = flat).
Proof.
  intros Hs Hf. destruct (multi_loop_correct (reverse shape)) with (flat := flat) as (index & Hm & Hin & Hr); [by apply Forall_reverse|done|].
  exists (reverse index). unfold flat_index_to_multi, ravel. rewrite Hm. cbn. split_and!; [done| |].
  - rewrite <- (reverse_involutive shape). by apply Forall2_reverse.
  - rewrite reverse_involutive. rewrite numel_reverse in Hr. exact Hr.
Qed.

(** ** The summary *)

Context (f16_value bf16_value : Z -> f64).

(** What an entry of the summary says about a selected value. *)
Definition describes (shape : list Z) (values : list f64) (e : TopKHeapEntry) (t : TopKEntry) : Prop :=
  exists i, he_flat_index e = Z.of_nat i /\ values !! i = Some (tk_value t) /\ Forall2 inside (tk_index t) shape /\
    (Z.of_nat i < numel shape -> ravel shape (tk_index t) = Z.of_nat i).

Lemma describe_all shape values es :
  Forall (fun d => 0 < d) shape -> (forall e, e ∈ es -> e ∈ candidates 0 values) ->
  exists ts, mapM (fun e => index ← flat_index_to_multi (he_flat_index e) shape; Some (mkTopKEntry index (he_original_value e))) es = Some ts /\
    Forall2 (describes shape values) es ts.
Proof.
  intros Hs. induction es as [|e es IH]; intros He; [exists []; split; [done|constructor]|].
  destruct (candidates_at values 0 e) as (j & Hj & Hv & _); [apply He; left|].
  destruct (flat_index_correct shape (he_flat_index e) Hs) as (index & Hi & Hin & Hr); [lia|].
  destruct IH as (ts & Hts & Hall); [intros; apply He; by right|]. exists (mkTopKEntry index (he_original_value e) :: ts). split.
  - cbn. rewrite Hi. cbn [mbind option_bind]. rewrite Hts. done.
  - constructor; [|done]. exists j. cbn. rewrite Z.add_0_l in Hj. rewrite Hj in Hr. by split_and!.
Qed.

Lemma decode_length data dtype : (List.length (decode_values f16_value bf16_value data dtype) <= List.length data)%nat.
Proof.
  assert (H : forall size, (List.length (chunks_exact size data) <= List.length data)%nat).
  { intros size. unfold chunks_exact. rewrite length_fmap, length_seq. destruct size; [cbn; lia|]. apply Nat.Div0.div_le_upper_bound. nia. }
  destruct dtype; cbn [decode_values]; rewrite length_fmap; apply H.
Qed.

Lemma finites_nonempty values : count is_finite values <> 0 -> finites values <> [].
Proof. unfold count, finites. by destruct (List.filter is_finite values). Qed.

Lemma best_member better d l x : l <> [] -> best better d l x -> x ∈ l /\ forall y, y ∈ l -> better y x = false.
Proof. by intros Hl [[[_ ?]|?] ?]. Qed.

(** C34: the summary of a tensor.  Whatever the bytes, the type and the shape (of
    non-zero dimensions), it is computed without panicking.  When no value is
    finite it is the summary of nothing; otherwise the minimum and maximum are
    finite values of the tensor with none below or above, no magnitude exceeds
    the absolute maximum, the sparsity is the share of near-zeros among the
    finite values, the histogram has 64 bins and 65 edges and counts in each bin
    the finite values that fall in it, none lost, and the top entries are the
    ten (or all) finite values of greatest magnitude, greatest first, each under
    the index where it stands in the tensor. *)
Theorem compute_summary_correct (data : list byte) (dtype : DType) (shape : list Z)
    (Hroot : root_ok) (Hdrain : drain_ok) (Hlen : Z.of_nat (List.length data) <= U64_MAX) (Hshape : Forall (fun d => 0 < d) shape) :
  let values := decode_values f16_value bf16_value data dtype in
  exists stats top, compute_summary root drain f16_value bf16_value data dtype shape = Some (stats, top) /\
    if count is_finite values =? 0 then stats = empty_stats /\ top = []
    else
      let range := f64_sub (tst_max stats) (tst_min stats) in
      let h := tst_histogram stats in
      (tst_min stats ∈ finites values /\ forall x, x ∈ finites values -> f64_ltb x (tst_min stats) = false) /\
      (tst_max stats ∈ finites values /\ forall x, x ∈ finites values -> f64_ltb (tst_max stats) x = false) /\
      absolute (finites values) (tst_abs_max stats) /\
      tst_sparsity stats = f64_div (f64_of_Z (count sparse values)) (f64_of_Z (count is_finite values)) /\
      hist_bins h = 64 /\ hist_counts h = ((fun b => count (in_bin (tst_min stats) range b) values) <$> seqZ 0 64) /\
      foldr Z.add 0 (hist_counts h) = count is_finite values /\ List.length (hist_edges h) = 65%nat /\
      exists es out, selects (Z.to_nat (Z.min 10 (count is_finite values))) (candidates 0 values) es out /\
        StronglySorted no_smaller es /\ Forall2 (describes shape values) es top.
Proof.
  cbv zeta. set (values := decode_values f16_value bf16_value data dtype).
  pose proof (decode_length data dtype) as Hdl. fold values in Hdl.
  assert (Hv : Z.of_nat (List.length values) <= U64_MAX) by lia.
  pose proof (pass1_correct values Hv) as P. pose proof (pass1_finite values _ Hv P) as Ef. pose proof (count_bound is_finite values) as Hb.
  unfold compute_summary. fold values. destruct values as [|v0 vs] eqn:Evs; [exists empty_stats, []; done|]. rewrite <- Evs in *. clear v0 vs Evs.
  cbv zeta. rewrite Ef. destruct (Z.eqb_spec (count is_finite values) 0) as [E0|E0]; [by eexists _, _|].
  set (k := Z.to_nat (Z.min DEFAULT_TOP_K (count is_finite values))).
  destruct (pass2_correct values (p1_min (compute_pass1 values)) (p1_max (compute_pass1 values)) k Hroot Hdrain Hv) as (H1 & H2 & H3 & [out H4] & H5).
  set (p2 := compute_pass2 root drain values _ _ k) in *.
  destruct (describe_all shape values (p2_top_k p2) Hshape) as (ts & Hts & Hd).
  { intros e He. apply (elem_of_Permutation_proper e _ _ (se_perm _ _ _ _ H4)). apply elem_of_app. by left. }
  rewrite Hts. cbn [mbind option_bind]. eexists _, ts. split; [reflexivity|].
  cbn [tst_min tst_max tst_abs_max tst_sparsity tst_histogram hist_bins hist_counts hist_edges].
  pose proof (finites_nonempty values E0) as Hne. split_and!.
  - by apply (best_member _ _ _ _ Hne (po_min _ _ P)).
  - by apply (best_member _ _ _ _ Hne (po_min _ _ P)).
  - by apply (best_member _ _ _ _ Hne (po_max _ _ P)).
  - by apply (best_member _ _ _ _ Hne (po_max _ _ P)).
  - exact (po_abs _ _ P).
  - rewrite (proj2 (Z.ltb_lt 0 _)) by lia. by rewrite (po_sparse _ _ P).
  - done.
  - exact H1.
  - exact H2.
  - by rewrite H3, length_fmap, length_seqZ.
  - by exists (p2_top_k p2), out.
Qed.

End Heap.

(** ** A small tensor *)

Module Demo.

(** The first of the least entries. *)
Fixpoint root (heap : list TopKHeapEntry) : nat :=
  match heap with
  | [] => 0
  | e :: rest => match rest !! root rest with Some m => if magnitude_lt e m then 0 else S (root rest) | None => 0 end
  end.

Definition drain (heap : list TopKHeapEntry) : list TopKHeapEntry := heap.

Lemma root_least : root_ok root.
Proof.
  intros heap. induction heap as [|e rest IH]; [done|]. intros _. cbn [root].
  destruct rest as [|e2 rest2]; [exists e; split; [done|]; intros e' ->%list_elem_of_singleton; apply ltb_irrefl|].
  destruct IH as (m & Hm & Hl); [done|]. rewrite Hm. destruct (magnitude_lt e m) eqn:E.
  - exists e. split; [done|]. intros e' [->|He]%elem_of_cons; [apply ltb_irrefl|].
    apply not_true_iff_false. intros H. pose proof (ltb_trans _ _ _ H E) as H'. specialize (Hl e' He). unfold magnitude_lt in Hl. congruence.
  - exists m. split; [exact Hm|]. intros e' [->|He]%elem_of_cons; [exact E|by apply Hl].
Qed.

(** 1.0, -3.0, NaN, 2.0 as [f32] *)
Definition data : list byte := concat (to_le_bytes 4 <$> [0x3f800000; 0xc0400000; 0x7fc00000; 0x40000000]).
Definition no_half (bits : Z) : f64 := S754_nan.
Definition summary : option (TensorStats * list TopKEntry) := compute_summary root drain no_half no_half data DType_Float32 [2; 2].

End Demo.

Lemma compute_summary_correct_witness :
  exists stats top, Demo.summary = Some (stats, top) /\ foldr Z.add 0 (hist_counts (tst_histogram stats)) = 3 /\
    tk_index <$> top = [[0; 1]; [1; 1]; [0; 0]].
Proof.
  destruct (compute_summary_correct Demo.root Demo.drain Demo.no_half Demo.no_half Demo.data DType_Float32 [2; 2])
    as (stats & top & Hs & H).
  - apply Demo.root_least.
  - intros heap. reflexivity.
  - vm_compute. discriminate.
  - repeat constructor.
  - exists stats, top. split; [exact Hs|].
    assert (E : count is_finite (decode_values Demo.no_half Demo.no_half Demo.data DType_Float32) = 3) by (vm_compute; reflexivity).
    rewrite E in H. cbn in H. destruct H as (_ & _ & _ & _ & _ & _ & Hsum & _). split; [exact Hsum|].
    assert (Ht : (fun x : TensorStats * list TopKEntry => tk_index <$> x.2) <$> Demo.summary = Some [[0; 1]; [1; 1]; [0; 0]]) by (vm_compute; reflexivity).
    unfold Demo.summary in Ht. rewrite Hs in Ht. cbn in Ht. injection Ht as Ht. exact Ht.
Defined.

Lemma merge_pass1_correct_witness :
  let a := f64_of_Z <$> [3; 1] in let b := S754_nan :: (f64_of_Z <$> [-4]) in
  p1_nan_count (merge_pass1 (compute_pass1 a) (compute_pass1 b)) = 1 /\ same (p1_abs_max (merge_pass1 (compute_pass1 a) (compute_pass1 b))) (f64_of_Z 4).
Proof.
  destruct (merge_pass1_correct (f64_of_Z <$> [3; 1]) (S754_nan :: (f64_of_Z <$> [-4]))) as (_ & H2 & _ & _ & _ & _ & H7); [vm_compute; discriminate|].
  cbv zeta. rewrite H2. split; [vm_compute; reflexivity|].
  replace (f64_of_Z 4) with (p1_abs_max (compute_pass1 ((f64_of_Z <$> [3; 1]) ++ S754_nan :: (f64_of_Z <$> [-4])))) by (vm_compute; reflexivity). exact H7.
Defined.

(** A range that overflows puts both ends of it into the first bin. *)
Lemma wide_range_one_bin :
  let max := S754_finite false 9007199254740991 971 in let min := S754_finite true 9007199254740991 971 in
  bin_of min (f64_sub max min) max = 0 /\ bin_of min (f64_sub max min) min = 0.
Proof. vm_compute. done. Qed.

Lemma zero_dimension_panics flat shape : flat_index_to_multi flat (shape ++ [0]) = None.
Proof. unfold flat_index_to_multi. by rewrite reverse_app. Qed.
