(* ===== verification/Clock.v ===== *)
(** * Clock: RFC 3339 timestamps

    [now_rfc3339] of [crates/rocket-surgeon/src/session.rs] derives the civil
    date from the Unix time by integer arithmetic.  The specification counts
    days the obvious way (years of 365 or 366 days, a table of month lengths);
    the algorithm is checked against it on one whole 400-year cycle by
    evaluation and extended to every time by periodicity. *)

From Stdlib Require Import ZArith Lia Ascii String.
From stdpp Require Import base list strings.
From S2P Require Import Prelude.
Open Scope Z_scope.

Record DateTime := mkDateTime { dt_year : Z; dt_month : Z; dt_day : Z; dt_hour : Z; dt_min : Z; dt_sec : Z }.

(** Steps of the algorithm that depend on the day of the era only. *)
Definition civil_of_doe (doe : Z) : Z * Z * Z :=
  let yoe := (doe - doe / 1460 + doe / 36524 - doe / 146096) / 365 in
  let doy := doe - (365 * yoe + yoe / 4 - yoe / 100) in
  let mp := (5 * doy + 2) / 153 in
  let day := doy - (153 * mp + 2) / 5 + 1 in
  let month := if mp <? 10 then mp + 3 else mp - 9 in
  (yoe, month, day).

Definition civil (secs : Z) : DateTime :=
  let days := secs / 86400 in
  let rem := secs mod 86400 in
  let z := days + 719468 in
  let era := z / 146097 in
  let doe := z - era * 146097 in
  let '(yoe, month, day) := civil_of_doe doe in
  let year := yoe + era * 400 + (if month <=? 2 then 1 else 0) in
  mkDateTime year month day (rem / 3600) (rem mod 3600 / 60) (rem mod 60).

Definition now_rfc3339 (secs : Z) : string :=
  let d := civil secs in
  (zero_pad 4 (dt_year d) +:+ "-" +:+ zero_pad 2 (dt_month d) +:+ "-" +:+ zero_pad 2 (dt_day d) +:+ "T" +:+
   zero_pad 2 (dt_hour d) +:+ ":" +:+ zero_pad 2 (dt_min d) +:+ ":" +:+ zero_pad 2 (dt_sec d) +:+ "Z")%string.

(** ** The calendar *)

Definition is_leap (y : Z) : bool :=
  (y mod 4 =? 0) && (negb (y mod 100 =? 0) || (y mod 400 =? 0)).

Definition days_in_month (y m : Z) : Z :=
  if m =? 2 then (if is_leap y then 29 else 28)
  else if (m =? 4) || (m =? 6) || (m =? 9) || (m =? 11) then 30 else 31.

(** Days before month [m] in year [y]. *)
Definition days_before_month (y m : Z) : Z :=
  foldr Z.add 0 (days_in_month y <$> seqZ 1 (m - 1)).

(** Days before year [y], counted from year 1 ([y >= 1]). *)
Definition days_before_year (y : Z) : Z := 365 * (y - 1) + (y - 1) / 4 - (y - 1) / 100 + (y - 1) / 400.

(** Day number of a date; 1970-01-01 is day 0. *)
Definition day_number (y m d : Z) : Z := days_before_year y + days_before_month y m + (d - 1) - 719162.

Lemma days_before_year_succ y : days_before_year (y + 1) = days_before_year y + (if is_leap y then 366 else 365).
Proof.
  unfold days_before_year, is_leap. replace (y + 1 - 1) with y by lia.
  pose proof (Z.div_mod y 4 ltac:(lia)). pose proof (Z.mod_pos_bound y 4 ltac:(lia)).
  pose proof (Z.div_mod y 100 ltac:(lia)). pose proof (Z.mod_pos_bound y 100 ltac:(lia)).
  pose proof (Z.div_mod y 400 ltac:(lia)). pose proof (Z.mod_pos_bound y 400 ltac:(lia)).
  pose proof (Z.div_mod (y - 1) 4 ltac:(lia)). pose proof (Z.mod_pos_bound (y - 1) 4 ltac:(lia)).
  pose proof (Z.div_mod (y - 1) 100 ltac:(lia)). pose proof (Z.mod_pos_bound (y - 1) 100 ltac:(lia)).
  pose proof (Z.div_mod (y - 1) 400 ltac:(lia)). pose proof (Z.mod_pos_bound (y - 1) 400 ltac:(lia)).
  destruct (Z.eqb_spec (y mod 4) 0), (Z.eqb_spec (y mod 100) 0), (Z.eqb_spec (y mod 400) 0); cbn [negb orb andb]; lia.
Qed.

(** ** One era, checked by evaluation *)

(** The month sums as a table, for fast evaluation. *)
Definition month_table (leap : bool) (m : Z) : Z :=
  (if leap && (3 <=? m) then 1 else 0) +
  match m with
  | 1 => 0 | 2 => 31 | 3 => 59 | 4 => 90 | 5 => 120 | 6 => 151
  | 7 => 181 | 8 => 212 | 9 => 243 | 10 => 273 | 11 => 304 | 12 => 334 | _ => 0
  end.

Lemma month_table_ok y m : 1 <= m <= 12 -> days_before_month y m = month_table (is_leap y) m.
Proof.
  intros Hm. unfold days_before_month, days_in_month. destruct (is_leap y);
    assert (m = 1 \/ m = 2 \/ m = 3 \/ m = 4 \/ m = 5 \/ m = 6 \/ m = 7 \/ m = 8 \/ m = 9 \/ m = 10 \/ m = 11 \/ m = 12) as H by lia;
    by repeat (destruct H as [->|H]; [reflexivity|]); subst.
Qed.

(** [f] holds on the [n] integers from [k]. *)
Fixpoint all_from (f : Z -> bool) (n : nat) (k : Z) : bool :=
  match n with O => true | S n => f k && all_from f n (k + 1) end.

Lemma all_from_spec f n : forall k x, all_from f n k = true -> k <= x < k + Z.of_nat n -> f x = true.
Proof.
  induction n as [|n IH]; intros k x H Hx; [lia|]. cbn [all_from] in H. apply andb_true_iff in H as [Hk H].
  destruct (Z.eq_dec x k) as [->|]; [done|]. apply (IH (k + 1)); [done|lia].
Qed.

(** Years of an era start in March; [year_start y] is the day of the era on
    which year [y] starts. *)
Definition year_start (y : Z) : Z := 365 * y + y / 4 - y / 100.
Definition year_end (y : Z) : Z := if y =? 399 then 146097 else year_start (y + 1).
Definition scaled (doe : Z) : Z := doe - doe / 1460 + doe / 36524 - doe / 146096.

Definition year_ok (y : Z) : bool :=
  (scaled (year_start y) / 365 =? y) && (scaled (year_end y - 1) / 365 =? y) &&
  (year_end y - year_start y =? if is_leap (y + 401) then 366 else 365) &&
  (days_before_year (y + 401) =? year_start y + 146097).

Lemma years_ok : all_from year_ok 400 0 = true.
Proof. vm_compute. reflexivity. Qed.

(** Month and day from the day of the (March) year. *)
Definition month_day (doy : Z) : Z * Z :=
  let mp := (5 * doy + 2) / 153 in
  (if mp <? 10 then mp + 3 else mp - 9, doy - (153 * mp + 2) / 5 + 1).

Definition doy_ok (doy : Z) : bool :=
  let (m, d) := month_day doy in
  (1 <=? m) && (m <=? 12) && (1 <=? d) &&
  (if m <=? 2 then (doy =? 306 + month_table false m + d - 1) &&
                   (d <=? (if m =? 2 then (if doy =? 365 then 29 else 28) else 31))
   else (doy =? month_table false m - 59 + d - 1) && (d <=? days_in_month 1 m)).

Lemma doys_ok : all_from doy_ok 366 0 = true.
Proof. vm_compute. reflexivity. Qed.

Lemma scaled_mono a b : 0 <= a -> a <= b -> b < 146097 -> scaled a <= scaled b.
Proof.
  intros. unfold scaled.
  pose proof (Z.div_mod a 1460 ltac:(lia)). pose proof (Z.mod_pos_bound a 1460 ltac:(lia)).
  pose proof (Z.div_mod b 1460 ltac:(lia)). pose proof (Z.mod_pos_bound b 1460 ltac:(lia)).
  pose proof (Z.div_mod a 36524 ltac:(lia)). pose proof (Z.mod_pos_bound a 36524 ltac:(lia)).
  pose proof (Z.div_mod b 36524 ltac:(lia)). pose proof (Z.mod_pos_bound b 36524 ltac:(lia)).
  pose proof (Z.div_mod a 146096 ltac:(lia)). pose proof (Z.mod_pos_bound a 146096 ltac:(lia)).
  pose proof (Z.div_mod b 146096 ltac:(lia)). pose proof (Z.mod_pos_bound b 146096 ltac:(lia)).
  destruct (Z.eq_dec b 146096), (Z.eq_dec a 146096); lia.
Qed.

Lemma year_facts y : 0 <= y < 400 ->
  scaled (year_start y) / 365 = y /\ scaled (year_end y - 1) / 365 = y /\
  year_end y - year_start y = (if is_leap (y + 401) then 366 else 365) /\
  days_before_year (y + 401) = year_start y + 146097.
Proof.
  intros Hy. pose proof (all_from_spec _ _ _ y years_ok ltac:(lia)) as H. unfold year_ok in H.
  rewrite !andb_true_iff in H. destruct H as [[[H1 H2] H3] H4]. split_and!; lia.
Qed.

(** The year computed by division is the one whose days contain [doe]. *)
Lemma year_of_doe doe : 0 <= doe < 146097 ->
  0 <= scaled doe / 365 < 400 /\ year_start (scaled doe / 365) <= doe < year_end (scaled doe / 365).
Proof.
  intros Hd. set (y := scaled doe / 365).
  assert (0 <= y < 400) as Hy.
  { assert (scaled 0 <= scaled doe <= scaled 146096) as Hs by (split; apply scaled_mono; lia).
    change (scaled 0) with 0 in Hs. change (scaled 146096) with 145999 in Hs. unfold y.
    split; [apply Z.div_pos; lia|apply Z.div_lt_upper_bound; lia]. }
  split; [done|]. split.
  - destruct (Z.le_gt_cases (year_start y) doe) as [|Hlt]; [done|exfalso].
    assert (y <> 0) by (intros E; rewrite E in Hlt; change (year_start 0) with 0 in Hlt; lia).
    destruct (year_facts (y - 1) ltac:(lia)) as (_ & He & _ & _).
    assert (year_end (y - 1) = year_start y) as E.
    { unfold year_end. rewrite (proj2 (Z.eqb_neq _ 399)) by lia. f_equal. lia. }
    pose proof (scaled_mono doe (year_end (y - 1) - 1) ltac:(lia) ltac:(lia)) as Hs.
    assert (year_start y <= 146097) as Hb by (unfold year_start; pose proof (Z.div_mod y 4); pose proof (Z.mod_pos_bound y 4); pose proof (Z.div_mod y 100); pose proof (Z.mod_pos_bound y 100); lia).
    pose proof (Z.div_le_mono _ _ 365 ltac:(lia) (Hs ltac:(lia))) as Hq. fold y in Hq. lia.
  - destruct (Z.lt_ge_cases doe (year_end y)) as [|Hge]; [done|exfalso].
    destruct (Z.eq_dec y 399) as [E|E]; [unfold year_end in Hge; rewrite E in Hge; cbn in Hge; lia|].
    assert (year_end y = year_start (y + 1)) as E' by (unfold year_end; by rewrite (proj2 (Z.eqb_neq _ 399)) by lia).
    destruct (year_facts (y + 1) ltac:(lia)) as (Hs & _). rewrite E' in Hge.
    assert (0 <= year_start (y + 1)) as Hb by (unfold year_start; pose proof (Z.div_mod (y + 1) 4); pose proof (Z.mod_pos_bound (y + 1) 4); pose proof (Z.div_mod (y + 1) 100); pose proof (Z.mod_pos_bound (y + 1) 100); lia).
    pose proof (Z.div_le_mono _ _ 365 ltac:(lia) (scaled_mono _ doe Hb Hge ltac:(lia))) as Hq. fold y in Hq. lia.
Qed.

Lemma days_in_month_not_feb y m : 3 <= m -> days_in_month y m = days_in_month 1 m.
Proof. intros H. unfold days_in_month. by rewrite !(proj2 (Z.eqb_neq m 2)) by lia. Qed.

(** One era: the date is real and has the right number. *)
Lemma civil_of_doe_correct doe : 0 <= doe < 146097 ->
  let '(yoe, month, day) := civil_of_doe doe in
  let y := yoe + 400 + (if month <=? 2 then 1 else 0) in
  1 <= month <= 12 /\ 1 <= day <= days_in_month y month /\ day_number y month day = doe + 146097 - 719468.
Proof.
  intros Hd. destruct (year_of_doe doe Hd) as [Hy Hrange]. unfold civil_of_doe. fold (scaled doe).
  set (yoe := scaled doe / 365) in *. fold (year_start yoe). set (doy := doe - year_start yoe).
  destruct (year_facts yoe Hy) as (_ & _ & Hlen & Hdby).
  pose proof (days_before_year_succ (yoe + 400)) as Hsucc. replace (yoe + 400 + 1) with (yoe + 401) in * by lia.
  assert (0 <= doy < 366) as Hdoy by (destruct (is_leap (yoe + 401)); lia).
  pose proof (all_from_spec _ _ _ doy doys_ok ltac:(lia)) as Hm. unfold doy_ok, month_day in Hm.
  set (month := if (5 * doy + 2) / 153 <? 10 then _ else _) in *. set (day := doy - _ + 1) in *.
  rewrite !andb_true_iff in Hm. destruct Hm as [[[M1 M2] D1] Hm]. split; [lia|]. unfold day_number. rewrite month_table_ok by lia.
  unfold month_table in *. destruct (Z.leb_spec month 2) as [Hfeb|Hmar].
  - apply andb_true_iff in Hm as [Hm1 Hm2]. replace (yoe + 400 + 1) with (yoe + 401) by lia.
    assert ((3 <=? month) = false) as E3 by lia. rewrite E3, andb_false_r in *. cbn [andb] in Hm1.
    split; [|lia]. split; [lia|]. unfold days_in_month. destruct (Z.eqb_spec month 2) as [E2|E2].
    + destruct (Z.eqb_spec doy 365); destruct (is_leap (yoe + 401)); lia.
    + assert (month = 1) as -> by lia. cbn. lia.
  - apply andb_true_iff in Hm as [Hm1 Hm2]. rewrite Z.add_0_r. rewrite (days_in_month_not_feb _ month) by lia.
    assert ((3 <=? month) = true) as E3 by lia. rewrite E3, andb_true_r in *. cbn [andb] in Hm1.
    split; [lia|]. destruct (is_leap (yoe + 400)); lia.
Qed.

Lemma days_in_month_era y k m : days_in_month (y + 400 * k) m = days_in_month y m.
Proof.
  unfold days_in_month, is_leap.
  replace ((y + 400 * k) mod 4) with (y mod 4) by (replace (y + 400 * k) with (y + (100 * k) * 4) by lia; by rewrite Z_mod_plus_full).
  replace ((y + 400 * k) mod 100) with (y mod 100) by (replace (y + 400 * k) with (y + (4 * k) * 100) by lia; by rewrite Z_mod_plus_full).
  replace ((y + 400 * k) mod 400) with (y mod 400) by (replace (y + 400 * k) with (y + k * 400) by lia; by rewrite Z_mod_plus_full).
  done.
Qed.

(** The calendar repeats every 400 years, which are 146097 days. *)
Lemma day_number_era y k m d : day_number (y + 400 * k) m d = day_number y m d + 146097 * k.
Proof.
  unfold day_number.
  assert (days_before_month (y + 400 * k) m = days_before_month y m) as ->.
  { unfold days_before_month. f_equal. apply list_fmap_ext. intros i x _. apply days_in_month_era. }
  unfold days_before_year.
  replace (y + 400 * k - 1) with ((y - 1) + (100 * k) * 4) by lia. rewrite Z_div_plus_full by lia.
  replace ((y - 1) + (100 * k) * 4) with ((y - 1) + (4 * k) * 100) by lia. rewrite Z_div_plus_full by lia.
  replace ((y - 1) + (4 * k) * 100) with ((y - 1) + k * 400) by lia. rewrite Z_div_plus_full by lia. lia.
Qed.

(** For every Unix time the timestamp names the right instant: the
    date is a real calendar date (month 1..12, day within that month of that
    year, leap years included), its day number is the number of whole days
    since 1970-01-01, and the time of day is the remaining seconds. *)
Theorem civil_correct (secs : Z) :
  0 <= secs ->
  let d := civil secs in
  1 <= dt_month d <= 12 /\ 1 <= dt_day d <= days_in_month (dt_year d) (dt_month d) /\
  0 <= dt_hour d < 24 /\ 0 <= dt_min d < 60 /\ 0 <= dt_sec d < 60 /\
  day_number (dt_year d) (dt_month d) (dt_day d) = secs / 86400 /\
  dt_hour d * 3600 + dt_min d * 60 + dt_sec d = secs mod 86400.
Proof.
  intros Hs. cbn zeta. unfold civil. set (z := secs / 86400 + 719468). set (era := z / 146097).
  pose proof (Z.div_mod z 146097 ltac:(lia)) as Hz. pose proof (Z.mod_pos_bound z 146097 ltac:(lia)) as Hm. fold era in Hz.
  set (doe := z - era * 146097).
  pose proof (civil_of_doe_correct doe ltac:(lia)) as He.
  destruct (civil_of_doe doe) as [[yoe month] day]. cbn [dt_year dt_month dt_day dt_hour dt_min dt_sec].
  set (j := if month <=? 2 then 1 else 0) in *. cbn zeta in He. destruct He as (H1 & H2 & H3).
  replace (yoe + era * 400 + j) with (yoe + 400 + j + 400 * (era - 1)) by lia.
  rewrite days_in_month_era, day_number_era. set (r := secs mod 86400).
  pose proof (Z.mod_pos_bound secs 86400 ltac:(lia)) as Hr. fold r in Hr.
  pose proof (Z.div_mod r 3600 ltac:(lia)). pose proof (Z.mod_pos_bound r 3600 ltac:(lia)).
  pose proof (Z.div_mod (r mod 3600) 60 ltac:(lia)). pose proof (Z.mod_pos_bound (r mod 3600) 60 ltac:(lia)).
  assert (r mod 60 = (r mod 3600) mod 60) as E60.
  { replace r with (r mod 3600 + (60 * (r / 3600)) * 60) at 1 by lia. apply Z_mod_plus_full. }
  rewrite E60. split_and!; lia.
Qed.

Lemma civil_correct_witness : civil 951827696 = mkDateTime 2000 2 29 12 34 56 /\ 1 <= dt_month (civil 951827696) <= 12.
Proof. split; [reflexivity|]. apply (civil_correct 951827696). lia. Defined.

Example rfc3339_leap_day : now_rfc3339 951827696 = "2000-02-29T12:34:56Z"%string.
Proof. vm_compute. reflexivity. Qed.
