(* ===== verification/Json.v ===== *)
(** * Json: the serde interface and error construction

    [serde] and [serde_json] are third-party crates: what the daemon uses of
    them is the class [SerdeJson] (building and reading [Value]s) and one
    [Serialize] instance per response type, as in Rust.  Serializing the
    derived types of the protocol crate cannot fail, so [to_value] is total.
    Error values are built by [recovery_hint_for] and [error_with_hint] of
    [crates/rocket-surgeon/src/dispatch.rs]. *)

From Stdlib Require Import ZArith Lia Ascii String.
From stdpp Require Import base list strings.
From S2P Require Import Prelude Protocol.
Open Scope Z_scope.

Class SerdeJson := {
  serde_value :: JsonValue;
  json_null : Value;
  json_bool : bool -> Value;
  json_u64 : Z -> Value;
  json_f64 : f64 -> Value;
  json_string : string -> Value;
  json_array : list Value -> Value;
  json_object : list (string * Value) -> Value;
  (** [Value::get] with a string key, [Value::as_str] *)
  value_get : Value -> string -> option Value;
  value_as_str : Value -> option string;
  (** [Value::as_u64]; [as_object_mut] and [Map::insert], when it is an object *)
  value_as_u64 : Value -> option Z;
  value_insert : Value -> string -> Value -> option Value
}.

(** [v[key]]: [Null] when there is no such member. *)
Definition value_index `{SerdeJson} (v : Value) (key : string) : Value := default json_null (value_get v key).

Class Serialize `{SerdeJson} (T : Type) := to_value : T -> Value.

(** ** Errors with hints *)

Definition recovery_hint_for (code : ErrorCode) : string :=
  match code with
  | ErrorCode_InvalidState =>
      "Check `state.status` and `valid_states`, then issue an action allowed from the current state."
  | ErrorCode_InvalidTarget =>
      "Pick a target from `context.nearest_matches` or `context.valid_components_at_layer`."
  | ErrorCode_InvalidRecipe =>
      "Fix the recipe params and resubmit the intervention."
  | ErrorCode_ModelNotAttached | ErrorCode_BackendAttachFailed =>
      "Call `rocket/attach` with a valid model before retrying."
  | ErrorCode_ModelAlreadyAttached =>
      "Call `rocket/detach` first, then attach the new model."
  | ErrorCode_TensorNotFound =>
      "Run `rocket/step` to advance the forward pass so the tensor is captured, then retry."
  | ErrorCode_CheckpointNotFound =>
      "List checkpoints with `rocket/checkpoint action=list` and use an id that exists."
  | ErrorCode_ProbeNotFound =>
      "List probes with `rocket/probe action=list` and use a known id."
  | ErrorCode_CapabilityNotSupported =>
      "Check `initialize` capabilities; this build does not support the requested feature."
  | ErrorCode_SliceOutOfBounds =>
      "Inspect with `detail=summary` to read the tensor shape, then request an in-bounds slice."
  | ErrorCode_ResponseTooLarge =>
      "Narrow the target or request a slice instead of the full tensor."
  | ErrorCode_HostError =>
      "Inspect the daemon logs; the host worker hit an unrecoverable fault."
  | ErrorCode_GpuOom =>
      "Free GPU memory or attach a smaller model, then retry."
  | ErrorCode_NcclTimeout =>
      "Check inter-rank connectivity; restart the session if ranks are unreachable."
  | ErrorCode_ReplayDivergence =>
      "Re-capture from a fresh checkpoint; the replay diverged from the recorded run."
  | ErrorCode_UnsupportedModel =>
      "Attach a model from a supported family (see `suggestion`)."
  | ErrorCode_CompiledModel =>
      "Remove the torch.compile() wrapper and re-export the model in eager mode."
  | ErrorCode_InvalidParams =>
      "Fix the request params to match the method schema and retry."
  | ErrorCode_DuplicateProbeId =>
      "Choose a unique probe id, or remove the existing probe first."
  | ErrorCode_InvalidPoint =>
      "Fix the probe point grammar (family:rank:layer:component:slot:event)."
  | ErrorCode_ViewDataUnavailable =>
      "Step the forward pass so view data is computed, then retry the view."
  | ErrorCode_BranchNotFound =>
      "List branches and target one that exists."
  | ErrorCode_BranchMergeRefused =>
      "Resolve the divergence before merging, or merge into a compatible branch."
  | ErrorCode_VramExhausted =>
      "Drop branches or checkpoints to reclaim VRAM (see `context.recommendation`)."
  | ErrorCode_CrossRequestKv =>
      "Scope KV access to the originating request; cross-request KV reads are not allowed."
  | ErrorCode_KvEvicted =>
      "Re-run the prefill; the KV-cache entry was evicted."
  end.

Section Errors.
Context {S : SerdeJson}.

Definition error_with_hint (code : ErrorCode) (suggestion : string) : ErrorData :=
  mkErrorData code (Some (numeric_code code)) None None suggestion (severity code)
    (Some (recovery_hint_for code)) None.

End Errors.

(** ** A concrete instance

    A first-order value type, enough to evaluate the definitions. *)
Inductive JValue :=
| JNull | JBool (b : bool) | JNum (n : Z) | JFloat (x : f64) | JStr (s : string)
| JArr (l : list JValue) | JObj (l : list (string * JValue)).

Definition json_ref : SerdeJson := {|
  serde_value := {| Value := JValue; value_is_null := fun v => match v with JNull => true | _ => false end |};
  json_null := JNull;
  json_bool := JBool;
  json_u64 := JNum;
  json_f64 := JFloat;
  json_string := JStr;
  json_array := JArr;
  json_object := JObj;
  value_get := fun v k => match v with
                          | JObj l => option_map snd (List.find (fun kv => bool_decide (kv.1 = k)) l)
                          | _ => None
                          end;
  value_as_str := fun v => match v with JStr s => Some s | _ => None end;
  value_as_u64 := fun v => match v with JNum n => if 0 <=? n then Some n else None | _ => None end;
  value_insert := fun v k x => match v with
                               | JObj l => Some (JObj ((k, x) :: List.filter (fun kv => negb (bool_decide (kv.1 = k))) l))
                               | _ => None
                               end
|}.
