(* ===== verification/Session.v ===== *)
(** * Session: the daemon's session state machine

    [crates/rocket-surgeon/src/session.rs].  The record [Session] is the Rust
    struct (less the start instant, which only [status] reads, as its elapsed
    seconds argument).  Fresh uuids and the wall clock are arguments of the
    operations that draw them.  Every operation returns its answer and the
    session afterwards. *)

From Stdlib Require Import ZArith Lia Ascii String SpecFloat Sorted.
From stdpp Require Import base gmap strings list fin_maps sorting sets.
From S2P Require Import Prelude Framing Protocol Messages Json Clock.
Open Scope Z_scope.

Definition SUPPORTED_FAMILIES : list string := ["llama"; "mixtral"; "gpt-neox"; "gpt2"]%string.
Definition PROTOCOL_VERSION : string := "0.3.0".

(** ** Discovery *)

Record ProbePointEntry := mkProbePointEntry {
  pp_family : string;
  pp_layer : Z;
  pp_canonical : string;
  pp_event : string;
  pp_tensor_shape : list Z;
  pp_aliases : list string
}.

Inductive PatternSeg := Wild | Lit (s : string).

Definition PatternSeg_parse (raw : string) : PatternSeg := if decide (raw = "*"%string) then Wild else Lit raw.

Definition PatternSeg_matches (p : PatternSeg) (target : string) : bool :=
  match p with Wild => true | Lit lit => bool_decide (lit = target) end.

Record DiscoverPattern := mkDiscoverPattern {
  dp_family : PatternSeg;
  dp_layer : PatternSeg;
  dp_component : PatternSeg;
  dp_event : PatternSeg
}.

(** [pattern.split(':')] *)
Definition pattern_segments (pattern : string) : list string := text <$> split_on ":"%char (chars pattern).

Definition DiscoverPattern_parse (pattern : string) : option DiscoverPattern :=
  match pattern_segments pattern with
  | [s0; s1; s2; s3; s4] =>
      if existsb (fun s => bool_decide (s = ""%string)) [s0; s1; s2; s3; s4] then None
      else Some (mkDiscoverPattern (PatternSeg_parse s0) (PatternSeg_parse s2) (PatternSeg_parse s3) (PatternSeg_parse s4))
  | _ => None
  end.

Definition DiscoverPattern_matches (p : DiscoverPattern) (e : ProbePointEntry) : bool :=
  PatternSeg_matches (dp_family p) (pp_family e) &&
  PatternSeg_matches (dp_layer p) (to_string (pp_layer e)) &&
  PatternSeg_matches (dp_component p) (pp_canonical e) &&
  PatternSeg_matches (dp_event p) (pp_event e).

Definition catalog_components (hidden heads : Z) : list (string * string * list Z * string) :=
  [("attn.q_proj", "output", [1; hidden], "attn.hook_q");
   ("attn.k_proj", "output", [1; hidden], "attn.hook_k");
   ("attn.v_proj", "output", [1; hidden], "attn.hook_v");
   ("attn.o_proj", "output", [1; hidden], "attn.hook_z");
   ("attn.scores", "output", [1; heads; 1; 1], "attn.hook_pattern");
   ("mlp", "output", [1; hidden], "hook_mlp_out");
   ("residual_post", "output", [1; hidden], "hook_resid_post")]%string.

Definition default_catalog (family : string) (num_layers num_heads hidden_dim : Z) : list ProbePointEntry :=
  (layer ← seqZ 0 num_layers;
   (fun '(canonical, event, shape, alias_suffix) =>
      mkProbePointEntry family layer canonical event shape
        [("blocks." +:+ to_string layer +:+ "." +:+ alias_suffix)%string])
   <$> catalog_components hidden_dim num_heads) ++
  [mkProbePointEntry family 0 "lm_head" "output" [1; hidden_dim] ["lm_head"%string]].

(** ** Session errors *)

Section WithJson.
Context {J : SerdeJson}.

Inductive SessionError :=
| InvalidState (d : ErrorData)
| ModelAlreadyAttached (d : ErrorData)
| ModelNotAttached (d : ErrorData)
| UnsupportedModel (d : ErrorData)
| CompiledModel (d : ErrorData)
| CapabilityNotSupported (d : ErrorData)
| InvalidParams (d : ErrorData)
| CheckpointNotFound (d : ErrorData).

Definition error_data (e : SessionError) : ErrorData :=
  match e with
  | InvalidState d | ModelAlreadyAttached d | ModelNotAttached d | UnsupportedModel d
  | CompiledModel d | CapabilityNotSupported d | InvalidParams d | CheckpointNotFound d => d
  end.

(** ** The session *)

Record Session := mkSession {
  s_state : SessionState;
  s_detached_model_id : option string;
  s_catalog : list ProbePointEntry;
  s_defined_views : gmap string Value;
  s_event_filter : option SubscribeFilter;
  s_checkpoint_positions : gmap string TickPosition;
  s_interventions : list InterventionRecipe;
  s_auto_checkpoint_layers : list Z;
  s_arena_utilization : f64
}.

Definition set_session_id (v : string) (r : SessionState) : SessionState :=
  mkSessionState v (ss_model_id r) (ss_status r) (ss_position r) (ss_tick_id r) (ss_active_probes r) (ss_checkpoints r) (ss_available_actions r) (ss_worldline r).
Definition set_model_id (v : option string) (r : SessionState) : SessionState :=
  mkSessionState (ss_session_id r) v (ss_status r) (ss_position r) (ss_tick_id r) (ss_active_probes r) (ss_checkpoints r) (ss_available_actions r) (ss_worldline r).
Definition set_status (v : Status) (r : SessionState) : SessionState :=
  mkSessionState (ss_session_id r) (ss_model_id r) v (ss_position r) (ss_tick_id r) (ss_active_probes r) (ss_checkpoints r) (ss_available_actions r) (ss_worldline r).
Definition set_position (v : option TickPosition) (r : SessionState) : SessionState :=
  mkSessionState (ss_session_id r) (ss_model_id r) (ss_status r) v (ss_tick_id r) (ss_active_probes r) (ss_checkpoints r) (ss_available_actions r) (ss_worldline r).
Definition set_tick_id (v : option Z) (r : SessionState) : SessionState :=
  mkSessionState (ss_session_id r) (ss_model_id r) (ss_status r) (ss_position r) v (ss_active_probes r) (ss_checkpoints r) (ss_available_actions r) (ss_worldline r).
Definition set_active_probes (v : list string) (r : SessionState) : SessionState :=
  mkSessionState (ss_session_id r) (ss_model_id r) (ss_status r) (ss_position r) (ss_tick_id r) v (ss_checkpoints r) (ss_available_actions r) (ss_worldline r).
Definition set_checkpoints (v : list CheckpointRef) (r : SessionState) : SessionState :=
  mkSessionState (ss_session_id r) (ss_model_id r) (ss_status r) (ss_position r) (ss_tick_id r) (ss_active_probes r) v (ss_available_actions r) (ss_worldline r).
Definition set_available_actions (v : list ActionName) (r : SessionState) : SessionState :=
  mkSessionState (ss_session_id r) (ss_model_id r) (ss_status r) (ss_position r) (ss_tick_id r) (ss_active_probes r) (ss_checkpoints r) v (ss_worldline r).
Definition set_worldline (v : WorldlineState) (r : SessionState) : SessionState :=
  mkSessionState (ss_session_id r) (ss_model_id r) (ss_status r) (ss_position r) (ss_tick_id r) (ss_active_probes r) (ss_checkpoints r) (ss_available_actions r) v.
Definition set_state (v : SessionState) (r : Session) : Session :=
  mkSession v (s_detached_model_id r) (s_catalog r) (s_defined_views r) (s_event_filter r) (s_checkpoint_positions r) (s_interventions r) (s_auto_checkpoint_layers r) (s_arena_utilization r).
Definition set_detached_model_id (v : option string) (r : Session) : Session :=
  mkSession (s_state r) v (s_catalog r) (s_defined_views r) (s_event_filter r) (s_checkpoint_positions r) (s_interventions r) (s_auto_checkpoint_layers r) (s_arena_utilization r).
Definition set_catalog (v : list ProbePointEntry) (r : Session) : Session :=
  mkSession (s_state r) (s_detached_model_id r) v (s_defined_views r) (s_event_filter r) (s_checkpoint_positions r) (s_interventions r) (s_auto_checkpoint_layers r) (s_arena_utilization r).
Definition set_defined_views (v : gmap string Value) (r : Session) : Session :=
  mkSession (s_state r) (s_detached_model_id r) (s_catalog r) v (s_event_filter r) (s_checkpoint_positions r) (s_interventions r) (s_auto_checkpoint_layers r) (s_arena_utilization r).
Definition set_event_filter (v : option SubscribeFilter) (r : Session) : Session :=
  mkSession (s_state r) (s_detached_model_id r) (s_catalog r) (s_defined_views r) v (s_checkpoint_positions r) (s_interventions r) (s_auto_checkpoint_layers r) (s_arena_utilization r).
Definition set_checkpoint_positions (v : gmap string TickPosition) (r : Session) : Session :=
  mkSession (s_state r) (s_detached_model_id r) (s_catalog r) (s_defined_views r) (s_event_filter r) v (s_interventions r) (s_auto_checkpoint_layers r) (s_arena_utilization r).
Definition set_interventions (v : list InterventionRecipe) (r : Session) : Session :=
  mkSession (s_state r) (s_detached_model_id r) (s_catalog r) (s_defined_views r) (s_event_filter r) (s_checkpoint_positions r) v (s_auto_checkpoint_layers r) (s_arena_utilization r).
Definition set_auto_checkpoint_layers (v : list Z) (r : Session) : Session :=
  mkSession (s_state r) (s_detached_model_id r) (s_catalog r) (s_defined_views r) (s_event_filter r) (s_checkpoint_positions r) (s_interventions r) v (s_arena_utilization r).
Definition set_arena_utilization (v : f64) (r : Session) : Session :=
  mkSession (s_state r) (s_detached_model_id r) (s_catalog r) (s_defined_views r) (s_event_filter r) (s_checkpoint_positions r) (s_interventions r) (s_auto_checkpoint_layers r) v.

Definition new : Session :=
  mkSession (mkSessionState "" None Status_Uninitialized None None [] [] [] WorldlineState_default)
    None [] ∅ None ∅ [] [] (S754_zero false).

Definition status (s : Session) : Status := ss_status (s_state s).

Definition envelope {T} (s : Session) (data : T) : ResponseEnvelope T := mkResponseEnvelope T (s_state s) (Some data).

Definition envelope_with_mode {T} `{!Serialize T, !Serialize (ResponseEnvelope T), !Serialize PositionEnvelope}
    (s : Session) (mode : EnvelopeMode) (data : T) : Value :=
  match mode with
  | EnvelopeMode_Full => to_value (envelope s data)
  | EnvelopeMode_Position =>
      json_object [("state"%string, to_value (mkPositionEnvelope (status s) (ss_position (s_state s))));
                   ("data"%string, to_value data)]
  | EnvelopeMode_None => to_value data
  end.

Definition actions_for (st : Status) : list ActionName :=
  match st with
  | Status_Initialized => [ActionName_Attach]
  | Status_Stopped =>
      [ActionName_Step; ActionName_Inspect; ActionName_Intervene; ActionName_Probe; ActionName_Checkpoint;
       ActionName_Replay; ActionName_Detach; ActionName_Status; ActionName_Subscribe]
  | _ => []
  end.

Definition update_available_actions (s : Session) : Session :=
  set_state (set_available_actions (actions_for (status s)) (s_state s)) s.

(** [{:?}] of a status *)
Definition status_debug (st : Status) : string :=
  match st with
  | Status_Uninitialized => "Uninitialized"
  | Status_Initialized => "Initialized"
  | Status_Attaching => "Attaching"
  | Status_Stopped => "Stopped"
  | Status_Stepping => "Stepping"
  | Status_Inspecting => "Inspecting"
  | Status_Modifying => "Modifying"
  | Status_Replaying => "Replaying"
  | Status_Detaching => "Detaching"
  end.

Definition string_join (sep : string) (l : list string) : string := String.concat sep l.

Definition error_in (s : Session) (code : ErrorCode) (suggestion : string) (valid : option (list Status))
    (hint : string) (context : option Value) : ErrorData :=
  mkErrorData code (Some (numeric_code code)) (Some (status s)) valid suggestion Severity_Recoverable (Some hint) context.

Definition invalid_state_error (s : Session) (method : string) (valid_states : list Status) : SessionError :=
  let suggestion :=
    match valid_states with
    | [v] => "The session must be in " +:+ status_debug v +:+ " state to call " +:+ method
    | _ => "The session must be in one of [" +:+ string_join ", " (status_debug <$> valid_states) +:+ "] to call " +:+ method
    end in
  InvalidState (error_in s ErrorCode_InvalidState suggestion (Some valid_states)
    (recovery_hint_for ErrorCode_InvalidState) None).

Definition initialize (uuid : string) (req : InitializeRequest) (s : Session)
  : result SessionError (ResponseEnvelope InitializeResponse) * Session :=
  if negb (bool_decide (status s = Status_Uninitialized))
  then (Err (invalid_state_error s "initialize" [Status_Uninitialized]), s)
  else if negb (bool_decide (InitializeRequest_protocol_version req = PROTOCOL_VERSION))
  then (Err (InvalidParams (error_in s ErrorCode_InvalidParams
         ("Unsupported protocol version '" +:+ InitializeRequest_protocol_version req +:+
          "', server supports '" +:+ PROTOCOL_VERSION +:+ "'") None
         ("Reconnect with protocol_version '" +:+ PROTOCOL_VERSION +:+ "'.")
         (Some (json_object [("requested_version"%string, json_string (InitializeRequest_protocol_version req));
                             ("supported_version"%string, json_string PROTOCOL_VERSION)])))), s)
  else
    let s := set_state (set_status Status_Initialized (set_session_id uuid (s_state s))) s in
    let s := update_available_actions s in
    (Ok (envelope s (mkInitializeResponse phase1_defaults)), s).

Definition validate_attach (req : AttachRequest) (s : Session) : result SessionError unit :=
  if bool_decide (status s = Status_Stopped) || bool_decide (is_Some (ss_model_id (s_state s)))
  then Err (ModelAlreadyAttached (error_in s ErrorCode_ModelAlreadyAttached
         "Detach the current model before attaching a new one" None
         (recovery_hint_for ErrorCode_ModelAlreadyAttached) None))
  else if negb (bool_decide (status s = Status_Initialized))
  then Err (invalid_state_error s "attach" [Status_Initialized])
  else if match AttachRequest_config req with
          | Some config => match value_get config "execution_mode" with
                           | Some mode => bool_decide (value_as_str mode = Some "compiled"%string)
                           | None => false
                           end
          | None => false
          end
  then Err (CompiledModel (error_in s ErrorCode_CompiledModel
         "rocket_surgeon requires eager-mode models. Remove torch.compile() wrapper before attaching" None
         (recovery_hint_for ErrorCode_CompiledModel) None))
  else if negb (bool_decide (AttachRequest_model_family req ∈ SUPPORTED_FAMILIES))
  then Err (UnsupportedModel (error_in s ErrorCode_UnsupportedModel
         ("Supported model families: " +:+ string_join ", " SUPPORTED_FAMILIES) None
         (recovery_hint_for ErrorCode_UnsupportedModel)
         (Some (json_object [("attempted_family"%string, json_string (AttachRequest_model_family req));
                             ("supported_families"%string, json_array (json_string <$> SUPPORTED_FAMILIES))]))))
  else Ok tt.

Definition commit_attach (uuid : string) (req : AttachRequest) (worker_model_type : string)
    (num_layers num_heads hidden_dim : Z) (s : Session) : ResponseEnvelope AttachResponse * Session :=
  let model_id := "model-" +:+ uuid in
  let st := set_tick_id None (set_position None (set_status Status_Stopped (set_model_id (Some model_id) (s_state s)))) in
  let s := set_catalog (default_catalog worker_model_type num_layers num_heads hidden_dim) (set_state st s) in
  let s := update_available_actions s in
  (envelope s (mkAttachResponse model_id worker_model_type num_layers num_heads hidden_dim
     (AttachRequest_num_ranks req) phase1_defaults [] [] [] []), s).

Definition detach (s : Session) : result SessionError (ResponseEnvelope DetachResponse) * Session :=
  if bool_decide (status s = Status_Initialized) || negb (bool_decide (is_Some (ss_model_id (s_state s))))
  then (Err (ModelNotAttached (error_in s ErrorCode_ModelNotAttached "No model is currently attached" None
          (recovery_hint_for ErrorCode_ModelNotAttached) None)), s)
  else if negb (bool_decide (status s = Status_Stopped))
  then (Err (invalid_state_error s "detach" [Status_Stopped]), s)
  else
    let detached_id := default ""%string (ss_model_id (s_state s)) in
    let st := set_checkpoints [] (set_active_probes [] (set_tick_id None (set_position None
                (set_status Status_Initialized (set_model_id None (s_state s)))))) in
    let s := set_auto_checkpoint_layers [] (set_interventions [] (set_defined_views ∅ (set_catalog []
               (set_checkpoint_positions ∅ (set_state st (set_detached_model_id (Some detached_id) s)))))) in
    let s := update_available_actions s in
    (Ok (envelope s (mkDetachResponse detached_id)), s).

Definition status_ (uptime_seconds : f64) (s : Session) : result SessionError (ResponseEnvelope StatusResponse) :=
  if bool_decide (status s = Status_Uninitialized)
  then Err (invalid_state_error s "status" [Status_Initialized; Status_Stopped])
  else Ok (envelope s (mkStatusResponse uptime_seconds 1 (mkMemoryUsage (S754_zero false) (S754_zero false)) 0 0)).

Definition require_stopped (method : string) (s : Session) : result SessionError unit :=
  match status s with
  | Status_Stopped => Ok tt
  | Status_Uninitialized | Status_Initialized =>
      Err (ModelNotAttached (error_in s ErrorCode_ModelNotAttached "Attach a model before calling this method"
             (Some [Status_Stopped]) (recovery_hint_for ErrorCode_ModelNotAttached) None))
  | _ => Err (invalid_state_error s method [Status_Stopped])
  end.

Definition capability_not_supported_error (cap : string) (s : Session) : SessionError :=
  CapabilityNotSupported (error_in s ErrorCode_CapabilityNotSupported
    ("The " +:+ cap +:+ " capability is not supported in this build") None
    (recovery_hint_for ErrorCode_CapabilityNotSupported) (Some (json_object [("capability"%string, json_string cap)]))).

Definition check_capability (cap : string) (s : Session) : result SessionError unit :=
  if bool_decide (cap ∈ ["supports_reverse_step"; "supports_backward"; "supports_moe"; "supports_sae"]%string)
  then Err (capability_not_supported_error cap s) else Ok tt.

(** *** Checkpoints *)

Definition checkpoint_response (s : Session) (id : option string) (restored : option TickPosition)
  : ResponseEnvelope CheckpointResponse :=
  envelope s (mkCheckpointResponse (ss_checkpoints (s_state s)) id restored).

Definition current_layer (s : Session) : Z :=
  match ss_position (s_state s) with Some p => tp_layer p | None => 0 end.

Definition create_tier (tier : option CreateCheckpointTier) : CheckpointTier :=
  match default CreateCheckpointTier_Activation tier with
  | CreateCheckpointTier_Activation => CheckpointTier_Activation
  | CreateCheckpointTier_FullSnapshot => CheckpointTier_FullSnapshot
  end.

Definition checkpoint_create_with_id (uuid : string) (now : Z) (tier : option CreateCheckpointTier)
    (explicit_id : option string) (s : Session) : ResponseEnvelope CheckpointResponse * Session :=
  let checkpoint_id := default uuid explicit_id in
  let cref := mkCheckpointRef checkpoint_id (default 0 (ss_tick_id (s_state s))) (current_layer s)
                (create_tier tier) None (now_rfc3339 now) in
  let s := set_state (set_checkpoints (ss_checkpoints (s_state s) ++ [cref]) (s_state s)) s in
  let s := match ss_position (s_state s) with
           | Some pos => set_checkpoint_positions (<[checkpoint_id := pos]> (s_checkpoint_positions s)) s
           | None => s
           end in
  (checkpoint_response s (Some checkpoint_id) None, s).

Definition checkpoint_create (uuid : string) (now : Z) (tier : option CreateCheckpointTier) (s : Session) :=
  checkpoint_create_with_id uuid now tier None s.

Definition checkpoint_list (s : Session) : ResponseEnvelope CheckpointResponse := checkpoint_response s None None.

Definition checkpoint_not_found_error (id : string) (s : Session) : SessionError :=
  CheckpointNotFound (error_in s ErrorCode_CheckpointNotFound
    ("Checkpoint '" +:+ id +:+ "' does not exist; call `rocket/checkpoint action=list` to see valid ids") None
    (recovery_hint_for ErrorCode_CheckpointNotFound)
    (Some (json_object [("checkpoint_id"%string, json_string id);
       ("available_ids"%string, json_array ((fun c => json_string (cr_checkpoint_id c)) <$> ss_checkpoints (s_state s)))]))).

Definition find_checkpoint (id : string) (s : Session) : option CheckpointRef :=
  List.find (fun c => bool_decide (cr_checkpoint_id c = id)) (ss_checkpoints (s_state s)).

(** The forward-only position rebuilt from a reference without a captured one. *)
Definition position_of_ref (c : CheckpointRef) : TickPosition :=
  mkTickPosition (cr_tick_id c) StepDirection_Forward None (cr_layer_idx c) "" TickEvent_Output None Phase_Decode None None.

Definition checkpoint_restore (id : string) (s : Session)
  : result SessionError (ResponseEnvelope CheckpointResponse) * Session :=
  match find_checkpoint id s with
  | None => (Err (checkpoint_not_found_error id s), s)
  | Some cref =>
      let position := default (position_of_ref cref) (s_checkpoint_positions s !! id) in
      let s := set_state (set_position (Some position) (set_tick_id (Some (tp_tick_id position)) (s_state s))) s in
      (Ok (checkpoint_response s (Some id) (Some position)), s)
  end.

Definition checkpoint_delete (id : string) (s : Session)
  : result SessionError (ResponseEnvelope CheckpointResponse) * Session :=
  let before := List.length (ss_checkpoints (s_state s)) in
  let kept := List.filter (fun c => negb (bool_decide (cr_checkpoint_id c = id))) (ss_checkpoints (s_state s)) in
  let s := set_state (set_checkpoints kept (s_state s)) s in
  if Nat.eqb (List.length kept) before then (Err (checkpoint_not_found_error id s), s)
  else
    let s := set_checkpoint_positions (delete id (s_checkpoint_positions s)) s in
    (Ok (checkpoint_response s None None), s).

(** [iter_mut().find(..)]: rewrite the first element that satisfies [p]. *)
Fixpoint update_first {A} (p : A -> bool) (f : A -> A) (l : list A) : option (list A) :=
  match l with
  | [] => None
  | x :: r => if p x then Some (f x :: r) else match update_first p f r with Some r' => Some (x :: r') | None => None end
  end.

Definition set_bookmark (name : string) (c : CheckpointRef) : CheckpointRef :=
  mkCheckpointRef (cr_checkpoint_id c) (cr_tick_id c) (cr_layer_idx c) (cr_tier c) (Some name) (cr_created_at c).

Definition checkpoint_bookmark (uuid : string) (now : Z) (tick_id : Z) (name : string) (s : Session)
  : ResponseEnvelope CheckpointResponse * Session :=
  let cs := match update_first (fun c => cr_tick_id c =? tick_id) (set_bookmark name) (ss_checkpoints (s_state s)) with
            | Some cs => cs
            | None => ss_checkpoints (s_state s) ++
                [mkCheckpointRef uuid tick_id (current_layer s) CheckpointTier_ProbeLog (Some name) (now_rfc3339 now)]
            end in
  let s := set_state (set_checkpoints cs (s_state s)) s in
  (checkpoint_response s None None, s).

(** *** Stepping and inspecting *)

Definition set_range_end (tick : Z) (g : WorldlineSegment) : WorldlineSegment :=
  mkWorldlineSegment (seg_id g) (seg_parent_segment g) (seg_branch_tick g) (fst (seg_tick_range g), tick).

(** [if seg_idx < segments.len() { segments[seg_idx].tick_range.1 = tick }] *)
Definition extend_current (tick : Z) (w : WorldlineState) : WorldlineState :=
  mkWorldlineState (wl_current_segment w)
    (alter (set_range_end tick) (Z.to_nat (wl_current_segment w)) (wl_segments w)).

(** The state update shared by [step] and [replay]. *)
Definition move_to (pos : TickPosition) (s : Session) : Session :=
  let st := set_position (Some pos) (set_tick_id (Some (tp_tick_id pos)) (s_state s)) in
  let st := set_worldline (extend_current (tp_tick_id pos) (ss_worldline st)) st in
  update_available_actions (set_state st s).

Section Serialized.
Context `{!Serialize PositionEnvelope}.

Definition step `{!Serialize StepResponse, !Serialize (ResponseEnvelope StepResponse)}
    (req : StepRequest) (host_position : TickPosition) (forward_complete : bool) (fired : list string) (s : Session)
  : result SessionError Value * Session :=
  match require_stopped "rocket/step" s with
  | Err e => (Err e, s)
  | Ok _ =>
      let s := move_to host_position s in
      (Ok (envelope_with_mode s (StepRequest_envelope req)
             (mkStepResponse (StepRequest_count req) host_position fired)), s)
  end.

Definition inspect `{!Serialize InspectResponse, !Serialize (ResponseEnvelope InspectResponse)}
    (tensors : list TensorSummary) (slice_data : option string) (mode : EnvelopeMode) (s : Session)
  : result SessionError Value :=
  match require_stopped "rocket/inspect" s with
  | Err e => Err e
  | Ok _ => Ok (envelope_with_mode s mode (mkInspectResponse tensors None slice_data))
  end.

(** *** Replay *)

(** The metadata-only replay when there is no worker answer: its tick count
    and the synthesized position. *)
Definition synthesize_replay (req : ReplayRequest) (cref : CheckpointRef) (s : Session) : Z * TickPosition :=
  let origin := default (position_of_ref cref) (s_checkpoint_positions s !! ReplayRequest_from_checkpoint req) in
  let current_tick := default (tp_tick_id origin) (ss_tick_id (s_state s)) in
  let current := ss_position (s_state s) in
  let ticks := Z.max (u64_saturating_sub current_tick (tp_tick_id origin)) 1 in
  (Z.min ticks U32_MAX,
   mkTickPosition (u64_add current_tick ticks) StepDirection_Forward
     (match current with Some p => tp_rank p | None => None end)
     (match ReplayRequest_stop_at req with
      | Some sa => rsa_layer sa
      | None => match current with Some p => tp_layer p | None => tp_layer origin end
      end)
     (match ReplayRequest_stop_at req with
      | Some sa => rsa_component sa
      | None => match current with Some p => tp_component p | None => ""%string end
      end)
     TickEvent_Output (Some current_tick)
     (match current with Some p => tp_phase p | None => Phase_Decode end)
     (match current with Some p => tp_token_position p | None => None end)
     (match current with Some p => tp_clock p | None => None end)).

Definition replay `{!Serialize ReplayResponse, !Serialize (ResponseEnvelope ReplayResponse)}
    (req : ReplayRequest) (host_response : option HostReplayResponse) (s : Session) : result SessionError Value * Session :=
  match require_stopped "rocket/replay" s with
  | Err e => (Err e, s)
  | Ok _ =>
      match find_checkpoint (ReplayRequest_from_checkpoint req) s with
      | None => (Err (checkpoint_not_found_error (ReplayRequest_from_checkpoint req) s), s)
      | Some cref =>
          let '(ticks_replayed, stopped_at, divergences, verified) :=
            match host_response with
            | Some hr => (HostReplayResponse_ticks_replayed hr, HostReplayResponse_stopped_at hr,
                          HostReplayResponse_divergences hr, HostReplayResponse_verified hr)
            | None => let (t, sa) := synthesize_replay req cref s in (t, sa, [], true)
            end in
          let s := move_to stopped_at s in
          (Ok (envelope_with_mode s (ReplayRequest_envelope req)
                 (mkReplayResponse ticks_replayed stopped_at divergences verified)), s)
      end
  end.

End Serialized.

(** *** Discovery and views *)

(** [a.layer.cmp(&b.layer).then_with(|| a.canonical.cmp(&b.canonical))], as "not greater" *)
Definition entry_le (a b : ProbePointEntry) : bool :=
  match pp_layer a ?= pp_layer b with
  | Lt => true
  | Eq => string_le (pp_canonical a) (pp_canonical b)
  | Gt => false
  end.

(** [Vec::dedup]: of a run of equal elements the first is kept. *)
Fixpoint dedup (l : list string) : list string :=
  match l with
  | [] => []
  | x :: r => match r with
              | [] => [x]
              | y :: _ => if decide (x = y) then dedup r else x :: dedup r
              end
  end.

Definition collect_canonicals (catalog : list ProbePointEntry) (segs : list string) (parsed : DiscoverPattern)
    (respect_layer : bool) : list string :=
  let canonicals := pp_canonical <$>
    List.filter (fun e => PatternSeg_matches (dp_family parsed) (pp_family e) &&
                          (negb respect_layer || PatternSeg_matches (dp_layer parsed) (to_string (pp_layer e))) &&
                          PatternSeg_matches (dp_event parsed) (pp_event e)) catalog in
  let seg i := nth i segs ""%string in
  (fun canonical => (seg 0%nat +:+ ":" +:+ seg 1%nat +:+ ":" +:+ seg 2%nat +:+ ":" +:+ canonical +:+ ":" +:+ seg 4%nat)%string)
    <$> dedup (sort_by string_le canonicals).

Definition suggest_patterns (pattern : string) (parsed : DiscoverPattern) (s : Session) : list string :=
  let segs := pattern_segments pattern in
  match collect_canonicals (s_catalog s) segs parsed true with
  | [] => collect_canonicals (s_catalog s) segs parsed false
  | strict => strict
  end.

Definition discover_match (e : ProbePointEntry) : DiscoverMatch :=
  mkDiscoverMatch (pp_canonical e) (pp_tensor_shape e) (pp_aliases e).

Definition discover (pattern : string) (s : Session) : result SessionError (ResponseEnvelope DiscoverResponse) :=
  match require_stopped "rocket/discover" s with
  | Err e => Err e
  | Ok _ =>
      match DiscoverPattern_parse pattern with
      | None => Err (InvalidParams (error_in s ErrorCode_InvalidParams
          ("Discover pattern '" +:+ pattern +:+ "' is not a 5-segment 'family:rank:layer:component:event' string") None
          "Use a pattern like 'llama:*:12:*:output'; segments may be '*'" None))
      | Some parsed =>
          let matches := discover_match <$> sort_by entry_le (List.filter (DiscoverPattern_matches parsed) (s_catalog s)) in
          let suggestions := match matches with [] => suggest_patterns pattern parsed s | _ => [] end in
          Ok (envelope s (mkDiscoverResponse matches suggestions))
      end
  end.

Definition dquote : string := String (ascii_of_nat 34) EmptyString.

(** [name.trim().is_empty()] *)
Definition blank (name : string) : bool :=
  match utf8_decode (chars name) with
  | Some cps => match trim cps with [] => true | _ => false end
  | None => false
  end.

Definition define_view (name : string) (spec : Value) (s : Session)
  : result SessionError (ResponseEnvelope ViewDefineResponse) * Session :=
  match require_stopped "rocket/view.define" s with
  | Err e => (Err e, s)
  | Ok _ =>
      if blank name
      then (Err (InvalidParams (error_in s ErrorCode_InvalidParams "View name must be a non-empty string" None
              ("Provide a 'name' field identifying the view, e.g. " +:+ dquote +:+ "my_view" +:+ dquote) None)), s)
      else
        let s := set_defined_views (<[name := spec]> (s_defined_views s)) s in
        (Ok (envelope s (mkViewDefineResponse name true)), s)
  end.

Definition defined_view (name : string) (s : Session) : option Value := s_defined_views s !! name.

(** *** Interventions *)

Definition set_intervention (recipe : InterventionRecipe) (s : Session) : Session :=
  set_interventions
    (match update_first (fun r => bool_decide (ir_id r = ir_id recipe)) (fun _ => recipe) (s_interventions s) with
     | Some l => l
     | None => s_interventions s ++ [recipe]
     end) s.

Definition clear_intervention (id : string) (s : Session) : bool * Session :=
  let before := List.length (s_interventions s) in
  let kept := List.filter (fun r => negb (bool_decide (ir_id r = Some id))) (s_interventions s) in
  (negb (Nat.eqb (List.length kept) before), set_interventions kept s).

(** *** Arena use and worldlines *)

(** [f64::min] *)
Definition f64_min (a b : f64) : f64 :=
  match a, b with
  | S754_nan, _ => b
  | _, S754_nan => a
  | _, _ => if SFltb b a then b else a
  end.

Definition update_arena_utilization (bytes_captured : option Z) (s : Session) : Session :=
  match bytes_captured with
  | Some bytes =>
      set_arena_utilization
        (f64_min (f64_add (s_arena_utilization s) (f64_div (f64_of_Z bytes) (f64_of_Z (256 * 1024 * 1024))))
           (f64_of_Z 1)) s
  | None => s
  end.

Definition advance_worldline_segment (branch_tick : Z) (s : Session) : Session :=
  let w := ss_worldline (s_state s) in
  let is_root := match wl_segments w with [] => true | _ => false end in
  let w1 := extend_current branch_tick w in
  let new_id := u32_wrap (Z.of_nat (List.length (wl_segments w1))) in
  let seg := mkWorldlineSegment new_id (if is_root then None else Some (wl_current_segment w))
               (if is_root then None else Some branch_tick) (branch_tick, 0) in
  set_state (set_worldline (mkWorldlineState new_id (wl_segments w1 ++ [seg])) (s_state s)) s.

(** The loop of [find_checkpoint_before] over the entries in the hash map's
    iteration order. *)
Definition best_before (target_tick : Z) (entries : list (string * TickPosition)) : option (string * Z) :=
  foldl (fun best '(id, pos) =>
           if (tp_tick_id pos <? target_tick) && match best with None => true | Some (_, t) => t <? tp_tick_id pos end
           then Some (id, tp_tick_id pos) else best) None entries.

Definition find_checkpoint_before (order : list (string * TickPosition)) (target_tick : Z) : option string :=
  fst <$> best_before target_tick order.

End WithJson.
