(* ===== verification/SessionInv.v ===== *)
(** * SessionInv: what the session state machine guarantees

    The calls the daemon makes on its session ([Call], [exec]), the invariant
    of every reachable session, error transparency, and the life of a
    checkpoint.  Calls that [session.rs] leaves unguarded run under the guard
    of their only callers ([dispatch.rs] and [main.rs] call [require_stopped]
    first, or run after an operation that succeeded only when stopped). *)

From Stdlib Require Import ZArith Lia Ascii String SpecFloat Sorted.
From stdpp Require Import base gmap strings list fin_maps sorting sets relations.
From S2P Require Import Prelude Protocol Messages Json Session.
Open Scope Z_scope.

Section SessionInv.
Context {J : SerdeJson}.
Context `{!Serialize PositionEnvelope, !Serialize StepResponse, !Serialize (ResponseEnvelope StepResponse),
          !Serialize ReplayResponse, !Serialize (ResponseEnvelope ReplayResponse)}.

Inductive Call :=
| CInitialize (uuid : string) (req : InitializeRequest)
| CAttach (uuid : string) (req : AttachRequest) (model_type : string) (layers heads dim : Z)
| CDetach
| CStep (req : StepRequest) (pos : TickPosition) (complete : bool) (fired : list string)
| CReplay (req : ReplayRequest) (host : option HostReplayResponse)
| CCreate (uuid : string) (now : Z) (tier : option CreateCheckpointTier) (explicit_id : option string)
| CRestore (id : string)
| CDelete (id : string)
| CBookmark (uuid : string) (now tick_id : Z) (name : string)
| CDefineView (name : string) (spec : Value)
| CSetIntervention (recipe : InterventionRecipe)
| CClearIntervention (id : string)
| CAutoLayers (layers : list Z)
| CEventFilter (f : option SubscribeFilter)
| CArena (bytes : option Z)
| CAdvance (branch_tick : Z).

Definition when_stopped (method : string) (f : Session -> Session) (s : Session) : Session :=
  match require_stopped method s with Ok _ => f s | Err _ => s end.

Definition exec (c : Call) (s : Session) : Session :=
  match c with
  | CInitialize uuid req => snd (initialize uuid req s)
  | CAttach uuid req ty l h d =>
      match validate_attach req s with Ok _ => snd (commit_attach uuid req ty l h d s) | Err _ => s end
  | CDetach => snd (detach s)
  | CStep req pos fc fired => snd (step req pos fc fired s)
  | CReplay req host => snd (replay req host s)
  | CCreate uuid now tier eid => when_stopped "rocket/checkpoint" (fun s => snd (checkpoint_create_with_id uuid now tier eid s)) s
  | CRestore id => when_stopped "rocket/checkpoint" (fun s => snd (checkpoint_restore id s)) s
  | CDelete id => when_stopped "rocket/checkpoint" (fun s => snd (checkpoint_delete id s)) s
  | CBookmark uuid now tick name => when_stopped "rocket/checkpoint" (fun s => snd (checkpoint_bookmark uuid now tick name s)) s
  | CDefineView name spec => snd (define_view name spec s)
  | CSetIntervention recipe => when_stopped "rocket/intervene" (set_intervention recipe) s
  | CClearIntervention id => when_stopped "rocket/intervene" (fun s => snd (clear_intervention id s)) s
  | CAutoLayers layers => when_stopped "rocket/attach" (set_auto_checkpoint_layers layers) s
  | CEventFilter f => when_stopped "rocket/subscribe" (set_event_filter f) s
  | CArena bytes => update_arena_utilization bytes s
  | CAdvance tick => advance_worldline_segment tick s
  end.

(** Sessions the daemon can reach: from [Session::new] by its calls. *)
Definition run (cs : list Call) : Session := foldl (fun s c => exec c s) new cs.

(** ** The invariant *)

Record no_model_data (s : Session) : Prop := {
  nd_position : ss_position (s_state s) = None;
  nd_checkpoints : ss_checkpoints (s_state s) = [];
  nd_positions : s_checkpoint_positions s = ∅;
  nd_catalog : s_catalog s = [];
  nd_views : s_defined_views s = ∅;
  nd_interventions : s_interventions s = [];
  nd_auto : s_auto_checkpoint_layers s = []
}.

(** A catalog entry whose name can stand as a segment of a pattern. *)
Definition named (e : ProbePointEntry) : Prop := pp_canonical e <> ""%string /\ ":"%char ∉ chars (pp_canonical e).

Record session_ok (s : Session) : Prop := {
  ok_status : status s = Status_Uninitialized \/ status s = Status_Initialized \/ status s = Status_Stopped;
  ok_model : is_Some (ss_model_id (s_state s)) <-> status s = Status_Stopped;
  ok_actions : ss_available_actions (s_state s) = actions_for (status s);
  ok_probes : ss_active_probes (s_state s) = [];
  ok_data : status s <> Status_Stopped -> no_model_data s;
  ok_tick : ss_tick_id (s_state s) = tp_tick_id <$> ss_position (s_state s);
  ok_positions : forall id, is_Some (s_checkpoint_positions s !! id) -> is_Some (find_checkpoint id s);
  ok_interventions : NoDup (ir_id <$> s_interventions s);
  ok_arena : SFleb (s_arena_utilization s) (f64_of_Z 1) = true;
  ok_catalog : Forall named (s_catalog s)
}.

(** ** Small facts about the helpers *)

#[local] Arguments find_checkpoint : simpl never.
#[local] Arguments f64_of_Z : simpl never.

Lemma require_stopped_cases m s :
  (status s = Status_Stopped /\ require_stopped m s = Ok tt) \/
  (status s <> Status_Stopped /\ exists e, require_stopped m s = Err e).
Proof. unfold require_stopped. destruct (status s); eauto; right; split; eauto; done. Qed.

Lemma update_first_fmap {A B} (f : A -> B) (p : A -> bool) (g : A -> A) l l' :
  (forall x, p x = true -> f (g x) = f x) -> update_first p g l = Some l' -> f <$> l' = f <$> l.
Proof.
  intros Hg. revert l'; induction l as [|x r IH]; intros l'; cbn; [done|].
  destruct (p x) eqn:E; [intros [= <-]; cbn; by rewrite Hg|].
  destruct (update_first p g r) eqn:E2; [|done]. intros [= <-]. cbn. by rewrite (IH _ eq_refl).
Qed.

Lemma update_first_none {A} (p : A -> bool) g l x :
  update_first p g l = None -> x ∈ l -> p x = false.
Proof.
  induction l as [|y r IH]; cbn; [set_solver|]. destruct (p y) eqn:E; [done|].
  destruct (update_first p g r) eqn:E2; [done|]. intros _ [-> | Hx]%elem_of_cons; auto.
Qed.

Lemma find_checkpoint_is_Some id s :
  is_Some (find_checkpoint id s) <-> id ∈ cr_checkpoint_id <$> ss_checkpoints (s_state s).
Proof.
  unfold find_checkpoint. rewrite list_elem_of_fmap. split.
  - intros [c Hc]. apply find_some in Hc as [Hin Hb]. apply bool_decide_eq_true in Hb.
    exists c. by rewrite list_elem_of_In.
  - intros (c & -> & Hin). destruct (List.find _ _) eqn:E; [eauto|].
    apply find_none with (x := c) in E; [|by rewrite <- list_elem_of_In].
    by apply bool_decide_eq_false in E.
Qed.

Lemma find_checkpoint_app id s s' l :
  ss_checkpoints (s_state s') = ss_checkpoints (s_state s) ++ l ->
  is_Some (find_checkpoint id s) -> is_Some (find_checkpoint id s').
Proof. rewrite !find_checkpoint_is_Some. intros ->. rewrite fmap_app. set_solver. Qed.

Lemma compare_cont_flip (p q : positive) : Pos.compare_cont Eq p q = CompOpp (Pos.compare_cont Eq q p).
Proof. symmetry. apply (Pos.compare_cont_antisym q p Eq). Qed.

Lemma SFcompare_one_total (x : f64) :
  x <> S754_nan -> SFltb (f64_of_Z 1) x = false -> SFleb x (f64_of_Z 1) = true.
Proof.
  replace (f64_of_Z 1) with (S754_finite false 4503599627370496 (-52)) by reflexivity.
  unfold SFltb, SFleb. destruct x as [[]|[]| |[] m e]; try done. cbn [SFcompare]. intros _.
  rewrite (Z.compare_antisym (-52) e). destruct (-52 ?= e); cbn [CompOpp]; try done.
  rewrite (compare_cont_flip m 4503599627370496). by destruct (Pos.compare_cont Eq 4503599627370496 m).
Qed.

Lemma f64_min_one_le x : SFleb (f64_min x (f64_of_Z 1)) (f64_of_Z 1) = true.
Proof.
  assert (H : x <> S754_nan -> SFleb (if SFltb (f64_of_Z 1) x then f64_of_Z 1 else x) (f64_of_Z 1) = true).
  { intros Hx. destruct (SFltb _ x) eqn:E; [reflexivity|]. by apply SFcompare_one_total. }
  unfold f64_min. destruct x; try (by apply H); reflexivity.
Qed.

(** ** Preservation *)

(** Operations that run only when stopped and touch neither the status nor the
    model id: what is left to show. *)
Lemma stopped_ok s s' :
  session_ok s -> status s = Status_Stopped ->
  status s' = status s -> ss_model_id (s_state s') = ss_model_id (s_state s) ->
  ss_available_actions (s_state s') = actions_for (status s) ->
  ss_active_probes (s_state s') = ss_active_probes (s_state s) ->
  s_arena_utilization s' = s_arena_utilization s ->
  ss_tick_id (s_state s') = tp_tick_id <$> ss_position (s_state s') ->
  (forall id, is_Some (s_checkpoint_positions s' !! id) -> is_Some (find_checkpoint id s')) ->
  NoDup (ir_id <$> s_interventions s') ->
  s_catalog s' = s_catalog s ->
  session_ok s'.
Proof.
  intros [] Hst E1 E2 E3 E4 E5 ? ? ? E6. split; rewrite ?E1, ?E2, ?E4, ?E5, ?E6; try done; try tauto.
Qed.

Lemma named_default family l h d : Forall named (default_catalog family l h d).
Proof.
  assert (Hc : Forall (fun '(c, _, _, _) => c <> ""%string /\ ":"%char ∉ chars c) (catalog_components d h)).
  { repeat constructor; try done; cbn; apply (bool_decide_eq_true_1 _); reflexivity. }
  apply Forall_forall. intros e [He|He]%elem_of_app.
  - apply list_elem_of_bind in He as (layer & ([[[c ev] sh] al] & -> & Hin)%list_elem_of_fmap & _).
    by apply (proj1 (Forall_forall _ _) Hc) in Hin.
  - apply list_elem_of_singleton in He as ->. split; [done|]. apply (bool_decide_eq_true_1 _); reflexivity.
Qed.

Lemma initialize_ok uuid req s : session_ok s -> session_ok (snd (initialize uuid req s)).
Proof.
  intros Hok. unfold initialize. case_bool_decide as H1; cbn; [|done]. case_bool_decide; cbn; [|done].
  destruct Hok as [Hs [Hm1 Hm2] Ha Hp Hd Ht Hpos Hi Har Hcat]. split; cbn; eauto.
  - split; [|done]. intros Hm. rewrite H1 in Hm1. by specialize (Hm1 Hm).
  - intros _. destruct Hd as []; [by rewrite H1|]. by split.
Qed.

Lemma attach_ok uuid req ty l h d s :
  session_ok s -> validate_attach req s = Ok tt -> session_ok (snd (commit_attach uuid req ty l h d s)).
Proof.
  intros [Hs Hm Ha Hp Hd Ht Hpos Hi Har Hcat]. unfold validate_attach.
  destruct (_ || _); [done|]. intros _. split; [..|apply named_default]; cbn; eauto; done.
Qed.

Lemma detach_ok s : session_ok s -> session_ok (snd (detach s)).
Proof.
  intros Hok. unfold detach. destruct (_ || _); [done|]. destruct (negb _); [done|].
  destruct Hok as [Hs Hm Ha Hp Hd Ht Hpos Hi Har Hcat]. split; cbn; eauto.
  - split; [by intros []|done].
  - by intros _; split.
  - intros id [? Hl]. by rewrite lookup_empty in Hl.
  - constructor.
Qed.

Lemma move_to_ok pos s : session_ok s -> status s = Status_Stopped -> session_ok (move_to pos s).
Proof. intros Hok Hst. apply (stopped_ok s); try done; by destruct Hok. Qed.

Lemma step_ok req pos fc fired s : session_ok s -> session_ok (snd (step req pos fc fired s)).
Proof.
  intros Hok. unfold step. destruct (require_stopped_cases "rocket/step" s) as [[Hs ->]|[Hs [e ->]]]; [|done].
  by apply move_to_ok.
Qed.

Lemma replay_ok req hr s : session_ok s -> session_ok (snd (replay req hr s)).
Proof.
  intros Hok. unfold replay. destruct (require_stopped_cases "rocket/replay" s) as [[Hs ->]|[Hs [e ->]]]; [|done].
  destruct (find_checkpoint _ s); [|done].
  destruct hr as [hr|]; cbn; by apply move_to_ok.
Qed.

Lemma create_ok uuid now tier eid s :
  session_ok s -> status s = Status_Stopped -> session_ok (snd (checkpoint_create_with_id uuid now tier eid s)).
Proof.
  intros Hok Hst. pose proof Hok as [Hs Hm Ha Hp Hd Ht Hpos Hi Har Hcat].
  apply (stopped_ok s); try done; unfold checkpoint_create_with_id; cbn;
    destruct (ss_position (s_state s)) eqn:E; cbn; rewrite ?E, ?Ht; try done.
  - intros id. rewrite find_checkpoint_is_Some. cbn. rewrite fmap_app, elem_of_app. cbn.
    destruct (decide (id = default uuid eid)) as [->|Hne]; [set_solver|].
    rewrite lookup_insert_ne by done. intros H. left. apply find_checkpoint_is_Some. by apply Hpos.
  - intros id H. eapply find_checkpoint_app; [done|]. by apply Hpos.
Qed.

Lemma restore_ok id s : session_ok s -> status s = Status_Stopped -> session_ok (snd (checkpoint_restore id s)).
Proof.
  intros Hok Hst. unfold checkpoint_restore. destruct (find_checkpoint id s); [|done].
  apply (stopped_ok s); try done; by destruct Hok.
Qed.

Lemma filter_length_id {A} (p : A -> bool) l : List.length (List.filter p l) = List.length l -> List.filter p l = l.
Proof.
  induction l as [|x l IH]; [done|]. cbn. destruct (p x); cbn; [intros [= H]; f_equal; auto|].
  pose proof (List.filter_length_le p l). lia.
Qed.

Lemma delete_err id s e s' : checkpoint_delete id s = (Err e, s') -> s' = s.
Proof.
  unfold checkpoint_delete. destruct (Nat.eqb _ _) eqn:E; [|done]. intros [= _ <-].
  apply Nat.eqb_eq, filter_length_id in E. rewrite E. by destruct s as [[]].
Qed.

Lemma elem_of_filter_ids id j (l : list CheckpointRef) :
  j ≠ id -> j ∈ cr_checkpoint_id <$> l ->
  j ∈ cr_checkpoint_id <$> List.filter (fun c => negb (bool_decide (cr_checkpoint_id c = id))) l.
Proof.
  intros Hne (c & -> & Hc)%list_elem_of_fmap. apply list_elem_of_fmap. exists c. split; [done|].
  rewrite list_elem_of_In in *. apply filter_In. split; [done|]. by rewrite bool_decide_eq_false_2.
Qed.

Lemma delete_ok id s : session_ok s -> status s = Status_Stopped -> session_ok (snd (checkpoint_delete id s)).
Proof.
  intros Hok Hst. destruct (checkpoint_delete id s) as [[r|e] s'] eqn:E; [|by rewrite (delete_err _ _ _ _ E)].
  cbn. unfold checkpoint_delete in E. destruct (Nat.eqb _ _); [done|]. injection E as _ <-.
  pose proof Hok as [Hs Hm Ha Hp Hd Ht Hpos Hi Har Hcat].
  apply (stopped_ok s); try done. intros j. cbn. rewrite find_checkpoint_is_Some. cbn.
  destruct (decide (j = id)) as [->|Hne]; [rewrite lookup_delete_eq; by intros []|].
  rewrite lookup_delete_ne by done. intros H. apply elem_of_filter_ids; [done|].
  apply find_checkpoint_is_Some. auto.
Qed.

Lemma bookmark_ids uuid now tick name s :
  exists l, cr_checkpoint_id <$> ss_checkpoints (s_state (snd (checkpoint_bookmark uuid now tick name s))) =
            (cr_checkpoint_id <$> ss_checkpoints (s_state s)) ++ l.
Proof.
  unfold checkpoint_bookmark. cbn. destruct (update_first _ _ _) eqn:E.
  - exists []. rewrite app_nil_r. by eapply update_first_fmap; [|done].
  - eexists. by rewrite fmap_app.
Qed.

Lemma bookmark_ok uuid now tick name s :
  session_ok s -> status s = Status_Stopped -> session_ok (snd (checkpoint_bookmark uuid now tick name s)).
Proof.
  intros Hok Hst. apply (stopped_ok s); try done; try (by destruct Hok).
  intros id H. apply find_checkpoint_is_Some. destruct (bookmark_ids uuid now tick name s) as [l ->].
  apply elem_of_app. left. apply find_checkpoint_is_Some. by apply Hok.
Qed.

Lemma set_intervention_ids r s :
  NoDup (ir_id <$> s_interventions s) -> NoDup (ir_id <$> s_interventions (set_intervention r s)).
Proof.
  intros Hnd. unfold set_intervention. cbn. destruct (update_first _ _ _) eqn:E.
  - erewrite update_first_fmap; [done| |done]. intros x Hx. cbn in Hx. by apply bool_decide_eq_true in Hx.
  - rewrite fmap_app. apply NoDup_app. split; [done|]. split; [|apply NoDup_singleton].
    intros x (y & -> & Hy)%list_elem_of_fmap Hx. apply list_elem_of_singleton in Hx.
    pose proof (update_first_none _ _ _ _ E Hy) as Hf. cbn in Hf. by apply bool_decide_eq_false in Hf.
Qed.

Lemma filter_fmap_sublist {A B} (f : A -> B) p l : f <$> List.filter p l `sublist_of` f <$> l.
Proof. induction l as [|x l IH]; [done|]. cbn. destruct (p x); cbn; by constructor. Qed.

(** Every call preserves the invariant. *)
Lemma exec_ok c s : session_ok s -> session_ok (exec c s).
Proof.
  intros Hok. destruct c; cbn [exec]; unfold when_stopped;
    try match goal with |- context [require_stopped ?m s] =>
          destruct (require_stopped_cases m s) as [[Hst ->]|[Hst [e ->]]]; [|done] end;
    auto using initialize_ok, detach_ok, step_ok, replay_ok, create_ok, restore_ok, delete_ok, bookmark_ok.
  - destruct (validate_attach req s) as [[]|e] eqn:E; [by apply attach_ok|done].
  - unfold define_view. destruct (require_stopped_cases "rocket/view.define" s) as [[Hst ->]|[Hst [e ->]]]; [|done].
    destruct (blank name); [done|]. apply (stopped_ok s); try done; by destruct Hok.
  - apply (stopped_ok s); try done; try (by destruct Hok). apply set_intervention_ids, Hok.
  - apply (stopped_ok s); try done; try (by destruct Hok).
    eapply sublist_NoDup; [apply Hok|apply filter_fmap_sublist].
  - apply (stopped_ok s); try done; by destruct Hok.
  - apply (stopped_ok s); try done; by destruct Hok.
  - destruct bytes; [|done]. destruct Hok as [Hs Hm Ha Hp Hd Ht Hpos Hi Har Hcat].
    split; try done. + intros Hst. by destruct (Hd Hst). + apply f64_min_one_le.
  - destruct Hok as [Hs Hm Ha Hp Hd Ht Hpos Hi Har Hcat]. split; try done. intros Hst. by destruct (Hd Hst).
Qed.

Lemma new_ok : session_ok new.
Proof.
  split; cbn; try done; try tauto.
  - intros id [? Hl]. by rewrite lookup_empty in Hl.
  - constructor.
Qed.

(** ** The worldline tree

    Segment [i] has id [i]; segment 0 is the root and every later segment
    branches from an earlier one; the cursor points into the tree. *)
Record worldline_ok (w : WorldlineState) : Prop := {
  wo_ids : forall i g, wl_segments w !! i = Some g -> seg_id g = Z.of_nat i;
  wo_root : forall g, wl_segments w !! 0%nat = Some g -> seg_parent_segment g = None /\ seg_branch_tick g = None;
  wo_parent : forall i g, wl_segments w !! S i = Some g ->
    exists p b, seg_parent_segment g = Some p /\ seg_branch_tick g = Some b /\ 0 <= p <= Z.of_nat i;
  wo_cursor : match wl_segments w with
              | [] => wl_current_segment w = 0
              | gs => 0 <= wl_current_segment w < Z.of_nat (List.length gs)
              end
}.

Definition segments (s : Session) : list WorldlineSegment := wl_segments (ss_worldline (s_state s)).

Lemma extend_current_ok t w : worldline_ok w -> worldline_ok (extend_current t w).
Proof.
  intros [Hi Hr Hp Hc]. unfold extend_current.
  assert (Hl : forall i g, alter (set_range_end t) (Z.to_nat (wl_current_segment w)) (wl_segments w) !! i = Some g ->
    exists g0, wl_segments w !! i = Some g0 /\ seg_id g = seg_id g0 /\
      seg_parent_segment g = seg_parent_segment g0 /\ seg_branch_tick g = seg_branch_tick g0).
  { intros i g. destruct (decide (i = Z.to_nat (wl_current_segment w))) as [->|Hne].
    - rewrite list_lookup_alter_eq. intros (g0 & -> & ->)%fmap_Some. eauto 10.
    - rewrite list_lookup_alter_ne by done. eauto 10. }
  split; cbn [wl_segments wl_current_segment].
  - intros i g (g0 & H0 & -> & _)%Hl. eauto.
  - intros g (g0 & H0 & _ & -> & ->)%Hl. eauto.
  - intros i g (g0 & H0 & _ & -> & ->)%Hl. eauto.
  - destruct (wl_segments w) as [|g gs]; [done|].
    destruct (alter _ _ (g :: gs)) eqn:E; [by apply (f_equal List.length) in E; rewrite length_alter in E|].
    apply (f_equal List.length) in E. rewrite length_alter in E. by rewrite <- E.
Qed.

Lemma advance_segments t s :
  List.length (segments (advance_worldline_segment t s)) = S (List.length (segments s)).
Proof.
  unfold segments, advance_worldline_segment. cbn. rewrite length_app, length_alter. cbn. lia.
Qed.

Lemma advance_ok t s :
  Z.of_nat (List.length (segments s)) < 2 ^ 32 ->
  worldline_ok (ss_worldline (s_state s)) -> worldline_ok (ss_worldline (s_state (advance_worldline_segment t s))).
Proof.
  intros Hlen Hw. pose proof (extend_current_ok t _ Hw) as [Hi Hr Hp _]. destruct Hw as [_ _ _ Hc].
  unfold segments in Hlen. cbn. set (w := ss_worldline (s_state s)) in *.
  change (alter _ _ (wl_segments w)) with (wl_segments (extend_current t w)) in *.
  assert (El : List.length (wl_segments (extend_current t w)) = List.length (wl_segments w)) by apply length_alter.
  rewrite El. replace (u32_wrap _) with (Z.of_nat (List.length (wl_segments w))) by (unfold u32_wrap; rewrite Z.mod_small; lia). split; cbn [wl_segments wl_current_segment].
  - intros i g [?|[Hge Hg]]%lookup_app_Some; [by apply Hi|].
    apply list_lookup_singleton_Some in Hg as [Hz <-]. cbn. lia.
  - intros g [?|[Hge Hg]]%lookup_app_Some; [by apply Hr|].
    apply list_lookup_singleton_Some in Hg as [Hz <-]. cbn.
    destruct (wl_segments w); [done|cbn in *; lia].
  - intros i g [?|[Hge Hg]]%lookup_app_Some; [by apply Hp|].
    apply list_lookup_singleton_Some in Hg as [Hz <-]. cbn.
    destruct (wl_segments w) as [|g0 gs]; [cbn in *; lia|]. do 2 eexists. split_and!; try done; cbn in *; lia.
  - destruct (_ ++ _) eqn:E; [by destruct (wl_segments (extend_current t w))|].
    apply (f_equal List.length) in E. rewrite length_app in E. cbn in *. lia.
Qed.

Lemma exec_segments c s : (List.length (segments (exec c s)) <= S (List.length (segments s)))%nat.
Proof.
  destruct c; cbn [exec]; unfold when_stopped, initialize, commit_attach, detach, step, replay,
    checkpoint_restore, checkpoint_delete, define_view, update_arena_utilization;
    repeat (case_match || (case_bool_decide; cbn [negb])); simplify_eq/=; unfold segments; cbn;
    rewrite ?length_alter, ?length_app; cbn; try lia.
  all: repeat case_match; simplify_eq/=; cbn; rewrite ?length_alter; lia.
Qed.

Lemma exec_worldline c s :
  Z.of_nat (List.length (segments s)) < 2 ^ 32 ->
  worldline_ok (ss_worldline (s_state s)) -> worldline_ok (ss_worldline (s_state (exec c s))).
Proof.
  intros Hlen Hw. pose proof (fun t => extend_current_ok t _ Hw).
  destruct c; [..|by apply advance_ok]; clear Hlen; cbn [exec]; unfold when_stopped, initialize, commit_attach, detach, step, replay,
    checkpoint_create_with_id, checkpoint_restore, checkpoint_delete, define_view, update_arena_utilization;
    repeat (case_match || (case_bool_decide; cbn [negb])); simplify_eq/=; cbn; eauto.
Qed.

Lemma run_snoc cs c : run (cs ++ [c]) = exec c (run cs).
Proof. unfold run. by rewrite foldl_app. Qed.

Lemma run_ok cs : session_ok (run cs).
Proof. induction cs as [|c cs IH] using rev_ind; [apply new_ok|]. rewrite run_snoc. by apply exec_ok. Qed.

(** C4: whatever calls the daemon makes, in whatever order and with whatever
    arguments, the session stays well formed: it is uninitialized, initialized
    or stopped; it has a model id exactly when stopped; the advertised actions
    are those of its status; without a model it holds no checkpoint, position,
    catalog, view, intervention or auto-checkpoint layer of an earlier one; the
    tick id is the one of the position; every recorded checkpoint position
    belongs to a listed checkpoint; intervention ids are unique; the arena
    utilization estimate is at most 1; and the [active_probes] of every
    envelope is empty. *)
Theorem session_reachable_ok (cs : list Call) : session_ok (run cs).
Proof. apply run_ok. Qed.

(** C29: as long as the 32-bit segment ids do not wrap, the worldline of a
    reachable session is a tree: segment [i] has id [i], the first segment is
    the only one without a parent, every other one branches from an earlier
    segment at a recorded tick, and the cursor is a segment of the tree. *)
Theorem worldline_is_tree (cs : list Call) (H : Z.of_nat (List.length cs) <= 2 ^ 32) :
  worldline_ok (ss_worldline (s_state (run cs))).
Proof.
  cut ((List.length (segments (run cs)) <= List.length cs)%nat /\ worldline_ok (ss_worldline (s_state (run cs)))); [tauto|].
  induction cs as [|c cs IH] using rev_ind; [by repeat split|].
  rewrite length_app in H. cbn in H. destruct IH as [IH1 IH2]; [lia|]. rewrite run_snoc, length_app. cbn.
  pose proof (exec_segments c (run cs)). split; [lia|]. apply exec_worldline; [lia|done].
Qed.

(** ** Errors change nothing *)

(** An operation that answers with an error returns the session it was given
    and reports its status. *)
Definition err_keeps {A} (s : Session) (r : result SessionError A * Session) : Prop :=
  match r with (Err e, s') => s' = s /\ ed_current_state (error_data e) = Some (status s) | (Ok _, _) => True end.

Lemma require_stopped_state m s e : require_stopped m s = Err e -> ed_current_state (error_data e) = Some (status s).
Proof. unfold require_stopped. by destruct (status s) eqn:E; intros [= <-]; cbn; rewrite ?E. Qed.

(** An operation that fails leaves the whole session as it was, and its
    error reports the status the session is in.  For [checkpoint_delete] this is although the deletion is
    performed before the check. *)
Theorem session_errors_change_nothing (s : Session) :
  (forall uuid req, err_keeps s (initialize uuid req s)) /\
  err_keeps s (detach s) /\
  (forall req pos fc fired, err_keeps s (step req pos fc fired s)) /\
  (forall req hr, err_keeps s (replay req hr s)) /\
  (forall id, err_keeps s (checkpoint_restore id s)) /\
  (forall id, err_keeps s (checkpoint_delete id s)) /\
  (forall name spec, err_keeps s (define_view name spec s)).
Proof.
  split_and!; intros; try (unfold initialize, detach, step, replay, checkpoint_restore, define_view;
    repeat (case_match || (case_bool_decide; cbn [negb])); simplify_eq/=; eauto using require_stopped_state; done).
  destruct (checkpoint_delete id s) as [[]] eqn:E; cbn; [done|]. pose proof (delete_err _ _ _ _ E) as ->.
  split; [done|]. unfold checkpoint_delete in E. destruct (Nat.eqb _ _); [|done]. by injection E as <- _.
Qed.

(** ** The life of a checkpoint *)

(** Calls that leave checkpoint [id] alone. *)
Definition leaves (id : string) (c : Call) : bool :=
  match c with
  | CDelete j => negb (bool_decide (j = id))
  | CCreate uuid _ _ eid => negb (bool_decide (default uuid eid = id))
  | CDetach => false
  | _ => true
  end.

Definition restorable (id : string) (p : TickPosition) (s : Session) : Prop :=
  status s = Status_Stopped /\ is_Some (find_checkpoint id s) /\ s_checkpoint_positions s !! id = Some p.

Lemma restorable_same id p s s' :
  status s' = status s -> s_checkpoint_positions s' = s_checkpoint_positions s ->
  ss_checkpoints (s_state s') = ss_checkpoints (s_state s) -> restorable id p s -> restorable id p s'.
Proof. unfold restorable, find_checkpoint. by intros -> -> ->. Qed.

Lemma restorable_delete id j p s : j <> id -> restorable id p s -> restorable id p (snd (checkpoint_delete j s)).
Proof.
  intros Hne Hr. destruct (checkpoint_delete j s) as [[r|e] s'] eqn:E; [|by rewrite (delete_err _ _ _ _ E)].
  unfold checkpoint_delete in E. destruct (Nat.eqb _ _); [done|]. injection E as _ <-. cbn.
  destruct Hr as (Hs & Hf & Hp). split; [done|]. rewrite find_checkpoint_is_Some in *. split.
  - by apply elem_of_filter_ids.
  - cbn. by rewrite lookup_delete_ne.
Qed.

Lemma restorable_create uuid now tier eid id p s :
  default uuid eid <> id -> restorable id p s -> restorable id p (snd (checkpoint_create_with_id uuid now tier eid s)).
Proof.
  intros Hne (Hs & Hf & Hp). unfold restorable, checkpoint_create_with_id. cbn.
  split; [by destruct (ss_position _)|]. split.
  - eapply find_checkpoint_app; [|done]. by destruct (ss_position _).
  - destruct (ss_position _); cbn; [by rewrite lookup_insert_ne|done].
Qed.

Lemma restorable_bookmark uuid now tick name id p s :
  restorable id p s -> restorable id p (snd (checkpoint_bookmark uuid now tick name s)).
Proof.
  intros (Hs & Hf & Hp). split; [done|]. split; [|done]. apply find_checkpoint_is_Some.
  destruct (bookmark_ids uuid now tick name s) as [l ->]. apply elem_of_app. left. by apply find_checkpoint_is_Some.
Qed.

Lemma restorable_exec id p c s : leaves id c = true -> restorable id p s -> restorable id p (exec c s).
Proof.
  intros Hl Hr. pose proof Hr as (Hs & _). destruct c; cbn [exec leaves] in *; unfold when_stopped;
    try match goal with |- context [require_stopped ?m s] =>
          destruct (require_stopped_cases m s) as [[_ ->]|[Hst [e ->]]]; [|done] end;
    try (apply negb_true_iff, bool_decide_eq_false in Hl);
    auto using restorable_delete, restorable_create, restorable_bookmark; try done;
    try (apply (restorable_same id p s); [done..|exact Hr]).
  - unfold initialize. rewrite Hs. done.
  - unfold validate_attach. by rewrite Hs.
  - unfold step. destruct (require_stopped _ s); [by apply (restorable_same id p s)|done].
  - unfold replay. destruct (require_stopped _ s); [|done]. destruct (find_checkpoint _ s); [|done].
    destruct host; by apply (restorable_same id p s).
  - unfold checkpoint_restore. destruct (find_checkpoint _ s); [|done]. by apply (restorable_same id p s).
  - unfold define_view. destruct (require_stopped _ s); [|done]. destruct (blank name); [done|]. by apply (restorable_same id p s).
  - destruct bytes; [|done]. by apply (restorable_same id p s).
Qed.

Lemma restorable_run id p cs s :
  forallb (leaves id) cs = true -> restorable id p s -> restorable id p (foldl (fun s c => exec c s) s cs).
Proof.
  revert s. induction cs as [|c cs IH]; intros s; [done|]. cbn. intros [Hc Hcs]%andb_prop Hr.
  apply IH; [done|]. by apply restorable_exec.
Qed.

Lemma created_restorable uuid now tier eid p s :
  status s = Status_Stopped -> ss_position (s_state s) = Some p ->
  restorable (default uuid eid) p (snd (checkpoint_create_with_id uuid now tier eid s)).
Proof.
  intros Hs Hp. unfold restorable, checkpoint_create_with_id. cbn. rewrite Hp. cbn. split; [done|]. split.
  - apply find_checkpoint_is_Some. cbn. rewrite fmap_app. set_solver.
  - by rewrite lookup_insert_eq.
Qed.

Lemma deleted_not_found id s : find_checkpoint id (snd (checkpoint_delete id s)) = None.
Proof.
  destruct (find_checkpoint id (snd (checkpoint_delete id s))) eqn:E; [|done]. exfalso.
  apply mk_is_Some in E. apply find_checkpoint_is_Some in E.
  assert (H : ss_checkpoints (s_state (snd (checkpoint_delete id s))) =
              List.filter (fun c => negb (bool_decide (cr_checkpoint_id c = id))) (ss_checkpoints (s_state s))).
  { unfold checkpoint_delete. by destruct (Nat.eqb _ _). }
  rewrite H in E. apply list_elem_of_fmap in E as (c0 & Hc & [_ Hb]%list_elem_of_In%filter_In).
  by rewrite bool_decide_eq_true_2 in Hb.
Qed.

(** C8: a checkpoint taken at position [p] can be restored after any number of
    other calls - steps, replays, further checkpoints, restores, bookmarks,
    deletions of other checkpoints - short of deleting or re-creating it or
    detaching the model: restoring answers with exactly [p], moves the session
    to [p] and its tick and changes nothing else.  Once deleted it is reported
    as not found. *)
Theorem checkpoint_restore_roundtrip (before after : list Call) (uuid : string) (now : Z)
    (tier : option CreateCheckpointTier) (explicit_id : option string) (p : TickPosition)
    (Hst : status (run before) = Status_Stopped)
    (Hp : ss_position (s_state (run before)) = Some p)
    (Hl : forallb (leaves (default uuid explicit_id)) after = true) :
  let id := default uuid explicit_id in
  let s := run (before ++ CCreate uuid now tier explicit_id :: after) in
  let s' := set_state (set_position (Some p) (set_tick_id (Some (tp_tick_id p)) (s_state s))) s in
  let sd := snd (checkpoint_delete id s) in
  checkpoint_restore id s = (Ok (checkpoint_response s' (Some id) (Some p)), s') /\
  checkpoint_restore id sd = (Err (checkpoint_not_found_error id sd), sd).
Proof.
  intros id s s' sd.
  assert (Hr : restorable id p s).
  { subst s. unfold run. rewrite foldl_app. cbn [foldl]. apply restorable_run; [done|].
    cbn [exec]. unfold when_stopped. change (foldl _ new before) with (run before).
    destruct (require_stopped_cases "rocket/checkpoint" (run before)) as [[_ ->]|[Hst' _]]; [|done].
    by apply created_restorable. }
  destruct Hr as (_ & [c Hc] & Hpos). unfold checkpoint_restore.
  rewrite Hc, Hpos. split; [done|]. subst sd. by rewrite deleted_not_found.
Qed.

(** ** The checkpoint a backward step starts from *)

Lemma best_before_spec (target : Z) (l : list (string * TickPosition)) (acc : option (string * Z)) :
  let r := foldl (fun best '(id, pos) =>
           if (tp_tick_id pos <? target) && match best with None => true | Some (_, t) => t <? tp_tick_id pos end
           then Some (id, tp_tick_id pos) else best) acc l in
  (forall id t, r = Some (id, t) -> acc = Some (id, t) \/ exists p, (id, p) ∈ l /\ t = tp_tick_id p /\ t < target) /\
  (forall id p, (id, p) ∈ l -> tp_tick_id p < target -> exists j t, r = Some (j, t) /\ tp_tick_id p <= t) /\
  (forall j t, acc = Some (j, t) -> exists j' t', r = Some (j', t') /\ t <= t').
Proof.
  revert acc. induction l as [|[id p] l IH]; intros acc; cbn [foldl].
  - split_and!; [eauto|set_solver|eauto using Z.le_refl].
  - set (acc' := if (tp_tick_id p <? target) && match acc with None => true | Some (_, t) => t <? tp_tick_id p end
      then Some (id, tp_tick_id p) else acc).
    specialize (IH acc'). cbn zeta in *. destruct IH as (IH1 & IH2 & IH3).
    assert (Hacc : forall j t, acc = Some (j, t) -> exists j' t', acc' = Some (j', t') /\ t <= t').
    { intros j t ->. subst acc'. destruct (_ && _) eqn:E; [|eauto using Z.le_refl].
      apply andb_prop in E as [_ E%Z.ltb_lt]. eauto with lia. }
    assert (Hp : tp_tick_id p < target -> exists j t, acc' = Some (j, t) /\ tp_tick_id p <= t).
    { intros H%Z.ltb_lt. subst acc'. rewrite H. cbn [andb]. destruct acc as [[j t]|]; [|eauto using Z.le_refl].
      destruct (t <? tp_tick_id p) eqn:E; [eauto using Z.le_refl|]. apply Z.ltb_ge in E. eauto. }
    split_and!.
    + intros j t Hr. apply IH1 in Hr as [Hr|(q & ? & ?)]; [|right; exists q; set_solver].
      subst acc'. destruct (_ && _) eqn:E; [|by left]. injection Hr as <- <-. right. exists p.
      apply andb_prop in E as [E%Z.ltb_lt _]. set_solver.
    + intros j q [Hq|Hq]%elem_of_cons Hlt; [|eauto]. injection Hq as -> ->.
      destruct (Hp Hlt) as (j' & t & H1 & H2). destruct (IH3 _ _ H1) as (j'' & t' & -> & ?). eauto with lia.
    + intros j t H. destruct (Hacc j t H) as (j' & t' & H1 & H2). destruct (IH3 _ _ H1) as (j'' & t'' & -> & ?). eauto with lia.
Qed.

(** Whatever order the hash map iterates in, [find_checkpoint_before]
    answers with a checkpoint that is listed and restorable, lies strictly
    before the target tick, and is the latest such; it answers none only when
    every recorded position is at or past the target. *)
Theorem find_checkpoint_before_latest (cs : list Call) (order : list (string * TickPosition)) (target : Z)
    (H : order ≡ₚ map_to_list (s_checkpoint_positions (run cs))) :
  let s := run cs in
  match find_checkpoint_before order target with
  | Some id => exists p, s_checkpoint_positions s !! id = Some p /\ is_Some (find_checkpoint id s) /\
      tp_tick_id p < target /\
      forall j q, s_checkpoint_positions s !! j = Some q -> tp_tick_id q < target -> tp_tick_id q <= tp_tick_id p
  | None => forall j q, s_checkpoint_positions s !! j = Some q -> target <= tp_tick_id q
  end.
Proof.
  intros s. unfold find_checkpoint_before, best_before.
  destruct (best_before_spec target order None) as (H1 & H2 & _). cbn zeta in *.
  assert (Hin : forall j q, s_checkpoint_positions s !! j = Some q <-> (j, q) ∈ order).
  { intros j q. by rewrite H, elem_of_map_to_list. }
  destruct (foldl _ None order) as [[id t]|]; cbn.
  - destruct (H1 _ _ eq_refl) as [?|(p & Hp & -> & Hlt)]; [done|]. exists p.
    apply Hin in Hp. split_and!; [done| |done|].
    + by apply (ok_positions s (run_ok cs)).
    + intros j q Hq Hlt'. destruct (H2 j q) as (? & ? & [= <- <-] & ?); [by apply Hin|done|done].
  - intros j q Hq. destruct (decide (tp_tick_id q < target)) as [Hlt|]; [|lia].
    by destruct (H2 j q ltac:(by apply Hin) Hlt) as (? & ? & ? & ?).
Qed.

End SessionInv.

(** ** A concrete session *)

Module Sample.

#[export] Existing Instance json_ref.
#[export] Instance serialize_opaque (T : Type) : Serialize T := fun _ => JStr "opaque".

Definition at_tick (t l : Z) : TickPosition :=
  mkTickPosition t StepDirection_Forward None l "attn.q_proj" TickEvent_Output None Phase_Decode None None.
Definition one_step : StepRequest := mkStepRequest StepDirection_Forward 1 None EnvelopeMode_Full None None.

(** Initialize, attach a two-layer model, step to tick 5. *)
Definition calls : list Call :=
  [CInitialize "u0" (mkInitializeRequest "cli" "0.3.0" None None);
   CAttach "u1" (mkAttachRequest "/m" "llama" "cpu" None 1 None) "llama" 2 4 16;
   CStep one_step (at_tick 5 1) false []].

(** Later: two segments, another checkpoint, a bookmark, a deletion. *)
Definition more : list Call :=
  [CAdvance 3; CStep one_step (at_tick 9 0) false []; CCreate "u3" 0 None None; CBookmark "u4" 0 5 "here";
   CRestore "u3"; CAdvance 7; CDelete "u3"].

End Sample.

Import Sample.

Lemma worldline_is_tree_witness :
  Z.of_nat (List.length (calls ++ more)) <= 2 ^ 32 /\ wl_current_segment (ss_worldline (s_state (run (calls ++ more)))) = 1 /\
  worldline_ok (ss_worldline (s_state (run (calls ++ more)))).
Proof. split; [|split; [reflexivity|apply worldline_is_tree]]; cbn; lia. Defined.

Lemma checkpoint_restore_roundtrip_witness :
  let s := run (calls ++ CCreate "u2" 0 None None :: more) in
  ss_tick_id (s_state s) = Some 9 /\
  exists resp, fst (checkpoint_restore "u2" s) = Ok resp /\
    ss_tick_id (s_state (snd (checkpoint_restore "u2" s))) = Some 5.
Proof.
  split; [vm_compute; reflexivity|].
  destruct (checkpoint_restore_roundtrip calls more "u2" 0 None None (at_tick 5 1)) as [H _];
    [vm_compute; reflexivity..|].
  eexists. change (default "u2"%string None) with "u2"%string in H. rewrite H. split; reflexivity.
Defined.

Lemma find_checkpoint_before_latest_witness :
  let s := run (calls ++ [CCreate "u2" 0 None None; CStep one_step (at_tick 9 0) false []; CCreate "u3" 0 None None]) in
  find_checkpoint_before (map_to_list (s_checkpoint_positions s)) 9 = Some "u2"%string /\
  exists p, s_checkpoint_positions s !! "u2"%string = Some p /\ is_Some (find_checkpoint "u2" s) /\ tp_tick_id p < 9.
Proof.
  intros s. split; [vm_compute; reflexivity|].
  pose proof (find_checkpoint_before_latest
    (calls ++ [CCreate "u2" 0 None None; CStep one_step (at_tick 9 0) false []; CCreate "u3" 0 None None]) _ 9 (reflexivity _)) as H.
  cbn zeta in H. fold s in H.
  replace (find_checkpoint_before _ 9) with (Some "u2"%string) in H by (vm_compute; reflexivity).
  destruct H as (p & ? & ? & ? & _). by exists p.
Defined.
