(* ===== verification/Discover.v ===== *)
(** * Discover: what [rocket/discover] answers

    The matches of a pattern over the probe-point catalog of a reachable
    session, their order, and what the suggestions of an empty answer are
    worth ([Session::discover], [Session::suggest_patterns]). *)

From Stdlib Require Import ZArith Lia Ascii String Sorted.
From stdpp Require Import base gmap strings list sorting sets.
From S2P Require Import Prelude Protocol Messages Json Session SessionInv.
Open Scope Z_scope.

(** The documented order of the matches: by layer, then by name. *)
Definition entry_order (a b : ProbePointEntry) : Prop :=
  pp_layer a < pp_layer b \/ pp_layer a = pp_layer b /\ string_le (pp_canonical a) (pp_canonical b) = true.

#[export] Instance entry_order_trans : Transitive entry_order.
Proof. intros a b c [|[? H1]] [|[? H2]]; unfold entry_order; try (left; lia). right. split; [lia|]. by eapply string_le_trans. Qed.

Lemma entry_le_order a b : if entry_le a b then entry_order a b else entry_order b a.
Proof.
  unfold entry_le, entry_order. destruct (Z.compare_spec (pp_layer a) (pp_layer b)); [|by left|by left].
  destruct (string_le (pp_canonical a) _) eqn:E; right; [done|].
  destruct (string_le_total (pp_canonical a) (pp_canonical b)); [congruence|done].
Qed.

(** ** Patterns *)

(** A segment of a pattern admits a text when it is [*] or that text. *)
Definition admits (seg x : string) : Prop := seg = "*"%string \/ seg = x.

Lemma PatternSeg_admits seg x : PatternSeg_matches (PatternSeg_parse seg) x = true <-> admits seg x.
Proof.
  unfold PatternSeg_parse, admits. case_decide; cbn; [tauto|]. rewrite bool_decide_eq_true. tauto.
Qed.

Lemma DiscoverPattern_parse_Some pattern p :
  DiscoverPattern_parse pattern = Some p <->
  exists f r l c e, pattern_segments pattern = [f; r; l; c; e] /\ Forall (fun s => s <> ""%string) [f; r; l; c; e] /\
    p = mkDiscoverPattern (PatternSeg_parse f) (PatternSeg_parse l) (PatternSeg_parse c) (PatternSeg_parse e).
Proof.
  unfold DiscoverPattern_parse. split.
  - destruct (pattern_segments pattern) as [|f [|r [|l [|c [|e [|]]]]]]; try done.
    destruct (existsb _ _) eqn:E; [done|]. intros [= <-]. do 5 eexists. split; [done|]. split; [|done].
    apply Forall_forall. intros s Hs ->. apply not_true_iff_false in E. apply E, existsb_exists.
    exists ""%string. by rewrite <- list_elem_of_In.
  - intros (f & r & l & c & e & -> & Hne & ->). destruct (existsb _ _) eqn:E; [|done].
    apply existsb_exists in E as (s & Hs%list_elem_of_In & ->%bool_decide_eq_true).
    by apply (proj1 (Forall_forall _ _) Hne) in Hs.
Qed.

(** What a five-segment pattern means for an entry; the rank segment is not
    consulted. *)
Definition selects (pattern : string) (e : ProbePointEntry) : Prop :=
  exists f r l c ev, pattern_segments pattern = [f; r; l; c; ev] /\
    admits f (pp_family e) /\ admits l (to_string (pp_layer e)) /\
    admits c (pp_canonical e) /\ admits ev (pp_event e).

Lemma matches_selects pattern p e :
  DiscoverPattern_parse pattern = Some p -> (DiscoverPattern_matches p e = true <-> selects pattern e).
Proof.
  intros (f & r & l & c & ev & Hs & _ & ->)%DiscoverPattern_parse_Some.
  unfold DiscoverPattern_matches, selects. cbn. rewrite !andb_true_iff, !PatternSeg_admits. split.
  - intros [[[? ?] ?] ?]. by exists f, r, l, c, ev.
  - intros (? & ? & ? & ? & ? & E & ?). rewrite E in Hs. simplify_eq. tauto.
Qed.

(** ** Rebuilding a pattern *)

Definition five (f r l c e : string) : string :=
  (f +:+ ":" +:+ r +:+ ":" +:+ l +:+ ":" +:+ c +:+ ":" +:+ e)%string.

Lemma segments_five f r l c e :
  Forall (fun s => ":"%char ∉ chars s) [f; r; l; c; e] -> pattern_segments (five f r l c e) = [f; r; l; c; e].
Proof.
  intros H. unfold pattern_segments.
  assert (E : chars (five f r l c e) = join_on ":"%char (chars <$> [f; r; l; c; e])).
  { unfold five. rewrite !chars_app. reflexivity. }
  rewrite E, split_join; [cbn; by rewrite !text_chars|done|]. by apply Forall_fmap.
Qed.

Lemma pattern_segments_free pattern : Forall (fun s => ":"%char ∉ chars s) (pattern_segments pattern).
Proof.
  unfold pattern_segments. apply Forall_fmap. eapply Forall_impl; [apply (split_on_segs_free ":"%char)|].
  intros cs H. cbn. by rewrite chars_text.
Qed.

Lemma elem_of_dedup x l : x ∈ dedup l <-> x ∈ l.
Proof.
  induction l as [|y r IH]; [done|]. cbn [dedup]. destruct r as [|z r]; [done|].
  case_decide; [subst; set_solver|]. set_solver.
Qed.

Section Discover.
Context {J : SerdeJson}.
Context `{!Serialize PositionEnvelope, !Serialize StepResponse, !Serialize (ResponseEnvelope StepResponse),
          !Serialize ReplayResponse, !Serialize (ResponseEnvelope ReplayResponse)}.

(** The entries that share family and event (and layer) with a pattern. *)
Definition near (respect_layer : bool) (pattern : string) (e : ProbePointEntry) : Prop :=
  exists f r l c ev, pattern_segments pattern = [f; r; l; c; ev] /\
    admits f (pp_family e) /\ (respect_layer = true -> admits l (to_string (pp_layer e))) /\ admits ev (pp_event e).

Lemma elem_of_collect catalog pattern p respect x f r l c ev :
  pattern_segments pattern = [f; r; l; c; ev] -> DiscoverPattern_parse pattern = Some p ->
  x ∈ collect_canonicals catalog (pattern_segments pattern) p respect <->
  exists e, e ∈ catalog /\ near respect pattern e /\ x = five f r l (pp_canonical e) ev.
Proof.
  intros Hseg (f' & r' & l' & c' & ev' & Hseg' & _ & ->)%DiscoverPattern_parse_Some.
  rewrite Hseg in Hseg'. simplify_eq.
  unfold collect_canonicals. rewrite Hseg. cbn [nth]. rewrite list_elem_of_fmap.
  setoid_rewrite elem_of_dedup. setoid_rewrite sort_by_perm. setoid_rewrite list_elem_of_fmap.
  assert (Hb : forall e, (PatternSeg_matches (PatternSeg_parse f') (pp_family e) &&
      (negb respect || PatternSeg_matches (PatternSeg_parse l') (to_string (pp_layer e))) &&
      PatternSeg_matches (PatternSeg_parse ev') (pp_event e)) = true <-> near respect pattern e).
  { intros e. rewrite !andb_true_iff, orb_true_iff, !PatternSeg_admits, negb_true_iff. unfold near. rewrite Hseg. split.
    - intros [[? Hr] ?]. exists f', r', l', c', ev'. split_and!; try done. intros ->. by destruct Hr.
    - intros (? & ? & ? & ? & ? & [=] & ? & Hr & ?). simplify_eq. split; [split; [done|]|done].
      destruct respect; auto. }
  split.
  - intros (y & -> & e & -> & [Hin Hm]%list_elem_of_In%filter_In). exists e.
    apply Hb in Hm. by rewrite list_elem_of_In.
  - intros (e & Hin & Hn & ->). eexists. split; [done|]. exists e. split; [done|].
    apply list_elem_of_In, filter_In. rewrite <- list_elem_of_In. split; [done|]. by apply Hb.
Qed.

Lemma discover_eq pattern p s :
  status s = Status_Stopped -> DiscoverPattern_parse pattern = Some p ->
  let matches := discover_match <$> sort_by entry_le (List.filter (DiscoverPattern_matches p) (s_catalog s)) in
  discover pattern s = Ok (envelope s (mkDiscoverResponse matches
    (match matches with [] => suggest_patterns pattern p s | _ => [] end))).
Proof.
  intros Hs Hp. unfold discover.
  destruct (require_stopped_cases "rocket/discover" s) as [[_ ->]|[? _]]; [|done]. by rewrite Hp.
Qed.

Lemma elem_of_matches pattern p s e :
  DiscoverPattern_parse pattern = Some p ->
  e ∈ sort_by entry_le (List.filter (DiscoverPattern_matches p) (s_catalog s)) <-> e ∈ s_catalog s /\ selects pattern e.
Proof.
  intros Hp. rewrite sort_by_perm, list_elem_of_In, filter_In, <- list_elem_of_In. by rewrite matches_selects.
Qed.

(** On a stopped session a five-segment pattern is answered with exactly the
    catalog entries it selects - every segment but the rank being [*] or the
    entry's own text - each once per occurrence, ordered by layer and then by
    name; there are suggestions only when nothing matches.  Any other pattern
    is rejected as invalid parameters. *)
Theorem discover_exact (cs : list Call) (pattern : string) (Hst : status (run cs) = Status_Stopped) :
  let s := run cs in
  match DiscoverPattern_parse pattern with
  | None => exists d, discover pattern s = Err (InvalidParams d) /\ ed_error_code d = ErrorCode_InvalidParams
  | Some p => exists es sugg,
      discover pattern s = Ok (envelope s (mkDiscoverResponse (discover_match <$> es) sugg)) /\
      es ≡ₚ List.filter (DiscoverPattern_matches p) (s_catalog s) /\
      (forall e, e ∈ es <-> e ∈ s_catalog s /\ selects pattern e) /\
      StronglySorted entry_order es /\
      (es <> [] -> sugg = [])
  end.
Proof.
  intros s. destruct (DiscoverPattern_parse pattern) as [p|] eqn:Hp.
  - do 2 eexists. split; [by apply (discover_eq _ p)|]. split; [apply sort_by_perm|].
    split; [intros e; by apply elem_of_matches|].
    split; [apply sort_by_sorted; [apply _|apply entry_le_order]|].
    by destruct (sort_by _ _).
  - unfold discover. destruct (require_stopped_cases "rocket/discover" s) as [[_ ->]|[? _]]; [|done].
    rewrite Hp. by eexists.
Qed.

Lemma five_parse pattern f r l c ev name :
  pattern_segments pattern = [f; r; l; c; ev] -> Forall (fun s => s <> ""%string) [f; r; l; c; ev] ->
  name <> ""%string -> ":"%char ∉ chars name ->
  pattern_segments (five f r l name ev) = [f; r; l; name; ev] /\ is_Some (DiscoverPattern_parse (five f r l name ev)).
Proof.
  intros Hseg Hne Hn Hc. pose proof (pattern_segments_free pattern) as Hf. rewrite Hseg in Hf.
  assert (E : pattern_segments (five f r l name ev) = [f; r; l; name; ev]).
  { apply segments_five. rewrite !Forall_cons in *. tauto. }
  split; [done|]. eexists. apply DiscoverPattern_parse_Some. exists f, r, l, name, ev.
  split; [done|]. split; [|done]. rewrite !Forall_cons in *. tauto.
Qed.

(** A suggestion names an entry with the family and event of the pattern, and
    with its layer too as soon as there is one. *)
Lemma suggest_origin pattern p s sugg f r l c ev :
  pattern_segments pattern = [f; r; l; c; ev] -> DiscoverPattern_parse pattern = Some p ->
  sugg ∈ suggest_patterns pattern p s ->
  exists e, e ∈ s_catalog s /\ sugg = five f r l (pp_canonical e) ev /\
    ((exists e0, e0 ∈ s_catalog s /\ near true pattern e0) -> near true pattern e).
Proof.
  intros Hseg Hp Hs. unfold suggest_patterns in Hs.
  destruct (collect_canonicals _ _ p true) as [|x xs] eqn:E.
  - eapply elem_of_collect in Hs as (e & He & Hn & ->); [|done..]. exists e. split_and!; [done..|].
    intros (e0 & He0 & Hn0).
    assert (H : five f r l (pp_canonical e0) ev ∈ collect_canonicals (s_catalog s) (pattern_segments pattern) p true).
    { eapply elem_of_collect; eauto. }
    rewrite E in H. set_solver.
  - rewrite <- E in Hs. eapply elem_of_collect in Hs as (e & He & Hn & ->); [|done..]. by exists e.
Qed.

Lemma selects_five pattern f r l c ev name e :
  pattern_segments pattern = [f; r; l; c; ev] -> pattern_segments (five f r l name ev) = [f; r; l; name; ev] ->
  (selects (five f r l name ev) e <-> near true pattern e /\ admits name (pp_canonical e)).
Proof.
  intros H1 H2. unfold selects, near. rewrite H1, H2. split.
  - intros (? & ? & ? & ? & ? & [= <- <- <- <- <-] & ? & ? & ? & ?). split; [|done]. exists f, r, l, c, ev. tauto.
  - intros [(? & ? & ? & ? & ? & [= <- <- <- <- <-] & ? & ? & ?) ?]. exists f, r, l, name, ev. tauto.
Qed.

(** When a pattern matches nothing, each suggestion is itself a pattern the
    session accepts, and submitting it finds something exactly when some
    catalog entry shares the family, layer and event of the original pattern.
    So every suggestion is useful for a mistyped component - and none is when
    the layer does not exist, because the suggestion keeps the bad layer. *)
Theorem discover_suggestions (cs : list Call) (pattern : string) (r : DiscoverResponse) (sugg : string)
    (Hst : status (run cs) = Status_Stopped)
    (Hd : discover pattern (run cs) = Ok (envelope (run cs) r))
    (Hin : sugg ∈ DiscoverResponse_suggestions r) :
  let s := run cs in
  exists r', discover sugg s = Ok (envelope s r') /\
    (DiscoverResponse_matches r' <> [] <-> exists e, e ∈ s_catalog s /\ near true pattern e).
Proof.
  intros s. destruct (DiscoverPattern_parse pattern) as [p|] eqn:Hp; cycle 1.
  { unfold discover in Hd. rewrite Hp in Hd. by destruct (require_stopped _ _). }
  rewrite (discover_eq _ p _ Hst Hp) in Hd. apply (f_equal (fun x => match x with Ok e => env_data _ e | _ => None end)) in Hd.
  cbn in Hd. injection Hd as <-. cbn in Hin.
  assert (Hs : sugg ∈ suggest_patterns pattern p s) by (destruct (_ <$> _); [done|set_solver]). clear Hin.
  pose proof Hp as (f & r' & l & c & ev & Hseg & Hne & _)%DiscoverPattern_parse_Some.
  destruct (suggest_origin _ _ _ _ _ _ _ _ _ Hseg Hp Hs) as (e & He & -> & Hnear).
  pose proof (ok_catalog s (run_ok cs)) as Hcat. destruct (proj1 (Forall_forall _ _) Hcat e He) as [Hn1 Hn2].
  destruct (five_parse _ _ _ _ _ _ _ Hseg Hne Hn1 Hn2) as [Hseg' [p' Hp']].
  pose proof (fun e => elem_of_matches _ p' s e Hp') as Hm.
  eexists. split; [by apply (discover_eq _ p')|]. cbn [DiscoverResponse_matches].
  destruct (sort_by _ _) as [|e1 es]; cbn; split; try done.
  - intros Hex. specialize (Hnear Hex). exfalso. apply (not_elem_of_nil e), Hm. split; [done|].
    apply (selects_five pattern _ _ _ c); [done..|]. split; [done|by right].
  - intros _. exists e1. destruct (proj1 (Hm e1)) as [Hc1 Hsel]; [set_solver|]. split; [done|].
    by apply (selects_five pattern _ _ _ c) in Hsel as [? _].
Qed.

End Discover.

Import Sample.

Lemma discover_exact_witness :
  status (run calls) = Status_Stopped /\
  exists es sugg, discover "llama:*:1:mlp:*" (run calls) = Ok (envelope (run calls) (mkDiscoverResponse (discover_match <$> es) sugg)) /\
    es <> [] /\ StronglySorted entry_order es.
Proof.
  assert (H : status (run calls) = Status_Stopped) by (vm_compute; reflexivity). split; [exact H|].
  pose proof (discover_exact calls "llama:*:1:mlp:*" H) as Hd. cbn zeta in Hd.
  destruct (DiscoverPattern_parse "llama:*:1:mlp:*") as [p|] eqn:E; [|vm_compute in E; discriminate].
  destruct Hd as (es & sugg & H1 & H2 & _ & H3 & _). exists es, sugg. split; [exact H1|]. split; [|exact H3].
  intros ->. apply Permutation_nil in H2. vm_compute in E. injection E as <-. vm_compute in H2. discriminate.
Defined.

Definition seven (layer : string) : DiscoverResponse := mkDiscoverResponse []
  ((fun c => five "llama" "*" layer c "output") <$>
     ["attn.k_proj"; "attn.o_proj"; "attn.q_proj"; "attn.scores"; "attn.v_proj"; "mlp"; "residual_post"]%string).

(** A mistyped component on an existing layer gets seven suggestions, and each
    of them matches. *)
Lemma discover_suggestions_witness :
  discover "llama:*:1:attn.qproj:output" (run calls) = Ok (envelope (run calls) (seven "1")) /\
  exists r', discover "llama:*:1:attn.q_proj:output" (run calls) = Ok (envelope (run calls) r') /\
    DiscoverResponse_matches r' <> [].
Proof.
  assert (Hst : status (run calls) = Status_Stopped) by (vm_compute; reflexivity).
  assert (Hd : discover "llama:*:1:attn.qproj:output" (run calls) = Ok (envelope (run calls) (seven "1")))
    by (vm_compute; reflexivity).
  split; [exact Hd|].
  destruct (discover_suggestions calls _ _ "llama:*:1:attn.q_proj:output" Hst Hd) as (r' & Hr & Hm).
  { apply list_elem_of_In. vm_compute. tauto. }
  exists r'. split; [exact Hr|]. apply Hm.
  exists (mkProbePointEntry "llama" 1 "mlp" "output" [1; 16] ["blocks.1.hook_mlp_out"%string]). split.
  - apply list_elem_of_In. vm_compute. tauto.
  - exists "llama"%string, "*"%string, "1"%string, "attn.qproj"%string, "output"%string.
    split; [vm_compute; reflexivity|]. split; [by right|]. split; [|by right]. intros _. right. vm_compute. reflexivity.
Defined.
