(* ===== verification/Kv.v ===== *)
(** * Kv: the worker's KV-cache bookkeeping

    [crates/rocket-surgeon-worker/src/kv.rs]: which token positions are evicted
    and which are pinned, reads over (layer, position, head) and the
    interventions that change the bookkeeping.  The norms are the documented
    deterministic function of the coordinates. *)

From Stdlib Require Import ZArith Lia Ascii String SpecFloat.
From stdpp Require Import base gmap strings list fin_maps sets.
From S2P Require Import Prelude Protocol Messages.
Open Scope Z_scope.

Definition DEFAULT_LAYERS : Z := 4.
Definition DEFAULT_HEADS : Z := 4.
Definition DEFAULT_POSITIONS : Z := 8.

Record KvCacheState := mkKvCacheState {
  evicted : gmap Z Z;
  pinned : gset Z
}.

Definition new : KvCacheState := mkKvCacheState ∅ ∅.

(** [evict]: whether the position was newly evicted, and the state after. *)
Definition evict (position tick : Z) (c : KvCacheState) : bool * KvCacheState :=
  if bool_decide (position ∈ pinned c) then (false, c)
  else (match evicted c !! position with None => true | Some _ => false end,
        mkKvCacheState (<[position := tick]> (evicted c)) (pinned c)).

Definition pin (position : Z) (c : KvCacheState) : KvCacheState :=
  mkKvCacheState (delete position (evicted c)) ({[position]} ∪ pinned c).

Definition is_evicted (position : Z) (c : KvCacheState) : bool :=
  match evicted c !! position with Some _ => true | None => false end.
Definition evicted_at (position : Z) (c : KvCacheState) : option Z := evicted c !! position.
Definition reset (c : KvCacheState) : KvCacheState := new.

Definition kv_metric (metric : KvMetric) (layer position head : Z) (is_key : bool) : f64 :=
  let salt := u64_add (u64_add (u64_add (u64_mul layer 31) (u64_mul position 17)) (u64_mul head 7))
                (if is_key then 1 else 0) in
  (* [f64::from((salt % 99) as u32) / 10.0 + 0.1] *)
  let base := f64_add (f64_div (f64_of_Z (salt mod 99)) (f64_of_Z 10)) (f64_div (f64_of_Z 1) (f64_of_Z 10)) in
  match metric with
  | KvMetric_L2Norm => base
  | KvMetric_Mean => f64_div base (f64_of_Z 4)
  | KvMetric_AbsMax => f64_mul base (f64_div (f64_of_Z 3) (f64_of_Z 2))
  end.

Definition resolve_dims (layers positions heads : option (list Z)) : list Z * list Z * list Z :=
  (default (seqZ 0 DEFAULT_LAYERS) layers, default (seqZ 0 DEFAULT_POSITIONS) positions, default (seqZ 0 DEFAULT_HEADS) heads).

Definition want_k (slot : KvSlot) : bool := match slot with KvSlot_K | KvSlot_Both => true | KvSlot_V => false end.
Definition want_v (slot : KvSlot) : bool := match slot with KvSlot_V | KvSlot_Both => true | KvSlot_K => false end.

Definition kv_entry (req : HostKvReadRequest) (c : KvCacheState) (layer position head : Z) : KvCacheEntry :=
  let m := HostKvReadRequest_metric req in
  if is_evicted position c
  then mkKvCacheEntry layer position head None None (Some KvOverlay_Evicted)
  else mkKvCacheEntry layer position head
         (if want_k (HostKvReadRequest_slot req) then Some (kv_metric m layer position head true) else None)
         (if want_v (HostKvReadRequest_slot req) then Some (kv_metric m layer position head false) else None)
         None.

Definition read (req : HostKvReadRequest) (c : KvCacheState) : HostKvReadResponse :=
  let '(layers, positions, heads) :=
    resolve_dims (HostKvReadRequest_layers req) (HostKvReadRequest_positions req) (HostKvReadRequest_heads req) in
  let evicted_info := omap (fun position => mkKvEvictionInfo position <$> evicted_at position c) positions in
  let entries := layer ← layers; position ← positions; kv_entry req c layer position <$> heads in
  mkHostKvReadResponse entries evicted_info.

(** The loop of [KvInterveneOp::Evict]: how many positions were newly evicted. *)
Definition evict_all (positions : list Z) (tick : Z) (c : KvCacheState) : Z * KvCacheState :=
  foldl (fun '(n, c) pos => let '(fresh, c) := evict pos tick c in ((if fresh then u64_add n 1 else n), c)) (0, c) positions.

Definition pin_all (positions : list Z) (c : KvCacheState) : KvCacheState := foldl (fun c pos => pin pos c) c positions.

Definition slot_factor (slot : KvSlot) : Z := match slot with KvSlot_Both => 2 | KvSlot_K | KvSlot_V => 1 end.

Definition intervene (req : HostKvInterveneRequest) (c : KvCacheState) (current_tick : Z) : HostKvInterveneResponse * KvCacheState :=
  let heads := default (seqZ 0 DEFAULT_HEADS) (HostKvInterveneRequest_heads req) in
  let head_count := Z.max (Z.of_nat (List.length heads)) 1 in
  let positions := HostKvInterveneRequest_positions req in
  let n := Z.of_nat (List.length positions) in
  let '(applied_op, touched, c) :=
    match HostKvInterveneRequest_operation req with
    | KvInterveneOp_Evict => let '(k, c) := evict_all positions current_tick c in ("evict"%string, k, c)
    | KvInterveneOp_Pin => ("pin"%string, n, pin_all positions c)
    | KvInterveneOp_Zero => ("zero"%string, n, c)
    | KvInterveneOp_Scale _ => ("scale"%string, n, c)
    end in
  let layers := Z.max (Z.of_nat (List.length (HostKvInterveneRequest_layers req))) 1 in
  (mkHostKvInterveneResponse
     (u64_mul (u64_mul (u64_mul touched layers) head_count) (slot_factor (HostKvInterveneRequest_slot req))) applied_op, c).

(** ** Specification: one small state machine per token position *)

Inductive slot_state := Live | EvictedAt (tick : Z) | Pinned.

Definition view (c : KvCacheState) (pos : Z) : slot_state :=
  if bool_decide (pos ∈ pinned c) then Pinned
  else match evicted c !! pos with Some t => EvictedAt t | None => Live end.

Definition spec_evict (tick : Z) (st : slot_state) : slot_state :=
  match st with Pinned => Pinned | _ => EvictedAt tick end.

Definition spec_op (op : KvInterveneOp) (tick : Z) (st : slot_state) : slot_state :=
  match op with
  | KvInterveneOp_Evict => spec_evict tick st
  | KvInterveneOp_Pin => Pinned
  | _ => st
  end.

(** The calls of the worker: an intervention at a tick, or attach / detach. *)
Inductive kv_call := CIntervene (req : HostKvInterveneRequest) (tick : Z) | CReset.

Definition kv_exec (c : KvCacheState) (call : kv_call) : KvCacheState :=
  match call with CIntervene req tick => snd (intervene req c tick) | CReset => reset c end.

Definition spec_exec (v : Z -> slot_state) (call : kv_call) : Z -> slot_state :=
  match call with
  | CIntervene req tick => fun pos =>
      if bool_decide (pos ∈ HostKvInterveneRequest_positions req)
      then spec_op (HostKvInterveneRequest_operation req) tick (v pos) else v pos
  | CReset => fun _ => Live
  end.

Definition kv_run (cs : list kv_call) : KvCacheState := foldl kv_exec new cs.
Definition spec_run (cs : list kv_call) : Z -> slot_state := foldl spec_exec (fun _ => Live) cs.

(** Slots reported as modified: the distinct live positions for an eviction, the
    listed positions otherwise, times layers, heads and slots. *)
Definition is_live (st : slot_state) : bool := match st with Live => true | _ => false end.

Definition spec_touched (op : KvInterveneOp) (positions : list Z) (v : Z -> slot_state) : nat :=
  match op with
  | KvInterveneOp_Evict => List.length (List.filter (fun pos => is_live (v pos)) (remove_dups positions))
  | _ => List.length positions
  end.

Definition spec_slots (req : HostKvInterveneRequest) (v : Z -> slot_state) : Z :=
  Z.of_nat (spec_touched (HostKvInterveneRequest_operation req) (HostKvInterveneRequest_positions req) v) *
  Z.max (Z.of_nat (List.length (HostKvInterveneRequest_layers req))) 1 *
  match HostKvInterveneRequest_heads req with Some hs => Z.max (Z.of_nat (List.length hs)) 1 | None => 4 end *
  slot_factor (HostKvInterveneRequest_slot req).

Definition implements (c : KvCacheState) (v : Z -> slot_state) : Prop :=
  (forall pos, view c pos = v pos) /\ (forall pos, pos ∈ pinned c -> evicted c !! pos = None).

Lemma view_evicted c v pos : implements c v ->
  evicted c !! pos = match v pos with EvictedAt t => Some t | _ => None end.
Proof.
  intros [Hv Hp]. rewrite <- Hv. unfold view. case_bool_decide as H; [by apply Hp|]. by destruct (evicted c !! pos).
Qed.

Lemma evict_implements c v pos tick : implements c v ->
  fst (evict pos tick c) = is_live (v pos) /\
  implements (snd (evict pos tick c)) (fun q => if bool_decide (q = pos) then spec_evict tick (v q) else v q).
Proof.
  intros Hi. pose proof (view_evicted c v pos Hi) as He. destruct Hi as [Hv Hp]. unfold evict.
  pose proof (Hv pos) as Hvp. unfold view in Hvp. case_bool_decide as H; cbn.
  - rewrite <- Hvp. split; [done|]. split; [|done]. intros q. rewrite Hv. case_bool_decide; [subst|done]. by rewrite <- Hvp.
  - split; [rewrite He; rewrite <- Hvp; by destruct (evicted c !! pos)|]. split; cbn.
    + intros q. unfold view. cbn. destruct (decide (q = pos)) as [->|Hne].
      * rewrite (bool_decide_eq_true_2 (pos = pos)), bool_decide_eq_false_2, lookup_insert_eq by done. rewrite <- Hvp. by destruct (evicted c !! pos).
      * rewrite (bool_decide_eq_false_2 (q = pos)), lookup_insert_ne by done. apply Hv.
    + intros q Hq. rewrite lookup_insert_ne by (intros ->; done). by apply Hp.
Qed.

Lemma pin_implements c v pos : implements c v ->
  implements (pin pos c) (fun q => if bool_decide (q = pos) then Pinned else v q).
Proof.
  intros [Hv Hp]. split; cbn.
  - intros q. unfold view. cbn. destruct (decide (q = pos)) as [->|Hne].
    + rewrite !bool_decide_eq_true_2 by set_solver. done.
    + rewrite (bool_decide_eq_false_2 (q = pos)), lookup_delete_ne by done.
      rewrite (bool_decide_ext _ (q ∈ pinned c)) by set_solver. apply Hv.
  - intros q Hq. destruct (decide (q = pos)) as [->|Hne]; [by rewrite lookup_delete_eq|].
    rewrite lookup_delete_ne by done. apply Hp. set_solver.
Qed.

Lemma implements_ext c v v' : (forall q, v q = v' q) -> implements c v -> implements c v'.
Proof. intros H [Hv Hp]. split; [|done]. intros q. by rewrite <- H. Qed.

(** ** Counting fresh evictions *)

Definition live_count (positions : list Z) (v : Z -> slot_state) : nat :=
  List.length (List.filter (fun pos => is_live (v pos)) (remove_dups positions)).

Definition evicting (pos tick : Z) (v : Z -> slot_state) (q : Z) : slot_state :=
  if bool_decide (q = pos) then spec_evict tick (v q) else v q.

Lemma is_live_evicting pos tick v q : is_live (evicting pos tick v q) = negb (bool_decide (q = pos)) && is_live (v q).
Proof. unfold evicting. case_bool_decide; [|done]. by destruct (v q). Qed.

Lemma count_out pos tick v l : pos ∉ l ->
  List.filter (fun q => is_live (evicting pos tick v q)) l = List.filter (fun q => is_live (v q)) l.
Proof.
  intros H. apply List.filter_ext_in. intros q Hq%list_elem_of_In. rewrite is_live_evicting.
  rewrite bool_decide_eq_false_2; [done|]. by intros ->.
Qed.

Lemma count_in pos tick v l : NoDup l -> pos ∈ l ->
  List.length (List.filter (fun q => is_live (v q)) l) =
  ((if is_live (v pos) then 1 else 0) + List.length (List.filter (fun q => is_live (evicting pos tick v q)) l))%nat.
Proof.
  induction 1 as [|q l Hq Hnd IH]; [set_solver|]. intros Hin. cbn. rewrite is_live_evicting.
  destruct (decide (q = pos)) as [->|Hne].
  - rewrite bool_decide_eq_true_2 by done. cbn. rewrite count_out by done. by destruct (is_live (v pos)).
  - rewrite bool_decide_eq_false_2 by done. cbn. specialize (IH ltac:(set_solver)). destruct (is_live (v q)); cbn; lia.
Qed.

Lemma live_count_cons pos tick v r :
  live_count (pos :: r) v = ((if is_live (v pos) then 1 else 0) + live_count r (evicting pos tick v))%nat.
Proof.
  unfold live_count. cbn [remove_dups]. destruct (decide_rel _ pos r) as [Hin|Hout].
  - apply count_in; [apply NoDup_remove_dups|by apply elem_of_remove_dups].
  - cbn. rewrite count_out by (by rewrite elem_of_remove_dups). by destruct (is_live (v pos)).
Qed.

Lemma live_count_bound positions v : (live_count positions v <= List.length positions)%nat.
Proof.
  unfold live_count. etrans; [apply List.filter_length_le|]. induction positions as [|q l IH]; cbn; [done|].
  case_decide; cbn; lia.
Qed.

Lemma evict_all_gen positions tick c v n0 :
  implements c v -> 0 <= n0 -> n0 + Z.of_nat (List.length positions) <= U64_MAX ->
  let r := foldl (fun '(n, c) pos => let '(fresh, c) := evict pos tick c in ((if fresh then u64_add n 1 else n), c)) (n0, c) positions in
  fst r = n0 + Z.of_nat (live_count positions v) /\
  implements (snd r) (fun q => if bool_decide (q ∈ positions) then spec_evict tick (v q) else v q).
Proof.
  revert c v n0. induction positions as [|pos r IH]; intros c v n0 Hi H0 Hn; cbn [foldl].
  - split; [cbn; lia|]. eapply implements_ext; [|exact Hi]. intros q. by rewrite bool_decide_eq_false_2 by set_solver.
  - destruct (evict_implements c v pos tick Hi) as [Hf Hi']. destruct (evict pos tick c) as [fresh c'] eqn:E. cbn in Hf, Hi'.
    cbn [List.length] in Hn. subst fresh.
    assert (Hstep : (if is_live (v pos) then u64_add n0 1 else n0) = n0 + (if is_live (v pos) then 1 else 0)).
    { destruct (is_live (v pos)); [|lia]. rewrite u64_add_small; lia. }
    rewrite Hstep. destruct (IH c' (evicting pos tick v) (n0 + if is_live (v pos) then 1 else 0)) as [IH1 IH2].
    { exact Hi'. } { destruct (is_live (v pos)); lia. } { destruct (is_live (v pos)); lia. }
    split; [rewrite IH1, (live_count_cons pos tick); destruct (is_live (v pos)); lia|].
    eapply implements_ext; [|exact IH2]. intros q. cbn. unfold evicting.
    destruct (decide (q = pos)) as [->|Hne].
    + rewrite !(bool_decide_eq_true_2 (pos ∈ pos :: r)), (bool_decide_eq_true_2 (pos = pos)) by set_solver.
      case_bool_decide; [|done]. by destruct (v pos).
    + rewrite (bool_decide_eq_false_2 (q = pos)) by done. rewrite (bool_decide_ext (q ∈ pos :: r) (q ∈ r)) by set_solver. done.
Qed.

Lemma pin_all_implements positions c v : implements c v ->
  implements (pin_all positions c) (fun q => if bool_decide (q ∈ positions) then Pinned else v q).
Proof.
  unfold pin_all. revert c v. induction positions as [|pos r IH]; intros c v Hi; cbn [foldl].
  - eapply implements_ext; [|exact Hi]. intros q. by rewrite bool_decide_eq_false_2 by set_solver.
  - eapply implements_ext; [|apply IH, pin_implements, Hi]. intros q. cbn.
    destruct (decide (q = pos)) as [->|Hne].
    + rewrite !(bool_decide_eq_true_2 (pos ∈ pos :: r)), (bool_decide_eq_true_2 (pos = pos)) by set_solver. by case_bool_decide.
    + rewrite (bool_decide_eq_false_2 (q = pos)) by done. rewrite (bool_decide_ext (q ∈ pos :: r) (q ∈ r)) by set_solver. done.
Qed.

(** Machine-sized requests: the product of the counts fits in 64 bits. *)
Definition fits_u64 (req : HostKvInterveneRequest) : Prop :=
  Z.of_nat (List.length (HostKvInterveneRequest_positions req)) *
  Z.max (Z.of_nat (List.length (HostKvInterveneRequest_layers req))) 1 *
  match HostKvInterveneRequest_heads req with Some hs => Z.max (Z.of_nat (List.length hs)) 1 | None => 4 end *
  slot_factor (HostKvInterveneRequest_slot req) <= U64_MAX.

Lemma u64_mul_small a b : 0 <= a -> 0 <= b -> a * b <= U64_MAX -> u64_mul a b = a * b.
Proof. intros. unfold_int. rewrite Z.mod_small; nia. Qed.

Lemma le_mul_grow a b : 0 <= a -> 1 <= b -> a <= a * b.
Proof. nia. Qed.

Lemma product_small t l h f :
  0 <= t -> 1 <= l -> 1 <= h -> 1 <= f -> t * l * h * f <= U64_MAX ->
  u64_mul (u64_mul (u64_mul t l) h) f = t * l * h * f.
Proof.
  intros. assert (0 <= t * l) by nia. assert (0 <= t * l * h) by nia.
  assert (t * l <= t * l * h) by nia. assert (t * l * h <= t * l * h * f) by nia.
  rewrite (u64_mul_small t l), (u64_mul_small (t * l) h), (u64_mul_small (t * l * h) f) by lia. done.
Qed.

Lemma intervene_implements req tick c v : implements c v -> fits_u64 req ->
  HostKvInterveneResponse_slots_modified (fst (intervene req c tick)) = spec_slots req v /\
  implements (snd (intervene req c tick)) (spec_exec v (CIntervene req tick)).
Proof.
  intros Hi Hf. unfold fits_u64 in Hf. unfold intervene.
  set (l := Z.max (Z.of_nat (List.length (HostKvInterveneRequest_layers req))) 1) in *.
  set (h := match HostKvInterveneRequest_heads req with Some hs => Z.max (Z.of_nat (List.length hs)) 1 | None => 4 end) in *.
  assert (Eh : Z.max (Z.of_nat (List.length (default (seqZ 0 DEFAULT_HEADS) (HostKvInterveneRequest_heads req)))) 1 = h).
  { subst h. by destruct (HostKvInterveneRequest_heads req). }
  rewrite Eh. assert (1 <= l) by lia. assert (1 <= h) by (subst h; destruct (HostKvInterveneRequest_heads req); lia).
  assert (Hsf : 1 <= slot_factor (HostKvInterveneRequest_slot req)) by (destruct (HostKvInterveneRequest_slot req); cbn; lia).
  set (ps := HostKvInterveneRequest_positions req) in *.
  assert (Hn : Z.of_nat (List.length ps) <= U64_MAX).
  { etrans; [|exact Hf]. rewrite <- !Z.mul_assoc. apply le_mul_grow; [lia|]. assert (1 <= h * slot_factor (HostKvInterveneRequest_slot req)) by nia. nia. }
  assert (Hmul : forall t, 0 <= t <= Z.of_nat (List.length ps) ->
     u64_mul (u64_mul (u64_mul t l) h) (slot_factor (HostKvInterveneRequest_slot req)) = t * l * h * slot_factor (HostKvInterveneRequest_slot req)).
  { intros t Ht. apply product_small; try lia. etrans; [|exact Hf]. repeat apply Z.mul_le_mono_nonneg_r; lia. }
  unfold spec_slots, spec_touched. fold l h ps.
  destruct (HostKvInterveneRequest_operation req) eqn:Eop; cbn [fst snd HostKvInterveneResponse_slots_modified].
  - split; [apply Hmul; split; [apply Nat2Z.is_nonneg|reflexivity]|]. eapply implements_ext; [|exact Hi]. intros q. cbn. rewrite Eop. by case_bool_decide.
  - split; [apply Hmul; split; [apply Nat2Z.is_nonneg|reflexivity]|]. eapply implements_ext; [|exact Hi]. intros q. cbn. rewrite Eop. by case_bool_decide.
  - destruct (evict_all_gen ps tick c v 0 Hi ltac:(lia) ltac:(lia)) as [H1 H2]. unfold evict_all.
    destruct (foldl _ (0, c) ps) as [k c'] eqn:E. cbn [fst snd HostKvInterveneResponse_slots_modified] in H1, H2 |- *. pose proof (live_count_bound ps v).
    rewrite Z.add_0_l in H1. subst k. split; [apply (Hmul (Z.of_nat (live_count ps v))); lia|]. eapply implements_ext; [|exact H2]. intros q. cbn. by rewrite Eop.
  - split; [apply Hmul; split; [apply Nat2Z.is_nonneg|reflexivity]|]. eapply implements_ext; [|apply pin_all_implements, Hi]. intros q. cbn. rewrite Eop. done.
Qed.

(** ** Reads *)

(** What a read shows of a position. *)
Definition spec_entry (req : HostKvReadRequest) (v : Z -> slot_state) (layer position head : Z) : KvCacheEntry :=
  let metric key := kv_metric (HostKvReadRequest_metric req) layer position head key in
  match v position, HostKvReadRequest_slot req with
  | EvictedAt _, _ => mkKvCacheEntry layer position head None None (Some KvOverlay_Evicted)
  | _, KvSlot_K => mkKvCacheEntry layer position head (Some (metric true)) None None
  | _, KvSlot_V => mkKvCacheEntry layer position head None (Some (metric false)) None
  | _, KvSlot_Both => mkKvCacheEntry layer position head (Some (metric true)) (Some (metric false)) None
  end.

Definition spec_read (req : HostKvReadRequest) (v : Z -> slot_state) (r : HostKvReadResponse) : Prop :=
  let layers := default [0; 1; 2; 3] (HostKvReadRequest_layers req) in
  let positions := default [0; 1; 2; 3; 4; 5; 6; 7] (HostKvReadRequest_positions req) in
  let heads := default [0; 1; 2; 3] (HostKvReadRequest_heads req) in
  let H := List.length heads in
  let P := List.length positions in
  List.length (HostKvReadResponse_entries r) = (List.length layers * (P * H))%nat /\
  (* row-major: layer, then position, then head *)
  (forall i j k l p h, layers !! i = Some l -> positions !! j = Some p -> heads !! k = Some h ->
     HostKvReadResponse_entries r !! (i * (P * H) + (j * H + k))%nat = Some (spec_entry req v l p h)) /\
  HostKvReadResponse_evicted r =
    omap (fun p => match v p with EvictedAt t => Some (mkKvEvictionInfo p t) | _ => None end) positions.

Lemma lookup_bind_uniform {A B} (f : A -> list B) (n : nat) l i j x :
  (forall a, List.length (f a) = n) -> (j < n)%nat -> l !! i = Some x -> (l ≫= f) !! (i * n + j)%nat = f x !! j.
Proof.
  intros Hf Hj. revert i. induction l as [|a l IH]; intros [|i]; try done; rewrite bind_cons.
  - intros [= ->]. apply lookup_app_l. by rewrite Hf.
  - intros Hl. rewrite lookup_app_r by (rewrite Hf; lia). rewrite Hf, <- (IH i Hl). f_equal. lia.
Qed.

Lemma length_bind_uniform {A B} (f : A -> list B) (n : nat) l :
  (forall a, List.length (f a) = n) -> List.length (l ≫= f) = (List.length l * n)%nat.
Proof. intros Hf. induction l as [|a l IH]; [done|]. rewrite bind_cons, length_app, Hf, IH. cbn. lia. Qed.

Lemma kv_entry_spec req c v l p h : implements c v -> kv_entry req c l p h = spec_entry req v l p h.
Proof.
  intros Hi. unfold kv_entry, spec_entry, is_evicted. rewrite (view_evicted c v p Hi).
  destruct (v p); cbn; by destruct (HostKvReadRequest_slot req).
Qed.

Lemma read_implements req c v : implements c v -> spec_read req v (read req c).
Proof.
  intros Hi. unfold spec_read, read, resolve_dims.
  change (seqZ 0 DEFAULT_LAYERS) with [0; 1; 2; 3]. change (seqZ 0 DEFAULT_HEADS) with [0; 1; 2; 3].
  change (seqZ 0 DEFAULT_POSITIONS) with [0; 1; 2; 3; 4; 5; 6; 7]. cbn [HostKvReadResponse_entries HostKvReadResponse_evicted].
  set (ls := default _ (HostKvReadRequest_layers req)). set (ps := default _ (HostKvReadRequest_positions req)).
  set (hs := default _ (HostKvReadRequest_heads req)).
  assert (Hrow : forall l p, List.length (kv_entry req c l p <$> hs) = List.length hs) by (intros; apply length_fmap).
  assert (Hplane : forall l, List.length (ps ≫= fun p => kv_entry req c l p <$> hs) = (List.length ps * List.length hs)%nat).
  { intros l. by apply length_bind_uniform. }
  split_and!.
  - by apply length_bind_uniform.
  - intros i j k l p h Hl Hp Hh. pose proof (lookup_lt_Some _ _ _ Hp). pose proof (lookup_lt_Some _ _ _ Hh).
    rewrite (lookup_bind_uniform _ (List.length ps * List.length hs)%nat _ _ _ l); [|done|nia|done].
    rewrite (lookup_bind_uniform _ (List.length hs) _ _ _ p); [|done|lia|done].
    rewrite list_lookup_fmap, Hh. cbn. f_equal. by apply kv_entry_spec.
  - clearbody ps. clear Hplane. induction ps as [|p ps IH]; [done|]. cbn. unfold evicted_at at 1.
    rewrite (view_evicted c v p Hi), IH. by destruct (v p).
Qed.

Lemma kv_run_implements cs :
  Forall (fun call => match call with CIntervene req _ => fits_u64 req | CReset => True end) cs ->
  implements (kv_run cs) (spec_run cs).
Proof.
  intros Hf. induction cs as [|call cs IH] using rev_ind.
  - split; [intros pos; reflexivity|]. intros pos H. set_solver.
  - apply Forall_app in Hf as [Hf Hc]. specialize (IH Hf).
    unfold kv_run, spec_run. rewrite !foldl_app. cbn [foldl]. fold (kv_run cs) (spec_run cs).
    destruct call as [req tick|]; cbn [kv_exec].
    + apply intervene_implements; [done|]. by inversion Hc.
    + split; [intros pos; reflexivity|]. intros pos H. set_solver.
Qed.

(** C31: after any history of interventions and resets, each intervention over
    fewer than 2^64 slots, every token position
    behaves like its own small machine - live, evicted at the tick of the last
    eviction, or pinned for good - whatever the other positions do.  A read
    returns one entry per (layer, position, head) in row-major order, marked
    evicted exactly for the evicted positions, which it also lists with their
    ticks; an eviction reports as modified only positions that were live, each
    once however often it is named. *)
Theorem kv_refines_positions (cs : list kv_call)
    (H : Forall (fun call => match call with CIntervene req _ => fits_u64 req | CReset => True end) cs) :
  (forall pos, view (kv_run cs) pos = spec_run cs pos) /\
  (forall req, spec_read req (spec_run cs) (read req (kv_run cs))) /\
  (forall req tick, fits_u64 req ->
     HostKvInterveneResponse_slots_modified (fst (intervene req (kv_run cs) tick)) = spec_slots req (spec_run cs)).
Proof.
  pose proof (kv_run_implements cs H) as Hi. split_and!.
  - apply Hi.
  - intros req. by apply read_implements.
  - intros req tick Hf. apply (proj1 (intervene_implements req tick _ _ Hi Hf)).
Qed.

Definition demo_req (op : KvInterveneOp) (ps : list Z) : HostKvInterveneRequest :=
  mkHostKvInterveneRequest 1 [0; 1] ps None KvSlot_Both op.

(** Pin 3, then evict 2, 3 and 2: position 3 stays pinned, position 2 is evicted
    at tick 4.  Evicting 5, 2, 5 and 3 then modifies 1 * 2 * 4 * 2 slots. *)
Lemma kv_refines_positions_witness :
  let cs := [CIntervene (demo_req KvInterveneOp_Pin [3]) 1; CIntervene (demo_req KvInterveneOp_Evict [2; 3; 2]) 4] in
  view (kv_run cs) 3 = Pinned /\ view (kv_run cs) 2 = EvictedAt 4 /\
  HostKvInterveneResponse_slots_modified (fst (intervene (demo_req KvInterveneOp_Evict [5; 2; 5; 3]) (kv_run cs) 9)) = 16.
Proof.
  intros cs.
  assert (H : Forall (fun call => match call with CIntervene req _ => fits_u64 req | CReset => True end) cs).
  { repeat constructor; unfold fits_u64; cbn; unfold U64_MAX; lia. }
  destruct (kv_refines_positions cs H) as (Hv & _ & Hs).
  split; [rewrite Hv; reflexivity|]. split; [rewrite Hv; reflexivity|].
  rewrite Hs; [reflexivity|]. unfold fits_u64; cbn; unfold U64_MAX; lia.
Defined.

(** ** The stub norms *)

Lemma metric_table :
  forallb (fun r => forallb (fun m =>
    let x := f64_add (f64_div (f64_of_Z r) (f64_of_Z 10)) (f64_div (f64_of_Z 1) (f64_of_Z 10)) in
    let y := match m with KvMetric_L2Norm => x | KvMetric_Mean => f64_div x (f64_of_Z 4)
                        | KvMetric_AbsMax => f64_mul x (f64_div (f64_of_Z 3) (f64_of_Z 2)) end in
    SFltb (f64_of_Z 0) y && SFltb y (f64_of_Z 15)) [KvMetric_L2Norm; KvMetric_Mean; KvMetric_AbsMax]) (seqZ 0 99) = true.
Proof. vm_compute. reflexivity. Qed.

(** The reported norms are never zero, negative, infinite or not a number:
    whatever the coordinates (64-bit wrap-around included) and the metric, the
    value is a finite double strictly between 0 and 15. *)
Theorem kv_metric_range (metric : KvMetric) (layer position head : Z) (is_key : bool) :
  SFltb (f64_of_Z 0) (kv_metric metric layer position head is_key) = true /\
  SFltb (kv_metric metric layer position head is_key) (f64_of_Z 15) = true.
Proof.
  unfold kv_metric. cbv zeta. set (salt := u64_add _ _).
  assert (Hin : salt mod 99 ∈ seqZ 0 99) by (apply elem_of_seqZ; pose proof (Z.mod_pos_bound salt 99); lia).
  generalize dependent (salt mod 99). intros r Hr. pose proof metric_table as Ht.
  rewrite forallb_forall in Ht. specialize (Ht r ltac:(by apply list_elem_of_In)). rewrite forallb_forall in Ht.
  apply andb_prop. apply (Ht metric). destruct metric; cbn; auto.
Qed.
