(* ===== verification/Tick.v ===== *)
(** * Tick: the worker's three-clock cursor and the step plan

    [crates/rocket-surgeon-worker/src/tick.rs], [step_driver.rs] and the control
    part of [replay.rs].  The session's elapsed nanoseconds are an argument of
    [to_tick_position]. *)

From Stdlib Require Import ZArith Lia Ascii String.
From stdpp Require Import base strings list sets.
From S2P Require Import Prelude Protocol Messages.
Open Scope Z_scope.

Record TickState := mkTickState {
  ts_rank : Z;
  ts_layer : Z;
  ts_component : string;
  ts_call_index : Z;
  ts_step_count : Z;
  ts_phase : Phase;
  ts_token : Z;
  ts_operator : Z;
  ts_token_position : option Z
}.

Definition TickState_new (rank : Z) : TickState := mkTickState rank 0 "" 0 0 Phase_Prefill 0 0 None.

Definition advance (component : string) (layer call_index : Z) (t : TickState) : TickState :=
  mkTickState (ts_rank t) layer component call_index (u64_add (ts_step_count t) 1) (ts_phase t) (ts_token t)
    (u64_add (ts_operator t) 1) (Some (ts_token t)).

Definition advance_token (t : TickState) : TickState :=
  let token := u64_add (ts_token t) 1 in
  mkTickState (ts_rank t) (ts_layer t) (ts_component t) (ts_call_index t) (ts_step_count t)
    (match ts_phase t with Phase_Prefill => Phase_Decode | p => p end) token 0 (Some token).

Definition set_phase (p : Phase) (t : TickState) : TickState :=
  mkTickState (ts_rank t) (ts_layer t) (ts_component t) (ts_call_index t) (ts_step_count t) p (ts_token t)
    (ts_operator t) (ts_token_position t).

Definition set_token_position (pos : Z) (t : TickState) : TickState :=
  mkTickState (ts_rank t) (ts_layer t) (ts_component t) (ts_call_index t) (ts_step_count t) (ts_phase t) pos
    (ts_operator t) (Some pos).

Definition tick_id (t : TickState) : Z := ts_operator t.

(** [(elapsed().as_nanos() as u64).saturating_add(1)] *)
Definition wall_ns (elapsed_nanos : Z) : Z := Z.min U64_MAX (u64_wrap elapsed_nanos + 1).

Definition to_tick_position (elapsed_nanos : Z) (t : TickState) : TickPosition :=
  mkTickPosition (ts_operator t) StepDirection_Forward (Some (ts_rank t)) (ts_layer t) (ts_component t) TickEvent_Output
    None (ts_phase t) (ts_token_position t) (Some (mkTickClock (ts_token t) (ts_operator t) (wall_ns elapsed_nanos))).

(** ** The step plan *)

Record StepPlan := mkStepPlan { ticks_to_drain : Z; granularity : TickGranularity }.

Definition plan_step (count : Z) (g : option TickGranularity) : StepPlan :=
  mkStepPlan count (default TickGranularity_Component g).

Inductive DrainState := Counting | Draining.
#[export] Instance DrainState_eq : EqDecision DrainState.
Proof. solve_decision. Defined.

Definition is_layer_boundary (current_layer : option Z) (new_layer : Z) : bool :=
  match current_layer with None => false | Some prev => negb (new_layer =? prev) end.

(** ** Replay control *)

Record ReplayContext := mkReplayContext {
  rc_checkpoint_id : string;
  rc_verify : bool;
  rc_deterministic : bool;
  rc_cosine_threshold : f64;
  rc_mre_threshold : f64;
  rc_stop_at : option ReplayStopAt;
  rc_interventions : list InterventionRecipe;
  rc_divergences : list Divergence;
  rc_ticks_replayed : Z
}.

Definition from_request (req : HostReplayRequest) : ReplayContext :=
  mkReplayContext (HostReplayRequest_checkpoint_id req) (HostReplayRequest_verify req) (HostReplayRequest_deterministic req)
    (HostReplayRequest_cosine_threshold req) (HostReplayRequest_mre_threshold req) (HostReplayRequest_stop_at req)
    (HostReplayRequest_interventions req) [] 0.

Definition should_stop (layer : Z) (component : string) (ctx : ReplayContext) : bool :=
  match rc_stop_at ctx with
  | Some stop => (layer =? rsa_layer stop) && bool_decide (component = rsa_component stop)
  | None => false
  end.

(** ** The clocks over a history of operators and tokens *)

Inductive tick_event := Operator (component : string) (layer call_index : Z) | Token.

Definition tick_exec (t : TickState) (e : tick_event) : TickState :=
  match e with Operator c l i => advance c l i t | Token => advance_token t end.

Definition tick_run (rank : Z) (h : list tick_event) : TickState := foldl tick_exec (TickState_new rank) h.

Definition is_token (e : tick_event) : bool := match e with Token => true | _ => false end.
Definition tokens (h : list tick_event) : nat := List.length (List.filter is_token h).
Definition operators (h : list tick_event) : nat := List.length (List.filter (fun e => negb (is_token e)) h).

(** The operators since the last token. *)
Fixpoint current_token (h : list tick_event) : list tick_event :=
  match h with
  | [] => []
  | e :: r => if existsb is_token r then current_token r else if is_token e then r else e :: r
  end.

(** The component coordinates of the last operator. *)
Definition last_operator (h : list tick_event) : string * Z * Z :=
  foldl (fun acc e => match e with Operator c l i => (c, l, i) | Token => acc end) (""%string, 0, 0) h.

Record clocks_of (rank : Z) (h : list tick_event) (t : TickState) : Prop := {
  co_rank : ts_rank t = rank;
  co_token : ts_token t = Z.of_nat (tokens h);
  co_operator : ts_operator t = Z.of_nat (List.length (current_token h));
  co_steps : ts_step_count t = Z.of_nat (operators h);
  co_phase : ts_phase t = if Nat.eqb (tokens h) 0 then Phase_Prefill else Phase_Decode;
  co_reported : ts_token_position t = match h with [] => None | _ => Some (Z.of_nat (tokens h)) end;
  co_coords : (ts_component t, ts_layer t, ts_call_index t) = last_operator h
}.

Lemma current_token_snoc h e :
  current_token (h ++ [e]) = if is_token e then [] else current_token h ++ [e].
Proof.
  induction h as [|x h IH]; cbn; [by destruct e|]. rewrite existsb_app. cbn [existsb]. rewrite orb_false_r.
  destruct (is_token e) eqn:E; [by rewrite orb_true_r|]. rewrite orb_false_r, IH.
  destruct (existsb is_token h); [done|]. by destruct (is_token x).
Qed.

Lemma filter_snoc {A} (p : A -> bool) l x :
  List.length (List.filter p (l ++ [x])) = (List.length (List.filter p l) + if p x then 1 else 0)%nat.
Proof. rewrite List.filter_app, length_app. cbn. by destruct (p x). Qed.

Lemma current_token_length h : (List.length (current_token h) <= List.length h)%nat.
Proof. induction h as [|e h IH]; cbn; [done|]. destruct (existsb _ _); [lia|]. destruct (is_token e); cbn; lia. Qed.

Lemma clocks_step rank h t e :
  Z.of_nat (List.length h) < U64_MAX -> clocks_of rank h t -> clocks_of rank (h ++ [e]) (tick_exec t e).
Proof.
  intros Hlen [Hr Ht Ho Hs Hp Hq Hc]. pose proof (current_token_length h).
  pose proof (List.filter_length_le is_token h). pose proof (List.filter_length_le (fun e => negb (is_token e)) h).
  unfold tokens, operators in *.
  assert (Hlast : last_operator (h ++ [e]) = match e with Operator c l i => (c, l, i) | Token => last_operator h end).
  { unfold last_operator. by rewrite foldl_app. }
  destruct e; split; cbn [tick_exec advance advance_token ts_rank ts_token ts_operator ts_step_count ts_phase ts_token_position
    ts_component ts_layer ts_call_index]; unfold tokens, operators; rewrite ?current_token_snoc, ?filter_snoc; cbn [is_token negb];
    rewrite ?Hr, ?Ht, ?Ho, ?Hs, ?Hlast, ?u64_add_small, ?length_app by lia; cbn [List.length]; rewrite ?Nat.add_0_r; try done; try lia.
  - by destruct h.
  - rewrite Hp. destruct (Nat.eqb_spec (List.length (List.filter is_token h)) 0) as [->|]; [done|].
    destruct (Nat.eqb_spec (List.length (List.filter is_token h) + 1) 0); [lia|done].
  - destruct h; cbn [app]; f_equal; lia.
Qed.

Lemma clocks_run rank h : Z.of_nat (List.length h) <= U64_MAX -> clocks_of rank h (tick_run rank h).
Proof.
  induction h as [|e h IH] using rev_ind; intros Hlen; [by repeat split|].
  rewrite length_app in Hlen. cbn in Hlen. unfold tick_run. rewrite foldl_app. cbn [foldl].
  apply clocks_step; [lia|]. apply IH. lia.
Qed.

(** Position of a cursor in the traversal: token clock first, operator clock
    within the token. *)
Definition clock_lt (a b : TickState) : Prop :=
  ts_token a < ts_token b \/ ts_token a = ts_token b /\ ts_operator a < ts_operator b.

(** Over any history of operators and tokens the token clock counts the
    tokens, the operator clock (which is the tick id) counts the operators of
    the current token only, the step counter counts all operators, the phase is
    prefill until the first token and decode from then on, the reported token
    position is absent only before the first event, and the coordinates are
    those of the last operator.  Every further event moves the pair (token,
    operator) strictly forward, and the reported wall clock is never zero. *)
Theorem tick_clocks_correct (rank elapsed : Z) (h h' : list tick_event)
    (H : Z.of_nat (List.length (h ++ h')) <= U64_MAX) (Hne : h' <> []) :
  clocks_of rank h (tick_run rank h) /\
  clock_lt (tick_run rank h) (tick_run rank (h ++ h')) /\
  tp_tick_id (to_tick_position elapsed (tick_run rank h)) = Z.of_nat (List.length (current_token h)) /\
  0 < wall_ns elapsed <= U64_MAX.
Proof.
  rewrite length_app in H. pose proof (clocks_run rank h ltac:(lia)) as Hh.
  pose proof (clocks_run rank (h ++ h') ltac:(rewrite length_app; lia)) as Hhh.
  split; [done|]. split; [|split; [by apply Hh|unfold wall_ns; pose proof (u64_wrap_ok elapsed); unfold_int; lia]].
  unfold clock_lt. rewrite (co_token _ _ _ Hh), (co_token _ _ _ Hhh), (co_operator _ _ _ Hh), (co_operator _ _ _ Hhh).
  clear -Hne. induction h' as [|e h' IH] using rev_ind; [done|]. clear Hne. unfold tokens in *.
  rewrite (app_assoc h), filter_snoc, current_token_snoc.
  assert (Hle : (h' = [] /\ h ++ h' = h) \/
    (Z.of_nat (List.length (List.filter is_token h)) < Z.of_nat (List.length (List.filter is_token (h ++ h'))) \/
     Z.of_nat (List.length (List.filter is_token h)) = Z.of_nat (List.length (List.filter is_token (h ++ h'))) /\
     Z.of_nat (List.length (current_token h)) < Z.of_nat (List.length (current_token (h ++ h'))))).
  { destruct h' as [|e0 h']; [left; by rewrite app_nil_r|right; by apply IH]. }
  destruct Hle as [[-> E]|Hle]; [rewrite E|]; destruct e; cbn [is_token]; rewrite ?length_app; cbn; lia.
Qed.

Lemma tick_clocks_correct_witness :
  let h := [Operator "ln1" 0 0; Operator "q_proj" 0 0; Token; Operator "ln1" 1 0] in
  ts_operator (tick_run 0 h) = 1 /\ ts_token (tick_run 0 h) = 1 /\ clock_lt (tick_run 0 h) (tick_run 0 (h ++ [Token])).
Proof.
  intros h. destruct (tick_clocks_correct 0 0 h [Token]) as (Hc & Hlt & _); [unfold U64_MAX; cbn; lia|done|].
  split; [exact (co_operator _ _ _ Hc)|]. split; [exact (co_token _ _ _ Hc)|exact Hlt].
Defined.
