(* ===== verification/Adapter.v ===== *)
(** * Adapter: from a model's modules to canonical components

    [crates/rocket-surgeon-worker/src/adapter.rs]: the family tables, the
    resolution of the modules a model consists of into mapped components and
    container paths, and the reordering by execution order. *)

From Stdlib Require Import ZArith Lia Ascii String Sorted.
From stdpp Require Import base gmap strings list fin_maps sorting sets.
From S2P Require Import Prelude Winnow Grammar Protocol Json Session Discover.
Open Scope Z_scope.

Record FusedComponent := mkFusedComponent {
  fc_canonical : string;
  fc_split_dim : Z;
  fc_split_size : Z
}.

Inductive ModuleMapping :=
| Direct (canonical : string)
| Fused (components : list FusedComponent)
| Container
| Skip.

Inductive ModuleMatcher :=
| TypeAndName (type_name attr_name : string) (path_contains : option string)
| TypeOnly (type_name : string).

Record FamilyDeclaration := mkFamilyDeclaration {
  fd_model_types : list string;
  fd_mappings : list (ModuleMatcher * ModuleMapping)
}.

Record MappedComponent := mkMappedComponent {
  mc_module_path : string;
  mc_canonical : string;
  mc_layer_index : option Z;
  mc_call_index : Z;
  mc_mapping : ModuleMapping;
  mc_probe_point : string
}.

Record ComponentMap := mkComponentMap {
  cm_components : list MappedComponent;
  cm_model_family : string;
  cm_vocabulary : list string
}.

(** The projections and what is left of the Llama table. *)
Definition llama_projections : list (ModuleMatcher * ModuleMapping) :=
  [
   (TypeAndName "Linear" "q_proj" None, Direct "q_proj");
   (TypeAndName "Linear" "k_proj" None, Direct "k_proj");
   (TypeAndName "Linear" "v_proj" None, Direct "v_proj");
   (TypeAndName "Linear" "o_proj" None, Direct "o_proj");
   (TypeAndName "Linear" "gate_proj" None, Direct "gate_proj");
   (TypeAndName "Linear" "up_proj" None, Direct "up_proj");
   (TypeAndName "Linear" "down_proj" None, Direct "down_proj");
   (TypeOnly "LlamaRotaryEmbedding", Skip);
   (TypeAndName "Embedding" "embed_tokens" None, Direct "embed");
   (TypeAndName "Linear" "lm_head" None, Direct "lm_head")]%string.

Definition llama_declaration : FamilyDeclaration := mkFamilyDeclaration ["llama"; "mistral"; "codellama"]%string
  ([
   (TypeOnly "LlamaAttention", Container);
   (TypeOnly "LlamaSdpaAttention", Container);
   (TypeOnly "LlamaFlashAttention2", Container);
   (TypeOnly "MistralAttention", Container);
   (TypeOnly "MistralSdpaAttention", Container);
   (TypeOnly "MistralFlashAttention2", Container);
   (TypeOnly "LlamaMLP", Container);
   (TypeOnly "MistralMLP", Container);
   (TypeOnly "LlamaDecoderLayer", Container);
   (TypeOnly "MistralDecoderLayer", Container);
   (TypeAndName "LlamaRMSNorm" "input_layernorm" None, Direct "ln1");
   (TypeAndName "LlamaRMSNorm" "post_attention_layernorm" None, Direct "ln2");
   (TypeAndName "LlamaRMSNorm" "norm" None, Direct "ln_final");
   (TypeAndName "MistralRMSNorm" "input_layernorm" None, Direct "ln1");
   (TypeAndName "MistralRMSNorm" "post_attention_layernorm" None, Direct "ln2");
   (TypeAndName "MistralRMSNorm" "norm" None, Direct "ln_final")]%string ++ llama_projections).

Definition gpt2_declaration : FamilyDeclaration := mkFamilyDeclaration ["gpt2"]%string
  [
   (TypeOnly "GPT2Attention", Container);
   (TypeOnly "GPT2MLP", Container);
   (TypeOnly "GPT2Block", Container);
   (TypeAndName "LayerNorm" "ln_1" None, Direct "ln1");
   (TypeAndName "LayerNorm" "ln_2" None, Direct "ln2");
   (TypeAndName "LayerNorm" "ln_f" None, Direct "ln_final");
   (TypeAndName "Conv1D" "c_attn" None, Fused [mkFusedComponent "q_proj" (-1) 0; mkFusedComponent "k_proj" (-1) 0; mkFusedComponent "v_proj" (-1) 0]);
   (TypeAndName "Conv1D" "c_proj" (Some "attn"), Direct "o_proj");
   (TypeAndName "Conv1D" "c_fc" None, Direct "up_proj");
   (TypeAndName "Conv1D" "c_proj" (Some "mlp"), Direct "down_proj");
   (TypeAndName "Embedding" "wte" None, Direct "embed");
   (TypeAndName "Embedding" "wpe" None, Direct "pos_embed");
   (TypeAndName "Linear" "lm_head" None, Direct "lm_head");
   (TypeOnly "Dropout", Skip);
   (TypeOnly "NewGELUActivation", Skip)]%string.

Record RawModule := mkRawModule {
  rm_path : string;
  rm_type_name : string;
  rm_attr_name : string
}.

Record ModelConfig := mkModelConfig {
  cfg_model_type : string;
  cfg_num_layers : Z;
  cfg_num_heads : Z;
  cfg_hidden_size : Z;
  cfg_num_kv_heads : option Z
}.

Definition FAMILIES : list FamilyDeclaration := [llama_declaration; gpt2_declaration].

Definition family_declaration (model_type : string) : option FamilyDeclaration :=
  List.find (fun decl => bool_decide (model_type ∈ fd_model_types decl)) FAMILIES.

(** The first segment of a dotted path that parses as a number. *)
Fixpoint first_number (segs : list (list ascii)) : option Z :=
  match segs with
  | [] => None
  | s :: r => match parse_uint U32_MAX s with Some n => Some n | None => first_number r end
  end.

Definition extract_layer_index (path : string) : option Z := first_number (split_on "."%char (chars path)).

Definition matches_module (matcher : ModuleMatcher) (module : RawModule) : bool :=
  match matcher with
  | TypeOnly type_name => bool_decide (rm_type_name module = type_name)
  | TypeAndName type_name attr_name path_contains =>
      bool_decide (rm_type_name module = type_name) && bool_decide (rm_attr_name module = attr_name) &&
      match path_contains with None => true | Some pat => contains_chars (chars pat) (chars (rm_path module)) end
  end.

(** [format!("{family_name}:{rank}:{layer}:{canonical}:0:output")] *)
Definition probe_point_text (family : string) (rank layer : Z) (canonical : string) : string :=
  (family +:+ ":" +:+ to_string rank +:+ ":" +:+ to_string layer +:+ ":" +:+ canonical +:+ ":0:output")%string.

(** The accumulators of the loop over the modules. *)
Record Resolved := mkResolved {
  rs_components : list MappedComponent;
  rs_vocabulary : gset string;
  rs_container_paths : list string
}.

Definition push_component (c : MappedComponent) (words : list string) (r : Resolved) : Resolved :=
  mkResolved (rs_components r ++ [c]) (list_to_set words ∪ rs_vocabulary r) (rs_container_paths r).

Definition resolve_split (hidden : Z) (fc : FusedComponent) : FusedComponent :=
  mkFusedComponent (fc_canonical fc) (fc_split_dim fc) (if fc_split_size fc =? 0 then hidden else fc_split_size fc).

(** One module against the mapping that matched it, or none. *)
Definition resolve_module (config : ModelConfig) (rank : Z) (module : RawModule) (mapping : option ModuleMapping)
    (r : Resolved) : Resolved :=
  let family := cfg_model_type config in
  let layer_index := extract_layer_index (rm_path module) in
  let layer := default 0 layer_index in
  let component canonical m := mkMappedComponent (rm_path module) canonical layer_index 0 m
                                 (probe_point_text family rank layer canonical) in
  match mapping with
  | Some Skip => r
  | Some Container => mkResolved (rs_components r) (rs_vocabulary r) (rs_container_paths r ++ [rm_path module])
  | Some (Direct canonical) => push_component (component canonical (Direct canonical)) [canonical] r
  | Some (Fused comps) =>
      let resolved := resolve_split (cfg_hidden_size config) <$> comps in
      let fused := "_fused." +:+ rm_attr_name module in
      push_component (component fused (Fused resolved)) (fc_canonical <$> resolved) r
  | None =>
      let canonical := "_raw." +:+ rm_path module in
      push_component (component canonical (Direct canonical)) [canonical] r
  end.

(** The first mapping whose matcher accepts the module. *)
Definition first_match (decl : FamilyDeclaration) (module : RawModule) : option ModuleMapping :=
  snd <$> List.find (fun mm => matches_module (fst mm) module) (fd_mappings decl).

Definition resolve_with_containers (modules : list RawModule) (config : ModelConfig) (rank : Z)
  : result string (ComponentMap * list string) :=
  match family_declaration (cfg_model_type config) with
  | None => Err ("unsupported model family: " +:+ cfg_model_type config)
  | Some decl =>
      let r := foldl (fun r module => resolve_module config rank module (first_match decl module) r)
                 (mkResolved [] ∅ []) modules in
      Ok (mkComponentMap (rs_components r) (cfg_model_type config) (sort_by string_le (elements (rs_vocabulary r))),
          rs_container_paths r)
  end.

Definition resolve (modules : list RawModule) (config : ModelConfig) (rank : Z) : result string ComponentMap :=
  match resolve_with_containers modules config rank with Ok (map, _) => Ok map | Err e => Err e end.

(** [enumerate().map(..).collect()] into a hash map: a later entry replaces an
    earlier one with the same key. *)
Definition index_map (keys : list (string * Z)) : gmap (string * Z) Z :=
  foldl (fun m '(i, k) => <[k := i]> m) ∅ (zip (seqZ 0 (Z.of_nat (List.length keys))) keys).

Definition order_key (order_map : gmap (string * Z) Z) (c : MappedComponent) : Z :=
  default USIZE_MAX (order_map !! (mc_module_path c, mc_call_index c)).

Definition apply_execution_order (map : ComponentMap) (execution_order : list (string * Z)) : ComponentMap :=
  let order_map := index_map execution_order in
  mkComponentMap (sort_by (fun a b => order_key order_map a <=? order_key order_map b) (cm_components map))
    (cm_model_family map) (cm_vocabulary map).

(** ** What resolution computes, module by module *)

Section Resolve.
Context (config : ModelConfig) (rank : Z) (decl : FamilyDeclaration).

(** The component a module becomes, if any, and the words it adds. *)
Definition component_of (m : RawModule) : option MappedComponent :=
  let layer_index := extract_layer_index (rm_path m) in
  let component canonical mapping :=
    Some (mkMappedComponent (rm_path m) canonical layer_index 0 mapping
            (probe_point_text (cfg_model_type config) rank (default 0 layer_index) canonical)) in
  match first_match decl m with
  | Some Skip | Some Container => None
  | Some (Direct canonical) => component canonical (Direct canonical)
  | Some (Fused comps) => component ("_fused." +:+ rm_attr_name m) (Fused (resolve_split (cfg_hidden_size config) <$> comps))
  | None => component ("_raw." +:+ rm_path m) (Direct ("_raw." +:+ rm_path m))
  end.

Definition words_of (m : RawModule) : list string :=
  match first_match decl m with
  | Some Skip | Some Container => []
  | Some (Direct canonical) => [canonical]
  | Some (Fused comps) => fc_canonical <$> comps
  | None => ["_raw." +:+ rm_path m]
  end.

Definition is_container (m : RawModule) : bool :=
  match first_match decl m with Some Container => true | _ => false end.

Lemma resolve_fold modules r :
  let r' := foldl (fun r module => resolve_module config rank module (first_match decl module) r) r modules in
  rs_components r' = rs_components r ++ omap component_of modules /\
  rs_container_paths r' = rs_container_paths r ++ (rm_path <$> List.filter is_container modules) /\
  (forall w, w ∈ rs_vocabulary r' <-> w ∈ rs_vocabulary r \/ exists m, m ∈ modules /\ w ∈ words_of m).
Proof.
  revert r. induction modules as [|m ms IH]; intros r; cbn [foldl].
  - cbn. rewrite !app_nil_r. split_and!; try done. intros w. set_solver.
  - destruct (IH (resolve_module config rank m (first_match decl m) r)) as (H1 & H2 & H3). cbn zeta in *.
    rewrite H1, H2. clear H1 H2 IH.
    assert (Hw : forall w, w ∈ rs_vocabulary (resolve_module config rank m (first_match decl m) r) <->
                           w ∈ rs_vocabulary r \/ w ∈ words_of m).
    { intros w. unfold resolve_module, words_of, push_component.
      destruct (first_match decl m) as [[c|comps| |]|]; cbn [rs_vocabulary]; try set_solver.
      rewrite <- list_fmap_compose. change (fc_canonical ∘ resolve_split _) with fc_canonical. set_solver. }
    split_and!.
    + cbn [omap list_omap]. unfold component_of at 2, resolve_module, push_component.
      destruct (first_match decl m) as [[c|comps| |]|]; cbn [rs_components]; rewrite <- ?app_assoc; done.
    + cbn [List.filter]. unfold is_container at 2, resolve_module, push_component.
      destruct (first_match decl m) as [[c|comps| |]|]; cbn [rs_container_paths]; rewrite <- ?app_assoc; done.
    + intros w. rewrite H3, Hw. set_solver.
Qed.

End Resolve.

(** Strict order of the sorted vocabulary. *)
Definition string_lt (a b : string) : Prop := string_le a b = true /\ a <> b.

Lemma sorted_strict l : NoDup l -> StronglySorted (fun a b => string_le a b = true) l -> StronglySorted string_lt l.
Proof.
  intros Hn Hs. induction Hs as [|x l Hs IH Hx]; [constructor|]. apply NoDup_cons in Hn as [Hn1 Hn2].
  constructor; [auto|]. apply Forall_forall. intros y Hy. split; [by apply (proj1 (Forall_forall _ _) Hx)|]. by intros ->.
Qed.

Lemma sort_strings_strict l : NoDup l -> StronglySorted string_lt (sort_by string_le l).
Proof.
  intros Hn. apply sorted_strict; [by rewrite sort_by_perm|]. apply sort_by_sorted.
  - intros a b c. apply string_le_trans.
  - intros x y. destruct (string_le x y) eqn:E; [done|]. destruct (string_le_total x y); [congruence|done].
Qed.

(** Resolving the modules of a supported family never fails; every module
    goes by the first mapping of the table that matches it to exactly one place: it
    is skipped, listed as a container, or becomes one component with its layer
    index and probe point, in module order.  The vocabulary is strictly sorted
    and holds exactly the component names contributed.  A family without a
    table is refused with its name. *)
Theorem resolve_correct (modules : list RawModule) (config : ModelConfig) (rank : Z) :
  match family_declaration (cfg_model_type config) with
  | None => resolve_with_containers modules config rank = Err ("unsupported model family: " +:+ cfg_model_type config)
  | Some decl => exists map containers,
      resolve_with_containers modules config rank = Ok (map, containers) /\
      cm_components map = omap (component_of config rank decl) modules /\
      containers = rm_path <$> List.filter (is_container decl) modules /\
      cm_model_family map = cfg_model_type config /\
      StronglySorted string_lt (cm_vocabulary map) /\
      (forall w, w ∈ cm_vocabulary map <-> exists m, m ∈ modules /\ w ∈ words_of decl m)
  end.
Proof.
  unfold resolve_with_containers. destruct (family_declaration _) as [decl|]; [|done].
  destruct (resolve_fold config rank decl modules (mkResolved [] ∅ [])) as (H1 & H2 & H3). cbn zeta in *.
  eexists _, _. split; [reflexivity|]. cbn [cm_components cm_model_family cm_vocabulary]. rewrite H1, H2.
  split_and!; try done.
  - apply sort_strings_strict, NoDup_elements.
  - intros w. rewrite sort_by_perm, elem_of_elements, H3. set_solver.
Qed.

(** ** Probe points *)

Lemma family_names ty decl : family_declaration ty = Some decl -> ty ∈ ["llama"; "mistral"; "codellama"; "gpt2"]%string.
Proof.
  unfold family_declaration, FAMILIES. cbn. repeat case_bool_decide; try done; intros _; set_solver.
Qed.

Definition alphabetic_names (decl : FamilyDeclaration) : bool :=
  forallb (fun '(_, m) => match m with
    | Direct c => match chars c with
                  | a :: r => is_ascii_alphabetic a && forallb ident_char r
                  | [] => false
                  end
    | _ => true
    end) (fd_mappings decl).

Lemma ident_okb s :
  match chars s with a :: r => is_ascii_alphabetic a && forallb ident_char r | [] => false end = true -> ident_ok s.
Proof.
  unfold ident_ok. destruct (chars s) as [|a r]; [done|]. intros [Ha Hr]%andb_prop. split; [done|].
  apply Forall_forall. intros c Hc. rewrite forallb_forall in Hr. by apply Hr, list_elem_of_In.
Qed.

Lemma table_names ty decl m c :
  family_declaration ty = Some decl -> first_match decl m = Some (Direct c) -> ident_ok c.
Proof.
  intros Hd Hm. assert (Hok : alphabetic_names decl = true).
  { unfold family_declaration, FAMILIES in Hd. cbn in Hd.
    repeat case_bool_decide; simplify_eq; vm_compute; reflexivity. }
  unfold first_match in Hm. destruct (List.find _ _) as [[mt mp]|] eqn:E; [|done]. cbn in Hm. simplify_eq.
  apply List.find_some in E as [Hin _]. unfold alphabetic_names in Hok. rewrite forallb_forall in Hok.
  apply ident_okb, (Hok _ Hin).
Qed.

Lemma first_number_ok segs n : first_number segs = Some n -> u32_ok n.
Proof.
  induction segs as [|s r IH]; cbn; [done|]. destruct (parse_uint U32_MAX s) eqn:E; [|done].
  intros [= <-]. by eapply parse_uint_bound.
Qed.

Lemma layer_ok path : u32_ok (default 0 (extract_layer_index path)).
Proof.
  unfold extract_layer_index. destruct (first_number _) eqn:E; cbn; [by eapply first_number_ok|].
  unfold_int. lia.
Qed.

Definition point_of (family : string) (rank layer : Z) (canonical : string) : ProbePoint :=
  mkProbePoint (Name family) (Num rank) (Num layer) (Path [Named canonical]) (Num 0) (Name "output").

Lemma probe_point_text_chars family rank layer canonical :
  chars (probe_point_text family rank layer canonical) =
  chars family ++ ":"%char :: print_dec rank ++ ":"%char :: print_dec layer ++ ":"%char :: chars canonical ++ chars ":0:output".
Proof. unfold probe_point_text, to_string. rewrite !chars_app, !chars_text. reflexivity. Qed.

Section Points.
Context {W : Winnow} {WL : WinnowLaws W}.

Lemma parse_good family rank layer canonical :
  ident_ok family -> u32_ok rank -> u32_ok layer -> ident_ok canonical ->
  parse_point (probe_point_text family rank layer canonical) = Some (point_of family rank layer canonical).
Proof.
  intros Hf Hr Hl Hc. unfold parse_point. rewrite parse_law.
  assert (E : chars (probe_point_text family rank layer canonical) = print_point (point_of family rank layer canonical)).
  { rewrite probe_point_text_chars. reflexivity. }
  rewrite E, probe_point_print; [done|]. unfold point_ok. cbn. split_and!; try done.
  - by constructor.
  - apply ident_okb. reflexivity.
Qed.

Lemma component_underscore cs : exists e, component_or_wild ("_"%char :: cs) = Err e.
Proof.
  unfold component_or_wild. rewrite alt_wildcard, decide_False by done.
  rewrite separated1_law by (apply component_seg_progress || apply chr_progress).
  unfold component_seg. rewrite identifier_spec. cbn. eauto.
Qed.

Lemma parse_underscore family rank layer canonical :
  ident_ok family -> u32_ok rank -> u32_ok layer ->
  parse_point (probe_point_text family rank layer (String "_" canonical)) = None.
Proof.
  intros Hf Hr Hl. unfold parse_point. rewrite parse_law, probe_point_text_chars. unfold probe_point.
  change (chars family) with (print_name (Name family)). rewrite name_or_wild_print by done. rewrite chr_law, decide_True by done.
  change (print_dec rank) with (print_num (Num rank)). rewrite num_or_wild_print by done. rewrite chr_law, decide_True by done.
  change (print_dec layer) with (print_num (Num layer)). rewrite num_or_wild_print by done. rewrite chr_law, decide_True by done.
  destruct (component_underscore (chars canonical ++ chars ":0:output")) as [e He].
  change (chars (String "_" canonical) ++ chars ":0:output") with ("_"%char :: chars canonical ++ chars ":0:output").
  by rewrite He.
Qed.

(** The probe point a component carries is in the grammar exactly when the
    component was matched by its own mapping of the table: then parsing it
    gives back family, rank, layer and canonical name.  The fallback names
    [_raw.*] and [_fused.*] never parse, so such components match no probe and
    no inspection target. *)
Theorem component_probe_points (modules : list RawModule) (config : ModelConfig) (rank : Z) (map : ComponentMap)
    (containers : list string) (Hr : u32_ok rank)
    (H : resolve_with_containers modules config rank = Ok (map, containers)) :
  Forall (fun c =>
    parse_point (mc_probe_point c) =
    match mc_mapping c with
    | Direct name =>
        if starts_with (chars "_raw.") (chars name) then None
        else Some (point_of (cm_model_family map) rank (default 0 (mc_layer_index c)) (mc_canonical c))
    | _ => None
    end) (cm_components map).
Proof.
  unfold resolve_with_containers in H. destruct (family_declaration _) as [decl|] eqn:Hd; [|done].
  destruct (resolve_fold config rank decl modules (mkResolved [] ∅ [])) as (H1 & _ & _). cbn zeta in *.
  injection H as <- _. cbn [cm_components cm_model_family]. rewrite H1. cbn [rs_components app].
  assert (Hf : ident_ok (cfg_model_type config)).
  { apply family_names in Hd. repeat (apply elem_of_cons in Hd as [->|Hd]; [apply ident_okb; reflexivity|]). set_solver. }
  apply Forall_forall. intros c (m & Hc & Hm)%list_elem_of_omap. unfold component_of in Hm.
  pose proof (layer_ok (rm_path m)) as Hl.
  destruct (first_match decl m) as [[name|comps| |]|] eqn:Efm; simplify_eq; cbn [mc_probe_point mc_mapping mc_layer_index mc_canonical].
  - pose proof (table_names _ _ _ _ Hd Efm) as Hn. rewrite parse_good by done.
    unfold ident_ok in Hn. destruct (chars name) as [|a r]; [done|]. destruct Hn as [Ha _].
    unfold starts_with. change (chars "_raw.") with ("_"%char :: chars "raw."). cbn [strip_prefix].
    by rewrite decide_False by (by intros <-).
  - by apply (parse_underscore _ _ _ _ Hf Hr Hl).
  - replace (starts_with _ _) with true by reflexivity. by apply (parse_underscore _ _ _ _ Hf Hr Hl).
Qed.

End Points.

(** ** Execution order *)

Lemma index_map_snoc ks k : index_map (ks ++ [k]) = <[k := Z.of_nat (List.length ks)]> (index_map ks).
Proof.
  unfold index_map. rewrite length_app. cbn [List.length].
  replace (Z.of_nat (List.length ks + 1)) with (Z.of_nat (List.length ks) + 1) by lia.
  rewrite seqZ_app, zip_with_app by (rewrite ?length_seqZ; lia).
  rewrite foldl_app, Z.add_0_l, (seqZ_cons _ 1) by lia. done.
Qed.

(** The index map sends a listed key to its place and knows no other key. *)
Lemma index_map_lookup ks : NoDup ks ->
  (forall i k, ks !! i = Some k -> index_map ks !! k = Some (Z.of_nat i)) /\
  (forall k, k ∉ ks -> index_map ks !! k = None).
Proof.
  induction ks as [|k ks IH] using rev_ind; intros Hn; [split; [done|intros k _; apply lookup_empty]|].
  apply NoDup_app in Hn as (Hn & Hd & _). destruct (IH Hn) as [IH1 IH2]. rewrite index_map_snoc. split.
  - intros i j [Hi|[Hi Hj]]%lookup_app_Some.
    + rewrite lookup_insert_ne; [by apply IH1|]. intros ->. apply (Hd j); [by eapply list_elem_of_lookup_2|set_solver].
    + apply list_lookup_singleton_Some in Hj as [Hz <-]. rewrite lookup_insert_eq. do 2 f_equal. lia.
  - intros j Hj. rewrite lookup_insert_ne by set_solver. apply IH2. set_solver.
Qed.

Lemma index_map_range ks k i : index_map ks !! k = Some i -> 0 <= i < Z.of_nat (List.length ks).
Proof.
  induction ks as [|x ks IH] using rev_ind; [change (index_map []) with (∅ : gmap (string * Z) Z); by rewrite lookup_empty|].
  rewrite index_map_snoc, length_app. cbn.
  destruct (decide (x = k)) as [->|Hne]; [rewrite lookup_insert_eq; intros [= <-]; lia|].
  rewrite lookup_insert_ne by done. intros Hl. specialize (IH Hl). lia.
Qed.

(** Reordering keeps exactly the components, orders them by their place in
    the execution order (unlisted ones last), and keeps the module order of
    components with the same place. *)
Theorem execution_order_sorted (map : ComponentMap) (order : list (string * Z)) (Hn : NoDup order) :
  let key := order_key (index_map order) in
  let map' := apply_execution_order map order in
  (forall c i, order !! i = Some (mc_module_path c, mc_call_index c) -> key c = Z.of_nat i) /\
  (forall c, (mc_module_path c, mc_call_index c) ∉ order -> key c = USIZE_MAX) /\
  cm_components map' ≡ₚ cm_components map /\
  StronglySorted (fun a b => key a <= key b) (cm_components map') /\
  (forall k, List.filter (fun c => key c =? k) (cm_components map') = List.filter (fun c => key c =? k) (cm_components map)) /\
  cm_vocabulary map' = cm_vocabulary map.
Proof.
  intros key map'. destruct (index_map_lookup order Hn) as [H1 H2]. cbn. split_and!.
  - intros c i Hi. subst key. unfold order_key. by rewrite (H1 _ _ Hi).
  - intros c Hc. subst key. unfold order_key. by rewrite (H2 _ Hc).
  - apply sort_by_perm.
  - apply sort_by_sorted; [intros ???; lia|]. intros x y. fold key. destruct (Z.leb_spec (key x) (key y)); lia.
  - intros k. apply sort_by_stable. intros x y. rewrite !Z.eqb_eq. fold key. intros -> ->. apply Z.leb_refl.
  - done.
Qed.

(** ** A small model *)

Definition demo_modules : list RawModule :=
  [mkRawModule "transformer.wte" "Embedding" "wte"; mkRawModule "transformer.h.0" "GPT2Block" "0";
   mkRawModule "transformer.h.0.ln_1" "LayerNorm" "ln_1"; mkRawModule "transformer.h.0.attn.c_attn" "Conv1D" "c_attn";
   mkRawModule "transformer.h.0.attn.c_proj" "Conv1D" "c_proj"; mkRawModule "transformer.h.0.mlp.c_proj" "Conv1D" "c_proj";
   mkRawModule "transformer.h.0.odd" "Mystery" "odd"; mkRawModule "transformer.h.0.drop" "Dropout" "drop"]%string.
Definition demo_config : ModelConfig := mkModelConfig "gpt2" 1 12 768 None.

Definition demo_map : ComponentMap :=
  match resolve demo_modules demo_config 0 with Ok m => m | Err _ => mkComponentMap [] "" [] end.

Lemma component_probe_points_witness :
  mc_canonical <$> cm_components demo_map = ["embed"; "ln1"; "_fused.c_attn"; "o_proj"; "down_proj"; "_raw.transformer.h.0.odd"]%string /\
  Forall (fun c => is_Some (@parse_point winnow_ref (mc_probe_point c)) <-> mc_canonical c ∈ ["embed"; "ln1"; "o_proj"; "down_proj"]%string)
    (cm_components demo_map).
Proof.
  split; [vm_compute; reflexivity|].
  pose proof (@component_probe_points winnow_ref winnow_ref_laws demo_modules demo_config 0 demo_map ["transformer.h.0"%string]) as H.
  specialize (H ltac:(unfold_int; lia) ltac:(vm_compute; reflexivity)).
  eapply Forall_impl; [apply Forall_and; split; [exact H|]|].
  - instantiate (1 := fun c => (match mc_mapping c with Direct n => negb (starts_with (chars "_raw.") (chars n)) | _ => false end)
                                = bool_decide (mc_canonical c ∈ ["embed"; "ln1"; "o_proj"; "down_proj"]%string)).
    apply Forall_forall. intros c Hc. vm_compute in Hc.
    repeat (apply elem_of_cons in Hc as [->|Hc]; [vm_compute; reflexivity|]). by apply elem_of_nil in Hc.
  - intros c [Hp Hb]. cbv beta in Hp, Hb. rewrite Hp. rewrite <- (bool_decide_eq_true (mc_canonical c ∈ _)), <- Hb.
    destruct (mc_mapping c) as [n|cs| |]; try (split; [by intros []|done]).
    destruct (starts_with _ _); cbn; split; try done; try (by intros []).
Defined.

Lemma execution_order_sorted_witness :
  let order := [("transformer.h.0.attn.c_proj"%string, 0); ("transformer.wte"%string, 0)] in
  StronglySorted (fun a b => order_key (index_map order) a <= order_key (index_map order) b)
    (cm_components (apply_execution_order demo_map order)) /\
  head (mc_canonical <$> cm_components (apply_execution_order demo_map order)) = Some "o_proj"%string.
Proof.
  intros order. assert (Hn : NoDup order) by (apply (bool_decide_eq_true_1 _); vm_compute; reflexivity).
  split; [apply (execution_order_sorted demo_map order Hn)|vm_compute; reflexivity].
Defined.

(** ** The two name spaces

    The names the daemon's discovery catalog offers, against the names the
    worker's tables produce. *)

(** Of the components the daemon lists for discovery, [lm_head] is the only
    one any family table of the worker can produce; the others ([attn.q_proj],
    [mlp], ...) name no component of an attached model. *)
Theorem catalog_names_unknown_to_worker (family : string) (layers heads dim : Z) (e : ProbePointEntry)
    (H : e ∈ default_catalog family layers heads dim) :
  (exists decl mt, decl ∈ FAMILIES /\ (mt, Direct (pp_canonical e)) ∈ fd_mappings decl) <-> pp_canonical e = "lm_head"%string.
Proof.
  assert (Hnames : forall c, c ∈ (fun x => x.1.1.1) <$> catalog_components dim heads ->
    ~ exists decl mt, decl ∈ FAMILIES /\ (mt, Direct c) ∈ fd_mappings decl).
  { assert (Ht : forall c, c ∈ ["attn.q_proj"; "attn.k_proj"; "attn.v_proj"; "attn.o_proj"; "attn.scores"; "mlp"; "residual_post"]%string ->
      forallb (fun decl => forallb (fun '(_, m) => match m with Direct n => negb (bool_decide (n = c)) | _ => true end) (fd_mappings decl)) FAMILIES = true).
    { intros c Hc. repeat (apply elem_of_cons in Hc as [->|Hc]; [vm_compute; reflexivity|]). by apply elem_of_nil in Hc. }
    intros c Hc (decl & mt & Hd & Hm). apply Ht in Hc. rewrite forallb_forall in Hc.
    specialize (Hc _ ltac:(by apply list_elem_of_In)). rewrite forallb_forall in Hc.
    specialize (Hc _ ltac:(by apply list_elem_of_In)). cbn in Hc. by rewrite bool_decide_eq_true_2 in Hc. }
  apply elem_of_app in H as [H|H].
  - apply list_elem_of_bind in H as (l & ([[[c ev] sh] al] & -> & Hin)%list_elem_of_fmap & _). cbn [pp_canonical].
    assert (Hc : c ∈ (fun x => x.1.1.1) <$> catalog_components dim heads) by (apply list_elem_of_fmap; eexists; split; [|exact Hin]; done).
    split; [intros Hx; by apply Hnames in Hx|]. intros ->. exfalso.
    cbn in Hc. repeat (apply elem_of_cons in Hc as [?|Hc]; [done|]). by apply elem_of_nil in Hc.
  - apply list_elem_of_singleton in H as ->. cbn [pp_canonical]. split; [done|]. intros _.
    exists llama_declaration, (TypeAndName "Linear" "lm_head" None). split; [set_solver|].
    apply list_elem_of_In. vm_compute. tauto.
Qed.

Lemma catalog_names_unknown_to_worker_witness :
  ~ exists decl mt, decl ∈ FAMILIES /\ (mt, Direct "mlp") ∈ fd_mappings decl.
Proof.
  intros H. pose (e := mkProbePointEntry "llama" 0 "mlp" "output" [1; 16] ["blocks.0.hook_mlp_out"%string]).
  assert (Hin : e ∈ default_catalog "llama" 1 4 16) by (apply list_elem_of_In; vm_compute; tauto).
  pose proof (proj1 (catalog_names_unknown_to_worker "llama" 1 4 16 e Hin) H) as He. discriminate He.
Defined.
