(* ===== verification/Worker.v ===== *)
(** * Worker: the step and replay loops of the inference worker

    [crates/rocket-surgeon-worker/src/dispatch.rs] (and [capture.rs]).  The
    worker drives a forward pass that runs in a Python thread: it takes one
    message per executed module from the result mailbox and answers with one
    entry in the resume mailbox (a replacement tensor or none).  The Python side
    is the class [PyBridge]; a running pass is a function from the resume
    entries so far to the next message ([Model]), so the two mailboxes are the
    list of resume entries.  A panic is a value of the error type. *)

From Stdlib Require Import ZArith Lia Ascii String.
From coqutil Require Import Byte.
From stdpp Require Import base gmap strings list fin_maps sets.
From S2P Require Import Prelude Winnow Grammar Protocol Messages Adapter Tick Kv Arena.
Open Scope Z_scope.

(** What the worker calls of the embedded Python: tensors, and the functions of
    [bridge.rs] the loops use. *)
Class PyBridge := {
  Tensor : Type;
  PyErr : Type;
  tensor_clone : Tensor -> result PyErr Tensor;
  tensor_shape : Tensor -> result PyErr (list Z);
  (** [x[..., start:end]] and [x[..., start:end] = v] *)
  tensor_getitem : Tensor -> Z -> Z -> result PyErr Tensor;
  tensor_setitem : Tensor -> Z -> Z -> Tensor -> result PyErr Tensor;
  (** tensor, recipes, family, rank, layer, component, event, tick, handle *)
  apply_interventions_at_point :
    Tensor -> list InterventionRecipe -> string -> Z -> Z -> string -> string -> Z -> Z -> result PyErr (Tensor * list string);
  (** bytes of the saved activation, dtype, shape, replayed tensor, thresholds:
      the two measures when they are out of bounds *)
  compare_activations : list byte -> string -> list Z -> Tensor -> f64 -> f64 -> result PyErr (option (f64 * f64))
}.

Section Worker.
Context {W : Winnow} {B : PyBridge}.

Inductive Fail := Panic | Error (e : PyErr).

Definition lift {A} (r : result PyErr A) : result Fail A := match r with Ok a => Ok a | Err e => Err (Error e) end.

(** A message of the result mailbox: the tuple (path, call index[, output]),
    and what the passive hooks stored in [last_outputs] before it. *)
Record Msg := mkMsg {
  msg_path : string;
  msg_call_index : Z;
  msg_output : option (option Tensor);
  msg_passive : list ((string * Z) * Tensor)
}.

Definition Model : Type := list (option Tensor) -> result PyErr Msg.

Record ForwardPassState := mkForwardPassState {
  fp_model : Model;
  fp_resumes : list (option Tensor);
  fp_complete : bool
}.

Record WorkerState := mkWorkerState {
  w_component_map : option ComponentMap;
  w_component_index : gmap (string * Z) Z;
  w_model_handle : option Z;
  w_rank : Z;
  w_num_layers : Z;
  w_num_heads : Z;
  w_tick_state : TickState;
  w_forward_pass : option ForwardPassState;
  w_last_outputs : option (gmap (string * Z) Tensor);
  w_active_probes : list (ProbeDefinition * ProbePoint);
  w_checkpoint_arena : option Arena
}.

Definition set_w_tick_state (t : TickState) (s : WorkerState) : WorkerState :=
  mkWorkerState (w_component_map s) (w_component_index s) (w_model_handle s) (w_rank s) (w_num_layers s) (w_num_heads s) t
    (w_forward_pass s) (w_last_outputs s) (w_active_probes s) (w_checkpoint_arena s).
Definition set_w_forward_pass (f : option ForwardPassState) (s : WorkerState) : WorkerState :=
  mkWorkerState (w_component_map s) (w_component_index s) (w_model_handle s) (w_rank s) (w_num_layers s) (w_num_heads s)
    (w_tick_state s) f (w_last_outputs s) (w_active_probes s) (w_checkpoint_arena s).
Definition set_w_last_outputs (o : option (gmap (string * Z) Tensor)) (s : WorkerState) : WorkerState :=
  mkWorkerState (w_component_map s) (w_component_index s) (w_model_handle s) (w_rank s) (w_num_layers s) (w_num_heads s)
    (w_tick_state s) (w_forward_pass s) o (w_active_probes s) (w_checkpoint_arena s).

Definition build_component_index (map : ComponentMap) : gmap (string * Z) Z :=
  index_map ((fun c => (mc_module_path c, mc_call_index c)) <$> cm_components map).

Definition FORWARD_COMPLETE_SENTINEL : string := "__forward_complete__".

Definition build_tick_probe_point (family : string) (rank layer : Z) (canonical : string) (call_index : Z) : ProbePoint :=
  mkProbePoint (Name family) (Num rank) (Num layer) (Path [Named canonical]) (Num call_index) (Name "output").

(** [map_or("unknown", |m| m.model_family.as_str())] *)
Definition family_of (s : WorkerState) : string :=
  match w_component_map s with Some m => cm_model_family m | None => "unknown" end.

(** The event of one matching probe; [now] is the clock's whole seconds. *)
Definition probe_event (now : Z) (s : WorkerState) (point : ProbePoint) (def : ProbeDefinition) : ProbeFiredEvent :=
  mkProbeFiredEvent (pd_id def) (text (print_point point)) (tick_id (w_tick_state s)) None (pd_action def) (to_string now) (w_rank s).

Fixpoint evaluate_loop (now : Z) (s : WorkerState) (point : ProbePoint) (budget : Z) (probes : list (ProbeDefinition * ProbePoint))
    (events : list ProbeFiredEvent) : list ProbeFiredEvent * bool :=
  match probes with
  | [] => (events, false)
  | (def, pattern) :: r =>
      if negb (matches pattern point) then evaluate_loop now s point budget r events
      else if budget <=? Z.of_nat (List.length events) then (events, true)
      else evaluate_loop now s point budget r (events ++ [probe_event now s point def])
  end.

Definition evaluate_probes (now : Z) (s : WorkerState) (point : ProbePoint) (budget : Z) : list ProbeFiredEvent * bool :=
  evaluate_loop now s point budget (w_active_probes s) [].

(** [ensure_forward_pass]; [start] is what [bridge::run_forward] sets up. *)
Definition ensure_forward_pass (start : result PyErr Model) (s : WorkerState) : result Fail unit * WorkerState :=
  match w_forward_pass s with
  | Some _ => (Ok tt, s)
  | None =>
      let s := set_w_last_outputs (Some ∅) s in
      match start with
      | Err e => (Err (Error e), s)
      | Ok m => (Ok tt, set_w_forward_pass (Some (mkForwardPassState m [] false)) s)
      end
  end.

(** The dictionary [last_outputs] after the passive hooks and after
    [stash_tensor_output]. *)
Definition stash_tensor_output (msg : Msg) (s : WorkerState) : WorkerState :=
  match w_last_outputs s with
  | None => s
  | Some outputs =>
      let outputs := foldl (fun m '(k, t) => <[k := t]> m) outputs (msg_passive msg) in
      match msg_output msg with
      | Some (Some t) => set_w_last_outputs (Some (<[(msg_path msg, msg_call_index msg) := t]> outputs)) s
      | _ => set_w_last_outputs (Some outputs) s
      end
  end.

(** The canonical name and layer of a message's module. *)
Definition lookup_component (path : string) (call_index : Z) (s : WorkerState) : result Fail (string * Z) :=
  match w_component_index s !! (path, call_index) with
  | Some idx =>
      match w_component_map s with
      | None => Err Panic
      | Some m => match cm_components m !! Z.to_nat idx with
                  | None => Err Panic
                  | Some c => Ok (mc_canonical c, default 0 (mc_layer_index c))
                  end
      end
  | None => Ok ("_raw." +:+ path, 0)
  end.

(** *** Attention heads *)

Definition ATTENTION_HEAD_COMPONENTS : list string := ["o_proj"; "q_proj"; "k_proj"; "v_proj"]%string.

(** [str::find(c)]: the text before the first [c] and after it. *)
Fixpoint cut_at (c : ascii) (cs : list ascii) : option (list ascii * list ascii) :=
  match cs with
  | [] => None
  | x :: r => if decide (x = c) then Some ([], r)
              else match cut_at c r with Some (a, b) => Some (x :: a, b) | None => None end
  end.

(** [extract_head_index]: [None] is a panic.  The text between the bracket and
    the last byte is [&comp[start + 1..len - 1]], which panics when the bracket
    is the last byte and when the last byte is inside a character. *)
Definition extract_head_index (target : string) : option (option (string * Z)) :=
  match split_on ":"%char (chars target) with
  | [s0; s1; s2; comp; s4] =>
      match cut_at "["%char comp with
      | None => Some None
      | Some (base, rest) =>
          match last rest with
          | None => None
          | Some z =>
              if (0x80 <=? ascii_code z) && (ascii_code z <=? 0xBF) then None
              else match parse_uint U32_MAX (removelast rest) with
                 | None => Some None
                 | Some idx => Some (Some (text (join_on ":"%char [s0; s1; s2; base; s4]), idx))
                 end
          end
      end
  | _ => Some None
  end.

(** [stripped_target.split(':').nth(3).unwrap_or("")] *)
Definition fourth (target : string) : string := text (nth 3 (split_on ":"%char (chars target)) []).

Definition set_target (target : string) (r : InterventionRecipe) : InterventionRecipe :=
  mkInterventionRecipe (ir_id r) (ir_intervention_type r) target (ir_params r) (ir_condition r) (ir_priority r) (ir_mode r).

(** The recipes for a head of this component, and the ones without a head. *)
Fixpoint split_recipes (canonical : string) (rs : list InterventionRecipe)
  : result Fail (list (InterventionRecipe * Z) * list InterventionRecipe) :=
  match rs with
  | [] => Ok ([], [])
  | r :: rest =>
      match extract_head_index (ir_target r) with
      | None => Err Panic
      | Some h =>
          let? (heads, regular) := split_recipes canonical rest in
          match h with
          | Some (stripped, head_idx) =>
              if bool_decide (fourth stripped ∈ ATTENTION_HEAD_COMPONENTS) && bool_decide (fourth stripped = canonical)
              then Ok ((set_target stripped r, head_idx) :: heads, regular) else Ok (heads, regular)
          | None => Ok (heads, r :: regular)
          end
      end
  end.

Section AtPoint.
Context (s : WorkerState) (layer : Z) (canonical : string) (handle : Z).

Definition apply_at (t : Tensor) (rs : list InterventionRecipe) : result Fail (Tensor * list string) :=
  lift (apply_interventions_at_point t rs (family_of s) (w_rank s) layer canonical "output" (tick_id (w_tick_state s)) handle).

Fixpoint apply_heads (heads : list (InterventionRecipe * Z)) (current : Tensor) (fired : list string)
  : result Fail (Tensor * list string) :=
  match heads with
  | [] => Ok (current, fired)
  | (recipe, head_idx) :: r =>
      let? shape := lift (tensor_shape current) in
      match last shape with
      | None => Err Panic
      | Some d =>
          let hidden := u32_wrap d in
          if w_num_heads s =? 0 then Err Panic
          else
            let head_dim := hidden / w_num_heads s in
            let start := u32_wrap (head_idx * head_dim) in
            let end_ := u32_wrap (start + head_dim) in
            let? head_slice := lift (tensor_getitem current start end_) in
            let? head_clone := lift (tensor_clone head_slice) in
            let? (modified, f) := apply_at head_clone [recipe] in
            let? current := lift (tensor_setitem current start end_ modified) in
            apply_heads r current (fired ++ f)
      end
  end.

Definition try_apply_interventions (req : HostStepRequest) (msg : Msg) : result Fail (option (Tensor * list string)) :=
  match hsreq_interventions req, msg_output msg with
  | [], _ | _, None | _, Some None => Ok None
  | recipes, Some (Some output) =>
      let? (heads, regular) := split_recipes canonical recipes in
      let? current := match heads with [] => Ok output | _ => lift (tensor_clone output) end in
      let? (current, fired) := apply_heads heads current [] in
      let? (current, fired) :=
        match regular with
        | [] => Ok (current, fired)
        | _ => let? (modified, f) := apply_at current regular in Ok (modified, fired ++ f)
        end in
      match fired with [] => Ok None | _ => Ok (Some (current, fired)) end
  end.

End AtPoint.

(** *** The step loop *)

(** [resume_mb.call_method1("put", ..)] *)
Definition put_resume (t : option Tensor) (s : WorkerState) : WorkerState :=
  match w_forward_pass s with
  | None => s
  | Some fp => set_w_forward_pass (Some (mkForwardPassState (fp_model fp) (fp_resumes fp ++ [t]) (fp_complete fp))) s
  end.

Record Loop := mkLoop {
  l_state : WorkerState;
  l_ticks : Z;
  l_tracking : option Z;
  l_drain : DrainState;
  l_events : list ProbeFiredEvent;
  l_truncated : bool;
  l_fired : list string
}.

Inductive Next := Complete | Stop | Continue.

(** The granularity test at the end of the loop body: the counters, and whether
    to leave the loop. *)
Definition count_tick (plan : StepPlan) (layer : Z) (ticks : Z) (tracking : option Z) (drain : DrainState)
  : bool * Z * option Z * DrainState :=
  match granularity plan with
  | TickGranularity_Layer =>
      if is_layer_boundary tracking layer then
        match drain with
        | Draining => (true, ticks, tracking, drain)
        | Counting =>
            let ticks := u32_wrap (ticks + 1) in
            (false, ticks, Some layer, if ticks_to_drain plan <=? ticks then Draining else Counting)
        end
      else (false, ticks, Some layer, drain)
  | _ =>
      let ticks := u32_wrap (ticks + 1) in
      (ticks_to_drain plan <=? ticks, ticks, tracking, drain)
  end.

(** [saturating_sub] of the events still allowed, and the probes' answer. *)
Definition tick_events (now max_events : Z) (canonical : string) (layer call_index : Z) (s : WorkerState)
    (events : list ProbeFiredEvent) (truncated : bool) : list ProbeFiredEvent * bool :=
  match w_active_probes s with
  | [] => (events, truncated)
  | _ =>
      if truncated then (events, truncated)
      else
        let point := build_tick_probe_point (family_of s) (w_rank s) layer canonical call_index in
        let budget := Z.max 0 (max_events - u32_wrap (Z.of_nat (List.length events))) in
        let '(fresh, trunc) := evaluate_probes now s point budget in
        (events ++ fresh, trunc)
  end.

Definition loop_body (now handle : Z) (req : HostStepRequest) (plan : StepPlan) (max_events : Z) (l : Loop)
  : result Fail Next * Loop :=
  let s := l_state l in
  match w_forward_pass s with
  | None => (Err Panic, l)
  | Some fp =>
      match fp_model fp (fp_resumes fp) with
      | Err e => (Err (Error e), l)
      | Ok msg =>
          let s := stash_tensor_output msg s in
          if bool_decide (msg_path msg = FORWARD_COMPLETE_SENTINEL)
          then (Ok Complete, mkLoop s (l_ticks l) (l_tracking l) (l_drain l) (l_events l) (l_truncated l) (l_fired l))
          else match lookup_component (msg_path msg) (msg_call_index msg) s with
          | Err e => (Err e, mkLoop s (l_ticks l) (l_tracking l) (l_drain l) (l_events l) (l_truncated l) (l_fired l))
          | Ok (canonical, layer) =>
              let s := set_w_tick_state (advance canonical layer (msg_call_index msg) (w_tick_state s)) s in
              let '(events, truncated) := tick_events now max_events canonical layer (msg_call_index msg) s (l_events l) (l_truncated l) in
              match try_apply_interventions s layer canonical handle req msg with
              | Err e => (Err e, mkLoop s (l_ticks l) (l_tracking l) (l_drain l) events truncated (l_fired l))
              | Ok ir =>
                  let '(stop, ticks, tracking, drain) := count_tick plan layer (l_ticks l) (l_tracking l) (l_drain l) in
                  if stop then (Ok Stop, mkLoop s ticks tracking drain events truncated (l_fired l))
                  else match ir with
                       | Some (t, fired) =>
                           (Ok Continue, mkLoop (put_resume (Some t) s) ticks tracking drain events truncated (l_fired l ++ fired))
                       | None =>
                           (Ok Continue, mkLoop (put_resume None s) ticks tracking drain events truncated (l_fired l))
                       end
              end
          end
      end
  end.

(** The loop; [None] when the fuel does not suffice. *)
Fixpoint step_loop (fuel : nat) (now handle : Z) (req : HostStepRequest) (plan : StepPlan) (max_events : Z) (l : Loop)
  : option (result Fail Next * Loop) :=
  match fuel with
  | O => None
  | S fuel =>
      match loop_body now handle req plan max_events l with
      | (Ok Continue, l) => step_loop fuel now handle req plan max_events l
      | r => Some r
      end
  end.

(** A completed pass is torn down and the cursor starts over. *)
Definition teardown (s : WorkerState) : WorkerState :=
  match w_forward_pass s with
  | Some fp => if fp_complete fp
               then set_w_tick_state (TickState_new (w_rank s)) (set_w_forward_pass None s) else s
  | None => s
  end.

Definition mark_complete (s : WorkerState) : WorkerState :=
  match w_forward_pass s with
  | Some fp => set_w_forward_pass (Some (mkForwardPassState (fp_model fp) (fp_resumes fp) true)) s
  | None => s
  end.

(** [start] is what [bridge::run_forward] would set up, [now] and [elapsed] the
    clock readings. *)
Definition run_step_loop (fuel : nat) (now elapsed handle : Z) (start : result PyErr Model) (req : HostStepRequest)
    (s : WorkerState) : option (result Fail HostStepResponse * WorkerState) :=
  let plan := plan_step (hsreq_count req) (hsreq_granularity req) in
  let s := teardown s in
  let resuming := match w_forward_pass s with Some _ => true | None => false end in
  match ensure_forward_pass start s with
  | (Err e, s) => Some (Err e, s)
  | (Ok _, s) =>
      let current_layer := tp_layer (to_tick_position elapsed (w_tick_state s)) in
      let l := mkLoop (if resuming then put_resume None s else s) 0 (if resuming then Some current_layer else None)
                 Counting [] false [] in
      match step_loop fuel now handle req plan (default 256 (hsreq_max_events req)) l with
      | None => None
      | Some (Err e, l) => Some (Err e, l_state l)
      | Some (Ok next, l) =>
          let complete := match next with Complete => true | _ => false end in
          let s := if complete then set_w_tick_state (advance_token (w_tick_state (l_state l))) (mark_complete (l_state l))
                   else l_state l in
          Some (Ok (mkHostStepResponse (to_tick_position elapsed (w_tick_state s)) (l_events l) complete (l_truncated l) (l_fired l)), s)
      end
  end.

End Worker.
