(* ===== verification/WorkerSpec.v ===== *)
(** * WorkerSpec: what a step of the worker does

    The step loop of [Worker] against a declarative account: which ticks a step
    consumes, where it leaves the cursor, which probe events it reports, and
    what it answers the paused model. *)

From Stdlib Require Import ZArith Lia Ascii String.
From coqutil Require Import Byte.
From stdpp Require Import base gmap strings list fin_maps sets.
From S2P Require Import Prelude Winnow Grammar Protocol Messages Adapter Tick Kv Arena Worker.
Open Scope Z_scope.

(** ** How many ticks a plan takes *)

(** Layer changes along a sequence of ticks, after layer [prev]. *)
Fixpoint boundaries (prev : option Z) (layers : list Z) : nat :=
  match layers with
  | [] => 0
  | x :: r => ((if is_layer_boundary prev x then 1 else 0) + boundaries (Some x) r)%nat
  end.

(** A step has done enough after these ticks: as many ticks as asked for, or, by
    layer, one layer change more than asked for; a count of 0 acts as 1. *)
Definition enough (plan : StepPlan) (prev : option Z) (layers : list Z) : bool :=
  match granularity plan with
  | TickGranularity_Layer => Z.max 1 (ticks_to_drain plan) <? Z.of_nat (boundaries prev layers)
  | _ => Z.max 1 (ticks_to_drain plan) <=? Z.of_nat (List.length layers)
  end.

(** The counters of the loop along the ticks: how many it takes, and whether it
    ran out of ticks before stopping. *)
Fixpoint taken (plan : StepPlan) (tk : Z) (tr : option Z) (dr : DrainState) (layers : list Z) : nat * bool :=
  match layers with
  | [] => (0%nat, true)
  | x :: r =>
      let '(stop, tk, tr, dr) := count_tick plan x tk tr dr in
      if stop then (1%nat, false) else let '(n, all) := taken plan tk tr dr r in (S n, all)
  end.

Lemma taken_pos plan tk tr dr layers n : taken plan tk tr dr layers = (n, false) -> (0 < n)%nat.
Proof.
  destruct layers as [|x r]; cbn; [done|]. destruct (count_tick plan x tk tr dr) as [[[[] ?] ?] ?]; [intros [= <-]; lia|].
  destruct (taken _ _ _ _ r). intros [= <- _]. lia.
Qed.

(** [n] is the first place where [p] holds, or the end. *)
Definition first_place (p : list Z -> bool) (layers : list Z) (n : nat) (all : bool) : Prop :=
  (n <= List.length layers)%nat /\ (forall j, (j < n)%nat -> p (take j layers) = false) /\
  if all then n = List.length layers /\ p layers = false else p (take n layers) = true.

Lemma boundaries_snoc prev layers x :
  boundaries prev (layers ++ [x]) =
  (boundaries prev layers + if is_layer_boundary (match last layers with Some y => Some y | None => prev end) x then 1 else 0)%nat.
Proof.
  revert prev. induction layers as [|y r IH]; intros prev; cbn [app boundaries]; [cbn; lia|].
  rewrite IH. rewrite last_cons. destruct (last r); lia.
Qed.

(** Counting ticks. *)
Lemma taken_ticks plan done tk tr dr layers :
  granularity plan <> TickGranularity_Layer ->
  tk = Z.of_nat done -> Z.of_nat (done + List.length layers) < 2 ^ 32 ->
  (Z.max 1 (ticks_to_drain plan) <=? Z.of_nat done) = false ->
  let '(n, all) := taken plan tk tr dr layers in
  first_place (fun ls => Z.max 1 (ticks_to_drain plan) <=? Z.of_nat (done + List.length ls)) layers n all.
Proof.
  intros Hg. revert done tk tr dr. induction layers as [|x r IH]; intros done tk tr dr -> Hlen Hne; cbn [taken].
  - split; [done|]. split; [intros j Hj; lia|]. split; [done|]. cbn. by rewrite Nat.add_0_r.
  - assert (Hc : count_tick plan x (Z.of_nat done) tr dr =
      (ticks_to_drain plan <=? Z.of_nat (S done), Z.of_nat (S done), tr, dr)).
    { unfold count_tick. assert (E : u32_wrap (Z.of_nat done + 1) = Z.of_nat (S done)).
      { unfold u32_wrap. cbn [List.length] in Hlen. rewrite Z.mod_small; lia. }
      rewrite E. by destruct (granularity plan). }
    rewrite Hc. clear Hc. destruct (ticks_to_drain plan <=? Z.of_nat (S done)) eqn:E.
    + apply Z.leb_le in E. split; [cbn; lia|]. split.
      * intros j Hj. assert (j = 0%nat) as -> by lia. cbn. by rewrite Nat.add_0_r.
      * cbn. apply Z.leb_le. lia.
    + apply Z.leb_gt in E. specialize (IH (S done) (Z.of_nat (S done)) tr dr eq_refl).
      destruct (taken plan (Z.of_nat (S done)) tr dr r) as [n all].
      cbn [List.length] in Hlen. destruct IH as (H1 & H2 & H3); [lia|apply Z.leb_gt; lia|].
      split; [cbn; lia|]. split.
      * intros [|j] Hj; cbn [take List.length]; [by rewrite Nat.add_0_r|].
        specialize (H2 j ltac:(lia)). cbn in H2. by rewrite Nat.add_succ_r.
      * destruct all; [destruct H3 as [-> H3]; split; [done|]|]; cbn [take List.length]; by rewrite Nat.add_succ_r.
Qed.

(** Counting layers: [b] changes so far, the last layer seen is [tr]. *)
Lemma taken_layers plan b tk tr dr layers :
  granularity plan = TickGranularity_Layer ->
  Z.of_nat (b + List.length layers) < 2 ^ 32 -> ticks_to_drain plan < 2 ^ 32 ->
  match dr with
  | Counting => tk = Z.of_nat b /\ Z.of_nat b < Z.max 1 (ticks_to_drain plan)
  | Draining => Z.of_nat b = Z.max 1 (ticks_to_drain plan)
  end ->
  let '(n, all) := taken plan tk tr dr layers in
  first_place (fun ls => Z.max 1 (ticks_to_drain plan) <? Z.of_nat (b + boundaries tr ls)) layers n all.
Proof.
  intros Hg. revert b tk tr dr. induction layers as [|x r IH]; intros b tk tr dr Hlen Hc Hst; cbn [taken].
  - split; [done|]. split; [intros j Hj; lia|]. split; [done|]. cbn. rewrite Nat.add_0_r. destruct dr; lia.
  - assert (Hb : (Z.max 1 (ticks_to_drain plan) <? Z.of_nat (b + boundaries tr [])) = false).
    { cbn. rewrite Nat.add_0_r. destruct dr; lia. }
    assert (Hgo : forall tk' b' dr', (let '(n, all) := taken plan tk' (Some x) dr' r in
        first_place (fun ls => Z.max 1 (ticks_to_drain plan) <? Z.of_nat (b' + boundaries (Some x) ls)) r n all) ->
        b' = (b + if is_layer_boundary tr x then 1 else 0)%nat ->
        let '(n, all) := let '(n, all) := taken plan tk' (Some x) dr' r in (S n, all) in
        first_place (fun ls => Z.max 1 (ticks_to_drain plan) <? Z.of_nat (b + boundaries tr ls)) (x :: r) n all).
    { intros tk' b' dr' HH ->. destruct (taken plan tk' (Some x) dr' r) as [n all]. destruct HH as (H1 & H2 & H3).
      split; [cbn; lia|]. split.
      - intros [|j] Hj; [by rewrite take_0|]. cbn [take boundaries]. specialize (H2 j ltac:(lia)). cbn in H2.
        by rewrite Nat.add_assoc.
      - destruct all; [destruct H3 as [-> H3]; split; [done|]|]; cbn [take boundaries]; by rewrite Nat.add_assoc. }
    unfold count_tick. rewrite Hg. destruct (is_layer_boundary tr x) eqn:Eb.
    + destruct dr.
      * destruct Hst as [-> Hlt]. cbn [List.length] in Hlen.
        assert (E : u32_wrap (Z.of_nat b + 1) = Z.of_nat (S b)) by (unfold u32_wrap; rewrite Z.mod_small; lia).
        rewrite E. apply (Hgo _ (b + 1)%nat); [|done].
        destruct (Z.leb_spec (ticks_to_drain plan) (Z.of_nat (S b))); (apply IH; [lia|done|cbn; lia]).
      * split; [cbn; lia|]. split; [intros j Hj; assert (j = 0%nat) as -> by lia; by rewrite take_0|].
        cbv beta. apply Z.ltb_lt. cbn [take boundaries]. rewrite Eb. lia.
    + apply (Hgo _ (b + 0)%nat); [|done]. rewrite Nat.add_0_r. apply IH; [cbn [List.length] in Hlen; lia|done|done].
Qed.

Lemma taken_enough plan tr layers :
  Z.of_nat (List.length layers) < 2 ^ 32 -> ticks_to_drain plan < 2 ^ 32 ->
  let '(n, all) := taken plan 0 tr Counting layers in first_place (enough plan tr) layers n all.
Proof.
  intros Hlen Hc. unfold enough. destruct (granularity plan) eqn:Hg.
  { apply (taken_layers plan 0); [done|rewrite Nat.add_0_l; lia|done|]. split; [done|lia]. }
  all: apply (taken_ticks plan 0); [by rewrite Hg|done|rewrite Nat.add_0_l; lia|apply Z.leb_gt; lia].
Qed.

(** ** Probe events *)

Section Spec.
Context {W : Winnow} {B : PyBridge}.

Definition point_at (s : WorkerState) (layer : Z) (canonical : string) (call_index : Z) : ProbePoint :=
  build_tick_probe_point (family_of s) (w_rank s) layer canonical call_index.

(** Every event the active probes produce at a point, in probe order. *)
Definition events_at (now : Z) (s : WorkerState) (point : ProbePoint) : list ProbeFiredEvent :=
  (fun dp => probe_event now s point (fst dp)) <$> List.filter (fun dp => matches (snd dp) point) (w_active_probes s).

Lemma evaluate_loop_spec now s point budget probes events :
  0 <= budget -> Z.of_nat (List.length events) <= budget ->
  let all := events ++ ((fun dp => probe_event now s point (fst dp)) <$> List.filter (fun dp => matches (snd dp) point) probes) in
  evaluate_loop now s point budget probes events = (take (Z.to_nat budget) all, budget <? Z.of_nat (List.length all)).
Proof.
  intros H0. revert events. induction probes as [|[def pat] r IH]; intros events Hle; cbn [evaluate_loop List.filter snd].
  - cbn. rewrite app_nil_r, take_ge by lia. f_equal. symmetry. apply Z.ltb_ge. lia.
  - destruct (matches pat point) eqn:E; cbn [negb]; [|by apply IH].
    destruct (Z.leb_spec budget (Z.of_nat (List.length events))) as [Hb|Hb].
    + rewrite take_app_le, take_ge by lia. f_equal. symmetry. apply Z.ltb_lt. rewrite length_app. cbn. lia.
    + rewrite IH by (rewrite length_app; cbn; lia). cbn [fmap list_fmap fst]. by rewrite <- app_assoc.
Qed.

Lemma tick_events_spec now max canonical layer ci s all :
  0 <= max < 2 ^ 32 ->
  let ev := take (Z.to_nat max) all in
  let tr := max <? Z.of_nat (List.length all) in
  let all' := all ++ events_at now s (point_at s layer canonical ci) in
  tick_events now max canonical layer ci s ev tr = (take (Z.to_nat max) all', max <? Z.of_nat (List.length all')).
Proof.
  intros Hm ev tr all'. unfold tick_events. destruct (w_active_probes s) eqn:Ep.
  { subst all'. unfold events_at. rewrite Ep. cbn. by rewrite app_nil_r. }
  subst tr. destruct (Z.ltb_spec max (Z.of_nat (List.length all))) as [Hlt|Hge].
  - subst all' ev. rewrite take_app_le by lia. f_equal. symmetry. apply Z.ltb_lt. rewrite length_app. lia.
  - assert (Hev : ev = all) by (subst ev; apply take_ge; lia). rewrite Hev.
    unfold u32_wrap. rewrite Z.mod_small by lia. rewrite Z.max_r by lia.
    unfold evaluate_probes. rewrite evaluate_loop_spec by (cbn; lia). cbn [app].
    subst all'. fold (point_at s layer canonical ci) in *. unfold events_at. fold (point_at s layer canonical ci).
    f_equal.
    + rewrite take_app. f_equal; [symmetry; apply take_ge; lia|]. f_equal. lia.
    + rewrite length_app. apply eq_true_iff_eq. rewrite !Z.ltb_lt. lia.
Qed.

(** ** The loop against the ticks of the pass *)

(** The parts of the state a step does not change. *)
Record same_env (s s' : WorkerState) : Prop := {
  se_map : w_component_map s' = w_component_map s;
  se_index : w_component_index s' = w_component_index s;
  se_rank : w_rank s' = w_rank s;
  se_probes : w_active_probes s' = w_active_probes s;
  se_heads : w_num_heads s' = w_num_heads s
}.

#[local] Instance same_env_preorder : PreOrder same_env.
Proof. split; [intros s; by split|]. intros a b c [] []. split; congruence. Qed.

(** The component index points into the component map. *)
Definition index_ok (s : WorkerState) : Prop :=
  forall k i, w_component_index s !! k = Some i ->
  exists m c, w_component_map s = Some m /\ cm_components m !! Z.to_nat i = Some c.

(** Name and layer of a tick's module; a module outside the map is [_raw]. *)
Definition coord (s : WorkerState) (k : string * Z) : string * Z :=
  match w_component_index s !! k with
  | Some i => match w_component_map s ≫= fun m => cm_components m !! Z.to_nat i with
              | Some c => (mc_canonical c, default 0 (mc_layer_index c))
              | None => (""%string, 0)
              end
  | None => ("_raw." +:+ fst k, 0)
  end.

Definition adv (s : WorkerState) (t : TickState) (k : string * Z) : TickState :=
  advance (fst (coord s k)) (snd (coord s k)) (snd k) t.

(** The probe events along a sequence of ticks. *)
Fixpoint events_from (now : Z) (s : WorkerState) (t : TickState) (ticks : list (string * Z)) : list ProbeFiredEvent :=
  match ticks with
  | [] => []
  | k :: r =>
      let t := adv s t k in
      let s := set_w_tick_state t s in
      events_at now s (point_at s (snd (coord s k)) (fst (coord s k)) (snd k)) ++ events_from now s t r
  end.

(** The running pass delivers these ticks, then its completion, whatever tensors
    it is resumed with; [k0] resume entries were put before. *)
Definition delivers (m : Model) (k0 : nat) (ticks : list (string * Z)) : Prop :=
  forall rs j, List.length rs = (k0 + j)%nat -> (j <= List.length ticks)%nat ->
  exists msg, m rs = Ok msg /\
    match ticks !! j with
    | Some k => (msg_path msg, msg_call_index msg) = k /\ fst k <> FORWARD_COMPLETE_SENTINEL
    | None => msg_path msg = FORWARD_COMPLETE_SENTINEL
    end.

Definition key (msg : Msg) : string * Z := (msg_path msg, msg_call_index msg).

(** What the recipes of a request answer to the message of a tick, the cursor
    already on that tick: a replacement and the recipes that fired, nothing, or
    a failure. *)
Definition tick_answer (s : WorkerState) (t : TickState) (handle : Z) (req : HostStepRequest) (msg : Msg)
  : result Fail (option (Tensor * list string)) :=
  let '(canonical, layer) := coord s (key msg) in
  try_apply_interventions (set_w_tick_state t s) layer canonical handle req msg.

(** An exchange with the paused model in which the recipes fail at no tick: each
    message is what the model delivers when it is resumed with the answers to
    the ones before it. *)
Fixpoint exchange (s : WorkerState) (t : TickState) (handle : Z) (req : HostStepRequest) (m : Model) (rs : list (option Tensor))
    (msgs : list Msg) (irs : list (option (Tensor * list string))) : Prop :=
  match msgs, irs with
  | [], [] => True
  | msg :: msgs, ir :: irs =>
      let t := adv s t (key msg) in
      m rs = Ok msg /\ tick_answer s t handle req msg = Ok ir /\ exchange s t handle req m (rs ++ [fst <$> ir]) msgs irs
  | _, _ => False
  end.

(** The resume entries and the fired recipes of a list of answers. *)
Definition replacements (irs : list (option (Tensor * list string))) : list (option Tensor) := (fun ir : option (Tensor * list string) => fst <$> ir) <$> irs.
Definition fired_in (irs : list (option (Tensor * list string))) : list string := concat (from_option snd [] <$> irs).

(** The recipes fail at the tick after an exchange, which is one of the first
    [n]: the cursor is on it, and the pass is paused there with nothing put. *)
Definition step_failure (s : WorkerState) (t : TickState) (handle : Z) (req : HostStepRequest) (m : Model) (rs : list (option Tensor))
    (ticks : list (string * Z)) (n : nat) (msgs : list Msg) (irs : list (option (Tensor * list string))) (f : Fail) (s' : WorkerState) : Prop :=
  exists msg, (List.length msgs < n)%nat /\ ticks !! List.length msgs = Some (key msg) /\
    m (rs ++ replacements irs) = Ok msg /\
    tick_answer s (foldl (adv s) t (take (S (List.length msgs)) ticks)) handle req msg = Err f /\
    w_tick_state s' = foldl (adv s) t (take (S (List.length msgs)) ticks) /\
    w_forward_pass s' = Some (mkForwardPassState m (rs ++ replacements irs) false).

(** The index built at attach points into its map. *)
Lemma build_index_ok s map :
  w_component_map s = Some map -> w_component_index s = build_component_index map -> index_ok s.
Proof.
  intros Hm Hi k i. rewrite Hm, Hi. intros Hk. exists map.
  assert (Hr : 0 <= i < Z.of_nat (List.length (cm_components map))).
  { rewrite <- (length_fmap (fun c => (mc_module_path c, mc_call_index c))). by eapply index_map_range. }
  destruct (lookup_lt_is_Some_2 (cm_components map) (Z.to_nat i)) as [c Hc]; [lia|]. eauto.
Qed.

Lemma lookup_coord s k : index_ok s -> lookup_component (fst k) (snd k) s = Ok (coord s k).
Proof.
  intros Hi. unfold lookup_component, coord. destruct k as [p ci]. cbn [fst snd].
  destruct (w_component_index s !! (p, ci)) as [i|] eqn:E; [|done].
  destruct (Hi _ _ E) as (m & c & -> & Hc). cbn. by rewrite Hc.
Qed.

Lemma coord_env s s' k : same_env s s' -> coord s' k = coord s k.
Proof. intros []. unfold coord. by rewrite se_map0, se_index0. Qed.

Lemma index_ok_env s s' : same_env s s' -> index_ok s -> index_ok s'.
Proof. intros [] H k i. rewrite se_index0, se_map0. apply H. Qed.

Lemma stash_env msg s : same_env s (stash_tensor_output msg s).
Proof. unfold stash_tensor_output. destruct (w_last_outputs s); [|done]. by destruct (msg_output msg) as [[]|]. Qed.

Lemma stash_tick msg s : w_tick_state (stash_tensor_output msg s) = w_tick_state s.
Proof. unfold stash_tensor_output. destruct (w_last_outputs s); [|done]. by destruct (msg_output msg) as [[]|]. Qed.

Lemma stash_pass msg s : w_forward_pass (stash_tensor_output msg s) = w_forward_pass s.
Proof. unfold stash_tensor_output. destruct (w_last_outputs s); [|done]. by destruct (msg_output msg) as [[]|]. Qed.

Lemma put_env t s : same_env s (put_resume t s).
Proof. unfold put_resume. by destruct (w_forward_pass s). Qed.

Lemma put_tick t s : w_tick_state (put_resume t s) = w_tick_state s.
Proof. unfold put_resume. by destruct (w_forward_pass s). Qed.

Lemma events_at_env now s s' point :
  same_env s s' -> w_tick_state s' = w_tick_state s -> events_at now s' point = events_at now s point.
Proof.
  intros [] Ht. unfold events_at. rewrite se_probes0. apply list_fmap_ext. intros i dp _.
  unfold probe_event. by rewrite Ht, se_rank0.
Qed.

Lemma point_at_env s s' l c i : same_env s s' -> point_at s' l c i = point_at s l c i.
Proof. intros []. unfold point_at, family_of. by rewrite se_map0, se_rank0. Qed.

Lemma events_from_env now s s' t ticks : same_env s s' -> events_from now s' t ticks = events_from now s t ticks.
Proof.
  revert s s' t. induction ticks as [|k r IH]; intros s s' t He; [done|]. cbn [events_from]. unfold adv.
  assert (He' : forall t, same_env (set_w_tick_state t s) (set_w_tick_state t s')) by (intros; destruct He; by split).
  rewrite (coord_env s s' k He). rewrite (IH _ _ _ (He' _)).
  rewrite (coord_env _ _ k (He' _)), (point_at_env _ _ _ _ _ (He' _)). by rewrite (events_at_env now _ _ _ (He' _)).
Qed.

Lemma apply_at_env s s' layer canonical handle t rs :
  same_env s s' -> w_tick_state s' = w_tick_state s -> apply_at s' layer canonical handle t rs = apply_at s layer canonical handle t rs.
Proof. intros [] Ht. unfold apply_at, family_of. by rewrite se_map0, se_rank0, Ht. Qed.

Lemma apply_heads_env s s' layer canonical handle heads current fired :
  same_env s s' -> w_tick_state s' = w_tick_state s ->
  apply_heads s' layer canonical handle heads current fired = apply_heads s layer canonical handle heads current fired.
Proof.
  intros He Ht. revert current fired. induction heads as [|[r i] heads IH]; intros current fired; [done|]. cbn [apply_heads].
  destruct (lift (tensor_shape current)) as [shape|]; cbv iota; [|done]. destruct (last shape); [|done]. cbv zeta.
  rewrite (se_heads _ _ He). destruct (w_num_heads s =? 0); [done|].
  destruct (lift (tensor_getitem _ _ _)); cbv iota; [|done]. destruct (lift (tensor_clone _)) as [hd|]; cbv iota; [|done].
  rewrite (apply_at_env s s') by done. destruct (apply_at s layer canonical handle hd [r]) as [[md f]|]; cbv iota; [|done].
  destruct (lift (tensor_setitem _ _ _ _)); cbv iota; [|done]. apply IH.
Qed.

Lemma try_apply_env s s' layer canonical handle req msg :
  same_env s s' -> w_tick_state s' = w_tick_state s ->
  try_apply_interventions s' layer canonical handle req msg = try_apply_interventions s layer canonical handle req msg.
Proof.
  intros He Ht. unfold try_apply_interventions. destruct (hsreq_interventions req) as [|r rs]; [done|]. destruct (msg_output msg) as [[output|]|]; [|done..].
  destruct (split_recipes canonical (r :: rs)) as [[heads regular]|]; cbv iota; [|done].
  destruct (match heads with [] => _ | _ => _ end) as [current|]; cbv iota; [|done].
  rewrite (apply_heads_env s s') by done. destruct (apply_heads s layer canonical handle heads current []) as [[c f]|]; cbv iota; [|done].
  destruct regular; [done|]. by rewrite (apply_at_env s s').
Qed.

Lemma tick_answer_env s s' t handle req msg : same_env s s' -> tick_answer s' t handle req msg = tick_answer s t handle req msg.
Proof.
  intros He. unfold tick_answer. rewrite (coord_env s s') by done. destruct (coord s (key msg)). apply try_apply_env; [|done].
  destruct He. by split.
Qed.

Lemma adv_env s s' t k : same_env s s' -> adv s' t k = adv s t k.
Proof. intros He. unfold adv. by rewrite (coord_env s s'). Qed.

Lemma exchange_env s s' t handle req m rs msgs irs :
  same_env s s' -> exchange s' t handle req m rs msgs irs -> exchange s t handle req m rs msgs irs.
Proof.
  intros He. revert t rs irs. induction msgs as [|msg msgs IH]; intros t rs irs; destruct irs as [|ir irs]; try done. cbn [exchange]. cbv zeta.
  rewrite (adv_env s s'), (tick_answer_env s s') by done. intros (H1 & H2 & H3). split_and!; [done|done|]. by apply IH.
Qed.

Lemma exchange_length s t handle req m rs msgs irs : exchange s t handle req m rs msgs irs -> List.length irs = List.length msgs.
Proof.
  revert t rs irs. induction msgs as [|msg msgs IH]; intros t rs irs; destruct irs as [|ir irs]; try done.
  intros (_ & _ & H). cbn. f_equal. by eapply IH.
Qed.

Lemma delivers_tail (m : Model) (rs : list (option Tensor)) k r t :
  delivers m (List.length rs) (k :: r) -> delivers m (List.length (rs ++ [t])) r.
Proof.
  intros Hd rs' j Hl Hj. rewrite length_app in Hl. cbn in Hl.
  apply (Hd rs' (S j)); cbn; lia.
Qed.

(** One turn of the loop on a tick. *)
Lemma loop_body_tick now handle req plan max l m (rs : list (option Tensor)) k r all :
  w_forward_pass (l_state l) = Some (mkForwardPassState m rs false) ->
  delivers m (List.length rs) (k :: r) -> index_ok (l_state l) -> 0 <= max < 2 ^ 32 ->
  l_events l = take (Z.to_nat max) all -> l_truncated l = (max <? Z.of_nat (List.length all)) ->
  let s := l_state l in
  let t := adv s (w_tick_state s) k in
  let all' := all ++ events_at now (set_w_tick_state t s) (point_at s (snd (coord s k)) (fst (coord s k)) (snd k)) in
  let '(stop, tk, tr, dr) := count_tick plan (snd (coord s k)) (l_ticks l) (l_tracking l) (l_drain l) in
  exists (msg : Msg) (res : result Fail Next) l', m rs = Ok msg /\ key msg = k /\ loop_body now handle req plan max l = (res, l') /\
    same_env s (l_state l') /\ w_tick_state (l_state l') = t /\
    match tick_answer s t handle req msg with
    | Err f => res = Err f /\ w_forward_pass (l_state l') = Some (mkForwardPassState m rs false)
    | Ok ir =>
        res = Ok (if stop then Stop else Continue) /\
        w_forward_pass (l_state l') = Some (mkForwardPassState m (if stop then rs else rs ++ [fst <$> ir]) false) /\
        l_fired l' = l_fired l ++ (if stop then [] else from_option snd [] ir) /\
        l_ticks l' = tk /\ l_tracking l' = tr /\ l_drain l' = dr /\
        l_events l' = take (Z.to_nat max) all' /\ l_truncated l' = (max <? Z.of_nat (List.length all'))
    end.
Proof.
  intros Hf Hd Hix Hm Hev Htr s t all'.
  destruct (Hd rs 0%nat) as (msg & Hmsg & Hk & Hns); [lia|cbn; lia|]. cbn in Hk. destruct k as [p ci]. injection Hk as Hp Hc. cbn in Hns.
  fold s in Hf, Hix. unfold loop_body. cbv zeta. fold s. rewrite Hf. cbn [fp_model fp_resumes]. rewrite Hmsg, Hp, Hc, bool_decide_eq_false_2 by done.
  pose proof (stash_env msg s) as He0. pose proof (stash_tick msg s) as Hs1. pose proof (stash_pass msg s) as Hp1. set (s1 := stash_tensor_output msg s) in *.
  pose proof (lookup_coord s1 (p, ci) (index_ok_env _ _ He0 Hix)) as Hlook. cbn [fst snd] in Hlook.
  rewrite Hlook, (coord_env _ _ _ He0). destruct (coord s (p, ci)) as [cn ly] eqn:Ecoord. cbn [fst snd] in *.
  set (s2 := set_w_tick_state (advance cn ly ci (w_tick_state s1)) s1).
  assert (He2 : same_env s s2) by (destruct He0; by split).
  assert (Ht2 : w_tick_state s2 = t).
  { subst s2 t. cbn. unfold adv. rewrite Ecoord. cbn. by rewrite Hs1. }
  assert (Hf2 : w_forward_pass s2 = Some (mkForwardPassState m rs false)) by (subst s2; cbn; by rewrite Hp1).
  rewrite Hev, Htr, tick_events_spec by done.
  assert (Hall : all ++ events_at now s2 (point_at s2 ly cn ci) = all').
  { subst all'. f_equal. rewrite (point_at_env s s2) by done. apply events_at_env; [destruct He2; by split|done]. }
  rewrite Hall.
  assert (Hans : try_apply_interventions s2 ly cn handle req msg = tick_answer s t handle req msg).
  { unfold tick_answer, key. rewrite Hp, Hc, Ecoord. apply try_apply_env; [destruct He2; by split|done]. }
  rewrite Hans.
  destruct (count_tick plan ly (l_ticks l) (l_tracking l) (l_drain l)) as [[[stop tk] tr] dr].
  assert (Hput : forall x, w_forward_pass (put_resume x s2) = Some (mkForwardPassState m (rs ++ [x]) false)) by (intros x; unfold put_resume; by rewrite Hf2).
  assert (Hput2 : forall x, same_env s (put_resume x s2)) by (intros x; etrans; [exact He2|apply put_env]).
  exists msg. unfold key. rewrite Hp, Hc.
  destruct (tick_answer s t handle req msg) as [ir|f]; [|do 2 eexists; by split_and!].
  destruct stop; [|destruct ir as [[x fired]|]]; do 2 eexists; (split; [done|]); (split; [done|]); (split; [reflexivity|]);
    cbn [l_state l_ticks l_tracking l_drain l_events l_truncated l_fired from_option]; rewrite ?app_nil_r, ?put_tick, ?Hput; split_and!; done.
Qed.

Definition layers_of (s : WorkerState) (ticks : list (string * Z)) : list Z := (fun k => snd (coord s k)) <$> ticks.

Lemma layers_of_env s s' ticks : same_env s s' -> layers_of s' ticks = layers_of s ticks.
Proof. intros He. apply list_fmap_ext. intros i k _. by rewrite (coord_env s s'). Qed.

Lemma foldl_adv_env s s' t ticks : same_env s s' -> foldl (adv s') t ticks = foldl (adv s) t ticks.
Proof.
  intros He. revert t. induction ticks as [|k r IH]; intros t; [done|]. cbn. rewrite IH. f_equal. unfold adv.
  by rewrite (coord_env s s').
Qed.

(** The completion message ends the loop. *)
Lemma loop_body_complete now handle req plan max l m (rs : list (option Tensor)) :
  w_forward_pass (l_state l) = Some (mkForwardPassState m rs false) -> delivers m (List.length rs) [] ->
  exists l', loop_body now handle req plan max l = (Ok Complete, l') /\ same_env (l_state l) (l_state l') /\
    w_tick_state (l_state l') = w_tick_state (l_state l) /\
    w_forward_pass (l_state l') = Some (mkForwardPassState m rs false) /\
    l_events l' = l_events l /\ l_truncated l' = l_truncated l /\ l_fired l' = l_fired l.
Proof.
  intros Hf Hd. destruct (Hd rs 0%nat) as (msg & Hmsg & Hp); [lia|done|]. cbn in Hp.
  unfold loop_body. rewrite Hf. cbn [fp_model fp_resumes]. rewrite Hmsg, bool_decide_eq_true_2 by done.
  eexists. split; [done|]. cbn. split_and!; [apply stash_env|apply stash_tick|by rewrite stash_pass|done|done|done].
Qed.

Lemma step_failure_cons s s1 t handle req m rs (ir : option (Tensor * list string)) k ticks n msg0 msgs irs f s' :
  same_env s s1 -> key msg0 = k ->
  step_failure s1 (adv s t k) handle req m (rs ++ [fst <$> ir]) ticks n msgs irs f s' ->
  step_failure s t handle req m rs (k :: ticks) (S n) (msg0 :: msgs) (ir :: irs) f s'.
Proof.
  intros He Hk (msg & Hn & Ht & Hm & Ha & Hts & Hf). exists msg.
  rewrite (foldl_adv_env s) in Ha, Hts by done. rewrite (tick_answer_env s) in Ha by done.
  rewrite <- app_assoc in Hm, Hf. cbn [List.length]. split_and!; try done. lia.
Qed.

Lemma step_loop_run now handle req plan max ticks fuel l m (rs : list (option Tensor)) all :
  w_forward_pass (l_state l) = Some (mkForwardPassState m rs false) ->
  delivers m (List.length rs) ticks -> index_ok (l_state l) -> 0 <= max < 2 ^ 32 ->
  (List.length ticks < fuel)%nat ->
  l_events l = take (Z.to_nat max) all -> l_truncated l = (max <? Z.of_nat (List.length all)) ->
  let s := l_state l in
  let t0 := w_tick_state s in
  let '(n, complete) := taken plan (l_ticks l) (l_tracking l) (l_drain l) (layers_of s ticks) in
  let all' := all ++ events_from now s t0 (take n ticks) in
  exists (msgs : list Msg) irs (r : result Fail Next) l', step_loop fuel now handle req plan max l = Some (r, l') /\
    same_env s (l_state l') /\ exchange s t0 handle req m rs msgs irs /\ key <$> msgs = take (List.length msgs) ticks /\
    match r with
    | Err f => step_failure s t0 handle req m rs ticks n msgs irs f (l_state l')
    | Ok next =>
        let given := if complete then irs else removelast irs in
        next = (if complete then Complete else Stop) /\ List.length msgs = n /\
        w_tick_state (l_state l') = foldl (adv s) t0 (take n ticks) /\
        w_forward_pass (l_state l') = Some (mkForwardPassState m (rs ++ replacements given) false) /\
        l_fired l' = l_fired l ++ fired_in given /\
        l_events l' = take (Z.to_nat max) all' /\ l_truncated l' = (max <? Z.of_nat (List.length all'))
    end.
Proof.
  revert fuel l rs all. induction ticks as [|k r IH]; intros fuel l rs all Hf Hd Hix Hm Hfuel Hev Htr s t0;
    destruct fuel as [|fuel]; try (cbn in Hfuel; lia); cbn [layers_of fmap list_fmap taken step_loop].
  - destruct (loop_body_complete now handle req plan max l m rs Hf Hd) as (l' & -> & He & Ht & Hf' & E1 & E2 & E3).
    cbn. rewrite app_nil_r. eexists [], [], _, l'. split; [reflexivity|]. cbn. rewrite !app_nil_r. split_and!; try done; congruence.
  - pose proof (loop_body_tick now handle req plan max l m rs k r all Hf Hd Hix Hm Hev Htr) as Hb. cbv zeta in Hb. fold s in Hb. fold t0 in Hb.
    destruct (count_tick plan (snd (coord s k)) (l_ticks l) (l_tracking l) (l_drain l)) as [[[stop tk] tr] dr].
    destruct Hb as (msg & res & l1 & Hmsg & Hk & -> & He & Ht & Hres).
    assert (Hnx : forall ir, tick_answer s (adv s t0 k) handle req msg = Ok ir -> exchange s t0 handle req m rs [msg] [ir]).
    { intros ir E. cbn. by rewrite Hk. }
    destruct (tick_answer s (adv s t0 k) handle req msg) as [ir|f] eqn:Eans.
    2:{ destruct Hres as [-> Hf1].
        assert (Hfail : forall n, (0 < n)%nat -> step_failure s t0 handle req m rs (k :: r) n [] [] f (l_state l1)).
        { intros n Hn. exists msg. cbn. rewrite app_nil_r, Hk. by split_and!. }
        destruct stop; [|fold (layers_of s r); destruct (taken plan tk tr dr (layers_of s r)) as [n complete]];
          eexists [], [], _, l1; (split; [reflexivity|]); (split_and!; try done); apply Hfail; lia. }
    destruct Hres as (-> & Hf1 & Hfi & <- & <- & <- & Hev1 & Htr1).
    set (all1 := all ++ _) in Hev1, Htr1.
    destruct stop.
    + eexists [msg], [ir], _, l1. split; [reflexivity|]. split; [done|]. split; [by apply Hnx|]. cbn [take foldl events_from List.length fmap list_fmap]. rewrite Hk, app_nil_r.
      cbn [removelast replacements fmap list_fmap]. rewrite app_nil_r. rewrite app_nil_r in Hfi. unfold fired_in. cbn. rewrite app_nil_r. split_and!; try done.
    + specialize (IH fuel l1 (rs ++ [fst <$> ir]) all1 Hf1 (delivers_tail _ _ _ _ _ Hd) (index_ok_env _ _ He Hix) Hm).
      specialize (IH ltac:(cbn in Hfuel; lia) Hev1 Htr1). cbv zeta in IH.
      rewrite (layers_of_env s (l_state l1)) in IH by done.
      fold (layers_of s r) in *.
      destruct (taken plan (l_ticks l1) (l_tracking l1) (l_drain l1) (layers_of s r)) as [n complete] eqn:Etk.
      destruct IH as (msgs & irs & res & l' & -> & He' & Hex & Hkeys & Hres). rewrite Ht in Hex, Hres.
      eexists (msg :: msgs), (ir :: irs), res, l'. split; [reflexivity|]. split; [by etrans|].
      split. { cbn [exchange]. rewrite Hk. split_and!; try done. by eapply exchange_env. }
      split. { cbn [fmap list_fmap List.length take]. rewrite Hk. f_equal. exact Hkeys. }
      destruct res as [next|f]; [|by eapply step_failure_cons].
      destruct Hres as (-> & Hl & Ht' & Hf' & Hfi' & Hev' & Htr'). split; [done|]. split; [cbn; lia|].
      assert (Hgiven : (if complete then ir :: irs else removelast (ir :: irs)) = ir :: (if complete then irs else removelast irs)).
      { destruct complete; [done|]. apply taken_pos in Etk. apply exchange_length in Hex. destruct irs; [cbn in Hex; lia|done]. }
      rewrite Hgiven. set (given := if complete then irs else removelast irs) in *.
      assert (Hall : all1 ++ events_from now (l_state l1) (adv s t0 k) (take n r) = all ++ events_from now s t0 (take (S n) (k :: r))).
      { subst all1. rewrite <- app_assoc. cbn [take events_from]. f_equal. f_equal. apply events_from_env. destruct He; by split. }
      rewrite Hall in Hev', Htr'. split_and!; try done.
      * by rewrite Ht', (foldl_adv_env s).
      * rewrite Hf'. by rewrite <- app_assoc.
      * rewrite Hfi', Hfi, <- app_assoc. done.
Qed.

(** ** Whole steps *)

Definition resuming (s : WorkerState) : bool := match w_forward_pass (teardown s) with Some _ => true | None => false end.

(** The pass a step works on and the resume entries before its first tick: the
    pass in progress, resumed without a replacement, or a fresh one. *)
Definition pass_of (start : result PyErr Model) (s : WorkerState) (m : Model) (rs : list (option Tensor)) : Prop :=
  match w_forward_pass (teardown s) with
  | Some fp => m = fp_model fp /\ rs = fp_resumes fp ++ [None]
  | None => start = Ok m /\ rs = []
  end.

Lemma teardown_env s : same_env s (teardown s).
Proof. unfold teardown. destruct (w_forward_pass s) as [fp|]; [|done]. by destruct (fp_complete fp). Qed.

Lemma teardown_incomplete s fp : w_forward_pass (teardown s) = Some fp -> fp_complete fp = false.
Proof.
  unfold teardown. destruct (w_forward_pass s) as [fp'|] eqn:E; [|by rewrite E].
  destruct (fp_complete fp') eqn:Ec; [done|]. rewrite E. by intros [= <-].
Qed.

(** The loop's starting point. *)
Lemma enter_loop start s m rs elapsed :
  pass_of start s m rs -> exists s1,
    ensure_forward_pass start (teardown s) = (Ok tt, s1) /\
    same_env s (if resuming s then put_resume None s1 else s1) /\
    w_tick_state (if resuming s then put_resume None s1 else s1) = w_tick_state (teardown s) /\
    w_forward_pass (if resuming s then put_resume None s1 else s1) = Some (mkForwardPassState m rs false) /\
    tp_layer (to_tick_position elapsed (w_tick_state s1)) = ts_layer (w_tick_state (teardown s)).
Proof.
  unfold pass_of, resuming, ensure_forward_pass. pose proof (teardown_env s) as He.
  destruct (w_forward_pass (teardown s)) as [fp|] eqn:Ef.
  - intros [-> ->]. exists (teardown s). split_and!; try done.
    + etrans; [exact He|apply put_env].
    + by rewrite put_tick.
    + unfold put_resume. rewrite Ef. cbn. by rewrite (teardown_incomplete s fp Ef).
  - intros [-> ->]. eexists. split; [done|]. split_and!; try done. destruct He. by split.
Qed.

(** C14: a step of the worker works through exactly the ticks it was planned for -
    the first [count] ticks of the pass, or, by layer, the ticks up to and
    including the one that makes the layer change for the [count + 1]-st time -
    or the whole pass when it ends first (a pass that delivers fewer than 2^32
    ticks and then completes, whatever it is resumed with; the count and
    [max_events] are 32-bit, and the worker's index belongs to its component map,
    which every attach sees to and every request keeps).  When the recipes fail
    at none of these ticks, the cursor ends on the last of them (on a fresh token
    when the pass completed), the response reports that position, the probe
    events are the first [max_events] of all the events of the ticks in order,
    flagged as truncated exactly when there were more, the model has been resumed
    with what the recipes answered to each tick but the one a step stops on,
    where it stays paused, and exactly the recipes of those answers are reported
    as fired.  When the recipes raise or panic at one of the ticks, the step ends
    there with that failure: the cursor is on that tick and the model paused on
    it.  A step fails in no other way. *)
Theorem worker_step_correct (fuel : nat) (now elapsed handle : Z) (start : result PyErr Model) (req : HostStepRequest)
    (s : WorkerState) (m : Model) (rs : list (option Tensor)) (ticks : list (string * Z))
    (Hpass : pass_of start s m rs) (Hd : delivers m (List.length rs) ticks) (Hix : index_ok s)
    (Hmax : 0 <= default 256 (hsreq_max_events req) < 2 ^ 32)
    (Hcount : hsreq_count req < 2 ^ 32) (Hlen : Z.of_nat (List.length ticks) < 2 ^ 32)
    (Hfuel : (List.length ticks < fuel)%nat) :
  let t0 := w_tick_state (teardown s) in
  let prev := if resuming s then Some (ts_layer t0) else None in
  let plan := plan_step (hsreq_count req) (hsreq_granularity req) in
  let max := default 256 (hsreq_max_events req) in
  exists n complete (msgs : list Msg) irs (r : result Fail HostStepResponse) s',
    first_place (enough plan prev) (layers_of s ticks) n complete /\
    run_step_loop fuel now elapsed handle start req s = Some (r, s') /\
    exchange s t0 handle req m rs msgs irs /\ key <$> msgs = take (List.length msgs) ticks /\
    match r with
    | Err f => step_failure s t0 handle req m rs ticks n msgs irs f s'
    | Ok resp =>
        let given := if complete then irs else removelast irs in
        List.length msgs = n /\
        hsrsp_forward_complete resp = complete /\
        w_tick_state s' = (if complete then advance_token else fun t => t) (foldl (adv s) t0 (take n ticks)) /\
        hsrsp_position resp = to_tick_position elapsed (w_tick_state s') /\
        hsrsp_events resp = take (Z.to_nat max) (events_from now s t0 (take n ticks)) /\
        hsrsp_events_truncated resp = (max <? Z.of_nat (List.length (events_from now s t0 (take n ticks)))) /\
        w_forward_pass s' = Some (mkForwardPassState m (rs ++ replacements given) complete) /\
        hsrsp_fired_interventions resp = fired_in given
    end.
Proof.
  intros t0 prev plan max. destruct (enter_loop start s m rs elapsed Hpass) as (s1 & E1 & He & Ht & Hf & Hly).
  set (l0 := mkLoop (if resuming s then put_resume None s1 else s1) 0 prev Counting [] false []).
  pose proof (step_loop_run now handle req plan max ticks fuel l0 m rs [] Hf Hd (index_ok_env _ _ He Hix) Hmax Hfuel) as Hrun.
  specialize (Hrun ltac:(cbn; by rewrite take_nil) ltac:(cbn; symmetry; apply Z.ltb_ge; lia)). cbv zeta in Hrun.
  cbn [l_state l_ticks l_tracking l_drain l0] in Hrun. rewrite (layers_of_env s) in Hrun by done.
  pose proof (taken_enough plan prev (layers_of s ticks)) as Hen.
  specialize (Hen ltac:(unfold layers_of; rewrite length_fmap; lia) Hcount).
  destruct (taken plan 0 prev Counting (layers_of s ticks)) as [n complete].
  destruct Hrun as (msgs & irs & r & l' & Hloop & He' & Hex & Hkeys & Hres).
  rewrite Ht in Hex, Hres. fold t0 in Hex, Hres. apply (exchange_env s) in Hex; [|done].
  unfold run_step_loop. fold plan. cbv zeta. change (match w_forward_pass (teardown s) with Some _ => true | None => false end) with (resuming s).
  rewrite E1, Hly. fold t0 prev l0 max. rewrite Hloop.
  exists n, complete, msgs, irs. destruct r as [next|f]; do 2 eexists; (split; [exact Hen|]); (split; [reflexivity|]); (split; [exact Hex|]); (split; [exact Hkeys|]).
  - rewrite (foldl_adv_env s), (events_from_env now s) in Hres by done.
    destruct Hres as (-> & Hl & Ht' & Hf' & Hfi & Hev & Htr).
    destruct complete; cbn [hsrsp_forward_complete hsrsp_position hsrsp_events hsrsp_events_truncated hsrsp_fired_interventions].
    + split_and!; try done; [cbn; by rewrite Ht'|]. unfold mark_complete. rewrite Hf'. reflexivity.
    + split_and!; try done.
  - destruct Hres as (msg & Hn & Hk & Hm & Ha & Hts & Hfp). exists msg.
    rewrite (foldl_adv_env s) in Ha, Hts by done. rewrite (tick_answer_env s) in Ha by done. by split_and!.
Qed.

(** ** Recipes and single ticks *)

Lemma loop_body_single now handle req plan max l next l' :
  granularity plan <> TickGranularity_Layer -> ticks_to_drain plan <= 1 -> l_ticks l = 0 ->
  loop_body now handle req plan max l = (Ok next, l') ->
  next <> Continue /\ l_fired l' = l_fired l /\ w_forward_pass (l_state l') = w_forward_pass (l_state l).
Proof.
  intros Hg Hc Ht. unfold loop_body. cbv zeta. destruct (w_forward_pass (l_state l)) as [fp|] eqn:Ef; [|done].
  destruct (fp_model fp (fp_resumes fp)) as [msg|]; [|done].
  case_bool_decide; [intros [= <- <-]; cbn; by rewrite stash_pass|].
  destruct (lookup_component _ _ _) as [[cn ly]|]; [|done].
  destruct (tick_events _ _ _ _ _ _ _ _) as [events truncated].
  destruct (try_apply_interventions _ _ _ _ _ _) as [ir|]; [|done].
  assert (E : count_tick plan ly (l_ticks l) (l_tracking l) (l_drain l) = (true, 1, l_tracking l, l_drain l)).
  { unfold count_tick. rewrite Ht. change (u32_wrap (0 + 1)) with 1.
    assert (Hle : (ticks_to_drain plan <=? 1) = true) by (apply Z.leb_le; lia). rewrite Hle. by destruct (granularity plan). }
  rewrite E. intros [= <- <-]. cbn. by rewrite stash_pass.
Qed.

(** A step of a single tick never applies an intervention: whatever recipes
    the request carries, the response lists none as fired, and the model is not
    given a replacement for the tick it stopped on - a pass in progress is
    resumed with none, and the tick itself is answered by the next step, which
    again resumes it with none. *)
Theorem single_tick_step_ignores_recipes (fuel : nat) (now elapsed handle : Z) (start : result PyErr Model)
    (req : HostStepRequest) (s s' : WorkerState) (resp : HostStepResponse)
    (Hg : hsreq_granularity req <> Some TickGranularity_Layer) (Hc : hsreq_count req <= 1)
    (H : run_step_loop fuel now elapsed handle start req s = Some (Ok resp, s')) :
  hsrsp_fired_interventions resp = [] /\
  exists fp', w_forward_pass s' = Some fp' /\
    match w_forward_pass (teardown s) with
    | Some fp => fp_resumes fp' = fp_resumes fp ++ [None]
    | None => fp_resumes fp' = []
    end.
Proof.
  unfold run_step_loop in H. cbv zeta in H.
  destruct (ensure_forward_pass start (teardown s)) as [[[]|e] s1] eqn:E1; [|done].
  assert (Hfp0 : exists fp0,
    w_forward_pass (if match w_forward_pass (teardown s) with Some _ => true | None => false end then put_resume None s1 else s1) = Some fp0 /\
    match w_forward_pass (teardown s) with Some fp => fp_resumes fp0 = fp_resumes fp ++ [None] | None => fp_resumes fp0 = [] end).
  { clear H. unfold ensure_forward_pass in E1. destruct (w_forward_pass (teardown s)) as [fp|] eqn:Ef.
    - injection E1 as Es. subst s1. unfold put_resume. rewrite Ef. cbn. eauto.
    - destruct start; [|done]. injection E1 as Es. subst s1. cbn. eauto. }
  set (l0 := mkLoop _ 0 _ Counting [] false []) in H.
  set (plan := plan_step _ _) in H. destruct fuel as [|fuel]; [done|]. cbn [step_loop] in H.
  destruct (loop_body now handle req plan _ l0) as [r l1] eqn:Eb.
  destruct r as [next|e]; [|done].
  assert (Hg' : granularity plan <> TickGranularity_Layer).
  { subst plan. cbn. destruct (hsreq_granularity req) as [g|]; [|done]. cbn. intros ->. done. }
  destruct (loop_body_single now handle req plan _ l0 next l1 Hg' Hc (eq_refl : l_ticks l0 = 0) Eb) as (Hn & Hfi & Hfp).
  destruct Hfp0 as (fp0 & Hfp0 & Hr). change (w_forward_pass (l_state l0) = Some fp0) in Hfp0. rewrite Hfp0 in Hfp.
  destruct next; [|injection H as <- <-; cbn; split; [done|]; eauto|done].
  injection H as <- <-. cbn. split; [done|]. unfold mark_complete. rewrite Hfp. cbn. eauto.
Qed.

(** The loop moves neither the token clock nor the phase. *)
Definition token_phase (s : WorkerState) : Z * Phase := (ts_token (w_tick_state s), ts_phase (w_tick_state s)).

Lemma loop_body_token now handle req plan max l r l' :
  loop_body now handle req plan max l = (r, l') -> token_phase (l_state l') = token_phase (l_state l).
Proof.
  unfold loop_body, token_phase. cbv zeta. destruct (w_forward_pass (l_state l)) as [fp|]; [|by intros [= _ <-]].
  destruct (fp_model fp (fp_resumes fp)) as [msg|]; [|by intros [= _ <-]].
  case_bool_decide; [intros [= _ <-]; cbn; by rewrite stash_tick|].
  destruct (lookup_component _ _ _) as [[cn ly]|]; [|intros [= _ <-]; cbn; by rewrite stash_tick].
  destruct (tick_events _ _ _ _ _ _ _ _) as [events truncated].
  destruct (try_apply_interventions _ _ _ _ _ _) as [ir|]; [|intros [= _ <-]; cbn; by rewrite stash_tick].
  destruct (count_tick _ _ _ _ _) as [[[[] tk] tr] dr]; [intros [= _ <-]; cbn; by rewrite stash_tick|].
  destruct ir as [[t fired]|]; intros [= _ <-]; cbn [l_state]; rewrite put_tick; cbn; by rewrite stash_tick.
Qed.

Lemma step_loop_token fuel now handle req plan max l r l' :
  step_loop fuel now handle req plan max l = Some (r, l') -> token_phase (l_state l') = token_phase (l_state l).
Proof.
  revert l. induction fuel as [|fuel IH]; intros l; [done|]. cbn [step_loop].
  destruct (loop_body now handle req plan max l) as [r1 l1] eqn:E. apply loop_body_token in E. rewrite <- E.
  destruct r1 as [[]|]; try (by intros [= _ <-]). apply IH.
Qed.

(** When a pass has completed the next step starts over: its position is a
    prefill tick of token 0 again, whatever token the completed pass had
    reached, unless the step completes the new pass in turn. *)
Theorem next_pass_restarts_clocks (fuel : nat) (now elapsed handle : Z) (start : result PyErr Model)
    (req : HostStepRequest) (s s' : WorkerState) (fp : ForwardPassState) (resp : HostStepResponse)
    (Hfp : w_forward_pass s = Some fp) (Hdone : fp_complete fp = true)
    (H : run_step_loop fuel now elapsed handle start req s = Some (Ok resp, s'))
    (Hinc : hsrsp_forward_complete resp = false) :
  tp_phase (hsrsp_position resp) = Phase_Prefill /\
  tp_clock (hsrsp_position resp) = Some (mkTickClock 0 (tp_tick_id (hsrsp_position resp)) (wall_ns elapsed)).
Proof.
  assert (Et : w_forward_pass (teardown s) = None /\ w_tick_state (teardown s) = TickState_new (w_rank s)).
  { unfold teardown. rewrite Hfp, Hdone. done. }
  destruct Et as [Ef Et]. unfold run_step_loop, ensure_forward_pass in H. cbv zeta in H. rewrite Ef in H.
  destruct start as [m|e]; [|done].
  destruct (step_loop _ _ _ _ _ _ _) as [[r l']|] eqn:El; [|done]. apply step_loop_token in El.
  unfold token_phase in El. cbn [l_state set_w_forward_pass set_w_last_outputs w_tick_state] in El. rewrite Et in El. cbn in El.
  injection El as E1 E2. destruct r as [next|e]; [|done]. injection H as <- _. cbn in Hinc |- *.
  destruct next; [done| |]; cbn; by rewrite E1, E2.
Qed.

End Spec.

(** ** A concrete pass *)

Module Demo.

Definition bridge : PyBridge := {|
  Tensor := Z;
  PyErr := unit;
  tensor_clone := fun t => Ok t;
  tensor_shape := fun _ => Ok [1; 8];
  tensor_getitem := fun t _ _ => Ok t;
  tensor_setitem := fun _ _ _ v => Ok v;
  apply_interventions_at_point := fun t rs _ _ _ _ _ _ _ => Ok (t + 1, omap ir_id rs);
  compare_activations := fun _ _ _ _ _ _ => Ok None
|}.
(** The same library with interventions that raise. *)
Definition raising : PyBridge := {|
  Tensor := Z;
  PyErr := unit;
  tensor_clone := fun t => Ok t;
  tensor_shape := fun _ => Ok [1; 8];
  tensor_getitem := fun t _ _ => Ok t;
  tensor_setitem := fun _ _ _ v => Ok v;
  apply_interventions_at_point := fun _ _ _ _ _ _ _ _ _ => Err tt;
  compare_activations := fun _ _ _ _ _ _ => Ok None
|}.
#[export] Existing Instance bridge.
#[export] Existing Instance winnow_ref.

Definition modules : list RawModule :=
  [mkRawModule "model.layers.0.input_layernorm" "LlamaRMSNorm" "input_layernorm";
   mkRawModule "model.layers.0.self_attn.q_proj" "Linear" "q_proj";
   mkRawModule "model.layers.1.input_layernorm" "LlamaRMSNorm" "input_layernorm";
   mkRawModule "model.layers.2.input_layernorm" "LlamaRMSNorm" "input_layernorm"]%string.

Definition map : ComponentMap :=
  match resolve modules (mkModelConfig "llama" 3 2 8 None) 0 with Ok m => m | Err _ => mkComponentMap [] "" [] end.

Definition ticks : list (string * Z) := (fun m => (rm_path m, 0)) <$> modules.

(** The pass: one message per module, then completion. *)
Definition model : @Model bridge := fun rs =>
  match ticks !! List.length rs with
  | Some (p, ci) => Ok (mkMsg p ci (Some (Some 0)) [])
  | None => Ok (mkMsg FORWARD_COMPLETE_SENTINEL 0 None [])
  end.

Definition probe : ProbeDefinition * ProbePoint :=
  (mkProbeDefinition "p1" "llama:*:*:ln1:*:output" ProbeAction_Capture None true 0,
   mkProbePoint (Name "llama") NumWildcard NumWildcard (Path [Named "ln1"]) NumWildcard (Name "output")).

Definition worker : WorkerState :=
  mkWorkerState (Some map) (build_component_index map) (Some 1) 0 3 2 (TickState_new 0) None None [probe] None.

Definition recipe : InterventionRecipe :=
  mkInterventionRecipe (Some "r1"%string) InterventionType_Patch "llama:0:*:ln1:output" (InterventionParams_Patch "t0") None 0 CompositionMode_Replace.

Definition request (count : Z) (g : TickGranularity) : HostStepRequest :=
  mkHostStepRequest 1 count StepDirection_Forward (Some g) None [recipe] None.

Lemma delivered : delivers model 0 ticks.
Proof.
  intros rs j Hl Hj. rewrite Nat.add_0_l in Hl. subst j. unfold model. destruct (ticks !! List.length rs) as [[p ci]|] eqn:E.
  - eexists. split; [reflexivity|]. split; [done|]. cbn. intros ->.
    apply list_elem_of_lookup_2, list_elem_of_In in E. vm_compute in E. intuition discriminate.
  - eexists. split; reflexivity.
Qed.

Definition raising_model : @Model raising := fun rs =>
  match ticks !! List.length rs with
  | Some (p, ci) => Ok (mkMsg (B := raising) p ci (Some (Some 0)) [])
  | None => Ok (mkMsg (B := raising) FORWARD_COMPLETE_SENTINEL 0 None [])
  end.

Definition raising_worker : @WorkerState raising :=
  mkWorkerState (B := raising) (Some map) (build_component_index map) (Some 1) 0 3 2 (TickState_new 0) None None [probe] None.

Lemma raising_delivered : @delivers raising raising_model 0 ticks.
Proof.
  intros rs j Hl Hj. rewrite Nat.add_0_l in Hl. subst j. unfold raising_model. destruct (ticks !! List.length rs) as [[p ci]|] eqn:E.
  - eexists. split; [reflexivity|]. split; [done|]. cbn. intros ->.
    apply list_elem_of_lookup_2, list_elem_of_In in E. vm_compute in E. intuition discriminate.
  - eexists. split; reflexivity.
Qed.

Lemma index_good : index_ok worker.
Proof. by apply (build_index_ok worker map). Qed.

End Demo.

Import Demo.

(** Two components from a fresh pass: the first reports a probe event and is
    answered, the second leaves the model paused; with a library whose
    interventions raise, the step ends on the recipe's tick. *)
Lemma worker_step_correct_witness :
  (exists resp s', run_step_loop 10 0 0 1 (Ok model) (request 2 TickGranularity_Component) worker = Some (Ok resp, s') /\
    tp_component (hsrsp_position resp) = "q_proj"%string /\ List.length (hsrsp_events resp) = 1%nat) /\
  (exists s', @run_step_loop raising 10 0 0 1 (Ok raising_model) (request 2 TickGranularity_Component) raising_worker = Some (Err (Error (B := raising) tt), s') /\
    tick_id (w_tick_state s') = 1).
Proof.
  split.
  - destruct (worker_step_correct 10 0 0 1 (Ok model) (request 2 TickGranularity_Component) worker model [] ticks)
      as (n & complete & msgs & irs & r & s' & Hn & Hrun & _);
      [done|exact delivered|exact index_good|cbn; lia|cbn; lia|cbn; lia|cbn; lia|].
    assert (E : match run_step_loop 10 0 0 1 (Ok model) (request 2 TickGranularity_Component) worker with
                | Some (Ok resp, _) => tp_component (hsrsp_position resp) = "q_proj"%string /\ List.length (hsrsp_events resp) = 1%nat | _ => False end)
      by (vm_compute; split; reflexivity).
    rewrite Hrun in E. destruct r as [resp|f]; [|destruct E]. exists resp, s'. split; [exact Hrun|exact E].
  - destruct (@worker_step_correct raising 10 0 0 1 (Ok raising_model) (request 2 TickGranularity_Component) raising_worker raising_model [] ticks)
      as (n & complete & msgs & irs & r & s' & Hn & Hrun & _);
      [done|exact raising_delivered|by apply (build_index_ok raising_worker map)|cbn; lia|cbn; lia|cbn; lia|cbn; lia|].
    assert (E : match @run_step_loop raising 10 0 0 1 (Ok raising_model) (request 2 TickGranularity_Component) raising_worker with
                | Some (Err (Error tt), s) => tick_id (w_tick_state s) = 1 | _ => False end)
      by (vm_compute; reflexivity).
    rewrite Hrun in E. destruct r as [resp|[|[]]]; [destruct E..|]. exists s'. split; [exact Hrun|exact E].
Defined.

Definition reply (r : option (result Fail HostStepResponse * WorkerState)) : option (string * bool) :=
  match r with Some (Ok resp, _) => Some (tp_component (hsrsp_position resp), hsrsp_forward_complete resp) | _ => None end.

(** The recipe targets the very component the step stops on, and is not applied. *)
Lemma single_tick_step_ignores_recipes_witness :
  match run_step_loop 10 0 0 1 (Ok model) (request 1 TickGranularity_Component) worker with
  | Some (Ok resp, _) => tp_component (hsrsp_position resp) = "ln1"%string /\ hsrsp_fired_interventions resp = []
  | _ => False
  end.
Proof.
  assert (Hr : reply (run_step_loop 10 0 0 1 (Ok model) (request 1 TickGranularity_Component) worker) = Some ("ln1"%string, false)) by (vm_compute; reflexivity).
  destruct (run_step_loop 10 0 0 1 (Ok model) (request 1 TickGranularity_Component) worker) as [[[resp|e] s']|] eqn:E; [|discriminate Hr..].
  injection Hr as Hr _. split; [exact Hr|].
  apply (single_tick_step_ignores_recipes 10 0 0 1 (Ok model) (request 1 TickGranularity_Component) worker s' resp);
    [discriminate|cbn; lia|exact E].
Defined.

(** The worker after a completed pass; the token clock reads 1. *)
Definition second : WorkerState := match run_step_loop 10 0 0 1 (Ok model) (request 9 TickGranularity_Component) worker with Some (_, s) => s | None => worker end.

Lemma next_pass_restarts_clocks_witness :
  ts_token (w_tick_state second) = 1 /\
  match run_step_loop 10 0 0 1 (Ok model) (request 1 TickGranularity_Component) second with
  | Some (Ok resp, _) => tp_phase (hsrsp_position resp) = Phase_Prefill
  | _ => False
  end.
Proof.
  split; [vm_compute; reflexivity|].
  assert (Hr : reply (run_step_loop 10 0 0 1 (Ok model) (request 1 TickGranularity_Component) second) = Some ("ln1"%string, false)) by (vm_compute; reflexivity).
  destruct (run_step_loop 10 0 0 1 (Ok model) (request 1 TickGranularity_Component) second) as [[[resp|e] s']|] eqn:E; [|discriminate Hr..]. injection Hr as _ Hr.
  destruct (w_forward_pass second) as [fp|] eqn:Ef; [|vm_compute in Ef; discriminate].
  assert (Hdone : (match w_forward_pass second with Some f => fp_complete f | None => false end) = true) by (vm_compute; reflexivity).
  rewrite Ef in Hdone.
  apply (next_pass_restarts_clocks 10 0 0 1 (Ok model) (request 1 TickGranularity_Component) second s' fp resp Ef Hdone E Hr).
Defined.
