(* ===== verification/Target.v ===== *)
(** * Target: validating targets and suggesting components

    The pure part of [crates/rocket-surgeon/src/dispatch.rs]: the component a
    target names, the two-row dynamic programme of [edit_distance] and the
    ranking of [nearest_components].  Indexing a [Vec] out of range panics in
    Rust, so the row operations return [None] there and the theorems say that
    they never do. *)

From Stdlib Require Import ZArith Lia Ascii String Sorted.
From stdpp Require Import base relations strings list sorting.
From S2P Require Import Prelude Framing Protocol Json Session Discover.
Open Scope Z_scope.

Definition CANONICAL_COMPONENTS : list string :=
  ["embed"; "q_proj"; "k_proj"; "v_proj"; "o_proj"; "scores"; "mlp"; "gate_proj"; "up_proj"; "down_proj";
   "router"; "residual_pre"; "residual_post"; "ln1"; "ln2"; "ln_final"; "lm_head"]%string.

(** [rsplit('.').next()] is the last segment; [find('[')] cuts at the first bracket. *)
Definition component_leaf (component : string) : string :=
  let leaf := List.last (split_on "."%char (chars component)) (chars component) in
  text (fst (span (fun c => negb (bool_decide (c = "["%char))) leaf)).

(** [str::chars]: the code points.  A Rust [str] is UTF-8, so the fallback is
    for lists of bytes that are no [str]. *)
Definition str_chars (s : string) : list Z :=
  default (ascii_code <$> chars s) (utf8_decode (chars s)).

(** [v[i] = x] *)
Definition vec_set (i : nat) (x : nat) (v : list nat) : option (list nat) :=
  if decide (i < length v)%nat then Some (<[i := x]> v) else None.

(** The inner loop, from column [j]. *)
Fixpoint column_loop (ca : Z) (bs : list Z) (j : nat) (prev curr : list nat) : option (list nat) :=
  match bs with
  | [] => Some curr
  | cb :: bs' =>
      let cost := if decide (ca = cb) then 0%nat else 1%nat in
      up ← prev !! S j; left ← curr !! j; diag ← prev !! j;
      curr ← vec_set (S j) (Nat.min (Nat.min (up + 1) (left + 1)) (diag + cost))%nat curr;
      column_loop ca bs' (S j) prev curr
  end.

(** The outer loop, from row [i]; the rows are swapped after each turn. *)
Fixpoint row_loop (as_ : list Z) (i : nat) (bs : list Z) (prev curr : list nat) : option (list nat * list nat) :=
  match as_ with
  | [] => Some (prev, curr)
  | ca :: as' =>
      curr ← vec_set 0 (i + 1) curr;
      curr ← column_loop ca bs 0 prev curr;
      row_loop as' (S i) bs curr prev
  end.

Definition edit_distance (a b : string) : option nat :=
  let a := str_chars a in
  let b := str_chars b in
  '(prev, _) ← row_loop a 0 b (seq 0 (S (length b))) (replicate (S (length b)) 0%nat);
  prev !! length b.

Definition target_component (target : string) : option string :=
  let parts := text <$> split_on ":"%char (chars target) in
  let idx := match length parts with 4%nat => 2%nat | _ => 3%nat end in
  c ← parts !! idx;
  if decide (c = ""%string) then None else Some c.

(** [x.0.cmp(&y.0).then_with(|| x.1.cmp(y.1))], as "not greater" *)
Definition scored_le (x y : nat * string) : bool :=
  match (x.1 ?= y.1)%nat with
  | Lt => true
  | Eq => string_le x.2 y.2
  | Gt => false
  end.

Definition nearest_components (attempted : string) : option (list string) :=
  scored ← mapM (fun c => d ← edit_distance attempted c; Some (d, c)) CANONICAL_COMPONENTS;
  let scored := sort_by scored_le scored in
  let best := match scored with [] => USIZE_MAX | s :: _ => Z.of_nat s.1 end in
  Some (snd <$> take 5 (List.filter (fun s => Z.of_nat s.1 <=? Z.min (best + 2) USIZE_MAX) scored)).

(** The target check shared by [handle_inspect] and [validate_recipe]. *)
Definition target_known (target : string) : bool :=
  match target_component target with
  | None => true
  | Some c => bool_decide (c = "*"%string) || bool_decide (component_leaf c ∈ CANONICAL_COMPONENTS)
  end.

Section Errors.
Context {J : SerdeJson}.

Definition error_with_context (code : ErrorCode) (suggestion : string) (context : Value) : ErrorData :=
  let data := error_with_hint code suggestion in
  mkErrorData (ed_error_code data) (ed_numeric_code data) (ed_current_state data) (ed_valid_states data)
    (ed_suggestion data) (ed_severity data) (ed_recovery_hint data) (Some context).

Definition invalid_target_error (target : string) : option ErrorData :=
  let attempted := default target (target_component target) in
  nearest ← nearest_components (component_leaf attempted);
  let suggestion :=
    match nearest with
    | best :: _ => ("Unknown component '" +:+ attempted +:+ "' in target — did you mean '" +:+ best +:+ "'?")%string
    | [] => ("Unknown component '" +:+ attempted +:+ "' in target")%string
    end in
  Some (error_with_context ErrorCode_InvalidTarget suggestion
    (json_object [("attempted", json_string attempted);
                  ("nearest_matches", json_array (json_string <$> nearest));
                  ("valid_components_at_layer", json_array (json_string <$> CANONICAL_COMPONENTS))]%string)).

End Errors.

(** ** Edit distance

    One edit replaces, removes or adds a character somewhere; the distance is
    the least number of edits that lead from one text to the other. *)

Inductive edit {A} : relation (list A) :=
| edit_replace p x y s : edit (p ++ x :: s) (p ++ y :: s)
| edit_remove p x s : edit (p ++ x :: s) (p ++ s)
| edit_add p y s : edit (p ++ s) (p ++ y :: s).

Definition is_distance {A} (a b : list A) (d : nat) : Prop :=
  nsteps edit d a b /\ forall n, nsteps edit n a b -> (d <= n)%nat.

Section Lev.
Context {A : Type} `{EqDecision A}.
Implicit Types (a b : list A).

(** The recursive distance, from the front. *)
Fixpoint lev a : list A -> nat :=
  match a with
  | [] => fun b => length b
  | x :: a' =>
      fix lev_a b :=
        match b with
        | [] => S (length a')
        | y :: b' =>
            Nat.min (Nat.min (lev a' b + 1) (lev_a b' + 1)) (lev a' b' + (if decide (x = y) then 0 else 1))
        end
  end%nat.

Lemma lev_nil_r a : lev a [] = length a.
Proof. by destruct a. Qed.

Lemma lev_cons x y a b :
  lev (x :: a) (y :: b) =
  Nat.min (Nat.min (lev a (y :: b) + 1) (lev (x :: a) b + 1)) (lev a b + (if decide (x = y) then 0 else 1)).
Proof. done. Qed.

Lemma lev_add_r a y b : (lev a (y :: b) <= S (lev a b))%nat.
Proof. destruct a as [|x a]; [done|]. rewrite lev_cons. lia. Qed.

Lemma lev_add_l x a b : (lev (x :: a) b <= S (lev a b))%nat.
Proof. destruct b as [|y b]; [by rewrite !lev_nil_r|]. rewrite lev_cons. lia. Qed.

Lemma lev_remove_l x a b : (lev a b <= S (lev (x :: a) b))%nat.
Proof.
  induction b as [|y b IH]; [rewrite !lev_nil_r; cbn; lia|]. rewrite lev_cons. pose proof (lev_add_r a y b). lia.
Qed.

Lemma lev_replace_l x x' a b : (lev (x :: a) b <= S (lev (x' :: a) b))%nat.
Proof.
  induction b as [|y b IH]; [by rewrite !lev_nil_r; cbn; lia|]. rewrite !lev_cons.
  repeat case_decide; lia.
Qed.

Lemma lev_under x a a' b :
  (forall b, lev a b <= S (lev a' b))%nat -> (lev (x :: a) b <= S (lev (x :: a') b))%nat.
Proof.
  intros H. induction b as [|y b IH]; [pose proof (H []); rewrite !lev_nil_r in *; cbn; lia|].
  rewrite !lev_cons. pose proof (H b). pose proof (H (y :: b)). lia.
Qed.

Lemma lev_edit a a' b : edit a a' -> (lev a b <= S (lev a' b))%nat.
Proof.
  destruct 1 as [p x y s|p x s|p y s]; revert b; (induction p as [|z p IH]; intros b; [|by apply lev_under]); cbn [app].
  - apply lev_replace_l.
  - apply lev_add_l.
  - apply lev_remove_l.
Qed.

Lemma lev_refl a : lev a a = 0%nat.
Proof. induction a as [|x a IH]; [done|]. rewrite lev_cons, IH, decide_True by done. lia. Qed.

Lemma lev_least n a b : nsteps edit n a b -> (lev a b <= n)%nat.
Proof.
  induction 1 as [a|n a c b Hs Hn IH]; [by rewrite lev_refl|]. pose proof (lev_edit _ _ b Hs). lia.
Qed.

Lemma edit_cons x a b : edit a b -> edit (x :: a) (x :: b).
Proof. destruct 1 as [p y z s|p y s|p y s]; [apply (edit_replace (x :: p))|apply (edit_remove (x :: p))|apply (edit_add (x :: p))]. Qed.

Lemma edits_cons x n a b : nsteps edit n a b -> nsteps edit n (x :: a) (x :: b).
Proof. induction 1; [constructor|]. econstructor; [by apply edit_cons|done]. Qed.

Lemma edits_build b : nsteps edit (length b) [] b.
Proof.
  induction b as [|y b IH]; [constructor|]. cbn. eapply nsteps_r; [exact IH|]. apply (edit_add []).
Qed.

Lemma edits_erase a : nsteps edit (length a) a [].
Proof. induction a as [|x a IH]; [constructor|]. econstructor; [apply (edit_remove [])|done]. Qed.

Lemma lev_reached a : forall b, nsteps edit (lev a b) a b.
Proof.
  induction a as [|x a IHa]; [apply edits_build|]. induction b as [|y b IHb]; [rewrite lev_nil_r; apply edits_erase|].
  rewrite lev_cons. destruct (Nat.min_dec (Nat.min (lev a (y :: b) + 1) (lev (x :: a) b + 1))
    (lev a b + (if decide (x = y) then 0 else 1))) as [-> | ->].
  - destruct (Nat.min_dec (lev a (y :: b) + 1) (lev (x :: a) b + 1)) as [-> | ->]; rewrite Nat.add_1_r.
    + econstructor; [apply (edit_remove [])|apply IHa].
    + eapply nsteps_r; [exact IHb|]. apply (edit_add []).
  - case_decide as E; [subst; rewrite Nat.add_0_r; by apply edits_cons|].
    rewrite Nat.add_1_r. econstructor; [apply (edit_replace [] x y)|]. by apply edits_cons.
Qed.

Lemma edit_reverse a b : edit a b -> edit (reverse a) (reverse b).
Proof. destruct 1; rewrite !reverse_app, ?reverse_cons, <- ?app_assoc; cbn; constructor. Qed.

Lemma edits_reverse n a b : nsteps edit n (reverse a) (reverse b) <-> nsteps edit n a b.
Proof.
  assert (H : forall a b, nsteps edit n a b -> nsteps edit n (reverse a) (reverse b)).
  { clear. induction 1; [constructor|]. econstructor; [by apply edit_reverse|done]. }
  split; [|apply H]. intros ?%H. by rewrite !reverse_involutive in *.
Qed.

Lemma lev_distance a b : is_distance a b (lev (reverse a) (reverse b)).
Proof. split; [apply edits_reverse, lev_reached|]. intros n ?%edits_reverse%lev_least. done. Qed.

End Lev.

(** *** The two rows of the dynamic programme *)

(** The first [n] cells of a row hold the distances of the reversed prefix
    [ra] to the prefixes of [b]. *)
Definition row_upto (n : nat) (ra b : list Z) (row : list nat) : Prop :=
  length row = S (length b) /\ forall k, (k < n)%nat -> row !! k = Some (lev ra (reverse (take k b))).

Abbreviation full_row ra b := (row_upto (S (length b)) ra b).

Lemma vec_set_ok i x v : (i < length v)%nat -> vec_set i x v = Some (<[i := x]> v).
Proof. intros H. unfold vec_set. by rewrite decide_True. Qed.

Lemma row_upto_set n ra b row x :
  (n <= length b)%nat -> row_upto n ra b row -> x = lev ra (reverse (take n b)) ->
  row_upto (S n) ra b (<[n := x]> row).
Proof.
  intros Hn [Hl H] ->. split; [by rewrite length_insert|]. intros k Hk.
  destruct (decide (k = n)) as [->|]; [apply list_lookup_insert_eq; lia|].
  rewrite list_lookup_insert_ne by done. apply H. lia.
Qed.

Lemma take_snoc_reverse {A} (l1 : list A) x l2 :
  reverse (take (S (length l1)) (l1 ++ x :: l2)) = x :: reverse (take (length l1) (l1 ++ x :: l2)).
Proof.
  replace (S (length l1)) with (length l1 + 1)%nat by lia. rewrite take_app_add, take_app_length. cbn.
  by rewrite reverse_app.
Qed.

Lemma column_loop_ok ca ra b prev bs : forall b1 curr,
  b = b1 ++ bs -> full_row ra b prev -> row_upto (S (length b1)) (ca :: ra) b curr ->
  exists curr', column_loop ca bs (length b1) prev curr = Some curr' /\ full_row (ca :: ra) b curr'.
Proof.
  induction bs as [|cb bs IH]; intros b1 curr Hb Hp Hc.
  - exists curr. split; [done|]. by rewrite Hb, app_nil_r in Hc |- *.
  - assert (Hl : length b = (length b1 + S (length bs))%nat) by (by rewrite Hb, length_app).
    cbn [column_loop]. pose proof Hp as [Hpl Hpk]. pose proof Hc as [Hcl Hck].
    rewrite (Hpk (S (length b1))), (Hck (length b1)), (Hpk (length b1)) by lia. cbn [mbind option_bind].
    rewrite vec_set_ok by lia. cbn [mbind option_bind].
    replace (S (length b1)) with (length (b1 ++ [cb])) by (rewrite length_app; cbn; lia).
    apply IH; [by rewrite <- app_assoc|done|].
    replace (length (b1 ++ [cb])) with (S (length b1)) by (rewrite length_app; cbn; lia).
    apply row_upto_set; [lia|done|]. rewrite Hb, take_snoc_reverse, lev_cons. done.
Qed.

Lemma row_upto_first ra b row x : row_upto 0 ra b row -> x = length ra -> row_upto 1 ra b (<[0%nat := x]> row).
Proof. intros H ->. apply row_upto_set; [lia|done|]. change (reverse (take 0 b)) with (@nil Z). by rewrite lev_nil_r. Qed.

Lemma row_loop_ok b as_ : forall ra prev curr,
  full_row ra b prev -> length curr = S (length b) ->
  exists prev' curr', row_loop as_ (length ra) b prev curr = Some (prev', curr') /\
    full_row (reverse as_ ++ ra) b prev'.
Proof.
  induction as_ as [|ca as_ IH]; intros ra prev curr Hp Hc; cbn [row_loop]; [by do 2 eexists|].
  rewrite vec_set_ok by lia. cbn [mbind option_bind].
  destruct (column_loop_ok ca ra b prev b [] (<[0%nat := (length ra + 1)%nat]> curr)) as (c' & E & Hc'); [done..| |].
  { apply row_upto_first; [|cbn; lia]. split; [done|]. intros k Hk. lia. }
  cbn [length] in E. rewrite E. cbn [mbind option_bind]. destruct Hp as [Hpl _].
  destruct (IH (ca :: ra) c' prev) as (p' & q' & E' & H'); [done..|].
  exists p', q'. split; [exact E'|]. by rewrite reverse_cons, <- app_assoc.
Qed.

Lemma edit_distance_lev a b :
  edit_distance a b = Some (lev (reverse (str_chars a)) (reverse (str_chars b))).
Proof.
  unfold edit_distance. set (bs := str_chars b).
  destruct (row_loop_ok bs (str_chars a) [] (seq 0 (S (length bs))) (replicate (S (length bs)) 0%nat))
    as (p & q & E & Hp).
  { split; [by rewrite length_seq|]. intros k Hk. rewrite lookup_seq_lt by lia. cbn.
    by rewrite length_reverse, length_take, Nat.min_l by lia. }
  { by rewrite length_replicate. }
  cbn [length] in E. rewrite E. cbn. destruct Hp as [_ Hp]. rewrite app_nil_r in Hp. rewrite Hp by lia.
  by rewrite firstn_all.
Qed.

(** C30: The two-row programme of [edit_distance] never indexes a row out of
    range and computes the Levenshtein distance of the two texts: the least
    number of replacements, removals and additions of a character that lead
    from the one to the other. *)
Theorem edit_distance_levenshtein (a b : string) :
  exists d, edit_distance a b = Some d /\ is_distance (str_chars a) (str_chars b) d.
Proof. eexists. split; [apply edit_distance_lev|apply lev_distance]. Qed.

(** ** Nearest components *)

Definition distance (a b : string) : nat := lev (reverse (str_chars a)) (reverse (str_chars b)).

(** Ranking: by distance, then by name. *)
Definition ranked (x y : nat * string) : Prop :=
  (x.1 < y.1)%nat \/ x.1 = y.1 /\ string_le x.2 y.2 = true.

#[export] Instance ranked_trans : Transitive ranked.
Proof.
  intros x y z [?|[? H1]] [?|[? H2]]; unfold ranked; try (left; lia). right. split; [lia|]. by eapply string_le_trans.
Qed.

Lemma scored_le_ranked x y : if scored_le x y then ranked x y else ranked y x.
Proof.
  unfold scored_le, ranked. destruct (Nat.compare_spec x.1 y.1); [|by left|by left].
  destruct (string_le x.2 _) eqn:E; [by right|]. destruct (string_le_total x.2 y.2); [congruence|]. by right.
Qed.

Definition scored (attempted : string) : list (nat * string) :=
  sort_by scored_le ((fun c => (distance attempted c, c)) <$> CANONICAL_COMPONENTS).

Lemma scored_sorted attempted : StronglySorted ranked (scored attempted).
Proof. apply sort_by_sorted; [apply _|apply scored_le_ranked]. Qed.

Lemma elem_of_scored attempted s : s ∈ scored attempted <-> s.2 ∈ CANONICAL_COMPONENTS /\ s.1 = distance attempted s.2.
Proof.
  unfold scored. rewrite sort_by_perm, list_elem_of_fmap. split; [by intros (c & -> & H)|].
  intros [H E]. exists s.2. rewrite <- E. by destruct s.
Qed.

Lemma mapM_total {A B} (f : A -> option B) (g : A -> B) l : (forall x, f x = Some (g x)) -> mapM f l = Some (g <$> l).
Proof. intros H. induction l as [|x l IH]; [done|]. cbn. by rewrite H, IH. Qed.

Lemma nearest_components_eq attempted :
  exists s rest, scored attempted = s :: rest /\
    nearest_components attempted =
      Some (snd <$> take 5 (List.filter (fun t => Z.of_nat t.1 <=? Z.min (Z.of_nat s.1 + 2) USIZE_MAX) (s :: rest))).
Proof.
  unfold nearest_components.
  rewrite (mapM_total _ (fun c => (distance attempted c, c))) by (intros c; by rewrite edit_distance_lev).
  cbn [mbind option_bind]. fold (scored attempted).
  destruct (scored attempted) as [|s rest] eqn:E; [|by exists s, rest].
  pose proof (sort_by_perm scored_le ((fun c => (distance attempted c, c)) <$> CANONICAL_COMPONENTS)) as P.
  fold (scored attempted) in P. rewrite E in P. by apply Permutation_nil in P.
Qed.

Lemma lev_bound {A} `{EqDecision A} (a b : list A) : (lev a b <= length a + length b)%nat.
Proof.
  induction a as [|x a IH]; [done|]. pose proof (lev_add_l x a b). cbn [length]. lia.
Qed.

Lemma canonical_short c : c ∈ CANONICAL_COMPONENTS -> (length (str_chars c) <= 13)%nat.
Proof.
  revert c. apply Forall_forall, (bool_decide_unpack _). by vm_compute.
Qed.

Lemma distance_bound attempted c :
  c ∈ CANONICAL_COMPONENTS -> (distance attempted c <= length (str_chars attempted) + 13)%nat.
Proof.
  intros H%canonical_short. unfold distance. pose proof (lev_bound (reverse (str_chars attempted)) (reverse (str_chars c))) as B.
  rewrite !length_reverse in B. lia.
Qed.

Section Sorted.
Context {A : Type} (R : relation A).

Lemma StronglySorted_filter_bool (p : A -> bool) l : StronglySorted R l -> StronglySorted R (List.filter p l).
Proof.
  induction 1 as [|x l Hs IH Hx]; [constructor|]. cbn. destruct (p x); [|done]. constructor; [done|].
  apply Forall_forall. intros y Hy. rewrite list_elem_of_In, filter_In, <- list_elem_of_In in Hy. destruct Hy as [Hy _].
  by apply (proj1 (Forall_forall _ _) Hx).
Qed.

Lemma StronglySorted_split l k x y : StronglySorted R (l ++ k) -> x ∈ l -> y ∈ k -> R x y.
Proof.
  induction l as [|z l IH]; [set_solver|]. cbn. intros [Hs Hz]%StronglySorted_inv [->|Hx]%elem_of_cons Hy; [|by apply IH].
  apply (proj1 (Forall_forall _ _) Hz). set_solver.
Qed.

Lemma StronglySorted_app_l l k : StronglySorted R (l ++ k) -> StronglySorted R l.
Proof.
  induction l as [|z l IH]; [constructor|]. cbn. intros [Hs Hz]%StronglySorted_inv. constructor; [by apply IH|].
  by apply Forall_app in Hz as [? _].
Qed.

End Sorted.

Lemma StronglySorted_fmap_inv {A B} (R : relation B) (f : A -> B) l :
  StronglySorted R (f <$> l) -> StronglySorted (fun x y => R (f x) (f y)) l.
Proof.
  induction l as [|x l IH]; [constructor|]. cbn. intros [Hs Hx]%StronglySorted_inv. constructor; [by apply IH|].
  exact (proj1 (Forall_fmap _ _ _) Hx).
Qed.

Lemma elem_of_filter_bool {A} (p : A -> bool) x l : x ∈ List.filter p l <-> x ∈ l /\ p x = true.
Proof. by rewrite list_elem_of_In, filter_In, <- list_elem_of_In. Qed.

(** The first [n] elements of a sorted list that pass a filter: what they are and what is left out. *)
Lemma take_filter_sorted {A} (R : relation A) (p : A -> bool) n l :
  StronglySorted R l ->
  let kept := take n (List.filter p l) in
  StronglySorted R kept /\ (forall x, x ∈ kept -> x ∈ l /\ p x = true) /\
  (forall y, y ∈ l -> y ∉ kept -> p y = false \/ length kept = n /\ forall x, x ∈ kept -> R x y).
Proof.
  intros Hs%(StronglySorted_filter_bool R p) kept. rewrite <- (take_drop n (List.filter p l)) in Hs. fold kept in Hs.
  split_and!.
  - by eapply StronglySorted_app_l.
  - intros x Hx. apply elem_of_filter_bool. rewrite <- (take_drop n (List.filter p l)). set_solver.
  - intros y Hy Hn. destruct (p y) eqn:Ep; [right|by left].
    assert (Hf : y ∈ kept ++ drop n (List.filter p l)) by (subst kept; rewrite take_drop; by apply elem_of_filter_bool).
    apply elem_of_app in Hf as [?|Hd]; [done|]. split; [|intros x Hx; by eapply StronglySorted_split].
    subst kept. rewrite length_take. apply list_elem_of_lookup in Hd as [i Hi]. apply lookup_lt_Some in Hi.
    rewrite length_drop in Hi. lia.
Qed.

(** The suggestions of [nearest_components] are one to five canonical
    components ranked by Levenshtein distance and then by name, beginning with a
    globally nearest one and within two edits of it; a component that is left
    out is farther than that, or five better ranked ones are listed.  (A Rust
    string has at most [isize::MAX] characters.) *)
Theorem nearest_components_ranked (attempted : string) :
  Z.of_nat (length (str_chars attempted)) < 2 ^ 63 ->
  exists dist best rest,
    (forall c, is_distance (str_chars attempted) (str_chars c) (dist c)) /\
    nearest_components attempted = Some (best :: rest) /\ (length (best :: rest) <= 5)%nat /\
    StronglySorted (fun x y => ranked (dist x, x) (dist y, y)) (best :: rest) /\
    (forall c, c ∈ CANONICAL_COMPONENTS -> (dist best <= dist c)%nat) /\
    (forall c, c ∈ best :: rest -> c ∈ CANONICAL_COMPONENTS /\ (dist c <= dist best + 2)%nat) /\
    (forall c, c ∈ CANONICAL_COMPONENTS -> c ∉ best :: rest ->
       (dist best + 2 < dist c)%nat \/
       length (best :: rest) = 5%nat /\ forall x, x ∈ best :: rest -> ranked (dist x, x) (dist c, c)).
Proof.
  intros Hlen. destruct (nearest_components_eq attempted) as (s & rest & Es & En).
  pose proof (scored_sorted attempted) as Hs. rewrite Es in Hs.
  assert (Hin : forall t, t ∈ s :: rest <-> t.2 ∈ CANONICAL_COMPONENTS /\ t.1 = distance attempted t.2)
    by (intros t; rewrite <- Es; apply elem_of_scored).
  destruct (proj1 (Hin s) ltac:(set_solver)) as [Hs1 Hs2].
  assert (Hcut : Z.min (Z.of_nat s.1 + 2) USIZE_MAX = Z.of_nat s.1 + 2).
  { pose proof (distance_bound attempted s.2 Hs1). unfold USIZE_MAX, U64_MAX. lia. }
  rewrite Hcut in En. set (p := fun t : nat * string => Z.of_nat t.1 <=? Z.of_nat s.1 + 2) in En.
  destruct (take_filter_sorted ranked p 5 _ Hs) as (Ks & Ki & Ko).
  set (kept := take 5 (List.filter p (s :: rest))) in *. set (pair := fun c => (distance attempted c, c)).
  assert (Hkept : kept = pair <$> (snd <$> kept)).
  { rewrite <- list_fmap_compose. rewrite <- (list_fmap_id kept) at 1. apply list_fmap_ext. intros i [d c] Hd.
    apply list_elem_of_lookup_2 in Hd. destruct (Ki _ Hd) as [[_ E]%Hin _]. unfold pair. cbn in *. by rewrite <- E. }
  exists (distance attempted), s.2, (snd <$> take 4 (List.filter p rest)).
  assert (Hk : snd <$> kept = s.2 :: (snd <$> take 4 (List.filter p rest))).
  { unfold kept, p. cbn [List.filter]. by rewrite (proj2 (Z.leb_le _ _)) by lia. }
  rewrite <- Hk. rewrite Hkept in Ks, Ki, Ko.
  assert (Hc : forall c, c ∈ CANONICAL_COMPONENTS -> pair c ∈ s :: rest) by (intros c Hc; by apply Hin).
  assert (Hp : forall c, p (pair c) = true <-> (distance attempted c <= distance attempted s.2 + 2)%nat).
  { intros c. unfold p, pair. cbn. rewrite Z.leb_le. lia. }
  assert (Hi : forall c, pair c ∈ pair <$> (snd <$> kept) <-> c ∈ snd <$> kept).
  { intros c. rewrite list_elem_of_fmap. split; [by intros (x & [= _ ->] & ?)|]. intros ?. by exists c. }
  split_and!; [intros c; apply lev_distance|done| |by apply StronglySorted_fmap_inv| | |].
  - rewrite length_fmap. unfold kept. rewrite length_take. lia.
  - intros c H%Hc. apply StronglySorted_inv in Hs as [_ Hs]. rewrite <- Hs2. apply elem_of_cons in H as [H|H].
    + rewrite <- H. done.
    + destruct (proj1 (Forall_forall _ _) Hs _ H) as [?|[? _]]; cbn in *; lia.
  - intros c [[H _]%Hin Hq%Hp]%Hi%Ki. done.
  - intros c H1%Hc H2. rewrite <- Hi in H2. destruct (Ko _ H1 H2) as [Hf|[Hl Hr]].
    + left. apply not_true_iff_false in Hf. rewrite Hp in Hf. lia.
    + right. split; [by rewrite length_fmap in Hl|]. intros x Hx%Hi. by apply Hr.
Qed.

Lemma nearest_components_ranked_witness :
  Z.of_nat (length (str_chars "o_prj")) < 2 ^ 63 /\
  exists dist best rest, nearest_components "o_prj" = Some (best :: rest) /\
    (forall c, c ∈ CANONICAL_COMPONENTS -> (dist best <= dist c)%nat) /\ best = "o_proj"%string.
Proof.
  assert (H : Z.of_nat (length (str_chars "o_prj")) < 2 ^ 63) by by vm_compute.
  split; [exact H|]. destruct (nearest_components_ranked "o_prj" H) as (d & b & r & _ & E & _ & _ & Hb & _).
  exists d, b, r. split; [exact E|]. split; [exact Hb|]. revert E.
  replace (nearest_components "o_prj")
    with (Some ["o_proj"; "k_proj"; "q_proj"; "v_proj"; "up_proj"]%string) by (vm_compute; reflexivity).
  by intros [= <- _].
Defined.
