(* ===== verification/Dispatch.v ===== *)
(** * Dispatch: the request handlers of the daemon

    [crates/rocket-surgeon/src/dispatch.rs].  A handler takes the session (and
    the store, ring consumer or registry it is given) and returns the response
    with the new state; [None] is a panic of the Rust code (an [expect], an index out
    of range, a summary or an allocation that panics), and the theorems say when
    there is one.  Parsing of
    request parameters and serialization of answers is the interface [Wire];
    uuids, the wall clock and the uptime of a request are its [Env]; base64 is a
    parameter.  What [handle_checkpoint] sends to the worker is returned as a
    list, since the handler only logs the answers. *)

From Stdlib Require Import ZArith Lia Ascii String.
From coqutil Require Import Byte.
From stdpp Require Import base gmap strings list.
From S2P Require Import Prelude Winnow Grammar Protocol Messages Registry Shm Stats TensorStore Json Session SessionInv Target.
Open Scope Z_scope.

(** [serde_json::from_value]: the value, or the text of the error. *)
Class Deserialize `{SerdeJson} (T : Type) := from_value : Value -> result string T.

(** Serializing a [Value] gives it back. *)
#[export] Instance serialize_value `{J : SerdeJson} : Serialize Value := fun v => v.

(** The derived instances of the protocol crate. *)
Class Wire `{J : SerdeJson} := {
  de_initialize :: Deserialize InitializeRequest;
  de_attach :: Deserialize AttachRequest;
  de_step :: Deserialize StepRequest;
  de_inspect :: Deserialize InspectRequest;
  de_probe :: Deserialize ProbeRequest;
  de_subscribe :: Deserialize SubscribeRequest;
  de_unsubscribe :: Deserialize UnsubscribeRequest;
  de_view :: Deserialize ViewRequest;
  de_view_define :: Deserialize ViewDefineRequest;
  de_discover :: Deserialize DiscoverRequest;
  de_checkpoint :: Deserialize CheckpointRequest;
  de_kv_read :: Deserialize KvReadRequest;
  de_kv_intervene :: Deserialize KvInterveneRequest;
  de_intervene :: Deserialize InterveneRequest;
  de_replay :: Deserialize ReplayRequest;
  se_position :: Serialize PositionEnvelope;
  se_initialize :: Serialize (ResponseEnvelope InitializeResponse);
  se_attach :: Serialize (ResponseEnvelope AttachResponse);
  se_detach :: Serialize (ResponseEnvelope DetachResponse);
  se_status :: Serialize (ResponseEnvelope StatusResponse);
  se_step :: Serialize StepResponse;
  se_step_env :: Serialize (ResponseEnvelope StepResponse);
  se_inspect :: Serialize InspectResponse;
  se_inspect_env :: Serialize (ResponseEnvelope InspectResponse);
  se_probe :: Serialize (ResponseEnvelope ProbeResponse);
  se_subscribe :: Serialize (ResponseEnvelope SubscribeResponse);
  se_unsubscribe :: Serialize (ResponseEnvelope UnsubscribeResponse);
  se_view :: Serialize ViewResponse;
  se_view_env :: Serialize (ResponseEnvelope ViewResponse);
  se_view_define :: Serialize (ResponseEnvelope ViewDefineResponse);
  se_discover :: Serialize (ResponseEnvelope DiscoverResponse);
  se_checkpoint :: Serialize (ResponseEnvelope CheckpointResponse);
  se_kv_read :: Serialize (ResponseEnvelope KvReadResponse);
  se_kv_intervene :: Serialize (ResponseEnvelope KvInterveneResponse);
  se_intervene :: Serialize (ResponseEnvelope InterveneResponse);
  se_replay :: Serialize ReplayResponse;
  se_replay_env :: Serialize (ResponseEnvelope ReplayResponse)
}.

(** What a request reads from its surroundings. *)
Record Env := mkEnv {
  env_uuid : string;
  env_now : Z;
  env_uptime : f64
}.

Section Handlers.
Context `{J : SerdeJson} {WR : Wire}.

(** ** Responses *)

Definition error_response (id : RequestId) (data : ErrorData) : Response := Response_error id (from_error_data data).

Definition internal_error (id : RequestId) (message : string) : Response :=
  Response_error id (mkRpcError INTERNAL_ERROR message None).

Definition invalid_params_response (id : RequestId) (err : string) : Response :=
  error_response id (error_with_context ErrorCode_InvalidParams ("Invalid params: " +:+ err)%string
    (json_object [("parse_error"%string, json_string err)])).

Definition session_error_to_response (id : RequestId) (err : SessionError) : Response :=
  error_response id (error_data err).

(** Serializing a derived type does not fail (see [Json]), so neither does this. *)
Definition serialize_envelope {T} `{!Serialize T} (id : RequestId) (envelope : T) : Response :=
  Response_success id (to_value envelope).

Definition parse_params {T} `{!Deserialize T} (request : Request) : result string T :=
  from_value (default (json_object []) (req_params request)).

(** [match parse_params(request) { Ok(r) => r, Err(e) => return invalid_params_response(..) }] and
    [if let Err(e) = session.require_stopped(m) { return session_error_to_response(..) }] *)
Definition with_params {T A} `{!Deserialize T} (request : Request) (fail : Response -> A) (k : T -> A) : A :=
  match parse_params request with
  | Ok r => k r
  | Err e => fail (invalid_params_response (req_id request) e)
  end.

Definition when_stopped_or {A} (request : Request) (method : string) (s : Session) (fail : Response -> A) (k : A) : A :=
  match require_stopped method s with
  | Ok _ => k
  | Err e => fail (session_error_to_response (req_id request) e)
  end.

(** [match result { Ok(envelope) => serialize_envelope(..), Err(ref e) => session_error_to_response(..) }] *)
Definition answer_with {T} `{!Serialize T} (request : Request) (r : result SessionError T) : Response :=
  match r with
  | Ok envelope => serialize_envelope (req_id request) envelope
  | Err e => session_error_to_response (req_id request) e
  end.

(** ** Session handlers *)

Definition handle_initialize (env : Env) (request : Request) (s : Session) : Response * Session :=
  with_params request (fun r => (r, s)) (fun req =>
    let (r, s) := initialize (env_uuid env) req s in (answer_with request r, s)).

Definition handle_attach (env : Env) (request : Request) (backend : result string HostAttachResponse) (s : Session)
  : Response * Session :=
  with_params request (fun r => (r, s)) (fun req =>
    match backend with
    | Err message =>
        (error_response (req_id request) (error_with_context ErrorCode_BackendAttachFailed message
           (json_object [("backend_error"%string, json_string message)])), s)
    | Ok host =>
        let layers := HostAttachResponse_num_layers host in
        let heads := HostAttachResponse_num_heads host in
        let dim := HostAttachResponse_hidden_dim host in
        if (layers =? 0) || (heads =? 0) || (dim =? 0) then
          let message := ("worker returned invalid metadata: num_layers=" +:+ to_string layers +:+ ", num_heads=" +:+
                          to_string heads +:+ ", hidden_dim=" +:+ to_string dim)%string in
          (error_response (req_id request) (error_with_context ErrorCode_BackendAttachFailed message
             (json_object [("backend_error"%string, json_string message); ("num_layers"%string, json_u64 layers);
                           ("num_heads"%string, json_u64 heads); ("hidden_dim"%string, json_u64 dim)])), s)
        else match validate_attach req s with
             | Err e => (session_error_to_response (req_id request) e, s)
             | Ok _ =>
                 let (envelope, s) := commit_attach (env_uuid env) req (HostAttachResponse_model_type host) layers heads dim s in
                 (serialize_envelope (req_id request) envelope, s)
             end
    end).

Definition handle_detach (request : Request) (s : Session) : Response * Session :=
  let (r, s) := detach s in (answer_with request r, s).

Definition handle_status (env : Env) (request : Request) (s : Session) : Response :=
  answer_with request (status_ (env_uptime env) s).

(** The position a step without a worker reports. *)
Definition synthetic_position (req : StepRequest) (s : Session) : TickPosition :=
  mkTickPosition (u64_add (default 0 (ss_tick_id (s_state s))) (StepRequest_count req))
    StepDirection_Forward (Some 0) 0 "" TickEvent_Output None Phase_Decode None None.

Definition handle_step (request : Request) (host_response : option HostStepResponse) (s : Session) : Response * Session :=
  with_params request (fun r => (r, s)) (fun req =>
    let '(position, forward_complete, fired) :=
      match host_response with
      | Some hr => (hsrsp_position hr, hsrsp_forward_complete hr, hsrsp_fired_interventions hr)
      | None => (synthetic_position req s, false, [])
      end in
    let (r, s) := step req position forward_complete fired s in (answer_with request r, s)).

Definition handle_discover (request : Request) (s : Session) : Response :=
  with_params request id (fun req => answer_with request (discover (DiscoverRequest_pattern req) s)).

Definition handle_view_define (request : Request) (s : Session) : Response * Session :=
  with_params request (fun r => (r, s)) (fun req =>
    let (r, s) := define_view (ViewDefineRequest_name req) (ViewDefineRequest_spec req) s in (answer_with request r, s)).

Definition handle_replay (request : Request) (host_response : option HostReplayResponse) (s : Session) : Response * Session :=
  with_params request (fun r => (r, s)) (fun req =>
    let (r, s) := replay req host_response s in (answer_with request r, s)).

Definition available_events : list EventType := [EventType_TickStopped; EventType_TickHeartbeat; EventType_ProbeFired].

Definition handle_subscribe (request : Request) (s : Session) : Response * Session :=
  with_params request (fun r => (r, s)) (fun req =>
    when_stopped_or request "rocket/subscribe" s (fun r => (r, s))
      (let s := set_event_filter (SubscribeRequest_filter req) s in
       (serialize_envelope (req_id request) (envelope s (mkSubscribeResponse available_events (status s))), s))).

Definition handle_unsubscribe (request : Request) (s : Session) : Response :=
  with_params request id (fun _ : UnsubscribeRequest =>
    serialize_envelope (req_id request) (envelope s (mkUnsubscribeResponse (status s)))).

Definition handle_view (request : Request) (host_response : option HostViewResponse) (s : Session) : Response :=
  with_params request id (fun req =>
    when_stopped_or request "rocket/view" s id
      match host_response with
      | None => error_response (req_id request)
                  (error_with_hint ErrorCode_ViewDataUnavailable "No orchestrator available to compute view")
      | Some hr => serialize_envelope (req_id request) (envelope_with_mode s (ViewRequest_envelope req)
                     (mkViewResponse (HostViewResponse_view hr) (HostViewResponse_data hr)))
      end).

(** ** KV cache *)

(** [max_by_key]: of several maximal elements the last. *)
Definition max_by_key {A} (key : A -> Z) (l : list A) : option A :=
  foldl (fun best x => match best with
                       | Some b => if key x <? key b then Some b else Some x
                       | None => Some x
                       end) None l.

Definition nearest_checkpoint (evicted_at_tick : Z) (s : Session) : option CheckpointRef :=
  max_by_key cr_tick_id (List.filter (fun c => cr_tick_id c <=? evicted_at_tick) (ss_checkpoints (s_state s))).

Definition json_option {A} (f : A -> Value) (o : option A) : Value :=
  match o with Some x => f x | None => json_null end.

Definition kv_evicted_error (s : Session) (req : KvReadRequest) (eviction : KvEvictionInfo) : ErrorData :=
  let nearest_id := cr_checkpoint_id <$> nearest_checkpoint (KvEvictionInfo_evicted_at_tick eviction) s in
  error_with_context ErrorCode_KvEvicted
    ("KV-cache position " +:+ to_string (KvEvictionInfo_position eviction) +:+ " was evicted at tick " +:+
     to_string (KvEvictionInfo_evicted_at_tick eviction))%string
    (json_object [("position"%string, json_u64 (KvEvictionInfo_position eviction));
                  ("evicted_at_tick"%string, json_u64 (KvEvictionInfo_evicted_at_tick eviction));
                  ("nearest_checkpoint"%string, json_option json_string nearest_id);
                  ("requested_positions"%string,
                    json_option (fun l => json_array (json_u64 <$> l)) (KvReadRequest_positions req))]).

Definition handle_kv_read (request : Request) (host_response : option HostKvReadResponse) (s : Session) : Response :=
  with_params request id (fun req =>
    when_stopped_or request "rocket/kv.read" s id
      match host_response with
      | None => error_response (req_id request)
                  (error_with_hint ErrorCode_HostError "No orchestrator available to read the KV cache")
      | Some hr =>
          match HostKvReadResponse_evicted hr with
          | eviction :: _ => error_response (req_id request) (kv_evicted_error s req eviction)
          | [] => serialize_envelope (req_id request) (envelope s (mkKvReadResponse (HostKvReadResponse_entries hr)))
          end
      end).

Definition handle_kv_intervene (request : Request) (host_response : option HostKvInterveneResponse) (s : Session) : Response :=
  with_params request id (fun req =>
    when_stopped_or request "rocket/kv.intervene" s id
      (if bool_decide (KvInterveneRequest_layers req = []) || bool_decide (KvInterveneRequest_positions req = [])
       then error_response (req_id request) (error_with_hint ErrorCode_InvalidParams
              "kv.intervene requires non-empty `layers` and `positions`")
       else match host_response with
            | None => error_response (req_id request) (error_with_hint ErrorCode_HostError
                        "No orchestrator available to apply the KV-cache intervention")
            | Some hr => serialize_envelope (req_id request) (envelope s
                           (mkKvInterveneResponse (HostKvInterveneResponse_slots_modified hr)
                              (HostKvInterveneResponse_applied_op hr)))
            end)).

(** ** Checkpoints *)

(** [orchestrator] says whether there is one; the requests sent to it come with the answer. *)
Definition handle_checkpoint (env : Env) (request : Request) (orchestrator : bool) (model_handle : option Z) (s : Session)
  : Response * Session * list HostCheckpointRequest :=
  with_params request (fun r => (r, s, [])) (fun req =>
    when_stopped_or request "rocket/checkpoint" s (fun r => (r, s, []))
      match req with
      | CheckpointRequest_Create tier =>
          match (if orchestrator then model_handle else None) with
          | Some mh =>
              let host_req := HostCheckpointRequest_Create mh (env_uuid env)
                (default CreateCheckpointTier_Activation tier) (default 0 (ss_tick_id (s_state s))) (current_layer s) in
              let (envelope, s) := checkpoint_create_with_id (env_uuid env) (env_now env) tier (Some (env_uuid env)) s in
              (serialize_envelope (req_id request) envelope, s, [host_req])
          | None =>
              let (envelope, s) := checkpoint_create (env_uuid env) (env_now env) tier s in
              (serialize_envelope (req_id request) envelope, s, [])
          end
      | CheckpointRequest_List => (serialize_envelope (req_id request) (checkpoint_list s), s, [])
      | CheckpointRequest_Restore checkpoint_id =>
          let sent := match (if orchestrator then model_handle else None) with
                      | Some mh => [HostCheckpointRequest_Restore mh checkpoint_id]
                      | None => []
                      end in
          let (r, s) := checkpoint_restore checkpoint_id s in (answer_with request r, s, sent)
      | CheckpointRequest_Delete checkpoint_id =>
          let (r, s) := checkpoint_delete checkpoint_id s in (answer_with request r, s, [])
      | CheckpointRequest_Bookmark tick_id name =>
          let (envelope, s) := checkpoint_bookmark (env_uuid env) (env_now env) tick_id name s in
          (serialize_envelope (req_id request) envelope, s, [])
      end).

(** ** Interventions *)

Definition recipe_type_matches_params (recipe : InterventionRecipe) : bool :=
  match ir_intervention_type recipe, ir_params recipe with
  | InterventionType_Ablate, InterventionParams_Ablate _ _ _
  | InterventionType_Scale, InterventionParams_Scale _
  | InterventionType_Add, InterventionParams_Add _
  | InterventionType_Patch, InterventionParams_Patch _
  | InterventionType_Clamp, InterventionParams_Clamp _ _
  | InterventionType_RouteOverride, InterventionParams_RouteOverride _ _
  | InterventionType_AttentionMask, InterventionParams_AttentionMask _ _ _
  | InterventionType_EmbedSwap, InterventionParams_EmbedSwap _ _
  | InterventionType_EmbedNoise, InterventionParams_EmbedNoise _ _ _ => true
  | _, _ => false
  end.

Definition validate_recipe (recipe : InterventionRecipe) : option (result ErrorData unit) :=
  if bool_decide (default ""%string (ir_id recipe) = ""%string)
  then Some (Err (error_with_hint ErrorCode_InvalidRecipe "Intervention recipe must carry a non-empty 'id'"))
  else if negb (target_known (ir_target recipe)) then data ← invalid_target_error (ir_target recipe); Some (Err data)
  else if negb (recipe_type_matches_params recipe)
  then Some (Err (error_with_hint ErrorCode_InvalidRecipe "Recipe params do not match the declared intervention 'type'"))
  else Some (Ok tt).

Definition intervene_response (request : Request) (applied : option bool) (s : Session) : Response :=
  serialize_envelope (req_id request) (envelope s (mkInterveneResponse (s_interventions s) applied)).

Definition handle_intervene (request : Request) (s : Session) : option (Response * Session) :=
  with_params request (fun r => Some (r, s)) (fun req =>
    when_stopped_or request "rocket/intervene" s (fun r => Some (r, s))
      match req with
      | InterveneRequest_Set recipe =>
          v ← validate_recipe recipe;
          match v with
          | Err data => Some (error_response (req_id request) data, s)
          | Ok _ => let s := set_intervention recipe s in Some (intervene_response request (Some true) s, s)
          end
      | InterveneRequest_Clear intervention_id =>
          let s := snd (clear_intervention intervention_id s) in Some (intervene_response request None s, s)
      | InterveneRequest_List => Some (intervene_response request None s, s)
      end).

(** ** The router without a worker *)

Definition handle_inspect_no_store (request : Request) (s : Session) : Response :=
  when_stopped_or request (req_method request) s id
    (error_response (req_id request)
       (error_with_hint ErrorCode_TensorNotFound "No orchestrator available to capture tensors")).

Definition dispatch (env : Env) (request : Request) (s : Session) : option (Response * Session) :=
  let m := req_method request in
  if decide (m = method.INITIALIZE) then Some (handle_initialize env request s)
  else if decide (m = method.ATTACH) then
    Some (internal_error (req_id request) "attach must be dispatched via main loop", s)
  else if decide (m = method.DETACH) then Some (handle_detach request s)
  else if decide (m = method.STATUS) then Some (handle_status env request s, s)
  else if decide (m = method.STEP) then Some (handle_step request None s)
  else if decide (m = method.INSPECT) then Some (handle_inspect_no_store request s, s)
  else if decide (m = method.SUBSCRIBE) then Some (handle_subscribe request s)
  else if decide (m = method.UNSUBSCRIBE) then Some (handle_unsubscribe request s, s)
  else if decide (m = method.VIEW) then Some (handle_view request None s, s)
  else if decide (m = method.DISCOVER) then Some (handle_discover request s, s)
  else if decide (m = method.VIEW_DEFINE) then Some (handle_view_define request s)
  else if decide (m = method.CHECKPOINT) then Some (fst (handle_checkpoint env request false None s))
  else if decide (m = method.KV_READ) then Some (handle_kv_read request None s, s)
  else if decide (m = method.KV_INTERVENE) then Some (handle_kv_intervene request None s, s)
  else if decide (m = method.INTERVENE) then handle_intervene request s
  else if decide (m = method.REPLAY) then Some (handle_replay request None s)
  else Some (Response_error (req_id request) (mkRpcError METHOD_NOT_FOUND ("Method not found: " +:+ m)%string None), s).

(** ** Probes *)

Section Probes.
Context {W : Winnow}.
(** Iteration over the registry's hash map, and the text of winnow's parse errors. *)
Context (values_of : ProbeRegistry -> list StoredProbe) (point_error : string -> string).

Definition probe_success (request : Request) (registry : ProbeRegistry) (probe_id : option string) (s : Session) : Response :=
  serialize_envelope (req_id request) (envelope s (mkProbeResponse (list_ (values_of registry)) probe_id)).

(** [point]: the text whose parse failed. *)
Definition registry_error_to_response (id : RequestId) (err : RegistryError) (point : string) : Response :=
  error_response id
    match err with
    | Registry.DuplicateId pid => error_with_context ErrorCode_DuplicateProbeId
        ("Probe with id '" +:+ pid +:+ "' already exists")%string (json_object [("probe_id"%string, json_string pid)])
    | Registry.InvalidPoint => error_with_context ErrorCode_InvalidPoint
        ("Invalid probe point: " +:+ point_error point)%string
        (json_object [("parse_error"%string, json_string (point_error point))])
    | Registry.NotFound pid => error_with_context ErrorCode_ProbeNotFound
        ("Probe '" +:+ pid +:+ "' not found")%string (json_object [("probe_id"%string, json_string pid)])
    end.

Definition probe_answer {A} (request : Request) (r : result RegistryError A) (probe_id : A -> string) (point : string)
    (registry : ProbeRegistry) (s : Session) : Response * ProbeRegistry :=
  match r with
  | Ok x => (probe_success request registry (Some (probe_id x)) s, registry)
  | Err e => (registry_error_to_response (req_id request) e point, registry)
  end.

Definition handle_probe (request : Request) (registry : ProbeRegistry) (s : Session) : Response * ProbeRegistry :=
  when_stopped_or request "rocket/probe" s (fun r => (r, registry))
    (with_params request (fun r => (r, registry)) (fun req =>
      match req with
      | ProbeRequest_Define probe =>
          let (r, registry) := Registry.define registry probe in probe_answer request r id (pd_point probe) registry s
      | ProbeRequest_List | ProbeRequest_SetGranularity _ => (probe_success request registry None s, registry)
      | ProbeRequest_Enable probe_id =>
          let (r, registry) := Registry.enable registry probe_id in probe_answer request r (fun _ => probe_id) "" registry s
      | ProbeRequest_Disable probe_id =>
          let (r, registry) := Registry.disable registry probe_id in probe_answer request r (fun _ => probe_id) "" registry s
      | ProbeRequest_Remove probe_id =>
          let (r, registry) := Registry.remove registry probe_id in probe_answer request r (fun _ => probe_id) "" registry s
      end)).

End Probes.

(** ** Inspect *)

Definition parse_dtype (s : string) : option DType :=
  if decide (s = "float16"%string) then Some DType_Float16
  else if decide (s = "bfloat16"%string) then Some DType_Bfloat16
  else if decide (s = "float32"%string) then Some DType_Float32
  else if decide (s = "float64"%string) then Some DType_Float64
  else if decide (s = "int8"%string) then Some DType_Int8
  else if decide (s = "int16"%string) then Some DType_Int16
  else if decide (s = "int32"%string) then Some DType_Int32
  else if decide (s = "int64"%string) then Some DType_Int64
  else if decide (s = "uint8"%string) then Some DType_Uint8
  else if decide (s = "bool"%string) then Some DType_Bool
  else None.

(** A [DoomRingConsumer]: its cursor and the mapped region. *)
Record Consumer := mkConsumer { con_nettics : Z; con_mem : mem }.

Section Inspect.
Context (blake3_hex : list byte -> string) `{NM : Numerics}.
Context (b64_decode : string -> result string (list byte)) (b64_encode : list byte -> string).
(** [Display] of [ShmError] and [StoreError] *)
Context (shm_error_text : ShmError -> string) (store_error_text : StoreError -> string).

(** [None] is the panic of [read_absolute]. *)
Definition read_from_shm (consumer : option Consumer) (shm_offset byte_length : Z) : option (result string (list byte)) :=
  match consumer with
  | None => Some (Err "shm consumer not available"%string)
  | Some c =>
      let data_start := u64_add shm_offset HEADER in
      read ← read_absolute data_start byte_length (con_mem c);
      Some (match read with
            | Ok bytes => Ok bytes
            | Err e => Err ("shm read at offset " +:+ to_string data_start +:+ ": " +:+ shm_error_text e)%string
            end)
  end.

(** The locals of the ingest loop. *)
Record Ingest := mkIngest {
  ig_store : TensorStore;
  ig_summaries : list TensorSummary;
  ig_first : option string;
  ig_slots : Z
}.

Definition or_first (first : option string) (id : string) : option string :=
  match first with None => Some id | Some _ => first end.

(** [store.summarize(id).expect(..)] and the bookkeeping around it *)
Definition push_summary (id : string) (store : TensorStore) (slots : Z) (g : Ingest) : option Ingest :=
  '(summary, store) ← TensorStore.summarize store id;
  summary ← summary;
  Some (mkIngest store (ig_summaries g ++ [summary]) (or_first (ig_first g) id) slots).

(** One turn of the loop: the early returns are [Err], a panic is [None]. *)
Definition ingest_one (request : Request) (consumer : option Consumer) (ct : CapturedTensor) (g : Ingest)
  : option (result Response Ingest) :=
  let store := ig_store g in
  match parse_dtype (ct_dtype ct) with
  | None => Some (Err (internal_error (req_id request) ("unknown dtype from worker: " +:+ ct_dtype ct)%string))
  | Some dtype =>
      let has_shm := bool_decide (is_Some (ct_shm_offset ct)) && bool_decide (is_Some (ct_byte_length ct)) in
      if TensorStore.contains store (ct_tensor_id ct) then
        Ok <$> push_summary (ct_tensor_id ct) store (if has_shm then u64_add (ig_slots g) 1 else ig_slots g) g
      else
        match ct_shm_offset ct, ct_byte_length ct with
        | Some shm_offset, Some byte_length =>
            read ← read_from_shm consumer shm_offset byte_length;
            match read with
            | Ok bytes =>
                '(handle, store) ← TensorStore.insert_with_id store (ct_tensor_id ct) bytes (ct_shape ct) dtype (ct_device ct);
                Ok <$> push_summary (th_tensor_id handle) store (u64_add (ig_slots g) 1) g
            | Err e => Some (Err (internal_error (req_id request) ("shm read failed: " +:+ e)%string))
            end
        | _, _ =>
            match ct_data_base64 ct with
            | Some b64 =>
                match b64_decode b64 with
                | Ok bytes =>
                    '(handle, store) ← TensorStore.insert blake3_hex store bytes (ct_shape ct) dtype (ct_device ct);
                    Ok <$> push_summary (th_tensor_id handle) store (ig_slots g) g
                | Err e => Some (Err (internal_error (req_id request) ("base64 decode failed: " +:+ e)%string))
                end
            | None => Some (Err (internal_error (req_id request) "CapturedTensor has neither shm_offset nor data_base64"))
            end
        end
  end.

(** The loop; an early return keeps what was stored before it. *)
Fixpoint ingest (request : Request) (consumer : option Consumer) (captured : list CapturedTensor) (g : Ingest)
  : option (result (Response * TensorStore) Ingest) :=
  match captured with
  | [] => Some (Ok g)
  | ct :: rest =>
      r ← ingest_one request consumer ct g;
      match r with
      | Err rsp => Some (Err (rsp, ig_store g))
      | Ok g => ingest request consumer rest g
      end
  end.

Definition advance_consumer (slots : Z) (consumer : option Consumer) : option Consumer :=
  match consumer with
  | Some c => if 0 <? slots then let '(_, n, m) := advance_by (con_nettics c) slots (con_mem c) in Some (mkConsumer n m)
              else Some c
  | None => None
  end.

(** The bytes a [detail=slice] request asks for. *)
Definition slice_data (request : Request) (req : InspectRequest) (first : option string) (store : TensorStore)
  : result Response (option string) * TensorStore :=
  match InspectRequest_detail req, InspectRequest_slices req, first with
  | InspectDetail_Slice, Some ((offset, len) :: _), Some tid =>
      let (r, store) := TensorStore.slice store tid offset len in
      (match r with
       | Ok bytes => Ok (Some (b64_encode bytes))
       | Err (TensorStore.SliceOutOfBounds _ _ _) => Err (error_response (req_id request)
           (error_with_hint ErrorCode_SliceOutOfBounds "Slice indices exceed tensor data size"))
       | Err e => Err (internal_error (req_id request) ("slice failed: " +:+ store_error_text e)%string)
       end, store)
  | _, _, _ => (Ok None, store)
  end.

Definition ingest_and_respond (request : Request) (req : InspectRequest) (captured : list CapturedTensor)
    (store : TensorStore) (consumer : option Consumer) (s : Session) : option (Response * TensorStore * option Consumer) :=
  r ← ingest request consumer captured (mkIngest store [] None 0);
  match r with
  | Err (rsp, store) => Some (rsp, store, consumer)
  | Ok g =>
      let consumer := advance_consumer (ig_slots g) consumer in
      let (data, store) := slice_data request req (ig_first g) (ig_store g) in
      match data with
      | Err rsp => Some (rsp, store, consumer)
      | Ok data => Some (answer_with request (inspect (ig_summaries g) data (InspectRequest_envelope req) s), store, consumer)
      end
  end.

Definition handle_inspect (request : Request) (host_response : option HostInspectResponse)
    (store : TensorStore) (consumer : option Consumer) (s : Session) : option (Response * TensorStore * option Consumer) :=
  with_params request (fun r => Some (r, store, consumer)) (fun req =>
    when_stopped_or request "rocket/inspect" s (fun r => Some (r, store, consumer))
      (if negb (target_known (InspectRequest_target req)) then
         data ← invalid_target_error (InspectRequest_target req);
         Some (error_response (req_id request) data, store, consumer)
       else match host_response with
            | None => Some (error_response (req_id request)
                (error_with_hint ErrorCode_TensorNotFound "No orchestrator available to capture tensors"), store, consumer)
            | Some hr =>
                match HostInspectResponse_tensors hr with
                | [] => Some (error_response (req_id request) (error_with_hint ErrorCode_TensorNotFound
                    "Target matched components but no tensors have been captured yet (step first)"), store, consumer)
                | captured => ingest_and_respond request req captured store consumer s
                end
            end)).

End Inspect.
End Handlers.
