(* ===== verification/DispatchSpec.v ===== *)
(** * DispatchSpec: what the request handlers guarantee

    Every handler returns, answers the request it was given, moves the session
    only by calls of the session state machine ([SessionInv]), and leaves it as
    it was when it answers with an error. *)

From Stdlib Require Import ZArith Lia Ascii String.
From coqutil Require Import Byte.
From stdpp Require Import base gmap strings list.
From S2P Require Import Prelude Winnow Grammar Protocol Messages Registry Shm TensorStore Json Session SessionInv Target Dispatch.
Open Scope Z_scope.

Create HintDb dispatch.

Section Answers.
Context `{J : SerdeJson} {WR : Wire}.

(** An error object that tells the caller how to go on: a hint, and the number of its code. *)
Definition hinted (d : ErrorData) : Prop :=
  is_Some (ed_recovery_hint d) /\ ed_numeric_code d = Some (numeric_code (ed_error_code d)).

(** What [rocket/intervene] accepts: a named recipe with a known component whose
    parameters are those of its type. *)
Definition recipe_valid (r : InterventionRecipe) : Prop :=
  (exists id, ir_id r = Some id /\ id <> ""%string) /\ target_known (ir_target r) = true /\
  recipe_type_matches_params r = true.

Definition admissible (c : Call) : Prop := match c with CSetIntervention r => recipe_valid r | _ => True end.

(** The response [rsp] answers [request] and the session went from [s] to [s']. *)
Record answers (request : Request) (s : Session) (rsp : Response) (s' : Session) : Prop := {
  an_version : rsp_jsonrpc rsp = JSONRPC_VERSION;
  an_id : rsp_id rsp = req_id request;
  an_outcome : is_Some (rsp_result rsp) <-> rsp_error rsp = None;
  an_calls : exists cs, Forall admissible cs /\ s' = foldl (fun s c => exec c s) s cs;
  an_error : forall e, rsp_error rsp = Some e -> s' = s /\
    match rpe_data e with
    | Some d => hinted d /\ rpe_code e = numeric_code (ed_error_code d) /\ rpe_message e = ed_suggestion d
    | None => rpe_code e = INTERNAL_ERROR
    end
}.

Lemma answers_success c request s s' v :
  admissible c -> s' = exec c s -> answers request s (Response_success (req_id request) v) s'.
Proof. intros Hc ->. split; try done. exists [c]. split; [by repeat constructor|done]. Qed.

Lemma answers_success_same request s v : answers request s (Response_success (req_id request) v) s.
Proof. split; try done. by exists []. Qed.

Lemma answers_error request s d : hinted d -> answers request s (error_response (req_id request) d) s.
Proof.
  intros Hd. split; try done; [split; [by intros []|done]|by exists []|].
  intros e [= <-]. split; [done|]. cbn. split; [done|]. destruct Hd as [_ E]. by rewrite E.
Qed.

Lemma answers_internal request s m : answers request s (internal_error (req_id request) m) s.
Proof. split; try done; [split; [by intros []|done]|by exists []|]. by intros e [= <-]. Qed.

Lemma hinted_hint c m : hinted (error_with_hint c m).
Proof. split; [by eexists|done]. Qed.
Lemma hinted_context c m v : hinted (error_with_context c m v).
Proof. split; [by eexists|done]. Qed.

Lemma answers_params request s e : answers request s (invalid_params_response (req_id request) e) s.
Proof. apply answers_error, hinted_context. Qed.

Hint Resolve answers_success_same answers_params answers_error answers_internal hinted_hint hinted_context : dispatch.

(** *** Session errors *)

Ltac session_error := repeat (case_match || (case_bool_decide; cbn [negb])); intros; simplify_eq/=; try done; split; by eauto.

Lemma require_stopped_hinted m s e : require_stopped m s = Err e -> hinted (error_data e).
Proof. unfold require_stopped. session_error. Qed.

Lemma initialize_hinted u r s e s' : initialize u r s = (Err e, s') -> s' = s /\ hinted (error_data e).
Proof. unfold initialize. session_error. Qed.

Lemma validate_attach_hinted r s e : validate_attach r s = Err e -> hinted (error_data e).
Proof. unfold validate_attach. session_error. Qed.

Lemma detach_hinted s e s' : detach s = (Err e, s') -> s' = s /\ hinted (error_data e).
Proof. unfold detach. session_error. Qed.

Lemma status_hinted u s e : status_ u s = Err e -> hinted (error_data e).
Proof. unfold status_. session_error. Qed.

Lemma discover_hinted p s e : discover p s = Err e -> hinted (error_data e).
Proof.
  unfold discover. destruct (require_stopped _ s) eqn:E; [|intros [= <-]; by eapply require_stopped_hinted].
  session_error.
Qed.

Lemma define_view_hinted n v s e s' : define_view n v s = (Err e, s') -> s' = s /\ hinted (error_data e).
Proof.
  unfold define_view. destruct (require_stopped _ s) eqn:E;
    [|intros [= <- <-]; split; [done|by eapply require_stopped_hinted]]. session_error.
Qed.

Lemma step_hinted r p fc f s e s' : step r p fc f s = (Err e, s') -> s' = s /\ hinted (error_data e).
Proof.
  unfold step. destruct (require_stopped _ s) eqn:E; [done|].
  intros [= <- <-]. split; [done|by eapply require_stopped_hinted].
Qed.

Lemma replay_hinted r h s e s' : replay r h s = (Err e, s') -> s' = s /\ hinted (error_data e).
Proof.
  unfold replay. destruct (require_stopped _ s) eqn:E;
    [|intros [= <- <-]; split; [done|by eapply require_stopped_hinted]]. session_error.
Qed.

Lemma restore_hinted id s e s' : checkpoint_restore id s = (Err e, s') -> s' = s /\ hinted (error_data e).
Proof. unfold checkpoint_restore. session_error. Qed.

Lemma delete_hinted id s e s' : checkpoint_delete id s = (Err e, s') -> s' = s /\ hinted (error_data e).
Proof.
  intros E. split; [by eapply delete_err|]. unfold checkpoint_delete in E. destruct (Nat.eqb _ _); [|done].
  injection E as <- _. split; by eauto.
Qed.

(** *** The shapes handlers are made of *)

Lemma with_params_answers {T} `{!Deserialize T} request s (k : T -> Response * Session) :
  (forall req, answers request s (k req).1 (k req).2) ->
  let r := with_params request (fun r => (r, s)) k in answers request s r.1 r.2.
Proof. intros H. unfold with_params. destruct (parse_params request); cbn; [done|]. eauto with dispatch. Qed.

(** A session operation that is one call of the state machine. *)
Lemma operation_answers {T} `{!Serialize T} request s (op : result SessionError T * Session) c :
  admissible c -> op.2 = exec c s -> (forall e s', op = (Err e, s') -> s' = s /\ hinted (error_data e)) ->
  answers request s (answer_with request op.1) op.2.
Proof.
  intros Ha Hc He. destruct op as [[v|e] s']; cbn in *.
  - by apply (answers_success c).
  - destruct (He _ _ eq_refl) as [-> ?]. by apply answers_error.
Qed.

Lemma query_answers {T} `{!Serialize T} request s (r : result SessionError T) :
  (forall e, r = Err e -> hinted (error_data e)) -> answers request s (answer_with request r) s.
Proof. intros He. destruct r; cbn; [apply answers_success_same|]. apply answers_error. by apply He. Qed.

Lemma stopped_answers request m s (k : Response * Session) :
  (status s = Status_Stopped -> answers request s k.1 k.2) ->
  let r := when_stopped_or request m s (fun r => (r, s)) k in answers request s r.1 r.2.
Proof.
  intros H. unfold when_stopped_or. destruct (require_stopped_cases m s) as [[Hs ->]|[_ [e E]]]; [by apply H|].
  rewrite E. apply answers_error. by eapply require_stopped_hinted.
Qed.

(** The same for handlers that leave the session alone. *)
Lemma with_params_query {T} `{!Deserialize T} request s (k : T -> Response) :
  (forall req, answers request s (k req) s) -> answers request s (with_params request id k) s.
Proof. intros H. unfold with_params. destruct (parse_params request); cbn; [done|]. eauto with dispatch. Qed.

Lemma stopped_query request m s k : answers request s k s -> answers request s (when_stopped_or request m s id k) s.
Proof.
  intros H. unfold when_stopped_or. destruct (require_stopped m s) eqn:E; [done|].
  apply answers_error. by eapply require_stopped_hinted.
Qed.

(** ** The handlers *)

Lemma handle_initialize_answers env request s :
  let r := handle_initialize env request s in answers request s r.1 r.2.
Proof.
  apply with_params_answers. intros req. pose proof (initialize_hinted (env_uuid env) req s) as He.
  pose proof (operation_answers request s _ (CInitialize (env_uuid env) req) I eq_refl He). by destruct (initialize _ _ s).
Qed.

Lemma handle_attach_answers env request backend s :
  let r := handle_attach env request backend s in answers request s r.1 r.2.
Proof.
  apply with_params_answers. intros req. destruct backend as [host|m]; [|cbn; eauto with dispatch].
  cbv beta iota zeta. destruct (_ || _); [cbn; eauto with dispatch|].
  destruct (validate_attach req s) as [[]|e] eqn:E; [|cbn; apply answers_error; by eapply validate_attach_hinted].
  eapply (answers_success (CAttach _ _ _ _ _ _)); [done|]. cbn [exec]. by rewrite E.
Qed.

Lemma handle_detach_answers request s : let r := handle_detach request s in answers request s r.1 r.2.
Proof.
  pose proof (operation_answers request s (detach s) CDetach I eq_refl (detach_hinted s)). unfold handle_detach.
  by destruct (detach s).
Qed.

Lemma handle_step_answers request host s : let r := handle_step request host s in answers request s r.1 r.2.
Proof.
  apply with_params_answers. intros req.
  set (x := match host with Some hr => _ | None => _ end). destruct x as [[pos fc] fired].
  pose proof (operation_answers request s _ (CStep req pos fc fired) I eq_refl (step_hinted req pos fc fired s)).
  by destruct (step req pos fc fired s).
Qed.

Lemma handle_replay_answers request host s : let r := handle_replay request host s in answers request s r.1 r.2.
Proof.
  apply with_params_answers. intros req.
  pose proof (operation_answers request s _ (CReplay req host) I eq_refl (replay_hinted req host s)).
  by destruct (replay req host s).
Qed.

Lemma handle_view_define_answers request s : let r := handle_view_define request s in answers request s r.1 r.2.
Proof.
  apply with_params_answers. intros [name spec].
  pose proof (operation_answers request s _ (CDefineView name spec) I eq_refl (define_view_hinted name spec s)).
  cbn. by destruct (define_view name spec s).
Qed.

Lemma handle_subscribe_answers request s : let r := handle_subscribe request s in answers request s r.1 r.2.
Proof.
  apply with_params_answers. intros req. apply stopped_answers. intros Hs. 
  apply (answers_success (CEventFilter (SubscribeRequest_filter req))); [done|]. cbn [exec]. unfold when_stopped, require_stopped. by rewrite Hs.
Qed.

(** A call the caller has guarded. *)
Lemma guarded m s f : status s = Status_Stopped -> when_stopped m f s = f s.
Proof. intros Hs. unfold when_stopped, require_stopped. by rewrite Hs. Qed.

Lemma handle_checkpoint_answers env request orch mh s :
  let r := handle_checkpoint env request orch mh s in answers request s r.1.1 r.1.2.
Proof.
  unfold handle_checkpoint, with_params. destruct (parse_params request) as [req|e]; [|cbn; eauto with dispatch].
  unfold when_stopped_or. destruct (require_stopped_cases "rocket/checkpoint" s) as [[Hs ->]|[_ [e E]]];
    [|rewrite E; apply answers_error; by eapply require_stopped_hinted].
  destruct req as [tier|id| |id|tick name].
  - destruct (if orch then mh else None).
    + apply (answers_success (CCreate (env_uuid env) (env_now env) tier (Some (env_uuid env)))); [done|].
      cbn [exec]. by rewrite guarded.
    + apply (answers_success (CCreate (env_uuid env) (env_now env) tier None)); [done|]. cbn [exec]. by rewrite guarded.
  - pose proof (operation_answers request s _ (CRestore id) I
      (eq_sym (guarded "rocket/checkpoint" s _ Hs)) (restore_hinted id s)). by destruct (checkpoint_restore id s).
  - apply answers_success_same.
  - pose proof (operation_answers request s _ (CDelete id) I
      (eq_sym (guarded "rocket/checkpoint" s _ Hs)) (delete_hinted id s)). by destruct (checkpoint_delete id s).
  - apply (answers_success (CBookmark (env_uuid env) (env_now env) tick name)); [done|]. cbn [exec]. by rewrite guarded.
Qed.

Lemma invalid_target_total target : exists d, invalid_target_error target = Some d /\ hinted d.
Proof.
  unfold invalid_target_error. destruct (nearest_components_eq (component_leaf (default target (target_component target))))
    as (s & rest & _ & ->). eexists. split; [done|]. apply hinted_context.
Qed.

Lemma validate_recipe_total r :
  exists v, validate_recipe r = Some v /\ match v with Ok _ => recipe_valid r | Err d => hinted d end.
Proof.
  unfold validate_recipe. case_bool_decide as Hid; [eexists; split; [done|apply hinted_hint]|].
  destruct (target_known _) eqn:Et; cbn [negb].
  - destruct (recipe_type_matches_params r) eqn:Ep; eexists; (split; [done|]); [|apply hinted_hint].
    split_and!; try done. destruct (ir_id r) as [id|]; [by exists id|done].
  - destruct (invalid_target_total (ir_target r)) as (d & -> & Hd). by exists (Err d).
Qed.

Lemma handle_intervene_answers request s :
  exists rsp s', handle_intervene request s = Some (rsp, s') /\ answers request s rsp s'.
Proof.
  unfold handle_intervene, with_params. destruct (parse_params request) as [req|e]; [|eauto 10 with dispatch].
  unfold when_stopped_or. destruct (require_stopped_cases "rocket/intervene" s) as [[Hs ->]|[_ [e E]]];
    [|rewrite E; do 2 eexists; split; [done|]; apply answers_error; by eapply require_stopped_hinted].
  destruct req as [recipe|id|].
  - destruct (validate_recipe_total recipe) as ([[]|d] & -> & Hd); cbn [mbind option_bind].
    + do 2 eexists. split; [done|]. apply (answers_success (CSetIntervention recipe)); [done|]. cbn [exec]. by rewrite guarded.
    + eauto with dispatch.
  - do 2 eexists. split; [done|]. apply (answers_success (CClearIntervention id)); [done|]. cbn [exec]. by rewrite guarded.
  - do 2 eexists. split; [done|]. apply answers_success_same.
Qed.

Lemma handle_view_answers request host s : answers request s (handle_view request host s) s.
Proof. apply with_params_query. intros req. apply stopped_query. destruct host; eauto with dispatch. Qed.

Lemma handle_kv_read_answers request host s : answers request s (handle_kv_read request host s) s.
Proof.
  apply with_params_query. intros req. apply stopped_query. destruct host as [hr|]; [|eauto with dispatch].
  destruct (HostKvReadResponse_evicted hr); [apply answers_success_same|]. apply answers_error, hinted_context.
Qed.

Lemma handle_kv_intervene_answers request host s : answers request s (handle_kv_intervene request host s) s.
Proof.
  apply with_params_query. intros req. apply stopped_query. cbv beta. destruct (_ || _); [eauto with dispatch|].
  destruct host; eauto with dispatch. 
Qed.

Lemma handle_queries_answer env request s :
  answers request s (handle_status env request s) s /\ answers request s (handle_discover request s) s /\
  answers request s (handle_unsubscribe request s) s /\ answers request s (handle_inspect_no_store request s) s.
Proof.
  split_and!.
  - apply query_answers. intros e. apply status_hinted.
  - apply with_params_query. intros req. apply query_answers. intros e. apply discover_hinted.
  - apply with_params_query. intros req. apply answers_success_same.
  - apply stopped_query. eauto with dispatch.
Qed.

(** The methods of the router. *)
Definition routed : list string :=
  [method.INITIALIZE; method.ATTACH; method.DETACH; method.STATUS; method.STEP; method.INSPECT; method.SUBSCRIBE;
   method.UNSUBSCRIBE; method.VIEW; method.DISCOVER; method.VIEW_DEFINE; method.CHECKPOINT; method.KV_READ;
   method.KV_INTERVENE; method.INTERVENE; method.REPLAY].

Lemma dispatch_answers env request s :
  exists rsp s', dispatch env request s = Some (rsp, s') /\
    if decide (req_method request ∈ routed) then answers request s rsp s'
    else s' = s /\ rsp = Response_error (req_id request)
           (mkRpcError METHOD_NOT_FOUND ("Method not found: " +:+ req_method request)%string None).
Proof.
  pose proof (handle_queries_answer env request s) as (H1 & H2 & H3 & H4).
  assert (Hp : forall p : Response * Session, answers request s p.1 p.2 ->
    exists rsp s', Some p = Some (rsp, s') /\ answers request s rsp s') by (intros [? ?]; eauto).
  assert (Hr : forall m, m ∈ routed -> req_method request = m -> req_method request ∈ routed) by (by intros m H ->).
  destruct (decide (req_method request ∈ routed)) as [Hin|Hout]; unfold dispatch;
    repeat match goal with |- context [decide (req_method request = ?m)] =>
      destruct (decide (req_method request = m)) as [E|]; cbv iota;
        [try (exfalso; apply Hout; apply (Hr m); [apply (bool_decide_eq_true_1 _); reflexivity|done])|] end;
    try (apply Hp; first [apply handle_initialize_answers | apply handle_detach_answers | apply handle_step_answers
           | apply handle_subscribe_answers | apply handle_view_define_answers | apply handle_checkpoint_answers
           | apply handle_replay_answers | apply answers_internal | done
           | apply handle_view_answers | apply handle_kv_read_answers | apply handle_kv_intervene_answers]);
    try apply handle_intervene_answers; [|by do 2 eexists].
  exfalso. revert Hin. unfold routed. rewrite !elem_of_cons, elem_of_nil. tauto.
Qed.

(** C23: every request gets an answer.  The router never panics; its response
    carries the version and the id of the request and either a result or an
    error; an unknown method, and only that, is reported as not found; the
    session moves only by calls of its state machine, and not at all when the
    answer is an error; and every error object carries a recovery hint and the
    number and text of its code.  The same holds of the handlers the main loop
    calls with the worker's answer, whatever that answer is. *)
Theorem requests_answered (env : Env) (request : Request) (s : Session) :
  (exists rsp s', dispatch env request s = Some (rsp, s') /\
    if decide (req_method request ∈ routed) then answers request s rsp s'
    else s' = s /\ rsp = Response_error (req_id request)
           (mkRpcError METHOD_NOT_FOUND ("Method not found: " +:+ req_method request)%string None)) /\
  (forall backend, let r := handle_attach env request backend s in answers request s r.1 r.2) /\
  (forall host, let r := handle_step request host s in answers request s r.1 r.2) /\
  (forall host, let r := handle_replay request host s in answers request s r.1 r.2) /\
  (forall orch mh, let r := handle_checkpoint env request orch mh s in answers request s r.1.1 r.1.2) /\
  (forall host, answers request s (handle_view request host s) s) /\
  (forall host, answers request s (handle_kv_read request host s) s) /\
  (forall host, answers request s (handle_kv_intervene request host s) s).
Proof.
  split_and!; intros; [apply dispatch_answers|apply handle_attach_answers|apply handle_step_answers|
    apply handle_replay_answers|apply handle_checkpoint_answers|apply handle_view_answers|apply handle_kv_read_answers|
    apply handle_kv_intervene_answers].
Qed.

(** ** Serving requests *)

(** Serve requests one after the other through the router. *)
Definition serve (s : Session) (requests : list (Env * Request)) : Session :=
  foldl (fun s er => match dispatch er.1 er.2 s with Some (_, s') => s' | None => s end) s requests.

Lemma dispatch_calls env request s rsp s' :
  dispatch env request s = Some (rsp, s') -> exists cs, Forall admissible cs /\ s' = foldl (fun s c => exec c s) s cs.
Proof.
  intros E. destruct (dispatch_answers env request s) as (r & t & E' & H). rewrite E in E'. injection E' as <- <-.
  destruct (decide _); [by apply (an_calls _ _ _ _ H)|]. destruct H as [-> _]. by exists [].
Qed.

Lemma serve_calls requests : exists cs, Forall admissible cs /\ serve new requests = run cs.
Proof.
  induction requests as [|[env request] rs (cs & Hc & E)] using rev_ind; [by exists []|].
  unfold serve in *. rewrite foldl_app, E. cbn. destruct (dispatch env request (run cs)) as [[rsp s']|] eqn:Ed; [|eauto].
  destruct (dispatch_calls _ _ _ _ _ Ed) as (cs' & Hc' & ->). exists (cs ++ cs').
  split; [by apply Forall_app|]. unfold run. by rewrite foldl_app.
Qed.

Lemma Forall_update_first {A} (P : A -> Prop) p x (l l' : list A) :
  P x -> Forall P l -> update_first p (fun _ => x) l = Some l' -> Forall P l'.
Proof.
  intros Hx. revert l'. induction l as [|y l IH]; intros l' Hl; cbn; [done|]. apply Forall_cons in Hl as [Hy Hl].
  destruct (p y); [intros [= <-]; by constructor|]. destruct (update_first p _ l) eqn:E; [|done].
  intros [= <-]. constructor; eauto.
Qed.

Lemma Forall_filter_bool {A} (P : A -> Prop) (p : A -> bool) l : Forall P l -> Forall P (List.filter p l).
Proof. induction 1 as [|x l Hx Hl IH]; [constructor|]. cbn. destruct (p x); [by constructor|done]. Qed.

Lemma exec_recipes c s :
  admissible c -> Forall recipe_valid (s_interventions s) -> Forall recipe_valid (s_interventions (exec c s)).
Proof.
  intros Hc Hs. destruct c; cbn [exec admissible] in *; unfold when_stopped, initialize, commit_attach, detach, step, replay,
    checkpoint_restore, checkpoint_delete, checkpoint_create_with_id, define_view, update_arena_utilization;
    repeat (case_match || (case_bool_decide; cbn [negb])); simplify_eq/=; try done.
  - unfold set_intervention. cbn. destruct (update_first _ _ _) eqn:E; [by eapply Forall_update_first|].
    apply Forall_app. split; [done|]. by apply Forall_singleton.
  - by apply Forall_filter_bool.
Qed.

(** A client that talks to the router only ever sees well-formed sessions
    ([session_ok]) in which every registered intervention is named, unique by
    name, aimed at a known component, and carries the parameters of its type. *)
Theorem served_sessions_ok (requests : list (Env * Request)) :
  let s := serve new requests in
  session_ok s /\ Forall recipe_valid (s_interventions s) /\ NoDup (ir_id <$> s_interventions s).
Proof.
  destruct (serve_calls requests) as (cs & Hc & E). cbn zeta. rewrite E. pose proof (run_ok cs) as Hok.
  split_and!; [done| |apply Hok]. clear E Hok. induction cs as [|c cs IH] using rev_ind; [constructor|].
  apply Forall_app in Hc as [Hcs Hc]. rewrite Forall_singleton in Hc. rewrite run_snoc. apply exec_recipes; [done|by apply IH].
Qed.

End Answers.
