(* ===== verification/InspectSpec.v ===== *)
(** * InspectSpec: [rocket/inspect]

    The ingest loop of the inspect handler over the tensor store and the
    shared-memory ring: when it panics, that it reports one summary per captured
    tensor, invents no data, and gives back exactly the ring slots it read. *)

From Stdlib Require Import ZArith Lia Ascii String.
From coqutil Require Import Byte.
From stdpp Require Import base gmap strings list.
From S2P Require Import Prelude Protocol Messages Shm Stats TensorStore Json Session SessionInv Target Dispatch DispatchSpec.
Open Scope Z_scope.

Section Inspect.
Context `{J : SerdeJson} {WR : Wire}.
Context (blake3_hex : list byte -> string) `{NM : Numerics}.
Context (b64_decode : string -> result string (list byte)) (b64_encode : list byte -> string).
Context (shm_error_text : ShmError -> string) (store_error_text : StoreError -> string).
Context (maxe maxb : Z).

Abbreviation summary_of := spec_summary.
Abbreviation rep := (represents maxe maxb).

(** The store represents the tensors [l], least recently used first, and has
    seen at most [n] calls fewer than its 64-bit stamp can count. *)
Definition holds (s : TensorStore) (l : list tensor) (n : nat) : Prop :=
  exists ts, rep s ts /\ view <$> ts = l /\ 0 <= access_generation s /\ access_generation s + Z.of_nat n <= U64_MAX.

Lemma holds_weaken s l n n' : (n' <= n)%nat -> holds s l n -> holds s l n'.
Proof. intros ? (ts & ? & ? & ? & ?). exists ts. split_and!; try done. lia. Qed.

Lemma holds_contains s l n id : holds s l n -> contains s id = bool_decide (is_Some (find_key t_id l id)).
Proof.
  intros (ts & HR & <- & _). unfold contains. apply bool_decide_ext.
  rewrite find_view, fmap_is_Some, (kb_lookup _ _ _ (rep_keyed _ _ _ _ HR)). done.
Qed.

Lemma find_key_use l t id : NoDup (t_id <$> l) -> find_key t_id (use l t) id = if decide (t_id t = id) then Some t else find_key t_id l id.
Proof.
  intros Hn. unfold use. rewrite find_key_snoc by apply NoDup_drop_key, Hn. rewrite find_key_drop. repeat case_decide; congruence.
Qed.

Lemma elem_of_use l t x : x ∈ use l t -> x ∈ l \/ x = t.
Proof. unfold use. rewrite elem_of_app, elem_of_drop_key, list_elem_of_singleton. tauto. Qed.

Lemma holds_NoDup s l n : holds s l n -> NoDup (t_id <$> l).
Proof. intros (ts & HR & <- & _). by eapply represents_ids. Qed.

Lemma summarize_holds s l n id t :
  holds s l (S n) -> find_key t_id l id = Some t ->
  match summarize s id with
  | Some (o, s') => exists sm, summary_of t = Some sm /\ o = Some sm /\ holds s' (use l t) n
  | None => summary_of t = None
  end.
Proof.
  intros (ts & HR & <- & H0 & Hb) Hf.
  pose proof (call_represents blake3_hex maxe maxb s ts (CSummarize id) HR ltac:(lia)) as Hc.
  cbn [run_call spec_call] in Hc. rewrite Hf in Hc. destruct (summarize s id) as [[o s']|]; cbn in Hc.
  - destruct Hc as (ts' & HR' & Hg & Hs). destruct (summary_of t) as [sm|]; [|done]. cbn in Hs. injection Hs as <- Hv.
    exists sm. split_and!; [done|done|]. exists ts'. split_and!; try done; lia.
  - by destruct (summary_of t).
Qed.

Lemma spec_evict_sub n l x : x ∈ spec_evict maxe maxb n l -> x ∈ l.
Proof. induction l as [|t l IH]; [done|]. cbn [spec_evict]. destruct (_ || _); [set_solver|done]. Qed.

Lemma insert_holds s l n id bytes shp dt dev :
  holds s l (S n) -> find_key t_id l id = None ->
  exists h s' l', insert_with_id s id bytes shp dt dev = Some (h, s') /\ th_tensor_id h = id /\ holds s' l' n /\
    find_key t_id l' id = Some (id, shp, dt, dev, bytes) /\
    (forall x, x ∈ l' -> x ∈ l \/ x = (id, shp, dt, dev, bytes)).
Proof.
  intros (ts & HR & <- & H0 & Hb) Hf.
  destruct (insert_represents maxe maxb s ts id bytes shp dt dev HR) as (h & s' & ts' & E & HR' & Hg & Hs); [lia|].
  exists h, s', (view <$> ts'). unfold spec_insert in Hs. change (t_id (id, shp, dt, dev, bytes)) with id in Hs.
  rewrite Hf in Hs. injection Hs as <- Hv. rewrite <- Hv.
  assert (Hn : id ∉ t_id <$> spec_evict maxe maxb (Z.of_nat (List.length bytes)) (view <$> ts)).
  { intros (x & -> & Hx%spec_evict_sub)%list_elem_of_fmap. apply find_key_None in Hf. apply Hf. apply list_elem_of_fmap. eauto. }
  split_and!; try done.
  - exists ts'. split_and!; try done; lia.
  - rewrite find_key_snoc by done. by rewrite decide_True.
  - intros x [Hx|Hx]%elem_of_app; [left; by eapply spec_evict_sub|]. right. by apply list_elem_of_singleton in Hx.
Qed.

(** If the id is stored already, inserting keeps the stored tensor. *)
Lemma insert_holds_again s l n id bytes shp dt dev t :
  holds s l (S n) -> find_key t_id l id = Some t ->
  exists h s', insert_with_id s id bytes shp dt dev = Some (h, s') /\ th_tensor_id h = id /\ holds s' (use l t) n.
Proof.
  intros (ts & HR & <- & H0 & Hb) Hf.
  destruct (insert_represents maxe maxb s ts id bytes shp dt dev HR) as (h & s' & ts' & E & HR' & Hg & Hs); [lia|].
  exists h, s'. unfold spec_insert in Hs. change (t_id (id, shp, dt, dev, bytes)) with id in Hs.
  rewrite Hf in Hs. injection Hs as <- Hv. split_and!; try done. exists ts'. split_and!; try done; lia.
Qed.

(** ** One captured tensor *)

Definition has_shm (ct : CapturedTensor) : bool :=
  bool_decide (is_Some (ct_shm_offset ct)) && bool_decide (is_Some (ct_byte_length ct)).

(** The worker delivered these bytes under this id: through the ring under the
    id it named, or inline under the hash of the bytes. *)
Definition delivered (consumer : option Consumer) (ct : CapturedTensor) (id : string) (bytes : list byte) : Prop :=
  match ct_shm_offset ct, ct_byte_length ct with
  | Some o, Some n => read_from_shm shm_error_text consumer o n = Some (Ok bytes) /\ id = ct_tensor_id ct
  | _, _ => exists b64, ct_data_base64 ct = Some b64 /\ b64_decode b64 = Ok bytes /\ id = blake3_hex bytes
  end.

Definition deliverable (consumer : option Consumer) (ct : CapturedTensor) : Prop :=
  is_Some (parse_dtype (ct_dtype ct)) /\ exists id bytes, delivered consumer ct id bytes.

(** The length of the buffer that reading it from the ring asks for is no
    length of a vector. *)
Definition oversized (consumer : option Consumer) (ct : CapturedTensor) : Prop :=
  is_Some consumer /\ exists o n, ct_shm_offset ct = Some o /\ ct_byte_length ct = Some n /\ ISIZE_MAX < n.

(** The tensor the store makes of a captured one. *)
Definition made_from (consumer : option Consumer) (ct : CapturedTensor) (t : tensor) : Prop :=
  delivered consumer ct (t_id t) (t_data t) /\ t_shape t = ct_shape ct /\
  parse_dtype (ct_dtype ct) = Some (t_dtype t) /\ t_device t = ct_device ct.

(** The id a captured tensor is reported under. *)
Definition reported_as (consumer : option Consumer) (ct : CapturedTensor) (id : string) : Prop :=
  id = ct_tensor_id ct \/ exists bytes, delivered consumer ct id bytes.

(** What one turn of the loop does: a tensor is kept under the reported id,
    which was stored before or is made from the captured one. *)
Definition turn (consumer : option Consumer) (ct : CapturedTensor) (l : list tensor) (n : nat) (g g' : Ingest) : Prop :=
  exists t l', holds (ig_store g') l' n /\ (forall x, x ∈ l' -> x ∈ l \/ x = t) /\
    reported_as consumer ct (t_id t) /\ (t ∈ l \/ made_from consumer ct t) /\
    (exists sm, summary_of t = Some sm /\ ig_summaries g' = ig_summaries g ++ [sm]) /\ ig_first g' = or_first (ig_first g) (t_id t) /\
    ig_slots g' = if has_shm ct then u64_add (ig_slots g) 1 else ig_slots g.

Lemma push_turn consumer ct s l0 l n slots (g : Ingest) id t :
  holds s l (S n) -> find_key t_id l id = Some t -> (forall x, x ∈ l -> x ∈ l0 \/ x = t) ->
  reported_as consumer ct id -> (t ∈ l0 \/ made_from consumer ct t) ->
  slots = (if has_shm ct then u64_add (ig_slots g) 1 else ig_slots g) ->
  match push_summary id s slots g with
  | Some g' => turn consumer ct l0 n g g'
  | None => summary_of t = None
  end.
Proof.
  intros Hh Hf Hl Hr Ht ->. pose proof (summarize_holds s l n id t Hh Hf) as E.
  unfold push_summary. destruct (summarize s id) as [[o s']|]; [|exact E]. destruct E as (sm & Esm & -> & Hh'). cbn [mbind option_bind].
  apply find_key_Some in Hf as [<- _]. exists t, (use l t). split_and!; try done; [|by exists sm]. intros x [Hx|Hx]%elem_of_use; auto.
Qed.

(** A tensor whose summary panics, stored before or made of the captured one. *)
Definition no_summary (consumer : option Consumer) (ct : CapturedTensor) (l : list tensor) : Prop :=
  exists t, (t ∈ l \/ made_from consumer ct t) /\ summary_of t = None.

(** The id the store is asked for is fresh or known; either way a turn follows. *)
Lemma insert_turn consumer ct s l n id bytes dt slots (g : Ingest) :
  holds s l (S (S n)) -> parse_dtype (ct_dtype ct) = Some dt -> delivered consumer ct id bytes ->
  slots = (if has_shm ct then u64_add (ig_slots g) 1 else ig_slots g) ->
  exists h s', insert_with_id s id bytes (ct_shape ct) dt (ct_device ct) = Some (h, s') /\
    match push_summary (th_tensor_id h) s' slots g with
    | Some g' => turn consumer ct l n g g'
    | None => no_summary consumer ct l
    end.
Proof.
  intros Hh Hd Hdel Hs. destruct (find_key t_id l id) as [t|] eqn:Ef.
  - destruct (insert_holds_again s l (S n) id bytes (ct_shape ct) dt (ct_device ct) t Hh Ef) as (h & s' & E & Eid & Hh').
    pose proof (find_key_Some _ _ _ _ Ef) as [Et Hin].
    exists h, s'. split; [done|]. rewrite Eid.
    pose proof (push_turn consumer ct s' l (use l t) n slots g id t Hh') as Hp.
    destruct (push_summary id s' slots g); [|exists t; split; [by left|]]; apply Hp; try done.
    1, 5: rewrite find_key_use by (by eapply holds_NoDup); by rewrite decide_True.
    1, 4: by intros x [Hx|Hx]%elem_of_use; auto.
    all: first [by left|right; by exists bytes].
  - destruct (insert_holds s l (S n) id bytes (ct_shape ct) dt (ct_device ct) Hh Ef) as (h & s' & l' & E & Eid & Hh' & Hf & Hl).
    exists h, s'. split; [done|]. rewrite Eid.
    assert (Hm : made_from consumer ct (id, ct_shape ct, dt, ct_device ct, bytes)) by (by split).
    pose proof (push_turn consumer ct s' l l' n slots g id _ Hh' Hf Hl ltac:(right; by exists bytes) ltac:(by right) Hs) as Hp.
    destruct (push_summary id s' slots g); [exact Hp|]. eexists. split; [right; exact Hm|exact Hp].
Qed.

Lemma ingest_one_turn request consumer ct l n g :
  holds (ig_store g) l (S (S n)) ->
  match ingest_one blake3_hex b64_decode shm_error_text request consumer ct g with
  | Some (Ok g') => turn consumer ct l n g g'
  | Some (Err rsp) => (exists m, rsp = internal_error (req_id request) m) /\ ~ deliverable consumer ct
  | None => oversized consumer ct \/ no_summary consumer ct l
  end.
Proof.
  intros Hh. unfold ingest_one. destruct (parse_dtype (ct_dtype ct)) as [dt|] eqn:Ed;
    [|split; [by eexists|]; intros [[? H] _]; congruence].
  rewrite (holds_contains _ _ _ (ct_tensor_id ct) Hh). case_bool_decide as Hc.
  - destruct Hc as [t Ht]. pose proof (find_key_Some _ _ _ _ Ht) as [Eid Hin].
    pose proof (push_turn consumer ct (ig_store g) l l n (if has_shm ct then u64_add (ig_slots g) 1 else ig_slots g)
      g (ct_tensor_id ct) t (holds_weaken _ _ _ _ (le_n_S _ _ (Nat.le_succ_diag_r n)) Hh) Ht) as Hp.
    unfold has_shm in Hp. destruct (push_summary _ _ _ g); cbn [fmap option_fmap option_map]; [|right; exists t; split; [by left|]];
      apply Hp; by (left || auto).
  - assert (Hdel : forall id bytes, delivered consumer ct id bytes -> forall slots,
      slots = (if has_shm ct then u64_add (ig_slots g) 1 else ig_slots g) ->
      match ('(handle, store) ← insert_with_id (ig_store g) id bytes (ct_shape ct) dt (ct_device ct);
             @Ok Response Ingest <$> push_summary (th_tensor_id handle) store slots g) with
      | Some (Ok g') => turn consumer ct l n g g'
      | Some (Err _) => False
      | None => no_summary consumer ct l
      end).
    { intros id bytes Hd slots Hs.
      destruct (insert_turn consumer ct _ l n id bytes dt slots g Hh Ed Hd Hs) as (h & s' & -> & Hg).
      cbn. by destruct (push_summary _ _ _ g). }
    unfold deliverable, delivered, has_shm in *. destruct (ct_shm_offset ct) as [o|] eqn:Eo, (ct_byte_length ct) as [len|] eqn:El; cbn in *.
    1: destruct (read_from_shm shm_error_text consumer o len) as [[bytes|e]|] eqn:Er; cbn [mbind option_bind].
    1: specialize (Hdel (ct_tensor_id ct) bytes (conj eq_refl eq_refl) _ eq_refl); destruct (_ ≫= _) as [[]|]; try done; by right.
    1: split; [by eexists|by intros (_ & ? & ? & ? & _)].
    1: left; unfold read_from_shm, read_absolute, read_vec in Er; destruct consumer as [c|]; [|done]; cbn in Er;
      destruct (Z.ltb_spec ISIZE_MAX len); [|done]; split; [done|]; rewrite Eo, El; by exists o, len.
    all: destruct (ct_data_base64 ct) as [b64|]; [|split; [by eexists|by intros (_ & ? & ? & ? & ? & _)]];
      destruct (b64_decode b64) as [bytes|e] eqn:Er;
        [specialize (Hdel (blake3_hex bytes) bytes (ex_intro _ b64 (conj eq_refl (conj Er eq_refl))) _ eq_refl);
         unfold TensorStore.insert; destruct (_ ≫= _) as [[]|]; try done; by right
        |split; [by eexists|by intros (_ & ? & ? & ? & [= ->] & ? & _); congruence]].
Qed.

(** ** The loop *)

Definition shm_count (captured : list CapturedTensor) : Z := Z.of_nat (List.length (List.filter has_shm captured)).

Lemma shm_count_cons ct captured : shm_count (ct :: captured) = (if has_shm ct then 1 else 0) + shm_count captured.
Proof. unfold shm_count. cbn. destruct (has_shm ct); cbn; lia. Qed.

(** Where the reported tensors come from: the store as it was, or this capture. *)
Definition provenance (consumer : option Consumer) (captured : list CapturedTensor) (l : list tensor) (t : tensor) : Prop :=
  t ∈ l \/ exists ct, ct ∈ captured /\ made_from consumer ct t.

Definition ingested (consumer : option Consumer) (captured : list CapturedTensor) (l : list tensor) (ts : list tensor) : Prop :=
  Forall2 (fun ct t => reported_as consumer ct (t_id t)) captured ts /\ Forall (provenance consumer captured l) ts.

Lemma ingested_cons consumer ct captured l l' t ts :
  (forall x, x ∈ l' -> x ∈ l \/ x = t) -> reported_as consumer ct (t_id t) -> t ∈ l \/ made_from consumer ct t ->
  ingested consumer captured l' ts -> ingested consumer (ct :: captured) l (t :: ts).
Proof.
  intros Hl Hr Ht [H1 H2]. assert (Hpt : provenance consumer (ct :: captured) l t).
  { destruct Ht; [by left|]. right. exists ct. split; [set_solver|done]. }
  split; [by constructor|]. constructor; [done|].
  eapply Forall_impl; [exact H2|]. intros x [Hx|(c & Hc & Hx)].
  - destruct (Hl x Hx) as [?| ->]; [by left|done].
  - right. exists c. split; [set_solver|done].
Qed.

(** What makes an inspection panic: a length beyond any vector's, or a tensor
    to report, with a zero dimension, whose summary panics. *)
Definition blocked (consumer : option Consumer) (captured : list CapturedTensor) (l : list tensor) : Prop :=
  Exists (oversized consumer) captured \/
  exists t, provenance consumer captured l t /\ summary_of t = None /\ 0 ∈ t_shape t.

Lemma no_summary_blocked consumer ct captured l : no_summary consumer ct l -> blocked consumer (ct :: captured) l.
Proof.
  intros (t & Ht & Hs). right. exists t. split; [|split; [done|by apply spec_summary_None]].
  destruct Ht as [?|Ht]; [by left|]. right. exists ct. split; [by left|done].
Qed.

Lemma blocked_cons consumer ct captured l l' t :
  (forall x, x ∈ l' -> x ∈ l \/ x = t) -> t ∈ l \/ made_from consumer ct t ->
  blocked consumer captured l' -> blocked consumer (ct :: captured) l.
Proof.
  intros Hl Ht [Hb|(x & Hx & Hs)]; [left; by right|]. right. exists x. split; [|done].
  destruct Hx as [Hx|(c & Hc & Hx)].
  - destruct (Hl x Hx) as [?| ->]; [by left|]. destruct Ht; [by left|]. right. exists ct. split; [by left|done].
  - right. exists c. split; [by right|done].
Qed.

Abbreviation summarised := (Forall2 (fun t sm => summary_of t = Some sm)).

Lemma ingest_loop request consumer captured : forall l n g,
  holds (ig_store g) l (2 * List.length captured + n) ->
  0 <= ig_slots g -> ig_slots g + Z.of_nat (List.length captured) <= U64_MAX ->
  match ingest blake3_hex b64_decode shm_error_text request consumer captured g with
  | Some (Ok g') => exists ts sms l', holds (ig_store g') l' n /\ ingested consumer captured l ts /\ summarised ts sms /\
      ig_summaries g' = ig_summaries g ++ sms /\ ig_slots g' = ig_slots g + shm_count captured
  | Some (Err (rsp, store)) => (exists m, rsp = internal_error (req_id request) m) /\ (exists l', holds store l' n) /\
      ~ Forall (deliverable consumer) captured
  | None => blocked consumer captured l
  end.
Proof.
  induction captured as [|ct captured IH]; intros l n g Hh Hs0 Hs; cbn [ingest].
  - exists [], [], l. split_and!; [done|by repeat constructor|constructor|by rewrite app_nil_r|].
    unfold shm_count. cbn. lia.
  - cbn [List.length] in *.
    pose proof (ingest_one_turn request consumer ct l (2 * List.length captured + n) g) as Hr.
    destruct (ingest_one _ _ _ request consumer ct g) as [[g'|rsp]|]; cbn [mbind option_bind].
    + destruct Hr as (t & l' & Hh' & Hl & Hrep & Ht & (sm & Hsm & Esum) & Efst & Eslots); [eapply holds_weaken; [|exact Hh]; lia|].
      assert (Hslots : ig_slots g' = ig_slots g + (if has_shm ct then 1 else 0)).
      { rewrite Eslots. destruct (has_shm ct); [|lia]. apply u64_add_small; lia. }
      specialize (IH l' n g' Hh' ltac:(rewrite Hslots; destruct (has_shm ct); lia) ltac:(rewrite Hslots; destruct (has_shm ct); lia)).
      destruct (ingest _ _ _ request consumer captured g') as [[g''|[rsp store]]|].
      * destruct IH as (ts & sms & l'' & Hh'' & Hing & Hsms & Es & Esl). exists (t :: ts), (sm :: sms), l''.
        split_and!; [done|by eapply ingested_cons|by constructor|by rewrite Es, Esum, <- app_assoc|].
        rewrite Esl, Hslots, shm_count_cons. lia.
      * destruct IH as (? & ? & Hn). split_and!; try done. by intros [_ ?]%Forall_cons.
      * by eapply blocked_cons.
    + destruct Hr as [Hm Hn]; [eapply holds_weaken; [|exact Hh]; lia|]. split_and!; [done| |by intros [? _]%Forall_cons].
      exists l. eapply holds_weaken; [|exact Hh]. lia.
    + destruct Hr as [Hov|Hno]; [eapply holds_weaken; [|exact Hh]; lia|left; by left|by apply no_summary_blocked].
Qed.

Lemma slice_data_total request req first store l n s :
  holds store l (S n) ->
  let r := slice_data b64_encode store_error_text request req first store in
  (exists l', holds r.2 l' n) /\
  match r.1 with Ok _ => True | Err rsp => answers request s rsp s end.
Proof.
  intros Hh. unfold slice_data.
  assert (H0 : exists l', holds store l' n) by (exists l; eapply holds_weaken; [|exact Hh]; lia).
  destruct (InspectRequest_detail req); try done. destruct (InspectRequest_slices req) as [[|[o len] sl]|]; try done.
  destruct first as [tid|]; [|done]. destruct Hh as (ts & HR & Hv & Hg0 & Hg).
  pose proof (call_represents blake3_hex maxe maxb store ts (CSlice tid o len) HR ltac:(lia)) as Hr.
  cbn [run_call] in Hr. destruct (TensorStore.slice store tid o len) as [r s1]. destruct Hr as (ts' & HR' & Hgen & _). cbn [fst snd]. split.
  - exists (view <$> ts'), ts'. split_and!; try done; lia.
  - destruct r as [b|[]]; [done|apply answers_internal|apply answers_error, hinted_hint].
Qed.

Definition captured_of (host : option HostInspectResponse) : list CapturedTensor :=
  match host with Some hr => HostInspectResponse_tensors hr | None => [] end.

Abbreviation inspect_handler :=
  (handle_inspect blake3_hex b64_decode b64_encode shm_error_text store_error_text).

Lemma respond_spec request req captured store consumer s l :
  holds store l (2 * List.length captured + 1) ->
  match ingest_and_respond blake3_hex b64_decode b64_encode shm_error_text store_error_text request req captured store consumer s with
  | Some (rsp, store', consumer') => answers request s rsp s /\ (exists l', holds store' l' 0) /\
      (status s = Status_Stopped -> InspectRequest_detail req <> InspectDetail_Slice ->
       Forall (deliverable consumer) captured ->
       consumer' = advance_consumer (shm_count captured) consumer /\
       exists ts sms, ingested consumer captured l ts /\ summarised ts sms /\
         rsp = Response_success (req_id request)
                 (envelope_with_mode s (InspectRequest_envelope req) (mkInspectResponse sms None None)))
  | None => blocked consumer captured l
  end.
Proof.
  intros Hh. unfold ingest_and_respond.
  pose proof (ingest_loop request consumer captured l 1 (mkIngest store [] None 0) Hh ltac:(done)) as Hr.
  destruct (ingest _ _ _ request consumer captured _) as [[g|[rsp store']]|]; cbn [mbind option_bind].
  - destruct Hr as (ts & sms & l' & Hh' & Hing & Hsms & Es & Esl); [destruct Hh as (? & _ & _ & ? & ?); cbn; lia|].
    destruct (slice_data_total request req (ig_first g) (ig_store g) l' 0 s Hh') as [Hl Ha].
    destruct (slice_data _ _ request req (ig_first g) (ig_store g)) as [data store'] eqn:Ed. cbn in Hl, Ha.
    assert (Hi : forall o, answers request s (answer_with request (inspect (ig_summaries g) o (InspectRequest_envelope req) s)) s).
    { intros o. apply query_answers. intros e. unfold inspect. destruct (require_stopped "rocket/inspect" s) eqn:E; [done|].
      intros [= <-]. by eapply require_stopped_hinted. }
    destruct data as [o|rsp].
    + split_and!; [apply Hi|done|]. intros Hst Hd _. rewrite Esl. cbn [ig_slots]. split; [done|].
      exists ts, sms. split; [done|]. split; [done|]. unfold inspect, require_stopped. rewrite Hst, Es. cbn [ig_summaries app].
      unfold slice_data in Ed. by destruct (InspectRequest_detail req); [injection Ed as <- _| |injection Ed as <- _].
    + split_and!; [done|done|]. intros _ Hd _. unfold slice_data in Ed. by destruct (InspectRequest_detail req).
  - destruct Hr as ((m & ->) & (l' & Hl) & Hn); [destruct Hh as (? & _ & _ & ? & ?); cbn; lia|].
    split_and!; [apply answers_internal| |done]. exists l'. eapply holds_weaken; [|exact Hl]. lia.
  - apply Hr. destruct Hh as (? & _ & _ & ? & ?). cbn. lia.
Qed.

(** C7: [rocket/inspect] over a store that holds the tensors [l].  The handler
    panics only when a tensor in the ring claims a length beyond [isize::MAX],
    or when a tensor it has to report, which was stored before or is made of the
    delivered bytes, has a zero dimension and its summary panics ([blocked]).
    Otherwise it answers the request (errors carry their hints, [answers]) and
    leaves a well-formed store, whatever the worker delivered.  When moreover the
    session is stopped, the target is known, the detail is not a slice, and the
    worker captured at least one tensor and each can be read (from the ring or
    inline), the answer lists one summary per captured tensor, in order: each is
    the summary of a tensor that was stored before or is made of exactly the
    delivered bytes, and the consumer gives back exactly as many ring slots as
    tensors came through the ring. *)
Theorem inspect_correct (request : Request) (host : option HostInspectResponse) (store : TensorStore)
    (consumer : option Consumer) (s : Session) (l : list tensor)
    (Hstore : holds store l (2 * List.length (captured_of host) + 1)) :
  match inspect_handler request host store consumer s with
  | Some (rsp, store', consumer') =>
      answers request s rsp s /\ (exists l', holds store' l' 0) /\
      (forall req, parse_params request = Ok req -> status s = Status_Stopped ->
       target_known (InspectRequest_target req) = true -> captured_of host <> [] ->
       InspectRequest_detail req <> InspectDetail_Slice -> Forall (deliverable consumer) (captured_of host) ->
       consumer' = advance_consumer (shm_count (captured_of host)) consumer /\
       exists ts sms, ingested consumer (captured_of host) l ts /\ summarised ts sms /\
         rsp = Response_success (req_id request)
                 (envelope_with_mode s (InspectRequest_envelope req) (mkInspectResponse sms None None)))
  | None => blocked consumer (captured_of host) l
  end.
Proof.
  assert (H0 : exists l', holds store l' 0) by (exists l; eapply holds_weaken; [|exact Hstore]; lia).
  unfold handle_inspect, with_params. destruct (parse_params request) as [req|e] eqn:Ep;
    [|split_and!; [apply answers_params|done|done]].
  unfold when_stopped_or. destruct (require_stopped_cases "rocket/inspect" s) as [[Hs ->]|[Hs [e E]]].
  2:{ rewrite E. split_and!; [apply answers_error; by eapply require_stopped_hinted|done|by intros]. }
  destruct (target_known (InspectRequest_target req)) eqn:Et; cbn [negb].
  2:{ destruct (invalid_target_total (InspectRequest_target req)) as (d & -> & Hd). cbn [mbind option_bind].
      split_and!; [by apply answers_error|done|]. intros req' [= <-]. congruence. }
  destruct host as [[[|ct captured]]|]; cbn [HostInspectResponse_tensors captured_of] in *.
  1,3: split_and!; [apply answers_error, hinted_hint|done|done].
  pose proof (respond_spec request req (ct :: captured) store consumer s l Hstore) as Hr.
  destruct (ingest_and_respond _ _ _ _ _ request req _ store consumer s) as [[[rsp st] c]|]; [|exact Hr].
  destruct Hr as (Ha & Hl & Hok). split_and!; [done|done|]. intros req' [= <-] _ _ _ Hd Hf. by apply Hok.
Qed.

End Inspect.

(** ** A concrete inspection *)

Module Demo.

(** A wire format that knows one inspect request. *)
Definition wire : @Wire json_ref.
Proof.
  unshelve econstructor.
  4: exact (fun _ => Ok (mkInspectRequest "llama:0:3:attn.o_proj:output" InspectDetail_Summary None None None EnvelopeMode_None)).
  1-14: exact (fun _ => Err "unknown"%string).
  all: exact (fun _ => JNull).
Defined.

Definition tensor_in : CapturedTensor :=
  mkCapturedTensor "model.layers.3.self_attn.o_proj" "o_proj" 3 [1] "uint8" "cpu" "t1" None None None (Some "AQ=="%string).

Definition state_in : SessionState :=
  set_status Status_Stopped (s_state (@Session.new json_ref)).

Definition session_in : @Session json_ref := @set_state json_ref state_in (@Session.new json_ref).

Definition request_in : @Request (@serde_value json_ref) :=
  @mkRequest (@serde_value json_ref) "2.0" (RequestId_Number 7) "rocket/inspect" None.

Definition decode_in (s : string) : result string (list byte) := Ok [Byte.x01].

(** The same tensor, said to have no elements. *)
Definition empty_in : CapturedTensor :=
  mkCapturedTensor "model.layers.3.self_attn.o_proj" "o_proj" 3 [0] "uint8" "cpu" "t1" None None None (Some "AQ=="%string).

End Demo.

Abbreviation inspect_in ct := (@handle_inspect json_ref Demo.wire (fun _ => "h"%string) numerics_ref Demo.decode_in (fun _ => ""%string)
  (fun _ => ""%string) (fun _ => ""%string) Demo.request_in (Some (mkHostInspectResponse [ct])) (with_limits 4 100) None Demo.session_in).

Lemma inspect_correct_witness :
  (exists store', inspect_in Demo.tensor_in = Some (@Response_success (@serde_value json_ref) (RequestId_Number 7) JNull, store', None)) /\
  inspect_in Demo.empty_in = None /\ @blocked (fun _ => "h"%string) numerics_ref Demo.decode_in (fun _ => ""%string) None [Demo.empty_in] [].
Proof.
  assert (Hs : @holds numerics_ref 4 100 (with_limits 4 100) [] 3).
  { exists []. split; [apply store_represents_new|]. split; [reflexivity|]. cbn. unfold U64_MAX. lia. }
  split.
  - pose proof (@inspect_correct json_ref Demo.wire (fun _ => "h"%string) numerics_ref Demo.decode_in (fun _ => ""%string)
      (fun _ => ""%string) (fun _ => ""%string) 4 100 Demo.request_in (Some (mkHostInspectResponse [Demo.tensor_in]))
      (with_limits 4 100) None Demo.session_in [] Hs) as H.
    assert (E : is_Some (inspect_in Demo.tensor_in)) by (vm_compute; eauto).
    destruct (inspect_in Demo.tensor_in) as [[[rsp st] c]|]; [|by destruct E]. destruct H as (_ & _ & H).
    destruct (H _ eq_refl) as (-> & ts & sms & _ & _ & ->); [reflexivity|vm_compute; reflexivity|discriminate|discriminate| |].
    { constructor; [|constructor]. split; [by eexists|]. exists "h"%string, [Byte.x01]. by eexists. }
    by exists st.
  - pose proof (@inspect_correct json_ref Demo.wire (fun _ => "h"%string) numerics_ref Demo.decode_in (fun _ => ""%string)
      (fun _ => ""%string) (fun _ => ""%string) 4 100 Demo.request_in (Some (mkHostInspectResponse [Demo.empty_in]))
      (with_limits 4 100) None Demo.session_in [] Hs) as H.
    assert (E : inspect_in Demo.empty_in = None) by (vm_compute; reflexivity). rewrite E in H. by split.
Defined.
