(* ===== verification/Host.v ===== *)
(** * Host: the worker's checkpoint and replay handlers

    [crates/rocket-surgeon-worker/src/dispatch.rs]: [handle_host_checkpoint],
    [handle_host_replay] and what they call, over the arena of [Arena], the
    spill files of [Spill] and the forward pass of [Worker].  The functions of
    [rocket_surgeon.checkpoint] the worker calls are the class [HostBridge]:
    they see the dictionary [last_outputs], may change any of its entries (two
    entries may be the same tensor object), and read or write the bytes behind
    a slot's header.  A panic, and a copy that leaves the arena's mapping, is
    [None]. *)

From Stdlib Require Import ZArith Lia Ascii String SpecFloat.
From coqutil Require Import Byte.
From stdpp Require Import base gmap strings list fin_maps sets.
From S2P Require Import Prelude Winnow Grammar Protocol Messages Adapter Tick Kv Arena Spill Json Dispatch Worker.
Open Scope Z_scope.

Section Dict.
Context {B : PyBridge}.
(** The Python dictionary [last_outputs]. *)
Definition Dict : Type := gmap (string * Z) Tensor.
End Dict.

Class HostBridge `{B : PyBridge} := {
  (** [Display] of the error *)
  py_text : PyErr -> string;
  activation_available : Dict -> string -> Z -> result PyErr bool;
  (** dtype and shape, and the bytes written at the pointer it is given *)
  capture_activation : Dict -> string -> Z -> nat -> result PyErr (string * list Z) * list byte;
  (** path, call index, the bytes it may read, dtype, shape *)
  restore_activation : string -> Z -> list byte -> string -> list Z -> Dict -> result PyErr unit * Dict;
  (** the generators of all devices *)
  Rng : Type;
  capture_rng_state : Rng -> result PyErr (list byte);
  restore_rng_state : list byte -> Rng -> result PyErr unit * Rng;
  (** [torch.use_deterministic_algorithms] *)
  use_deterministic_algorithms : bool -> result PyErr unit
}.

(** The derived instances of the worker's messages. *)
Class WorkerWire `{J : SerdeJson} := {
  wde_attach :: Deserialize HostAttachRequest;
  wde_detach :: Deserialize HostDetachRequest;
  wde_configure :: Deserialize HostConfigureHooksRequest;
  wde_step :: Deserialize HostStepRequest;
  wde_probes :: Deserialize HostUpdateProbesRequest;
  wde_inspect :: Deserialize HostInspectRequest;
  wde_view :: Deserialize HostViewRequest;
  wde_kv_read :: Deserialize HostKvReadRequest;
  wde_kv_intervene :: Deserialize HostKvInterveneRequest;
  wde_export :: Deserialize HostExportEnvRequest;
  wde_checkpoint :: Deserialize HostCheckpointRequest;
  wde_replay :: Deserialize HostReplayRequest;
  wse_attach :: Serialize HostAttachResponse;
  wse_detach :: Serialize HostDetachResponse;
  wse_configure :: Serialize HostConfigureHooksResponse;
  wse_step :: Serialize HostStepResponse;
  wse_probes :: Serialize HostUpdateProbesResponse;
  wse_inspect :: Serialize HostInspectResponse;
  wse_view :: Serialize HostViewResponse;
  wse_kv_read :: Serialize HostKvReadResponse;
  wse_kv_intervene :: Serialize HostKvInterveneResponse;
  wse_export :: Serialize HostExportEnvResponse;
  wse_checkpoint :: Serialize HostCheckpointResponse;
  wse_replay :: Serialize HostReplayResponse
}.

(** ** Layers and ids *)

(** [iter().find_map(..)] *)
Fixpoint find_map {A C} (f : A -> option C) (l : list A) : option C :=
  match l with
  | [] => None
  | x :: r => match f x with Some y => Some y | None => find_map f r end
  end.

(** The segment behind the first ["layers"], if there is one. *)
Fixpoint after_layers (parts : list (list ascii)) : option (list ascii) :=
  match parts with
  | [] => None
  | p :: r => if decide (p = chars "layers") then head r else after_layers r
  end.

Definition layer_index_from_path (path : string) : option Z :=
  let parts := split_on "."%char (chars path) in
  match after_layers parts ≫= parse_uint U32_MAX with
  | Some n => Some n
  | None => find_map (parse_uint U32_MAX) parts
  end.

(** [entry(layer).and_modify(..).or_insert_with(..)] *)
Definition note_container (m : gmap Z string) (path : string) : gmap Z string :=
  match layer_index_from_path path with
  | None => m
  | Some layer =>
      match m !! layer with
      | Some existing => if Nat.ltb (String.length path) (String.length existing) then <[layer := path]> m else m
      | None => <[layer := path]> m
      end
  end.

Definition build_layer_container_map (container_paths : list string) : gmap Z string :=
  foldl note_container ∅ container_paths.

Definition is_safe_checkpoint_id (id : string) : bool :=
  negb (bool_decide (id = ""%string)) && negb (bool_decide ("/"%char ∈ chars id)) &&
  negb (bool_decide (ascii_of_nat 92 ∈ chars id)) && negb (contains_chars (chars "..") (chars id)) &&
  negb (bool_decide (ascii_of_nat 0 ∈ chars id)).

(** ** Slot headers of captured tensors *)

Definition elem_size (t : DtypeTag) : Z :=
  match t with Float16 | Bfloat16 => 2 | Float32 => 4 | Float64 => 8 end.

(** [shape.iter().copied().product::<i64>() as u64 * elem_size] *)
Definition captured_len (shape : list Z) (t : DtypeTag) : Z :=
  u64_mul (u64_wrap (foldl Z.mul 1 shape)) (elem_size t).

(** [let mut shape_arr = [0u64; 6]] filled from the front *)
Definition shape_array (shape : list Z) : list Z :=
  let dims := u64_wrap <$> take 6 shape in dims ++ repeat 0 (6 - List.length dims).

Definition captured_header (dtype : string) (shape : list Z) : SlotHeader :=
  let t := default Float32 (from_torch_str dtype) in
  mkSlotHeader SLOT_MAGIC t (Z.min (Z.of_nat (List.length shape)) 6) (shape_array shape) (captured_len shape t).

(** [Debug] of a [Vec<i64>] *)
Fixpoint debug_dims (l : list Z) : string :=
  match l with
  | [] => ""
  | [x] => i64_to_string x
  | x :: r => i64_to_string x +:+ ", " +:+ debug_dims r
  end%string.
Definition debug_shape (l : list Z) : string := ("[" +:+ debug_dims l +:+ "]")%string.

Definition rng_header (rng : list byte) : SlotHeader :=
  mkSlotHeader SLOT_MAGIC Float32 1 [Z.of_nat (List.length rng); 0; 0; 0; 0; 0] (Z.of_nat (List.length rng)).

(** [header.shape.iter().take(header.ndim).map(|&s| s as i64)] *)
Definition i64_of_u64 (x : Z) : Z := if x <? 2 ^ 63 then x else x - 2 ^ 64.
Definition header_shape (h : SlotHeader) : list Z := i64_of_u64 <$> take (Z.to_nat (sh_ndim h)) (sh_shape h).

(** ** The state of the worker *)

Section Host.
Context `{J : SerdeJson} {WW : WorkerWire} {W : Winnow} {B : PyBridge} {HB : HostBridge}.

(** The fields of [WorkerState] that the step loop does not use are kept beside
    [Worker.WorkerState]; the device generators and the spill directory belong
    to the process. *)
Record Host := mkHost {
  h_core : WorkerState;
  h_module_paths : list string;
  h_container_paths : list string;
  h_hidden_dim : Z;
  h_kv_cache : KvCacheState;
  h_rng : Rng;
  h_files : gmap string (list byte)
}.

Definition set_core (x : WorkerState) (h : Host) : Host :=
  mkHost x (h_module_paths h) (h_container_paths h) (h_hidden_dim h) (h_kv_cache h) (h_rng h) (h_files h).
Definition set_kv (x : KvCacheState) (h : Host) : Host :=
  mkHost (h_core h) (h_module_paths h) (h_container_paths h) (h_hidden_dim h) x (h_rng h) (h_files h).
Definition set_rng (x : Rng) (h : Host) : Host :=
  mkHost (h_core h) (h_module_paths h) (h_container_paths h) (h_hidden_dim h) (h_kv_cache h) x (h_files h).
Definition set_files (x : gmap string (list byte)) (h : Host) : Host :=
  mkHost (h_core h) (h_module_paths h) (h_container_paths h) (h_hidden_dim h) (h_kv_cache h) (h_rng h) x.
Definition set_w_arena (a : option Arena) (s : WorkerState) : WorkerState :=
  mkWorkerState (w_component_map s) (w_component_index s) (w_model_handle s) (w_rank s) (w_num_layers s) (w_num_heads s)
    (w_tick_state s) (w_forward_pass s) (w_last_outputs s) (w_active_probes s) a.
Definition set_arena (a : Arena) (h : Host) : Host := set_core (set_w_arena (Some a) (h_core h)) h.
Definition set_outputs (d : Dict) (h : Host) : Host := set_core (set_w_last_outputs (Some d) (h_core h)) h.

(** What a call reads from its surroundings: the iteration order of the arena's
    index, whether file operations succeed, and the texts of errors. *)
Record Surroundings := mkSurroundings {
  iter : gmap (string * Z) nat -> list ((string * Z) * nat);
  io_ok : bool;
  crc32 : list byte -> Z;
  arena_text : ArenaError -> string;
  (** [Debug] of a string *)
  debug_text : string -> string
}.

Definition invalid_params (request : Request) (message : string) : Response :=
  Response_error (req_id request) (mkRpcError INVALID_PARAMS message None).

(** [parse_params] with the early return of its error *)
Definition with_host_params {T A} `{!Deserialize T} (request : Request) (fail : Response -> A) (k : T -> A) : A :=
  match from_value (default (json_object []) (req_params request)) with
  | Ok r => k r
  | Err e => fail (invalid_params request ("Invalid params: " +:+ e)%string)
  end.

Definition handle_mismatch (request : Request) (handle given : Z) : Response :=
  internal_error (req_id request) ("model handle mismatch: expected " +:+ to_string handle +:+ ", got " +:+ to_string given)%string.

(** ** [_host/checkpoint] *)

Section Checkpoint.
Context (env : Surroundings).

(** A range behind a slot's header that stays inside the mapping. *)
Definition in_arena (a : Arena) (slot_ptr len : nat) : bool :=
  Nat.leb (slot_ptr + SLOT_HEADER_SIZE + len) (List.length (region a)).

(** One layer of the capture loop: the bytes counted, or the error. *)
Definition capture_layer (outputs : Dict) (id : string) (layer : Z) (path : string) (a : Arena) : result string (option Z) * Arena :=
  match activation_available outputs path 0 with
  | Err e => (Err (py_text e), a)
  | Ok false => (Ok None, a)
  | Ok true =>
      match alloc_slot a id layer with
      | (Err e, a) => (Err (arena_text env e), a)
      | (Ok (slot_ptr, _), a) =>
          let '(r, written) := capture_activation outputs path 0 (slot_size a - SLOT_HEADER_SIZE) in
          let a := write_data a slot_ptr written in
          match r with
          | Err e => (Err (py_text e), a)
          | Ok (dtype, shape) =>
              if forallb (fun d => 0 <=? d) shape
              then let h := captured_header dtype shape in (Ok (Some (sh_byte_len h)), update_header a slot_ptr h)
              else (Err ("negative dimension in shape " +:+ debug_shape shape +:+ " for layer " +:+ to_string layer)%string, a)
          end
      end
  end.

Fixpoint capture_layers (outputs : Dict) (containers : gmap Z string) (id : string) (layers : list Z) (total : Z) (a : Arena)
  : result string Z * Arena :=
  match layers with
  | [] => (Ok total, a)
  | layer :: rest =>
      match containers !! layer with
      | None => capture_layers outputs containers id rest total a
      | Some path =>
          match capture_layer outputs id layer path a with
          | (Err e, a) => (Err e, a)
          | (Ok None, a) => capture_layers outputs containers id rest total a
          | (Ok (Some n), a) => capture_layers outputs containers id rest (u64_add total n) a
          end
      end
  end.

(** The slot of the generators' state, at layer [u32::MAX]. *)
Definition save_rng (id : string) (rng : result PyErr (list byte)) (a : Arena) : option Arena :=
  match rng with
  | Err _ => Some a
  | Ok bytes =>
      match alloc_slot a id U32_MAX with
      | (Err _, a) => Some a
      | (Ok (rng_ptr, _), a) =>
          if in_arena a rng_ptr (List.length bytes)
          then Some (write_data (update_header a rng_ptr (rng_header bytes)) rng_ptr bytes) else None
      end
  end.

Definition f_0_8 : f64 := S754_finite false 7205759403792794 (-53).

Definition crowded (a : Arena) : bool :=
  SFltb f_0_8 (SFsub 53 1024 (f64_of_Z 1) (f64_div (f64_of_Z (Z.of_nat (available a))) (f64_of_Z (u32_wrap (Z.of_nat (num_slots a)))))).

(** Make room: the oldest automatic checkpoint goes to a file. *)
Definition spill_oldest (id : string) (a : Arena) (files : gmap string (list byte)) : Arena * gmap string (list byte) :=
  if crowded a then
    match oldest_checkpoint a with
    | Some oldest =>
        if starts_with (chars "auto-") (chars oldest) && negb (bool_decide (oldest = id)) then
          match spill_checkpoint (crc32 env) (io_ok env) a (iter env (index a)) oldest with
          | (Ok file, a) => (a, <[oldest := file]> files)
          | (Err _, a) => (a, files)
          end
        else (a, files)
    | None => (a, files)
    end
  else (a, files).

Definition response_tier (tier : CreateCheckpointTier) : CheckpointTier :=
  match tier with
  | CreateCheckpointTier_Activation => CheckpointTier_Activation
  | CreateCheckpointTier_FullSnapshot => CheckpointTier_FullSnapshot
  end.

Definition checkpoint_create (request : Request) (id : string) (tier : CreateCheckpointTier) (a : Arena) (h : Host)
  : option (Response * Host) :=
  match w_last_outputs (h_core h) with
  | None => Some (internal_error (req_id request) "No captured activations — execute at least one step first", h)
  | Some outputs =>
      let containers := build_layer_container_map (h_container_paths h) in
      let snap := snapshot a in
      match capture_layers outputs containers id (checkpoint_layers (w_num_layers (h_core h))) 0 a with
      | (Err e, a) =>
          Some (internal_error (req_id request) ("checkpoint create failed: " +:+ e)%string, set_arena (rollback a snap id) h)
      | (Ok total, a) =>
          a ← save_rng id (capture_rng_state (h_rng h)) a;
          let '(a, files) := spill_oldest id a (h_files h) in
          Some (Response_success (req_id request)
                  (to_value (mkHostCheckpointResponse id (response_tier tier) None (Some total))),
                set_files files (set_arena a h))
      end
  end.

(** *** Restoring *)

(** The generators' bytes of a checkpoint; [Some None] when there is no such slot. *)
Definition rng_bytes (a : Arena) (id : string) : option (option (list byte)) :=
  slot ← get_slot a id U32_MAX;
  match slot with
  | None => Some None
  | Some (ptr, hdr) =>
      let len := Z.to_nat (sh_byte_len hdr) in
      if in_arena a ptr len then Some (Some (slice (ptr + SLOT_HEADER_SIZE) len (region a))) else None
  end.

(** The loop over the slots of the checkpoint. *)
Fixpoint restore_slots (a : Arena) (id : string) (containers : gmap Z string) (infos : list (Z * nat * SlotHeader)) (outputs : Dict)
  : option (result string unit * Dict) :=
  match infos with
  | [] => Some (Ok tt, outputs)
  | (layer, _, header) :: rest =>
      if layer =? U32_MAX then restore_slots a id containers rest outputs
      else match containers !! layer with
      | None => Some (Err ("no container path for layer " +:+ to_string layer)%string, outputs)
      | Some path =>
          slot ← get_slot a id layer;
          match slot with
          | None => restore_slots a id containers rest outputs
          | Some (ptr, _) =>
              let len := Z.to_nat (sh_byte_len header) in
              if in_arena a ptr len then
                match restore_activation path 0 (slice (ptr + SLOT_HEADER_SIZE) len (region a))
                        (to_torch_str (sh_dtype header)) (header_shape header) outputs with
                | (Ok _, outputs) => restore_slots a id containers rest outputs
                | (Err e, outputs) => Some (Err (py_text e), outputs)
                end
              else None
          end
      end
  end.

Definition checkpoint_restore (request : Request) (id : string) (a : Arena) (h : Host) : option (Response * Host) :=
  let infos := slot_info_for_checkpoint a (iter env (index a)) id in
  match infos with
  | [] => Some (internal_error (req_id request) ("checkpoint " +:+ id +:+ " not found in arena")%string, h)
  | _ =>
      match w_last_outputs (h_core h) with
      | None => Some (internal_error (req_id request) "No captured activations", h)
      | Some outputs =>
          let containers := build_layer_container_map (h_container_paths h) in
          rng ← rng_bytes a id;
          let h := match rng with Some bytes => set_rng (restore_rng_state bytes (h_rng h)).2 h | None => h end in
          '(r, outputs) ← restore_slots a id containers infos outputs;
          Some (match r with
                | Err e => internal_error (req_id request) ("checkpoint restore failed: " +:+ e)%string
                | Ok _ => Response_success (req_id request)
                            (to_value (mkHostCheckpointResponse id CheckpointTier_Activation None None))
                end, set_outputs outputs h)
      end
  end.

Definition handle_host_checkpoint (request : Request) (h : Host) : option (Response * Host) :=
  with_host_params request (fun r => Some (r, h)) (fun req =>
    let '(model_handle, id) :=
      match req with
      | HostCheckpointRequest_Create mh id _ _ _ => (mh, id)
      | HostCheckpointRequest_Restore mh id => (mh, id)
      end in
    if negb (is_safe_checkpoint_id id)
    then Some (invalid_params request ("invalid checkpoint_id: " +:+ debug_text env id)%string, h)
    else match w_model_handle (h_core h), w_checkpoint_arena (h_core h) with
    | None, _ => Some (internal_error (req_id request) "No model loaded", h)
    | _, None => Some (internal_error (req_id request) "No checkpoint arena", h)
    | Some handle, Some a =>
        if negb (model_handle =? handle) then Some (handle_mismatch request handle model_handle, h)
        else match req with
        | HostCheckpointRequest_Create _ _ tier _ _ => checkpoint_create request id tier a h
        | HostCheckpointRequest_Restore _ _ => checkpoint_restore request id a h
        end
    end).

End Checkpoint.
End Host.
