(* ===== verification/HostSpec.v ===== *)
(** * HostSpec: what the worker's checkpoints guarantee

    Creating a checkpoint is a sequence of saves into the arena; a failing one
    is undone; restoring hands the model exactly what was captured. *)

From Stdlib Require Import ZArith Lia Ascii String Sorted.
From coqutil Require Import Byte.
From stdpp Require Import base gmap strings list fin_maps sets.
From S2P Require Import Prelude Frame Winnow Grammar Protocol Messages Adapter Tick Kv Arena Spill Json Dispatch Worker Host.
Open Scope Z_scope.

(** ** Slots as saves *)

Section Splice.
Context {A : Type}.
Implicit Types (x y l : list A).

(** The element of a splice, by place. *)
Lemma lookup_splice o x l i :
  (o + length x <= length l)%nat ->
  splice o x l !! i = if decide (o <= i < o + length x)%nat then x !! (i - o)%nat else l !! i.
Proof. intros Hb. case_decide; [by apply lookup_splice_in|]. apply lookup_splice_out; lia. Qed.

Lemma splice_comm o1 o2 x y l :
  (o1 + length x <= o2)%nat -> (o2 + length y <= length l)%nat -> splice o2 y (splice o1 x l) = splice o1 x (splice o2 y l).
Proof.
  intros H1 H2. apply list_eq. intros i. rewrite !lookup_splice by (rewrite ?length_splice; lia).
  repeat case_decide; try done; lia.
Qed.

Lemma splice_twice o x y l :
  length x = length y -> (o + length x <= length l)%nat -> splice o x (splice o y l) = splice o x l.
Proof.
  intros E H. apply list_eq. intros i. rewrite !lookup_splice by (rewrite ?length_splice; lia).
  repeat case_decide; try done; lia.
Qed.

(** Writing back what is there, around a smaller write. *)
Lemma splice_slice o n x l :
  (length x <= n)%nat -> (o + n <= length l)%nat -> splice o (slice o n (splice o x l)) l = splice o x l.
Proof.
  intros Hx Hb. apply list_eq. intros i.
  assert (El : length (slice o n (splice o x l)) = n) by (rewrite length_slice; [done|]; rewrite length_splice; lia).
  rewrite (lookup_splice o (slice o n _)) by lia. rewrite El. case_decide as Hd; [|rewrite lookup_splice_out; [done|lia..]].
  unfold slice. rewrite lookup_take_lt, lookup_drop by lia. f_equal. lia.
Qed.
End Splice.

(** ** Captures as saves *)

(** A save of checkpoint [id]. *)
Definition saved (id : string) (t : Z * SlotHeader * list byte) : op := OSave id t.1.1 t.1.2 t.2.

Section Slots.
Context (a : Arena) (id : string) (l : Z) (Hok : arena_ok a).

Lemma alloc_fails : pop (free_list a) = None -> alloc_slot a id l = (Err Exhausted, a).
Proof. intros E. unfold alloc_slot. by rewrite E. Qed.

(** Data first and header second is a save. *)
Lemma alloc_capture_save off hd a1 h w :
  alloc_slot a id l = (Ok (off, hd), a1) -> List.length (sh_shape h) = 6%nat -> (SLOT_HEADER_SIZE + List.length w <= slot_size a)%nat ->
  arena_op a (OSave id l h w) = (true, update_header (write_data a1 off w) off h).
Proof.
  intros E Hh Hw. cbn [arena_op]. unfold save. rewrite E. cbn [is_ok]. f_equal. revert E. unfold alloc_slot.
  destruct (pop (free_list a)) as [[i rest]|] eqn:Hp; [|done]. intros [= <- <- <-].
  pose proof (proj1 (pop_spec _ _ _) Hp) as Hf. pose proof (slot_bound a Hok i ltac:(rewrite Hf; set_solver)) as Hb.
  pose proof (ok_size a Hok). unfold write_data, update_header, set_region. aproj. f_equal.
  assert (Hr : List.length (splice (i * slot_size a) (header_bytes (fresh_header a)) (region a)) = List.length (region a))
    by (apply length_splice; rewrite length_header_bytes by done; lia).
  apply splice_comm; rewrite ?Hr, ?length_header_bytes by done; lia.
Qed.

(** Data without a header is a save of the whole slot. *)
Lemma alloc_partial_save off hd a1 w :
  alloc_slot a id l = (Ok (off, hd), a1) -> (SLOT_HEADER_SIZE + List.length w <= slot_size a)%nat ->
  exists data, List.length data = (slot_size a - SLOT_HEADER_SIZE)%nat /\
    arena_op a (OSave id l (fresh_header a) data) = (true, write_data a1 off w).
Proof.
  intros E Hw. pose proof (ok_size a Hok) as Hs. cbn [arena_op]. unfold save. rewrite E. cbn [is_ok]. revert E. unfold alloc_slot.
  destruct (pop (free_list a)) as [[i rest]|] eqn:Hp; [|done]. intros [= <- <- <-].
  pose proof (proj1 (pop_spec _ _ _) Hp) as Hf. pose proof (slot_bound a Hok i ltac:(rewrite Hf; set_solver)) as Hb.
  unfold write_data, update_header, set_region. aproj.
  set (o := (i * slot_size a)%nat) in *. set (r := splice o _ (region a)).
  assert (Hr : List.length r = List.length (region a)) by (apply length_splice; rewrite length_header_bytes by done; unfold SLOT_HEADER_SIZE in *; lia).
  exists (slice (o + SLOT_HEADER_SIZE) (slot_size a - SLOT_HEADER_SIZE) (splice (o + SLOT_HEADER_SIZE) w r)). split.
  - rewrite length_slice; [done|]. rewrite length_splice; lia.
  - do 2 f_equal. replace (splice o (header_bytes (fresh_header a)) r) with r.
    + apply splice_slice; lia.
    + symmetry. apply splice_twice; [done|]. rewrite length_header_bytes by done. unfold SLOT_HEADER_SIZE in *. lia.
Qed.
End Slots.

Lemma elem_size_pos t : 2 <= elem_size t <= 8.
Proof. by destruct t. Qed.

Lemma from_torch_inv s t : from_torch_str s = Some t -> to_torch_str t = s.
Proof. unfold from_torch_str. repeat case_decide; by intros [= <-]. Qed.

Section Capture.
Context `{J : SerdeJson} {WW : WorkerWire} {W : Winnow} {B : PyBridge} {HB : HostBridge}.
Context (env : Surroundings).

(** A tensor as Python hands it over: dtype, shape and bytes. *)
Definition Raw : Type := string * list Z * list byte.

(** Its dtype is one the arena knows, it has at most six dimensions, and its
    bytes are its elements. *)
Definition good_capture (room : nat) (c : Raw) : Prop :=
  exists t, from_torch_str c.1.1 = Some t /\ (List.length c.1.2 <= 6)%nat /\ Forall (fun d => 0 <= d < 2 ^ 63) c.1.2 /\
    Z.of_nat (List.length c.2) = foldl Z.mul 1 c.1.2 * elem_size t /\ (List.length c.2 <= room)%nat.

(** What [rocket_surgeon.checkpoint] documents of a capture into [room] bytes:
    it never writes more, and what it reports describes what it wrote. *)
Record capture_laws (outputs : Dict) (room : nat) : Prop := {
  cl_fits : forall path, (List.length (capture_activation outputs path 0 room).2 <= room)%nat;
  cl_good : forall path c w, capture_activation outputs path 0 room = (Ok c, w) -> good_capture room (c, w)
}.

(** The activation of a module, when it was captured. *)
Definition activation (outputs : Dict) (room : nat) (path : string) : option Raw :=
  match activation_available outputs path 0, capture_activation outputs path 0 room with
  | Ok true, (Ok c, w) => Some (c, w)
  | _, _ => None
  end.

Definition capturable (outputs : Dict) (room : nat) (path : string) : Prop :=
  activation_available outputs path 0 = Ok false \/
  (activation_available outputs path 0 = Ok true /\ exists c w, capture_activation outputs path 0 room = (Ok c, w)).

(** The layers of a checkpoint that have an activation: layer, module, tensor. *)
Definition captures (outputs : Dict) (room : nat) (containers : gmap Z string) (layers : list Z) : list (Z * string * Raw) :=
  omap (fun l => path ← containers !! l; c ← activation outputs room path; Some (l, path, c)) layers.

Definition tensor_of (c : Z * string * Raw) : Z * SlotHeader * list byte :=
  (c.1.1, captured_header c.2.1.1 c.2.1.2, c.2.2).

Definition sizes (cs : list (Z * string * Raw)) : list Z := (fun c => Z.of_nat (List.length c.2.2)) <$> cs.

Lemma product_nonneg shape : forall z, 0 <= z -> Forall (fun d => 0 <= d < 2 ^ 63) shape -> 0 <= foldl Z.mul z shape.
Proof.
  induction shape as [|d r IH]; intros z Hz; cbn; [done|]. intros [Hd Hr]%Forall_cons. apply IH; [nia|done].
Qed.

Lemma captured_header_ok room ss (c : Raw) :
  good_capture room c -> (SLOT_HEADER_SIZE + room <= ss)%nat -> Z.of_nat ss < 2 ^ 63 ->
  tensor_ok ss (captured_header c.1.1 c.1.2) c.2 /\
  to_torch_str (sh_dtype (captured_header c.1.1 c.1.2)) = c.1.1 /\ header_shape (captured_header c.1.1 c.1.2) = c.1.2.
Proof.
  destruct c as [[dtype shape] w]. intros (t & Et & H6 & Hd & Hw & Hr) Hs Hss. cbn [fst snd] in *.
  pose proof (elem_size_pos t) as He. pose proof (product_nonneg shape 1 ltac:(lia) Hd) as Hp.
  unfold captured_header. rewrite Et. cbn [from_option id].
  assert (El : captured_len shape t = Z.of_nat (List.length w)).
  { unfold captured_len, u64_mul, u64_wrap. rewrite (Z.mod_small (foldl _ _ _)) by nia. rewrite Z.mod_small by nia. lia. }
  assert (Esh : u64_wrap <$> take 6 shape = shape).
  { rewrite take_ge by done. clear -Hd. induction Hd as [|d r Hd _ IH]; [done|]. cbn. rewrite IH. unfold u64_wrap.
    by rewrite Z.mod_small by lia. }
  split; [split|].
  - unfold slot_header_ok, shape_ok. cbn [sh_magic sh_ndim sh_shape sh_byte_len]. unfold shape_array. rewrite Esh, El.
    split_and!; try done; try (unfold fits; lia); [rewrite length_app, repeat_length; lia|].
    apply Forall_app. split; [eapply Forall_impl; [exact Hd|]; cbn; unfold fits; lia|].
    apply Forall_forall. intros x Hx%list_elem_of_In%repeat_spec. subst x. unfold fits. lia.
  - cbn [sh_byte_len]. split; [done|]. lia.
  - cbn [sh_dtype]. split; [by apply from_torch_inv|]. unfold header_shape, shape_array. cbn [sh_ndim sh_shape]. rewrite Esh.
    rewrite Z.min_l, Nat2Z.id by lia. rewrite take_app_length. clear -Hd. induction Hd as [|d r Hd _ IH]; [done|].
    cbn. rewrite IH. unfold i64_of_u64. by rewrite (proj2 (Z.ltb_lt d _)) by lia.
Qed.

Lemma captured_byte_len room ss (c : Raw) :
  good_capture room c -> (SLOT_HEADER_SIZE + room <= ss)%nat -> Z.of_nat ss < 2 ^ 63 ->
  sh_byte_len (captured_header c.1.1 c.1.2) = Z.of_nat (List.length c.2).
Proof. intros H1 H2 H3. by destruct (captured_header_ok room ss c H1 H2 H3) as [(_ & ? & _) _]. Qed.
(** One layer: nothing, an error around a half-filled slot, or a save. *)
Lemma capture_layer_save outputs id l path a :
  arena_ok a -> capture_laws outputs (slot_size a - SLOT_HEADER_SIZE) -> Z.of_nat (slot_size a) < 2 ^ 63 ->
  match capture_layer env outputs id l path a with
  | (Ok None, a') => a' = a /\ activation outputs (slot_size a - SLOT_HEADER_SIZE) path = None
  | (Ok (Some n), a') => exists c, activation outputs (slot_size a - SLOT_HEADER_SIZE) path = Some c /\
      n = Z.of_nat (List.length c.2) /\ tensor_ok (slot_size a) (captured_header c.1.1 c.1.2) c.2 /\
      arena_op a (OSave id l (captured_header c.1.1 c.1.2) c.2) = (true, a')
  | (Err _, a') => (a' = a /\ (capturable outputs (slot_size a - SLOT_HEADER_SIZE) path -> available a = 0%nat)) \/
      (~ capturable outputs (slot_size a - SLOT_HEADER_SIZE) path /\
       exists h w, tensor_ok (slot_size a) h w /\ arena_op a (OSave id l h w) = (true, a'))
  end.
Proof.
  intros Hok [Hfit Hgood] Hss. pose proof (ok_size a Hok) as Hs. set (room := (slot_size a - SLOT_HEADER_SIZE)%nat) in *.
  unfold capture_layer, activation, capturable. destruct (activation_available outputs path 0) as [[]|e] eqn:Ea; [|done|].
  2:{ left. split; [done|]. by intros [|[]]. }
  destruct (alloc_slot a id l) as [[[off hd]|e] a1] eqn:E.
  2:{ left. revert E. unfold alloc_slot, available. destruct (pop (free_list a)) as [[]|] eqn:Hp; [done|]. intros [= <- <-].
      split; [done|]. intros _. unfold pop in Hp. destruct (rev (free_list a)) eqn:Er; [|done].
      by rewrite <- (rev_involutive (free_list a)), Er. }
  assert (Hsz : slot_size a1 = slot_size a) by (unfold alloc_slot in E; destruct (pop _) as [[]|]; by simplify_eq).
  rewrite Hsz. fold room. specialize (Hfit path). specialize (Hgood path).
  destruct (capture_activation outputs path 0 room) as [[[dtype shape]|e] w] eqn:Ec; cbn [fst snd] in *.
  - specialize (Hgood _ _ eq_refl).
    destruct (captured_header_ok room (slot_size a) (dtype, shape, w) Hgood ltac:(lia) Hss) as [Ht _]. cbn [fst snd] in Ht.
    assert (Hd : forallb (fun d => 0 <=? d) shape = true).
    { destruct Hgood as (t & _ & _ & Hd & _). cbn in Hd. apply forallb_forall. intros x Hx%list_elem_of_In.
      rewrite Forall_forall in Hd. specialize (Hd x Hx). lia. }
    rewrite Hd. exists (dtype, shape, w). split; [done|].
    split; [apply (captured_byte_len room (slot_size a) (dtype, shape, w)); [done|lia|done]|]. split; [done|]. cbn [fst snd].
    pose proof Ht as ((_ & _ & [Hsh _] & _) & _ & Hw). by eapply alloc_capture_save.
  - right. split; [intros [|(_ & c & w' & ?)]; done|].
    destruct (alloc_partial_save a id l Hok off hd a1 w E ltac:(lia)) as (data & El & Ed). exists (fresh_header a), data.
    split; [|done]. split; [|split; [cbn [fresh_header sh_byte_len]; lia|lia]].
    unfold slot_header_ok, shape_ok, fresh_header, fits. cbn [sh_magic sh_ndim sh_shape sh_byte_len List.length].
    split_and!; try lia; try done. repeat constructor; unfold fits; lia.
Qed.

Lemma run_ops_app {S} (f : S -> op -> bool * S) os1 os2 : forall s,
  run_ops f s (os1 ++ os2) =
  ((run_ops f s os1).1 ++ (run_ops f (run_ops f s os1).2 os2).1, (run_ops f (run_ops f s os1).2 os2).2).
Proof.
  induction os1 as [|o os1 IH]; intros s; cbn [run_ops app]; [apply surjective_pairing|].
  destruct (f s o) as [b s1]. rewrite IH. destruct (run_ops f s1 os1) as [bs s2]. cbn [fst snd]. done.
Qed.

Lemma save_ok_implements a st id l h w a' :
  implements a st -> tensor_ok (slot_size a) h w -> arena_op a (OSave id l h w) = (true, a') ->
  implements a' (spec_op st (OSave id l h w)).2 /\ slot_size a' = slot_size a /\ available a = S (available a').
Proof.
  intros I Ht E. destruct (save_implements a st id l h w I Ht) as [Eb I']. rewrite E in Eb, I'. cbn [fst snd] in *.
  split; [done|]. split; [by rewrite <- (op_slot_size a (OSave id l h w)), E|].
  rewrite (im_free _ _ I), (im_free _ _ I'). cbn [spec_op] in *. by destruct (st_free st).
Qed.

(** The loop is a sequence of saves; when it succeeds, of exactly the captured
    activations; and it succeeds when Python does and there is room. *)
Lemma capture_layers_run outputs containers id layers : forall a st total,
  implements a st -> capture_laws outputs (slot_size a - SLOT_HEADER_SIZE) -> Z.of_nat (slot_size a) < 2 ^ 63 ->
  let cs := captures outputs (slot_size a - SLOT_HEADER_SIZE) containers layers in
  exists ts r, Forall (fun t => tensor_ok (slot_size a) t.1.2 t.2) ts /\
    capture_layers env outputs containers id layers total a = (r, (run_ops arena_op a (saved id <$> ts)).2) /\
    (forall n, r = Ok n -> ts = tensor_of <$> cs /\ n = foldl u64_add total (sizes cs) /\
       Forall (fun b => b = true) (run_ops arena_op a (saved id <$> ts)).1) /\
    ((forall l path, l ∈ layers -> containers !! l = Some path -> capturable outputs (slot_size a - SLOT_HEADER_SIZE) path) ->
     (List.length cs <= available a)%nat -> is_ok r = true).
Proof.
  induction layers as [|l layers IH]; intros a st total I Hl Hss; cbn zeta.
  { exists [], (Ok total). split; [constructor|]. split; [done|]. split; [|done]. intros n [= <-]. repeat split; constructor. }
  cbn [capture_layers captures omap list_omap]. destruct (containers !! l) as [path|] eqn:Ec; cbn [mbind option_bind].
  2:{ destruct (IH a st total I Hl Hss) as (ts & r & H1 & H2 & H3 & H4). exists ts, r. split; [done|]. split; [done|].
      split; [done|]. intros Hc. apply H4. intros l' p Hin. apply Hc. set_solver. }
  pose proof (capture_layer_save outputs id l path a (im_ok _ _ I) Hl Hss) as H.
  destruct (capture_layer env outputs id l path a) as [[[n|]|e] a1] eqn:E.
  - destruct H as (c & Ea & -> & Ht & Es). rewrite Ea. cbn [mbind option_bind].
    destruct (save_ok_implements a st id l _ _ a1 I Ht Es) as (I1 & S1 & A1). rewrite <- S1 in Hl, Hss.
    destruct (IH a1 _ (u64_add total (Z.of_nat (List.length c.2))) I1 Hl Hss) as (ts & r & H1 & H2 & H3 & H4).
    rewrite S1 in *. exists ((l, captured_header c.1.1 c.1.2, c.2) :: ts), r. split; [by constructor|].
    cbn [fmap list_fmap]. unfold saved at 1 3. cbn [fst snd run_ops]. rewrite Es.
    destruct (run_ops arena_op a1 (saved id <$> ts)) as [bs a2] eqn:Er. cbn [fst snd] in *. split; [done|].
    split; [|intros Hc Hn; apply H4; [intros l' p Hin; apply Hc; set_solver|]; unfold captures; cbn [List.length] in Hn; lia].
    intros n Hr. destruct (H3 n Hr) as (-> & -> & Hb). split; [done|]. split; [done|]. by constructor.
  - destruct H as [-> Ea]. rewrite Ea. cbn [mbind option_bind].
    destruct (IH a st total I Hl Hss) as (ts & r & H1 & H2 & H3 & H4). exists ts, r. split; [done|]. split; [done|].
    split; [done|]. intros Hc. apply H4. intros l' p Hin. apply Hc. set_solver.
  - destruct H as [[-> Ha]|(Hn & h & w & Ht & Es)].
    + exists [], (Err e). split; [constructor|]. split; [done|]. split; [done|]. intros Hc Hlen. exfalso.
      specialize (Hc l path ltac:(set_solver) Ec). rewrite (Ha Hc) in Hlen.
      destruct Hc as [Hc|(Hc & c & w & Hw)]; cbn in Hlen.
      * unfold capture_layer in E. by rewrite Hc in E.
      * unfold activation in Hlen. rewrite Hc, Hw in Hlen. cbn in Hlen. lia.
    + exists [(l, h, w)], (Err e). split; [by constructor|]. cbn [fmap list_fmap run_ops]. unfold saved. cbn [fst snd]. rewrite Es.
      split; [done|]. split; [done|]. intros Hc _. destruct Hn. apply (Hc l path); [set_solver|done].
Qed.

End Capture.

(** ** Undoing a checkpoint *)

(** A checkpoint id the store does not know. *)
Record unused (st : Store) (id : string) : Prop := {
  un_count : st_count st !! id = None;
  un_tensors : forall l, st_tensors st !! (id, l) = None;
  un_order : id ∉ st_order st
}.

Lemma unused_arena a st id : implements a st -> checkpoint_slots a !! id = None -> unused st id.
Proof.
  intros I E. pose proof (im_ok a st I) as Hok. split.
  - by rewrite (im_count a st I), lookup_fmap, E.
  - intros l. destruct (st_tensors st !! (id, l)) eqn:Et; [|done].
    destruct (proj2 (im_keys a st I (id, l)) ltac:(eauto)) as [d Hd].
    destruct (ok_index a Hok _ _ _ Hd) as (i & ls & _ & Hc & _). congruence.
  - rewrite <- (im_order a st I). intros [ls Hl]%(ok_order a Hok). congruence.
Qed.

(** [st'] is [st] plus saves of [id]. *)
Record grown (id : string) (st st' : Store) : Prop := {
  gr_free : st_free st = (st_free st' + default 0%nat (st_count st' !! id))%nat;
  gr_count : delete id (st_count st') = st_count st;
  gr_tensors : filter (fun kv => kv.1.1 <> id) (st_tensors st') = st_tensors st;
  gr_order : List.filter (fun x => negb (bool_decide (x = id))) (st_order st') = st_order st;
  gr_known : st_count st' !! id = None -> st' = st
}.

Lemma filter_ne_absent (id : string) l : id ∉ l -> List.filter (fun x => negb (bool_decide (x = id))) l = l.
Proof.
  induction l as [|x l IH]; [done|]. intros Hn. cbn. rewrite bool_decide_eq_false_2 by set_solver. cbn.
  f_equal. apply IH. set_solver.
Qed.

Lemma grown_refl id st : unused st id -> grown id st st.
Proof.
  intros [H1 H2 H3]. split; [by rewrite H1, Nat.add_0_r|by rewrite delete_id| |by apply filter_ne_absent|done].
  apply map_filter_id. intros [id' l] x Hx Hid. cbn in Hid. subst id'. by rewrite H2 in Hx.
Qed.

Lemma grown_save id st st' l h w : unused st id -> grown id st st' -> grown id st (spec_op st' (OSave id l h w)).2.
Proof.
  intros Hu [G1 G2 G3 G4 G5]. cbn [spec_op]. destruct (st_free st') as [|n] eqn:En; [cbn [snd]; split; [by rewrite En|done..]|].
  cbn [snd]. split; cbn [st_free st_count st_tensors st_order].
  - rewrite lookup_insert_eq. cbn. rewrite G1. lia.
  - by rewrite delete_insert_eq.
  - rewrite map_filter_insert_False by (cbn; by intros []). rewrite map_filter_delete, G3.
    apply delete_id. apply (un_tensors _ _ Hu).
  - destruct (st_count st' !! id); [done|]. rewrite List.filter_app, G4. cbn. rewrite bool_decide_eq_true_2 by done. by rewrite app_nil_r.
  - by rewrite lookup_insert_eq.
Qed.

Lemma grown_saves id st ts : forall st', unused st id -> grown id st st' -> grown id st (run_ops spec_op st' (saved id <$> ts)).2.
Proof.
  induction ts as [|t ts IH]; intros st' Hu Hg; [done|]. cbn [fmap list_fmap run_ops]. unfold saved at 1.
  pose proof (grown_save id st st' t.1.1 t.1.2 t.2 Hu Hg) as Hg'. destruct (spec_op st' _) as [b st1]. cbn [snd] in Hg'.
  specialize (IH st1 Hu Hg'). by destruct (run_ops spec_op st1 (saved id <$> ts)).
Qed.

(** Freeing the id takes the saves back. *)
Lemma grown_free id st st' : grown id st st' -> (spec_op st' (OFree id)).2 = st.
Proof.
  intros [G1 G2 G3 G4 G5]. cbn [spec_op]. destruct (st_count st' !! id) as [n|]; [|cbn; by apply G5].
  cbn in *. rewrite <- G1, G2, G3, G4. by destruct st.
Qed.

(** ** The slots of a checkpoint, in order *)

Section Listed.
Context (a : Arena) (st : Store) (I : implements a st) (e : list ((string * Z) * nat)) (He : e ≡ₚ map_to_list (index a)).

(** Slot [i] holds layer [l] of a checkpoint, with this header. *)
Definition holds_layer (i : nat) (id : string) (l : Z) (h : SlotHeader) : Prop :=
  exists d data, index a !! (id, l) = Some d /\ slots a !! d = Some (mkSlotDescriptor (i * slot_size a) id l) /\
    st_tensors st !! (id, l) = Some (h, data).

Lemma slot_info_one_iff i l off h :
  slot_info_one a e i = Some (l, off, h) <-> off = (i * slot_size a)%nat /\ exists id, holds_layer i id l h.
Proof.
  pose proof (im_ok a st I) as Hok. unfold slot_info_one. destruct (List.find _ e) as [[[id' l'] d]|] eqn:Ef.
  - apply List.find_some in Ef as [Hin Hoff]. rewrite <- list_elem_of_In, He, elem_of_map_to_list in Hin. cbn [snd] in *.
    destruct (slots a !! d) as [desc|] eqn:Ed; [|done]. apply Nat.eqb_eq in Hoff.
    destruct (proj1 (im_keys a st I (id', l')) ltac:(eauto)) as [[h' data] Et].
    destruct (im_data a st I _ _ _ _ Hin Et) as (j & Hj & (Hh & _ & _) & Hb & _). rewrite Ed in Hj. injection Hj as ->.
    cbn [offset fst snd] in *. apply (slot_offset_inj a Hok) in Hoff as ->. rewrite Hb, slot_header_roundtrip by done. cbn [layer_idx].
    split.
    + intros [= <- <- <-]. split; [done|]. exists id', d, data. done.
    + intros (-> & id2 & d2 & data2 & H1 & H2 & H3).
      pose proof (ok_distinct a Hok _ _ _ _ _ _ Hin H1 Ed H2 eq_refl) as [= -> ->]. congruence.
  - split; [done|]. intros (-> & id' & d & data & H1 & H2 & H3). exfalso.
    assert (Hin : List.In ((id', l), d) e) by (rewrite <- list_elem_of_In, He; by apply elem_of_map_to_list).
    pose proof (List.find_none _ _ Ef _ Hin) as Hn. cbn [snd] in Hn. rewrite H2 in Hn. cbn [offset] in Hn.
    by rewrite Nat.eqb_refl in Hn.
Qed.

(** The slots of a checkpoint hold layers of that checkpoint. *)
Lemma holds_layer_owner id ls i id' l h :
  checkpoint_slots a !! id = Some ls -> i ∈ ls -> holds_layer i id' l h -> id' = id.
Proof.
  intros Hls Hi (d & data & H1 & H2 & _). pose proof (im_ok a st I) as Hok.
  destruct (ok_index a Hok _ _ _ H1) as (j & ls' & Hd & Hc & Hj). rewrite H2 in Hd. injection Hd as Ej.
  apply (slot_offset_inj a Hok) in Ej as <-. eapply owner_unique; [|exact Hc|exact Hls|exact Hj|exact Hi].
  pose proof (partition_nodup a Hok) as Hnd. by apply NoDup_app in Hnd as (_ & _ & ?).
Qed.
End Listed.

(** The same slots in two arenas. *)
Lemma slot_info_same a st e a' st' e' i :
  implements a st -> e ≡ₚ map_to_list (index a) -> implements a' st' -> e' ≡ₚ map_to_list (index a') ->
  slot_size a' = slot_size a -> (forall id l h, holds_layer a st i id l h <-> holds_layer a' st' i id l h) ->
  slot_info_one a' e' i = slot_info_one a e i.
Proof.
  intros I He I' He' Hs Hh. apply option_eq. intros [[l off] h].
  rewrite (slot_info_one_iff a st I e He), (slot_info_one_iff a' st' I' e' He'), Hs. by setoid_rewrite Hh.
Qed.

Section Steps.
Context (a : Arena) (st : Store) (I : implements a st) (e : list ((string * Z) * nat)) (He : e ≡ₚ map_to_list (index a)).

(** A save puts its layer into a free slot and leaves the other slots. *)
Lemma holds_layer_save id' l' h' w i rest j :
  pop (free_list a) = Some (i, rest) -> tensor_ok (slot_size a) h' w -> j <> i -> (forall h, ~ holds_layer a st j id' l' h) ->
  forall id l h, holds_layer a st j id l h <->
    holds_layer (arena_op a (OSave id' l' h' w)).2 (spec_op st (OSave id' l' h' w)).2 j id l h.
Proof.
  intros Hp Ht Hj Hn id l h. pose proof (im_free a st I) as Hf. unfold available in Hf.
  rewrite (proj1 (pop_spec _ _ _) Hp), length_app in Hf. cbn in Hf. destruct (st_free st) as [|n] eqn:En; [lia|].
  cbn [arena_op spec_op]. rewrite (save_shape a id' l' h' w i rest Hp), En. unfold holds_layer, alloc_slot. rewrite Hp. aproj.
  pose proof (im_ok a st I) as Hok. split.
  - intros (d & data & H1 & H2 & H3). assert (Hk : (id, l) <> (id', l')).
    { intros [= -> ->]. apply (Hn h). by exists d, data. }
    exists d, data. rewrite !lookup_insert_ne by done. rewrite lookup_app_l by (by eapply lookup_lt_Some). done.
  - intros (d & data & [[Hk <-]|[Hk H1]]%lookup_insert_Some & H2 & H3).
    + rewrite list_lookup_middle in H2 by done. injection H2 as E _ _. by apply (slot_offset_inj a Hok) in E as ->.
    + exists d, data. rewrite lookup_insert_ne in H3 by done. destruct (index_slot a Hok _ _ _ H1) as (k & Hd & _).
      rewrite lookup_app_l in H2 by (by eapply lookup_lt_Some). done.
Qed.

(** Saving a new layer of a checkpoint appends its slot. *)
Lemma infos_save id l h w a' e' :
  tensor_ok (slot_size a) h w -> arena_op a (OSave id l h w) = (true, a') -> st_tensors st !! (id, l) = None ->
  e' ≡ₚ map_to_list (index a') ->
  exists off, slot_info_for_checkpoint a' e' id = slot_info_for_checkpoint a e id ++ [(l, off, h)].
Proof.
  intros Ht E Hnew He'. destruct (save_ok_implements a st id l h w a' I Ht E) as (I' & Hs & _).
  pose proof (im_ok a st I) as Hok. assert (Ea : a' = (arena_op a (OSave id l h w)).2) by (by rewrite E).
  destruct (pop (free_list a)) as [[i rest]|] eqn:Hp; [|by cbn [arena_op] in E; unfold save, alloc_slot in E; rewrite Hp in E].
  pose proof (proj1 (pop_spec _ _ _) Hp) as Hfree. exists (i * slot_size a)%nat.
  assert (Hc : checkpoint_slots a' !! id = Some (default [] (checkpoint_slots a !! id) ++ [i])).
  { rewrite Ea. cbn [arena_op]. rewrite (save_shape a id l h w i rest Hp). unfold alloc_slot. rewrite Hp. aproj. apply lookup_insert_eq. }
  assert (Ho : slot_info_for_checkpoint a e id = omap (slot_info_one a e) (default [] (checkpoint_slots a !! id)))
    by (unfold slot_info_for_checkpoint; by destruct (checkpoint_slots a !! id)).
  rewrite Ho. unfold slot_info_for_checkpoint. rewrite Hc, omap_app. f_equal.
  - apply list_omap_ext, Forall_Forall2_diag, Forall_forall. intros j Hj.
    eapply slot_info_same; [done|done|exact I'|done|done|]. rewrite Ea. apply holds_layer_save with (i := i) (rest := rest); try done.
    + intros ->. pose proof (partition_nodup a Hok) as Hnd. rewrite Hfree in Hnd. apply NoDup_app in Hnd as (_ & Hd & _).
      apply (Hd i); [set_solver|]. destruct (checkpoint_slots a !! id) as [ls|] eqn:El; [|by apply elem_of_nil in Hj].
      by eapply elem_of_owned.
    + intros h0 (d & data & _ & _ & H3). congruence.
  - cbn [omap list_omap]. assert (slot_info_one a' e' i = Some (l, (i * slot_size a)%nat, h)) as ->; [|done].
    apply (slot_info_one_iff a' _ I' e' He'). rewrite Hs. split; [done|]. exists id, (List.length (slots a)), w.
    pose proof (im_free a st I) as Hf. unfold available in Hf. rewrite Hfree, length_app in Hf. cbn in Hf.
    rewrite Hs, Ea. cbn [arena_op spec_op]. rewrite (save_shape a id l h w i rest Hp). unfold alloc_slot. rewrite Hp.
    destruct (st_free st) as [|n]; [lia|]. aproj. rewrite !lookup_insert_eq, list_lookup_middle by done. done.
Qed.

(** Operations on other checkpoints leave the slots of this one. *)
Definition about (o : op) : string := match o with OSave id _ _ _ => id | OFree id => id end.

Lemma other_op id o :
  about o <> id -> let a' := (arena_op a o).2 in
  (forall l, index a' !! (id, l) = index a !! (id, l)) /\ (forall d s, slots a !! d = Some s -> slots a' !! d = Some s) /\
  checkpoint_slots a' !! id = checkpoint_slots a !! id /\ slot_size a' = slot_size a /\
  (forall l, st_tensors (spec_op st o).2 !! (id, l) = st_tensors st !! (id, l)).
Proof.
  intros Hne. cbn zeta. rewrite op_slot_size. destruct o as [id' l' h' w|id']; cbn [about arena_op spec_op] in *.
  - assert (Hst : forall l, st_tensors (spec_op st (OSave id' l' h' w)).2 !! (id, l) = st_tensors st !! (id, l)).
    { intros l. cbn [spec_op]. destruct (st_free st); aproj; [done|]. by rewrite lookup_insert_ne by congruence. }
    unfold save, alloc_slot. destruct (pop (free_list a)) as [[i rest]|]; cbn [snd]; [|done]. unfold write_data, update_header. aproj.
    split_and!; [intros l; by rewrite lookup_insert_ne by congruence| |by rewrite lookup_insert_ne|done|done].
    intros d s Hd. by rewrite lookup_app_l by (by eapply lookup_lt_Some).
  - assert (Hst : forall l, st_tensors (spec_op st (OFree id')).2 !! (id, l) = st_tensors st !! (id, l)).
    { intros l. cbn [spec_op]. destruct (st_count st !! id'); aproj; [|done]. apply option_eq. intros t.
      rewrite map_lookup_filter_Some. cbn. naive_solver. }
    cbn [snd]. unfold free_checkpoint. destruct (checkpoint_slots a !! id') as [ls|]; [|done]. aproj.
    split_and!; [|done|by rewrite lookup_delete_ne|done|done]. intros l. apply option_eq. intros t.
    rewrite map_lookup_filter_Some. cbn. naive_solver.
Qed.

Lemma infos_other id o e' :
  op_ok (slot_size a) o -> about o <> id -> e' ≡ₚ map_to_list (index (arena_op a o).2) ->
  slot_info_for_checkpoint (arena_op a o).2 e' id = slot_info_for_checkpoint a e id.
Proof.
  intros Ho Hne He'. destruct (run_implements [o] a st I ltac:(by constructor)) as [_ I']. cbn [run_ops] in I'.
  destruct (other_op id o Hne) as (Hi & Hd & Hc & Hs & Hst).
  destruct (arena_op a o) as [b a'], (spec_op st o) as [b' st']. cbn [fst snd] in *.
  unfold slot_info_for_checkpoint. rewrite Hc. destruct (checkpoint_slots a !! id) as [ls|] eqn:El; [|done].
  apply list_omap_ext, Forall_Forall2_diag, Forall_forall. intros j Hj.
  eapply slot_info_same; [done|done|exact I'|done|done|]. intros id2 l h. split; intros Hh.
  - pose proof (holds_layer_owner a st I id ls j id2 l h El Hj Hh) as ->. destruct Hh as (d & data & H1 & H2 & H3).
    exists d, data. rewrite Hs, Hst, Hi. auto.
  - assert (Hls' : checkpoint_slots a' !! id = Some ls) by congruence.
    pose proof (holds_layer_owner a' st' I' id ls j id2 l h Hls' Hj Hh) as ->. destruct Hh as (d & data & H1 & H2 & H3).
    rewrite Hs in H2. rewrite Hst in H3. rewrite Hi in H1. exists d, data.
    destruct (index_slot a (im_ok a st I) _ _ _ H1) as (k & Hk & _). pose proof (Hd _ _ Hk) as Hk'. split_and!; congruence.
Qed.
End Steps.

(** ** Checkpoints over runs of the arena *)

(** Layers and headers of a checkpoint, in slot order. *)
Definition listed (a : Arena) (e : list ((string * Z) * nat)) (id : string) : list (Z * SlotHeader) :=
  (fun x => (x.1.1, x.2)) <$> slot_info_for_checkpoint a e id.

Section Runs.
Context (order : gmap (string * Z) nat -> list ((string * Z) * nat)) (Horder : forall m, order m ≡ₚ map_to_list m).

Lemma listed_saves id ts : forall a st,
  implements a st -> Forall (fun t => tensor_ok (slot_size a) t.1.2 t.2) ts -> NoDup (ts.*1.*1) ->
  Forall (fun l => st_tensors st !! (id, l) = None) (ts.*1.*1) ->
  Forall (fun b => b = true) (run_ops arena_op a (saved id <$> ts)).1 ->
  let a' := (run_ops arena_op a (saved id <$> ts)).2 in let st' := (run_ops spec_op st (saved id <$> ts)).2 in
  listed a' (order (index a')) id = listed a (order (index a)) id ++ ts.*1 /\
  Forall (fun t => st_tensors st' !! (id, t.1.1) = Some (t.1.2, t.2)) ts /\
  (forall l, l ∉ ts.*1.*1 -> st_tensors st' !! (id, l) = st_tensors st !! (id, l)).
Proof.
  induction ts as [|[[l h] w] ts IH]; intros a st I Ht Hnd Hnew Hall; cbn zeta.
  { cbn. rewrite app_nil_r. done. }
  apply Forall_cons in Ht as [Ht Hts]. cbn [fmap list_fmap fst snd] in *. apply NoDup_cons in Hnd as [Hl Hnd].
  apply Forall_cons in Hnew as [Hl0 Hnew]. cbn [run_ops] in *. change (saved id (l, h, w)) with (OSave id l h w) in *.
  destruct (arena_op a (OSave id l h w)) as [b a1] eqn:Ea, (spec_op st (OSave id l h w)) as [b' st1] eqn:Es.
  destruct (run_ops arena_op a1 (saved id <$> ts)) as [bs a2] eqn:Er. cbn [fst snd] in *. apply Forall_cons in Hall as [-> Hall].
  destruct (save_ok_implements a st id l h w a1 I Ht Ea) as (I1 & S1 & A1). rewrite Es in I1. cbn [snd] in I1.
  assert (Hst1 : st_tensors st1 = <[(id, l) := (h, w)]> (st_tensors st)).
  { rewrite (im_free _ _ I) in A1. cbn [spec_op] in Es. by destruct (st_free st); simplify_eq. }
  rewrite <- S1 in Hts. specialize (IH a1 st1 I1 Hts Hnd).
  destruct (infos_save a st I (order (index a)) (Horder _) id l h w a1 (order (index a1)) Ht Ea Hl0 (Horder _)) as [off Hoff].
  destruct IH as (H1 & H2 & H3); [|by rewrite Er|rewrite Er in H1].
  { rewrite Forall_forall in Hnew |- *. intros l' Hl'. rewrite Hst1, lookup_insert_ne; [by apply Hnew|]. intros [= ->]. done. }
  destruct (run_ops spec_op st1 (saved id <$> ts)) as [bs' st2]. cbn [fst snd] in *. split_and!.
  - rewrite H1. unfold listed. rewrite Hoff, fmap_app. by rewrite <- app_assoc.
  - constructor; [|done]. cbn. rewrite H3 by done. by rewrite Hst1, lookup_insert_eq.
  - intros l' [Hne Hl']%not_elem_of_cons. rewrite H3 by done. rewrite Hst1, lookup_insert_ne; [done|congruence].
Qed.

Lemma listed_others id os : forall a st,
  implements a st -> Forall (op_ok (slot_size a)) os -> Forall (fun o => about o <> id) os ->
  let a' := (run_ops arena_op a os).2 in let st' := (run_ops spec_op st os).2 in
  listed a' (order (index a')) id = listed a (order (index a)) id /\
  (forall l, st_tensors st' !! (id, l) = st_tensors st !! (id, l)).
Proof.
  induction os as [|o os IH]; intros a st I Ho Hne; cbn zeta; [done|].
  apply Forall_cons in Ho as [Ho Hos]. apply Forall_cons in Hne as [Hn Hne].
  destruct (run_implements [o] a st I ltac:(by constructor)) as [_ I1]. cbn [run_ops] in *.
  pose proof (infos_other a st I (order (index a)) (Horder _) id o (order (index (arena_op a o).2)) Ho Hn (Horder _)) as E.
  destruct (other_op a st id o Hn) as (_ & _ & _ & Hs & Hst).
  destruct (arena_op a o) as [b a1], (spec_op st o) as [b' st1]. cbn [fst snd] in *. rewrite <- Hs in Hos.
  destruct (IH a1 st1 I1 Hos Hne) as [H1 H2].
  destruct (run_ops arena_op a1 os) as [bs a2], (run_ops spec_op st1 os) as [bs' st2]. cbn [fst snd] in *. split.
  - rewrite H1. unfold listed. by rewrite E.
  - intros l. by rewrite H2, Hst.
Qed.
End Runs.

(** What a reader finds of a stored tensor. *)
Lemma get_slot_stored a st id l h data :
  implements a st -> st_tensors st !! (id, l) = Some (h, data) ->
  exists ptr, get_slot a id l = Some (Some (ptr, h)) /\ Z.to_nat (sh_byte_len h) = List.length data /\
    in_arena a ptr (List.length data) = true /\ slice (ptr + SLOT_HEADER_SIZE) (List.length data) (region a) = data.
Proof.
  intros I Ht. destruct (proj2 (im_keys a st I (id, l)) ltac:(eauto)) as [d Hd].
  destruct (im_data a st I _ _ _ _ Hd Ht) as (i & Hs & (Hh & Hb & Hf) & Hhdr & Hdat). cbn [fst snd] in *.
  destruct (index_slot a (im_ok a st I) _ _ _ Hd) as (j & Hj & Ho). rewrite Hs in Hj. injection Hj as Ej.
  apply (slot_offset_inj a (im_ok a st I)) in Ej as <-.
  pose proof (slot_bound a (im_ok a st I) i ltac:(set_solver)) as Hbound.
  exists (i * slot_size a)%nat. unfold get_slot. rewrite Hd, Hs. cbn [offset]. rewrite Hhdr, slot_header_roundtrip by done.
  split_and!; [done|by rewrite Hb, Nat2Z.id| |done]. unfold in_arena. apply Nat.leb_le. lia.
Qed.

Lemma get_slot_absent a st id l : implements a st -> st_tensors st !! (id, l) = None -> get_slot a id l = Some None.
Proof.
  intros I Ht. unfold get_slot. destruct (index a !! (id, l)) eqn:E; [|done].
  destruct (proj1 (im_keys a st I (id, l)) ltac:(eauto)). congruence.
Qed.

Section Checkpoints.
Context `{J : SerdeJson} {WW : WorkerWire} {W : Winnow} {B : PyBridge} {HB : HostBridge}.
Context (env : Surroundings).

Lemma rng_header_ok ss (b : list byte) :
  (SLOT_HEADER_SIZE + List.length b <= ss)%nat -> Z.of_nat ss < 2 ^ 63 -> tensor_ok ss (rng_header b) b.
Proof.
  intros H1 H2. split; [|split; [done|done]].
  unfold slot_header_ok, shape_ok, rng_header, fits. cbn [sh_magic sh_ndim sh_shape sh_byte_len List.length].
  split_and!; try done; try lia. repeat constructor; unfold fits; lia.
Qed.

Lemma save_rng_op id (b : list byte) a :
  arena_ok a -> (SLOT_HEADER_SIZE + List.length b <= slot_size a)%nat ->
  save_rng id (Ok b) a = Some (arena_op a (OSave id U32_MAX (rng_header b) b)).2.
Proof.
  intros Hok Hb. cbn [save_rng arena_op]. unfold save. destruct (alloc_slot a id U32_MAX) as [[[ptr hd]|e] a1] eqn:E; [|done].
  cbn [is_ok snd]. assert (Hin : in_arena a1 ptr (List.length b) = true); [|by rewrite Hin].
  revert E. unfold alloc_slot. destruct (pop (free_list a)) as [[i rest]|] eqn:Hp; [|done]. intros [= <- <- <-].
  pose proof (proj1 (pop_spec _ _ _) Hp) as Hf. pose proof (slot_bound a Hok i ltac:(rewrite Hf; set_solver)) as Hbd.
  unfold in_arena. aproj. apply Nat.leb_le. rewrite length_splice; [lia|]. rewrite length_header_bytes by done. lia.
Qed.

Lemma spill_oldest_ops id a files :
  exists os, (spill_oldest env id a files).1 = (run_ops arena_op a os).2 /\ Forall (op_ok (slot_size a)) os /\
    Forall (fun o => about o <> id) os /\ (List.length os <= 1)%nat.
Proof.
  assert (Hn : exists os, a = (run_ops arena_op a os).2 /\ Forall (op_ok (slot_size a)) os /\
    Forall (fun o => about o <> id) os /\ (List.length os <= 1)%nat).
  { exists []. split; [done|]. split; [constructor|]. split; [constructor|]. cbn. lia. }
  unfold spill_oldest. destruct (crowded a); [|done]. destruct (oldest_checkpoint a) as [oldest|]; [|done].
  destruct (starts_with _ _ && _) eqn:E; [|done]. apply andb_prop in E as [_ E%negb_true_iff%bool_decide_eq_false].
  unfold spill_checkpoint. destruct (Nat.eqb _ _); [done|]. destruct (U32_MAX <? _); [done|]. destruct (io_ok env); [|done].
  exists [OFree oldest]. cbn. split; [done|]. split; [by constructor|]. split; [by constructor|lia].
Qed.

(** Handing the captured activations back to the model, in order. *)
Fixpoint restore_all (cs : list (Z * string * Raw)) (outputs : Dict) : result string unit * Dict :=
  match cs with
  | [] => (Ok tt, outputs)
  | (_, path, (dtype, shape, w)) :: rest =>
      match restore_activation path 0 w dtype shape outputs with
      | (Ok _, outputs) => restore_all rest outputs
      | (Err e, outputs) => (Err (py_text e), outputs)
      end
  end.

Lemma restore_slots_all a st id containers room cs : forall infos outputs tail,
  implements a st -> (SLOT_HEADER_SIZE + room <= slot_size a)%nat -> Z.of_nat (slot_size a) < 2 ^ 63 ->
  (fun x => (x.1.1, x.2)) <$> infos = (tensor_of <$> cs).*1 ++ tail -> Forall (fun x => x.1 = U32_MAX) tail ->
  Forall (fun c => good_capture room c.2 /\ c.1.1 <> U32_MAX /\ containers !! c.1.1 = Some c.1.2 /\
    st_tensors st !! (id, c.1.1) = Some ((tensor_of c).1.2, (tensor_of c).2)) cs ->
  restore_slots a id containers infos outputs = Some (restore_all cs outputs).
Proof.
  induction cs as [|[[l path] [[dtype shape] w]] cs IH]; intros infos outputs tail I Hr Hss Hi Htl Hcs.
  - cbn in Hi. revert tail Hi Htl. induction infos as [|[[l off] h] infos IHi]; intros tail Hi Htl; [done|].
    cbn [fmap list_fmap] in Hi. subst tail. apply Forall_cons in Htl as [Hl Htl]. cbn in Hl. cbn [restore_slots].
    rewrite Hl, Z.eqb_refl. by eapply IHi.
  - apply Forall_cons in Hcs as [(Hg & Hl & Hc & Ht) Hcs]. cbn [fst snd tensor_of] in *.
    destruct infos as [|[[l' off] h] infos]; [done|]. cbn [fmap list_fmap app fst snd tensor_of] in Hi. injection Hi as -> -> Hi.
    destruct (captured_header_ok room (slot_size a) (dtype, shape, w) Hg Hr Hss) as (Hok & Ed & Es). cbn [fst snd] in *.
    destruct (get_slot_stored a st id l _ _ I Ht) as (ptr & Hget & Hlen & Hin & Hdat).
    cbn [restore_slots restore_all]. rewrite (proj2 (Z.eqb_neq _ _) Hl), Hc, Hget. cbn [mbind option_bind].
    rewrite Hlen, Hin, Hdat, Ed, Es. destruct (restore_activation path 0 w dtype shape outputs) as [[u|e] o]; [|done].
    by eapply IH.
Qed.
Lemma captures_spec outputs room containers layers c :
  capture_laws outputs room -> c ∈ captures outputs room containers layers ->
  c.1.1 ∈ layers /\ containers !! c.1.1 = Some c.1.2 /\ good_capture room c.2.
Proof.
  intros Hl (l & Hin & E)%list_elem_of_omap. destruct (containers !! l) as [path|] eqn:Ep; cbn in E; [|done].
  unfold activation in E. destruct (activation_available outputs path 0) as [[]|]; try done.
  destruct (capture_activation outputs path 0 room) as [[raw|] w] eqn:Ec; [|done]. cbn in E. injection E as <-. cbn.
  split_and!; [done|done|]. by eapply cl_good.
Qed.

Lemma captures_layers outputs room containers layers :
  sublist (captures outputs room containers layers).*1.*1 layers.
Proof.
  induction layers as [|l layers IH]; cbn; [constructor|]. destruct (containers !! l) as [path|]; cbn; [|by constructor].
  destruct (activation outputs room path); cbn; by constructor.
Qed.

Lemma StronglySorted_NoDup l : StronglySorted Z.lt l -> NoDup l.
Proof.
  induction 1 as [|x l Hs IH Hx]; constructor; [|done]. intros Hin. rewrite Forall_forall in Hx. specialize (Hx x Hin). lia.
Qed.

Lemma captures_nodup outputs room containers n :
  0 <= n <= LAYER_BOUND -> let ls := (captures outputs room containers (checkpoint_layers n)).*1.*1 in
  NoDup ls /\ Forall (fun l => l <> U32_MAX) ls.
Proof.
  intros Hn. cbn zeta. destruct (checkpoint_layers_sorted n Hn) as [Hs Hb].
  pose proof (captures_layers outputs room containers (checkpoint_layers n)) as Hsub. split.
  - eapply sublist_NoDup; [by apply StronglySorted_NoDup|exact Hsub].
  - rewrite Forall_forall in Hb |- *. intros l Hl%(sublist_subseteq _ _ Hsub). specialize (Hb l Hl).
    unfold LAYER_BOUND, U32_MAX in *. lia.
Qed.

Lemma tensor_of_layers cs : ((tensor_of <$> cs) : list (Z * SlotHeader * list byte)).*1.*1 = cs.*1.*1.
Proof. rewrite <- !list_fmap_compose. done. Qed.

(** A host at a stop, with the arena and the Python side the theorems talk about. *)
Record ready (h : Host) (a : Arena) (st : Store) (outputs : Dict) : Prop := {
  rd_arena : w_checkpoint_arena (h_core h) = Some a;
  rd_outputs : w_last_outputs (h_core h) = Some outputs;
  rd_store : implements a st;
  rd_size : Z.of_nat (slot_size a) < 2 ^ 63;
  rd_laws : capture_laws outputs (slot_size a - SLOT_HEADER_SIZE)
}.

(** C10: a failing checkpoint leaves no trace.  Whatever Python does - failing at
    any layer, after writing part of a slot - and however full the arena is, a
    create of a new id that is answered with an error leaves an arena that holds
    exactly the tensors it held before, in the same order, with as many free
    slots. *)
Theorem checkpoint_create_atomic (h : Host) (a : Arena) (st : Store) (outputs : Dict) (request : Request)
    (id : string) (tier : CreateCheckpointTier) (rsp : Response) (h' : Host) :
  ready h a st outputs -> checkpoint_slots a !! id = None ->
  checkpoint_create env request id tier a h = Some (rsp, h') -> is_Some (rsp_error rsp) ->
  exists a', h' = set_arena a' h /\ implements a' st.
Proof.
  intros [R1 R2 I Hss Hl] Hid. unfold checkpoint_create. rewrite R2.
  destruct (capture_layers_run env outputs (build_layer_container_map (h_container_paths h)) id
    (checkpoint_layers (w_num_layers (h_core h))) a st 0 I Hl Hss) as (ts & r & Ht & -> & _ & _).
  set (a1 := (run_ops arena_op a (saved id <$> ts)).2) in *.
  destruct r as [total|e].
  - destruct (save_rng _ _ a1) as [a2|]; [|done]. cbn [mbind option_bind]. destruct (spill_oldest _ _ _ _) as [a3 files].
    intros [= <- <-] [x Hx]. done.
  - intros [= <- <-] _. eexists. split; [done|].
    assert (Hos : Forall (op_ok (slot_size a)) (saved id <$> ts)).
    { apply Forall_fmap. eapply Forall_impl; [exact Ht|]. done. }
    destruct (run_implements _ a st I Hos) as [_ I1]. apply (free_implements _ _ id) in I1. fold a1 in I1.
    pose proof (grown_saves id st ts st (unused_arena a st id I Hid) (grown_refl id st (unused_arena a st id I Hid))) as Hg.
    by rewrite (grown_free id st _ Hg) in I1.
Qed.

(** Successful saves use one slot each. *)
Lemma saves_available id ts : forall a st,
  implements a st -> Forall (fun t => tensor_ok (slot_size a) t.1.2 t.2) ts ->
  Forall (fun b => b = true) (run_ops arena_op a (saved id <$> ts)).1 ->
  available a = (available (run_ops arena_op a (saved id <$> ts)).2 + List.length ts)%nat.
Proof.
  induction ts as [|t ts IH]; intros a st I Ht; cbn [fmap list_fmap run_ops]; [cbn; lia|].
  apply Forall_cons in Ht as [Ht Hts]. unfold saved at 1 3. destruct (arena_op a _) as [b a1] eqn:Ea.
  destruct (run_ops arena_op a1 (saved id <$> ts)) as [bs a2] eqn:Er. cbn [fst snd]. intros [-> Hb]%Forall_cons.
  destruct (save_ok_implements _ _ _ _ _ _ _ I Ht Ea) as (I1 & S1 & A1). rewrite <- S1 in Hts.
  specialize (IH a1 _ I1 Hts). rewrite Er in IH. cbn [fst snd] in IH. specialize (IH Hb). cbn. lia.
Qed.

Lemma run_slot_size os : forall a, slot_size (run_ops arena_op a os).2 = slot_size a.
Proof.
  induction os as [|o os IH]; intros a; [done|]. cbn [run_ops]. pose proof (op_slot_size a o) as H.
  destruct (arena_op a o) as [b a1]. specialize (IH a1). destruct (run_ops arena_op a1 os). cbn in *. congruence.
Qed.

Lemma run_length os : forall a, List.length (run_ops arena_op a os).1 = List.length os.
Proof.
  induction os as [|o os IH]; intros a; [done|]. cbn [run_ops]. destruct (arena_op a o) as [b a1].
  specialize (IH a1). destruct (run_ops arena_op a1 os). cbn in *. by rewrite IH.
Qed.

Lemma all_true (bs : list bool) : Forall (fun b => b = true) bs -> bs = repeat true (List.length bs).
Proof. induction 1 as [|b bs -> _ IH]; [done|]. cbn. by rewrite <- IH. Qed.

(** The tensors a create saves: the captured layers and the generators. *)
Definition checkpoint_tensors (cs : list (Z * string * Raw)) (rng : list byte) : list (Z * SlotHeader * list byte) :=
  (tensor_of <$> cs) ++ [(U32_MAX, rng_header rng, rng)].

Lemma create_saves h a st outputs request id tier rng :
  let room := (slot_size a - SLOT_HEADER_SIZE)%nat in
  let containers := build_layer_container_map (h_container_paths h) in
  let layers := checkpoint_layers (w_num_layers (h_core h)) in
  let cs := captures outputs room containers layers in
  ready h a st outputs ->
  (forall l path, l ∈ layers -> containers !! l = Some path -> capturable outputs room path) ->
  capture_rng_state (h_rng h) = Ok rng -> (List.length rng <= room)%nat -> (List.length cs < available a)%nat ->
  exists a1 os files,
    Forall (fun t => tensor_ok (slot_size a) t.1.2 t.2) (checkpoint_tensors cs rng) /\
    run_ops arena_op a (saved id <$> checkpoint_tensors cs rng) = (repeat true (S (List.length cs)), a1) /\
    Forall (op_ok (slot_size a)) os /\ Forall (fun o => about o <> id) os /\
    checkpoint_create env request id tier a h =
      Some (Response_success (req_id request)
              (to_value (mkHostCheckpointResponse id (response_tier tier) None (Some (foldl u64_add 0 (sizes cs))))),
            set_files files (set_arena (run_ops arena_op a1 os).2 h)).
Proof.
  cbn zeta. intros [R1 R2 I Hss Hl] Hcap Hrng Hrl Hav. pose proof (ok_size a (im_ok _ _ I)) as Hsz.
  set (room := (slot_size a - SLOT_HEADER_SIZE)%nat) in *. set (containers := build_layer_container_map _) in *.
  set (layers := checkpoint_layers _) in *. set (cs := captures outputs room containers layers) in *.
  destruct (capture_layers_run env outputs containers id layers a st 0 I Hl Hss) as (ts & r & Ht & E & Hr & Hok).
  fold room cs in Hr, Hok. specialize (Hok Hcap ltac:(lia)). destruct r as [total|e]; [|done]. clear Hok.
  destruct (Hr total eq_refl) as (-> & -> & Hb).
  assert (Hos : Forall (op_ok (slot_size a)) (saved id <$> (tensor_of <$> cs))) by (apply Forall_fmap; eapply Forall_impl; [exact Ht|done]).
  destruct (run_implements _ a st I Hos) as [_ I1]. pose proof (saves_available id _ a st I Ht Hb) as Hfree.
  destruct (run_ops arena_op a (saved id <$> (tensor_of <$> cs))) as [bs a1] eqn:Er. cbn [fst snd] in *.
  pose proof (run_slot_size (saved id <$> (tensor_of <$> cs)) a) as Hs1. rewrite Er in Hs1. cbn [snd] in Hs1.
  rewrite length_fmap in Hfree.
  assert (Ht2 : tensor_ok (slot_size a) (rng_header rng) rng) by (apply rng_header_ok; [lia|done]).
  pose proof (save_rng_op id rng a1 (im_ok _ _ I1) ltac:(lia)) as Esave.
  destruct (arena_op a1 (OSave id U32_MAX (rng_header rng) rng)) as [b a2] eqn:Ea. cbn [snd] in Esave.
  assert (b = true) as ->.
  { rewrite <- Hs1 in Ht2. pose proof (save_implements a1 _ id U32_MAX _ _ I1 Ht2) as [Hbb _]. rewrite Ea in Hbb. cbn [fst] in Hbb.
    rewrite (im_free _ _ I1) in Hfree. cbn [spec_op] in Hbb. destruct (st_free _); [lia|done]. }
  destruct (spill_oldest_ops id a2 (h_files h)) as (os & Eos & H1 & H2 & _).
  assert (Hs2 : slot_size a2 = slot_size a) by (rewrite <- Hs1, <- (op_slot_size a1 (OSave id U32_MAX (rng_header rng) rng)), Ea; done).
  exists a2, os, (spill_oldest env id a2 (h_files h)).2. unfold checkpoint_tensors. rewrite Hs2 in H1.
  split_and!; [apply Forall_app; split; [done|by apply Forall_singleton]| |done|done|].
  - rewrite fmap_app, run_ops_app, Er. cbn [fst snd fmap list_fmap run_ops]. unfold saved at 1 2. cbn [fst snd]. rewrite Ea. cbn [fst snd].
    f_equal. pose proof (run_length (saved id <$> (tensor_of <$> cs)) a) as Hlen. rewrite Er, !length_fmap in Hlen. cbn [fst] in Hlen.
    rewrite (all_true bs Hb), Hlen. change (repeat true (S (List.length cs))) with (true :: repeat true (List.length cs)). by rewrite <- repeat_cons.
  - unfold checkpoint_create. rewrite R2. fold containers layers. rewrite E, Hrng, Esave. cbn [mbind option_bind].
    destruct (spill_oldest env id a2 (h_files h)) as [a3 files]. cbn [fst snd] in *. by subst a3.
Qed.

(** Restoring a checkpoint the store holds. *)
Lemma restore_stored id cs rng room a st h outputs request :
  (forall m, iter env m ≡ₚ map_to_list m) -> implements a st -> (SLOT_HEADER_SIZE + room <= slot_size a)%nat ->
  Z.of_nat (slot_size a) < 2 ^ 63 -> w_last_outputs (h_core h) = Some outputs ->
  listed a (iter env (index a)) id = (checkpoint_tensors cs rng).*1 ->
  Forall (fun t => st_tensors st !! (id, t.1.1) = Some (t.1.2, t.2)) (checkpoint_tensors cs rng) ->
  Forall (fun c => good_capture room c.2 /\ c.1.1 <> U32_MAX /\
    build_layer_container_map (h_container_paths h) !! c.1.1 = Some c.1.2) cs ->
  let r := restore_all cs outputs in
  checkpoint_restore env request id a h =
    Some (match r.1 with
          | Ok _ => Response_success (req_id request)
                      (to_value (mkHostCheckpointResponse id CheckpointTier_Activation None None))
          | Err e => internal_error (req_id request) ("checkpoint restore failed: " +:+ e)%string
          end, set_outputs r.2 (set_rng (restore_rng_state rng (h_rng h)).2 h)).
Proof.
  intros Hiter I Hroom Hss Ho Hlist Ht Hcs. cbn zeta. unfold checkpoint_restore.
  set (infos := slot_info_for_checkpoint a (iter env (index a)) id). unfold listed in Hlist. fold infos in Hlist.
  unfold checkpoint_tensors in *. apply Forall_app in Ht as [Ht Hr]. rewrite Forall_singleton in Hr. cbn [fst snd] in Hr.
  rewrite fmap_app in Hlist. assert (Hne : infos <> []) by (intros ->; by destruct (tensor_of <$> cs)).
  destruct (get_slot_stored a st id U32_MAX _ _ I Hr) as (ptr & Hget & Hlen & Hin & Hdat).
  assert (Hrs : restore_slots a id (build_layer_container_map (h_container_paths h)) infos outputs = Some (restore_all cs outputs)).
  { apply (restore_slots_all a st id _ room cs infos outputs _ I Hroom Hss Hlist); [by constructor|].
    rewrite Forall_forall in Hcs. rewrite Forall_forall in Ht. apply Forall_forall. intros c Hc. destruct (Hcs c Hc) as (H1 & H2 & H3). split_and!; [done|done|done|].
    apply (Ht (tensor_of c)). by apply list_elem_of_fmap_2. }
  clearbody infos. destruct infos as [|x infos]; [done|]. rewrite Ho. unfold rng_bytes. rewrite Hget. cbn [mbind option_bind].
  rewrite Hlen, Hin, Hdat, Hrs. by destruct (restore_all cs outputs) as [[]].
Qed.

(** C9: create and restore are inverse.  When Python can capture every layer it
    has an activation for, the generators' state fits a slot and there is room,
    creating a checkpoint under a new id succeeds and reports the bytes
    captured; and after any further saves and frees of other checkpoints (and
    the spill the create may do), under any iteration order of the index,
    restoring the id restores the generators and then hands the model every
    captured activation - module, dtype, shape and bytes - in layer order. *)
Theorem checkpoint_roundtrip (h : Host) (a : Arena) (st : Store) (outputs : Dict) (request : Request)
    (id : string) (tier : CreateCheckpointTier) (rng : list byte) :
  let room := (slot_size a - SLOT_HEADER_SIZE)%nat in
  let containers := build_layer_container_map (h_container_paths h) in
  let layers := checkpoint_layers (w_num_layers (h_core h)) in
  let cs := captures outputs room containers layers in
  (forall m, iter env m ≡ₚ map_to_list m) -> ready h a st outputs -> checkpoint_slots a !! id = None ->
  0 <= w_num_layers (h_core h) <= LAYER_BOUND ->
  (forall l path, l ∈ layers -> containers !! l = Some path -> capturable outputs room path) ->
  capture_rng_state (h_rng h) = Ok rng -> (List.length rng <= room)%nat -> (List.length cs < available a)%nat ->
  exists a' files,
    checkpoint_create env request id tier a h =
      Some (Response_success (req_id request)
              (to_value (mkHostCheckpointResponse id (response_tier tier) None (Some (foldl u64_add 0 (sizes cs))))),
            set_files files (set_arena a' h)) /\
    forall later h2 outputs2 request2,
      Forall (op_ok (slot_size a)) later -> Forall (fun o => about o <> id) later ->
      let a2 := (run_ops arena_op a' later).2 in
      h_container_paths h2 = h_container_paths h -> w_last_outputs (h_core h2) = Some outputs2 ->
      let r := restore_all cs outputs2 in
      checkpoint_restore env request2 id a2 h2 =
        Some (match r.1 with
              | Ok _ => Response_success (req_id request2)
                          (to_value (mkHostCheckpointResponse id CheckpointTier_Activation None None))
              | Err e => internal_error (req_id request2) ("checkpoint restore failed: " +:+ e)%string
              end, set_outputs r.2 (set_rng (restore_rng_state rng (h_rng h2)).2 h2)).
Proof.
  cbn zeta. intros Hiter Hrd Hid Hn Hcap Hrng Hrl Hav. pose proof Hrd as [R1 R2 I Hss Hl]. pose proof (ok_size a (im_ok _ _ I)) as Hsz.
  destruct (create_saves h a st outputs request id tier rng Hrd Hcap Hrng Hrl Hav) as (a1 & os & files & Ht & Er & Ho1 & Ho2 & ->).
  set (room := (slot_size a - SLOT_HEADER_SIZE)%nat) in *. set (containers := build_layer_container_map _) in *.
  set (cs := captures _ _ _ _) in *. set (ts := checkpoint_tensors cs rng) in *.
  exists (run_ops arena_op a1 os).2, files. split; [done|]. intros later h2 outputs2 request2 Hl1 Hl2 Hc2 Hout.
  destruct (captures_nodup outputs room containers _ Hn) as [Hnd Hmax]. fold cs in Hnd, Hmax.
  pose proof (unused_arena a st id I Hid) as Hu.
  assert (Hlay : ts.*1.*1 = cs.*1.*1 ++ [U32_MAX]) by (unfold ts, checkpoint_tensors; by rewrite !fmap_app, tensor_of_layers).
  destruct (listed_saves (iter env) Hiter id ts a st I Ht) as (L1 & L2 & _).
  { rewrite Hlay. apply NoDup_app. split_and!; [done| |apply NoDup_singleton]. intros x Hx ->%list_elem_of_singleton.
    rewrite Forall_forall in Hmax. by apply (Hmax _ Hx). }
  { apply Forall_forall. intros l _. apply (un_tensors _ _ Hu). }
  { rewrite Er. apply Forall_forall. intros b Hb%list_elem_of_In. by apply repeat_spec in Hb. }
  assert (Hos : Forall (op_ok (slot_size a)) (saved id <$> ts)) by (apply Forall_fmap; eapply Forall_impl; [exact Ht|done]).
  destruct (run_implements _ a st I Hos) as [_ I1]. pose proof (run_slot_size (saved id <$> ts) a) as S1.
  rewrite Er in L1, I1, S1. cbn [fst snd] in *. set (st1 := (run_ops spec_op st (saved id <$> ts)).2) in *.
  assert (Hall : Forall (op_ok (slot_size a1)) (os ++ later)) by (rewrite S1; by apply Forall_app).
  destruct (listed_others (iter env) Hiter id (os ++ later) a1 st1 I1 Hall) as [L3 L4]; [by apply Forall_app|].
  destruct (run_implements _ a1 st1 I1 Hall) as [_ I2]. pose proof (run_slot_size (os ++ later) a1) as S2.
  rewrite run_ops_app in L3, I2, S2. cbn [snd] in *.
  apply (restore_stored id cs rng room _ _ h2 outputs2 request2 Hiter I2); try done.
  - rewrite S2, S1. lia.
  - by rewrite S2, S1.
  - rewrite L3, L1. unfold listed, slot_info_for_checkpoint. by rewrite Hid.
  - eapply Forall_impl; [exact L2|]. intros t Et. by rewrite L4.
  - rewrite Hc2. fold containers. apply Forall_forall. intros c Hc. destruct (captures_spec _ _ _ _ c Hl Hc) as (_ & H2 & H3).
    split_and!; [done| |done]. rewrite Forall_forall in Hmax. apply Hmax. apply list_elem_of_fmap. exists c.1. split; [done|]. by apply list_elem_of_fmap_2.
Qed.


End Checkpoints.

(** ** Concrete hosts *)

Module Demo.

(** Tensors are bytes; Python can only capture a single half-precision number. *)
Definition bridge : PyBridge := {|
  Tensor := list byte;
  PyErr := string;
  tensor_clone := fun t => Ok t;
  tensor_shape := fun _ => Ok [1];
  tensor_getitem := fun t _ _ => Ok t;
  tensor_setitem := fun _ _ _ v => Ok v;
  apply_interventions_at_point := fun t _ _ _ _ _ _ _ _ => Ok (t, []);
  compare_activations := fun _ _ _ _ _ _ => Ok None
|}.

Definition capture (outputs : gmap (string * Z) (list byte)) (path : string) (ci : Z) (room : nat)
  : result string (string * list Z) * list byte :=
  match outputs !! (path, ci) with
  | Some [x; y] => if Nat.leb 2 room then (Ok ("torch.float16"%string, [1]), [x; y]) else (Err "tensor exceeds slot capacity"%string, [])
  | _ => (Err "tensor exceeds slot capacity"%string, [])
  end.

Definition restore (path : string) (ci : Z) (bytes : list byte) (dtype : string) (shape : list Z) (outputs : gmap (string * Z) (list byte))
  : result string unit * gmap (string * Z) (list byte) :=
  if bool_decide (is_Some (outputs !! (path, ci))) then (Ok tt, <[(path, ci) := bytes]> outputs) else (Err "no activation"%string, outputs).

Definition python : @HostBridge bridge :=
  @Build_HostBridge bridge (fun e : string => e)
    (fun (outputs : gmap (string * Z) (list byte)) path ci => Ok (bool_decide (is_Some (outputs !! (path, ci)))))
    capture restore (list byte) (fun r => Ok r) (fun b _ => (Ok tt, b)) (fun _ => Ok tt).

Definition wire : @WorkerWire json_ref.
Proof. unshelve econstructor. 1-12: exact (fun _ => Err "unknown"%string). all: exact (fun _ => JNull). Defined.

Definition surroundings : Surroundings :=
  mkSurroundings map_to_list true demo_crc (fun _ => "checkpoint arena exhausted"%string) (fun s => s).

Definition outputs (t : list byte) : @Dict bridge := {[("model.layers.2"%string, 0) := t]}.

Definition host (t : list byte) : @Host bridge python :=
  @mkHost bridge python
    (@mkWorkerState bridge None ∅ (Some 1) 0 4 2 (TickState_new 0) None (Some (outputs t)) [] (Some empty_arena))
    [] ["model.layers.2"%string] 64 Kv.new [Byte.x07] ∅.

Definition request : @Request (@serde_value json_ref) :=
  @mkRequest (@serde_value json_ref) "2.0" (RequestId_Number 1) "_host/checkpoint" None.

Lemma laws (d : gmap (string * Z) (list byte)) room : @capture_laws bridge python d room.
Proof.
  split.
  - intros path. cbn [capture_activation python]. unfold capture. destruct (d !! (path, 0)) as [[|x [|y [|]]]|]; cbn [snd List.length]; try lia.
    destruct (Nat.leb_spec 2 room); cbn [snd List.length]; lia.
  - intros path c w. cbn [capture_activation python]. unfold capture. destruct (d !! (path, 0)) as [[|x [|y [|]]]|]; try done.
    destruct (Nat.leb_spec 2 room); [|done]. intros [= <- <-]. exists Float16. cbn.
    split_and!; [done|lia|repeat constructor; lia|lia|lia].
Qed.

Lemma host_ready t : @ready bridge python (host t) empty_arena (mkStore 2 ∅ ∅ []) (outputs t).
Proof. split; [done|done|exact empty_arena_implements|done|apply laws]. Qed.

End Demo.

Lemma checkpoint_roundtrip_witness :
  exists a' files,
    @checkpoint_create json_ref Demo.wire Demo.bridge Demo.python Demo.surroundings Demo.request "c1" CreateCheckpointTier_Activation
      empty_arena (Demo.host [Byte.x0a; Byte.x0b]) =
      Some (@Response_success (@serde_value json_ref) (RequestId_Number 1) JNull, set_files files (set_arena a' (Demo.host [Byte.x0a; Byte.x0b]))) /\
    exists h3, @checkpoint_restore json_ref Demo.wire Demo.bridge Demo.python Demo.surroundings Demo.request "c1" a' (Demo.host [Byte.x00]) =
      Some (@Response_success (@serde_value json_ref) (RequestId_Number 1) JNull, h3) /\
      w_last_outputs (h_core h3) = Some (Demo.outputs [Byte.x0a; Byte.x0b]) /\ h_rng h3 = [Byte.x07].
Proof.
  destruct (@checkpoint_roundtrip json_ref Demo.wire Demo.bridge Demo.python Demo.surroundings (Demo.host [Byte.x0a; Byte.x0b]) empty_arena
    (mkStore 2 ∅ ∅ []) (Demo.outputs [Byte.x0a; Byte.x0b]) Demo.request "c1" CreateCheckpointTier_Activation [Byte.x07])
    as (a' & files & E & H).
  - intros m. reflexivity.
  - apply Demo.host_ready.
  - reflexivity.
  - vm_compute. split; discriminate.
  - intros l path Hl Hp. change (checkpoint_layers _) with [2] in Hl. apply list_elem_of_singleton in Hl as ->.
    vm_compute in Hp. injection Hp as <-. right. split; [reflexivity|]. eexists _, _. reflexivity.
  - reflexivity.
  - vm_compute. lia.
  - vm_compute. lia.
  - exists a', files. split; [exact E|].
    specialize (H [] (Demo.host [Byte.x00]) (Demo.outputs [Byte.x00]) Demo.request ltac:(constructor) ltac:(constructor) eq_refl eq_refl).
    eexists. split; [exact H|]. split; reflexivity.
Defined.

Lemma checkpoint_create_atomic_witness :
  exists rsp h' a', @checkpoint_create json_ref Demo.wire Demo.bridge Demo.python Demo.surroundings Demo.request "c1"
      CreateCheckpointTier_Activation empty_arena (Demo.host [Byte.x0a]) = Some (rsp, h') /\
    h' = set_arena a' (Demo.host [Byte.x0a]) /\ implements a' (mkStore 2 ∅ ∅ []).
Proof.
  edestruct (@checkpoint_create_atomic json_ref Demo.wire Demo.bridge Demo.python Demo.surroundings (Demo.host [Byte.x0a]) empty_arena
    (mkStore 2 ∅ ∅ []) (Demo.outputs [Byte.x0a]) Demo.request "c1" CreateCheckpointTier_Activation) as (a' & Eh & I).
  - apply Demo.host_ready.
  - reflexivity.
  - reflexivity.
  - eexists. reflexivity.
  - do 2 eexists. exists a'. split; [reflexivity|]. split; [exact Eh|exact I].
Defined.

(** The generators' state is copied without a check of the slot's size: saved
    into a slot before an occupied one, it overwrites that slot's header and the
    other checkpoint is gone. *)
Lemma long_rng_overwrites_neighbour :
  exists a, run_ops arena_op empty_arena
      [OSave "c1" 3 demo_slot_header [Byte.x0a; Byte.x0b]; OSave "c2" 3 demo_slot_header [Byte.x0a; Byte.x0b]; OFree "c1"] =
      ([true; true; true], a) /\
    read_tensor a "c2" 3 = Some (demo_slot_header, [Byte.x0a; Byte.x0b]) /\
    exists a', @save_rng Demo.bridge "c3" (Ok (repeat Byte.xff 16)) a = Some a' /\ read_tensor a' "c2" 3 = None.
Proof. eexists. split; [vm_compute; reflexivity|]. split; [vm_compute; reflexivity|]. eexists. split; vm_compute; reflexivity. Qed.
