(* ===== verification/Replay.v ===== *)
(** * Replay: re-running a pass from a checkpoint

    [crates/rocket-surgeon-worker/src/dispatch.rs]: [handle_host_replay],
    [restore_checkpoint_for_replay], [run_replay_loop] and
    [check_divergence_at_boundary], over the pass of [Worker] and the
    checkpoints of [Host]. *)

From Stdlib Require Import ZArith Lia Ascii String SpecFloat.
From coqutil Require Import Byte.
From stdpp Require Import base gmap strings list fin_maps sets.
From S2P Require Import Prelude Float Winnow Grammar Protocol Messages Adapter Tick Kv Arena Spill Json Dispatch Worker WorkerSpec Host HostSpec.
Open Scope Z_scope.

Section Replay.
Context `{J : SerdeJson} {WW : WorkerWire} {W : Winnow} {B : PyBridge} {HB : HostBridge}.
Context (env : Surroundings).

(** The generators' state, then the activations; unlike a restore, a failure to
    restore the generators ends it. *)
Definition restore_checkpoint_for_replay (id : string) (infos : list (Z * nat * SlotHeader)) (containers : gmap Z string)
    (a : Arena) (outputs : Dict) (h : Host) : option (result string unit * Host) :=
  rng ← rng_bytes a id;
  let '(r, h) := match rng with
                 | Some bytes => let '(r, g) := restore_rng_state bytes (h_rng h) in (r, set_rng g h)
                 | None => (Ok tt, h)
                 end in
  match r with
  | Err e => Some (Err (py_text e), h)
  | Ok _ => '(r, outputs) ← restore_slots a id containers infos outputs; Some (r, set_outputs outputs h)
  end.

Definition add_divergence (d : Divergence) (ctx : ReplayContext) : ReplayContext :=
  mkReplayContext (rc_checkpoint_id ctx) (rc_verify ctx) (rc_deterministic ctx) (rc_cosine_threshold ctx) (rc_mre_threshold ctx)
    (rc_stop_at ctx) (rc_interventions ctx) (rc_divergences ctx ++ [d]) (rc_ticks_replayed ctx).

Definition divergence_at (s : WorkerState) (layer : Z) (canonical : string) (original_base_tick : Z) (cosine mre : f64) : Divergence :=
  mkDivergence (tick_id (w_tick_state s)) original_base_tick
    (family_of s +:+ ":0:" +:+ to_string layer +:+ ":" +:+ canonical +:+ ":output")%string cosine mre
    ("Divergence at layer " +:+ to_string layer +:+ ": cosine=" +:+ print_fixed 6 cosine +:+ ", MRE=" +:+ print_fixed 6 mre)%string.

(** The replayed output of a boundary layer against the saved one. *)
Definition check_divergence_at_boundary (s : WorkerState) (layer : Z) (canonical : string) (msg : Msg) (original_base_tick : Z)
    (ctx : ReplayContext) : result Fail ReplayContext :=
  if negb (bool_decide (layer ∈ checkpoint_layers (w_num_layers s))) then Ok ctx
  else match w_checkpoint_arena s with
  | None => Ok ctx
  | Some a =>
      match get_slot a (rc_checkpoint_id ctx) layer with
      | None => Err Panic
      | Some None => Ok ctx
      | Some (Some (ptr, header)) =>
          match msg_output msg with
          | Some (Some output) =>
              let len := Z.to_nat (sh_byte_len header) in
              if negb (in_arena a ptr len) then Err Panic
              else
                let? r := lift (compare_activations (slice (ptr + SLOT_HEADER_SIZE) len (region a)) (to_torch_str (sh_dtype header))
                                  (header_shape header) output (rc_cosine_threshold ctx) (rc_mre_threshold ctx)) in
                match r with
                | Some (cosine, mre) => Ok (add_divergence (divergence_at s layer canonical original_base_tick cosine mre) ctx)
                | None => Ok ctx
                end
          | _ => Ok ctx
          end
      end
  end.

(** The replacement a replay resumes the model with; here head targets are not
    taken apart. *)
Definition replay_interventions (s : WorkerState) (layer : Z) (canonical : string) (handle : Z) (recipes : list InterventionRecipe) (msg : Msg)
  : result Fail (option Tensor) :=
  match recipes, msg_output msg with
  | [], _ | _, None | _, Some None => Ok None
  | _, Some (Some output) =>
      let? (modified, fired) := apply_at s layer canonical handle output recipes in
      match fired with [] => Ok None | _ => Ok (Some modified) end
  end.

Record ReplayLoop := mkReplayLoop { rl_state : WorkerState; rl_ctx : ReplayContext; rl_ticks : Z }.

Definition replay_body (handle pre : Z) (l : ReplayLoop) : result Fail Next * ReplayLoop :=
  let s := rl_state l in
  match w_forward_pass s with
  | None => (Err Panic, l)
  | Some fp =>
      match fp_model fp (fp_resumes fp) with
      | Err e => (Err (Error e), l)
      | Ok msg =>
          let s := stash_tensor_output msg s in
          if bool_decide (msg_path msg = FORWARD_COMPLETE_SENTINEL)
          then (Ok Complete, mkReplayLoop (mark_complete s) (rl_ctx l) (rl_ticks l))
          else match lookup_component (msg_path msg) (msg_call_index msg) s with
          | Err e => (Err e, mkReplayLoop s (rl_ctx l) (rl_ticks l))
          | Ok (canonical, layer) =>
              let s := set_w_tick_state (advance canonical layer (msg_call_index msg) (w_tick_state s)) s in
              let ticks := u32_wrap (rl_ticks l + 1) in
              match (if rc_verify (rl_ctx l) && bool_decide (is_Some (msg_output msg))
                     then check_divergence_at_boundary s layer canonical msg pre (rl_ctx l) else Ok (rl_ctx l)) with
              | Err e => (Err e, mkReplayLoop s (rl_ctx l) ticks)
              | Ok ctx =>
                  if should_stop layer canonical ctx then (Ok Stop, mkReplayLoop (put_resume None s) ctx ticks)
                  else match replay_interventions s layer canonical handle (rc_interventions ctx) msg with
                       | Err e => (Err e, mkReplayLoop s ctx ticks)
                       | Ok t => (Ok Continue, mkReplayLoop (put_resume t s) ctx ticks)
                       end
              end
          end
      end
  end.

Fixpoint replay_loop (fuel : nat) (handle pre : Z) (l : ReplayLoop) : option (result Fail Next * ReplayLoop) :=
  match fuel with
  | O => None
  | S fuel =>
      match replay_body handle pre l with
      | (Ok Continue, l) => replay_loop fuel handle pre l
      | r => Some r
      end
  end.

Definition set_replay_of (tick : Z) (p : TickPosition) : TickPosition :=
  mkTickPosition (tp_tick_id p) (tp_direction p) (tp_rank p) (tp_layer p) (tp_component p) (tp_event p) (Some tick) (tp_phase p)
    (tp_token_position p) (tp_clock p).

Definition run_replay_loop (fuel : nat) (elapsed handle : Z) (start : result PyErr Model) (ctx : ReplayContext) (s : WorkerState)
  : option (result Fail HostReplayResponse * WorkerState) :=
  let pre := tick_id (w_tick_state s) in
  match ensure_forward_pass start (set_w_forward_pass None s) with
  | (Err e, s) => Some (Err e, s)
  | (Ok _, s) =>
      match replay_loop fuel handle pre (mkReplayLoop s ctx 0) with
      | None => None
      | Some (Err e, l) => Some (Err e, rl_state l)
      | Some (Ok _, l) =>
          let divergences := rc_divergences (rl_ctx l) in
          Some (Ok (mkHostReplayResponse (rl_ticks l) (set_replay_of pre (to_tick_position elapsed (w_tick_state (rl_state l))))
                      divergences (bool_decide (divergences = []))), rl_state l)
      end
  end.

(** [replay_ctx.deterministic] switches PyTorch's deterministic algorithms on
    around the loop; an error in the loop leaves them on. *)
Definition replay_in_mode (fuel : nat) (elapsed handle : Z) (start : result PyErr Model) (ctx : ReplayContext) (s : WorkerState)
  : option (result Fail HostReplayResponse * WorkerState) :=
  match (if rc_deterministic ctx then lift (use_deterministic_algorithms true) else Ok tt) with
  | Err e => Some (Err e, s)
  | Ok _ =>
      '(r, s) ← run_replay_loop fuel elapsed handle start ctx s;
      match r with
      | Err e => Some (Err e, s)
      | Ok resp =>
          match (if rc_deterministic ctx then lift (use_deterministic_algorithms false) else Ok tt) with
          | Err e => Some (Err e, s)
          | Ok _ => Some (Ok resp, s)
          end
      end
  end.

(** [None]: a panic, a copy outside the arena, or too little fuel. *)
Definition handle_host_replay (fuel : nat) (elapsed : Z) (start : result PyErr Model) (request : Request) (h : Host)
  : option (Response * Host) :=
  with_host_params request (fun r => Some (r, h)) (fun req =>
    let id := HostReplayRequest_checkpoint_id req in
    match w_model_handle (h_core h) with
    | None => Some (internal_error (req_id request) "No model loaded", h)
    | Some handle =>
        if negb (HostReplayRequest_model_handle req =? handle)
        then Some (handle_mismatch request handle (HostReplayRequest_model_handle req), h)
        else match w_checkpoint_arena (h_core h) with
        | None => Some (internal_error (req_id request) "No checkpoint arena", h)
        | Some a =>
            match slot_info_for_checkpoint a (iter env (index a)) id, w_last_outputs (h_core h) with
            | [], _ => Some (internal_error (req_id request) ("checkpoint " +:+ id +:+ " not found in arena")%string, h)
            | _, None => Some (internal_error (req_id request) "No captured activations", h)
            | infos, Some outputs =>
                let containers := build_layer_container_map (h_container_paths h) in
                '(r, h) ← restore_checkpoint_for_replay id infos containers a outputs h;
                match r with
                | Err e => Some (internal_error (req_id request) ("checkpoint restore for replay failed: " +:+ e)%string, h)
                | Ok _ =>
                    '(r, s) ← replay_in_mode fuel elapsed handle start (from_request req) (h_core h);
                    match r with
                    | Ok resp => Some (Response_success (req_id request) (to_value resp), set_core s h)
                    | Err (Error e) => Some (internal_error (req_id request) ("replay failed: " +:+ py_text e)%string, set_core s h)
                    | Err Panic => None
                    end
                end
            end
        end
    end).

(** ** What a replay does *)

(** A state without what a pass changes in it. *)
Definition setup (s : WorkerState) : WorkerState :=
  set_w_tick_state (TickState_new 0) (set_w_forward_pass None (set_w_last_outputs None s)).

Lemma stash_setup msg s : setup (stash_tensor_output msg s) = setup s.
Proof. unfold stash_tensor_output. destruct (w_last_outputs s); [|done]. by destruct (msg_output msg) as [[]|]. Qed.

Lemma put_setup t s : setup (put_resume t s) = setup s.
Proof. unfold put_resume. by destruct (w_forward_pass s). Qed.

Lemma setup_env s s' : setup s' = setup s -> same_env s s'.
Proof.
  intros H. split.
  - by apply (f_equal w_component_map) in H.
  - by apply (f_equal w_component_index) in H.
  - by apply (f_equal w_rank) in H.
  - by apply (f_equal w_active_probes) in H.
  - by apply (f_equal w_num_heads) in H.
Qed.

(** The comparison made at the tick of a message, when there is one: the saved
    activation of the tick's layer against the tick's own output. *)
Definition compared (s : WorkerState) (saved : string -> Z -> option (SlotHeader * list byte)) (ctx : ReplayContext) (msg : Msg)
  : option (result PyErr (option (f64 * f64))) :=
  let layer := snd (coord s (key msg)) in
  if negb (bool_decide (layer ∈ checkpoint_layers (w_num_layers s))) then None
  else match saved (rc_checkpoint_id ctx) layer, msg_output msg with
  | Some (header, bytes), Some (Some output) =>
      Some (compare_activations bytes (to_torch_str (sh_dtype header)) (header_shape header) output
              (rc_cosine_threshold ctx) (rc_mre_threshold ctx))
  | _, _ => None
  end.

(** The divergence it reports. *)
Definition diverged (s : WorkerState) (t : TickState) (saved : string -> Z -> option (SlotHeader * list byte)) (pre : Z)
    (ctx : ReplayContext) (msg : Msg) : option Divergence :=
  match compared s saved ctx msg with
  | Some (Ok (Some (cosine, mre))) =>
      Some (divergence_at (set_w_tick_state t s) (snd (coord s (key msg))) (fst (coord s (key msg))) pre cosine mre)
  | _ => None
  end.

(** ... and of all the messages in turn. *)
Fixpoint divergences_along (s : WorkerState) (t : TickState) (saved : string -> Z -> option (SlotHeader * list byte)) (pre : Z)
    (ctx : ReplayContext) (msgs : list Msg) : list Divergence :=
  match msgs with
  | [] => []
  | msg :: r =>
      let t := adv s t (key msg) in
      option_list (diverged s t saved pre ctx msg) ++ divergences_along s t saved pre ctx r
  end.

(** What the interventions answer to a message; at the stopping point they are
    not asked. *)
Definition replay_answer (s : WorkerState) (t : TickState) (handle : Z) (ctx : ReplayContext) (msg : Msg) : result Fail (option Tensor) :=
  let '(canonical, layer) := coord s (key msg) in
  if should_stop layer canonical ctx then Ok None
  else replay_interventions (set_w_tick_state t s) layer canonical handle (rc_interventions ctx) msg.

(** The first Python call that raises at the tick of a message: the comparison
    (when verification was asked for), then the interventions. *)
Definition tick_fails (s : WorkerState) (t : TickState) (handle : Z) (saved : string -> Z -> option (SlotHeader * list byte))
    (ctx : ReplayContext) (msg : Msg) : option Fail :=
  match (if rc_verify ctx then compared s saved ctx msg else None), replay_answer s t handle ctx msg with
  | Some (Err e), _ => Some (Error e)
  | _, Err f => Some f
  | _, Ok _ => None
  end.

(** A conversation with the model in which no call raises: each message is what
    the model delivers given the replacements so far, and is answered with its
    replacement. *)
Fixpoint conversation (s : WorkerState) (t : TickState) (handle : Z) (saved : string -> Z -> option (SlotHeader * list byte))
    (ctx : ReplayContext) (m : Model) (rs : list (option Tensor)) (msgs : list Msg) (rs' : list (option Tensor)) : Prop :=
  match msgs with
  | [] => rs' = rs
  | msg :: r =>
      let t := adv s t (key msg) in
      m rs = Ok msg /\ tick_fails s t handle saved ctx msg = None /\
      exists replacement, replay_answer s t handle ctx msg = Ok replacement /\
        conversation s t handle saved ctx m (rs ++ [replacement]) r rs'
  end.

(** The ticks up to the first one at the stopping point, or all of them. *)
Definition replay_extent (stop : string * Z -> bool) (ticks : list (string * Z)) (consumed : list (string * Z)) (complete : bool) : Prop :=
  if complete then consumed = ticks /\ Forall (fun k => stop k = false) ticks
  else exists before k after, ticks = before ++ k :: after /\ consumed = before ++ [k] /\
         Forall (fun k => stop k = false) before /\ stop k = true.

Definition stops_at (s : WorkerState) (ctx : ReplayContext) (k : string * Z) : bool :=
  should_stop (snd (coord s k)) (fst (coord s k)) ctx.

Definition saved_in (st : Store) (id : string) (layer : Z) : option (SlotHeader * list byte) := st_tensors st !! (id, layer).

(** The checkpoints in the worker's arena, as a store. *)
Definition holds (s : WorkerState) (st : Store) : Prop :=
  match w_checkpoint_arena s with Some a => implements a st | None => st_tensors st = ∅ end.

Lemma holds_setup s s' st : setup s' = setup s -> holds s st -> holds s' st.
Proof. intros H%(f_equal w_checkpoint_arena). cbn in H. unfold holds. by rewrite H. Qed.

Lemma check_divergence_spec s t msg pre ctx st :
  holds s st ->
  check_divergence_at_boundary (set_w_tick_state t s) (snd (coord s (key msg))) (fst (coord s (key msg))) msg pre ctx =
  match compared s (saved_in st) ctx msg with
  | Some (Err e) => Err (Error e)
  | _ => Ok (match diverged s t (saved_in st) pre ctx msg with Some d => add_divergence d ctx | None => ctx end)
  end.
Proof.
  intros Hst. unfold check_divergence_at_boundary, diverged, compared. destruct (coord s (key msg)) as [cn ly]. cbn [fst snd].
  change (w_num_layers (set_w_tick_state t s)) with (w_num_layers s). destruct (negb _); [done|].
  unfold holds in Hst. change (w_checkpoint_arena (set_w_tick_state t s)) with (w_checkpoint_arena s). unfold saved_in.
  destruct (w_checkpoint_arena s) as [a|]; [|by rewrite Hst, lookup_empty].
  destruct (st_tensors st !! (rc_checkpoint_id ctx, ly)) as [[h data]|] eqn:E.
  - destruct (get_slot_stored a st _ _ _ _ Hst E) as (ptr & -> & Hlen & Hin & Hdat). rewrite Hlen, Hin, Hdat. cbn [negb].
    destruct (msg_output msg) as [[output|]|]; [|done..].
    by destruct (compare_activations _ _ _ _ _ _) as [[[]|]|].
  - by rewrite (get_slot_absent a st _ _ Hst E).
Qed.

Definition push (ds : list Divergence) (ctx : ReplayContext) : ReplayContext :=
  mkReplayContext (rc_checkpoint_id ctx) (rc_verify ctx) (rc_deterministic ctx) (rc_cosine_threshold ctx) (rc_mre_threshold ctx)
    (rc_stop_at ctx) (rc_interventions ctx) (rc_divergences ctx ++ ds) (rc_ticks_replayed ctx).

Lemma push_nil ctx : push [] ctx = ctx.
Proof. unfold push. rewrite app_nil_r. by destruct ctx. Qed.

Lemma push_push ds ds' ctx : push ds' (push ds ctx) = push (ds ++ ds') ctx.
Proof. unfold push. cbn. by rewrite <- app_assoc. Qed.

(** Neither the pass of a state nor the divergences so far matter to the account. *)
Lemma compared_setup s s' saved ds ctx msg :
  setup s' = setup s -> compared s' saved (push ds ctx) msg = compared s saved ctx msg.
Proof.
  intros H. change (compared (setup s') saved ctx msg = compared (setup s) saved ctx msg). by rewrite H.
Qed.

Lemma diverged_setup s s' t saved pre ds ctx msg :
  setup s' = setup s -> diverged s' t saved pre (push ds ctx) msg = diverged s t saved pre ctx msg.
Proof.
  intros H. change (diverged (setup s') t saved pre ctx msg = diverged (setup s) t saved pre ctx msg). by rewrite H.
Qed.

Lemma replay_answer_setup s s' t handle ds ctx msg :
  setup s' = setup s -> replay_answer s' t handle (push ds ctx) msg = replay_answer s t handle ctx msg.
Proof.
  intros H. change (replay_answer (setup s') t handle ctx msg = replay_answer (setup s) t handle ctx msg). by rewrite H.
Qed.

Lemma tick_fails_setup s s' t handle saved ds ctx msg :
  setup s' = setup s -> tick_fails s' t handle saved (push ds ctx) msg = tick_fails s t handle saved ctx msg.
Proof.
  intros H. unfold tick_fails. change (rc_verify (push ds ctx)) with (rc_verify ctx).
  by rewrite (compared_setup s s'), (replay_answer_setup s s').
Qed.

Lemma adv_setup s s' t k : setup s' = setup s -> adv s' t k = adv s t k.
Proof. intros H. change (adv (setup s') t k = adv (setup s) t k). by rewrite H. Qed.

Lemma divergences_along_setup s s' t saved pre ds ctx msgs :
  setup s' = setup s -> divergences_along s' t saved pre (push ds ctx) msgs = divergences_along s t saved pre ctx msgs.
Proof.
  intros H. revert t. induction msgs as [|msg r IH]; intros t; [done|]. cbn [divergences_along]. cbv zeta.
  by rewrite (adv_setup s s'), (diverged_setup s s'), IH.
Qed.

Lemma conversation_setup s s' t handle saved ds ctx m rs msgs rs' :
  setup s' = setup s -> conversation s' t handle saved (push ds ctx) m rs msgs rs' -> conversation s t handle saved ctx m rs msgs rs'.
Proof.
  intros H. revert t rs. induction msgs as [|msg r IH]; intros t rs; [done|]. cbn [conversation]. cbv zeta.
  rewrite (adv_setup s s'), (tick_fails_setup s s'), (replay_answer_setup s s') by done.
  intros (Hm & Hf & x & Hx & Hc). split_and!; [done|done|]. exists x. split; [done|]. by apply IH.
Qed.

(** The check of a tick, made when verification was asked for and the message
    has an output. *)
Lemma tick_check s t msg pre ctx st :
  holds s st ->
  (if rc_verify ctx && bool_decide (is_Some (msg_output msg))
   then check_divergence_at_boundary (set_w_tick_state t s) (snd (coord s (key msg))) (fst (coord s (key msg))) msg pre ctx
   else Ok ctx) =
  match (if rc_verify ctx then compared s (saved_in st) ctx msg else None) with
  | Some (Err e) => Err (Error e)
  | _ => Ok (push (if rc_verify ctx then option_list (diverged s t (saved_in st) pre ctx msg) else []) ctx)
  end.
Proof.
  intros Hst. destruct (rc_verify ctx); cbn [andb]; [|by rewrite push_nil].
  case_bool_decide as Ho.
  - rewrite (check_divergence_spec s t msg pre ctx st Hst). unfold diverged.
    destruct (compared s (saved_in st) ctx msg) as [[[[c e]|]|]|]; cbn [option_list]; by rewrite ?push_nil.
  - assert (Hc : compared s (saved_in st) ctx msg = None).
    { unfold compared. destruct (msg_output msg); [destruct Ho; eauto|]. destruct (negb _); [done|]. by destruct (saved_in _ _ _) as [[]|]. }
    unfold diverged. rewrite Hc. cbn [option_list]. by rewrite push_nil.
Qed.

(** One turn of the loop on a tick. *)
Lemma replay_body_tick handle pre l m (rs : list (option Tensor)) k r st :
  w_forward_pass (rl_state l) = Some (mkForwardPassState m rs false) -> delivers m (List.length rs) (k :: r) ->
  index_ok (rl_state l) -> holds (rl_state l) st ->
  let s := rl_state l in
  let t := adv s (w_tick_state s) k in
  let ctx := rl_ctx l in
  exists msg r s' ctx', m rs = Ok msg /\ key msg = k /\
    replay_body handle pre l = (r, mkReplayLoop s' ctx' (u32_wrap (rl_ticks l + 1))) /\
    setup s' = setup s /\ w_tick_state s' = t /\
    match tick_fails s t handle (saved_in st) ctx msg with
    | Some f => r = Err f /\ w_forward_pass s' = Some (mkForwardPassState m rs false)
    | None =>
        r = Ok (if stops_at s ctx k then Stop else Continue) /\
        ctx' = push (if rc_verify ctx then option_list (diverged s t (saved_in st) pre ctx msg) else []) ctx /\
        exists x, replay_answer s t handle ctx msg = Ok x /\ w_forward_pass s' = Some (mkForwardPassState m (rs ++ [x]) false)
    end.
Proof.
  intros Hf Hd Hix Hst s t ctx. fold s in Hf, Hix, Hst.
  destruct (Hd rs 0%nat) as (msg & Hmsg & Hk & Hns); [lia|cbn; lia|]. cbn in Hk. exists msg.
  unfold replay_body. cbv zeta. fold s ctx. rewrite Hf. cbn [fp_model fp_resumes]. rewrite Hmsg.
  assert (Hp : msg_path msg = k.1 /\ msg_call_index msg = k.2) by (by rewrite <- Hk). destruct Hp as [Hp Hc].
  rewrite Hp, Hc, bool_decide_eq_false_2 by done.
  set (s1 := stash_tensor_output msg s). pose proof (stash_setup msg s) as E1. fold s1 in E1.
  pose proof (stash_tick msg s) as T1. pose proof (stash_pass msg s) as F1. fold s1 in T1, F1.
  rewrite (lookup_coord s1 k) by (eapply index_ok_env; [by apply setup_env|done]). rewrite (coord_env s s1) by (by apply setup_env).
  pose proof (tick_check s1 t msg pre ctx st (holds_setup s s1 st E1 Hst)) as Hck.
  pose proof (compared_setup s s1 (saved_in st) [] ctx msg E1) as Ecmp. rewrite push_nil in Ecmp. rewrite Ecmp in Hck.
  pose proof (diverged_setup s s1 t (saved_in st) pre [] ctx msg E1) as Edv. rewrite push_nil in Edv. rewrite Edv in Hck.
  rewrite (coord_env s s1 (key msg)) in Hck by (by apply setup_env).
  assert (Hkey : key msg = k) by (by rewrite <- Hk). rewrite Hkey in Hck.
  pose proof (replay_answer_setup s s1 t handle [] ctx msg E1) as Ers. rewrite push_nil in Ers.
  assert (Eans : replay_answer s t handle ctx msg =
    if should_stop (snd (coord s k)) (fst (coord s k)) ctx then Ok None
    else replay_interventions (set_w_tick_state t s1) (snd (coord s k)) (fst (coord s k)) handle (rc_interventions ctx) msg).
  { rewrite <- Ers. unfold replay_answer. rewrite Hkey, (coord_env s s1) by (by apply setup_env). by destruct (coord s k). }
  unfold stops_at. unfold tick_fails. rewrite Eans.
  destruct (coord s k) as [cn ly] eqn:Ec. cbn [fst snd] in *.
  assert (Et : advance cn ly k.2 (w_tick_state s1) = t) by (subst t; unfold adv; rewrite Ec, T1; done). rewrite Et.
  set (s2 := set_w_tick_state t s1) in *.
  assert (F2 : w_forward_pass s2 = Some (mkForwardPassState m rs false)) by (cbn; by rewrite F1).
  rewrite Hck.
  destruct (if rc_verify ctx then compared s (saved_in st) ctx msg else None) as [[o|e]|];
    [|eexists _, s2, _; by split_and!|].
  all: change (should_stop ly cn (push ?x ctx)) with (should_stop ly cn ctx); change (rc_interventions (push ?x ctx)) with (rc_interventions ctx).
  all: destruct (should_stop ly cn ctx);
    [|destruct (replay_interventions s2 ly cn handle (rc_interventions ctx) msg) as [x|f];
      [|eexists _, s2, _; by split_and!]].
  all: eexists _, (put_resume _ s2), _; split_and!; try done; try (by rewrite put_setup); try (by rewrite put_tick).
  all: eexists; split; [done|]; unfold put_resume; by rewrite F2.
Qed.

(** The completion message ends the loop. *)
Lemma replay_body_complete handle pre l m (rs : list (option Tensor)) :
  w_forward_pass (rl_state l) = Some (mkForwardPassState m rs false) -> delivers m (List.length rs) [] ->
  exists s', replay_body handle pre l = (Ok Complete, mkReplayLoop s' (rl_ctx l) (rl_ticks l)) /\
    setup s' = setup (rl_state l) /\ w_tick_state s' = w_tick_state (rl_state l) /\
    w_forward_pass s' = Some (mkForwardPassState m rs true).
Proof.
  intros Hf Hd. destruct (Hd rs 0%nat) as (msg & Hmsg & Hp); [lia|done|]. cbn in Hp.
  unfold replay_body. rewrite Hf. cbn [fp_model fp_resumes]. rewrite Hmsg, bool_decide_eq_true_2 by done.
  pose proof (stash_pass msg (rl_state l)) as F1. rewrite Hf in F1.
  eexists. split; [reflexivity|]. unfold mark_complete. rewrite F1. cbn.
  split_and!; [apply stash_setup|apply stash_tick|done].
Qed.

Lemma replay_extent_cons stop k r consumed complete :
  stop k = false -> replay_extent stop r consumed complete -> replay_extent stop (k :: r) (k :: consumed) complete.
Proof.
  intros Hk. destruct complete; cbn.
  - intros [-> H]. split; [done|by constructor].
  - intros (before & k' & after & -> & -> & H & Hs). exists (k :: before), k', after. split_and!; [done|done|by constructor|done].
Qed.

(** The ticks up to a failing one, none of them at the stopping point. *)
Definition replay_failure (s : WorkerState) (t : TickState) (handle : Z) (st : Store) (ctx : ReplayContext) (m : Model)
    (ticks : list (string * Z)) (msgs : list Msg) (rs' : list (option Tensor)) (f : Fail) (s' : WorkerState) : Prop :=
  exists msg rest,
    ticks = (key <$> msgs) ++ key msg :: rest /\
    Forall (fun k => stops_at s ctx k = false) (key <$> msgs) /\
    m rs' = Ok msg /\
    tick_fails s (foldl (adv s) t ((key <$> msgs) ++ [key msg])) handle (saved_in st) ctx msg = Some f /\
    w_tick_state s' = foldl (adv s) t ((key <$> msgs) ++ [key msg]) /\
    w_forward_pass s' = Some (mkForwardPassState m rs' false).

Lemma stops_at_setup s s' ds ctx k : setup s' = setup s -> stops_at s' (push ds ctx) k = stops_at s ctx k.
Proof. intros H. change (stops_at (setup s') ctx k = stops_at (setup s) ctx k). by rewrite H. Qed.

Lemma replay_extent_ext stop stop' ticks consumed complete :
  (forall k, stop' k = stop k) -> replay_extent stop' ticks consumed complete -> replay_extent stop ticks consumed complete.
Proof.
  intros Hs. destruct complete; cbn.
  - intros [E H]. split; [done|]. eapply Forall_impl; [exact H|]. intros x. cbn. by rewrite Hs.
  - intros (b & k' & af & E & E' & H & Hk). exists b, k', af. rewrite Hs in Hk. split_and!; try done.
    eapply Forall_impl; [exact H|]. intros x. cbn. by rewrite Hs.
Qed.

Lemma replay_failure_cons s s1 t handle st ds ctx m ticks msg0 msgs rs' f s' :
  setup s1 = setup s -> stops_at s ctx (key msg0) = false ->
  replay_failure s1 (adv s t (key msg0)) handle st (push ds ctx) m ticks msgs rs' f s' ->
  replay_failure s t handle st ctx m (key msg0 :: ticks) (msg0 :: msgs) rs' f s'.
Proof.
  intros Es Hs (msg & rest & -> & Hno & Hm & Hf & Ht & Hp). exists msg, rest.
  rewrite (foldl_adv_env s) in Hf, Ht by (by apply setup_env). rewrite (tick_fails_setup s) in Hf by done.
  split_and!; try done. rewrite fmap_cons. constructor; [done|].
  eapply Forall_impl; [exact Hno|]. intros k. cbn. by rewrite (stops_at_setup s).
Qed.

Lemma replay_loop_run handle pre ticks fuel l m (rs : list (option Tensor)) st :
  w_forward_pass (rl_state l) = Some (mkForwardPassState m rs false) -> delivers m (List.length rs) ticks ->
  index_ok (rl_state l) -> holds (rl_state l) st -> (List.length ticks < fuel)%nat ->
  0 <= rl_ticks l -> rl_ticks l + Z.of_nat (List.length ticks) < 2 ^ 32 ->
  let s := rl_state l in
  let ctx := rl_ctx l in
  let t0 := w_tick_state s in
  exists (msgs : list Msg) (rs' : list (option Tensor)) (r : result Fail Next) (l' : ReplayLoop),
    replay_loop fuel handle pre l = Some (r, l') /\ setup (rl_state l') = setup s /\
    conversation s t0 handle (saved_in st) ctx m rs msgs rs' /\
    match r with
    | Err f => replay_failure s t0 handle st ctx m ticks msgs rs' f (rl_state l')
    | Ok next => exists complete : bool, next = (if complete then Complete else Stop) /\
        replay_extent (stops_at s ctx) ticks (key <$> msgs) complete /\
        rl_ctx l' = push (if rc_verify ctx then divergences_along s t0 (saved_in st) pre ctx msgs else []) ctx /\
        rl_ticks l' = rl_ticks l + Z.of_nat (List.length msgs) /\
        w_tick_state (rl_state l') = foldl (adv s) t0 (key <$> msgs) /\
        w_forward_pass (rl_state l') = Some (mkForwardPassState m rs' complete)
    end.
Proof.
  revert fuel l rs. induction ticks as [|k r IH]; intros fuel l rs Hf Hd Hix Hst Hfuel H0 Hlen s ctx t0;
    (destruct fuel as [|fuel]; [cbn in Hfuel; lia|]); cbn [replay_loop].
  - destruct (replay_body_complete handle pre l m rs Hf Hd) as (s' & -> & Es & Ts & Fs).
    eexists [], rs, _, _. split; [reflexivity|]. cbn. split_and!; try done. exists true.
    rewrite Z.add_0_r. split_and!; try done. fold ctx. destruct (rc_verify ctx); by rewrite push_nil.
  - destruct (replay_body_tick handle pre l m rs k r st Hf Hd Hix Hst) as (msg & res & s1 & ctx1 & Hmsg & Hk & -> & Es & Ts & Hres).
    fold s ctx in Es, Ts, Hres |- *. fold t0 in Ts, Hres. rewrite <- Hk in *. cbn [List.length] in *.
    assert (Hw : u32_wrap (rl_ticks l + 1) = rl_ticks l + 1) by (unfold u32_wrap; apply Z.mod_small; lia). rewrite Hw.
    destruct (tick_fails s (adv s t0 (key msg)) handle (saved_in st) ctx msg) as [f|] eqn:Efail.
    { destruct Hres as [-> Fs]. eexists [], rs, _, _. split; [reflexivity|]. split_and!; try done. by exists msg, r. }
    destruct Hres as (-> & -> & x & Hx & Fs). destruct (stops_at s ctx (key msg)) eqn:Estop.
    + eexists [msg], (rs ++ [x]), _, _. split; [reflexivity|]. cbn. split_and!; try done.
      { by exists x. }
      exists false. rewrite app_nil_r. split_and!; try done. exists [], (key msg), r. done.
    + set (ds := if rc_verify ctx then option_list _ else []).
      destruct (IH fuel (mkReplayLoop s1 (push ds ctx) (rl_ticks l + 1)) (rs ++ [x]))
        as (msgs & rs' & res & l' & -> & Es' & Hconv & Hres); cbn [rl_state rl_ticks]; try done; try lia.
      { by eapply delivers_tail. }
      { eapply index_ok_env; [by apply setup_env|done]. }
      { by eapply holds_setup. }
      cbn [rl_state rl_ctx rl_ticks] in *. rewrite Ts in Hconv, Hres. exists (msg :: msgs), rs', res, l'. split; [reflexivity|]. split; [by rewrite Es'|].
      split. { cbn [conversation]. split_and!; try done. exists x. split; [done|]. by eapply conversation_setup. }
      destruct res as [next|f]; [|by eapply replay_failure_cons].
      destruct Hres as (complete & -> & Hext & Hctx & Hn & Ht & Hfp). exists complete. split; [done|]. split_and!.
      * rewrite fmap_cons. apply replay_extent_cons; [done|]. eapply replay_extent_ext; [|exact Hext]. intros k'. by apply stops_at_setup.
      * rewrite Hctx, push_push. f_equal. change (rc_verify (push ds ctx)) with (rc_verify ctx).
        rewrite (divergences_along_setup s s1) by done. subst ds. by destruct (rc_verify ctx).
      * rewrite Hn. cbn [List.length]. lia.
      * rewrite Ht. cbn. apply foldl_adv_env. by apply setup_env.
      * done.
Qed.

(** C11: a replay runs a fresh pass of the model up to and including the first
    tick at the requested stopping point, or to its end.  The model (one that
    delivers fewer than 2^32 ticks and then completes, whatever it is resumed
    with; the worker's index belongs to its component map, its arena holds the
    store [st], and no divergence is recorded yet) is told the replacements the interventions give (none at the stopping
    point); the response counts the ticks, places the cursor after them -
    counting on from where the worker stood before, which it names as the
    replayed tick - and, when verification was asked for, reports in order every
    tick of a checkpoint layer whose own output differs from the activation
    saved for that layer; [verified] says that there is no such report.  When a
    comparison or an intervention raises (or panics), the replay ends there with
    that failure instead, the cursor on the failing tick and the pass suspended
    there, nothing having been put for it: it fails only so. *)
Theorem replay_correct (fuel : nat) (elapsed handle : Z) (m : Model) (ctx : ReplayContext) (s : WorkerState)
    (ticks : list (string * Z)) (st : Store)
    (Hd : delivers m 0 ticks) (Hix : index_ok s) (Hst : holds s st)
    (Hfuel : (List.length ticks < fuel)%nat) (Hlen : Z.of_nat (List.length ticks) < 2 ^ 32) (Hnew : rc_divergences ctx = []) :
  let t0 := w_tick_state s in
  exists (msgs : list Msg) (rs' : list (option Tensor)) (r : result Fail HostReplayResponse) (s' : WorkerState),
    run_replay_loop fuel elapsed handle (Ok m) ctx s = Some (r, s') /\
    conversation s t0 handle (saved_in st) ctx m [] msgs rs' /\
    match r with
    | Err f => replay_failure s t0 handle st ctx m ticks msgs rs' f s'
    | Ok resp => exists complete : bool,
        replay_extent (stops_at s ctx) ticks (key <$> msgs) complete /\
        w_forward_pass s' = Some (mkForwardPassState m rs' complete) /\
        w_tick_state s' = foldl (adv s) t0 (key <$> msgs) /\
        HostReplayResponse_ticks_replayed resp = Z.of_nat (List.length msgs) /\
        HostReplayResponse_stopped_at resp = set_replay_of (tick_id t0) (to_tick_position elapsed (w_tick_state s')) /\
        HostReplayResponse_divergences resp = (if rc_verify ctx then divergences_along s t0 (saved_in st) (tick_id t0) ctx msgs else []) /\
        HostReplayResponse_verified resp = bool_decide (HostReplayResponse_divergences resp = [])
    end.
Proof.
  intros t0. unfold run_replay_loop.
  set (s1 := set_w_forward_pass (Some (mkForwardPassState m [] false)) (set_w_last_outputs (Some ∅) (set_w_forward_pass None s))).
  change (ensure_forward_pass (Ok m) (set_w_forward_pass None s)) with (Ok (E := Fail) tt, s1).
  destruct (replay_loop_run handle (tick_id t0) ticks fuel (mkReplayLoop s1 ctx 0) m [] st)
    as (msgs & rs' & res & l' & Hrun & Es & Hconv & Hres); cbn [rl_state rl_ticks rl_ctx]; try done.
  cbn [rl_state rl_ctx rl_ticks] in *. fold t0. rewrite Hrun. change (w_tick_state s1) with t0 in *.
  assert (Es1 : setup s1 = setup s) by done.
  pose proof (conversation_setup s s1 t0 handle (saved_in st) [] ctx m [] msgs rs' Es1) as Hcs. rewrite push_nil in Hcs. apply Hcs in Hconv.
  exists msgs, rs'. destruct res as [next|f]; do 2 eexists; (split; [reflexivity|]); (split; [exact Hconv|]).
  - destruct Hres as (complete & -> & Hext & Hctx & Hn & Ht & Hfp). exists complete.
    cbn [HostReplayResponse_ticks_replayed HostReplayResponse_stopped_at HostReplayResponse_divergences HostReplayResponse_verified].
    pose proof (divergences_along_setup s s1 t0 (saved_in st) (tick_id t0) [] ctx msgs Es1) as Hdv. rewrite push_nil in Hdv. rewrite Hdv in Hctx.
    split_and!; try done; rewrite Hctx; cbn [push rc_divergences]; by rewrite Hnew.
  - destruct Hres as (msg & rest & Hticks & Hno & Hm & Hf & Ht & Hfp). exists msg, rest.
    pose proof (tick_fails_setup s s1 (foldl (adv s1) t0 ((key <$> msgs) ++ [key msg])) handle (saved_in st) [] ctx msg Es1) as Htf.
    rewrite push_nil in Htf. rewrite Htf in Hf. by split_and!.
Qed.

End Replay.

(** ** Replays of concrete workers *)

Module Demo.
Import WorkerSpec.Demo.

(** A library whose comparison is [cmp]. *)
Definition library (cmp : Z -> result unit (option (f64 * f64))) : PyBridge := {|
  Tensor := Z;
  PyErr := unit;
  tensor_clone := fun t => Ok t;
  tensor_shape := fun _ => Ok [1; 8];
  tensor_getitem := fun t _ _ => Ok t;
  tensor_setitem := fun _ _ _ v => Ok v;
  apply_interventions_at_point := fun t rs _ _ _ _ _ _ _ => Ok (t + 1, omap ir_id rs);
  compare_activations := fun _ _ _ t _ _ => cmp t
|}.

(** The comparison reports every tensor but 7. *)
Definition strict (t : Z) : result unit (option (f64 * f64)) :=
  Ok (if t =? 7 then None else Some (S754_zero false, S754_zero false)).

(** The comparison always raises, as it does on a dtype it does not know. *)
Definition raising (t : Z) : result unit (option (f64 * f64)) := Err tt.

(** No output is 7. *)
Definition model cmp : @Model (library cmp) := fun rs =>
  match ticks !! List.length rs with
  | Some (p, ci) => Ok (@mkMsg (library cmp) p ci (Some (Some 0)) [])
  | None => Ok (@mkMsg (library cmp) FORWARD_COMPLETE_SENTINEL 0 None [])
  end.

Definition saves : list op := [OSave "c1" 1 demo_slot_header [Byte.x0a; Byte.x0b]].
Definition store : Store := (run_ops spec_op (mkStore 2 ∅ ∅ []) saves).2.

Definition worker cmp : @WorkerState (library cmp) :=
  @mkWorkerState (library cmp) (Some map) (build_component_index map) (Some 1) 0 3 2 (TickState_new 0) None None []
    (Some (run_ops arena_op empty_arena saves).2).

Definition context : ReplayContext :=
  mkReplayContext "c1" true false (S754_zero false) (S754_zero false) (Some (mkReplayStopAt 1 "ln1")) [] [] 0.

Lemma model_delivers cmp : @delivers (library cmp) (model cmp) 0 ticks.
Proof.
  intros rs j Hl Hj. rewrite Nat.add_0_l in Hl. subst j. unfold model. destruct (ticks !! List.length rs) as [[p ci]|] eqn:E.
  - eexists. split; [reflexivity|]. split; [done|]. cbn. intros ->.
    apply list_elem_of_lookup_2, list_elem_of_In in E. vm_compute in E. intuition discriminate.
  - eexists. split; reflexivity.
Qed.

Lemma held cmp : @holds (library cmp) (worker cmp) store.
Proof.
  change (implements (run_ops arena_op empty_arena saves).2 store).
  apply (run_implements saves _ _ empty_arena_implements). apply Forall_singleton. exact demo_tensor_ok.
Qed.

End Demo.

(** The replay stops in the checkpointed layer and reports its first tick; with
    a library that cannot compare, it ends at the first tick it compares. *)
Lemma replay_correct_witness :
  (exists resp s', @run_replay_loop (Demo.library Demo.strict) 10 0 1 (Ok (Demo.model _)) Demo.context (Demo.worker _) = Some (Ok resp, s') /\
    HostReplayResponse_ticks_replayed resp = 3 /\ HostReplayResponse_verified resp = false) /\
  (exists s', @run_replay_loop (Demo.library Demo.raising) 10 0 1 (Ok (Demo.model _)) Demo.context (Demo.worker _) = Some (Err (Error (B := Demo.library Demo.raising) tt), s') /\
    tick_id (w_tick_state s') = 3).
Proof.
  split.
  - destruct (@replay_correct (Demo.library Demo.strict) 10 0 1 (Demo.model _) Demo.context (Demo.worker _) WorkerSpec.Demo.ticks Demo.store)
      as (msgs & rs' & r & s' & Hrun & _ & Hr);
      [apply Demo.model_delivers|by apply (build_index_ok (Demo.worker _) WorkerSpec.Demo.map)|apply Demo.held|cbn; lia|cbn; lia|done|].
    assert (E : match @run_replay_loop (Demo.library Demo.strict) 10 0 1 (Ok (Demo.model _)) Demo.context (Demo.worker _) with
                | Some (Ok resp, _) => HostReplayResponse_ticks_replayed resp = 3 /\ HostReplayResponse_verified resp = false | _ => False end)
      by (vm_compute; split; reflexivity).
    rewrite Hrun in E. destruct r as [resp|f]; [|destruct E]. exists resp, s'. split; [exact Hrun|exact E].
  - destruct (@replay_correct (Demo.library Demo.raising) 10 0 1 (Demo.model _) Demo.context (Demo.worker _) WorkerSpec.Demo.ticks Demo.store)
      as (msgs & rs' & r & s' & Hrun & _ & Hr);
      [apply Demo.model_delivers|by apply (build_index_ok (Demo.worker _) WorkerSpec.Demo.map)|apply Demo.held|cbn; lia|cbn; lia|done|].
    assert (E : match @run_replay_loop (Demo.library Demo.raising) 10 0 1 (Ok (Demo.model _)) Demo.context (Demo.worker _) with
                | Some (Err (Error tt), s) => tick_id (w_tick_state s) = 3 | _ => False end)
      by (vm_compute; reflexivity).
    rewrite Hrun in E. destruct r as [resp|[|[]]]; [destruct E..|]. exists s'. split; [exact Hrun|exact E].
Defined.
