(* ===== verification/HostInspect.v ===== *)
(** * HostInspect: which tensors the worker sends, and how

    [crates/rocket-surgeon-worker/src/capture.rs] and the handler of
    [_host/inspect] in [dispatch.rs]: the components a target selects, the head
    slice of an attention tensor, and the publication of each tensor in the
    shared-memory ring, with the tensor inline as base64 when the ring does not
    take it.  [blake3], [base64] and the tensor functions of [bridge.rs] are
    parameters. *)

From Stdlib Require Import ZArith Lia Ascii String.
From coqutil Require Import Byte.
From stdpp Require Import base gmap strings list fin_maps sets.
From S2P Require Import Prelude Winnow Grammar Protocol Messages Frame Shm RingConc Adapter Tick Kv Arena Json Dispatch Worker Host.
Open Scope Z_scope.

(** ** Selection *)

Inductive CaptureMode := CaptureMode_None | CaptureMode_Summary | CaptureMode_Full.

Definition capture_mode (active_probes_count : nat) : CaptureMode :=
  if Nat.eqb active_probes_count 0 then CaptureMode_None else CaptureMode_Summary.

Section Selection.
Context {W : Winnow}.

Definition should_capture (map : ComponentMap) (module_path : string) (call_index : Z)
    (active_probes : list (ProbeDefinition * ProbePoint)) : bool :=
  match List.find (fun c => bool_decide (mc_module_path c = module_path) && (mc_call_index c =? call_index)) (cm_components map) with
  | None => false
  | Some c =>
      match parse_point (mc_probe_point c) with
      | None => false
      | Some target => existsb (fun dp => matches (snd dp) target) active_probes
      end
  end.

Definition strip_bracket_suffix (s : list ascii) : list ascii :=
  match cut_at "["%char s with Some (a, _) => a | None => s end.

(** The six segments of a target; five get a wildcard call index. *)
Definition normalize_target (target : string) : string :=
  match split_on ":"%char (chars target) with
  | [s0; s1; s2; comp; s4] => text (join_on ":"%char [s0; s1; s2; strip_bracket_suffix comp; ["*"%char]; s4])
  | _ => target
  end.

Definition probe_matches_target (probe_point target : string) : bool :=
  match parse_point probe_point with
  | None => false
  | Some point =>
      match parse_point (normalize_target target) with
      | None => false
      | Some tgt => matches point tgt
      end
  end.

End Selection.

(** ** Tensors of a response *)

Class InspectBridge `{B : PyBridge} := {
  tensor_contiguous : Tensor -> result PyErr Tensor;
  tensor_to_bytes : Tensor -> result PyErr (list byte);
  get_tensor_dtype : Tensor -> result PyErr string;
  get_tensor_device : Tensor -> result PyErr string;
  (** [blake3::hash(..).to_hex()] *)
  tensor_hash : list byte -> string;
  (** [base64::engine::general_purpose::STANDARD.encode] *)
  base64_encode : list byte -> string
}.

Section Inspect.
Context `{J : SerdeJson} {WW : WorkerWire} {W : Winnow} {B : PyBridge} {HB : HostBridge} {IB : InspectBridge}.

(** The ring the worker produces to, and the shared memory of the system. *)
Record Node := mkNode {
  n_host : Host;
  n_ring : option DoomRingProducer;
  n_world : World
}.

Definition ring_bytes (p : DoomRingProducer) (w : World) : mem := default [] (objects w !! r_name (p_region p)).

(** [let mut shape_arr = [0u32; 8]] filled from the front *)
Definition frame_shape (shape : list Z) : list Z :=
  let dims := u32_wrap <$> take 8 shape in dims ++ repeat 0 (8 - List.length dims).

Definition frame_header (layer : Z) (shape : list Z) (bytes : list byte) (maketic : Z) : list byte :=
  serialize_probe_frame 0 layer 0 0 (Z.min (Z.of_nat (List.length shape)) 8) (frame_shape shape) 0 0
    (Z.of_nat (List.length bytes)) 0 (Z.land maketic 0xFFFFFFFF).

(** What Python says of a tensor. *)
Record Captured := mkCaptured {
  cp_bytes : list byte;
  cp_shape : list Z;
  cp_dtype : string;
  cp_device : string
}.

Definition layer_of (c : MappedComponent) : Z := default 0 (mc_layer_index c).

(** [None]: the [assert_eq!] of [publish]. *)
Definition try_shm_publish (c : MappedComponent) (t : Captured) (ring : option DoomRingProducer) (w : World)
  : option (option CapturedTensor * option DoomRingProducer * World) :=
  match ring with
  | None => Some (None, None, w)
  | Some p =>
      '(r, maketic, m) ← publish (p_config p) (p_maketic p) (frame_header (layer_of c) (cp_shape t) (cp_bytes t) (p_maketic p)) (cp_bytes t) (ring_bytes p w);
      let p' := mkProducer (p_region p) (p_config p) maketic in
      let w := mkWorld (<[r_name (p_region p) := m]> (objects w)) (open_fds w) in
      Some (match r with
            | Ok slot_maketic =>
                Some (mkCapturedTensor (mc_module_path c) (mc_canonical c) (layer_of c) (cp_shape t) (cp_dtype t) (cp_device t)
                  (tensor_hash (cp_bytes t)) (Some (r_name (p_region p))) (Some (slot_offset (p_config p) slot_maketic))
                  (Some (Z.of_nat (List.length (cp_bytes t)))) None)
            | Err _ => None
            end, Some p', w)
  end.

Definition inline_tensor (c : MappedComponent) (t : Captured) : CapturedTensor :=
  mkCapturedTensor (mc_module_path c) (mc_canonical c) (layer_of c) (cp_shape t) (cp_dtype t) (cp_device t)
    (tensor_hash (cp_bytes t)) None None None (Some (base64_encode (cp_bytes t))).

(** The columns of one attention head; a panic is [Err Panic]. *)
Definition head_slice (num_heads head_idx : Z) (t : Tensor) : result Fail Tensor :=
  let? shape := lift (tensor_shape t) in
  match last shape with
  | None => Err Panic
  | Some d =>
      if num_heads =? 0 then Err Panic
      else
        let head_dim := u32_wrap d / num_heads in
        let start := u32_wrap (head_idx * head_dim) in
        let? part := lift (tensor_getitem t start (u32_wrap (start + head_dim))) in
        lift (tensor_contiguous part)
  end.

Definition inspect_tensor (num_heads : Z) (head_index : option Z) (c : MappedComponent) (t : Tensor) : result Fail Captured :=
  let? t := match head_index with
            | Some hi => if bool_decide (mc_canonical c ∈ ATTENTION_HEAD_COMPONENTS) then head_slice num_heads hi t else Ok t
            | None => Ok t
            end in
  let? bytes := lift (tensor_to_bytes t) in
  let? shape := lift (tensor_shape t) in
  let? dtype := lift (get_tensor_dtype t) in
  let? device := lift (get_tensor_device t) in
  Ok (mkCaptured bytes shape dtype device).

(** The loop of [collect_tensors]; what was published before an error stays. *)
Fixpoint collect (num_heads : Z) (head_index : option Z) (outputs : Dict) (comps : list MappedComponent)
    (ring : option DoomRingProducer) (w : World) (acc : list CapturedTensor)
  : result Fail (list CapturedTensor) * option DoomRingProducer * World :=
  match comps with
  | [] => (Ok acc, ring, w)
  | c :: rest =>
      match outputs !! (mc_module_path c, mc_call_index c) with
      | None => collect num_heads head_index outputs rest ring w acc
      | Some t =>
          match inspect_tensor num_heads head_index c t with
          | Err e => (Err e, ring, w)
          | Ok t =>
              match try_shm_publish c t ring w with
              | None => (Err Panic, ring, w)
              | Some (ct, ring, w) => collect num_heads head_index outputs rest ring w (acc ++ [default (inline_tensor c t) ct])
              end
          end
      end
  end.

Definition collect_tensors (comps : list MappedComponent) (head_index : option Z) (n : Node)
  : result Fail (list CapturedTensor) * Node :=
  match w_last_outputs (h_core (n_host n)) with
  | None => (Ok [], n)
  | Some outputs =>
      let '(r, ring, w) := collect (w_num_heads (h_core (n_host n))) head_index outputs comps (n_ring n) (n_world n) [] in
      (r, mkNode (n_host n) ring w)
  end.

Definition matched_components (target : string) (map : ComponentMap) : list MappedComponent :=
  List.filter (fun c => probe_matches_target (mc_probe_point c) target) (cm_components map).

(** [None] is a panic. *)
Definition handle_host_inspect (request : Request) (n : Node) : option (Response * Node) :=
  with_host_params request (fun r => Some (r, n)) (fun req =>
    let core := h_core (n_host n) in
    let target := HostInspectRequest_target req in
    match w_model_handle core with
    | None => Some (internal_error (req_id request) "No model loaded", n)
    | Some handle =>
        if negb (HostInspectRequest_model_handle req =? handle)
        then Some (handle_mismatch request handle (HostInspectRequest_model_handle req), n)
        else match w_component_map core with
        | None => Some (internal_error (req_id request) "No component map available", n)
        | Some map =>
            match matched_components target map with
            | [] => Some (error_response (req_id request)
                      (ErrorData_new ErrorCode_InvalidTarget ("No components match target '" +:+ target +:+ "'")%string), n)
            | comps =>
                head_index ← extract_head_index target;
                match collect_tensors comps (snd <$> head_index) n with
                | (Ok tensors, n) => Some (Response_success (req_id request) (to_value (mkHostInspectResponse tensors)), n)
                | (Err (Error e), n) => Some (internal_error (req_id request) ("inspect failed: " +:+ py_text e)%string, n)
                | (Err Panic, _) => None
                end
            end
        end
    end).

End Inspect.
