(* ===== verification/HostInspectSpec.v ===== *)
(** * HostInspectSpec: tensors reach the daemon

    The worker's half of an inspection ([HostInspect]) put together with the
    ring ([RingConc]) and the daemon's half ([InspectSpec]): every selected
    tensor arrives with exactly its bytes, through the ring while it has room
    and inline otherwise. *)

From Stdlib Require Import ZArith Lia Ascii String.
From coqutil Require Import Byte.
From stdpp Require Import base gmap strings list fin_maps sets.
From S2P Require Import Prelude Winnow Grammar Protocol Messages Frame Shm RingConc Adapter Tick Kv Arena Json Dispatch InspectSpec Worker Host HostSpec HostInspect.
Open Scope Z_scope.

(** ** Frames *)

Lemma length_frame_shape shape : List.length (frame_shape shape) = MAX_DIMS.
Proof. unfold frame_shape. rewrite length_app, repeat_length, length_fmap, length_take. unfold MAX_DIMS. lia. Qed.

Definition header_of (layer : Z) (shape : list Z) (bytes : list byte) (maketic : Z) : ProbeFrameHeader :=
  mkProbeFrameHeader 0 layer 0 0 (Z.min (Z.of_nat (List.length shape)) 8) (frame_shape shape) 0 0
    (Z.of_nat (List.length bytes)) 0 (Z.land maketic 0xFFFFFFFF).

Lemma frame_header_framed c layer shape bytes mt :
  config_ok c -> Z.of_nat (List.length bytes) <= slot_data_capacity c ->
  well_framed c mt (frame_header layer shape bytes mt, bytes).
Proof.
  intros Hc Hlen. change (frame_header layer shape bytes mt) with (serialize (header_of layer shape bytes mt)).
  pose proof (length_frame_shape shape) as Hs.
  assert (Hf : forall i o n z, header_writes (header_of layer shape bytes mt) !! i = Some (o, to_le_bytes n z) ->
    Nat.leb (o + n) HEADER_SIZE = true -> fits (Z.of_nat n * 8) z -> field (serialize (header_of layer shape bytes mt)) o n = z).
  { intros i o n z Hi Ho Hz. rewrite <- (app_nil_r (serialize _)). by eapply field_serialize. }
  assert (Hl : List.length (serialize (header_of layer shape bytes mt)) = HEADER_SIZE)
    by (unfold serialize; by rewrite length_apply_writes; [|apply header_layout_ok]).
  set (data := serialize _) in *. clearbody data.
  destruct (shape_8 _ Hs) as (x1 & x2 & x3 & x4 & x5 & x6 & x7 & x8 & E).
  unfold header_writes, header_of in Hf. cbn [pfh_rank pfh_layer pfh_comp_id pfh_dtype pfh_ndim pfh_shape pfh_tick_id pfh_data_off
    pfh_size pfh_flags pfh_generation] in Hf. rewrite E in Hf. cbn [shape_writes imap app] in Hf.
  assert (Hcap : slot_data_capacity c < 2 ^ 64).
  { rewrite (slot_data_capacity_eq c Hc). pose proof (cfg_total c Hc). pose proof (backuptics_pos c Hc). pose proof (cfg_slot c Hc).
    unfold HEADER, CONTROL_SIZE, U64_MAX in *. nia. }
  split_and!; cbn [fst snd].
  - done.
  - done.
  - refine (Hf 15%nat OFFSET_SIZE 8%nat _ eq_refl eq_refl _). unfold fits. change (Z.of_nat 8 * 8) with 64. lia.
  - refine (Hf 17%nat OFFSET_GENERATION 4%nat _ eq_refl eq_refl _). unfold fits. change (Z.of_nat 4 * 8) with 32.
    change 0xFFFFFFFF with (Z.ones 32). rewrite Z.land_ones by lia. apply Z.mod_pos_bound. lia.
Qed.

(** ** One tensor *)

Section Transport.
Context `{J : SerdeJson} {WW : WorkerWire} {W : Winnow} {B : PyBridge} {HB : HostBridge} {IB : InspectBridge}.

(** The ring between calls: the producer's counter, the daemon's cursor [nt]
    and the frames published so far.  A region that is mapped has a size that
    [off_t] can express. *)
Record ring_at (p : DoomRingProducer) (w : World) (nt : Z) (pub : list frame) : Prop := {
  ra_config : config_ok (p_config p);
  ra_mapped : region_size (p_config p) <= ISIZE_MAX;
  ra_reach : exists m ans, objects w !! r_name (p_region p) = Some m /\
    reachable (p_config p) (mkState m (p_maketic p) PIdle nt CIdle pub ans)
}.

Lemma ring_at_inv p w nt pub :
  ring_at p w nt pub -> Z.of_nat (List.length pub) <= U64_MAX ->
  exists ans, inv (p_config p) (mkState (ring_bytes p w) (p_maketic p) PIdle nt CIdle pub ans).
Proof.
  intros [Hc _ (m & ans & Hm & Hr)] Hb. exists ans. unfold ring_bytes. rewrite Hm. change (default [] (Some m)) with m.
  by apply (reachable_inv _ Hc).
Qed.

(** How a tensor went out: in the frame at a position that the daemon has not
    passed yet, or inline. *)
Definition sent (cfg : RingConfig) (nt : Z) (pub : list frame) (ct : MappedComponent * Captured) (msg : CapturedTensor) : Prop :=
  let '(c, t) := ct in
  ct_module_path msg = mc_module_path c /\ ct_canonical msg = mc_canonical c /\ ct_layer msg = layer_of c /\
  ct_shape msg = cp_shape t /\ ct_dtype msg = cp_dtype t /\ ct_device msg = cp_device t /\
  ct_tensor_id msg = tensor_hash (cp_bytes t) /\
  if has_shm msg then
    exists i h, pub !! i = Some (h, cp_bytes t) /\ nt <= Z.of_nat i /\
      ct_shm_offset msg = Some (slot_offset cfg (Z.of_nat i)) /\ ct_byte_length msg = Some (Z.of_nat (List.length (cp_bytes t)))
  else ct_shm_offset msg = None /\ ct_data_base64 msg = Some (base64_encode (cp_bytes t)).

Lemma sent_prefix cfg nt pub extra ct msg : sent cfg nt pub ct msg -> sent cfg nt (pub ++ extra) ct msg.
Proof.
  destruct ct as [c t]. intros (H1 & H2 & H3 & H4 & H5 & H6 & H7 & H8). split_and!; try done.
  destruct (has_shm msg); [|done]. destruct H8 as (i & h & Hi & H8). exists i, h. split; [by apply lookup_app_l_Some|done].
Qed.

(** The tensor fits a slot and a slot is free. *)
Definition goes_to_ring (p : DoomRingProducer) (nt : Z) (t : Captured) : bool :=
  (Z.of_nat (List.length (cp_bytes t)) <=? slot_data_capacity (p_config p)) && (p_maketic p - nt <? backuptics (p_config p)).

Lemma publish_one p w nt pub c t :
  ring_at p w nt pub -> Z.of_nat (List.length pub) < U64_MAX ->
  exists msg p' w' extra,
    try_shm_publish c t (Some p) w = Some (msg, Some p', w') /\ ring_at p' w' nt (pub ++ extra) /\
    p_config p' = p_config p /\ p_region p' = p_region p /\
    sent (p_config p) nt (pub ++ extra) (c, t) (default (inline_tensor c t) msg) /\
    List.length extra = (if has_shm (default (inline_tensor c t) msg) then 1 else 0)%nat /\
    has_shm (default (inline_tensor c t) msg) = goes_to_ring p nt t.
Proof.
  intros R Hb. pose proof R as [Hc Hmap (m & ans & Hm & Hr)]. pose proof (reachable_inv _ Hc _ Hr) as I.
  cbn [published] in I. specialize (I ltac:(lia)). pose proof (i_bounds _ _ I) as Hbd. pose proof (i_count _ _ I) as Hcnt. sproj.
  destruct (inv_loads _ Hc _ I) as [Hn _]. sproj.
  assert (Hsame : mkWorld (<[r_name (p_region p) := m]> (objects w)) (open_fds w) = w) by (rewrite insert_id by done; by destruct w).
  assert (Hp : mkProducer (p_region p) (p_config p) (p_maketic p) = p) by (by destruct p).
  unfold try_shm_publish, goes_to_ring, ring_bytes. rewrite Hm. change (default [] (Some m)) with m.
  set (hd := frame_header _ _ _ _).
  assert (Hlen : List.length hd = PROBE_FRAME_HEADER_SIZE).
  { subst hd. change (frame_header (layer_of c) (cp_shape t) (cp_bytes t) (p_maketic p))
      with (serialize (header_of (layer_of c) (cp_shape t) (cp_bytes t) (p_maketic p))).
    unfold serialize. rewrite length_apply_writes; [done|]. apply header_layout_ok, length_frame_shape. }
  destruct (Z.leb_spec (Z.of_nat (List.length (cp_bytes t))) (slot_data_capacity (p_config p))) as [Hfit|Hbig].
  - pose proof (frame_header_framed (p_config p) (layer_of c) (cp_shape t) (cp_bytes t) (p_maketic p) Hc Hfit) as Hf. fold hd in Hf.
    destruct (Z.ltb_spec (p_maketic p - nt) (backuptics (p_config p))) as [Hroom|Hfull]; cbn [andb].
    + destruct (publish_run _ Hc _ _ _ _ _ _ hd (cp_bytes t) I) as (m' & -> & Hrun); [lia|done|done|].
      cbn [mbind option_bind]. do 3 eexists. exists [(hd, cp_bytes t)]. split; [reflexivity|]. split; [|split_and!; try done].
      * split; [done|done|]. exists m', ans. cbn [p_region p_config p_maketic objects]. split; [by rewrite lookup_insert_eq|].
        eapply reachable_rtc; [exact Hr|exact Hrun].
      * cbn. split_and!; try done. exists (List.length pub), hd.
        split_and!; [by apply list_lookup_middle|lia|cbn; by rewrite <- Hcnt|done].
    + unfold publish. rewrite Hlen, Nat.eqb_refl. cbn [negb]. rewrite (proj2 (Z.ltb_ge _ _)) by lia. rewrite Hn, u64_sub_small by lia.
      rewrite (proj2 (Z.leb_le _ _)) by lia. cbn [mbind option_bind]. rewrite Hsame, Hp. do 3 eexists. exists []. rewrite app_nil_r. split; [reflexivity|].
      split_and!; done.
  - cbn [andb]. unfold publish. rewrite Hlen, Nat.eqb_refl. cbn [negb]. rewrite (proj2 (Z.ltb_lt _ _)) by lia. cbn [mbind option_bind].
    rewrite Hsame, Hp. do 3 eexists. exists []. rewrite app_nil_r. split; [reflexivity|]. split_and!; done.
Qed.

(** ** All tensors *)

(** The tensors an inspection is about, read from the model's outputs. *)
Fixpoint selected (num_heads : Z) (head_index : option Z) (outputs : Dict) (comps : list MappedComponent)
  : result Fail (list (MappedComponent * Captured)) :=
  match comps with
  | [] => Ok []
  | c :: rest =>
      match outputs !! (mc_module_path c, mc_call_index c) with
      | None => selected num_heads head_index outputs rest
      | Some t =>
          let? t := inspect_tensor num_heads head_index c t in
          let? r := selected num_heads head_index outputs rest in
          Ok ((c, t) :: r)
      end
  end.

Definition fits_slot (p : DoomRingProducer) (ct : MappedComponent * Captured) : bool :=
  Z.of_nat (List.length (cp_bytes ct.2)) <=? slot_data_capacity (p_config p).

(** Room for this many more frames. *)
Definition room (p : DoomRingProducer) (nt : Z) : Z := backuptics (p_config p) - (p_maketic p - nt).

Lemma collect_sends num_heads head_index outputs comps : forall p w nt pub acc cs,
  ring_at p w nt pub -> Z.of_nat (List.length pub + List.length comps) < U64_MAX ->
  selected num_heads head_index outputs comps = Ok cs ->
  exists cts p' w' extra,
    collect num_heads head_index outputs comps (Some p) w acc = (Ok (acc ++ cts), Some p', w') /\
    ring_at p' w' nt (pub ++ extra) /\ p_config p' = p_config p /\ p_region p' = p_region p /\
    Forall2 (sent (p_config p) nt (pub ++ extra)) cs cts /\ Z.of_nat (List.length extra) = shm_count cts /\
    (forallb (fits_slot p) cs = true -> shm_count cts = Z.min (Z.of_nat (List.length cs)) (room p nt)).
Proof.
  induction comps as [|c rest IH]; intros p w nt pub acc cs R Hb Hsel; cbn [selected collect] in *.
  - injection Hsel as <-. exists [], p, w, []. rewrite !app_nil_r. split_and!; try done.
    intros _. destruct (ring_at_inv p w nt pub R) as [ans I]; [lia|]. pose proof (i_bounds _ _ I) as Hbd. sproj. unfold room, shm_count. cbn. lia.
  - cbn [List.length] in Hb. destruct (outputs !! (mc_module_path c, mc_call_index c)) as [x|]; [|apply IH; [done|lia|done]].
    destruct (inspect_tensor num_heads head_index c x) as [t|e]; [|done].
    destruct (selected num_heads head_index outputs rest) as [cs'|e] eqn:Es; [|done]. cbn in Hsel. injection Hsel as <-.
    destruct (publish_one p w nt pub c t R ltac:(lia)) as (msg & p1 & w1 & ex1 & -> & R1 & C1 & G1 & S1 & L1 & T1).
    set (m := default (inline_tensor c t) msg) in *.
    assert (L1' : (List.length ex1 <= 1)%nat) by (rewrite L1; destruct (has_shm m); lia).
    destruct (IH p1 w1 nt (pub ++ ex1) (acc ++ [m]) cs' R1) as (cts & p2 & w2 & ex2 & -> & R2 & C2 & G2 & S2 & L2 & M2); [rewrite length_app; lia|done|].
    exists (m :: cts), p2, w2, (ex1 ++ ex2). rewrite <- !app_assoc in R2. rewrite C1 in S2. rewrite <- !app_assoc in S2 |- *.
    split_and!; try done; try congruence.
    + constructor; [|done]. rewrite app_assoc. by apply sent_prefix.
    + rewrite length_app, Nat2Z.inj_add, L2, L1. unfold shm_count. cbn [List.filter]. destruct (has_shm m); cbn [List.length]; lia.
    + cbn [forallb]. intros [Hf1 Hf2]%andb_true_iff.
      assert (Hf2' : forallb (fits_slot p1) cs' = true) by (unfold fits_slot in *; by rewrite C1).
      specialize (M2 Hf2'). unfold fits_slot in Hf1. cbn [snd] in Hf1. unfold goes_to_ring in T1. rewrite Hf1 in T1. cbn [andb] in T1.
      destruct (ring_at_inv p w nt pub R) as [ans I]; [lia|]. pose proof (i_bounds _ _ I) as Hbd. pose proof (i_count _ _ I) as Hc0.
      destruct (ring_at_inv p1 w1 nt _ R1) as [ans1 I1]; [rewrite length_app; lia|]. pose proof (i_bounds _ _ I1) as Hbd1. pose proof (i_count _ _ I1) as Hc1. sproj.
      rewrite length_app in Hc1. unfold room, shm_count in *. rewrite C1 in *. cbn [List.filter List.length].
      destruct (has_shm m) eqn:Em; cbn [List.length]; symmetry in T1; [apply Z.ltb_lt in T1|apply Z.ltb_ge in T1]; lia.
Qed.

(** ** The daemon's side *)

(** The data of an outstanding frame, read at its absolute position. *)
Lemma read_frame c (Hc : config_ok c) s i h d :
  region_size c <= ISIZE_MAX -> inv c s -> published s !! i = Some (h, d) -> nettics s <= Z.of_nat i ->
  read_absolute (u64_add (slot_offset c (Z.of_nat i)) HEADER) (Z.of_nat (List.length d)) (bytes s) = Some (Ok d).
Proof.
  intros Hmap I Hi Hn. pose proof (i_framed c s I _ _ Hi) as Hf. pose proof (i_slots c s I _ _ Hi Hn) as Hs. unfold RingConc.holds in Hs.
  pose proof (framed_length c Hc _ _ Hf) as Hfl. pose proof Hf as (Hh & Hcap & _). cbn [fst snd] in *. rewrite length_app in Hfl, Hs.
  destruct (slot_addresses c Hc (Z.of_nat i)) as (Ha0 & Ha1 & Ha2 & Ha3 & Ha4).
  pose proof (region_size_range c Hc) as Hr. pose proof (i_len c s I) as Hlen. pose proof (cfg_slot c Hc). unfold HEADER in *.
  unfold read_absolute, read_vec. replace (ISIZE_MAX <? _) with false by (symmetry; apply Z.ltb_ge; lia).
  rewrite read_bytes_ok by (rewrite ?Ha2; lia). rewrite Ha2, Ha3, Nat2Z.id. do 2 f_equal.
  rewrite <- (slice_slice _ (List.length h + List.length d)) by lia. rewrite Hs. unfold slice.
  by rewrite <- Hh, drop_app_length, firstn_all.
Qed.

Context (b64_decode : string -> result string (list byte)) (shm_error_text : ShmError -> string).
Hypothesis base64_inverse : forall b, b64_decode (base64_encode b) = Ok b.

Lemma sent_delivered p w nt pub ct msg :
  ring_at p w nt pub -> Z.of_nat (List.length pub) <= U64_MAX -> sent (p_config p) nt pub ct msg ->
  delivered tensor_hash b64_decode shm_error_text (Some (Dispatch.mkConsumer nt (ring_bytes p w))) msg (tensor_hash (cp_bytes ct.2)) (cp_bytes ct.2).
Proof.
  intros R Hb S. destruct ct as [c t]. destruct S as (_ & _ & _ & _ & _ & _ & Hid & Hs). unfold delivered. cbn [snd].
  destruct (has_shm msg) eqn:E.
  - destruct Hs as (i & h & Hi & Hn & -> & ->). split; [|done]. unfold read_from_shm. cbn [con_mem].
    destruct (ring_at_inv p w nt pub R Hb) as [ans I].
    pose proof (read_frame _ (ra_config _ _ _ _ R) _ i h (cp_bytes t) (ra_mapped _ _ _ _ R) I Hi Hn) as Hrd. cbn [bytes] in Hrd. by rewrite Hrd.
  - destruct Hs as [-> ->]. eauto.
Qed.

(** The daemon gives back the slots it read. *)
Lemma advance_ring p w nt pub count :
  ring_at p w nt pub -> Z.of_nat (List.length pub) < U64_MAX -> 0 <= count <= p_maketic p - nt ->
  exists m', advance_consumer count (Some (Dispatch.mkConsumer nt (ring_bytes p w))) = Some (Dispatch.mkConsumer (nt + count) m') /\
    ring_at p (mkWorld (<[r_name (p_region p) := m']> (objects w)) (open_fds w)) (nt + count) pub.
Proof.
  intros R Hb Hcount. destruct R as [Hc Hmap (m & ans & Hm & Hr)]. unfold advance_consumer, ring_bytes. rewrite Hm.
  change (default [] (Some m)) with m. cbn [con_nettics con_mem].
  pose proof (reachable_inv _ Hc _ Hr) as I. cbn [published] in I. specialize (I ltac:(lia)). pose proof (i_bounds _ _ I) as Hbd.
  destruct (inv_loads _ Hc _ I) as [_ Hm']. pose proof (region_size_range _ Hc) as Hrs. pose proof (i_len _ _ I) as Hlen. sproj.
  unfold CONTROL_SIZE, HEADER in Hrs.
  destruct (Z.ltb_spec 0 count) as [Hpos|Hz].
  - destruct (store_ok NETTICS_OFFSET (u64_add nt count) m) as [m' Hst]; [done|done|unfold NETTICS_OFFSET; lia|lia|].
    exists m'. unfold advance_by. rewrite Hst. pose proof (u64_add_small nt count ltac:(lia) ltac:(lia) ltac:(lia)) as E. rewrite E. split; [done|].
    split; [done|done|]. exists m', ans. cbn [objects]. split; [by rewrite lookup_insert_eq|].
    eapply reach_step; [exact Hr|]. rewrite <- E. by eapply step_advance.
  - assert (count = 0) as -> by lia. exists m. rewrite Z.add_0_r. split; [done|]. split; [done|done|]. exists m, ans. cbn [objects]. by rewrite lookup_insert_eq.
Qed.

(** C13: an inspection from the model's outputs to the daemon.  With the ring
    between calls and Python able to read the selected outputs, the worker
    answers with one tensor per selected component that has an output, in
    order, each described as Python describes it; and the daemon, whose cursor
    was at [nt], then reads for each exactly the bytes of that tensor under the
    hash of those bytes, whether it came through the ring or inline.  When every
    tensor fits a slot, as many come through the ring as it has room for.  When
    the daemon gives back as many slots as tensors came through the ring, the
    ring is as full as it was before. *)
Theorem inspect_transport (comps : list MappedComponent) (head_index : option Z) (n : Node) (p : DoomRingProducer) (nt : Z)
    (pub : list frame) (outputs : Dict) (cs : list (MappedComponent * Captured))
    (Hring : n_ring n = Some p) (R : ring_at p (n_world n) nt pub)
    (Hb : Z.of_nat (List.length pub + List.length comps) < U64_MAX)
    (Hout : w_last_outputs (h_core (n_host n)) = Some outputs)
    (Hsel : selected (w_num_heads (h_core (n_host n))) head_index outputs comps = Ok cs) :
  exists cts p' w' pub',
    collect_tensors comps head_index n = (Ok cts, mkNode (n_host n) (Some p') w') /\
    ring_at p' w' nt pub' /\
    Forall2 (sent (p_config p) nt pub') cs cts /\
    Forall2 (fun ct msg => delivered tensor_hash b64_decode shm_error_text (Some (Dispatch.mkConsumer nt (ring_bytes p' w')))
               msg (tensor_hash (cp_bytes ct.2)) (cp_bytes ct.2)) cs cts /\
    (forallb (fits_slot p) cs = true -> shm_count cts = Z.min (Z.of_nat (List.length cs)) (room p nt)) /\
    exists m', advance_consumer (shm_count cts) (Some (Dispatch.mkConsumer nt (ring_bytes p' w'))) = Some (Dispatch.mkConsumer (nt + shm_count cts) m') /\
      ring_at p' (mkWorld (<[r_name (p_region p') := m']> (objects w')) (open_fds w')) (nt + shm_count cts) pub' /\
      room p' (nt + shm_count cts) = room p nt.
Proof.
  destruct (collect_sends _ _ _ _ p (n_world n) nt pub [] cs R Hb Hsel) as (cts & p' & w' & extra & E & R' & C & G & S & L & M).
  assert (Hex : (List.length extra <= List.length comps)%nat).
  { assert (Hc : (List.length cts <= List.length comps)%nat).
    { rewrite <- (Forall2_length _ _ _ S). clear -Hsel. revert cs Hsel. induction comps as [|c r IH]; intros cs Hsel; cbn in *; [by injection Hsel as <-|].
      destruct (outputs !! _); [|by apply IH, le_S in Hsel].
      destruct (inspect_tensor _ _ _ _); [|done]. destruct (selected _ _ _ r) as [l|]; [|done]. injection Hsel as <-. specialize (IH l eq_refl). cbn. lia. }
    unfold shm_count in L. pose proof (List.filter_length_le has_shm cts). lia. }
  destruct (ring_at_inv p _ nt pub R ltac:(lia)) as [ans I]. destruct (ring_at_inv p' w' nt _ R') as [ans' I']; [rewrite length_app; lia|].
  pose proof (i_count _ _ I) as K. pose proof (i_count _ _ I') as K'. pose proof (i_bounds _ _ I) as Hbd. pose proof (i_bounds _ _ I') as Hbd'. sproj. rewrite length_app in K'.
  exists cts, p', w', (pub ++ extra). unfold collect_tensors. rewrite Hout, Hring, E. split_and!; try done.
  - eapply Forall2_impl; [exact S|]. intros ct msg HS. apply (sent_delivered p' w' nt (pub ++ extra)); [done|rewrite length_app; lia|by rewrite C].
  - destruct (advance_ring p' w' nt (pub ++ extra) (shm_count cts) R') as (m' & Ea & Ra); [rewrite length_app; lia|lia|].
    exists m'. split_and!; try done. unfold room. rewrite C. lia.
Qed.

End Transport.

(** ** A concrete ring *)

Module Demo.

Definition tensors : @InspectBridge HostSpec.Demo.bridge :=
  @Build_InspectBridge HostSpec.Demo.bridge (fun t => Ok t) (fun t => Ok t) (fun _ => Ok "torch.float16"%string) (fun _ => Ok "cpu"%string)
    string_of_list_byte string_of_list_byte.

Definition part (name : string) : MappedComponent := mkMappedComponent name name (Some 0) 0 (Direct name) name.
Definition parts : list MappedComponent := part <$> ["a"; "b"; "missing"; "c"]%string.

Definition outputs : @Dict HostSpec.Demo.bridge :=
  {[("a"%string, 0) := [Byte.x01]; ("b"%string, 0) := [Byte.x02]; ("c"%string, 0) := [Byte.x03]]}.

Definition host : @Host HostSpec.Demo.bridge HostSpec.Demo.python :=
  @mkHost HostSpec.Demo.bridge HostSpec.Demo.python
    (@mkWorkerState HostSpec.Demo.bridge None ∅ (Some 1) 0 4 2 (TickState_new 0) None (Some outputs) [] None)
    [] [] 64 Kv.new [Byte.x07] ∅.

Definition producer : DoomRingProducer := mkProducer (mkShmRegion "/rs" (region_size RingConc.demo_config)) RingConc.demo_config 0.
Definition node (m : mem) : @Node HostSpec.Demo.bridge HostSpec.Demo.python :=
  @mkNode HostSpec.Demo.bridge HostSpec.Demo.python host (Some producer) (mkWorld {["/rs"%string := m]} 1).

Definition decode (s : string) : result string (list byte) := Ok (list_byte_of_string s).

End Demo.

(** Three tensors, two slots: two go through the ring, the third inline. *)
Lemma inspect_transport_witness :
  exists m cts n', @collect_tensors HostSpec.Demo.bridge HostSpec.Demo.python Demo.tensors Demo.parts None (Demo.node m) = (Ok cts, n') /\
    shm_count cts = 2 /\ List.length cts = 3%nat.
Proof.
  destruct (init_control_ok RingConc.demo_config demo_config_ok) as [m Hm]. exists m.
  edestruct (@inspect_transport HostSpec.Demo.bridge HostSpec.Demo.python Demo.tensors Demo.decode (fun _ => ""%string)) with
    (comps := Demo.parts) (head_index := @None Z) (n := Demo.node m) (p := Demo.producer) (nt := 0) (pub := @nil frame) (outputs := Demo.outputs)
    as (cts & p' & w' & pub' & E & _ & S & _ & Hcount & _).
  - intros b. unfold Demo.decode. f_equal. apply list_byte_of_string_of_list_byte.
  - reflexivity.
  - split; [exact demo_config_ok|vm_compute; discriminate|]. exists m, []. split; [reflexivity|]. by constructor.
  - vm_compute. reflexivity.
  - reflexivity.
  - reflexivity.
  - exists cts. eexists. split; [exact E|]. split; [apply Hcount; reflexivity|]. symmetry. exact (Forall2_length _ _ _ S).
Defined.
