(* ===== verification/HostDispatch.v ===== *)
(** * HostDispatch: every request of the worker, and its main loop

    [crates/rocket-surgeon-worker/src/dispatch.rs] ([dispatch] and the handlers
    of attach, detach, step, probes, views, the KV cache and the environment)
    and [main.rs].  What a request reads from outside - the answers of Python,
    the environment variables, the clocks and the faults of system calls - is
    the record [Call], one per request, so every answer can come at every
    point.  The results of CUDA registration and of removing hooks are only
    logged and have no counterpart. *)

From Stdlib Require Import ZArith Lia Ascii String.
From coqutil Require Import Byte.
From stdpp Require Import base gmap strings list fin_maps sets.
From S2P Require Import Prelude Framing Winnow Grammar Protocol Stdio Messages Frame Shm RingConc Adapter Tick Kv Arena Spill Json Dispatch Worker Host HostInspect Replay.
Open Scope Z_scope.

Record ModelInfo := mkModelInfo {
  mi_handle : Z;
  mi_num_layers : Z;
  mi_num_heads : Z;
  mi_hidden_dim : Z;
  mi_module_tree : list string
}.

Definition attach_dtype (d : option DType) : result string string :=
  match d with
  | Some DType_Float16 => Ok "float16"%string
  | Some DType_Bfloat16 => Ok "bfloat16"%string
  | Some DType_Float32 | None => Ok "float32"%string
  | Some other => Err (debug_dtype other)
  end.

(** [format!("{:08x}", pid)] of a 32-bit pid *)
Definition hex_char (d : Z) : ascii := ascii_of_nat (Z.to_nat (if d <? 10 then 48 + d else 87 + d)).
Definition hex8 (n : Z) : string :=
  text ((fun k => hex_char (Z.land (Z.shiftr n (4 * k)) 15)) <$> [7; 6; 5; 4; 3; 2; 1; 0]).

(** [format!("/rs-{session_id}-0")] *)
Definition region_name (pid : Z) : string := ("/rs-" +:+ hex8 pid +:+ "-0")%string.

(** The two environment variables that size the arena: slot size and number of
    slots; [None] is a division by zero. *)
Definition arena_geometry (max_seq_len arena_mb : option string) (dtype : option DType) (info : ModelInfo) : option (Z * Z) :=
  let dtype_size := match dtype with Some DType_Float16 | Some DType_Bfloat16 => 2 | _ => 4 end in
  let max_seq_len := default 2048 (max_seq_len ≫= fun v => parse_uint USIZE_MAX (chars v)) in
  let slots_per_checkpoint := Z.of_nat (List.length (checkpoint_layers (mi_num_layers info))) + 1 in
  let num_checkpoint_slots := slots_per_checkpoint * 2 + 2 in
  let slot_data_size := u64_mul (u64_mul (mi_hidden_dim info) max_seq_len) dtype_size in
  let slot_size := u64_add (Z.of_nat SLOT_HEADER_SIZE) (align_up slot_data_size 64) in
  match arena_mb ≫= fun v => parse_uint USIZE_MAX (chars v) with
  | Some mb => if slot_size =? 0 then None else Some (slot_size, Z.max (u64_mul (u64_mul mb 1024) 1024 / slot_size) 2)
  | None => Some (slot_size, num_checkpoint_slots)
  end.

Section Handlers.
Context `{J : SerdeJson} {WW : WorkerWire} {W : Winnow} {B : PyBridge} {HB : HostBridge} {IB : InspectBridge}.

Record Call := mkCall {
  cl_env : Surroundings;
  cl_pid : Z;
  cl_max_seq_len : option string;
  cl_arena_mb : option string;
  cl_faults : Faults;
  cl_mmap_ok : bool;
  cl_fuel : nat;
  cl_now : Z;
  cl_elapsed : Z;
  (** what [bridge.rs] answers *)
  cl_load_model : string -> string -> string -> result PyErr Z;
  cl_model_metadata : Z -> result PyErr ModelInfo;
  cl_model_config : Z -> result PyErr ModelConfig;
  cl_discover_modules : Z -> result PyErr (list RawModule);
  cl_execution_order : Z -> result PyErr (list (string * Z));
  cl_unload_model : Z -> result PyErr unit;
  cl_run_forward : option (list Z) -> result PyErr Model;
  cl_compute_view : Z -> Dict -> BuiltInView -> option Value -> result PyErr Value;
  cl_export_env : Z -> result PyErr Value
}.

Definition py_error (request : Request) (what : string) (e : PyErr) : Response :=
  internal_error (req_id request) (what +:+ " failed: " +:+ py_text e)%string.

(** *** Attach *)

(** The fields [handle_host_attach] sets once the model is known. *)
Definition load_model_state (rank : Z) (info : ModelInfo) (map : ComponentMap) (containers : list string) (h : Host) : Host :=
  let s := h_core h in
  mkHost (mkWorkerState (Some map) (build_component_index map) (Some (mi_handle info)) rank (mi_num_layers info) (mi_num_heads info)
            (TickState_new rank) None (w_last_outputs s) (w_active_probes s) (w_checkpoint_arena s))
    (mc_module_path <$> cm_components map) containers (mi_hidden_dim info) (Kv.reset (h_kv_cache h)) (h_rng h) (h_files h).

Definition drop_ring (n : Node) : Node :=
  match n_ring n with
  | Some p => mkNode (n_host n) None (Region_unlink (r_name (p_region p)) (Region_drop (n_world n))).2
  | None => n
  end.

(** [RingConfig::new(16, 64 MiB).expect(..)], [None] is its panic *)
Definition create_ring (c : Call) (n : Node) : option Node :=
  match RingConfig_new 16 (64 * 1024 * 1024) with
  | Err _ => None
  | Ok config =>
      Some (match producer_create (cl_faults c) (region_name (cl_pid c)) config (n_world n) with
            | (Ok ring, w) => mkNode (n_host n) (Some ring) w
            | (Err _, w) => mkNode (n_host n) None w
            end)
  end.

(** A new arena replaces the old one; when it cannot be made the old one stays. *)
Definition create_arena (c : Call) (dtype : option DType) (info : ModelInfo) (h : Host) : option Host :=
  '(slot_size, num_slots) ← arena_geometry (cl_max_seq_len c) (cl_arena_mb c) dtype info;
  r ← Arena_new (cl_mmap_ok c) (Z.to_nat slot_size) (Z.to_nat num_slots);
  Some (match r with Ok a => set_arena a h | Err _ => h end).

Definition attach_response (info : ModelInfo) (config : ModelConfig) (map : ComponentMap) (n : Node) : HostAttachResponse :=
  mkHostAttachResponse (mi_handle info) (mi_num_layers info) (mi_num_heads info) (mi_hidden_dim info) (mi_module_tree info)
    (cfg_model_type config) (cm_vocabulary map) ((fun p => r_name (p_region p)) <$> n_ring n) None.

(** What Python and the adapter say of the model, or the answer of the step that
    failed. *)
Definition describe_model (c : Call) (request : Request) (req : HostAttachRequest) (dtype : string)
  : result Response (ModelInfo * ModelConfig * ComponentMap * list string) :=
  match cl_load_model c (HostAttachRequest_model_source req) (HostAttachRequest_device req) dtype with
  | Err e => Err (py_error request "load_model" e)
  | Ok handle =>
  match cl_model_metadata c handle with
  | Err e => Err (py_error request "model_metadata" e)
  | Ok info =>
  match cl_model_config c handle with
  | Err e => Err (py_error request "model_config" e)
  | Ok config =>
  match cl_discover_modules c handle with
  | Err e => Err (py_error request "discover_modules" e)
  | Ok modules =>
  match resolve_with_containers modules config (HostAttachRequest_rank req) with
  | Err e => Err (internal_error (req_id request) ("adapter resolution failed: " +:+ e)%string)
  | Ok (map, containers) =>
  match cl_execution_order c handle with
  | Err e => Err (py_error request "discover_execution_order" e)
  | Ok order => Ok (info, config, apply_execution_order map order, containers)
  end end end end end end.

Definition handle_host_attach (c : Call) (request : Request) (n : Node) : option (Response * Node) :=
  with_host_params request (fun r => Some (r, n)) (fun req =>
    match attach_dtype (HostAttachRequest_dtype req) with
    | Err other => Some (invalid_params request ("Unsupported dtype: " +:+ other)%string, n)
    | Ok dtype =>
        match describe_model c request req dtype with
        | Err resp => Some (resp, n)
        | Ok (info, config, map, containers) =>
            let n := mkNode (load_model_state (HostAttachRequest_rank req) info map containers (n_host n)) (n_ring n) (n_world n) in
            n ← create_ring c (drop_ring n);
            h ← create_arena c (HostAttachRequest_dtype req) info (n_host n);
            let n := mkNode h (n_ring n) (n_world n) in
            Some (Response_success (req_id request) (to_value (attach_response info config map n)), n)
        end
    end).

(** *** Detach *)

Definition unload_state (h : Host) : Host :=
  let s := h_core h in
  mkHost (mkWorkerState None ∅ None (w_rank s) (w_num_layers s) (w_num_heads s) (w_tick_state s) None None (w_active_probes s) None)
    [] [] (h_hidden_dim h) (Kv.reset (h_kv_cache h)) (h_rng h) (h_files h).

Definition handle_host_detach (c : Call) (request : Request) (n : Node) : option (Response * Node) :=
  with_host_params request (fun r => Some (r, n)) (fun req =>
    let n := drop_ring (mkNode (unload_state (n_host n)) (n_ring n) (n_world n)) in
    match cl_unload_model c (HostDetachRequest_model_handle req) with
    | Err e => Some (py_error request "unload_model" e, n)
    | Ok _ => Some (Response_success (req_id request) (to_value (mkHostDetachResponse true)), n)
    end).

(** *** Hooks and probes *)

Definition handle_host_configure_hooks (request : Request) (n : Node) : option (Response * Node) :=
  with_host_params request (fun r => Some (r, n)) (fun req : HostConfigureHooksRequest =>
    Some (Response_success (req_id request) (to_value (mkHostConfigureHooksResponse 0 0)), n)).

(** Probes whose point does not parse are skipped. *)
Fixpoint parse_probes (probes : list ProbeDefinition) : list (ProbeDefinition * ProbePoint) :=
  match probes with
  | [] => []
  | probe :: r => match parse_point (pd_point probe) with
                  | Some pp => (probe, pp) :: parse_probes r
                  | None => parse_probes r
                  end
  end.

Definition set_w_active_probes (ps : list (ProbeDefinition * ProbePoint)) (s : WorkerState) : WorkerState :=
  mkWorkerState (w_component_map s) (w_component_index s) (w_model_handle s) (w_rank s) (w_num_layers s) (w_num_heads s)
    (w_tick_state s) (w_forward_pass s) (w_last_outputs s) ps (w_checkpoint_arena s).

Definition on_host (f : Host -> Host) (n : Node) : Node := mkNode (f (n_host n)) (n_ring n) (n_world n).
Definition on_core (f : WorkerState -> WorkerState) (n : Node) : Node := on_host (fun h => set_core (f (h_core h)) h) n.

Definition handle_host_update_probes (request : Request) (n : Node) : option (Response * Node) :=
  with_host_params request (fun r => Some (r, n)) (fun req =>
    let parsed := parse_probes (HostUpdateProbesRequest_active_probes req) in
    Some (Response_success (req_id request) (to_value (mkHostUpdateProbesResponse (u32_wrap (Z.of_nat (List.length parsed))))),
          on_core (set_w_active_probes parsed) n)).

(** *** Step *)

Definition handle_host_step (c : Call) (request : Request) (n : Node) : option (Response * Node) :=
  with_host_params request (fun r => Some (r, n)) (fun req =>
    let s := h_core (n_host n) in
    match w_model_handle s with
    | None => Some (internal_error (req_id request) "No model loaded", n)
    | Some handle =>
        if negb (hsreq_model_handle req =? handle) then Some (handle_mismatch request handle (hsreq_model_handle req), n)
        else match w_component_map s with
        | None => Some (internal_error (req_id request) "No component map available", n)
        | Some _ =>
            '(r, s) ← run_step_loop (cl_fuel c) (cl_now c) (cl_elapsed c) handle (cl_run_forward c (hsreq_input_ids req)) req s;
            match r with
            | Ok resp => Some (Response_success (req_id request) (to_value resp), on_core (fun _ => s) n)
            | Err (Error e) => Some (py_error request "step" e, on_core (fun _ => s) n)
            | Err Panic => None
            end
        end
    end).

(** *** Views *)

Definition view_failure (request : Request) (msg : string) : Response :=
  if contains_chars (chars "VIEW_DATA_UNAVAILABLE") (chars msg)
  then error_response (req_id request) (ErrorData_new ErrorCode_ViewDataUnavailable msg)
  else if contains_chars (chars "CAPABILITY_NOT_SUPPORTED") (chars msg)
  then error_response (req_id request) (ErrorData_new ErrorCode_CapabilityNotSupported msg)
  else if contains_chars (chars "INVALID_PARAMS") (chars msg)
  then error_response (req_id request) (ErrorData_new ErrorCode_InvalidParams msg)
  else internal_error (req_id request) msg.

Definition handle_host_view (c : Call) (request : Request) (n : Node) : option (Response * Node) :=
  with_host_params request (fun r => Some (r, n)) (fun req =>
    let s := h_core (n_host n) in
    match w_model_handle s with
    | Some handle =>
        if HostViewRequest_model_handle req =? handle then
          match w_last_outputs s with
          | None => Some (error_response (req_id request) (ErrorData_new ErrorCode_ViewDataUnavailable
                      "No captured tensors — execute at least one step first"), n)
          | Some lo =>
              match cl_compute_view c handle lo (HostViewRequest_view req) (HostViewRequest_params req) with
              | Ok data => Some (Response_success (req_id request) (to_value (mkHostViewResponse (HostViewRequest_view req) data)), n)
              | Err e => Some (view_failure request (py_text e), n)
              end
          end
        else Some (internal_error (req_id request) "model handle mismatch or no model loaded", n)
    | None => Some (internal_error (req_id request) "model handle mismatch or no model loaded", n)
    end).

(** *** KV cache *)

Definition validate_kv_handle (s : WorkerState) (request : Request) (req_handle : Z) : result Response unit :=
  match w_model_handle s with
  | None => Err (internal_error (req_id request) "No model loaded")
  | Some handle => if req_handle =? handle then Ok tt else Err (handle_mismatch request handle req_handle)
  end.

Definition handle_host_kv_read (request : Request) (n : Node) : option (Response * Node) :=
  with_host_params request (fun r => Some (r, n)) (fun req =>
    match validate_kv_handle (h_core (n_host n)) request (HostKvReadRequest_model_handle req) with
    | Err resp => Some (resp, n)
    | Ok _ => Some (Response_success (req_id request) (to_value (Kv.read req (h_kv_cache (n_host n)))), n)
    end).

Definition handle_host_kv_intervene (request : Request) (n : Node) : option (Response * Node) :=
  with_host_params request (fun r => Some (r, n)) (fun req =>
    match validate_kv_handle (h_core (n_host n)) request (HostKvInterveneRequest_model_handle req) with
    | Err resp => Some (resp, n)
    | Ok _ =>
        let '(resp, kv) := Kv.intervene req (h_kv_cache (n_host n)) (tick_id (w_tick_state (h_core (n_host n)))) in
        Some (Response_success (req_id request) (to_value resp), on_host (set_kv kv) n)
    end).

(** *** Environment *)

Definition handle_host_export_env (c : Call) (request : Request) (n : Node) : option (Response * Node) :=
  with_host_params request (fun r => Some (r, n)) (fun req =>
    match cl_export_env c (HostExportEnvRequest_model_handle req) with
    | Ok value =>
        let prompt := value_get value "prompt" ≫= null_to_none in
        Some (Response_success (req_id request)
                (to_value (mkHostExportEnvResponse (value_index value "env") (value_index value "model_info") prompt)), n)
    | Err e => Some (py_error request "collect_export_env" e, n)
    end).

(** *** Dispatch *)

Definition with_host (r : option (Response * Host)) (n : Node) : option (Response * Node) :=
  '(resp, h) ← r; Some (resp, mkNode h (n_ring n) (n_world n)).

(** [None]: a panic of the handler, or too little fuel for the pass. *)
Definition dispatch (c : Call) (request : Request) (n : Node) : option (Response * Node) :=
  let goes m := bool_decide (req_method request = m) in
  if goes internal.HOST_ATTACH then handle_host_attach c request n
  else if goes internal.HOST_DETACH then handle_host_detach c request n
  else if goes internal.HOST_CONFIGURE_HOOKS then handle_host_configure_hooks request n
  else if goes internal.HOST_STEP then handle_host_step c request n
  else if goes internal.HOST_UPDATE_PROBES then handle_host_update_probes request n
  else if goes internal.HOST_INSPECT then handle_host_inspect request n
  else if goes internal.HOST_VIEW then handle_host_view c request n
  else if goes internal.HOST_KV_READ then handle_host_kv_read request n
  else if goes internal.HOST_KV_INTERVENE then handle_host_kv_intervene request n
  else if goes internal.HOST_EXPORT_ENV then handle_host_export_env c request n
  else if goes internal.HOST_CHECKPOINT then with_host (handle_host_checkpoint (cl_env c) request (n_host n)) n
  else if goes internal.HOST_REPLAY then with_host (handle_host_replay (cl_env c) (cl_fuel c) (cl_elapsed c) (cl_run_forward c None) request (n_host n)) n
  else Some (Response_error (req_id request) (mkRpcError METHOD_NOT_FOUND ("Method not found: " +:+ req_method request)%string None), n).

(** [WorkerState::new] in a process with this generator state *)
Definition Node_new (rng : Rng) (w : World) : Node :=
  mkNode (mkHost (mkWorkerState None ∅ None 0 0 0 (TickState_new 0) None None [] None) [] [] 0 Kv.new rng ∅) None w.

(** *** The main loop *)

(** [serde_json::from_str] and [to_string] of messages; the JSON-RPC answer to a message that does not parse *)
Context (parse_request : string -> result string Request) (print_response : Response -> string) (parse_failure : string -> string).

(** The loop of [main], over what surrounds each call; [None] is a panic. *)
Definition serve (calls : list Call) (input : list ascii) (n : Node) (written : list ascii) : option (list ascii * Node) :=
  message_loop dispatch parse_request print_response parse_failure calls input n written.

End Handlers.
