(* ===== verification/HostDispatchSpec.v ===== *)
(** * HostDispatchSpec: what holds of the worker between requests

    The invariant of the worker's state and that each handler keeps it, what an
    attach prepares, that the requests that need a model are refused without
    one, and the process loop.  [HostTotal] puts them together. *)

From Stdlib Require Import ZArith Lia Ascii String.
From coqutil Require Import Byte.
From stdpp Require Import base gmap strings list fin_maps sets.
From S2P Require Import Prelude Framing Winnow Grammar Protocol Stdio Messages Frame Shm RingConc Adapter Tick Kv Arena Spill Json Dispatch Worker WorkerSpec Host HostSpec HostInspect HostInspectSpec Replay HostDispatch.
Open Scope Z_scope.

Section Spec.
Context `{J : SerdeJson} {WW : WorkerWire} {W : Winnow} {B : PyBridge} {HB : HostBridge} {IB : InspectBridge}.

(** ** What a pass leaves alone *)

(** The two states agree on what a pass does not touch, and a pass that is
    running still has its outputs. *)
Definition has_outputs (s : WorkerState) : Prop := is_Some (w_forward_pass s) -> is_Some (w_last_outputs s).

Definition within_pass (s s' : WorkerState) : Prop := setup s' = setup s /\ (has_outputs s -> has_outputs s').

#[local] Instance within_pass_preorder : PreOrder within_pass.
Proof. split; [by split|]. intros a b c [H1 H2] [H3 H4]. split; [congruence|tauto]. Qed.

Lemma stash_within msg s : within_pass s (stash_tensor_output msg s).
Proof.
  split; [apply stash_setup|]. unfold has_outputs, stash_tensor_output. destruct (w_last_outputs s) eqn:E; [|by rewrite E].
  destruct (msg_output msg) as [[]|]; cbn; eauto.
Qed.

Lemma put_within t s : within_pass s (put_resume t s).
Proof. split; [apply put_setup|]. unfold has_outputs, put_resume. destruct (w_forward_pass s) eqn:E; [|by rewrite E]. cbn. eauto. Qed.

Lemma tick_within t s : within_pass s (set_w_tick_state t s).
Proof. by split. Qed.

Lemma mark_within s : within_pass s (mark_complete s).
Proof. unfold mark_complete. destruct (w_forward_pass s) eqn:E; [|done]. split; [done|]. unfold has_outputs. cbn. rewrite E. eauto. Qed.

Lemma teardown_within s : within_pass s (teardown s).
Proof. unfold teardown. destruct (w_forward_pass s) as [fp|]; [|done]. destruct (fp_complete fp); [|done]. split; [done|]. intros _ [? [=]]. Qed.

Lemma ensure_within start s : within_pass s (ensure_forward_pass start s).2.
Proof.
  unfold ensure_forward_pass. destruct (w_forward_pass s) eqn:E; [done|].
  destruct start; (split; [done|]); unfold has_outputs; cbn; eauto.
Qed.

Lemma loop_body_within now handle req plan max l : within_pass (l_state l) (l_state (loop_body now handle req plan max l).2).
Proof.
  unfold loop_body. cbv zeta. destruct (w_forward_pass (l_state l)) as [fp|]; [|done].
  destruct (fp_model fp (fp_resumes fp)) as [msg|]; [|done]. pose proof (stash_within msg (l_state l)) as H.
  case_bool_decide; [done|]. destruct (lookup_component _ _ _) as [[cn ly]|]; [|done].
  destruct (tick_events _ _ _ _ _ _ _ _) as [events truncated].
  destruct (try_apply_interventions _ _ _ _ _ _) as [ir|]; [|etrans; [exact H|apply tick_within]].
  destruct (count_tick _ _ _ _ _) as [[[[] tk] tr] dr]; [etrans; [exact H|apply tick_within]|].
  destruct ir as [[t fired]|]; (etrans; [exact H|]; etrans; [apply tick_within|apply put_within]).
Qed.

Lemma step_loop_within fuel now handle req plan max l r l' :
  step_loop fuel now handle req plan max l = Some (r, l') -> within_pass (l_state l) (l_state l').
Proof.
  revert l. induction fuel as [|fuel IH]; intros l; [done|]. cbn [step_loop].
  pose proof (loop_body_within now handle req plan max l) as H. destruct (loop_body now handle req plan max l) as [[[]|] l1];
    cbn in H; try (by intros [= _ <-]). intros E. etrans; [exact H|by apply IH].
Qed.

Lemma run_step_within fuel now elapsed handle start req s r s' :
  run_step_loop fuel now elapsed handle start req s = Some (r, s') -> within_pass s s'.
Proof.
  unfold run_step_loop. cbv zeta. pose proof (ensure_within start (teardown s)) as H.
  destruct (ensure_forward_pass start (teardown s)) as [[[]|e] s1]; cbn in H;
    (assert (H0 : within_pass s s1) by (etrans; [apply teardown_within|exact H])); [|by intros [= _ <-]].
  destruct (step_loop _ _ _ _ _ _ _) as [[r1 l1]|] eqn:El; [|done]. apply step_loop_within in El. cbn [l_state] in El.
  assert (H1 : within_pass s (l_state l1)).
  { etrans; [exact H0|]. destruct (w_forward_pass (teardown s)); [etrans; [apply put_within|exact El]|exact El]. }
  destruct r1 as [next|e]; [|by intros [= _ <-]]. destruct next; intros [= _ <-]; try exact H1.
  etrans; [exact H1|]. etrans; [apply mark_within|apply tick_within].
Qed.

Lemma replay_body_within handle pre l : within_pass (rl_state l) (rl_state (replay_body handle pre l).2).
Proof.
  unfold replay_body. cbv zeta. destruct (w_forward_pass (rl_state l)) as [fp|]; [|done].
  destruct (fp_model fp (fp_resumes fp)) as [msg|]; [|done]. pose proof (stash_within msg (rl_state l)) as H.
  case_bool_decide; [etrans; [exact H|apply mark_within]|]. destruct (lookup_component _ _ _) as [[cn ly]|]; [|done].
  destruct (if _ && _ then _ else _) as [ctx|]; [|etrans; [exact H|apply tick_within]].
  destruct (should_stop _ _ _); [etrans; [exact H|etrans; [apply tick_within|apply put_within]]|].
  destruct (replay_interventions _ _ _ _ _ _) as [t|]; (etrans; [exact H|]); [etrans; [apply tick_within|apply put_within]|apply tick_within].
Qed.

Lemma replay_loop_within fuel handle pre l r l' :
  replay_loop fuel handle pre l = Some (r, l') -> within_pass (rl_state l) (rl_state l').
Proof.
  revert l. induction fuel as [|fuel IH]; intros l; [done|]. cbn [replay_loop].
  pose proof (replay_body_within handle pre l) as H. destruct (replay_body handle pre l) as [[[]|] l1];
    cbn in H; try (by intros [= _ <-]). intros E. etrans; [exact H|by apply IH].
Qed.

Lemma run_replay_within fuel elapsed handle start ctx s r s' :
  run_replay_loop fuel elapsed handle start ctx s = Some (r, s') -> within_pass s s'.
Proof.
  unfold run_replay_loop. pose proof (ensure_within start (set_w_forward_pass None s)) as H.
  assert (H0 : within_pass s (set_w_forward_pass None s)) by (split; [done|intros _ [? [=]]]).
  destruct (ensure_forward_pass start (set_w_forward_pass None s)) as [[[]|e] s1]; cbn in H; [|intros [= _ <-]; by etrans].
  destruct (replay_loop _ _ _ _) as [[r1 l1]|] eqn:El; [|done]. apply replay_loop_within in El. cbn [rl_state] in El.
  destruct r1; intros [= _ <-]; (etrans; [exact H0|]; by etrans).
Qed.

Lemma replay_mode_within fuel elapsed handle start ctx s r s' :
  replay_in_mode fuel elapsed handle start ctx s = Some (r, s') -> within_pass s s'.
Proof.
  unfold replay_in_mode. destruct (if rc_deterministic ctx then _ else _); [|by intros [= _ <-]].
  destruct (run_replay_loop _ _ _ _ _ _) as [[r1 s1]|] eqn:E; [|done]. apply run_replay_within in E. cbn [mbind option_bind].
  destruct r1; [|by intros [= _ <-]]. destruct (if rc_deterministic ctx then _ else _); by intros [= _ <-].
Qed.

(** ** Consistency *)

Definition indexed (a : Arena) : Prop := forall k d, index a !! k = Some d -> is_Some (slots a !! d).

Lemma indexed_new ok ss num a : Arena_new ok ss num = Some (Ok a) -> indexed a.
Proof. intros H k d. apply arena_new_ok in H as (_ & _ & _ & _ & _ & -> & _). by rewrite lookup_empty. Qed.

Lemma indexed_region a m : indexed a -> indexed (set_region a m).
Proof. done. Qed.

Lemma indexed_alloc a id l : indexed a -> indexed (alloc_slot a id l).2.
Proof.
  intros H. unfold alloc_slot. destruct (pop (free_list a)) as [[i rest]|]; [|done].
  intros k d. cbn. intros [[_ <-]|[_ Hd]]%lookup_insert_Some.
  - rewrite list_lookup_middle by done. eauto.
  - destruct (H _ _ Hd) as [x Hx]. exists x. by apply lookup_app_l_Some.
Qed.

Lemma indexed_free a id : indexed a -> indexed (free_checkpoint a id).
Proof.
  intros H. unfold free_checkpoint. destruct (checkpoint_slots a !! id); [|done].
  intros k d. cbn. intros [Hd _]%map_lookup_filter_Some. by eapply H.
Qed.

Definition arena_indexed (s : WorkerState) : Prop := forall a, w_checkpoint_arena s = Some a -> indexed a.

Record consistent (n : Node) : Prop := {
  (** the handle, the index and the module paths belong to the component map *)
  cs_model :
    let s := h_core (n_host n) in
    match w_component_map s with
    | Some m => is_Some (w_model_handle s) /\ w_component_index s = build_component_index m /\
                h_module_paths (n_host n) = mc_module_path <$> cm_components m
    | None => w_model_handle s = None /\ w_component_index s = ∅ /\ h_module_paths (n_host n) = []
    end;
  (** a running pass has its outputs *)
  cs_outputs : has_outputs (h_core (n_host n));
  (** without a model there is nothing else either *)
  cs_unloaded :
    let s := h_core (n_host n) in
    w_component_map s = None ->
    w_forward_pass s = None /\ w_last_outputs s = None /\ w_checkpoint_arena s = None /\ n_ring n = None /\ h_container_paths (n_host n) = [];
  (** every active probe has the point its definition names *)
  cs_probes : Forall (fun dp => parse_point (pd_point dp.1) = Some dp.2) (w_active_probes (h_core (n_host n)));
  (** the arena's index points into its table of descriptors *)
  cs_arena : arena_indexed (h_core (n_host n))
}.

(** One answer, to this request. *)
Record answers_to (request : Request) (resp : Response) : Prop := {
  at_version : rsp_jsonrpc resp = JSONRPC_VERSION;
  at_id : rsp_id resp = req_id request;
  at_one : is_Some (rsp_result resp) <-> rsp_error resp = None
}.

Lemma answer_success request v : answers_to request (Response_success (req_id request) v).
Proof. split; [done|done|]. cbn. split; [done|eauto]. Qed.

Lemma answer_failure request e : answers_to request (Response_error (req_id request) e).
Proof. split; [done|done|]. cbn. split; [by intros []|done]. Qed.

Lemma node_eta n : mkNode (n_host n) (n_ring n) (n_world n) = n.
Proof. by destruct n. Qed.

(** What a handler gives: an answer and a consistent state. *)
Definition good (request : Request) (r : option (Response * Node)) : Prop :=
  forall resp n', r = Some (resp, n') -> answers_to request resp /\ consistent n'.

Lemma good_success request v n : consistent n -> good request (Some (Response_success (req_id request) v, n)).
Proof. intros H resp n' [= <- <-]. split; [apply answer_success|done]. Qed.

Lemma good_failure request e n : consistent n -> good request (Some (Response_error (req_id request) e, n)).
Proof. intros H resp n' [= <- <-]. split; [apply answer_failure|done]. Qed.

Lemma good_panic request : good request None.
Proof. by intros resp n'. Qed.

Lemma good_params {T} `{!Deserialize T} request n (k : T -> option (Response * Node)) :
  consistent n -> (forall req, good request (k req)) -> good request (with_host_params request (fun r => Some (r, n)) k).
Proof. intros H Hk. unfold with_host_params. destruct (from_value _); [apply Hk|by apply good_failure]. Qed.

(** A change inside a pass keeps a loaded node consistent. *)
Lemma consistent_pass n s' :
  consistent n -> is_Some (w_component_map (h_core (n_host n))) -> within_pass (h_core (n_host n)) s' ->
  consistent (on_core (fun _ => s') n).
Proof.
  intros [H1 H2 H3 H4 H5] [m Hm] [Hs Ho]. destruct n as [h rg w]. cbn [n_host n_ring n_world on_core on_host set_core h_core h_module_paths h_container_paths] in *.
  pose proof (f_equal w_component_map Hs) as E1. pose proof (f_equal w_component_index Hs) as E2. pose proof (f_equal w_model_handle Hs) as E3.
  pose proof (f_equal w_active_probes Hs) as E4. pose proof (f_equal w_checkpoint_arena Hs) as E5. cbn in E1, E2, E3, E4, E5.
  split; cbn [n_host n_ring n_world on_core on_host set_core h_core h_module_paths h_container_paths].
  - by rewrite E1, E2, E3.
  - by apply Ho.
  - rewrite E1, Hm. done.
  - by rewrite E4.
  - unfold arena_indexed. rewrite E5. exact H5.
Qed.

(** A loaded model has a component map. *)
Lemma loaded n handle : consistent n -> w_model_handle (h_core (n_host n)) = Some handle -> is_Some (w_component_map (h_core (n_host n))).
Proof. intros [H _ _ _ _] Hh. cbn in H. destruct (w_component_map _); [eauto|]. destruct H as [H _]. congruence. Qed.

Create HintDb worker discriminated.
#[local] Hint Resolve good_success good_failure good_panic : worker.

Lemma step_good c request n : consistent n -> good request (handle_host_step c request n).
Proof.
  intros H. unfold handle_host_step. apply good_params; [done|]. intros req. cbv zeta.
  destruct (w_model_handle _) as [handle|] eqn:Eh; [|by apply good_failure]. destruct (negb _); [by apply good_failure|].
  destruct (w_component_map _) as [m|] eqn:Em; [|by apply good_failure].
  destruct (run_step_loop _ _ _ _ _ _ _) as [[r s']|] eqn:E; [|apply good_panic]. cbn [mbind option_bind].
  apply run_step_within in E. assert (Hn : consistent (on_core (fun _ => s') n)) by (apply consistent_pass; [done|by rewrite Em|done]).
  destruct r as [resp|[|e]]; [by apply good_success|apply good_panic|by apply good_failure].
Qed.

Lemma drop_ring_host n : n_host (drop_ring n) = n_host n /\ n_ring (drop_ring n) = None.
Proof. unfold drop_ring. destruct (n_ring n) eqn:E; [done|by rewrite E]. Qed.

Lemma create_ring_host c n n' : create_ring c n = Some n' -> n_host n' = n_host n.
Proof.
  unfold create_ring. destruct (RingConfig_new _ _); [|done].
  destruct (producer_create _ _ _ _) as [[] ?]; by intros [= <-].
Qed.

(** The parts of a host an arena does not belong to. *)
Lemma create_arena_host c dtype info h h' :
  create_arena c dtype info h = Some h' -> h' = h \/ exists a, h' = set_arena a h /\ indexed a.
Proof.
  unfold create_arena. destruct (arena_geometry _ _ _ _) as [[sz num]|]; [|done]. cbn [mbind option_bind].
  destruct (Arena_new _ _ _) as [[a|e]|] eqn:E; [| |done]; cbn; intros [= <-]; [|by left]. right. exists a. split; [done|by eapply indexed_new].
Qed.

Lemma attach_good c request n : consistent n -> good request (handle_host_attach c request n).
Proof.
  intros H. unfold handle_host_attach. apply good_params; [done|]. intros req.
  destruct (attach_dtype _) as [dtype|other]; [|by apply good_failure].
  destruct (describe_model c request req _) as [[[[info config] map] containers]|resp] eqn:Ed.
  2:{ intros resp' n' [= <- <-]. split; [|done]. unfold describe_model in Ed. repeat case_match; try done; injection Ed as <-; apply answer_failure. }
  cbv zeta. destruct (create_ring c _) as [n1|] eqn:Er; [|apply good_panic]. cbn [mbind option_bind]. apply create_ring_host in Er.
  rewrite (proj1 (drop_ring_host _)) in Er. cbn [n_host] in Er.
  destruct (create_arena c _ info (n_host n1)) as [h'|] eqn:Ea; [|apply good_panic]. cbn [mbind option_bind]. apply create_arena_host in Ea.
  apply good_success. rewrite Er in Ea.
  destruct Ea as [->|(ar & -> & Hix)]; (split; cbn; [by eauto|by intros []|done|exact (cs_probes _ H)|]).
  - exact (cs_arena _ H).
  - by intros a [= <-].
Qed.

Lemma detach_consistent n : consistent n -> consistent (drop_ring (mkNode (unload_state (n_host n)) (n_ring n) (n_world n))).
Proof.
  intros H. set (n1 := mkNode _ _ _). destruct (drop_ring_host n1) as [E1 E2].
  split; rewrite ?E1, ?E2; cbn; [done|by intros []|done|exact (cs_probes _ H)|done].
Qed.

Lemma detach_good c request n : consistent n -> good request (handle_host_detach c request n).
Proof.
  intros H. unfold handle_host_detach. apply good_params; [done|]. intros req. cbv zeta.
  destruct (cl_unload_model c _); [apply good_success|apply good_failure]; by apply detach_consistent.
Qed.

Lemma parse_probes_ok probes : Forall (fun dp => parse_point (pd_point dp.1) = Some dp.2) (parse_probes probes).
Proof. induction probes as [|p r IH]; cbn; [done|]. destruct (parse_point (pd_point p)) eqn:E; [by constructor|done]. Qed.

Lemma update_probes_good request n : consistent n -> good request (handle_host_update_probes request n).
Proof.
  intros H. unfold handle_host_update_probes. apply good_params; [done|]. intros req. cbv zeta. apply good_success.
  destruct H as [H1 H2 H3 _ H5]. split; [exact H1|exact H2|exact H3|apply parse_probes_ok|exact H5].
Qed.

Lemma inspect_good request n : consistent n -> good request (handle_host_inspect request n).
Proof.
  intros H. unfold handle_host_inspect. apply good_params; [done|]. intros req. cbv zeta.
  destruct (w_model_handle _) as [handle|] eqn:Eh; [|by apply good_failure]. pose proof (loaded n handle H Eh) as [m Em].
  destruct (negb _); [by apply good_failure|]. rewrite Em. destruct (matched_components _ _) as [|c0 cs]; [by apply good_failure|].
  destruct (extract_head_index _) as [hi|]; [|apply good_panic]. cbn [mbind option_bind].
  assert (Hn : forall r, consistent (collect_tensors (c0 :: cs) r n).2).
  { intros r. unfold collect_tensors. destruct (w_last_outputs _); [|done]. destruct (collect _ _ _ _ _ _ _) as [[x ring] w]. cbn [snd].
    destruct H as [H1 H2 H3 H4 H5]. split; [exact H1|exact H2|cbn; by rewrite Em|exact H4|exact H5]. }
  specialize (Hn (snd <$> hi)). destruct (collect_tensors _ _ _) as [[ts|[|e]] n']; [by apply good_success|apply good_panic|by apply good_failure].
Qed.

Lemma view_good c request n : consistent n -> good request (handle_host_view c request n).
Proof.
  intros H. unfold handle_host_view. apply good_params; [done|]. intros req. cbv zeta.
  destruct (w_model_handle _) as [handle|]; [|by apply good_failure]. destruct (_ =? _); [|by apply good_failure].
  destruct (w_last_outputs _); [|by apply good_failure]. destruct (cl_compute_view c _ _ _ _); [by apply good_success|].
  unfold view_failure. repeat destruct (contains_chars _ _); by apply good_failure.
Qed.

Lemma kv_good request n : consistent n -> good request (handle_host_kv_read request n) /\ good request (handle_host_kv_intervene request n).
Proof.
  intros H. assert (Hv : forall h resp, validate_kv_handle (h_core (n_host n)) request h = Err resp -> exists e, resp = Response_error (req_id request) e).
  { intros h resp. unfold validate_kv_handle. destruct (w_model_handle _); [|intros [= <-]; by eexists]. destruct (_ =? _); [done|intros [= <-]; by eexists]. }
  split; (apply good_params; [done|]; intros req; destruct (validate_kv_handle _ _ _) as [[]|resp] eqn:E;
    [|destruct (Hv _ _ E) as [e ->]; by apply good_failure]).
  - by apply good_success.
  - destruct (Kv.intervene _ _ _) as [resp kv]. apply good_success. destruct H as [H1 H2 H3 H4 H5]. by split.
Qed.

(** A checkpoint changes the arena, the outputs, the generators and files only. *)
Record same_model (h h' : Host) : Prop := {
  sm_setup : setup (set_w_arena None (h_core h')) = setup (set_w_arena None (h_core h));
  sm_outputs : has_outputs (h_core h) -> has_outputs (h_core h');
  sm_modules : h_module_paths h' = h_module_paths h;
  sm_arena : arena_indexed (h_core h) -> arena_indexed (h_core h')
}.

#[local] Instance same_model_preorder : PreOrder same_model.
Proof. split; [by split|]. intros x y z [A1 A2 A3 A4] [B1 B2 B3 B4]. split; [congruence|tauto|congruence|tauto]. Qed.

Lemma consistent_host n h' :
  consistent n -> is_Some (w_component_map (h_core (n_host n))) -> same_model (n_host n) h' -> consistent (mkNode h' (n_ring n) (n_world n)).
Proof.
  intros [H1 H2 H3 H4 H5] [m Hm] [Hs Ho Hp Ha].
  pose proof (f_equal w_component_map Hs) as E1. pose proof (f_equal w_component_index Hs) as E2. pose proof (f_equal w_model_handle Hs) as E3.
  pose proof (f_equal w_active_probes Hs) as E4. cbn in E1, E2, E3, E4. split; cbn [n_host n_ring n_world].
  - cbn zeta. by rewrite E1, E2, E3, Hp.
  - by apply Ho.
  - cbn zeta. by rewrite E1, Hm.
  - by rewrite E4.
  - by apply Ha.
Qed.

Lemma same_arena a h : indexed a -> same_model h (set_arena a h).
Proof. intros Ha. split; [done|done|done|]. by intros _ a' [= <-]. Qed.
Lemma same_rng g h : same_model h (set_rng g h).
Proof. by split. Qed.
Lemma same_files f h : same_model h (set_files f h).
Proof. by split. Qed.
Lemma same_outputs d h : same_model h (set_outputs d h).
Proof. split; [done| |done|done]. intros _ _. cbn. eauto. Qed.

(** The arena operations of a checkpoint. *)
Lemma capture_layer_indexed env outputs id layer path a : indexed a -> indexed (capture_layer env outputs id layer path a).2.
Proof.
  intros H. unfold capture_layer. destruct (activation_available _ _ _) as [[]|]; [|done..].
  pose proof (indexed_alloc a id layer H) as Ha. destruct (alloc_slot a id layer) as [[[ptr hd]|e] a1]; [|exact Ha].
  destruct (capture_activation _ _ _ _) as [[[dtype shape]|e] written]; [|by apply indexed_region].
  destruct (forallb _ shape); by repeat apply indexed_region.
Qed.

Lemma capture_layers_indexed env outputs containers id layers : forall total a,
  indexed a -> indexed (capture_layers env outputs containers id layers total a).2.
Proof.
  induction layers as [|l r IH]; intros total a H; [done|]. cbn [capture_layers]. destruct (containers !! l) as [path|]; [|by apply IH].
  pose proof (capture_layer_indexed env outputs id l path a H) as Ha.
  destruct (capture_layer env outputs id l path a) as [[[n|]|e] a1]; [by apply IH..|done].
Qed.

Lemma save_rng_indexed id rng a a' : save_rng id rng a = Some a' -> indexed a -> indexed a'.
Proof.
  unfold save_rng. destruct rng as [bytes|]; [|by intros [= <-]]. intros E H. pose proof (indexed_alloc a id U32_MAX H) as Ha.
  destruct (alloc_slot a id U32_MAX) as [[[ptr hd]|e] a1]; [|by injection E as <-]. destruct (in_arena _ _ _); [|done].
  injection E as <-. by repeat apply indexed_region.
Qed.

Lemma spill_oldest_indexed env id a files : indexed a -> indexed (spill_oldest env id a files).1.
Proof.
  intros H. unfold spill_oldest. destruct (crowded a); [|done]. destruct (oldest_checkpoint a) as [o|]; [|done].
  destruct (_ && _); [|done]. unfold spill_checkpoint. repeat case_match; simplify_eq/=; try done; by apply indexed_free.
Qed.

Lemma create_same env request id tier a h resp h' :
  indexed a -> checkpoint_create env request id tier a h = Some (resp, h') -> answers_to request resp /\ same_model h h'.
Proof.
  intros Hix. unfold checkpoint_create. destruct (w_last_outputs _) as [outputs|]; [|intros [= <- <-]; split; [apply answer_failure|done]].
  cbv zeta. set (containers := build_layer_container_map _). set (layers := checkpoint_layers _).
  pose proof (capture_layers_indexed env outputs containers id layers 0 a Hix) as H1.
  destruct (capture_layers _ _ _ _ _ _ _) as [[total|e] a1]; [|intros [= <- <-]; split; [apply answer_failure|by apply same_arena, indexed_free]].
  destruct (save_rng _ _ _) as [a2|] eqn:E2; [|done]. cbn [mbind option_bind]. apply save_rng_indexed in E2; [|done].
  pose proof (spill_oldest_indexed env id a2 (h_files h) E2) as H3. destruct (spill_oldest _ _ _ _) as [a3 files].
  intros [= <- <-]. split; [apply answer_success|]. etrans; [by apply same_arena|apply same_files].
Qed.

Lemma restore_same env request id a h resp h' :
  checkpoint_restore env request id a h = Some (resp, h') -> answers_to request resp /\ same_model h h'.
Proof.
  unfold checkpoint_restore. cbv zeta. destruct (slot_info_for_checkpoint _ _ _) as [|x infos]; [intros [= <- <-]; split; [apply answer_failure|done]|].
  destruct (w_last_outputs _) as [outputs|]; [|intros [= <- <-]; split; [apply answer_failure|done]].
  destruct (rng_bytes _ _) as [rng|]; [|done]. cbn [mbind option_bind]. destruct (restore_slots _ _ _ _ _) as [[r outputs']|]; [|done].
  cbn [mbind option_bind]. intros [= <- <-]. split; [destruct r; [apply answer_success|apply answer_failure]|].
  etrans; [|apply same_outputs]. destruct rng; [apply same_rng|done].
Qed.

(** A request that is refused changes nothing. *)
Ltac refused := simplify_eq; rewrite ?node_eta; split; [apply answer_failure|done].

Lemma checkpoint_good env request n : consistent n -> good request (with_host (handle_host_checkpoint env request (n_host n)) n).
Proof.
  intros H resp n'. unfold with_host. destruct (handle_host_checkpoint env request (n_host n)) as [[r h']|] eqn:E; [|done].
  cbn [mbind option_bind]. intros [= <- <-].
  unfold handle_host_checkpoint, with_host_params in E. destruct (from_value _) as [req|e];
    [|refused].
  destruct (match req with HostCheckpointRequest_Create mh id _ _ _ => (mh, id) | HostCheckpointRequest_Restore mh id => (mh, id) end) as [mh id].
  destruct (negb _); [refused|].
  destruct (w_model_handle _) as [handle|] eqn:Eh; [|refused].
  destruct (w_checkpoint_arena _) as [a|] eqn:Earena; [|refused].
  destruct (negb _); [refused|].
  pose proof (loaded n handle H Eh) as Hm. pose proof (cs_arena _ H a Earena) as Hix.
  destruct req; [apply (create_same _ _ _ _ _ _ _ _ Hix) in E as [Ha Hs]|apply restore_same in E as [Ha Hs]]; (split; [done|by apply consistent_host]).
Qed.

Lemma restore_replay_same id infos containers a outputs h r h' :
  restore_checkpoint_for_replay id infos containers a outputs h = Some (r, h') -> same_model h h'.
Proof.
  unfold restore_checkpoint_for_replay. destruct (rng_bytes a id) as [rng|]; [|done]. cbn [mbind option_bind].
  set (x := match rng with Some _ => _ | None => _ end).
  assert (Hx : same_model h x.2) by (subst x; destruct rng; [destruct (restore_rng_state _ _); apply same_rng|done]).
  destruct x as [r1 h1]. cbn [snd] in Hx. destruct r1; [|by intros [= _ <-]].
  destruct (restore_slots _ _ _ _ _) as [[r2 o]|]; [|done]. cbn [mbind option_bind]. intros [= _ <-]. etrans; [exact Hx|apply same_outputs].
Qed.

Lemma replay_good env fuel elapsed start request n :
  consistent n -> good request (with_host (handle_host_replay env fuel elapsed start request (n_host n)) n).
Proof.
  intros H resp n'. unfold with_host. destruct (handle_host_replay env fuel elapsed start request (n_host n)) as [[r h']|] eqn:E; [|done].
  cbn [mbind option_bind]. intros [= <- <-].
  unfold handle_host_replay, with_host_params in E. destruct (from_value _) as [req|e];
    [|refused]. cbv zeta in E.
  destruct (w_model_handle _) as [handle|] eqn:Eh; [|refused].
  destruct (negb _); [refused|].
  destruct (w_checkpoint_arena _) as [a|]; [|refused].
  destruct (slot_info_for_checkpoint _ _ _) as [|x infos]; [refused|].
  destruct (w_last_outputs _) as [outputs|]; [|refused].
  pose proof (loaded n handle H Eh) as Hm.
  destruct (restore_checkpoint_for_replay _ _ _ _ _ _) as [[r1 h1]|] eqn:Er; [|done]. cbn [mbind option_bind] in E. apply restore_replay_same in Er.
  destruct r1; [|injection E as <- <-; split; [apply answer_failure|by apply consistent_host]].
  destruct (replay_in_mode _ _ _ _ _ _) as [[r2 s']|] eqn:Em; [|done]. cbn [mbind option_bind] in E. apply replay_mode_within in Em.
  assert (Hs : consistent (mkNode (set_core s' h1) (n_ring n) (n_world n))).
  { apply (consistent_pass (mkNode h1 (n_ring n) (n_world n))); [by apply consistent_host| |done]. cbn [n_host].
    pose proof (f_equal w_component_map (sm_setup _ _ Er)) as Ec. cbn in Ec. by rewrite Ec. }
  destruct r2 as [rp|[|e]]; [|done|]; injection E as <- <-; split; done || apply answer_success || apply answer_failure.
Qed.

Lemma dispatch_good c request n : consistent n -> good request (dispatch c request n).
Proof.
  intros H. unfold dispatch. cbv zeta. destruct (kv_good request n H) as [Hk1 Hk2].
  repeat case_bool_decide.
  all: first [by apply attach_good|by apply detach_good|by apply step_good|by apply update_probes_good|by apply inspect_good|by apply view_good
    |exact Hk1|exact Hk2|by apply checkpoint_good|by apply replay_good|by apply good_failure|idtac].
  - apply good_params; [done|]. intros req. by apply good_success.
  - apply good_params; [done|]. intros req. destruct (cl_export_env c _); [by apply good_success|by apply good_failure].
Qed.

(** ** Sequences of requests *)

(** The responses to a sequence of requests, each with its own surroundings. *)
Fixpoint work (jobs : list (Call * Request)) (n : Node) : option (list Response * Node) :=
  match jobs with
  | [] => Some ([], n)
  | (c, request) :: jobs =>
      '(resp, n) ← dispatch c request n;
      '(resps, n) ← work jobs n;
      Some (resp :: resps, n)
  end.

Lemma work_good jobs n resps n' :
  consistent n -> work jobs n = Some (resps, n') -> consistent n' /\ Forall2 answers_to jobs.*2 resps.
Proof.
  revert n resps. induction jobs as [|[c request] jobs IH]; intros n resps H; cbn [work]; [by intros [= <- <-]|].
  destruct (dispatch c request n) as [[resp n1]|] eqn:E; [|done]. cbn [mbind option_bind].
  destruct (dispatch_good c request n H resp n1 E) as [Ha H1].
  destruct (work jobs n1) as [[rs n2]|] eqn:Ew; [|done]. cbn [mbind option_bind]. intros [= <- <-].
  destruct (IH n1 rs H1 Ew) as [Hc Hr]. split; [done|]. by constructor.
Qed.

Lemma new_consistent rng w : consistent (Node_new rng w).
Proof. split; [done|by intros []|done|done|done]. Qed.

(** ** Without a model *)

Definition model_methods : list string :=
  [internal.HOST_STEP; internal.HOST_INSPECT; internal.HOST_VIEW; internal.HOST_KV_READ; internal.HOST_KV_INTERVENE;
   internal.HOST_CHECKPOINT; internal.HOST_REPLAY].

Definition refuses (request : Request) (n : Node) (r : option (Response * Node)) : Prop :=
  exists e, r = Some (Response_error (req_id request) e, n) /\ (rpe_code e = INTERNAL_ERROR \/ rpe_code e = INVALID_PARAMS).

Lemma refuses_params {T} `{!Deserialize T} request n (k : T -> option (Response * Node)) :
  (forall req, refuses request n (k req)) -> refuses request n (with_host_params request (fun r => Some (r, n)) k).
Proof. intros Hk. unfold with_host_params. destruct (from_value _); [apply Hk|]. eexists. split; [reflexivity|by right]. Qed.

Lemma refuses_internal request n m : refuses request n (Some (internal_error (req_id request) m, n)).
Proof. eexists. split; [reflexivity|by left]. Qed.

Lemma refuses_host {T} `{!Deserialize T} request n (k : T -> option (Response * Host)) :
  (forall req, refuses request n (with_host (k req) n)) ->
  refuses request n (with_host (with_host_params request (fun r => Some (r, n_host n)) k) n).
Proof.
  intros Hk. unfold with_host_params. destruct (from_value _); [apply Hk|]. cbn. rewrite node_eta. eexists. split; [reflexivity|by right].
Qed.

Lemma unloaded_refuses c request n :
  w_model_handle (h_core (n_host n)) = None -> req_method request ∈ model_methods -> refuses request n (dispatch c request n).
Proof.
  intros Eh Hm. unfold model_methods in Hm. unfold dispatch. cbv zeta.
  repeat (apply elem_of_cons in Hm as [Em|Hm]; [rewrite Em|]); [..|by apply elem_of_nil in Hm].
  - change (refuses request n (handle_host_step c request n)). apply refuses_params. intros req. cbv zeta. rewrite Eh. apply refuses_internal.
  - change (refuses request n (handle_host_inspect request n)). apply refuses_params. intros req. cbv zeta. rewrite Eh. apply refuses_internal.
  - change (refuses request n (handle_host_view c request n)). apply refuses_params. intros req. cbv zeta. rewrite Eh. apply refuses_internal.
  - change (refuses request n (handle_host_kv_read request n)). apply refuses_params. intros req. unfold validate_kv_handle. rewrite Eh. apply refuses_internal.
  - change (refuses request n (handle_host_kv_intervene request n)). apply refuses_params. intros req. unfold validate_kv_handle. rewrite Eh. apply refuses_internal.
  - change (refuses request n (with_host (handle_host_checkpoint (cl_env c) request (n_host n)) n)). apply refuses_host. intros req.
    destruct (match req with HostCheckpointRequest_Create mh id _ _ _ => (mh, id) | HostCheckpointRequest_Restore mh id => (mh, id) end) as [mh id].
    destruct (negb _); [cbn; rewrite node_eta; eexists; split; [reflexivity|by right]|]. rewrite Eh. cbn. rewrite node_eta. apply refuses_internal.
  - change (refuses request n (with_host (handle_host_replay (cl_env c) (cl_fuel c) (cl_elapsed c) (cl_run_forward c None) request (n_host n)) n)).
    apply refuses_host. intros req. cbv zeta. rewrite Eh. cbn. rewrite node_eta. apply refuses_internal.
Qed.

(** Without a model every request that needs one - step, inspect, view, the
    KV cache, checkpoint and replay - is answered with an error, never panics,
    and changes nothing; and so it is after every detach whose parameters parse,
    whether or not Python managed to unload the model. *)
Theorem unloaded_worker_refuses (c : Call) (request : Request) (n : Node)
    (Hn : consistent n) (Hmethod : req_method request ∈ model_methods) :
  (w_component_map (h_core (n_host n)) = None -> refuses request n (dispatch c request n)) /\
  (forall c' detach (req : HostDetachRequest) resp n',
     req_method detach = internal.HOST_DETACH -> from_value (default (json_object []) (req_params detach)) = Ok req ->
     dispatch c' detach n = Some (resp, n') -> refuses request n' (dispatch c request n')).
Proof.
  split.
  - intros Hgone. apply unloaded_refuses; [|done]. pose proof (cs_model _ Hn) as Hm. cbv zeta in Hm. rewrite Hgone in Hm. by destruct Hm.
  - intros c' detach req resp n' Hm Hp. unfold dispatch at 1. rewrite Hm. change (handle_host_detach c' detach n = Some (resp, n') -> refuses request n' (dispatch c request n')).
    unfold handle_host_detach, with_host_params. rewrite Hp. cbv zeta. intros E. apply unloaded_refuses; [|done].
    set (n1 := mkNode (unload_state (n_host n)) (n_ring n) (n_world n)) in E.
    assert (En : n' = drop_ring n1) by (by destruct (cl_unload_model c' _); injection E as _ <-).
    rewrite En, (proj1 (drop_ring_host n1)). done.
Qed.

(** ** A fresh model *)

Definition ring_name (c : Call) : string := region_name (cl_pid c).

Lemma ring_name_length c : Z.of_nat (String.length (ring_name c)) <= PSHMNAMLEN_MAX.
Proof. vm_compute. discriminate. Qed.

(** What keeps the ring from being made: a failing system call, or its name in
    use. *)
Definition ring_blocked (c : Call) (w : World) : bool :=
  shm_open_fails (cl_faults c) || ftruncate_fails (cl_faults c) || mmap_fails (cl_faults c) || bool_decide (is_Some (objects w !! ring_name c)).

Lemma create_ring_cases c n :
  exists n', create_ring c n = Some n' /\ n_host n' = n_host n /\
    if ring_blocked c (n_world n) then n_ring n' = None
    else exists p, n_ring n' = Some p /\ ring_at p (n_world n') 0 [] /\ r_name (p_region p) = ring_name c.
Proof.
  unfold create_ring. destruct (RingConfig_new 16 (64 * 1024 * 1024)) as [cfg|e] eqn:E; [|vm_compute in E; discriminate E].
  destruct (RingConfig_new_ok 16 _ _ ltac:(lia) E) as [_ Hc].
  assert (Hmap : region_size cfg <= ISIZE_MAX) by (vm_compute in E; injection E as <-; vm_compute; discriminate). clear E. fold (ring_name c). unfold ring_blocked. set (name := ring_name c) in *.
  pose proof (region_size_range cfg Hc) as Hr. unfold CONTROL_SIZE, HEADER, PROBE_FRAME_HEADER_SIZE in Hr.
  destruct (init_control_ok cfg Hc) as [m Hm].
  unfold producer_create, Region_create, validate_name.
  replace (region_size cfg =? 0) with false by (symmetry; apply Z.eqb_neq; lia). pose proof (ring_name_length c) as Hlen. fold name in Hlen.
  rewrite (proj2 (Z.ltb_ge _ _)) by done.
  destruct (shm_open_fails (cl_faults c)); cbn [orb]; [by eexists|].
  destruct (bool_decide (is_Some (objects (n_world n) !! name))) eqn:Eo; [rewrite orb_true_r; by eexists|]. rewrite orb_false_r.
  destruct (ftruncate_fails (cl_faults c)); cbn [orb]; [by eexists|].
  destruct (mmap_fails (cl_faults c)); [by eexists|]. cbn [objects].
  rewrite lookup_insert_eq. change (default [] (Some (zeros (Z.to_nat (region_size cfg))))) with (zeros (Z.to_nat (region_size cfg))). rewrite Hm.
  eexists. split; [reflexivity|]. split; [done|]. eexists. split; [reflexivity|]. split; [|done]. split; [done|done|].
  exists m, []. cbn. split; [by rewrite lookup_insert_eq|]. by constructor.
Qed.

Definition element_size (dtype : option DType) : Z := match dtype with Some DType_Float16 | Some DType_Bfloat16 => 2 | _ => 4 end.

Lemma length_layers n : 0 <= n <= LAYER_BOUND -> Z.of_nat (List.length (checkpoint_layers n)) <= LAYER_BOUND.
Proof.
  intros Hn. pose proof (layers_good_at n Hn) as Hg. unfold layers_good in Hg. rewrite !andb_true_iff in Hg. destruct Hg as [[_ Hl] _].
  unfold ceil_sqrt in Hl. pose proof (Z.sqrt_le_lin n ltac:(lia)). destruct (n <=? 1); [unfold LAYER_BOUND in *; lia|]. cbv zeta in Hl.
  destruct (_ * _ =? _); lia.
Qed.

(** The size of a slot of the arena made at attach, and the number of slots: the
    environment's, or two full checkpoints and two slots to spare. *)
Definition slot_bytes (c : Call) (dtype : option DType) (info : ModelInfo) : Z :=
  u64_add (Z.of_nat SLOT_HEADER_SIZE)
    (align_up (u64_mul (u64_mul (mi_hidden_dim info) (default 2048 (cl_max_seq_len c ≫= fun v => parse_uint USIZE_MAX (chars v)))) (element_size dtype)) 64).

Definition full_checkpoint (info : ModelInfo) : Z := Z.of_nat (List.length (checkpoint_layers (mi_num_layers info))) + 1.

Definition arena_slots (c : Call) (dtype : option DType) (info : ModelInfo) : Z :=
  match cl_arena_mb c ≫= fun v => parse_uint USIZE_MAX (chars v) with
  | Some mb => Z.max (u64_mul (u64_mul mb 1024) 1024 / slot_bytes c dtype info) 2
  | None => full_checkpoint info * 2 + 2
  end.

Lemma slot_bytes_nonneg c dtype info : 0 <= slot_bytes c dtype info.
Proof. unfold slot_bytes, u64_add, u64_wrap. apply Z.mod_pos_bound. lia. Qed.

Lemma arena_slots_pos c dtype info : 2 <= arena_slots c dtype info.
Proof. unfold arena_slots, full_checkpoint. destruct (_ ≫= _); lia. Qed.

(** A slot size that wraps around to less than a header is a panic. *)
Lemma create_arena_panics c dtype info h :
  create_arena c dtype info h = None <-> slot_bytes c dtype info < Z.of_nat SLOT_HEADER_SIZE.
Proof.
  pose proof (slot_bytes_nonneg c dtype info) as H0.
  unfold create_arena, arena_geometry. fold (element_size dtype). fold (slot_bytes c dtype info). cbv zeta.
  assert (Hn : forall num, (r ← Arena_new (cl_mmap_ok c) (Z.to_nat (slot_bytes c dtype info)) num; Some (match r with Ok a => set_arena a h | Err _ => h end)) = None
    <-> slot_bytes c dtype info < Z.of_nat SLOT_HEADER_SIZE).
  { intros num. unfold Arena_new. destruct (Nat.ltb_spec (Z.to_nat (slot_bytes c dtype info)) SLOT_HEADER_SIZE) as [Hlt|Hge];
      cbn [mbind option_bind]; split; try done; unfold SLOT_HEADER_SIZE in *; lia. }
  destruct (cl_arena_mb c ≫= _) as [mb|]; [|apply Hn].
  destruct (Z.eqb_spec (slot_bytes c dtype info) 0) as [->|_]; [done|apply Hn].
Qed.

(** Otherwise there is a new arena, empty, of that size, or the old one stays:
    when the mapping fails or the capacity overflows. *)
Lemma create_arena_cases c dtype info h :
  Z.of_nat SLOT_HEADER_SIZE <= slot_bytes c dtype info ->
  if cl_mmap_ok c && (slot_bytes c dtype info * arena_slots c dtype info <=? U64_MAX)
  then exists a, create_arena c dtype info h = Some (set_arena a h) /\
         implements a (mkStore (Z.to_nat (arena_slots c dtype info)) ∅ ∅ []) /\ Z.of_nat (slot_size a) = slot_bytes c dtype info
  else create_arena c dtype info h = Some h.
Proof.
  intros Hs. pose proof (arena_slots_pos c dtype info) as Hp. unfold SLOT_HEADER_SIZE in Hs.
  assert (Hg : arena_geometry (cl_max_seq_len c) (cl_arena_mb c) dtype info = Some (slot_bytes c dtype info, arena_slots c dtype info)).
  { unfold arena_geometry, arena_slots, full_checkpoint. fold (element_size dtype). fold (slot_bytes c dtype info). cbv zeta.
    destruct (cl_arena_mb c ≫= _); [|done]. by rewrite (proj2 (Z.eqb_neq _ _)) by lia. }
  unfold create_arena. rewrite Hg. cbn [mbind option_bind]. set (ss := slot_bytes c dtype info) in *. set (ns := arena_slots c dtype info) in *.
  destruct (Arena_new (cl_mmap_ok c) (Z.to_nat ss) (Z.to_nat ns)) as [r|] eqn:E.
  2:{ exfalso. revert E. unfold Arena_new. destruct (Nat.ltb_spec (Z.to_nat ss) SLOT_HEADER_SIZE) as [Hlt|]; [unfold SLOT_HEADER_SIZE in Hlt; lia|done]. }
  pose proof E as E'. unfold Arena_new in E'. destruct (Nat.ltb _ _); [done|]. injection E' as E'.
  unfold ok_or, u64_checked_mul in E'. rewrite !Z2Nat.id in E' by lia.
  destruct (ss * ns <=? U64_MAX); [|rewrite andb_false_r; by subst r]. rewrite andb_true_r.
  cbn in E'. destruct (Z.eqb_spec (ss * ns) 0) as [Hz|_]; [exfalso; nia|].
  destruct (cl_mmap_ok c); cbn [negb] in E'; subst r; [|done].
  eexists. split; [reflexivity|]. apply arena_new_implements in E as [I ->]. split; [done|lia].
Qed.

(** The default sizes. *)
Lemma default_sizes c dtype info :
  cl_max_seq_len c = None -> cl_arena_mb c = None -> 0 <= mi_hidden_dim info < 2 ^ 32 -> 0 <= mi_num_layers info <= LAYER_BOUND ->
  Z.of_nat SLOT_HEADER_SIZE + mi_hidden_dim info * 2048 * element_size dtype <= slot_bytes c dtype info /\
  arena_slots c dtype info = full_checkpoint info * 2 + 2 /\ slot_bytes c dtype info * arena_slots c dtype info <= U64_MAX.
Proof.
  intros Hs Hm Hh Hn. unfold arena_slots, slot_bytes, full_checkpoint. rewrite Hs, Hm. cbn [mbind option_bind]. change (default 2048 None) with 2048.
  pose proof (length_layers _ Hn) as Hl. set (k := List.length _) in *.
  assert (He : element_size dtype = 2 \/ element_size dtype = 4) by (destruct dtype as [[]|]; auto).
  assert (Hp : 0 <= mi_hidden_dim info * 2048 * element_size dtype < 2 ^ 46) by (destruct He as [-> | ->]; lia).
  rewrite (u64_mul_small (mi_hidden_dim info) 2048) by (unfold U64_MAX; lia). rewrite u64_mul_small by (unfold U64_MAX; lia).
  set (size := mi_hidden_dim info * 2048 * element_size dtype) in *.
  pose proof (align_up_range size ltac:(lia) ltac:(unfold U64_MAX; lia)) as Ha.
  rewrite u64_add_small by (unfold U64_MAX, SLOT_HEADER_SIZE in *; lia). unfold SLOT_HEADER_SIZE, LAYER_BOUND, U64_MAX in *.
  split_and!; [lia|done|nia].
Qed.


(** ** The main loop *)

Context (parse_request : string -> result string Request) (print_response : Response -> string) (parse_failure : string -> string).

(** What the worker writes for each message. *)
Definition replies (calls : list Call) (texts : list string) (n : Node) : option (list string * Node) :=
  loop_replies dispatch parse_request print_response parse_failure calls texts n.

(** C26: the worker's main loop.  When the input is a sequence of framed
    messages, whatever follows them, the worker writes exactly one framed answer
    per message and in order: the response of [dispatch] to a message that is a
    request, from the state its predecessors left, and the parse error
    otherwise, which leaves the state alone.  A reader of that output gets the
    answers back one by one. *)
Theorem worker_serves_messages (calls : list Call) (texts : list string) (rest : list ascii) (n : Node)
    (Ht : Forall sendable texts) (Hl : List.length calls = List.length texts) :
  match serve parse_request print_response parse_failure calls (concat (map write_message texts) ++ rest) n [], replies calls texts n with
  | Some (written, n1), Some (out, n2) =>
      n1 = n2 /\ List.length out = List.length texts /\
      (Forall sendable out -> read_messages (List.length texts) written = Some (out, []))
  | None, None => True
  | _, _ => False
  end.
Proof. by apply message_loop_answers. Qed.

End Spec.

(** ** Concrete workers *)

Module Demo.

Definition attach_request (dtype : option DType) : @HostAttachRequest (@serde_value json_ref) := @mkHostAttachRequest (@serde_value json_ref) "gpt2" "gpt2" "cpu" dtype 0 None.

(** Only the parameters of attach and detach parse. *)
Definition wire : @WorkerWire json_ref.
Proof.
  unshelve econstructor. 1: exact (fun _ => Ok (attach_request None)). 1: exact (fun _ => Ok (mkHostDetachRequest 1)).
  1-10: exact (fun _ => Err "unknown"%string). all: exact (fun _ => JNull).
Defined.

Definition info (hidden : Z) : ModelInfo := mkModelInfo 1 4 2 hidden ["transformer"%string].

(** A process where system calls fail or not, with a small model. *)
Definition call (ok : bool) (hidden : Z) : @Call json_ref HostSpec.Demo.bridge :=
  @mkCall json_ref HostSpec.Demo.bridge HostSpec.Demo.surroundings 77 None None (mkFaults (negb ok) false false false) ok 10 0 0
    (fun _ _ _ => Ok 1) (fun _ => Ok (info hidden)) (fun _ => Ok (mkModelConfig "gpt2" 4 2 hidden None))
    (fun _ => Ok [mkRawModule "transformer.h.0.ln_1" "LayerNorm" "ln_1"]) (fun _ => Ok []) (fun _ => Err "still loaded"%string)
    (fun _ => Err "no input"%string) (fun _ _ _ _ => Err "no view"%string) (fun _ => Ok JNull).

Definition request (method : string) : @Request (@serde_value json_ref) :=
  @mkRequest (@serde_value json_ref) "2.0" (RequestId_Number 1) method None.

Definition fresh : @Node HostSpec.Demo.bridge HostSpec.Demo.python :=
  @Node_new HostSpec.Demo.bridge HostSpec.Demo.python [Byte.x07] (mkWorld ∅ 0).

#[local] Existing Instance winnow_ref.

Definition dispatch_in := @dispatch json_ref wire winnow_ref HostSpec.Demo.bridge HostSpec.Demo.python HostInspectSpec.Demo.tensors.
Definition work_in := @work json_ref wire winnow_ref HostSpec.Demo.bridge HostSpec.Demo.python HostInspectSpec.Demo.tensors.

End Demo.

Lemma unloaded_worker_refuses_witness :
  exists e, Demo.dispatch_in (Demo.call true 0) (Demo.request internal.HOST_STEP) Demo.fresh =
    Some (@Response_error (@serde_value json_ref) (RequestId_Number 1) e, Demo.fresh).
Proof.
  destruct (@unloaded_worker_refuses json_ref Demo.wire winnow_ref HostSpec.Demo.bridge HostSpec.Demo.python HostInspectSpec.Demo.tensors
    (Demo.call true 0) (Demo.request internal.HOST_STEP) Demo.fresh) as [H _].
  - apply new_consistent.
  - apply list_elem_of_here.
  - destruct (H eq_refl) as (e & E & _). exists e. exact E.
Defined.


(** A message that is no request, then one. *)
Lemma worker_serves_messages_witness :
  let parse t := if decide (t = "hello"%string) then Err "expected value"%string else Ok (Demo.request internal.HOST_STEP) in
  let print (_ : @Response (@serde_value json_ref)) := "no model"%string in
  exists written n, @serve json_ref Demo.wire winnow_ref HostSpec.Demo.bridge HostSpec.Demo.python HostInspectSpec.Demo.tensors
      parse print (fun e => e) [Demo.call true 0; Demo.call true 0] (concat (map write_message ["hello"; "step"]%string) ++ [CR]) Demo.fresh [] = Some (written, n) /\
    read_messages 2 written = Some (["expected value"; "no model"]%string, []).
Proof.
  intros parse print.
  pose proof (@worker_serves_messages json_ref Demo.wire winnow_ref HostSpec.Demo.bridge HostSpec.Demo.python HostInspectSpec.Demo.tensors parse print
    (fun e => e) [Demo.call true 0; Demo.call true 0] ["hello"; "step"]%string [CR] Demo.fresh) as H.
  assert (Hr : @replies json_ref Demo.wire winnow_ref HostSpec.Demo.bridge HostSpec.Demo.python HostInspectSpec.Demo.tensors parse print (fun e => e)
    [Demo.call true 0; Demo.call true 0] ["hello"; "step"]%string Demo.fresh = Some (["expected value"; "no model"]%string, Demo.fresh)) by (vm_compute; reflexivity).
  rewrite Hr in H. destruct (serve _ _ _ _ _ _ _) as [[written n]|].
  - exists written, n. split; [reflexivity|]. destruct H as (_ & _ & H); [repeat constructor; vm_compute; discriminate|reflexivity|].
    apply H. repeat constructor; vm_compute; discriminate.
  - destruct H; [repeat constructor; vm_compute; discriminate|reflexivity].
Defined.
