(* ===== verification/HostTotal.v ===== *)
(** * HostTotal: the worker serves every request

    What can stop the worker's process inside a request, case by case - a pass
    that never ends, and the panics and overruns the code allows - and the proof
    that nothing else does: any other request, in any sequence, is answered, and
    between requests the worker's state is consistent. *)

From Stdlib Require Import ZArith Lia Ascii String.
From coqutil Require Import Byte.
From stdpp Require Import base gmap strings list fin_maps sets.
From S2P Require Import Prelude Framing Winnow Grammar Protocol Stdio Messages Frame Shm RingConc Adapter Tick Kv Arena Spill Json Dispatch Worker WorkerSpec Host HostSpec HostInspect HostInspectSpec Replay HostDispatch HostDispatchSpec.
Open Scope Z_scope.

Section Total.
Context `{J : SerdeJson} {WW : WorkerWire} {W : Winnow} {B : PyBridge} {HB : HostBridge} {IB : InspectBridge}.

(** ** Passes *)

(** The pass delivers at least [k] more messages before its completion, for some
    answers to them; [rs] are the answers so far. *)
Definition goes_on (m : Model) (rs : list (option Tensor)) (k : nat) : Prop :=
  exists xs : list (option Tensor), List.length xs = k /\
  forall j, (j < k)%nat -> exists msg, m (rs ++ take j xs) = Ok msg /\ msg_path msg <> FORWARD_COMPLETE_SENTINEL.

Lemma goes_on_nil m rs : goes_on m rs 0.
Proof. exists []. split; [done|]. intros j Hj. lia. Qed.

Lemma goes_on_cons m rs x msg k :
  m rs = Ok msg -> msg_path msg <> FORWARD_COMPLETE_SENTINEL -> goes_on m (rs ++ [x]) k -> goes_on m rs (S k).
Proof.
  intros Hm Hp (xs & Hl & H). exists (x :: xs). split; [cbn; lia|].
  intros [|j] Hj; cbn [take]; [rewrite app_nil_r; by exists msg|].
  destruct (H j ltac:(lia)) as (msg' & E & Hp'). exists msg'. by rewrite <- app_assoc in E.
Qed.

(** What a recipe's target can do to the worker: a text that cannot be cut at
    its bracket, or a head of a model without heads or of a tensor without
    dimensions. *)
Definition names_head (target : string) : Prop := exists h, extract_head_index target = Some (Some h).
Definition head_panic (num_heads : Z) : Prop := num_heads = 0 \/ exists t, tensor_shape t = Ok [].
Definition recipes_panic (num_heads : Z) (rs : list InterventionRecipe) : Prop :=
  (exists r, r ∈ rs /\ extract_head_index (ir_target r) = None) \/
  ((exists r, r ∈ rs /\ names_head (ir_target r)) /\ head_panic num_heads).

Lemma lift_panic {A} (r : result PyErr A) : lift r <> Err Panic.
Proof. by destruct r. Qed.

Lemma split_recipes_spec canonical rs :
  match split_recipes canonical rs with
  | Ok (heads, _) => heads <> [] -> exists r, r ∈ rs /\ names_head (ir_target r)
  | Err Panic => exists r, r ∈ rs /\ extract_head_index (ir_target r) = None
  | Err (Error _) => False
  end.
Proof.
  induction rs as [|r rs IH]; cbn [split_recipes]; [done|].
  destruct (extract_head_index (ir_target r)) as [h|] eqn:E; [|exists r; split; [set_solver|done]].
  destruct (split_recipes canonical rs) as [[heads regular]|[|e]].
  - destruct h as [[st hi]|].
    + destruct (_ && _); intros _; exists r; (split; [set_solver|]); by exists (st, hi).
    + intros Hne. destruct (IH Hne) as (r' & Hin & Hh). exists r'. split; [set_solver|done].
  - destruct IH as (r' & Hin & Hh). exists r'. split; [set_solver|done].
  - done.
Qed.

Lemma apply_heads_panic s layer canonical handle heads : forall current fired,
  apply_heads s layer canonical handle heads current fired = Err Panic -> heads <> [] /\ head_panic (w_num_heads s).
Proof.
  induction heads as [|[r i] heads IH]; intros current fired; [done|]. cbn [apply_heads].
  destruct (tensor_shape current) as [shape|e] eqn:Es; [|done]. cbn [lift].
  destruct (last shape) as [d|] eqn:El; [|intros _; split; [done|]; right; exists current; by destruct shape; [|apply last_None in El]].
  cbv zeta. destruct (w_num_heads s =? 0) eqn:En; [intros _; split; [done|]; left; lia|].
  destruct (tensor_getitem _ _ _); [|done]. cbn [lift]. destruct (tensor_clone _); [|done]. cbn [lift].
  unfold apply_at. destruct (apply_interventions_at_point _ _ _ _ _ _ _ _ _) as [[md f]|]; [|done]. cbn [lift].
  destruct (tensor_setitem _ _ _ _); [|done]. cbn [lift]. intros H. apply IH in H as [_ H]. done.
Qed.

Lemma try_apply_panic s layer canonical handle req msg :
  try_apply_interventions s layer canonical handle req msg = Err Panic -> recipes_panic (w_num_heads s) (hsreq_interventions req).
Proof.
  unfold try_apply_interventions. destruct (hsreq_interventions req) as [|r rs]; [done|]. destruct (msg_output msg) as [[output|]|]; [|done..].
  pose proof (split_recipes_spec canonical (r :: rs)) as Hs. destruct (split_recipes canonical (r :: rs)) as [[heads regular]|[|e]]; [|by left|done].
  destruct (match heads with [] => Ok output | _ => lift (tensor_clone output) end) as [current|[|e]] eqn:Ec; [| |done].
  2:{ destruct heads; [done|]. by apply lift_panic in Ec. }
  destruct (apply_heads s layer canonical handle heads current []) as [[c f]|[|e]] eqn:Eh; [| |done].
  - destruct regular as [|r0 regular]; [by destruct f|]. unfold apply_at.
    destruct (apply_interventions_at_point _ _ _ _ _ _ _ _ _) as [[md g]|]; [|done]. cbn [lift]. by destruct (f ++ g).
  - intros _. apply apply_heads_panic in Eh as [Hne Hp]. right. split; [by apply Hs|done].
Qed.

(** One turn of the step loop that does not end it. *)
Lemma loop_body_continue now handle req plan max l l' m (rs : list (option Tensor)) b :
  w_forward_pass (l_state l) = Some (mkForwardPassState m rs b) ->
  loop_body now handle req plan max l = (Ok Continue, l') ->
  exists msg x, m rs = Ok msg /\ msg_path msg <> FORWARD_COMPLETE_SENTINEL /\
    w_forward_pass (l_state l') = Some (mkForwardPassState m (rs ++ [x]) b).
Proof.
  intros Hf. unfold loop_body. cbv zeta. rewrite Hf. cbn [fp_model fp_resumes].
  destruct (m rs) as [msg|e] eqn:Em; [|done]. case_bool_decide as Hp; [done|].
  destruct (lookup_component _ _ _) as [[cn ly]|e]; [|done]. destruct (tick_events _ _ _ _ _ _ _ _) as [events truncated].
  destruct (try_apply_interventions _ _ _ _ _ _) as [ir|e]; [|done].
  destruct (count_tick _ _ _ _ _) as [[[[] tk] tr] dr]; [done|].
  assert (Hput : forall x s, w_forward_pass s = Some (mkForwardPassState m rs b) ->
    w_forward_pass (put_resume x s) = Some (mkForwardPassState m (rs ++ [x]) b)) by (intros x s E; unfold put_resume; by rewrite E).
  destruct ir as [[t fired]|]; intros [= <-]; exists msg; eexists; (split; [done|]); (split; [done|]); cbn [l_state]; apply Hput; cbn; by rewrite stash_pass.
Qed.

Lemma loop_body_panic now handle req plan max l m (rs : list (option Tensor)) b :
  w_forward_pass (l_state l) = Some (mkForwardPassState m rs b) -> index_ok (l_state l) ->
  (loop_body now handle req plan max l).1 = Err Panic -> recipes_panic (w_num_heads (l_state l)) (hsreq_interventions req).
Proof.
  intros Hf Hix. unfold loop_body. cbv zeta. rewrite Hf. cbn [fp_model fp_resumes].
  destruct (m rs) as [msg|e]; [|done]. case_bool_decide as Hp; [done|].
  pose proof (stash_env msg (l_state l)) as He. set (s1 := stash_tensor_output msg (l_state l)) in *.
  pose proof (lookup_coord s1 (key msg) (index_ok_env _ _ He Hix)) as Hl. cbn [key fst snd] in Hl. rewrite Hl.
  destruct (coord s1 (key msg)) as [cn ly]. destruct (tick_events _ _ _ _ _ _ _ _) as [events truncated].
  destruct (try_apply_interventions _ _ _ _ _ _) as [ir|f] eqn:Ea.
  - destruct (count_tick _ _ _ _ _) as [[[[] tk] tr] dr]; [done|]. by destruct ir as [[]|].
  - cbn. intros [= ->]. apply try_apply_panic in Ea. by rewrite <- (se_heads _ _ He).
Qed.

(** The loop runs out of fuel only while the pass goes on, and panics only over
    the recipes. *)
Lemma step_loop_stops fuel now handle req plan max : forall l m (rs : list (option Tensor)) b,
  w_forward_pass (l_state l) = Some (mkForwardPassState m rs b) -> index_ok (l_state l) ->
  match step_loop fuel now handle req plan max l with
  | None => goes_on m rs fuel
  | Some (Err Panic, _) => recipes_panic (w_num_heads (l_state l)) (hsreq_interventions req)
  | _ => True
  end.
Proof.
  induction fuel as [|fuel IH]; intros l m rs b Hf Hix; [apply goes_on_nil|]. cbn [step_loop].
  pose proof (loop_body_continue now handle req plan max l) as Hc. pose proof (loop_body_panic now handle req plan max l m rs b Hf Hix) as Hp.
  pose proof (loop_body_within now handle req plan max l) as [Hs _].
  destruct (loop_body now handle req plan max l) as [[[]|[|e]] l1]; cbn [fst snd] in *; try done; [|by apply Hp].
  destruct (Hc l1 m rs b Hf eq_refl) as (msg & x & Hm & Hns & Hf1).
  specialize (IH l1 m (rs ++ [x]) b Hf1 (index_ok_env _ _ (setup_env _ _ Hs) Hix)).
  destruct (step_loop fuel now handle req plan max l1) as [[[next|[|e]] l2]|]; try done.
  - by rewrite <- (se_heads _ _ (setup_env _ _ Hs)).
  - by eapply goes_on_cons.
Qed.

Lemma run_step_stops fuel now elapsed handle start req s :
  index_ok s ->
  match run_step_loop fuel now elapsed handle start req s with
  | None => exists m rs, pass_of start s m rs /\ goes_on m rs fuel
  | Some (Err Panic, _) => recipes_panic (w_num_heads s) (hsreq_interventions req)
  | _ => True
  end.
Proof.
  intros Hix. unfold run_step_loop. cbv zeta. set (plan := plan_step _ _). set (max := default 256 _).
  assert (Hpass : (exists e, start = Err e /\ w_forward_pass (teardown s) = None) \/ exists m rs, pass_of start s m rs).
  { unfold pass_of. destruct (w_forward_pass (teardown s)) as [fp|]; [right; eauto|]. destruct start; [right; eauto|left; eauto]. }
  destruct Hpass as [(e & -> & Hn)|(m & rs & Hpass)]; [unfold ensure_forward_pass; by rewrite Hn|].
  destruct (enter_loop start s m rs elapsed Hpass) as (s1 & E1 & He & Ht & Hf & Hly).
  change (match w_forward_pass (teardown s) with Some _ => true | None => false end) with (resuming s). rewrite E1.
  set (l0 := mkLoop _ 0 _ Counting [] false []).
  pose proof (step_loop_stops fuel now handle req plan max l0 m rs false Hf (index_ok_env _ _ He Hix)) as H.
  cbn [l0 l_state] in H. rewrite (se_heads _ _ He) in H.
  destruct (step_loop fuel now handle req plan max l0) as [[[next|[|e]] l']|]; [by destruct next|done..|eauto].
Qed.

(** ** Replays *)

(** A copy behind a slot of the checkpoint would leave the arena's mapping: the
    length is the one in the slot's header, or in the header listed for its
    layer. *)
Definition overruns (env : Surroundings) (a : Arena) (id : string) : Prop :=
  exists layer ptr h len, get_slot a id layer = Some (Some (ptr, h)) /\ in_arena a ptr (Z.to_nat len) = false /\
    (len = sh_byte_len h \/ exists off h', (layer, off, h') ∈ slot_info_for_checkpoint a (iter env (index a)) id /\ len = sh_byte_len h').

Lemma get_slot_indexed a id l : indexed a -> get_slot a id l <> None.
Proof.
  intros H. unfold get_slot. destruct (index a !! (id, l)) as [d|] eqn:E; [|done]. destruct (H _ _ E) as [x ->]. done.
Qed.

Lemma rng_bytes_stops env a id : indexed a -> rng_bytes a id = None -> overruns env a id.
Proof.
  intros H. unfold rng_bytes. pose proof (get_slot_indexed a id U32_MAX H) as Hg.
  destruct (get_slot a id U32_MAX) as [[[ptr h]|]|] eqn:E; [|done..]. cbn [mbind option_bind].
  destruct (in_arena a ptr _) eqn:Ei; [done|]. intros _. exists U32_MAX, ptr, h, (sh_byte_len h). auto.
Qed.

Lemma restore_slots_stops env a id containers : indexed a -> forall infos outputs,
  infos ⊆ slot_info_for_checkpoint a (iter env (index a)) id ->
  restore_slots a id containers infos outputs = None -> overruns env a id.
Proof.
  intros H. induction infos as [|[[layer off] header] rest IH]; intros outputs Hsub; [done|]. cbn [restore_slots].
  assert (Hrest : rest ⊆ slot_info_for_checkpoint a (iter env (index a)) id) by set_solver.
  destruct (layer =? U32_MAX); [by apply IH|]. destruct (containers !! layer) as [path|]; [|done].
  pose proof (get_slot_indexed a id layer H) as Hg. destruct (get_slot a id layer) as [[[ptr h]|]|] eqn:E; [|by apply IH|done].
  cbn [mbind option_bind]. destruct (in_arena a ptr _) eqn:Ei.
  - destruct (restore_activation _ _ _ _ _ _) as [[]]; [by apply IH|done].
  - intros _. exists layer, ptr, h, (sh_byte_len header). split_and!; [done|done|]. right. exists off, header. split; [set_solver|done].
Qed.

Lemma check_panic env s layer canonical msg pre ctx a :
  w_checkpoint_arena s = Some a -> indexed a ->
  check_divergence_at_boundary s layer canonical msg pre ctx = Err Panic -> overruns env a (rc_checkpoint_id ctx).
Proof.
  intros Ha H. unfold check_divergence_at_boundary. destruct (negb _); [done|]. rewrite Ha.
  pose proof (get_slot_indexed a (rc_checkpoint_id ctx) layer H) as Hg.
  destruct (get_slot a (rc_checkpoint_id ctx) layer) as [[[ptr h]|]|] eqn:E; [|done..].
  destruct (msg_output msg) as [[output|]|]; [|done..]. cbv zeta. destruct (in_arena a ptr _) eqn:Ei; cbn [negb].
  - by destruct (compare_activations _ _ _ _ _ _) as [[[]|]|].
  - intros _. exists layer, ptr, h, (sh_byte_len h). auto.
Qed.

Lemma replay_interventions_panic s layer canonical handle rs msg : replay_interventions s layer canonical handle rs msg <> Err Panic.
Proof.
  unfold replay_interventions. destruct rs; [done|]. destruct (msg_output msg) as [[output|]|]; [|done..].
  unfold apply_at. destruct (apply_interventions_at_point _ _ _ _ _ _ _ _ _) as [[x f]|]; [|done]. by destruct f.
Qed.

Lemma check_id s layer canonical msg pre ctx ctx' :
  check_divergence_at_boundary s layer canonical msg pre ctx = Ok ctx' -> rc_checkpoint_id ctx' = rc_checkpoint_id ctx.
Proof.
  unfold check_divergence_at_boundary. repeat case_match; intros; simplify_eq/=; done.
Qed.

Lemma replay_body_stops env handle pre l m (rs : list (option Tensor)) b a :
  w_forward_pass (rl_state l) = Some (mkForwardPassState m rs b) -> index_ok (rl_state l) ->
  w_checkpoint_arena (rl_state l) = Some a -> indexed a ->
  match replay_body handle pre l with
  | (Err Panic, _) => overruns env a (rc_checkpoint_id (rl_ctx l))
  | (Ok Continue, l') => rc_checkpoint_id (rl_ctx l') = rc_checkpoint_id (rl_ctx l) /\
      exists msg x, m rs = Ok msg /\ msg_path msg <> FORWARD_COMPLETE_SENTINEL /\
        w_forward_pass (rl_state l') = Some (mkForwardPassState m (rs ++ [x]) b)
  | _ => True
  end.
Proof.
  intros Hf Hix Ha Hia. unfold replay_body. cbv zeta. rewrite Hf. cbn [fp_model fp_resumes].
  destruct (m rs) as [msg|e] eqn:Em; [|done]. case_bool_decide as Hp; [done|].
  pose proof (stash_env msg (rl_state l)) as He. pose proof (stash_setup msg (rl_state l)) as Hs. pose proof (stash_pass msg (rl_state l)) as Hfp.
  set (s1 := stash_tensor_output msg (rl_state l)) in *.
  pose proof (lookup_coord s1 (key msg) (index_ok_env _ _ He Hix)) as Hl. cbn [key fst snd] in Hl. rewrite Hl.
  destruct (coord s1 (key msg)) as [cn ly]. set (s2 := set_w_tick_state _ s1).
  assert (Ha2 : w_checkpoint_arena s2 = Some a) by (apply (f_equal w_checkpoint_arena) in Hs; cbn in Hs |- *; congruence).
  destruct (if rc_verify (rl_ctx l) && _ then _ else _) as [ctx|[|e]] eqn:Ec; [| |done].
  2:{ destruct (_ && _); [|done]. by apply (check_panic env) with (a := a) in Ec. }
  assert (Hid : rc_checkpoint_id ctx = rc_checkpoint_id (rl_ctx l)).
  { destruct (_ && _); [by apply check_id in Ec|congruence]. }
  destruct (should_stop ly cn ctx); [done|].
  pose proof (replay_interventions_panic s2 ly cn handle (rc_interventions ctx) msg) as Hr.
  destruct (replay_interventions _ _ _ _ _ _) as [x|[|e]]; [|done..].
  split; [done|]. exists msg, x. split_and!; [done|done|]. unfold put_resume. cbn [rl_state]. cbn. rewrite Hfp, Hf. done.
Qed.

Lemma replay_loop_stops env fuel handle pre : forall l m (rs : list (option Tensor)) b a,
  w_forward_pass (rl_state l) = Some (mkForwardPassState m rs b) -> index_ok (rl_state l) ->
  w_checkpoint_arena (rl_state l) = Some a -> indexed a ->
  match replay_loop fuel handle pre l with
  | None => goes_on m rs fuel
  | Some (Err Panic, _) => overruns env a (rc_checkpoint_id (rl_ctx l))
  | _ => True
  end.
Proof.
  induction fuel as [|fuel IH]; intros l m rs b a Hf Hix Ha Hia; [apply goes_on_nil|]. cbn [replay_loop].
  pose proof (replay_body_stops env handle pre l m rs b a Hf Hix Ha Hia) as Hb. pose proof (replay_body_within handle pre l) as [Hs _].
  destruct (replay_body handle pre l) as [[[]|[|e]] l1]; cbn [snd] in Hs; try done.
  destruct Hb as (Hid & msg & x & Hm & Hp & Hf1).
  specialize (IH l1 m (rs ++ [x]) b a Hf1 (index_ok_env _ _ (setup_env _ _ Hs) Hix)).
  specialize (IH ltac:(apply (f_equal w_checkpoint_arena) in Hs; cbn in Hs; congruence) Hia). rewrite Hid in IH.
  destruct (replay_loop fuel handle pre l1) as [[[next|[|e]] l2]|]; try done. by eapply goes_on_cons.
Qed.

Lemma replay_mode_stops env fuel elapsed handle start ctx s a :
  index_ok s -> w_checkpoint_arena s = Some a -> indexed a ->
  match replay_in_mode fuel elapsed handle start ctx s with
  | None => exists m, start = Ok m /\ goes_on m [] fuel
  | Some (Err Panic, _) => overruns env a (rc_checkpoint_id ctx)
  | _ => True
  end.
Proof.
  intros Hix Ha Hia. unfold replay_in_mode.
  destruct (if rc_deterministic ctx then lift (use_deterministic_algorithms true) else Ok tt) as [[]|[|e]] eqn:Ed; [| |done].
  2:{ destruct (rc_deterministic ctx); [by apply lift_panic in Ed|done]. }
  unfold run_replay_loop, ensure_forward_pass. cbn [set_w_forward_pass w_forward_pass].
  destruct start as [m|e]; [|done]. set (s1 := set_w_forward_pass _ _).
  pose proof (replay_loop_stops env fuel handle (tick_id (w_tick_state s)) (mkReplayLoop s1 ctx 0) m [] false a eq_refl Hix Ha Hia) as H.
  destruct (replay_loop _ _ _ _) as [[[next|[|e]] l2]|]; cbn [mbind option_bind]; [|done..|by exists m].
  destruct (if rc_deterministic ctx then lift (use_deterministic_algorithms false) else Ok tt) as [[]|[|e]] eqn:Ed2; [done| |done].
  destruct (rc_deterministic ctx); [by apply lift_panic in Ed2|done].
Qed.

(** ** Tensors of an inspection *)

Lemma length_frame_header layer shape bytes mt : List.length (frame_header layer shape bytes mt) = PROBE_FRAME_HEADER_SIZE.
Proof.
  change (frame_header layer shape bytes mt) with (serialize (header_of layer shape bytes mt)).
  unfold serialize. rewrite length_apply_writes; [done|]. apply header_layout_ok, length_frame_shape.
Qed.

Lemma try_shm_publish_some c t ring w : is_Some (try_shm_publish c t ring w).
Proof.
  unfold try_shm_publish. destruct ring as [p|]; [|by eexists]. unfold publish. rewrite length_frame_header, Nat.eqb_refl. cbn [negb].
  destruct (slot_data_capacity (p_config p) <? _); [by eexists|]. destruct (atomic_load_u64 _ _) as [nt|]; [|by eexists].
  destruct (backuptics (p_config p) <=? _); [by eexists|]. destruct (write_bytes _ _ _) as [m1|]; [|by eexists].
  destruct (write_bytes _ _ m1) as [m2|]; [|by eexists]. destruct (atomic_store_u64 _ _ m2); by eexists.
Qed.

Lemma inspect_tensor_panic num_heads head_index c t :
  inspect_tensor num_heads head_index c t = Err Panic -> is_Some head_index /\ head_panic num_heads.
Proof.
  unfold inspect_tensor.
  assert (Hrest : forall t : Tensor, (let? bytes := lift (tensor_to_bytes t) in let? shape := lift (tensor_shape t) in
      let? dtype := lift (get_tensor_dtype t) in let? device := lift (get_tensor_device t) in Ok (mkCaptured bytes shape dtype device)) <> Err Panic).
  { intros t'. destruct (tensor_to_bytes t'); [|done]. destruct (tensor_shape t'); [|done]. destruct (get_tensor_dtype t'); [|done]. by destruct (get_tensor_device t'). }
  destruct head_index as [hi|]; [|intros H; by apply Hrest in H].
  destruct (bool_decide _); [|intros H; by apply Hrest in H]. unfold head_slice.
  destruct (tensor_shape t) as [shape|] eqn:Es; [|done]. cbn [lift].
  destruct (last shape) as [d|] eqn:El; [|intros _; split; [by eexists|]; right; exists t; by apply last_None in El as ->].
  destruct (num_heads =? 0) eqn:En; [intros _; split; [by eexists|]; left; lia|]. cbv zeta.
  destruct (tensor_getitem _ _ _) as [part|]; [|done]. cbn [lift]. destruct (tensor_contiguous part) as [t2|]; [|done]. intros H. by apply Hrest in H.
Qed.

Lemma collect_panic num_heads head_index outputs comps : forall ring w acc,
  (collect num_heads head_index outputs comps ring w acc).1.1 = Err Panic -> is_Some head_index /\ head_panic num_heads.
Proof.
  induction comps as [|c rest IH]; intros ring w acc; [done|]. cbn [collect].
  destruct (outputs !! _) as [t|]; [|by apply IH]. destruct (inspect_tensor num_heads head_index c t) as [cp|[|e]] eqn:E; [|by apply inspect_tensor_panic in E|done].
  destruct (try_shm_publish_some c cp ring w) as [[[ct ring'] w'] ->]. apply IH.
Qed.

(** ** The requests that stop the worker *)

Definition parsed {T} `{!Deserialize T} (request : Request) (req : T) : Prop :=
  from_value (default (json_object []) (req_params request)) = Ok req.

Inductive halts (c : Call) (request : Request) (n : Node) : Prop :=
  (** the slot size wraps around to less than a header *)
  | halts_attach (req : HostAttachRequest) dtype info config map containers :
      req_method request = internal.HOST_ATTACH -> parsed request req ->
      attach_dtype (HostAttachRequest_dtype req) = Ok dtype ->
      describe_model c request req dtype = Ok (info, config, map, containers) ->
      slot_bytes c (HostAttachRequest_dtype req) info < Z.of_nat SLOT_HEADER_SIZE -> halts c request n
  (** the pass goes on beyond the messages allowed for, or a recipe's head *)
  | halts_step_pass (req : HostStepRequest) m rs :
      req_method request = internal.HOST_STEP -> parsed request req ->
      pass_of (cl_run_forward c (hsreq_input_ids req)) (h_core (n_host n)) m rs -> goes_on m rs (cl_fuel c) -> halts c request n
  | halts_step_recipes (req : HostStepRequest) :
      req_method request = internal.HOST_STEP -> parsed request req ->
      recipes_panic (w_num_heads (h_core (n_host n))) (hsreq_interventions req) -> halts c request n
  (** a target that cannot be cut at its bracket, or a head of nothing *)
  | halts_inspect (req : HostInspectRequest) :
      req_method request = internal.HOST_INSPECT -> parsed request req ->
      (extract_head_index (HostInspectRequest_target req) = None \/
       names_head (HostInspectRequest_target req) /\ head_panic (w_num_heads (h_core (n_host n)))) -> halts c request n
  (** the generators' state does not fit before the end of the arena *)
  | halts_create mh id tier x y a outputs total a1 bytes ptr hd a2 :
      req_method request = internal.HOST_CHECKPOINT -> parsed request (HostCheckpointRequest_Create mh id tier x y) ->
      w_checkpoint_arena (h_core (n_host n)) = Some a -> w_last_outputs (h_core (n_host n)) = Some outputs ->
      capture_layers (cl_env c) outputs (build_layer_container_map (h_container_paths (n_host n))) id
        (checkpoint_layers (w_num_layers (h_core (n_host n)))) 0 a = (Ok total, a1) ->
      capture_rng_state (h_rng (n_host n)) = Ok bytes ->
      alloc_slot a1 id U32_MAX = (Ok (ptr, hd), a2) -> in_arena a2 ptr (List.length bytes) = false -> halts c request n
  (** a slot that claims more bytes than the arena has behind it *)
  | halts_restore mh id a :
      req_method request = internal.HOST_CHECKPOINT -> parsed request (HostCheckpointRequest_Restore mh id) ->
      w_checkpoint_arena (h_core (n_host n)) = Some a -> overruns (cl_env c) a id -> halts c request n
  | halts_replay_overrun (req : HostReplayRequest) a :
      req_method request = internal.HOST_REPLAY -> parsed request req ->
      w_checkpoint_arena (h_core (n_host n)) = Some a -> overruns (cl_env c) a (HostReplayRequest_checkpoint_id req) -> halts c request n
  | halts_replay_pass (req : HostReplayRequest) m :
      req_method request = internal.HOST_REPLAY -> parsed request req ->
      cl_run_forward c None = Ok m -> goes_on m [] (cl_fuel c) -> halts c request n.

Lemma with_params_none {T A} `{!Deserialize T} request (fail : Response -> option A) (k : T -> option A) :
  (forall r, fail r <> None) -> with_host_params request fail k = None -> exists req, parsed request req /\ k req = None.
Proof. intros Hf. unfold with_host_params, parsed. destruct (from_value _) as [req|]; [eauto|]. intros H. by apply Hf in H. Qed.

Lemma attach_stops c request n : req_method request = internal.HOST_ATTACH -> handle_host_attach c request n = None -> halts c request n.
Proof.
  intros Hm H. apply with_params_none in H as (req & Hp & H); [|done].
  destruct (attach_dtype _) as [dtype|] eqn:Ed; [|done]. destruct (describe_model c request req dtype) as [[[[info config] map] containers]|] eqn:Em; [|done].
  cbv zeta in H. destruct (create_ring_cases c (drop_ring (mkNode (load_model_state (HostAttachRequest_rank req) info map containers (n_host n)) (n_ring n) (n_world n)))) as (n1 & En & _).
  rewrite En in H. cbn [mbind option_bind] in H. destruct (create_arena c _ info (n_host n1)) eqn:Ea; [done|].
  apply create_arena_panics in Ea. by eapply halts_attach.
Qed.

Lemma step_stops c request n : index_ok (h_core (n_host n)) ->
  req_method request = internal.HOST_STEP -> handle_host_step c request n = None -> halts c request n.
Proof.
  intros Hix Hm H. apply with_params_none in H as (req & Hp & H); [|done]. cbv zeta in H.
  destruct (w_model_handle _) as [handle|]; [|done]. destruct (negb _); [done|]. destruct (w_component_map _); [|done].
  pose proof (run_step_stops (cl_fuel c) (cl_now c) (cl_elapsed c) handle (cl_run_forward c (hsreq_input_ids req)) req _ Hix) as Hs.
  destruct (run_step_loop _ _ _ _ _ _ _) as [[[resp|[|e]] s']|]; cbn [mbind option_bind] in H; [done| |done|].
  - by eapply halts_step_recipes.
  - destruct Hs as (m & rs & Hpass & Hgo). by eapply halts_step_pass.
Qed.

Lemma inspect_stops c request n :
  req_method request = internal.HOST_INSPECT -> handle_host_inspect request n = None -> halts c request n.
Proof.
  intros Hm H. apply with_params_none in H as (req & Hp & H); [|done]. cbv zeta in H.
  destruct (w_model_handle _) as [handle|]; [|done]. destruct (negb _); [done|]. destruct (w_component_map _) as [map|]; [|done].
  destruct (matched_components _ _) as [|c0 cs]; [done|].
  eapply halts_inspect; [done|exact Hp|]. destruct (extract_head_index _) as [hi|] eqn:Eh; [|by left]. right. cbn [mbind option_bind] in H.
  unfold collect_tensors in H. destruct (w_last_outputs _) as [outputs|]; [|done].
  pose proof (collect_panic (w_num_heads (h_core (n_host n))) (snd <$> hi) outputs (c0 :: cs) (n_ring n) (n_world n) []) as Hc.
  destruct (collect _ _ _ _ _ _ _) as [[[ts|[|e]] ring] w]; try done. destruct (Hc eq_refl) as [Hi Hh]. split; [|done].
  destruct hi as [h|]; [by exists h|by destruct Hi].
Qed.

Lemma checkpoint_stops c request n : arena_indexed (h_core (n_host n)) ->
  req_method request = internal.HOST_CHECKPOINT -> handle_host_checkpoint (cl_env c) request (n_host n) = None -> halts c request n.
Proof.
  intros Hia Hm H. apply with_params_none in H as (req & Hp & H); [|done].
  destruct req as [mh' id' tier x y|mh' id']; cbv zeta iota beta in H.
  all: destruct (negb _); [done|]; destruct (w_model_handle _) as [handle|]; [|done].
  all: destruct (w_checkpoint_arena _) as [a|] eqn:Ea; [|done]; destruct (negb _); [done|].
  - unfold checkpoint_create in H. destruct (w_last_outputs _) as [outputs|] eqn:Eo; [|done]. cbv zeta in H.
    destruct (capture_layers _ _ _ _ _ _ _) as [[total|e] a1] eqn:Ec; [|done].
    destruct (save_rng id' (capture_rng_state (h_rng (n_host n))) a1) as [a3|] eqn:Es.
    { cbn [mbind option_bind] in H. by destruct (spill_oldest (cl_env c) id' a3 (h_files (n_host n))). }
    unfold save_rng in Es. destruct (capture_rng_state _) as [bytes|] eqn:Er; [|done].
    destruct (alloc_slot a1 id' U32_MAX) as [[[ptr hd]|e] a2] eqn:El; [|done].
    destruct (in_arena a2 ptr (List.length bytes)) eqn:Ei; [done|]. by eapply halts_create.
  - eapply halts_restore; [done|exact Hp|done|]. unfold checkpoint_restore in H. cbv zeta in H.
    destruct (slot_info_for_checkpoint a _ id') as [|i0 infos] eqn:Ei; [done|]. destruct (w_last_outputs _) as [outputs|]; [|done].
    pose proof (rng_bytes_stops (cl_env c) a id' (Hia a Ea)) as Hr. destruct (rng_bytes a id') as [rng|]; [|by apply Hr]. cbn [mbind option_bind] in H.
    pose proof (restore_slots_stops (cl_env c) a id' (build_layer_container_map (h_container_paths (n_host n))) (Hia a Ea) (i0 :: infos) outputs) as Hs.
    rewrite Ei in Hs. destruct (restore_slots _ _ _ _ _) as [[r o]|]; [done|]. by apply Hs.
Qed.

Lemma replay_stops c request n : consistent n -> index_ok (h_core (n_host n)) ->
  req_method request = internal.HOST_REPLAY ->
  handle_host_replay (cl_env c) (cl_fuel c) (cl_elapsed c) (cl_run_forward c None) request (n_host n) = None -> halts c request n.
Proof.
  intros Hcs Hix Hm H. pose proof (cs_arena _ Hcs) as Hia. apply with_params_none in H as (req & Hp & H); [|done]. cbv zeta in H.
  destruct (w_model_handle _) as [handle|]; [|done]. destruct (negb _); [done|]. destruct (w_checkpoint_arena (h_core (n_host n))) as [a|] eqn:Ea; [|done].
  set (id := HostReplayRequest_checkpoint_id req) in *.
  destruct (slot_info_for_checkpoint a _ id) as [|i0 infos] eqn:Ei; [done|]. destruct (w_last_outputs _) as [outputs|] eqn:Eo; [|done].
  assert (Hover : overruns (cl_env c) a id -> halts c request n) by (intros; by eapply halts_replay_overrun).
  unfold restore_checkpoint_for_replay in H.
  pose proof (rng_bytes_stops (cl_env c) a id (Hia a Ea)) as Hr. destruct (rng_bytes a id) as [rng|]; [|by apply Hover, Hr]. cbn [mbind option_bind] in H.
  set (x := match rng with Some _ => _ | None => _ end) in H.
  assert (Hx : h_core x.2 = h_core (n_host n)) by (subst x; destruct rng; [by destruct (restore_rng_state _ _)|done]).
  destruct x as [[[]|e] h1]; cbn [snd] in Hx; [|done].
  pose proof (restore_slots_stops (cl_env c) a id (build_layer_container_map (h_container_paths (n_host n))) (Hia a Ea) (i0 :: infos) outputs) as Hs.
  rewrite Ei in Hs. destruct (restore_slots _ _ _ _ _) as [[r o]|]; [|by apply Hover, Hs]. cbn [mbind option_bind] in H.
  destruct r; [|done]. cbn [set_outputs set_core h_core] in H. rewrite Hx in H.
  pose proof (replay_mode_stops (cl_env c) (cl_fuel c) (cl_elapsed c) handle (cl_run_forward c None) (from_request req)
    (set_w_last_outputs (Some o) (h_core (n_host n))) a) as Hmode.
  specialize (Hmode (index_ok_env (h_core (n_host n)) _ ltac:(by split) Hix) Ea (Hia a Ea)).
  destruct (replay_in_mode _ _ _ _ _ _) as [[[resp|[|e]] s']|]; cbn [mbind option_bind] in H; [done|by apply Hover|done|].
  destruct Hmode as (m & Hstart & Hgo). by eapply halts_replay_pass.
Qed.

Lemma consistent_index n : consistent n -> index_ok (h_core (n_host n)).
Proof.
  intros H. pose proof (cs_model n H) as Hm. cbv zeta in Hm. destruct (w_component_map (h_core (n_host n))) as [m|] eqn:Em.
  - destruct Hm as (_ & Hx & _). by apply (build_index_ok _ m).
  - destruct Hm as (_ & Hx & _). intros k i. by rewrite Hx, lookup_empty.
Qed.

Lemma with_host_none r n : with_host r n = None -> r = None.
Proof. unfold with_host. by destruct r as [[]|]. Qed.

(** Nothing else stops the worker. *)
Lemma dispatch_stops c request n : consistent n -> dispatch c request n = None -> halts c request n.
Proof.
  intros H. pose proof (consistent_index n H) as Hix. unfold dispatch. cbv zeta.
  repeat case_bool_decide; try done.
  - by apply attach_stops.
  - intros (req & _ & Hn)%with_params_none; [|done]. cbv zeta in Hn. by destruct (cl_unload_model _ _).
  - intros (req & _ & Hn)%with_params_none; done.
  - by apply step_stops.
  - intros (req & _ & Hn)%with_params_none; done.
  - by apply inspect_stops.
  - intros (req & _ & Hn)%with_params_none; [|done]. cbv zeta in Hn. repeat case_match; done.
  - intros (req & _ & Hn)%with_params_none; [|done]. by destruct (validate_kv_handle _ _ _).
  - intros (req & _ & Hn)%with_params_none; [|done]. destruct (validate_kv_handle _ _ _); [|done]. by destruct (Kv.intervene _ _ _).
  - intros (req & _ & Hn)%with_params_none; [|done]. by destruct (cl_export_env _ _).
  - intros Hn%with_host_none. by apply checkpoint_stops; [apply cs_arena| |].
  - intros Hn%with_host_none. by apply replay_stops.
Qed.

Lemma work_stops jobs : forall n, consistent n -> work jobs n = None ->
  exists before c request after resps n1, jobs = before ++ (c, request) :: after /\
    work before n = Some (resps, n1) /\ consistent n1 /\ Forall2 answers_to before.*2 resps /\ halts c request n1.
Proof.
  induction jobs as [|[c request] jobs IH]; intros n Hn; cbn [work]; [done|].
  destruct (dispatch c request n) as [[resp n1]|] eqn:E.
  - destruct (dispatch_good c request n Hn resp n1 E) as [Ha H1]. cbn [mbind option_bind].
    destruct (work jobs n1) as [[rs n2]|] eqn:Ew; [done|]. intros _.
    destruct (IH n1 H1 Ew) as (before & c' & request' & after & resps & n2 & -> & Hw & Hc & Hr & Hh).
    exists ((c, request) :: before), c', request', after, (resp :: resps), n2. split_and!; try done; [|by constructor].
    cbn [work]. rewrite E. cbn [mbind option_bind]. by rewrite Hw.
  - intros _. exists [], c, request, jobs, [], n. split_and!; try done. by apply dispatch_stops.
Qed.

(** C12: whatever Python, the file system and the clocks answer, a worker serves
    any sequence of requests: it gives one response per request, in order, with
    that request's id and either a result or an error, and between requests its
    state is consistent - the component map, the index, the module paths and the
    model handle belong together, so the lookup of a module during a pass never
    goes out of range; a running pass has its outputs; without a model there is
    no pass, no outputs, no arena and no ring; every active probe has the point
    it was defined with.  Only a request of [halts] can stop it, and then every
    request before it was answered from a consistent state: a step or replay
    whose pass is not over after the [cl_fuel] messages allowed for it, a
    checkpoint, restore or replay that would copy beyond the arena, a target or
    recipe whose head cannot be cut out (no closing text, no heads, a tensor
    without dimensions), and an attach whose slot size wraps around. *)
Theorem worker_stays_consistent (rng : Rng) (w : World) (jobs : list (Call * Request)) :
  match work jobs (Node_new rng w) with
  | Some (resps, n) =>
      consistent n /\ index_ok (h_core (n_host n)) /\
      (forall path ci, lookup_component path ci (h_core (n_host n)) <> Err Panic) /\
      Forall2 answers_to jobs.*2 resps
  | None =>
      exists before c request after resps n, jobs = before ++ (c, request) :: after /\
        work before (Node_new rng w) = Some (resps, n) /\ consistent n /\ Forall2 answers_to before.*2 resps /\ halts c request n
  end.
Proof.
  destruct (work jobs (Node_new rng w)) as [[resps n]|] eqn:E; [|apply work_stops; [apply new_consistent|done]].
  destruct (work_good _ _ _ _ (new_consistent rng w) E) as [H Hr]. pose proof (consistent_index n H) as Hi.
  split_and!; [done|done| |done]. intros path ci. pose proof (lookup_coord (h_core (n_host n)) (path, ci) Hi) as El. cbn [fst snd] in El. by rewrite El.
Qed.

End Total.

(** A model is attached although neither the ring nor the arena can be made. *)
Example attached_without_ring :
  match HostDispatchSpec.Demo.work_in [(HostDispatchSpec.Demo.call false 0, HostDispatchSpec.Demo.request internal.HOST_ATTACH);
                                       (HostDispatchSpec.Demo.call false 0, HostDispatchSpec.Demo.request "unknown")] HostDispatchSpec.Demo.fresh with
  | Some (resps, n) => List.length resps = 2%nat /\ w_model_handle (h_core (n_host n)) = Some 1 /\ n_ring n = None
  | None => False
  end.
Proof. vm_compute. split_and!; reflexivity. Qed.
