(* ===== verification/Python.v ===== *)
(** * Python: the interpreter as PyO3 shows it

    What the Rust code uses of PyO3: importing a module, taking an attribute,
    calling, and converting values in both directions.  The interpreter itself
    is the class [Interpreter]: any state, and any behaviour of imports,
    attributes and calls.  The conversions follow PyO3's documentation; objects
    of other types convert as the class says. *)

From Stdlib Require Import ZArith Lia Ascii String SpecFloat.
From coqutil Require Import Byte.
From stdpp Require Import base gmap strings list option.
From S2P Require Import Prelude Protocol Float Stats.
Open Scope Z_scope.

(** [O]: what has none of these types, tensors and modules included. *)
Inductive PyVal (O : Type) :=
| PyNone
| PyBool (b : bool)
| PyInt (z : Z)
| PyFloat (x : f64)
| PyStr (s : string)
| PyBytes (b : list byte)
| PyList (l : list (PyVal O))
| PyTuple (l : list (PyVal O))
| PyDict (l : list (PyVal O * PyVal O))
| PySet (l : list (PyVal O))
| PyObject (o : O).
Arguments PyNone {O}. Arguments PyBool {O}. Arguments PyInt {O}. Arguments PyFloat {O}. Arguments PyStr {O}.
Arguments PyBytes {O}. Arguments PyList {O}. Arguments PyTuple {O}. Arguments PyDict {O}. Arguments PySet {O}. Arguments PyObject {O}.

Class Interpreter := {
  Obj : Type;
  Interp : Type;
  Exception : Type;
  py_import : string -> Interp -> result Exception (PyVal Obj) * Interp;
  py_getattr : PyVal Obj -> string -> Interp -> result Exception (PyVal Obj) * Interp;
  py_call : PyVal Obj -> list (PyVal Obj) -> Interp -> result Exception (PyVal Obj) * Interp;
  (** [str(v)] *)
  py_str : PyVal Obj -> Interp -> result Exception string * Interp;
  (** [iter(v)], run to its end; the outer error is a value that cannot be iterated *)
  py_iter : PyVal Obj -> Interp -> result Exception (list (result Exception (PyVal Obj))) * Interp;
  (** [__index__], [__float__] and the sequence protocol of other objects *)
  obj_index : Obj -> option Z;
  obj_float : Obj -> option f64;
  obj_sequence : Obj -> option (list (PyVal Obj));
  (** the exception of a failing [extract::<T>()], with the name of [T] *)
  extract_error : string -> PyVal Obj -> Exception;
  index_error : Exception;
  (** [Display] of a failing [downcast::<T>()] *)
  downcast_text : string -> PyVal Obj -> string
}.

Section Monad.
Context {I : Interpreter}.

Abbreviation Val := (PyVal Obj).

(** An [anyhow::Error], or a panic. *)
Inductive Fault :=
| PyFault (e : Exception)
| TextFault (s : string)
| PanicFault.

Definition Py (A : Type) : Type := Interp -> result Fault A * Interp.

#[global] Instance py_ret : MRet Py := fun _ a i => (Ok a, i).
#[global] Instance py_bind : MBind Py := fun _ _ f m i => match m i with (Ok a, i) => f a i | (Err e, i) => (Err e, i) end.

Definition raise {A} (e : Fault) : Py A := fun i => (Err e, i).

(** A call into the interpreter, a conversion: [?] on a [PyResult]. *)
Definition lift {A} (m : Interp -> result Exception A * Interp) : Py A :=
  fun i => match m i with (Ok a, i) => (Ok a, i) | (Err e, i) => (Err (PyFault e), i) end.
Definition ok {A} (r : result Exception A) : Py A := lift (fun i => (r, i)).

(** [py.import(m)?.getattr(f)?.call1(args)?] *)
Definition import (m : string) : Py Val := lift (py_import m).
Definition getattr (v : Val) (name : string) : Py Val := lift (py_getattr v name).
Definition call1 (f : Val) (args : list Val) : Py Val := lift (py_call f args).
Definition call_method1 (v : Val) (name : string) (args : list Val) : Py Val := f ← getattr v name; call1 f args.

(** The loop of a [collect] into a [Result], stopping at the first error. *)
Fixpoint traverse {A B} (f : A -> Py B) (l : list A) : Py (list B) :=
  match l with
  | [] => mret []
  | a :: l => b ← f a; bs ← traverse f l; mret (b :: bs)
  end.

(** ** [downcast] *)

Definition downcast_dict (context : string) (v : Val) : Py (list (Val * Val)) :=
  match v with PyDict l => mret l | _ => raise (TextFault (context +:+ downcast_text "PyDict" v)%string) end.
Definition downcast_list (context : string) (v : Val) : Py (list Val) :=
  match v with PyList l => mret l | _ => raise (TextFault (context +:+ downcast_text "PyList" v)%string) end.
Definition downcast_tuple (context : string) (v : Val) : Py (list Val) :=
  match v with PyTuple l => mret l | _ => raise (TextFault (context +:+ downcast_text "PyTuple" v)%string) end.

(** [PyDict::get_item] with a string key, [PyTuple::get_item]. *)
Definition get_item (d : list (Val * Val)) (key : string) : option Val :=
  snd <$> List.find (fun kv => match kv.1 with PyStr s => bool_decide (s = key) | _ => false end) d.
Definition get_index (t : list Val) (n : nat) : Py Val :=
  match t !! n with Some v => mret v | None => raise (PyFault index_error) end.

(** ** [extract] *)

(** A bool is an int to Python. *)
Definition index (v : Val) : option Z :=
  match v with
  | PyBool b => Some (if b then 1 else 0)
  | PyInt z => Some z
  | PyObject o => obj_index o
  | _ => None
  end.

Definition within (min max : Z) (z : Z) : option Z := if (min <=? z) && (z <=? max) then Some z else None.

Definition from_option_or {A} (type : string) (v : Val) (o : option A) : result Exception A :=
  match o with Some a => Ok a | None => Err (extract_error type v) end.

Definition extract_int (type : string) (min max : Z) (v : Val) : result Exception Z :=
  from_option_or type v (index v ≫= within min max).
Definition extract_u64 : Val -> result Exception Z := extract_int "u64" 0 U64_MAX.
Definition extract_u32 : Val -> result Exception Z := extract_int "u32" 0 U32_MAX.
Definition extract_u8 : Val -> result Exception Z := extract_int "u8" 0 255.
Definition extract_i64 : Val -> result Exception Z := extract_int "i64" (- 2 ^ 63) (2 ^ 63 - 1).

Definition extract_string (v : Val) : result Exception string :=
  from_option_or "String" v match v with PyStr s => Some s | _ => None end.
Definition extract_bool (v : Val) : result Exception bool :=
  from_option_or "bool" v match v with PyBool b => Some b | _ => None end.

(** An int becomes the nearest double, unless it is beyond all of them. *)
Definition double_of_int (z : Z) : option f64 := let x := f64_of_Z z in if is_finite x then Some x else None.

Definition float (v : Val) : option f64 :=
  match v with
  | PyFloat x => Some x
  | PyBool _ | PyInt _ => index v ≫= double_of_int
  | PyObject o => match obj_float o with Some x => Some x | None => obj_index o ≫= double_of_int end
  | _ => None
  end.
Definition extract_f64 (v : Val) : result Exception f64 := from_option_or "f64" v (float v).

(** The items of a sequence; text is not taken for one. *)
Definition sequence (v : Val) : option (list Val) :=
  match v with
  | PyList l | PyTuple l => Some l
  | PyBytes b => Some ((fun x => PyInt (byte.unsigned x)) <$> b)
  | PyObject o => obj_sequence o
  | _ => None
  end.

Fixpoint all_ok {A B} (f : A -> result Exception B) (l : list A) : result Exception (list B) :=
  match l with
  | [] => Ok []
  | a :: l => match f a with
              | Ok b => match all_ok f l with Ok bs => Ok (b :: bs) | Err e => Err e end
              | Err e => Err e
              end
  end.

Definition extract_vec {A} (type : string) (item : Val -> result Exception A) (v : Val) : result Exception (list A) :=
  match sequence v with Some l => all_ok item l | None => Err (extract_error type v) end.
Definition extract_strings : Val -> result Exception (list string) := extract_vec "Vec" extract_string.
Definition extract_i64s : Val -> result Exception (list Z) := extract_vec "Vec" extract_i64.
Definition extract_bytes (v : Val) : result Exception (list byte) :=
  match extract_vec "Vec" extract_u8 v with Ok l => Ok (byte.of_Z <$> l) | Err e => Err e end.

Lemma extract_int_ok type min max (v : Val) z : extract_int type min max v = Ok z <-> index v = Some z /\ min <= z <= max.
Proof.
  unfold extract_int, within. destruct (index v) as [y|]; cbn; [|by split; [|intros []]].
  destruct (Z.leb_spec min y), (Z.leb_spec y max); cbn; (split; [intros [= ->]|intros [[= ->] ?]]); (done || lia).
Qed.

Lemma all_ok_map {A B} (f : A -> result Exception B) (g : B -> A) l : (forall b, b ∈ l -> f (g b) = Ok b) -> all_ok f (g <$> l) = Ok l.
Proof.
  induction l as [|b l IH]; intros H; [done|]. cbn. rewrite (H b ltac:(by left)), IH; [done|]. intros c Hc. apply H. by right.
Qed.

End Monad.

(** ** A concrete interpreter

    Modules and functions are their names; a call looks its reply up. *)
Definition scripted (replies : string -> list (PyVal string) -> option (PyVal string)) : Interpreter := {|
  Obj := string;
  Interp := unit;
  Exception := string;
  py_import m i := (Ok (PyObject m), i);
  py_getattr v name i := match v with PyObject o => (Ok (PyObject (o +:+ "." +:+ name)), i) | _ => (Err "AttributeError"%string, i) end;
  py_call f args i :=
    match f with
    | PyObject o => match replies o args with Some v => (Ok v, i) | None => (Err "TypeError"%string, i) end
    | _ => (Err "TypeError"%string, i)
    end;
  py_str v i := match v with PyStr s => (Ok s, i) | _ => (Ok "?"%string, i) end;
  py_iter v i := match v with PyList l | PyTuple l => (Ok (Ok <$> l), i) | _ => (Err "TypeError"%string, i) end;
  obj_index _ := None;
  obj_float _ := None;
  obj_sequence _ := None;
  extract_error type _ := ("cannot extract " +:+ type)%string;
  index_error := "IndexError";
  downcast_text type _ := ("not a " +:+ type)%string
|}.
