(* ===== verification/Bridge.v ===== *)
(** * Bridge: the worker's calls into Python

    [crates/rocket-surgeon-worker/src/bridge.rs], function by function, and the
    calls into Python of dispatch.rs and main.rs, over the
    interpreter of [Python]; the Python library it calls
    ([python/rocket_surgeon]) is part of that interpreter.  The theorems say
    what the worker gets from the replies of a Python that answers as the
    library does, that no reply can bring a value out of its range or, the
    tensor shapes apart, a panic, and that the calls [HostDispatch] takes from
    Python are these. *)

From Stdlib Require Import ZArith Lia Ascii String SpecFloat.
From coqutil Require Import Byte.
From stdpp Require Import base gmap strings list option.
From S2P Require Import Prelude Winnow Protocol Messages Float Stats Json Adapter Dispatch Worker Host HostInspect HostDispatch Python.
Open Scope Z_scope.

Section Bridge.
Context {I : Interpreter}.

Abbreviation Val := (PyVal Obj).

Definition library : string := "rocket_surgeon.bridge".
Definition checkpoint_module : string := "rocket_surgeon.checkpoint".

(** [py.import(m)?.getattr(f)?.call1(args)?] *)
Definition function (m f : string) (args : list Val) : Py Val := skin ← import m; f ← getattr skin f; call1 f args.

(** [dict.get_item(key)?.ok_or_else(|| anyhow!(missing))?.extract()?] *)
Definition field {A} (extract : Val -> result Exception A) (missing : string) (d : list (Val * Val)) (key : string) : Py A :=
  match get_item d key with Some v => ok (extract v) | None => raise (TextFault missing) end.
Definition required {A} (extract : Val -> result Exception A) (d : list (Val * Val)) (key : string) : Py A :=
  field extract ("missing " +:+ key)%string d key.

(** ** Models *)

Definition load_model (source device dtype : string) : Py Z :=
  r ← function library "load_model" [PyStr source; PyStr device; PyStr dtype]; ok (extract_u64 r).

Definition unload_model (handle : Z) : Py unit := _ ← function library "unload_model" [PyInt handle]; mret tt.

Definition model_metadata (handle : Z) : Py ModelInfo :=
  result ← function library "model_metadata" [PyInt handle];
  dict ← downcast_dict "expected dict from model_metadata, got: " result;
  num_layers ← required extract_u32 dict "num_layers";
  num_heads ← required extract_u32 dict "num_heads";
  hidden_dim ← required extract_u32 dict "hidden_dim";
  module_tree ← required extract_strings dict "module_tree";
  mret (mkModelInfo handle num_layers num_heads hidden_dim module_tree).

Definition get_model_config (handle : Z) : Py ModelConfig :=
  result ← function library "model_config" [PyInt handle];
  dict ← downcast_dict "expected dict from model_config, got: " result;
  model_type ← required extract_string dict "model_type";
  num_layers ← required extract_u32 dict "num_layers";
  num_heads ← required extract_u32 dict "num_heads";
  hidden_size ← required extract_u32 dict "hidden_size";
  let num_kv_heads := get_item dict "num_kv_heads" ≫= fun v => match extract_u32 v with Ok n => Some n | Err _ => None end in
  mret (mkModelConfig model_type num_layers num_heads hidden_size num_kv_heads).

Definition discover_modules (handle : Z) : Py (list RawModule) :=
  result ← function library "discover_modules" [PyInt handle];
  list ← downcast_list "expected list from discover_modules, got: " result;
  traverse (fun item =>
    dict ← downcast_dict "expected dict in modules list, got: " item;
    path ← required extract_string dict "path";
    type_name ← required extract_string dict "type_name";
    attr_name ← required extract_string dict "attr_name";
    mret (mkRawModule path type_name attr_name)) list.

Definition discover_execution_order (handle : Z) : Py (list (string * Z)) :=
  result ← function library "discover_execution_order" [PyInt handle];
  list ← downcast_list "expected list, got: " result;
  traverse (fun item =>
    tuple ← downcast_tuple "expected tuple, got: " item;
    p ← get_index tuple 0; path ← ok (extract_string p);
    c ← get_index tuple 1; call_index ← ok (extract_u32 c);
    mret (path, call_index)) list.

(** ** Tensors *)

Section Values.
Context `{J : SerdeJson} (json_i64 : Z -> Value) (parse_json : string -> result string Value).

(** [Value::from] of a double: JSON has no other numbers. *)
Definition value_from_f64 (x : f64) : Value := if is_finite x then json_f64 x else json_null.

(** [python_to_json_value], where [n] bounds the nesting of lists. *)
Fixpoint python_to_json_value (n : nat) (obj : Val) : Py Value :=
  match extract_i64 obj with
  | Ok v => mret (json_i64 v)
  | Err _ =>
      match extract_f64 obj with
      | Ok v => mret (value_from_f64 v)
      | Err _ =>
          match extract_string obj, obj, n with
          | Ok v, _, _ => mret (json_string v)
          | _, PyList items, S n => vs ← traverse (python_to_json_value n) items; mret (json_array vs)
          | _, _, _ => s ← lift (py_str obj); mret (json_string s)
          end
      end
  end.

Fixpoint list_depth (v : Val) : nat :=
  match v with PyList l => S (foldr (fun v d => Nat.max (list_depth v) d) 0%nat l) | _ => 0%nat end.

Definition to_json_value (v : Val) : Py Value := python_to_json_value (list_depth v) v.

Definition compute_tensor_stats (tensor : Val) : Py (gmap string Value) :=
  result ← function library "compute_tensor_stats" [tensor];
  dict ← downcast_dict "expected dict from compute_tensor_stats, got: " result;
  entries ← traverse (fun '(key, value) => k ← ok (extract_string key); v ← to_json_value value; mret (k, v)) dict;
  mret (foldl (fun m '(k, v) => <[k := v]> m) ∅ entries).

Definition collect_export_env (handle : Z) : Py Value :=
  result ← function library "collect_export_env" [PyInt handle];
  s ← function "json" "dumps" [result];
  json_str ← ok (extract_string s);
  match parse_json json_str with Ok v => mret v | Err e => raise (TextFault e) end.

End Values.

Definition tensor_to_bytes (tensor : Val) : Py (list byte) :=
  result ← function library "tensor_to_bytes" [tensor]; ok (extract_bytes result).

(** [.map(|d| d.unwrap().extract().unwrap())] *)
Definition get_tensor_shape (tensor : Val) : Py (list Z) :=
  shape ← getattr tensor "shape";
  items ← lift (py_iter shape);
  traverse (fun d => match d with
                     | Ok v => match extract_u64 v with Ok z => mret z | Err _ => raise PanicFault end
                     | Err _ => raise PanicFault
                     end) items.

Definition get_tensor_dtype (tensor : Val) : Py string :=
  dtype ← getattr tensor "dtype";
  name ← lift (py_str dtype);
  mret (match strip_prefix (chars "torch.") (chars name) with Some clean => text clean | None => name end).

Definition get_tensor_device (tensor : Val) : Py string := device ← getattr tensor "device"; lift (py_str device).

(** [x as i64] of a [u64] *)
Definition as_i64 (z : Z) : Z := if z <? 2 ^ 63 then z else z - 2 ^ 64.

Definition split_fused_output (tensor : Val) (dim : Z) (sizes : list Z) : Py (list Val) :=
  result ← function library "split_fused_output" [tensor; PyInt dim; PyList ((fun s => PyInt (as_i64 s)) <$> sizes)];
  downcast_list "expected list, got: " result.

(** ** Hooks and the forward pass *)

Definition py_strings (l : list string) : list Val := PyStr <$> l.

Definition install_sentinel_hooks (handle : Z) (module_paths : list string) : Py (list Val) :=
  result ← function library "install_sentinel_hooks" [PyInt handle; PyList (py_strings module_paths)];
  downcast_list "expected list, got: " result.

Definition install_passive_hooks (handle : Z) (container_paths : list string) (last_outputs : Val) : Py (list Val) :=
  result ← function library "install_passive_hooks" [PyInt handle; PyList (py_strings container_paths); last_outputs];
  downcast_list "expected list from install_passive_hooks, got: " result.

Definition install_capture_hooks (handle : Z) (module_paths : list string) (result_mailbox resume_mailbox : Val) (active_probes : list string)
  : Py (list Val * list (Val * Val)) :=
  result ← function library "install_capture_hooks"
             [PyInt handle; PyList (py_strings module_paths); result_mailbox; resume_mailbox; PySet (py_strings active_probes)];
  tuple ← downcast_tuple "expected tuple, got: " result;
  item0 ← get_index tuple 0;
  hook_list ← downcast_list "expected list for handles, got: " item0;
  item1 ← get_index tuple 1;
  call_counts ← downcast_dict "expected dict for call_counts, got: " item1;
  mret (hook_list, call_counts).

Definition remove_hooks (handles : list Val) : Py unit := _ ← function library "remove_hooks" [PyList handles]; mret tt.

Definition create_mailbox : Py Val := function "rocket_surgeon.hooks.mailbox" "Mailbox" [].

(** Without input ids, two tokens of id 0. *)
Definition run_forward (handle : Z) (input_ids : option (list Z)) (done_callback : Val) : Py unit :=
  bridge ← import library;
  torch ← import "torch";
  input ← match input_ids with
          | Some ids =>
              f ← getattr torch "tensor";
              tensor ← call1 f [PyList [PyList ((fun id => PyInt (as_i64 id)) <$> ids)]];
              long ← getattr torch "long"; call_method1 tensor "to" [long]
          | None =>
              f ← getattr torch "zeros";
              zeros ← call1 f [PyTuple [PyInt 1; PyInt 2]];
              long ← getattr torch "long"; call_method1 zeros "to" [long]
          end;
  f ← getattr bridge "run_forward";
  _ ← call1 f [PyInt handle; input; done_callback]; mret tt.

(** ** Checkpoints, replay, interventions *)

Definition register_arena_cuda (ptr size : Z) : Py bool :=
  r ← function checkpoint_module "register_cuda_pinned" [PyInt ptr; PyInt size]; ok (extract_bool r).
Definition unregister_arena_cuda (ptr : Z) : Py bool :=
  r ← function checkpoint_module "unregister_cuda_pinned" [PyInt ptr]; ok (extract_bool r).

Definition activation_available (last_outputs : Val) (component_path : string) (call_index : Z) : Py bool :=
  r ← function checkpoint_module "activation_available" [last_outputs; PyStr component_path; PyInt call_index]; ok (extract_bool r).

Definition capture_activation (last_outputs : Val) (component_path : string) (call_index dst_ptr dst_len : Z) : Py (string * list Z) :=
  result ← function checkpoint_module "capture_activation"
             [last_outputs; PyStr component_path; PyInt call_index; PyInt dst_ptr; PyInt dst_len];
  tuple ← downcast_tuple "expected tuple: " result;
  d ← get_index tuple 0; dtype ← ok (extract_string d);
  s ← get_index tuple 1; shape ← ok (extract_i64s s);
  mret (dtype, shape).

Definition restore_activation (last_outputs : Val) (component_path : string) (call_index src_ptr src_len : Z) (dtype : string) (shape : list Z) : Py unit :=
  _ ← function checkpoint_module "restore_activation"
        [last_outputs; PyStr component_path; PyInt call_index; PyInt src_ptr; PyInt src_len; PyStr dtype; PyList (PyInt <$> shape)];
  mret tt.

Definition capture_rng_state : Py (list byte) := r ← function checkpoint_module "capture_rng_state" []; ok (extract_bytes r).
Definition restore_rng_state (state : list byte) : Py unit := _ ← function checkpoint_module "restore_rng_state" [PyBytes state]; mret tt.
Definition capture_cpu_rng_state : Py (list byte) := r ← function checkpoint_module "capture_cpu_rng_state" []; ok (extract_bytes r).
Definition restore_cpu_rng_state (state : list byte) : Py unit :=
  _ ← function checkpoint_module "restore_cpu_rng_state" [PyBytes state]; mret tt.

Definition compare_activations_from_ptr (ptr len : Z) (dtype : string) (shape : list Z) (replayed : Val) (cosine_threshold mre_threshold : f64)
  : Py (option (f64 * f64)) :=
  result ← function "rocket_surgeon.replay" "compare_activations_from_ptr"
             [PyInt ptr; PyInt len; PyStr dtype; PyList (PyInt <$> shape); replayed; PyFloat cosine_threshold; PyFloat mre_threshold];
  match result with
  | PyNone => mret None
  | _ =>
      dict ← downcast_dict "expected dict from compare_activations_from_ptr: " result;
      cosine ← field extract_f64 "missing cosine_similarity key" dict "cosine_similarity";
      mre ← field extract_f64 "missing max_relative_error key" dict "max_relative_error";
      mret (Some (cosine, mre))
  end.

Definition apply_interventions_at_point (tensor : Val) (recipes_json family : string) (rank layer : Z) (component event : string) (tick_id model_handle : Z)
  : Py (Val * list string) :=
  bridge ← import library;
  py_recipes ← function "json" "loads" [PyStr recipes_json];
  f ← getattr bridge "apply_interventions_at_point";
  result ← call1 f [tensor; py_recipes; PyStr family; PyInt rank; PyInt layer; PyStr component; PyStr event; PyInt tick_id; PyInt model_handle];
  tuple ← downcast_tuple "expected tuple from apply_interventions_at_point, got: " result;
  modified_tensor ← get_index tuple 0;
  fired_list ← get_index tuple 1;
  l ← downcast_list "expected list for fired_ids, got: " fired_list;
  fired ← traverse (fun item => ok (extract_string item)) l;
  mret (modified_tensor, fired).

(** The index of the columns of one head, [(..., slice(start, end))]. *)
Definition build_head_slice (start end_ : Z) : Py Val :=
  builtins ← import "builtins";
  py_ellipsis ← getattr builtins "Ellipsis";
  f ← getattr builtins "slice";
  py_slice ← call1 f [PyInt start; PyInt end_];
  mret (PyTuple [py_ellipsis; py_slice]).

(** The interpreter that spawned processes will run; the worker only logs the answer. *)
Definition align_subprocess_interpreter : Py (option string) :=
  r ← function "rocket_surgeon.runtime" "align_subprocess_interpreter" [];
  match r with PyNone => mret None | _ => path ← ok (extract_string r); mret (Some path) end.

(** ** Views *)

(** The view of the last forward pass, computed in Python and read back as JSON. *)
Definition compute_view `{J : SerdeJson} `{!Serialize BuiltInView} (value_text : Value -> string) (parse_json : string -> result string Value)
    (model_handle : option Z) (last_outputs : option Val) (view : BuiltInView) (params : option Value) : Py Value :=
  views_mod ← import "rocket_surgeon.views";
  handle ← match model_handle with Some h => mret h | None => raise (TextFault "no model handle") end;
  lo ← match last_outputs with Some lo => mret lo | None => raise (TextFault "VIEW_DATA_UNAVAILABLE: no last_outputs") end;
  view_str ← match value_as_str (to_value view) with Some s => mret s | None => raise (TextFault "bad view name") end;
  params_py ← match params with
              | Some v => json ← import "json"; call_method1 json "loads" [PyStr (value_text v)]
              | None => mret PyNone
              end;
  result_py ← call_method1 views_mod "compute_view" [PyInt handle; lo; PyStr view_str; params_py];
  json_mod ← import "json";
  dumped ← call_method1 json_mod "dumps" [result_py];
  result_str ← ok (extract_string dumped);
  match parse_json result_str with Ok data => mret data | Err e => raise (TextFault e) end.

(** ** The calls of the attach handler

    The part of [handle_host_attach] that asks Python, as the program it is: each
    call is made in the state of the interpreter that its predecessor left, and
    the first one that fails ends it with an error response. *)

Section Attach.
Context `{J : SerdeJson} {WW : WorkerWire} {W : Winnow} {B : PyBridge} {HB : HostBridge}.
(** Python's errors as the worker prints them *)
Context (error_of : Fault -> PyErr).

Definition asked {A C} (request : Request) (what : string) (m : Py A) (k : A -> Interp -> result Response C * Interp)
  : Interp -> result Response C * Interp :=
  fun i => match m i with
           | (Ok a, i) => k a i
           | (Err e, i) => (Err (py_error request what (error_of e)), i)
           end.

Definition attach_calls (request : Request) (req : HostAttachRequest) (dtype : string)
  : Interp -> result Response (ModelInfo * ModelConfig * ComponentMap * list string) * Interp :=
  asked request "load_model" (load_model (HostAttachRequest_model_source req) (HostAttachRequest_device req) dtype) (fun handle =>
  asked request "model_metadata" (model_metadata handle) (fun info =>
  asked request "model_config" (get_model_config handle) (fun config =>
  asked request "discover_modules" (discover_modules handle) (fun modules =>
  match resolve_with_containers modules config (HostAttachRequest_rank req) with
  | Err e => fun i => (Err (internal_error (req_id request) ("adapter resolution failed: " +:+ e)%string), i)
  | Ok (map, containers) =>
      asked request "discover_execution_order" (discover_execution_order handle) (fun order i =>
        (Ok (info, config, apply_execution_order map order, containers), i))
  end)))).

End Attach.
End Bridge.
