(* ===== verification/BridgeSpec.v ===== *)
(** * BridgeSpec: what the worker gets from Python

    Theorems about [Bridge]: the replies of the Python library are decoded to
    the values they stand for, decoded values are in their range, no reply makes
    a call panic (the tensor shapes apart), and the attach of [HostDispatch] run
    over these calls. *)

From Stdlib Require Import ZArith Lia Ascii String SpecFloat.
From coqutil Require Import Byte.
From stdpp Require Import base gmap strings list option.
From S2P Require Import HostSpec HostInspectSpec HostDispatchSpec.
From S2P Require Import Prelude Winnow Protocol Messages Float Stats Json Adapter Worker Host HostInspect HostDispatch Python Bridge.
Open Scope Z_scope.

Section Spec.
Context {I : Interpreter}.

Abbreviation Val := (PyVal Obj).

(** ** Running *)

Lemma bind_ok {A B} (m : Py A) (f : A -> Py B) i b i' :
  (m ≫= f) i = (Ok b, i') <-> exists a i1, m i = (Ok a, i1) /\ f a i1 = (Ok b, i').
Proof.
  unfold mbind, py_bind. destruct (m i) as [[a|e] i1].
  - split; [by exists a, i1|by intros (? & ? & [= <- <-] & ?)].
  - by split; [|intros (? & ? & ? & _)].
Qed.

Lemma bind_run {A B} (m : Py A) (f : A -> Py B) i a i1 : m i = (Ok a, i1) -> (m ≫= f) i = f a i1.
Proof. unfold mbind, py_bind. by intros ->. Qed.

Lemma ret_run {A B} (a : A) (f : A -> Py B) i : (mret a ≫= f) i = f a i.
Proof. done. Qed.

Lemma ok_run {A} (r : result Exception A) i a i' : ok r i = (Ok a, i') <-> r = Ok a /\ i' = i.
Proof. unfold ok, lift. destruct r; split; [by intros [= <- <-]|by intros [[= <-] ->]|done|by intros []]. Qed.

Lemma field_ok {A} (extract : Val -> result Exception A) missing d key i a i' :
  field extract missing d key i = (Ok a, i') <-> i' = i /\ exists v, get_item d key = Some v /\ extract v = Ok a.
Proof.
  unfold field. destruct (get_item d key) as [v|]; [rewrite ok_run|]; split.
  - intros [H ->]. eauto.
  - intros [-> (? & [= <-] & H)]. done.
  - done.
  - by intros [_ (? & ? & _)].
Qed.

Lemma traverse_decode {A B} (f : A -> Py B) (g : B -> A) l i :
  (forall b, b ∈ l -> f (g b) i = (Ok b, i)) -> traverse f (g <$> l) i = (Ok l, i).
Proof.
  induction l as [|b l IH]; intros H; [done|]. cbn [fmap list_fmap traverse].
  rewrite (bind_run _ _ _ _ _ (H b ltac:(by left))), (bind_run _ _ _ _ _ (IH (fun c Hc => H c ltac:(by right)))). done.
Qed.

Lemma traverse_all {A B} (P : B -> Prop) (f : A -> Py B) : (forall a i b i', f a i = (Ok b, i') -> P b) ->
  forall l i bs i', traverse f l i = (Ok bs, i') -> Forall P bs.
Proof.
  intros Hf l. induction l as [|a l IH]; intros i bs i'; cbn [traverse]; [by intros [= <- _]|].
  intros (b & i1 & H1 & (bs' & i2 & H2 & [= <- _])%bind_ok)%bind_ok. constructor; eauto.
Qed.

(** ** Ranges *)

Lemma extract_strings_list l : extract_strings (PyList (py_strings l)) = Ok l.
Proof. by apply all_ok_map. Qed.

Lemma extract_bytes_bytes (b : list byte) : extract_bytes (PyBytes b) = Ok b.
Proof.
  unfold extract_bytes, extract_vec. cbn [sequence].
  assert (H : all_ok extract_u8 ((fun x => PyInt (byte.unsigned x)) <$> b) = Ok (byte.unsigned <$> b)).
  { replace ((fun x => PyInt (byte.unsigned x)) <$> b) with ((PyInt : Z -> Val) <$> (byte.unsigned <$> b)) by (by rewrite <- list_fmap_compose).
    apply all_ok_map. intros z (x & -> & _)%list_elem_of_fmap. apply extract_int_ok. split; [done|]. pose proof (byte.unsigned_range x). lia. }
  rewrite H. f_equal. rewrite <- list_fmap_compose. rewrite <- (list_fmap_id b) at 2. apply list_fmap_ext. intros k x _. apply byte.of_Z_unsigned.
Qed.

(** ** Replies

    What the library's functions return for what they mean. *)

Definition int_field (key : string) (z : Z) : Val * Val := (PyStr key, PyInt z).
Definition metadata_reply (m : ModelInfo) : Val :=
  PyDict [int_field "num_layers" (mi_num_layers m); int_field "num_heads" (mi_num_heads m); int_field "hidden_dim" (mi_hidden_dim m);
          (PyStr "module_tree", PyList (py_strings (mi_module_tree m)))].
Definition config_reply (c : ModelConfig) : Val :=
  PyDict [(PyStr "model_type", PyStr (cfg_model_type c)); int_field "num_layers" (cfg_num_layers c); int_field "num_heads" (cfg_num_heads c);
           int_field "hidden_size" (cfg_hidden_size c);
           (PyStr "num_kv_heads", match cfg_num_kv_heads c with Some n => PyInt n | None => PyNone end)].
Definition module_reply (m : RawModule) : Val :=
  PyDict [(PyStr "path", PyStr (rm_path m)); (PyStr "type_name", PyStr (rm_type_name m)); (PyStr "attr_name", PyStr (rm_attr_name m))].
Definition call_reply (c : string * Z) : Val := PyTuple [PyStr c.1; PyInt c.2].

Definition u32 (z : Z) : Prop := 0 <= z <= U32_MAX.
Definition info_ok (m : ModelInfo) : Prop := u32 (mi_num_layers m) /\ u32 (mi_num_heads m) /\ u32 (mi_hidden_dim m).
Definition config_ok (c : ModelConfig) : Prop :=
  u32 (cfg_num_layers c) /\ u32 (cfg_num_heads c) /\ u32 (cfg_hidden_size c) /\ from_option u32 True (cfg_num_kv_heads c).

Lemma extract_u32_int z : u32 z -> extract_u32 (PyInt z) = Ok z.
Proof. intros H. by apply extract_int_ok. Qed.

Lemma field_run {A} (extract : Val -> result Exception A) missing d key v a i :
  get_item d key = Some v -> extract v = Ok a -> field extract missing d key i = (Ok a, i).
Proof. intros Hg He. apply field_ok. eauto. Qed.

Lemma index_run (t : list Val) n v i : t !! n = Some v -> get_index t n i = (Ok v, i).
Proof. unfold get_index. by intros ->. Qed.

Ltac decode := solve [reflexivity | apply extract_strings_list | by apply extract_u32_int].
Ltac read := repeat first
  [ rewrite (bind_run _ _ _ _ _ (field_run _ _ _ _ _ _ _ eq_refl eq_refl))
  | erewrite bind_run by (eapply field_run; [reflexivity|decode])
  | erewrite bind_run by (apply index_run; reflexivity)
  | erewrite bind_run by (apply ok_run; split; [decode|reflexivity]) ].

Lemma extract_u64_int z : 0 <= z <= U64_MAX -> extract_u64 (PyInt z) = Ok z.
Proof. intros H. by apply extract_int_ok. Qed.

Lemma metadata_decodes m i i' : info_ok m ->
  function library "model_metadata" [PyInt (mi_handle m)] i = (Ok (metadata_reply m), i') -> model_metadata (mi_handle m) i = (Ok m, i').
Proof.
  intros (H1 & H2 & H3) E. unfold model_metadata. rewrite (bind_run _ _ _ _ _ E). cbn [metadata_reply downcast_dict].
  rewrite ret_run. unfold required. read. by destruct m.
Qed.

Lemma config_decodes handle c i i' : config_ok c ->
  function library "model_config" [PyInt handle] i = (Ok (config_reply c), i') -> get_model_config handle i = (Ok c, i').
Proof.
  intros (H1 & H2 & H3 & H4) E. unfold get_model_config. rewrite (bind_run _ _ _ _ _ E). cbn [config_reply downcast_dict].
  rewrite ret_run. unfold required. read. destruct c as [ty nl nh hs kv].
  cbn [cfg_model_type cfg_num_layers cfg_num_heads cfg_hidden_size cfg_num_kv_heads] in *.
  match goal with |- context [get_item ?d "num_kv_heads"] =>
    change (get_item d "num_kv_heads") with (Some (match kv with Some n => PyInt n | None => PyNone end : Val)) end.
  cbn [mbind option_bind]. destruct kv as [kv|]; [by rewrite extract_u32_int|done].
Qed.

Lemma modules_decode handle ms i i' :
  function library "discover_modules" [PyInt handle] i = (Ok (PyList (module_reply <$> ms)), i') -> discover_modules handle i = (Ok ms, i').
Proof.
  intros E. unfold discover_modules. rewrite (bind_run _ _ _ _ _ E). cbn [downcast_list]. rewrite ret_run. apply traverse_decode.
  intros m _. cbn [module_reply downcast_dict]. rewrite ret_run. unfold required. read. by destruct m.
Qed.

Lemma order_decodes handle cs i i' : Forall (fun c => u32 c.2) cs ->
  function library "discover_execution_order" [PyInt handle] i = (Ok (PyList (call_reply <$> cs)), i') -> discover_execution_order handle i = (Ok cs, i').
Proof.
  intros Hc E. unfold discover_execution_order. rewrite (bind_run _ _ _ _ _ E). cbn [downcast_list]. rewrite ret_run. apply traverse_decode.
  intros [path c] H%list_elem_of_In. rewrite Forall_forall in Hc. apply Hc in H. cbn in H. cbn [call_reply downcast_tuple]. rewrite ret_run. read. done.
Qed.

(** ** Whatever Python replies *)

Lemma metadata_range handle i m i' : model_metadata handle i = (Ok m, i') -> mi_handle m = handle /\ info_ok m.
Proof.
  unfold model_metadata, required. intros (v & i1 & _ & (d & i2 & _ & (nl & i3 & [_ (? & _ & Hl)]%field_ok &
    (nh & i4 & [_ (? & _ & Hh)]%field_ok & (hd & i5 & [_ (? & _ & Hd)]%field_ok & (t & i6 & _ & [= <- _])%bind_ok)%bind_ok)%bind_ok)%bind_ok)%bind_ok)%bind_ok.
  apply extract_int_ok in Hl as [_ Hl], Hh as [_ Hh], Hd as [_ Hd]. done.
Qed.

Lemma config_range handle i c i' : get_model_config handle i = (Ok c, i') -> config_ok c.
Proof.
  unfold get_model_config, required. intros (v & i1 & _ & (d & i2 & _ & (ty & i3 & _ & (nl & i4 & [_ (? & _ & Hl)]%field_ok &
    (nh & i5 & [_ (? & _ & Hh)]%field_ok & (hs & i6 & [_ (? & _ & Hs)]%field_ok & E)%bind_ok)%bind_ok)%bind_ok)%bind_ok)%bind_ok)%bind_ok.
  apply extract_int_ok in Hl as [_ Hl], Hh as [_ Hh], Hs as [_ Hs]. injection E as <- _. split_and!; [done..|]. cbn.
  destruct (get_item d "num_kv_heads") as [w|]; [|done]. cbn. destruct (extract_u32 w) as [z|] eqn:Ez; [|done]. by apply extract_int_ok in Ez as [_ ?].
Qed.

Lemma order_range handle i cs i' : discover_execution_order handle i = (Ok cs, i') -> Forall (fun c => u32 c.2) cs.
Proof.
  unfold discover_execution_order. intros (v & i1 & _ & (l & i2 & _ & E)%bind_ok)%bind_ok. revert E. apply traverse_all.
  intros a j b j' (t & j1 & _ & (p & j2 & _ & (path & j3 & _ & (c & j4 & _ & (n & j5 & [Hn _]%ok_run & [= <- _])%bind_ok)%bind_ok)%bind_ok)%bind_ok)%bind_ok.
  by apply extract_int_ok in Hn as [_ ?].
Qed.

Lemma load_range source device dtype i h i' : load_model source device dtype i = (Ok h, i') -> 0 <= h <= U64_MAX.
Proof. unfold load_model. intros (v & i1 & _ & [Hh _]%ok_run)%bind_ok. by apply extract_int_ok in Hh as [_ ?]. Qed.

(** ** No panics *)

Create HintDb calm.

Definition calm {A} (m : Py A) : Prop := forall i i', m i <> (Err PanicFault, i').

Lemma calm_ret {A} (a : A) : calm (mret a).
Proof. by intros i i'. Qed.
Lemma calm_lift {A} (m : Interp -> result Exception A * Interp) : calm (lift m).
Proof. intros i i'. unfold lift. by destruct (m i) as [[]]. Qed.
Lemma calm_ok {A} (r : result Exception A) : calm (ok r).
Proof. apply calm_lift. Qed.
Lemma calm_text {A} s : calm (raise (A := A) (TextFault s)).
Proof. by intros i i'. Qed.
Lemma calm_bind {A B} (m : Py A) (f : A -> Py B) : calm m -> (forall a, calm (f a)) -> calm (m ≫= f).
Proof.
  intros Hm Hf i i'. unfold mbind, py_bind. specialize (Hm i). destruct (m i) as [[a|e] i1]; [apply Hf|].
  intros [= -> <-]. by eapply Hm.
Qed.
Lemma calm_field {A} (extract : Val -> result Exception A) missing d key : calm (field extract missing d key).
Proof. unfold field. destruct (get_item d key); [apply calm_ok|apply calm_text]. Qed.
Lemma calm_index t n : calm (get_index t n).
Proof. unfold get_index. by destruct (t !! n). Qed.
Lemma calm_dict s v : calm (downcast_dict s v).
Proof. by destruct v. Qed.
Lemma calm_list s v : calm (downcast_list s v).
Proof. by destruct v. Qed.
Lemma calm_tuple s v : calm (downcast_tuple s v).
Proof. by destruct v. Qed.
Lemma calm_traverse {A B} (f : A -> Py B) l : (forall a, calm (f a)) -> calm (traverse f l).
Proof.
  intros Hf. induction l as [|a l IH]; [apply calm_ret|]. cbn [traverse].
  apply calm_bind; [apply Hf|intros b]. apply calm_bind; [apply IH|intros bs; apply calm_ret].
Qed.
Lemma calm_function m f args : calm (function m f args).
Proof. do 2 (apply calm_bind; [apply calm_lift|intros ?]). apply calm_lift. Qed.

#[local] Hint Resolve calm_ret calm_lift calm_ok calm_text calm_field calm_index calm_dict calm_list calm_tuple calm_function : calm.
Ltac calm := repeat first
  [ progress unfold required, import, getattr, call1, call_method1
  | progress intros
  | apply calm_bind | apply calm_traverse
  | match goal with |- context [match ?x with _ => _ end] => destruct x end
  | solve [auto with calm] ].

Section Json.
Context `{J : SerdeJson} (json_i64 : Z -> Value) (parse_json : string -> result string Value).

Lemma calm_json n : forall v, calm (python_to_json_value json_i64 n v).
Proof.
  induction n as [|n IH]; intros v; cbn [python_to_json_value]; (destruct (extract_i64 v); [auto with calm|]);
    (destruct (extract_f64 v); [auto with calm|]); (destruct (extract_string v); [auto with calm|]); destruct v; calm.
Qed.

(** ** JSON values *)

(** What statistics are made of. *)
Inductive Data := DInt (z : Z) | DFloat (x : f64) | DStr (s : string) | DList (l : list Data).

Fixpoint data_val (d : Data) : Val :=
  match d with DInt z => PyInt z | DFloat x => PyFloat x | DStr s => PyStr s | DList l => PyList (data_val <$> l) end.
Fixpoint data_json (d : Data) : Value :=
  match d with DInt z => json_i64 z | DFloat x => value_from_f64 x | DStr s => json_string s | DList l => json_array (data_json <$> l) end.
Fixpoint data_ok (d : Data) : Prop :=
  match d with DInt z => - 2 ^ 63 <= z <= 2 ^ 63 - 1 | DList l => foldr (fun d P => data_ok d /\ P) True l | _ => True end.

Lemma extract_i64_int z : - 2 ^ 63 <= z <= 2 ^ 63 - 1 -> extract_i64 (PyInt z : Val) = Ok z.
Proof. intros H. by apply extract_int_ok. Qed.

Lemma json_value_decodes : forall d n i, data_ok d -> (list_depth (data_val d) <= n)%nat ->
  python_to_json_value json_i64 n (data_val d) i = (Ok (data_json d), i).
Proof.
  fix IH 1. intros [z|x|s|l] n i Hd Hn; [destruct n; cbn [data_val python_to_json_value]; by rewrite extract_i64_int|by destruct n..|].
  cbn [data_val list_depth] in Hn. destruct n as [|n]; [lia|]. cbn [data_val python_to_json_value data_json].
  change (extract_i64 (PyList (data_val <$> l))) with (Err (extract_error "i64" (PyList (data_val <$> l))) : result Exception Z).
  change (extract_f64 (PyList (data_val <$> l))) with (Err (extract_error "f64" (PyList (data_val <$> l))) : result Exception f64).
  change (extract_string (PyList (data_val <$> l))) with (Err (extract_error "String" (PyList (data_val <$> l))) : result Exception string).
  assert (H : traverse (python_to_json_value json_i64 n) (data_val <$> l) i = (Ok (data_json <$> l), i)); [|cbv beta iota; by rewrite (bind_run _ _ _ _ _ H)].
  cbn in Hd. assert (Hn' : (foldr (fun v d => Nat.max (list_depth v) d) 0%nat (data_val <$> l) <= n)%nat) by lia. clear Hn.
  induction l as [|d l IHl]; [done|]. cbn [fmap list_fmap foldr traverse] in *. destruct Hd as [Hd Hl].
  rewrite (bind_run _ _ _ _ _ (IH d n i Hd ltac:(lia))), (bind_run _ _ _ _ _ (IHl Hl ltac:(lia))). done.
Qed.

(** A truth value becomes a number, and [None] the text Python prints. *)
Lemma bool_becomes_number b i : to_json_value json_i64 (PyBool b : Val) i = (Ok (json_i64 (if b then 1 else 0)), i).
Proof. by destruct b. Qed.
Lemma none_becomes_text i s i' : py_str (PyNone : Val) i = (Ok s, i') -> to_json_value json_i64 (PyNone : Val) i = (Ok (json_string s), i').
Proof. intros H. unfold to_json_value. cbn. unfold lift. by erewrite bind_run by (by rewrite H). Qed.

End Json.

(** No reply of Python makes the worker panic in a call of [bridge.rs], nor in
    the calls that dispatch.rs and main.rs make themselves; the
    unwrapped dimensions of [get_tensor_shape] are the exception, and they are
    well as long as the shape is a sequence of sizes. *)
Theorem bridge_never_panics `{J : SerdeJson} `{!Serialize BuiltInView} (json_i64 : Z -> Value) (value_text : Value -> string)
    (parse_json : string -> result string Value) :
  (forall s d t, calm (load_model s d t)) /\ (forall h, calm (unload_model h)) /\ (forall h, calm (model_metadata h)) /\
  (forall h, calm (get_model_config h)) /\ (forall h, calm (collect_export_env parse_json h)) /\ (forall h, calm (discover_modules h)) /\
  (forall h, calm (discover_execution_order h)) /\ (forall t, calm (compute_tensor_stats json_i64 t)) /\ (forall t, calm (tensor_to_bytes t)) /\
  (forall t, calm (get_tensor_dtype t)) /\ (forall t, calm (get_tensor_device t)) /\ (forall t d s, calm (split_fused_output t d s)) /\
  (forall h p, calm (install_sentinel_hooks h p)) /\ (forall h p o, calm (install_passive_hooks h p o)) /\
  (forall h p a b q, calm (install_capture_hooks h p a b q)) /\ (forall l, calm (remove_hooks l)) /\ calm create_mailbox /\
  (forall h ids f, calm (run_forward h ids f)) /\ (forall p s, calm (register_arena_cuda p s)) /\ (forall p, calm (unregister_arena_cuda p)) /\
  (forall o p c, calm (activation_available o p c)) /\ (forall o p c x n, calm (capture_activation o p c x n)) /\
  (forall o p c x n d s, calm (restore_activation o p c x n d s)) /\ calm capture_rng_state /\ (forall b, calm (restore_rng_state b)) /\
  calm capture_cpu_rng_state /\ (forall b, calm (restore_cpu_rng_state b)) /\
  (forall p n d s t a b, calm (compare_activations_from_ptr p n d s t a b)) /\
  (forall t r f k l c e i h, calm (apply_interventions_at_point t r f k l c e i h)) /\
  (forall h o v p, calm (compute_view value_text parse_json h o v p)) /\
  (forall a b, calm (build_head_slice a b)) /\ calm align_subprocess_interpreter /\
  (forall t i shape i1 dims, getattr t "shape" i = (Ok shape, i1) -> py_iter shape i1 = (Ok (Ok <$> (PyInt <$> dims)), i1) ->
     Forall (fun z => 0 <= z <= U64_MAX) dims -> get_tensor_shape t i = (Ok dims, i1)).
Proof.
  split_and!; try (intros; calm; fail).
  - intros t. unfold compute_tensor_stats. calm. apply calm_json.
  - intros t i shape i1 dims Hs Hi Hd. unfold get_tensor_shape. rewrite (bind_run _ _ _ _ _ Hs).
    erewrite bind_run by (unfold lift; by rewrite Hi). rewrite <- list_fmap_compose. apply traverse_decode.
    intros z Hz%list_elem_of_In. rewrite Forall_forall in Hd. apply Hd in Hz.
    unfold compose. cbv beta iota. by rewrite extract_u64_int.
Qed.

(** A view is the JSON text that Python makes of the answer of [compute_view],
    read back; the call gets the handle, the outputs, the name of the view and
    the parameters as Python reads their text. *)
Lemma view_decodes `{J : SerdeJson} `{!Serialize BuiltInView} (value_text : Value -> string) (parse_json : string -> result string Value)
    handle lo view name params views json p r s data i1 i2 i3 i4 i5 i6 i7 :
  value_as_str (to_value view) = Some name ->
  import "rocket_surgeon.views" i1 = (Ok views, i2) -> import "json" i2 = (Ok json, i3) ->
  call_method1 json "loads" [PyStr (value_text params)] i3 = (Ok p, i4) ->
  call_method1 views "compute_view" [PyInt handle; lo; PyStr name; p] i4 = (Ok r, i5) ->
  import "json" i5 = (Ok json, i6) -> call_method1 json "dumps" [r] i6 = (Ok (PyStr s), i7) -> parse_json s = Ok data ->
  compute_view value_text parse_json (Some handle) (Some lo) view (Some params) i1 = (Ok data, i7).
Proof.
  intros Hn E1 E2 E3 E4 E5 E6 Hp. unfold compute_view. rewrite (bind_run _ _ _ _ _ E1), !ret_run, Hn, ret_run.
  erewrite bind_run by (rewrite (bind_run _ _ _ _ _ E2); exact E3).
  rewrite (bind_run _ _ _ _ _ E4), (bind_run _ _ _ _ _ E5), (bind_run _ _ _ _ _ E6).
  rewrite (bind_run _ _ i7 s i7) by done. by rewrite Hp.
Qed.

(** ** The attach over the bridge *)

Section Attach.
Context `{J : SerdeJson} {WW : WorkerWire} {W : Winnow} {B : PyBridge} {HB : HostBridge} {IB : InspectBridge}.
(** Python's errors as the worker prints them *)
Context (error_of : Fault -> PyErr).

Definition reply {A} (m : Py A) (i : Interp) : result PyErr A := match (m i).1 with Ok a => Ok a | Err e => Err (error_of e) end.
Definition after {A} (m : Py A) (i : Interp) : Interp := (m i).2.

(** The calls of an attach that starts in the state [i], each made in the state
    its predecessor left. *)
Definition with_bridge (c : Call) (source device dtype : string) (i : Interp) : Call :=
  let i1 := after (load_model source device dtype) i in
  mkCall (cl_env c) (cl_pid c) (cl_max_seq_len c) (cl_arena_mb c) (cl_faults c) (cl_mmap_ok c) (cl_fuel c) (cl_now c) (cl_elapsed c)
    (fun s d t => reply (load_model s d t) i)
    (fun h => reply (model_metadata h) i1)
    (fun h => reply (get_model_config h) (after (model_metadata h) i1))
    (fun h => reply (discover_modules h) (after (get_model_config h) (after (model_metadata h) i1)))
    (fun h => reply (discover_execution_order h) (after (discover_modules h) (after (get_model_config h) (after (model_metadata h) i1))))
    (cl_unload_model c) (cl_run_forward c) (cl_compute_view c) (cl_export_env c).

Lemma reply_ok {A} (m : Py A) i a : reply m i = Ok a -> m i = (Ok a, after m i).
Proof. unfold reply, after. destruct (m i) as [[b|e] i']; [by intros [= ->]|done]. Qed.

Lemma reply_run {A} (m : Py A) i a i' : m i = (Ok a, i') -> reply m i = Ok a /\ after m i = i'.
Proof. unfold reply, after. by intros ->. Qed.

(** The handler of [HostDispatch] over these calls is the handler's own sequence
    of calls. *)
Lemma attach_calls_describe (c : Call) (request : Request) (req : HostAttachRequest) (dtype : string) (i : Interp) :
  (attach_calls error_of request req dtype i).1 =
  describe_model (with_bridge c (HostAttachRequest_model_source req) (HostAttachRequest_device req) dtype i) request req dtype.
Proof.
  unfold describe_model, with_bridge, attach_calls, asked.
  cbn [cl_load_model cl_model_metadata cl_model_config cl_discover_modules cl_execution_order]. unfold reply, after.
  destruct (load_model _ _ _ i) as [[h|e] i1]; [|done]. cbn [fst snd].
  destruct (model_metadata h i1) as [[info|e] i2]; [|done]. cbn [fst snd].
  destruct (get_model_config h i2) as [[config|e] i3]; [|done]. cbn [fst snd].
  destruct (discover_modules h i3) as [[modules|e] i4]; [|done]. cbn [fst snd].
  destruct (resolve_with_containers _ _ _) as [[map containers]|e]; [|done].
  by destruct (discover_execution_order h i4) as [[order|e] i5].
Qed.


End Attach.
End Spec.

Module Demo.

Definition info : ModelInfo := mkModelInfo 7 2 4 64 ["transformer"; "transformer.h.0.ln_1"]%string.
Definition config : ModelConfig := mkModelConfig "gpt2" 2 4 64 None.
Definition modules : list RawModule := [mkRawModule "transformer.h.0.ln_1" "LayerNorm" "ln_1"].
Definition order : list (string * Z) := [("transformer.h.0.ln_1"%string, 0)].

(** The library, for this model. *)
Definition replies (f : string) (args : list (PyVal string)) : option (PyVal string) :=
  if bool_decide (f = library +:+ ".load_model")%string then Some (PyInt 7)
  else if bool_decide (f = library +:+ ".model_metadata")%string then Some (@metadata_reply (scripted (fun _ _ => None)) info)
  else if bool_decide (f = library +:+ ".model_config")%string then Some (@config_reply (scripted (fun _ _ => None)) config)
  else if bool_decide (f = library +:+ ".discover_modules")%string then Some (PyList (@module_reply (scripted (fun _ _ => None)) <$> modules))
  else if bool_decide (f = library +:+ ".discover_execution_order")%string then Some (PyList (@call_reply (scripted (fun _ _ => None)) <$> order))
  else None.

Definition python : Interpreter := scripted replies.

End Demo.

