(* ===== verification/Extension.v ===== *)
(** * Extension: the Python extension module

    [crates/rocket-surgeon-python/src/lib.rs]: the functions the Python library
    calls to write and read frame headers, over the header code of [Frame] and
    the conversions of [Python].  The BLAKE3 digest is a parameter. *)

From Stdlib Require Import ZArith Lia Ascii String.
From coqutil Require Import Byte.
From stdpp Require Import base gmap strings list option.
From S2P Require Import Prelude Frame Python.
Open Scope Z_scope.

Section Extension.
Context {I : Interpreter}.
(** [blake3::hash(data).to_hex()], [PyValueError::new_err], the error of a wrong
    number of arguments, and of a failing [extract::<&[u8]>] *)
Context (blake3_hex : list byte -> string) (value_error : string -> Exception) (arity_error : Exception).

Abbreviation Val := (PyVal Obj).

(** [&[u8]] is taken from a bytes object only. *)
Definition extract_buffer (v : Val) : result Exception (list byte) :=
  from_option_or "&[u8]" v match v with PyBytes b => Some b | _ => None end.
Definition extract_u16 : Val -> result Exception Z := extract_int "u16" 0 (2 ^ 16 - 1).

Definition blake3_hash (args : list Val) : result Exception Val :=
  match args with
  | [data] => let? data := extract_buffer data in Ok (PyStr (blake3_hex data))
  | _ => Err arity_error
  end.

Definition serialize_header (rank layer comp_id dtype ndim : Z) (shape : list Z) (tick_id data_off size flags generation : Z)
  : result Exception (list byte) :=
  let dims := List.length shape in
  if Nat.ltb MAX_DIMS dims then Err (value_error ("shape has " +:+ to_string (Z.of_nat dims) +:+ " dims, max is 8"))
  else if negb (ndim =? Z.of_nat dims) then
    Err (value_error ("ndim (" +:+ to_string ndim +:+ ") does not match shape length (" +:+ to_string (Z.of_nat dims) +:+ ")"))
  else Ok (serialize (mkProbeFrameHeader rank layer comp_id dtype ndim (shape ++ repeat 0 (MAX_DIMS - dims)) tick_id data_off size flags generation)).

(** The arguments are converted in the order of the signature. *)
Definition serialize_probe_frame_header (args : list Val) : result Exception Val :=
  match args with
  | [rank; layer; comp_id; dtype; ndim; shape; tick_id; data_off; size; flags; generation] =>
      let? rank := extract_u32 rank in
      let? layer := extract_u32 layer in
      let? comp_id := extract_u16 comp_id in
      let? dtype := extract_u8 dtype in
      let? ndim := extract_u8 ndim in
      let? shape := extract_vec "Vec" extract_u32 shape in
      let? tick_id := extract_u64 tick_id in
      let? data_off := extract_u64 data_off in
      let? size := extract_u64 size in
      let? flags := extract_u32 flags in
      let? generation := extract_u32 generation in
      let? bytes := serialize_header rank layer comp_id dtype ndim shape tick_id data_off size flags generation in
      Ok (PyBytes bytes)
  | _ => Err arity_error
  end.

Definition header_error_text (e : ProbeFrameError) : string :=
  match e with
  | BufferTooSmall expected got =>
      "buffer too small: expected " +:+ to_string (Z.of_nat expected) +:+ " bytes, got " +:+ to_string (Z.of_nat got)
  end.

Definition header_dict (h : ProbeFrameHeader) : Val :=
  let item key z := (PyStr key, PyInt z) in
  PyDict [item "rank" (pfh_rank h); item "layer" (pfh_layer h); item "comp_id" (pfh_comp_id h); item "dtype" (pfh_dtype h);
          item "ndim" (pfh_ndim h); (PyStr "shape", PyList (PyInt <$> pfh_shape h)); item "tick_id" (pfh_tick_id h);
          item "data_off" (pfh_data_off h); item "size" (pfh_size h); item "flags" (pfh_flags h); item "generation" (pfh_generation h)]%string.

Definition parse_probe_frame_header (args : list Val) : result Exception Val :=
  match args with
  | [data] =>
      let? data := extract_buffer data in
      match parse data with
      | Ok header => Ok (header_dict header)
      | Err e => Err (value_error (header_error_text e))
      end
  | _ => Err arity_error
  end.

(** ** Round trip *)

Definition header_args (h : ProbeFrameHeader) (dims : list Z) : list Val :=
  [PyInt (pfh_rank h); PyInt (pfh_layer h); PyInt (pfh_comp_id h); PyInt (pfh_dtype h); PyInt (pfh_ndim h); PyList (PyInt <$> dims);
   PyInt (pfh_tick_id h); PyInt (pfh_data_off h); PyInt (pfh_size h); PyInt (pfh_flags h); PyInt (pfh_generation h)].

Lemma extract_fits type bits z : fits bits z -> extract_int type 0 (2 ^ bits - 1) (PyInt z) = Ok z.
Proof. unfold fits. intros H. apply extract_int_ok. split; [done|lia]. Qed.

(** The conversion of the arguments accepts any shape of u32 values. *)
Lemma header_args_convert (h : ProbeFrameHeader) (shape : list Z) : header_ok h -> Forall (fits 32) shape ->
  serialize_probe_frame_header (header_args h shape) =
  result_map PyBytes (serialize_header (pfh_rank h) (pfh_layer h) (pfh_comp_id h) (pfh_dtype h) (pfh_ndim h) shape (pfh_tick_id h) (pfh_data_off h)
    (pfh_size h) (pfh_flags h) (pfh_generation h)).
Proof.
  intros (H1 & H2 & H3 & H4 & H5 & _ & H7 & H8 & H9 & H10 & H11) Hf.
  assert (Hv : extract_vec "Vec" extract_u32 (PyList (PyInt <$> shape) : Val) = Ok shape).
  { apply all_ok_map. intros z Hz. apply (extract_fits _ 32). rewrite Forall_forall in Hf. by apply Hf, list_elem_of_In. }
  unfold serialize_probe_frame_header, header_args, extract_u64, extract_u32, extract_u16, extract_u8 in *.
  change U64_MAX with (2 ^ 64 - 1). change U32_MAX with (2 ^ 32 - 1) in *. change 255 with (2 ^ 8 - 1).
  rewrite !extract_fits, Hv by done. by destruct (serialize_header _ _ _ _ _ _ _ _ _ _ _).
Qed.


End Extension.

Definition demo_python : Interpreter := scripted (fun _ _ => None).

