(* ===== verification/Cleanup.v ===== *)
(** * Cleanup: removing the shared memory of dead workers

    [crates/rocket-surgeon-shm/src/cleanup.rs] for Linux: the regions under
    [/dev/shm] whose name says that a worker made them are unlinked when the
    process in the name is gone.  Whether a process is alive is [kill(pid, 0)]
    and a parameter; so is the order in which the directory is listed. *)

From Stdlib Require Import ZArith Lia Ascii String.
From stdpp Require Import base gmap strings list fin_maps sets.
From S2P Require Import Prelude Frame Shm HostDispatch.
Open Scope Z_scope.

(** [u32::from_str_radix(_, 16)]: an optional [+], then at least one digit. *)
Definition hex_value (c : ascii) : option Z :=
  let v := ascii_code c in
  if (48 <=? v) && (v <=? 57) then Some (v - 48)
  else if (97 <=? v) && (v <=? 102) then Some (v - 87)
  else if (65 <=? v) && (v <=? 70) then Some (v - 55) else None.

Fixpoint parse_hex_digits (acc : Z) (cs : list ascii) : option Z :=
  match cs with
  | [] => Some acc
  | c :: r => match hex_value c with
              | Some d => let n := acc * 16 + d in if n <=? U32_MAX then parse_hex_digits n r else None
              | None => None
              end
  end.

Definition parse_hex (cs : list ascii) : option Z :=
  let body := match cs with
    | c :: ((_ :: _) as rest) => if decide (c = "+"%char) then rest else cs
    | _ => cs
    end in
  match body with [] => None | _ => parse_hex_digits 0 body end.

(** [p as i32] *)
Definition as_i32 (p : Z) : Z := if p <? 2 ^ 31 then p else p - 2 ^ 32.

Definition parse_pid_from_region_name (name : list ascii) : option Z :=
  rest ← strip_prefix (chars "rs-") name;
  pid_hex ← head (split_on "-"%char rest);
  as_i32 <$> parse_hex pid_hex.

Section Sweep.
Context (is_pid_alive : Z -> bool).

(** A name of [/dev/shm], without the slash. *)
Definition stale (name : list ascii) : bool :=
  starts_with (chars "rs-") name &&
  match parse_pid_from_region_name name with
  | Some pid => negb (is_pid_alive pid)
  | None => true
  end.

Definition discover_stale_region_names (entries : list (list ascii)) : list string :=
  (fun name => text ("/"%char :: name)) <$> List.filter stale entries.

Fixpoint sweep_stale_regions (known_names : list string) (w : World) : nat * World :=
  match known_names with
  | [] => (0%nat, w)
  | name :: rest =>
      match Region_unlink name w with
      | (Ok _, w) => let '(n, w) := sweep_stale_regions rest w in (S n, w)
      | (Err _, w) => sweep_stale_regions rest w
      end
  end.

End Sweep.

(** ** The pid in a worker's region name *)

Lemma hex_value_char d : 0 <= d < 16 -> hex_value (hex_char d) = Some d.
Proof.
  intros H. assert (Hd : d = 0 \/ d = 1 \/ d = 2 \/ d = 3 \/ d = 4 \/ d = 5 \/ d = 6 \/ d = 7 \/ d = 8 \/ d = 9 \/ d = 10 \/ d = 11 \/ d = 12 \/ d = 13 \/ d = 14 \/ d = 15) by lia.
  repeat destruct Hd as [->|Hd]; [reflexivity..|subst d; reflexivity].
Qed.

Lemma nibble_range n k : 0 <= Z.land (Z.shiftr n k) 15 < 16.
Proof. change 15 with (Z.ones 4). rewrite Z.land_ones by lia. apply Z.mod_pos_bound. lia. Qed.

(** One hexadecimal digit further. *)
Lemma nibble_step n k : 0 <= k -> Z.shiftr n (4 * (k + 1)) * 16 + Z.land (Z.shiftr n (4 * k)) 15 = Z.shiftr n (4 * k).
Proof.
  intros Hk. replace (4 * (k + 1)) with (4 * k + 4) by lia. rewrite <- Z.shiftr_shiftr by lia.
  change 15 with (Z.ones 4). rewrite Z.land_ones, (Z.shiftr_div_pow2 _ 4) by lia. change (2 ^ 4) with 16.
  pose proof (Z.div_mod (Z.shiftr n (4 * k)) 16). lia.
Qed.

Lemma parse_nibbles n (ks : nat) :
  0 <= n <= U32_MAX ->
  parse_hex_digits (Z.shiftr n (4 * Z.of_nat ks)) ((fun k => hex_char (Z.land (Z.shiftr n (4 * Z.of_nat k)) 15)) <$> rev (seq 0 ks)) = Some n.
Proof.
  intros Hn. induction ks as [|ks IH]; [cbn; by rewrite Z.shiftr_0_r|].
  rewrite seq_S, rev_app_distr. cbn [rev app fmap list_fmap parse_hex_digits Nat.add].
  rewrite hex_value_char by apply nibble_range. replace (4 * Z.of_nat (S ks)) with (4 * (Z.of_nat ks + 1)) by lia.
  rewrite nibble_step by lia. rewrite (proj2 (Z.leb_le _ _)); [exact IH|].
  rewrite Z.shiftr_div_pow2 by lia. etrans; [apply Z.div_le_upper_bound with (q := n)|lia]; [apply Z.pow_pos_nonneg; lia|].
  pose proof (Z.pow_pos_nonneg 2 (4 * Z.of_nat ks)). nia.
Qed.

Lemma hex8_nibbles n : chars (hex8 n) = (fun k => hex_char (Z.land (Z.shiftr n (4 * Z.of_nat k)) 15)) <$> rev (seq 0 8).
Proof. unfold hex8. by rewrite chars_text. Qed.

Lemma hex_char_safe d : 0 <= d < 16 -> hex_char d <> "-"%char /\ hex_char d <> "+"%char.
Proof.
  intros H. assert (Hv : is_Some (hex_value (hex_char d))) by (rewrite hex_value_char by done; eauto).
  split; intros E; rewrite E in Hv; vm_compute in Hv; by destruct Hv.
Qed.

Lemma parse_region_pid pid : 0 <= pid <= U32_MAX -> parse_pid_from_region_name (chars "rs-" ++ chars (hex8 pid) ++ chars "-0") = Some (as_i32 pid).
Proof.
  intros Hp. unfold parse_pid_from_region_name. rewrite (proj2 (strip_prefix_spec _ _ _) eq_refl). cbn [mbind option_bind].
  pose proof (parse_nibbles pid 8 Hp) as Hn. rewrite <- hex8_nibbles in Hn.
  assert (Hz : Z.shiftr pid (4 * Z.of_nat 8) = 0).
  { rewrite Z.shiftr_div_pow2 by lia. apply Z.div_small. change (4 * Z.of_nat 8) with 32. unfold U32_MAX in Hp. lia. }
  rewrite Hz in Hn.
  assert (Hs : Forall (fun c => c <> "-"%char /\ c <> "+"%char) (chars (hex8 pid))).
  { rewrite hex8_nibbles. apply Forall_fmap, Forall_forall. intros k _. apply hex_char_safe, nibble_range. }
  change (chars "-0") with ("-"%char :: chars "0"). rewrite split_on_app by (intros Hin; rewrite Forall_forall in Hs; by destruct (Hs _ Hin)).
  cbn [head mbind option_bind]. unfold parse_hex.
  assert (Hb : match chars (hex8 pid) with c :: (_ :: _) as rest => if decide (c = "+"%char) then rest else chars (hex8 pid) | _ => chars (hex8 pid) end = chars (hex8 pid)).
  { destruct (chars (hex8 pid)) as [|c [|c' r]]; [done|done|]. apply Forall_cons in Hs as [[_ Hc] _]. by rewrite decide_False. }
  rewrite Hb. assert (Hne : exists c r, chars (hex8 pid) = c :: r) by (rewrite hex8_nibbles; cbn; eauto).
  destruct Hne as (c & r & E). rewrite E in *. by rewrite Hn.
Qed.

(** ** What a sweep removes *)

Lemma sweep_objects names w name :
  objects (sweep_stale_regions names w).2 !! name = if bool_decide (name ∈ names) then None else objects w !! name.
Proof.
  revert w. induction names as [|x names IH]; intros w; [done|]. cbn [sweep_stale_regions]. unfold Region_unlink.
  destruct (objects w !! x) eqn:E.
  - specialize (IH (mkWorld (delete x (objects w)) (open_fds w))). destruct (sweep_stale_regions names _) as [n w']. cbn [snd] in *. rewrite IH. cbn [objects].
    destruct (decide (name = x)) as [->|Hx]; [rewrite lookup_delete_eq; rewrite (bool_decide_eq_true_2 (x ∈ x :: names)) by apply list_elem_of_here; by case_bool_decide|].
    rewrite lookup_delete_ne by done. apply (f_equal (fun b : bool => if b then None else objects w !! name)). apply bool_decide_ext. set_solver.
  - rewrite IH. destruct (decide (name = x)) as [->|Hx].
    + rewrite (bool_decide_eq_true_2 (x ∈ x :: names)) by apply list_elem_of_here. by case_bool_decide.
    + apply (f_equal (fun b : bool => if b then None else objects w !! name)). apply bool_decide_ext. set_solver.
Qed.

Lemma sweep_fds names w : open_fds (sweep_stale_regions names w).2 = open_fds w.
Proof.
  revert w. induction names as [|x names IH]; intros w; [done|]. cbn [sweep_stale_regions]. unfold Region_unlink.
  destruct (objects w !! x); [|apply IH]. specialize (IH (mkWorld (delete x (objects w)) (open_fds w))).
  by destruct (sweep_stale_regions names _).
Qed.

Lemma discovered alive entries name :
  text ("/"%char :: name) ∈ discover_stale_region_names alive entries <-> name ∈ entries /\ stale alive name = true.
Proof.
  unfold discover_stale_region_names. rewrite list_elem_of_fmap. split.
  - intros (y & E & Hy). apply (f_equal chars) in E. rewrite !chars_text in E. injection E as ->.
    apply list_elem_of_In, filter_In in Hy as [Hy Hs]. split; [by apply list_elem_of_In|done].
  - intros [Hn Hs]. exists name. split; [done|]. apply list_elem_of_In, filter_In. split; [by apply list_elem_of_In|done].
Qed.

Lemma worker_region_text pid : region_name pid = text ("/"%char :: chars "rs-" ++ chars (hex8 pid) ++ chars "-0").
Proof. unfold region_name. rewrite <- (text_chars ("/rs-" +:+ hex8 pid +:+ "-0")). f_equal. Qed.

(** The sweep of shared memory agrees with the names the workers use.
    Whatever else is in the directory and in whichever order it is listed, the
    region of a worker whose process is alive survives the sweep and the listed
    region of a worker whose process is gone is removed; regions that do not
    carry the tool's prefix are never touched; and no descriptor is leaked. *)
Theorem sweep_removes_dead_workers (alive : Z -> bool) (entries : list (list ascii)) (w : World) (pid : Z)
    (Hpid : 0 <= pid < 2 ^ 31) :
  let w' := (sweep_stale_regions (discover_stale_region_names alive entries) w).2 in
  (alive pid = true -> objects w' !! region_name pid = objects w !! region_name pid) /\
  (alive pid = false -> chars "rs-" ++ chars (hex8 pid) ++ chars "-0" ∈ entries -> objects w' !! region_name pid = None) /\
  (forall name, starts_with (chars "rs-") name = false -> objects w' !! text ("/"%char :: name) = objects w !! text ("/"%char :: name)) /\
  open_fds w' = open_fds w.
Proof.
  cbv zeta. assert (Hs : stale alive (chars "rs-" ++ chars (hex8 pid) ++ chars "-0") = negb (alive pid)).
  { unfold stale, starts_with. rewrite (proj2 (strip_prefix_spec _ _ _) eq_refl), parse_region_pid by (unfold U32_MAX; lia). cbn [andb].
    unfold as_i32. by rewrite (proj2 (Z.ltb_lt _ _)) by lia. }
  split_and!; [| | |apply sweep_fds].
  - intros Ha. rewrite sweep_objects, worker_region_text. rewrite bool_decide_eq_false_2; [done|]. rewrite discovered, Hs, Ha. by intros [_ ?].
  - intros Ha Hin. rewrite sweep_objects, worker_region_text. rewrite bool_decide_eq_true_2; [done|]. rewrite discovered, Hs, Ha. done.
  - intros name Hn. rewrite sweep_objects. rewrite bool_decide_eq_false_2; [done|]. rewrite discovered. unfold stale. rewrite Hn. by intros [_ ?].
Qed.

Lemma sweep_removes_dead_workers_witness :
  let name pid := region_name pid in
  let entry pid := chars "rs-" ++ chars (hex8 pid) ++ chars "-0" in
  let w := mkWorld {[name 77 := []; name 255 := []]} 0 in
  let w' := (sweep_stale_regions (discover_stale_region_names (fun p => p =? 77) [entry 255; entry 77]) w).2 in
  objects w' !! name 77 = Some [] /\ objects w' !! name 255 = None.
Proof.
  intros name entry w w'. split.
  - destruct (sweep_removes_dead_workers (fun p => p =? 77) [entry 255; entry 77] w 77) as [H _]; [lia|]. exact (H eq_refl).
  - destruct (sweep_removes_dead_workers (fun p => p =? 77) [entry 255; entry 77] w 255) as (_ & H & _); [lia|]. apply H; [reflexivity|apply list_elem_of_here].
Defined.
