(* ===== verification/ShmNames.v ===== *)
(** * ShmNames: the list of region names on macOS

    [crates/rocket-surgeon-shm/src/cleanup.rs] where [/dev/shm] does not exist:
    the names of the live regions are kept in a JSON file that the processes of
    the system rewrite under an advisory lock.  The two updates are functions of
    the file; their interleaving, call by call, is [name_step].  Printing and
    parsing of the list (serde_json) are the class [NameList]. *)

From Stdlib Require Import ZArith Lia Ascii String.
From stdpp Require Import base gmap strings list fin_maps option.
From S2P Require Import Prelude.
Open Scope Z_scope.

Class NameList := {
  names_text : list string -> string;
  parse_names : string -> option (list string)
}.

Class NameListLaws `{NameList} := {
  parse_names_text l : parse_names (names_text l) = Some l;
  parse_names_empty : parse_names "" = None
}.

(** [PathBuf::join] with a relative component *)
Definition path_join (base component : string) : string :=
  if decide (base = "" \/ head (rev (chars base)) = Some "/"%char) then (base +:+ component)%string
  else (base +:+ "/" +:+ component)%string.

(** From the environment variable [HOME]. *)
Definition dirs_or_home (home : option string) : string :=
  match home with
  | Some home => path_join (path_join (path_join home ".local") "state") "rocket_surgeon"
  | None => "/tmp/rocket_surgeon"
  end.
Definition state_file (home : option string) : string := path_join (dirs_or_home home) "shm_regions.json".
Definition lock_file (home : option string) : string := path_join (dirs_or_home home) "shm_regions.lock".

Section Names.
Context {NL : NameList}.

(** [serde_json::from_str(..).unwrap_or_default()] *)
Definition names_of (contents : string) : list string := default [] (parse_names contents).

(** [None]: the file cannot be read. *)
Definition discover_stale_region_names (file : option string) : list string :=
  match file with Some contents => names_of contents | None => [] end.

Inductive update := Register (name : string) | Deregister (name : string).

(** What the two functions write, if anything, for what they have read. *)
Definition register_region_name (name : string) (file : option string) : option (list string) :=
  let names := match file with Some contents => names_of contents | None => [] end in
  Some (if bool_decide (name ∈ names) then names else names ++ [name]).
Definition deregister_region_name (name : string) (file : option string) : option (list string) :=
  match file with
  | Some contents => Some (List.filter (fun n => negb (bool_decide (n = name))) (names_of contents))
  | None => None
  end.
Definition rewritten (u : update) (file : option string) : option (list string) :=
  match u with Register name => register_region_name name file | Deregister name => deregister_region_name name file end.

(** ** Several processes *)

(** Where a process stands in its update. *)
Inductive Phase :=
| Waiting (u : update)
| Holding (u : update)
| Computed (u : update) (names : option (list string))
| Truncated (u : update) (names : list string)
| Done (u : update).

Record Names := mkNames {
  nm_file : option string;
  (** the holder of the [flock] *)
  nm_lock : option nat;
  nm_phase : gmap nat Phase;
  (** the updates that have been written, in order *)
  nm_log : list update
}.

Definition start : Names := mkNames None None ∅ [].

Inductive name_op :=
| OpCall (p : nat) (u : update)
| OpAcquire (p : nat)
| OpRead (p : nat)
| OpTruncate (p : nat)
| OpWrite (p : nat)
| OpRelease (p : nat).

Definition set_phase (p : nat) (f : Phase) (s : Names) : Names := mkNames (nm_file s) (nm_lock s) (<[p := f]> (nm_phase s)) (nm_log s).

(** One call of one process; [None] when the process cannot make it now.
    [std::fs::write] truncates the file and then writes it. *)
Definition name_step (o : name_op) (s : Names) : option Names :=
  match o with
  | OpCall p u => match nm_phase s !! p with None => Some (set_phase p (Waiting u) s) | Some _ => None end
  | OpAcquire p =>
      match nm_phase s !! p, nm_lock s with
      | Some (Waiting u), None => Some (mkNames (nm_file s) (Some p) (<[p := Holding u]> (nm_phase s)) (nm_log s))
      | _, _ => None
      end
  | OpRead p =>
      match nm_phase s !! p with
      | Some (Holding u) => Some (set_phase p (Computed u (rewritten u (nm_file s))) s)
      | _ => None
      end
  | OpTruncate p =>
      match nm_phase s !! p with
      | Some (Computed u (Some names)) => Some (mkNames (Some "") (nm_lock s) (<[p := Truncated u names]> (nm_phase s)) (nm_log s))
      | Some (Computed u None) => Some (mkNames (nm_file s) (nm_lock s) (<[p := Done u]> (nm_phase s)) (nm_log s ++ [u]))
      | _ => None
      end
  | OpWrite p =>
      match nm_phase s !! p with
      | Some (Truncated u names) =>
          Some (mkNames (Some (names_text names)) (nm_lock s) (<[p := Done u]> (nm_phase s)) (nm_log s ++ [u]))
      | _ => None
      end
  | OpRelease p =>
      match nm_phase s !! p with
      | Some (Done u) => Some (mkNames (nm_file s) None (delete p (nm_phase s)) (nm_log s))
      | _ => None
      end
  end.

Fixpoint name_run (ops : list name_op) (s : Names) : option Names :=
  match ops with [] => Some s | o :: ops => s ← name_step o s; name_run ops s end.

(** ** One update after the other *)

(** What an update means, on the list of names. *)
Definition apply_update (names : list string) (u : update) : list string :=
  match u with
  | Register name => if bool_decide (name ∈ names) then names else names ++ [name]
  | Deregister name => List.filter (fun n => negb (bool_decide (n = name))) names
  end.
Definition names_after (log : list update) : list string := foldl apply_update [] log.

Definition critical (f : Phase) : bool := match f with Waiting _ => false | _ => true end.

(** What the phase of the holder says of the file. *)
Definition phase_ok (s : Names) (f : Phase) : Prop :=
  match f with
  | Waiting _ => True
  | Holding _ | Done _ => discover_stale_region_names (nm_file s) = names_after (nm_log s)
  | Computed u (Some names) => discover_stale_region_names (nm_file s) = names_after (nm_log s) /\ names = names_after (nm_log s ++ [u])
  | Computed u None => discover_stale_region_names (nm_file s) = names_after (nm_log s) /\ names_after (nm_log s) = names_after (nm_log s ++ [u])
  | Truncated u names => nm_file s = Some "" /\ names = names_after (nm_log s ++ [u])
  end.

Record names_inv (s : Names) : Prop := {
  ni_lock p f : nm_phase s !! p = Some f -> critical f = true -> nm_lock s = Some p;
  ni_holder p : nm_lock s = Some p -> exists f, nm_phase s !! p = Some f /\ critical f = true;
  ni_phase p f : nm_phase s !! p = Some f -> phase_ok s f;
  ni_free : nm_lock s = None -> discover_stale_region_names (nm_file s) = names_after (nm_log s)
}.

Context {NLL : NameListLaws}.

Lemma rewritten_spec u file :
  match rewritten u file with
  | Some names => names = apply_update (discover_stale_region_names file) u
  | None => file = None /\ apply_update (discover_stale_region_names file) u = discover_stale_region_names file
  end.
Proof. by destruct u as [name|name], file as [contents|]. Qed.

Lemma names_after_snoc log u : names_after (log ++ [u]) = apply_update (names_after log) u.
Proof. unfold names_after. by rewrite foldl_snoc. Qed.

Lemma names_start_inv : names_inv start.
Proof. by split. Qed.

(** A step of the holder [p] keeps the invariant when its new phase does. *)
Lemma holder_inv s p f f' file lock log :
  names_inv s -> nm_phase s !! p = Some f -> critical f = true -> critical f' = true -> lock = nm_lock s ->
  phase_ok (mkNames file lock (<[p := f']> (nm_phase s)) log) f' ->
  names_inv (mkNames file lock (<[p := f']> (nm_phase s)) log).
Proof.
  intros Hi Hp Hf Hf' -> Hok. pose proof (ni_lock s Hi p f Hp Hf) as Hl. split; cbn [nm_file nm_lock nm_phase nm_log].
  - intros q g. destruct (decide (p = q)) as [->|Hq]; [by intros|]. rewrite lookup_insert_ne by done. by apply (ni_lock s Hi).
  - rewrite Hl. intros q [= <-]. exists f'. by rewrite lookup_insert_eq.
  - intros q g. destruct (decide (p = q)) as [->|Hq]; [rewrite lookup_insert_eq; by intros [= <-]|]. rewrite lookup_insert_ne by done.
    intros Hg. destruct g; try done; exfalso; apply Hq; assert (H : nm_lock s = Some q) by (by eapply ni_lock); congruence.
  - by rewrite Hl.
Qed.

Lemma names_step_inv o s s' : names_inv s -> name_step o s = Some s' -> names_inv s'.
Proof.
  intros Hi. destruct o as [p u|p|p|p|p|p]; cbn [name_step]; destruct (nm_phase s !! p) as [f|] eqn:Ep; try done.
  - intros [= <-]. split; cbn [set_phase nm_file nm_lock nm_phase nm_log].
    + intros q g. destruct (decide (p = q)) as [->|Hq]; [rewrite lookup_insert_eq; by intros [= <-]|rewrite lookup_insert_ne by done; by apply (ni_lock s Hi)].
    + intros q (g & Hg & Hc)%(ni_holder s Hi). exists g. rewrite lookup_insert_ne by congruence. done.
    + intros q g. destruct (decide (p = q)) as [->|Hq]; [rewrite lookup_insert_eq; by intros [= <-]|rewrite lookup_insert_ne by done].
      intros Hg%(ni_phase s Hi). by destruct g as [| |? []|? ?|].
    + apply (ni_free s Hi).
  - destruct f as [u| | | |]; try done. destruct (nm_lock s) eqn:El; [done|]. intros [= <-]. pose proof (ni_free s Hi El) as Hfree.
    split; cbn [nm_file nm_lock nm_phase nm_log].
    + intros q g. destruct (decide (p = q)) as [->|Hq]; [done|rewrite lookup_insert_ne by done]. intros Hg Hc.
      pose proof (ni_lock s Hi q g Hg Hc). congruence.
    + intros q [= <-]. exists (Holding u). by rewrite lookup_insert_eq.
    + intros q g. destruct (decide (p = q)) as [->|Hq]; [rewrite lookup_insert_eq; by intros [= <-]|rewrite lookup_insert_ne by done].
      intros Hg%(ni_phase s Hi). by destruct g as [| |? []|? ?|].
    + done.
  - destruct f as [|u| | |]; try done. intros [= <-]. apply (holder_inv s p (Holding u)); try done.
    pose proof (ni_phase s Hi _ _ Ep) as H. pose proof (rewritten_spec u (nm_file s)) as Hr. cbn in H |- *.
    destruct (rewritten u (nm_file s)); rewrite names_after_snoc; [by rewrite Hr, H|destruct Hr as [_ Hr]; by rewrite <- H, Hr].
  - destruct f as [| |u [names|]| |]; try done; intros [= <-]; apply (holder_inv s p _ _ _ _ _ Hi Ep); try done;
      pose proof (ni_phase s Hi _ _ Ep) as [H1 H2]; cbn; [done|by rewrite H1].
  - destruct f as [| | |u names|]; try done. intros [= <-]. apply (holder_inv s p _ _ _ _ _ Hi Ep); try done.
    pose proof (ni_phase s Hi _ _ Ep) as [_ H]. cbn. unfold names_of. by rewrite parse_names_text.
  - destruct f as [| | | |u]; try done. intros [= <-]. pose proof (ni_lock s Hi _ _ Ep eq_refl) as Hl. pose proof (ni_phase s Hi _ _ Ep) as Hd.
    split; cbn [nm_file nm_lock nm_phase nm_log]; [|done| |done].
    + intros q g. destruct (decide (p = q)) as [->|Hq]; [by rewrite lookup_delete_eq|rewrite lookup_delete_ne by done].
      intros Hg Hc. pose proof (ni_lock s Hi q g Hg Hc). congruence.
    + intros q g. destruct (decide (p = q)) as [->|Hq]; [by rewrite lookup_delete_eq|rewrite lookup_delete_ne by done].
      intros Hg%(ni_phase s Hi). by destruct g as [| |? []|? ?|].
Qed.

Lemma names_run_inv ops : forall s s', names_inv s -> name_run ops s = Some s' -> names_inv s'.
Proof.
  induction ops as [|o ops IH]; intros s s' Hi; cbn; [by intros [= <-]|].
  intros (s1 & H1 & H2)%bind_Some. eapply IH; [|done]. by eapply names_step_inv.
Qed.

(** However many processes register and deregister names at once, the updates
    take effect one after the other, in the order in which they are written: at
    most one process is inside its update; whenever none is, the file lists the
    names the updates so far add up to; and a reader, which takes no lock, finds
    those names at any other moment too, except between the truncation and the
    write, when it finds none. *)
Theorem updates_are_atomic (ops : list name_op) (s : Names) (Hrun : name_run ops start = Some s) :
  (forall p q f g, nm_phase s !! p = Some f -> nm_phase s !! q = Some g -> critical f = true -> critical g = true -> p = q) /\
  (nm_lock s = None -> discover_stale_region_names (nm_file s) = names_after (nm_log s)) /\
  (discover_stale_region_names (nm_file s) = names_after (nm_log s) \/
   discover_stale_region_names (nm_file s) = [] /\ exists p u names, nm_phase s !! p = Some (Truncated u names)).
Proof.
  pose proof (names_run_inv ops start s names_start_inv Hrun) as Hi. split_and!.
  - intros p q f g Hp Hq Hf Hg. pose proof (ni_lock s Hi p f Hp Hf). pose proof (ni_lock s Hi q g Hq Hg). congruence.
  - apply (ni_free s Hi).
  - destruct (nm_lock s) as [p|] eqn:El; [|left; by apply (ni_free s Hi)].
    destruct (ni_holder s Hi p El) as (f & Hp & Hf). pose proof (ni_phase s Hi p f Hp) as H.
    destruct f as [u|u|u [names|]|u names|u]; try done; cbn in H; try (left; tauto).
    right. destruct H as [-> _]. cbn. unfold names_of. rewrite parse_names_empty. eauto.
Qed.

(** A name that is registered, and not deregistered after, is listed. *)
Lemma registered_is_listed log name later :
  Forall (fun u => u <> Deregister name) later -> name ∈ names_after (log ++ Register name :: later).
Proof.
  intros H. unfold names_after. rewrite foldl_app. cbn [foldl]. set (names := foldl apply_update [] log).
  assert (Hin : name ∈ apply_update names (Register name)).
  { cbn. case_bool_decide; [done|]. apply elem_of_app. right. by left. }
  revert H Hin. generalize (apply_update names (Register name)). induction later as [|u later IH]; intros l H Hin; [done|].
  pose proof (Forall_inv H) as Hu; apply Forall_inv_tail in H. cbn [foldl]. apply IH; [done|]. destruct u as [n|n]; cbn.
  - case_bool_decide; [done|]. apply elem_of_app. by left.
  - apply list_elem_of_In, filter_In. split; [by apply list_elem_of_In|]. apply negb_true_iff, bool_decide_eq_false. by intros ->.
Qed.

End Names.

(** ** A concrete list format: one number per list *)

Module Demo.

Definition numbered : NameList := {|
  names_text := fun l => to_string (Z.pos (encode l));
  parse_names := fun s => match chars s with [] => None | cs => n ← parse_digits 0 cs; decode (Z.to_pos n) end
|}.

Lemma numbered_laws : @NameListLaws numbered.
Proof.
  constructor; [|done]. intros l.
  change (match chars (to_string (Z.pos (encode l))) with [] => None | cs => n ← parse_digits 0 cs; decode (Z.to_pos n) end = Some l).
  unfold to_string. rewrite chars_text.
  destruct (print_dec_spec (Z.pos (encode l)) ltac:(lia)) as [Hne Hp]. destruct (print_dec _) as [|c cs]; [done|].
  rewrite Hp. cbn. apply decode_encode.
Qed.

(** Two processes, the second waiting for the lock of the first. *)
Definition ops : list name_op :=
  [OpCall 1 (Register "/rs-a-0"); OpCall 2 (Register "/rs-b-0"); OpAcquire 1; OpRead 1; OpTruncate 1; OpWrite 1; OpRelease 1;
   OpAcquire 2; OpRead 2; OpTruncate 2; OpWrite 2; OpRelease 2; OpCall 1 (Deregister "/rs-a-0"); OpAcquire 1; OpRead 1; OpTruncate 1].

End Demo.

Lemma updates_are_atomic_witness :
  exists s, @name_run Demo.numbered Demo.ops start = Some s /\ nm_log s = [Register "/rs-a-0"; Register "/rs-b-0"] /\
    (@discover_stale_region_names Demo.numbered (nm_file s) = ["/rs-a-0"; "/rs-b-0"]%string \/
     @discover_stale_region_names Demo.numbered (nm_file s) = []).
Proof.
  destruct (@name_run Demo.numbered Demo.ops start) as [s|] eqn:E; [|vm_compute in E; discriminate].
  assert (Hl : nm_log s = [Register "/rs-a-0"; Register "/rs-b-0"]) by (vm_compute in E; injection E as <-; reflexivity).
  exists s. split; [reflexivity|]. split; [exact Hl|].
  destruct (@updates_are_atomic Demo.numbered Demo.numbered_laws Demo.ops s E) as (_ & _ & [H|[H _]]); [left|right; exact H].
  rewrite H, Hl. reflexivity.
Defined.

(** The list does not say which processes live: a worker that runs is listed,
    and a sweep of the listed names would unlink its region. *)
Example live_region_is_listed : @discover_stale_region_names Demo.numbered
    (Some (@names_text Demo.numbered (names_after [Register "/rs-live-0"]))) = ["/rs-live-0"%string].
Proof. vm_compute. reflexivity. Qed.
