(* ===== verification/Perfetto.v ===== *)
(** * Perfetto: the trace the daemon writes

    [crates/perfetto-writer/src/{intern,proto,writer}.rs] and
    [crates/rocket-surgeon/src/perfetto_sink.rs].  The encoding of a packet is
    the [prost] crate's and a parameter, as are the answers of the system to
    each call of [write] and the iteration orders of the hash maps.  A panic (the
    assertions on ranks and layers) is [None].  The file is written through the
    standard library's [BufWriter], modelled with its buffer. *)

From Stdlib Require Import ZArith Lia Ascii String.
From coqutil Require Import Byte.
From stdpp Require Import base gmap strings list fin_maps sets.
From S2P Require Import Prelude Varint Protocol Messages Adapter Host.
Open Scope Z_scope.

(** ** Interned names *)

Record InternTable := mkInternTable { it_names : gmap string Z; it_next_iid : Z }.

Definition InternTable_new : InternTable := mkInternTable ∅ 1.

Definition intern (name : string) (t : InternTable) : Z * InternTable :=
  match it_names t !! name with
  | Some iid => (iid, t)
  | None => (it_next_iid t, mkInternTable (<[name := it_next_iid t]> (it_names t)) (u64_add (it_next_iid t) 1))
  end.

Definition it_get (name : string) (t : InternTable) : option Z := it_names t !! name.

(** [entries()], in the order in which the map is iterated *)
Definition entries (order : gmap string Z -> list (string * Z)) (t : InternTable) : list (Z * string) :=
  (fun '(name, iid) => (iid, name)) <$> order (it_names t).

(** ** Packets *)

Record EventName := mkEventName { en_iid : option Z; en_name : option string }.
Record EventCategory := mkEventCategory { ec_iid : option Z; ec_name : option string }.
Record InternedData := mkInternedData { id_event_categories : list EventCategory; id_event_names : list EventName }.

Record DebugAnnotation := mkDebugAnnotation {
  da_name : option string;
  da_name_iid : option Z;
  da_bool_value : option bool;
  da_uint_value : option Z;
  da_int_value : option Z;
  da_double_value : option f64;
  da_string_value : option string
}.

Record CounterDescriptor := mkCounterDescriptor { cd_categories : list string; cd_unit_name : option string; cd_is_incremental : option bool }.
Record ThreadDescriptor := mkThreadDescriptor { thd_pid : option Z; thd_tid : option Z; thd_thread_name : option string }.
Record ProcessDescriptor := mkProcessDescriptor { prd_pid : option Z; prd_cmdline : list string; prd_process_name : option string }.

Record TrackDescriptor := mkTrackDescriptor {
  td_uuid : option Z;
  td_parent_uuid : option Z;
  td_name : option string;
  td_process : option ProcessDescriptor;
  td_thread : option ThreadDescriptor;
  td_counter : option CounterDescriptor;
  td_child_ordering : option Z;
  td_sibling_order_rank : option Z
}.

Record TrackEvent := mkTrackEvent {
  te_type : option Z;
  te_track_uuid : option Z;
  te_name : option string;
  te_name_iid : option Z;
  te_debug_annotation : list DebugAnnotation;
  te_counter_value : option Z;
  te_double_counter_value : option f64
}.

Record TracePacket := mkTracePacket {
  tpk_timestamp : option Z;
  tpk_timestamp_clock_id : option Z;
  tpk_track_event : option TrackEvent;
  tpk_track_descriptor : option TrackDescriptor;
  tpk_trusted_packet_sequence_id : option Z;
  tpk_sequence_flags : option Z;
  tpk_interned_data : option InternedData;
  tpk_first_packet_on_sequence : option bool
}.

Definition TYPE_SLICE_BEGIN : Z := 1.
Definition TYPE_SLICE_END : Z := 2.
Definition TYPE_INSTANT : Z := 3.
Definition TYPE_COUNTER : Z := 4.
Definition SEQ_INCREMENTAL_STATE_CLEARED : Z := 1.
Definition SEQ_NEEDS_INCREMENTAL_STATE : Z := 2.
Definition CLOCK_MONOTONIC : Z := 3.
Definition CHILD_ORDERING_EXPLICIT : Z := 3.

(** A packet that only describes a track, and one that only carries an event. *)
Definition describe (d : TrackDescriptor) : TracePacket := mkTracePacket None None None (Some d) None None None None.
Definition event_at (timestamp_ns sequence_id : Z) (flags : option Z) (e : TrackEvent) : TracePacket :=
  mkTracePacket (Some timestamp_ns) (Some CLOCK_MONOTONIC) (Some e) None (Some sequence_id) flags None None.

Definition process_track_packet (uuid : Z) (name : string) (pid : Z) (process_name : string) : TracePacket :=
  describe (mkTrackDescriptor (Some uuid) None (Some name) (Some (mkProcessDescriptor (Some pid) [] (Some process_name))) None None None None).
Definition thread_track_packet (uuid parent_uuid : Z) (name : string) (pid tid : Z) : TracePacket :=
  describe (mkTrackDescriptor (Some uuid) (Some parent_uuid) (Some name) None (Some (mkThreadDescriptor (Some pid) (Some tid) (Some name))) None None None).
Definition track_packet (uuid parent_uuid : Z) (name : string) (order : Z) : TracePacket :=
  describe (mkTrackDescriptor (Some uuid) (Some parent_uuid) (Some name) None None None (Some CHILD_ORDERING_EXPLICIT) (Some order)).
Definition counter_track_packet (uuid parent_uuid : Z) (name unit_name : string) : TracePacket :=
  describe (mkTrackDescriptor (Some uuid) (Some parent_uuid) (Some name) None None (Some (mkCounterDescriptor [] (Some unit_name) None)) None None).
Definition interned_names_packet (sequence_id : Z) (first : bool) (names : list (Z * string)) : TracePacket :=
  mkTracePacket None (Some CLOCK_MONOTONIC) None None (Some sequence_id) (Some SEQ_INCREMENTAL_STATE_CLEARED)
    (Some (mkInternedData [] ((fun '(iid, name) => mkEventName (Some iid) (Some name)) <$> names))) (Some first).
Definition slice_begin_packet (sequence_id track_uuid timestamp_ns name_iid : Z) : TracePacket :=
  event_at timestamp_ns sequence_id (Some SEQ_NEEDS_INCREMENTAL_STATE)
    (mkTrackEvent (Some TYPE_SLICE_BEGIN) (Some track_uuid) None (Some name_iid) [] None None).
Definition slice_end_packet (sequence_id track_uuid timestamp_ns : Z) : TracePacket :=
  event_at timestamp_ns sequence_id None (mkTrackEvent (Some TYPE_SLICE_END) (Some track_uuid) None None [] None None).
Definition instant_packet (sequence_id track_uuid timestamp_ns : Z) (name : string) (annotations : list DebugAnnotation) : TracePacket :=
  event_at timestamp_ns sequence_id None (mkTrackEvent (Some TYPE_INSTANT) (Some track_uuid) (Some name) None annotations None None).
Definition counter_packet (sequence_id track_uuid timestamp_ns : Z) (value : f64) : TracePacket :=
  event_at timestamp_ns sequence_id None (mkTrackEvent (Some TYPE_COUNTER) (Some track_uuid) None None [] None (Some value)).

(** ** Track ids *)

Definition DAEMON_RANK : Z := 0xFFF.
Definition DAEMON_SEQUENCE : Z := 999.
Definition WORKER_SEQUENCE_BASE : Z := 1000.
Definition MAX_WORKER_RANK : Z := 0xFFE.

Inductive TrackKind := TrackKind_Process | TrackKind_Layer | TrackKind_Component | TrackKind_Counter.
#[export] Instance TrackKind_eq : EqDecision TrackKind.
Proof. solve_decision. Defined.

Definition kind_bits (k : TrackKind) : Z :=
  match k with TrackKind_Process => 1 | TrackKind_Layer => 2 | TrackKind_Component => 3 | TrackKind_Counter => 4 end.

Definition track_uuid (kind : TrackKind) (rank layer component : Z) : option Z :=
  if negb (rank <=? 0xFFF) then None
  else if negb (layer <=? 0xFFFF) then None
  else Some (Z.lor (Z.lor (Z.lor (Z.shiftl (kind_bits kind) 60) (Z.shiftl rank 48)) (Z.shiftl layer 32)) component).

Definition process_uuid (rank : Z) : option Z := track_uuid TrackKind_Process rank 0 0.
Definition layer_uuid (rank layer : Z) : option Z := track_uuid TrackKind_Layer rank layer 0.
Definition component_uuid (rank layer component : Z) : option Z := track_uuid TrackKind_Component rank layer component.

Definition sequence_id (rank : Z) : Z := if rank =? DAEMON_RANK then DAEMON_SEQUENCE else u32_wrap (WORKER_SEQUENCE_BASE + rank).

Definition saturating_i32 (v : Z) : Z := Z.min v (2 ^ 31 - 1).

(** ** The writer and the sink *)

Inductive WriteError := WriteError_Io.

(** [std::io::BufWriter<File>]: the bytes on file, those that wait, and the
    number of the next call of [write]. *)
Record BufWriter := mkBufWriter { bw_file : list byte; bw_buf : list byte; bw_calls : nat }.

Definition BUF_CAPACITY : Z := 256 * 1024.

Definition byte_count (l : list byte) : Z := Z.of_nat (List.length l).
Definition spare_capacity (b : BufWriter) : Z := BUF_CAPACITY - byte_count (bw_buf b).
Definition push_buf (data : list byte) (b : BufWriter) : BufWriter := mkBufWriter (bw_file b) (bw_buf b ++ data) (bw_calls b).

(** What has been given to the writer and not been lost. *)
Definition bw_stream (b : BufWriter) : list byte := bw_file b ++ bw_buf b.

Record TraceWriter := mkTraceWriter {
  tw_writer : BufWriter;
  tw_seen_sequences : gset Z;
  (** not fields of the Rust type: the packets whose write returned [Ok], and
      those of which only a first part got to the file *)
  tw_log : list TracePacket;
  tw_cut : list TracePacket
}.

Record RankState := mkRankState { rk_sequence : Z; rk_intern : InternTable; rk_declared : bool }.

Record Sink := mkSink {
  sk_writer : TraceWriter;
  sk_path : string;
  sk_component_uuids : gmap (Z * Z * string) Z;
  sk_component_index : gmap (Z * Z) Z;
  sk_ranks : gmap Z RankState;
  (** track to the sequence of its open slice *)
  sk_open_slices : gmap Z Z
}.

Definition set_writer (w : TraceWriter) (s : Sink) : Sink :=
  mkSink w (sk_path s) (sk_component_uuids s) (sk_component_index s) (sk_ranks s) (sk_open_slices s).
Definition set_open (o : gmap Z Z) (s : Sink) : Sink :=
  mkSink (sk_writer s) (sk_path s) (sk_component_uuids s) (sk_component_index s) (sk_ranks s) o.
Definition set_ranks (r : gmap Z RankState) (s : Sink) : Sink :=
  mkSink (sk_writer s) (sk_path s) (sk_component_uuids s) (sk_component_index s) r (sk_open_slices s).
Definition set_index (i : gmap (Z * Z) Z) (s : Sink) : Sink :=
  mkSink (sk_writer s) (sk_path s) (sk_component_uuids s) i (sk_ranks s) (sk_open_slices s).
Definition set_uuids (u : gmap (Z * Z * string) Z) (s : Sink) : Sink :=
  mkSink (sk_writer s) (sk_path s) u (sk_component_index s) (sk_ranks s) (sk_open_slices s).

Section Perfetto.
(** [prost::Message::encode]; the [n]-th call of [write] with some bytes: the
    number it takes, [None] for an error (an interrupted call is made again, and
    is one call here) *)
Context (encode : TracePacket -> list byte) (os_write : nat -> list byte -> option nat).
(** the iteration orders of the hash maps *)
Context (name_order : gmap string Z -> list (string * Z)) (open_order : gmap Z Z -> list (Z * Z)).
Context (uuid_order : gmap (Z * Z * string) Z -> list ((Z * Z * string) * Z)).

(** An answer and the state after it; [None] is a panic. *)
Abbreviation Act A := (option (result WriteError A * Sink)).

Definition frame_packet (packet : TracePacket) : option (list byte) :=
  let payload := encode packet in
  buf ← field1_tag_and_length (Z.of_nat (List.length payload)) [];
  Some (buf ++ payload).

(** The loop of [flush_buf] and of [File]'s [write_all]: whether all was written,
    what was not, and the writer.  Each call takes a byte at least, so the number
    of bytes is fuel enough. *)
Fixpoint write_file (fuel : nat) (data : list byte) (b : BufWriter) : bool * list byte * BufWriter :=
  match data, fuel with
  | [], _ => (true, [], b)
  | _, O => (false, data, b)
  | _, S fuel =>
      match os_write (bw_calls b) data with
      | None | Some O => (false, data, mkBufWriter (bw_file b) (bw_buf b) (S (bw_calls b)))
      | Some n => write_file fuel (drop n data) (mkBufWriter (bw_file b ++ take n data) (bw_buf b) (S (bw_calls b)))
      end
  end.

(** What could not be written stays in the buffer. *)
Definition flush_buf (b : BufWriter) : bool * BufWriter :=
  let '(ok, rest, b) := write_file (List.length (bw_buf b)) (bw_buf b) b in
  (ok, mkBufWriter (bw_file b) rest (bw_calls b)).

(** [write_all] and [write_all_cold] *)
Definition write_all (data : list byte) (b : BufWriter) : bool * BufWriter :=
  if byte_count data <? spare_capacity b then (true, push_buf data b)
  else
    let '(ok, b) := if spare_capacity b <? byte_count data then flush_buf b else (true, b) in
    if negb ok then (false, b)
    else if BUF_CAPACITY <=? byte_count data
    then let '(ok, _, b) := write_file (List.length data) data b in (ok, b)
    else (true, push_buf data b).

Definition write_packet (packet : TracePacket) (s : Sink) : Act unit :=
  buf ← frame_packet packet;
  let w := sk_writer s in
  let '(ok, b) := write_all buf (tw_writer w) in
  let cut := if byte_count (bw_stream b) =? byte_count (bw_stream (tw_writer w)) then tw_cut w else tw_cut w ++ [packet] in
  Some (if ok
        then (Ok tt, set_writer (mkTraceWriter b (tw_seen_sequences w) (tw_log w ++ [packet]) (tw_cut w)) s)
        else (Err WriteError_Io, set_writer (mkTraceWriter b (tw_seen_sequences w) (tw_log w) cut) s)).

(** The writer's [flush], and the flush of a writer that is dropped, whose error
    is lost. *)
Definition flush (s : Sink) : Act unit :=
  let w := sk_writer s in
  let '(ok, b) := flush_buf (tw_writer w) in
  let s := set_writer (mkTraceWriter b (tw_seen_sequences w) (tw_log w) (tw_cut w)) s in
  Some (if ok then (Ok tt, s) else (Err WriteError_Io, s)).

Definition Sink_drop (s : Sink) : Sink :=
  let w := sk_writer s in
  set_writer (mkTraceWriter (flush_buf (tw_writer w)).2 (tw_seen_sequences w) (tw_log w) (tw_cut w)) s.

(** [?] in a method of the sink *)
Definition then_do {A C} (x : Act A) (k : A -> Sink -> Act C) : Act C :=
  match x with
  | Some (Ok a, s) => k a s
  | Some (Err e, s) => Some (Err e, s)
  | None => None
  end.

Definition ret {A} (a : A) (s : Sink) : Act A := Some (Ok a, s).

Definition write_interned_names (sequence_id : Z) (names : list (Z * string)) (s : Sink) : Act unit :=
  let w := sk_writer s in
  let first := negb (bool_decide (sequence_id ∈ tw_seen_sequences w)) in
  write_packet (interned_names_packet sequence_id first names)
    (set_writer (mkTraceWriter (tw_writer w) ({[sequence_id]} ∪ tw_seen_sequences w) (tw_log w) (tw_cut w)) s).

(** *** Methods of [PerfettoSink] *)

(** [create]; [opened] is [None] when the file cannot be made, and otherwise the
    number of the system's next call. *)
Definition Sink_create (opened : option nat) (dir session_id model_name : string) (daemon_pid : Z) : Act unit :=
  let s := mkSink (mkTraceWriter (mkBufWriter [] [] (default 0%nat opened)) ∅ [] []) (dir +:+ "/" +:+ session_id +:+ ".pftrace") ∅ ∅ ∅ ∅ in
  if negb (bool_decide (is_Some opened)) then Some (Err WriteError_Io, s)
  else
    uuid ← process_uuid DAEMON_RANK;
    write_packet (process_track_packet uuid ("daemon:" +:+ session_id) (saturating_i32 daemon_pid) model_name) s.

Definition declare_process (rank worker_pid : Z) (display_name : string) (s : Sink) : Act unit :=
  if negb (rank <=? MAX_WORKER_RANK) then None
  else match sk_ranks s !! sequence_id rank with
  | Some _ => ret tt s
  | None =>
      uuid ← process_uuid rank;
      then_do (write_packet (process_track_packet uuid display_name (saturating_i32 worker_pid) display_name) s) (fun _ s =>
        ret tt (set_ranks (<[sequence_id rank := mkRankState (sequence_id rank) InternTable_new false]> (sk_ranks s)) s))
  end.

Definition layer_name (layer : Z) : string := ("L" +:+ to_string layer)%string.
Definition display_name (layer : Z) (component : string) : string := ("L" +:+ to_string layer +:+ "::" +:+ component)%string.

Definition declare_layer (rank layer : Z) (s : Sink) : Act unit :=
  luuid ← layer_uuid rank layer;
  puuid ← process_uuid rank;
  write_packet (track_packet luuid puuid (layer_name layer) (saturating_i32 layer)) s.

Definition ensure_rank (rank : Z) (s : Sink) : RankState * Sink :=
  match sk_ranks s !! sequence_id rank with
  | Some st => (st, s)
  | None => let st := mkRankState (sequence_id rank) InternTable_new false in
            (st, set_ranks (<[sequence_id rank := st]> (sk_ranks s)) s)
  end.

(** [self.ensure_rank(rank).intern.intern(name)] *)
Definition intern_for (rank : Z) (name : string) (s : Sink) : Z * Sink :=
  let (st, s) := ensure_rank rank s in
  let (iid, t) := intern name (rk_intern st) in
  (iid, set_ranks (<[sequence_id rank := mkRankState (rk_sequence st) t (rk_declared st)]> (sk_ranks s)) s).

Definition declare_component (rank layer : Z) (component_name : string) (s : Sink) : Act Z :=
  match sk_component_uuids s !! (rank, layer, component_name) with
  | Some uuid => ret uuid s
  | None =>
      let index := match sk_component_index s !! (rank, layer) with Some i => u32_wrap (i + 1) | None => 0 end in
      let s := set_index (<[(rank, layer) := index]> (sk_component_index s)) s in
      uuid ← component_uuid rank layer index;
      luuid ← layer_uuid rank layer;
      then_do (write_packet (track_packet uuid luuid (display_name layer component_name) (saturating_i32 index)) s) (fun _ s =>
        let (_, s) := intern_for rank (display_name layer component_name) s in
        ret uuid (set_uuids (<[(rank, layer, component_name) := uuid]> (sk_component_uuids s)) s))
  end.

Definition emit_interned_names (rank : Z) (s : Sink) : Act unit :=
  let seq := sequence_id rank in
  let (st, s) := ensure_rank rank s in
  match entries name_order (rk_intern st) with
  | [] => ret tt s
  | pairs =>
      then_do (write_interned_names seq pairs s) (fun _ s =>
        ret tt (match sk_ranks s !! seq with
                | Some st => set_ranks (<[seq := mkRankState (rk_sequence st) (rk_intern st) true]> (sk_ranks s)) s
                | None => s
                end))
  end.

Definition resolve_or_create_component (rank layer : Z) (component_name : string) (s : Sink) : Act Z :=
  match sk_component_uuids s !! (rank, layer, component_name) with
  | Some uuid => ret uuid s
  | None => declare_component rank layer component_name s
  end.

Definition on_tick_stopped (now_ns : Z) (position : TickPosition) (s : Sink) : Act unit :=
  let rank := default 0 (tp_rank position) in
  let layer := tp_layer position in
  let name := tp_component position in
  then_do (resolve_or_create_component rank layer name s) (fun track s =>
    let seq := sequence_id rank in
    then_do (match sk_open_slices s !! track with
             | Some open_sequence => write_packet (slice_end_packet open_sequence track now_ns) (set_open (delete track (sk_open_slices s)) s)
             | None => ret tt s
             end) (fun _ s =>
      let (name_iid, s) := intern_for rank (display_name layer name) s in
      then_do (write_packet (slice_begin_packet seq track now_ns name_iid) s) (fun _ s =>
        ret tt (set_open (<[track := seq]> (sk_open_slices s)) s)))).

(** [best.is_none_or(|(prev, _)| score > prev)] over the components of the rank *)
Fixpoint best_track (rank : Z) (point : string) (l : list ((Z * Z * string) * Z)) (best : option (nat * Z)) : option (nat * Z) :=
  match l with
  | [] => best
  | ((r, _, name), uuid) :: rest =>
      let matched := contains_chars (chars ("::" +:+ name)) (chars point) || contains_chars (chars name) (chars point) in
      let score := String.length name in
      let better := match best with None => true | Some (prev, _) => Nat.ltb prev score end in
      best_track rank point rest (if (r =? rank) && matched && better then Some (score, uuid) else best)
  end.

Definition find_track_for_point (rank : Z) (point : string) (s : Sink) : option Z :=
  snd <$> best_track rank point (uuid_order (sk_component_uuids s)) None.

Definition annotation (name : string) (v : option f64) (t : option string) : DebugAnnotation :=
  mkDebugAnnotation (Some name) None None None None v t.

Definition summary_annotations (summary : TensorSummary) : list DebugAnnotation :=
  [annotation "shape" None (Some (debug_shape (ts_shape summary)));
   annotation "mean" (Some (tst_mean (ts_stats summary))) None;
   annotation "std" (Some (tst_std (ts_stats summary))) None;
   annotation "l2_norm" (Some (tst_l2_norm (ts_stats summary))) None].

Definition on_probe_fired (now_ns : Z) (event : ProbeFiredEvent) (s : Sink) : Act unit :=
  let rank := pfe_rank event in
  let (_, s) := ensure_rank rank s in
  let annotations := match pfe_tensor_summary event with Some summary => summary_annotations summary | None => [] end in
  track ← match find_track_for_point rank (pfe_point event) s with Some t => Some t | None => process_uuid rank end;
  write_packet (instant_packet (sequence_id rank) track now_ns ("probe:" +:+ pfe_probe_id event) annotations) s.

Fixpoint end_slices (now_ns : Z) (l : list (Z * Z)) (s : Sink) : Act unit :=
  match l with
  | [] => ret tt s
  | (track, seq) :: rest => then_do (write_packet (slice_end_packet seq track now_ns) s) (fun _ s => end_slices now_ns rest s)
  end.

(** [close]; the sink is dropped after it *)
Definition Sink_close (now_ns : Z) (s : Sink) : Act unit :=
  then_do (end_slices now_ns (open_order (sk_open_slices s)) (set_open ∅ s)) (fun _ s => flush s).

End Perfetto.
