(* ===== verification/PerfettoSpec.v ===== *)
(** * PerfettoSpec: what is in a trace

    The bytes of the sink of [Perfetto], on file and in the buffer, as a sequence
    of packets: when they can be read back, that tracks do not collide and slices
    are balanced, and which names are defined. *)

From Stdlib Require Import ZArith Lia Ascii String.
From coqutil Require Import Byte.
From stdpp Require Import base gmap strings list fin_maps sets.
From S2P Require Import Prelude Varint Protocol Messages Adapter Host Perfetto.
Open Scope Z_scope.

(** ** Track ids *)

(** The four fields of an id. *)
Record fields_ok (rank layer component : Z) : Prop := {
  fo_rank : 0 <= rank <= 0xFFF;
  fo_layer : 0 <= layer <= 0xFFFF;
  fo_component : 0 <= component < 2 ^ 32
}.

Lemma track_uuid_value kind rank layer component :
  fields_ok rank layer component ->
  track_uuid kind rank layer component = Some (((kind_bits kind * 2 ^ 12 + rank) * 2 ^ 16 + layer) * 2 ^ 32 + component).
Proof.
  intros [Hr Hl Hc]. unfold track_uuid. rewrite (proj2 (Z.leb_le _ _)) by lia. rewrite (proj2 (Z.leb_le _ _)) by lia. cbn [negb]. f_equal.
  replace 60 with (12 + 48) by lia. rewrite <- Z.shiftl_shiftl by lia. rewrite <- Z.shiftl_lor.
  replace 48 with (16 + 32) by lia. rewrite <- Z.shiftl_shiftl by lia. rewrite <- Z.shiftl_lor.
  rewrite (lor_shiftl_add _ _ 32) by lia. rewrite (lor_shiftl_add _ _ 16) by lia. by rewrite (lor_shiftl_add _ _ 12) by lia.
Qed.

Lemma track_uuid_some kind rank layer component u :
  track_uuid kind rank layer component = Some u -> rank <= 0xFFF /\ layer <= 0xFFFF.
Proof.
  unfold track_uuid. destruct (Z.leb_spec rank 0xFFF); [|done]. destruct (Z.leb_spec layer 0xFFFF); done.
Qed.

Lemma track_uuid_inj k k' r r' l l' c c' u :
  fields_ok r l c -> fields_ok r' l' c' ->
  track_uuid k r l c = Some u -> track_uuid k' r' l' c' = Some u -> k = k' /\ r = r' /\ l = l' /\ c = c'.
Proof.
  intros H H'. rewrite !track_uuid_value by done. intros E E'. injection E as <-. injection E' as E'.
  destruct H as [Hr Hl Hc], H' as [Hr' Hl' Hc'].
  assert (Hk : kind_bits k = kind_bits k') by lia. assert (r = r') by lia. assert (l = l') by lia. assert (c = c') by lia.
  split_and!; try done. by destruct k, k'.
Qed.

(** ** Reading a trace back *)

Section Spec.
Context (encode : TracePacket -> list byte) (os_write : nat -> list byte -> option nat).
Context (name_order : gmap string Z -> list (string * Z)) (open_order : gmap Z Z -> list (Z * Z)).
Context (uuid_order : gmap (Z * Z * string) Z -> list ((Z * Z * string) * Z)).

(** An encoded packet is in memory. *)
Context (decode : list byte -> option TracePacket).
Hypothesis encode_size : forall p, Z.of_nat (List.length (encode p)) <= U64_MAX.

(** The reader of a trace file: a tag, a length, and the packet. *)
Fixpoint read_packets (fuel : nat) (data : list byte) : option (list TracePacket) :=
  match fuel with
  | O => None
  | S fuel =>
      match data with
      | [] => Some []
      | tag :: rest =>
          if negb (bool_decide (tag = byte.of_Z 0x0A)) then None
          else
            '(len, rest) ← decode_varint rest;
            if Z.of_nat (List.length rest) <? len then None
            else
              p ← decode (take (Z.to_nat len) rest);
              ps ← read_packets fuel (drop (Z.to_nat len) rest);
              Some (p :: ps)
      end
  end.

Definition framed (p : TracePacket) : list byte := default [] (frame_packet encode p).

Lemma framed_spec p : exists bs, frame_packet encode p = Some (byte.of_Z 0x0A :: bs ++ encode p) /\
  forall rest, decode_varint (bs ++ rest) = Some (Z.of_nat (List.length (encode p)), rest).
Proof.
  unfold frame_packet, field1_tag_and_length, encode_varint, varint_iterations. cbn [app].
  destruct (encode_varint_loop_spec 10 (Z.of_nat (List.length (encode p))) [byte.of_Z 0x0A]) as (bs & -> & _ & Hd);
    [pose proof (encode_size p); unfold U64_MAX in *; lia|lia|].
  exists bs. split; [done|exact Hd].
Qed.

Lemma frame_framed p : frame_packet encode p = Some (framed p).
Proof. unfold framed. by destruct (framed_spec p) as (bs & -> & _). Qed.

Lemma read_framed ps fuel :
  (forall p, p ∈ ps -> decode (encode p) = Some p) -> (List.length ps < fuel)%nat -> read_packets fuel (concat (map framed ps)) = Some ps.
Proof.
  intros Hde. revert fuel. induction ps as [|p ps IH]; intros [|fuel] Hf; cbn [List.length] in Hf; try lia; [done|]. cbn [map concat].
  unfold framed at 1. destruct (framed_spec p) as (bs & -> & Hd). change (default [] (Some (byte.of_Z 10 :: bs ++ encode p))) with (byte.of_Z 10 :: bs ++ encode p).
  cbn [app read_packets]. rewrite bool_decide_eq_true_2 by done. cbn [negb]. rewrite <- app_assoc, Hd. cbn [mbind option_bind].
  rewrite (proj2 (Z.ltb_ge _ _)) by (rewrite length_app; lia). rewrite Nat2Z.id, take_app_length, drop_app_length, (Hde p) by apply list_elem_of_here. cbn [mbind option_bind].
  rewrite IH; [done| |lia]. intros q Hq. apply Hde. by right.
Qed.

(** ** The buffered file *)

(** Every call of the system takes some bytes. *)
Definition writes_work : Prop := forall n d, exists k, os_write n d = Some (S k).

(** The number of bytes is fuel enough. *)
Lemma write_file_fuel fuel : forall data b fuel', (List.length data <= fuel)%nat -> (List.length data <= fuel')%nat ->
  write_file os_write fuel data b = write_file os_write fuel' data b.
Proof.
  induction fuel as [|fuel IH]; intros [|x data] b [|fuel'] H H'; cbn [List.length] in *; try lia; try done.
  cbn [write_file]. destruct (os_write (bw_calls b) (x :: data)) as [[|n]|]; [done| |done].
  apply IH; cbn [drop]; rewrite length_drop; lia.
Qed.

Lemma write_file_spec fuel : forall data b,
  exists done ok rest calls, data = done ++ rest /\ write_file os_write fuel data b = (ok, rest, mkBufWriter (bw_file b ++ done) (bw_buf b) calls) /\
    (ok = true -> rest = []) /\ (writes_work -> (List.length data <= fuel)%nat -> ok = true).
Proof.
  induction fuel as [|fuel IH]; intros [|x data] b; cbn [write_file].
  1, 3: exists [], true, [], (bw_calls b); destruct b; cbn; by rewrite app_nil_r.
  - exists [], false, (x :: data), (bw_calls b). destruct b. cbn. rewrite app_nil_r. split_and!; try done. intros _ ?. lia.
  - assert (Hstop : exists done ok rest calls, x :: data = done ++ rest /\
      (false, x :: data, mkBufWriter (bw_file b) (bw_buf b) (S (bw_calls b))) = (ok, rest, mkBufWriter (bw_file b ++ done) (bw_buf b) calls) /\
      (ok = true -> rest = []) /\ (os_write (bw_calls b) (x :: data) = None \/ os_write (bw_calls b) (x :: data) = Some O ->
        writes_work -> (S (List.length data) <= S fuel)%nat -> ok = true)).
    { exists [], false, (x :: data), (S (bw_calls b)). rewrite app_nil_r. split_and!; try done.
      intros Hw Hok _. destruct (Hok (bw_calls b) (x :: data)) as [k Hk]. destruct Hw; congruence. }
    destruct (os_write (bw_calls b) (x :: data)) as [[|n]|] eqn:E.
    1, 3: destruct Hstop as (d & ok & rest & calls & H1 & H2 & H3 & H4); exists d, ok, rest, calls; split_and!; auto.
    clear Hstop. destruct (IH (drop (S n) (x :: data)) (mkBufWriter (bw_file b ++ take (S n) (x :: data)) (bw_buf b) (S (bw_calls b))))
      as (d & ok & rest & calls & H1 & H2 & H3 & H4).
    exists (take (S n) (x :: data) ++ d), ok, rest, calls. rewrite H2. cbn [bw_file bw_buf]. rewrite <- !app_assoc, <- H1, take_drop. split_and!; try done.
    intros Hok Hf. apply H4; [done|]. cbn [drop List.length] in *. rewrite length_drop. lia.
Qed.

Lemma flush_buf_spec b :
  exists ok b', flush_buf os_write b = (ok, b') /\ bw_stream b' = bw_stream b /\ (ok = true -> bw_buf b' = []) /\ (writes_work -> ok = true).
Proof.
  unfold flush_buf. destruct (write_file_spec (List.length (bw_buf b)) (bw_buf b) b) as (d & ok & rest & calls & H1 & -> & H3 & H4).
  eexists _, _. split; [reflexivity|]. unfold bw_stream. cbn. rewrite <- app_assoc, <- H1. auto.
Qed.

(** A write that fails loses nothing that was accepted; only one that goes past
    the buffer can leave a part of its bytes. *)
Lemma write_all_spec data b :
  exists ok b', write_all os_write data b = (ok, b') /\
    (if ok then bw_stream b' = bw_stream b ++ data
     else exists done, bw_stream b' = bw_stream b ++ done /\ (done <> [] -> BUF_CAPACITY <= byte_count data)) /\
    (writes_work -> ok = true).
Proof.
  unfold write_all. destruct (byte_count data <? spare_capacity b).
  { eexists _, _. split; [reflexivity|]. unfold bw_stream, push_buf. cbn. by rewrite app_assoc. }
  assert (Hf : exists ok b1, (if spare_capacity b <? byte_count data then flush_buf os_write b else (true, b)) = (ok, b1) /\
    bw_stream b1 = bw_stream b /\ (writes_work -> ok = true) /\ (ok = true -> BUF_CAPACITY <= byte_count data -> bw_buf b1 = [])).
  { destruct (Z.ltb_spec (spare_capacity b) (byte_count data)) as [Hs|Hs].
    - destruct (flush_buf_spec b) as (ok & b1 & -> & H1 & H2 & H3). exists ok, b1. auto.
    - exists true, b. split_and!; try done. intros _ Hc. unfold spare_capacity, byte_count in *. destruct (bw_buf b); [done|cbn in Hs; lia]. }
  destruct Hf as (ok & b1 & -> & Hb & Hw & Hempty). destruct ok; cbn [negb].
  - destruct (Z.leb_spec BUF_CAPACITY (byte_count data)) as [Hc|Hc].
    + destruct (write_file_spec (List.length data) data b1) as (d & ok & rest & calls & H1 & -> & H3 & H4).
      assert (Hst : bw_stream (mkBufWriter (bw_file b1 ++ d) (bw_buf b1) calls) = bw_stream b ++ d).
      { rewrite <- Hb. unfold bw_stream. cbn. rewrite Hempty by done. by rewrite !app_nil_r. }
      eexists _, _. split; [reflexivity|]. rewrite Hst. split; [|by auto]. destruct ok; [|by exists d].
      rewrite H3, app_nil_r in H1 by done. by rewrite H1.
    + eexists _, _. split; [reflexivity|]. split; [|done]. rewrite <- Hb. unfold bw_stream, push_buf. cbn. by rewrite app_assoc.
  - eexists _, _. split; [reflexivity|]. split; [|intros Hok; by specialize (Hw Hok)]. exists []. by rewrite app_nil_r, Hb.
Qed.

(** A first part of a stream of packets is some whole packets and a part of the next. *)
Lemma prefix_packets ps : forall bs, bs `prefix_of` concat (map framed ps) ->
  exists k tail, bs = concat (map framed (take k ps)) ++ tail /\
    (tail = [] \/ exists p, ps !! k = Some p /\ tail `prefix_of` framed p /\ tail <> framed p).
Proof.
  induction ps as [|p ps IH]; intros bs H; cbn [map concat] in H.
  - apply prefix_nil_inv in H as ->. exists 0%nat, []. auto.
  - destruct (decide (framed p `prefix_of` bs)) as [[bs' ->]|Hn].
    + destruct (IH bs') as (k & tail & -> & Ht); [by eapply prefix_app_inv|].
      exists (S k), tail. cbn. by rewrite app_assoc.
    + exists 0%nat, bs. split; [done|]. right. exists p. split; [done|]. destruct (prefix_weak_total bs (framed p) (framed p ++ concat (map framed ps))) as [?|?]; [done|by eexists| |done].
      split; [done|]. intros ->. by apply Hn.
Qed.

(** ** Runs of the sink *)

Inductive sink_op :=
| OpProcess (rank pid : Z) (name : string)
| OpLayer (rank layer : Z)
| OpComponent (rank layer : Z) (name : string)
| OpNames (rank : Z)
| OpTick (now : Z) (position : TickPosition)
| OpProbe (now : Z) (event : ProbeFiredEvent).

Definition state_of {A} (x : option (result WriteError A * Sink)) : option Sink := snd <$> x.

(** One call; the daemon logs an error and goes on. *)
Definition apply_op (o : sink_op) (s : Sink) : option Sink :=
  match o with
  | OpProcess rank pid name => state_of (declare_process encode os_write rank pid name s)
  | OpLayer rank layer => state_of (declare_layer encode os_write rank layer s)
  | OpComponent rank layer name => state_of (declare_component encode os_write rank layer name s)
  | OpNames rank => state_of (emit_interned_names encode os_write name_order rank s)
  | OpTick now position => state_of (on_tick_stopped encode os_write now position s)
  | OpProbe now event => state_of (on_probe_fired encode os_write uuid_order now event s)
  end.

Fixpoint run_sink (ops : list sink_op) (s : Sink) : option Sink :=
  match ops with
  | [] => Some s
  | o :: ops => s ← apply_op o s; run_sink ops s
  end.

(** ** The invariant *)

Definition log (s : Sink) : list TracePacket := tw_log (sk_writer s).

Record table_ok (bound : Z) (t : InternTable) : Prop := {
  to_next : 1 <= it_next_iid t <= bound;
  to_range : forall name iid, it_names t !! name = Some iid -> 1 <= iid < it_next_iid t;
  to_inj : forall name name' iid, it_names t !! name = Some iid -> it_names t !! name' = Some iid -> name = name'
}.

(** The name a sequence's table has for an id. *)
Definition names_in (s : Sink) (seq : Z) (name : string) (iid : Z) : Prop :=
  exists st, sk_ranks s !! seq = Some st /\ it_names (rk_intern st) !! name = Some iid.

(** Component indices stay below [n], name ids below [b]. *)
Record sink_ok (n b : Z) (s : Sink) : Prop := {
  so_bytes : tw_cut (sk_writer s) = [] -> bw_stream (tw_writer (sk_writer s)) = concat (map framed (log s));
  so_cut : Forall (fun p => BUF_CAPACITY <= byte_count (framed p)) (tw_cut (sk_writer s));
  so_whole : writes_work -> tw_cut (sk_writer s) = [];
  so_index : forall k j, sk_component_index s !! k = Some j -> 0 <= j < n;
  so_uuid : forall r l name u, sk_component_uuids s !! (r, l, name) = Some u ->
    0 <= r /\ 0 <= l /\
    (exists i j, component_uuid r l i = Some u /\ sk_component_index s !! (r, l) = Some j /\ 0 <= i <= j) /\
    (exists parent order, layer_uuid r l = Some parent /\ track_packet u parent (display_name l name) order ∈ log s);
  so_inj : forall k k' u, sk_component_uuids s !! k = Some u -> sk_component_uuids s !! k' = Some u -> k = k';
  so_tables : forall seq st, sk_ranks s !! seq = Some st -> table_ok b (rk_intern st);
  so_begins : forall seq track now iid, slice_begin_packet seq track now iid ∈ log s ->
    exists r l name, sk_component_uuids s !! (r, l, name) = Some track /\ sequence_id r = seq /\ names_in s seq (display_name l name) iid;
  so_names : forall seq first names, interned_names_packet seq first names ∈ log s ->
    forall iid name, (iid, name) ∈ names -> names_in s seq name iid
}.

(** Whether a packet is accepted, and the states with it and without it. *)
Definition accepted (p : TracePacket) (s : Sink) : bool := (write_all os_write (framed p) (tw_writer (sk_writer s))).1.
Definition sent_to (p : TracePacket) (s : Sink) : BufWriter := (write_all os_write (framed p) (tw_writer (sk_writer s))).2.
Definition added (p : TracePacket) (s : Sink) : Sink :=
  set_writer (mkTraceWriter (sent_to p s) (tw_seen_sequences (sk_writer s)) (log s ++ [p]) (tw_cut (sk_writer s))) s.
Definition refused (p : TracePacket) (s : Sink) : Sink :=
  set_writer (mkTraceWriter (sent_to p s) (tw_seen_sequences (sk_writer s)) (log s)
    (if byte_count (bw_stream (sent_to p s)) =? byte_count (bw_stream (tw_writer (sk_writer s)))
     then tw_cut (sk_writer s) else tw_cut (sk_writer s) ++ [p])) s.

Lemma write_packet_spec p s :
  write_packet encode os_write p s = Some (if accepted p s then (Ok tt, added p s) else (Err WriteError_Io, refused p s)).
Proof. unfold write_packet, accepted, added, refused, sent_to. rewrite frame_framed. cbn [mbind option_bind]. by destruct (write_all _ _ _). Qed.

Lemma accepted_works p s : writes_work -> accepted p s = true.
Proof. intros Hw. unfold accepted. destruct (write_all_spec (framed p) (tw_writer (sk_writer s))) as (ok & b & -> & _ & H). auto. Qed.

(** A packet that only describes a track or marks a moment needs nothing. *)
Definition plain (p : TracePacket) : Prop :=
  (forall seq track now iid, p <> slice_begin_packet seq track now iid) /\ (forall seq first names, p <> interned_names_packet seq first names).

Lemma ok_added n b p s :
  sink_ok n b s -> accepted p s = true ->
  (forall seq track now iid, p = slice_begin_packet seq track now iid ->
    exists r l name, sk_component_uuids s !! (r, l, name) = Some track /\ sequence_id r = seq /\ names_in s seq (display_name l name) iid) ->
  (forall seq first names, p = interned_names_packet seq first names -> forall iid name, (iid, name) ∈ names -> names_in s seq name iid) ->
  sink_ok n b (added p s).
Proof.
  intros [H1 H0 Hw H2 H3 H4 H5 H6 H7] Ha Hbeg Hn. split; try done.
  - unfold log, added. cbn [sk_writer set_writer tw_writer tw_log tw_cut]. fold (log s). intros Hc. unfold accepted, sent_to in *.
    destruct (write_all_spec (framed p) (tw_writer (sk_writer s))) as (ok & b' & E & Hs & _). rewrite E in *. cbn [fst snd] in *. subst ok.
    rewrite Hs, H1, map_app, concat_app by done. cbn. by rewrite app_nil_r.
  - intros r l name u Hu. destruct (H3 r l name u Hu) as (A1 & A2 & A3 & parent & order & Hp & Hin). split_and!; try done.
    exists parent, order. split; [done|]. unfold log, added. cbn. apply elem_of_app. by left.
  - intros seq track now iid. unfold log at 1, added. cbn. intros [Hin|Hin%list_elem_of_singleton]%elem_of_app; [by apply (H6 seq track now)|by apply (Hbeg seq track now)].
  - intros seq first names. unfold log at 1, added. cbn. intros [Hin|Hin%list_elem_of_singleton]%elem_of_app; [by apply (H7 seq first)|by apply (Hn seq first)].
Qed.

Lemma ok_plain n b p s : sink_ok n b s -> accepted p s = true -> plain p -> sink_ok n b (added p s).
Proof. intros H Ha [P1 P2]. apply ok_added; [done|done| |]; intros; exfalso; [by eapply P1|by eapply P2]. Qed.

(** The state with another writer. *)
Lemma ok_writer n b s w :
  sink_ok n b s -> tw_log w = log s -> (tw_cut w = [] -> bw_stream (tw_writer w) = concat (map framed (log s))) ->
  Forall (fun p => BUF_CAPACITY <= byte_count (framed p)) (tw_cut w) -> (writes_work -> tw_cut w = []) ->
  sink_ok n b (set_writer w s).
Proof. intros [H1 H0 Hw H2 H3 H4 H5 H6 H7] Hl Hs Hc Hwc. unfold log in *. split; cbn; unfold log; cbn; rewrite ?Hl; done. Qed.

Lemma ok_refused n b p s : sink_ok n b s -> accepted p s = false -> sink_ok n b (refused p s).
Proof.
  intros H Ha. pose proof Ha as Ha'. unfold accepted, refused, sent_to in Ha' |- *.
  destruct (write_all_spec (framed p) (tw_writer (sk_writer s))) as (ok & b' & E & Hs & _). rewrite E in Ha' |- *. cbn [fst snd] in *. subst ok.
  destruct Hs as (d & Hd & Hlen). set (same := _ =? _).
  assert (Hsame : same = bool_decide (d = [])).
  { subst same. rewrite Hd. unfold byte_count. rewrite length_app. case_bool_decide as E0; [subst d; apply Z.eqb_eq; cbn; lia|].
    apply Z.eqb_neq. destruct d; [done|cbn; lia]. }
  rewrite Hsame. apply ok_writer; [done|done| | |]; cbn [tw_cut tw_writer]; [..|intros Hw; by rewrite accepted_works in Ha]; case_bool_decide as E0.
  - intros Hc. rewrite Hd, E0, app_nil_r. by apply (so_bytes _ _ _ H).
  - by intros []%app_nil.
  - exact (so_cut _ _ _ H).
  - apply Forall_app_2; [exact (so_cut _ _ _ H)|]. apply Forall_singleton. by apply Hlen.
Qed.

Lemma plain_describe d : plain (describe d).
Proof. split; intros; discriminate. Qed.
Lemma plain_end seq track now : plain (slice_end_packet seq track now).
Proof. split; intros; discriminate. Qed.
Lemma plain_instant seq track now name anns : plain (instant_packet seq track now name anns).
Proof. split; intros; discriminate. Qed.

Lemma ok_weaken n n' b b' s : n <= n' -> b <= b' -> sink_ok n b s -> sink_ok n' b' s.
Proof.
  intros Hn Hb [H1 H0 Hw H2 H3 H4 H5 H6 H7]. split; try done.
  - intros k j Hk. specialize (H2 k j Hk). lia.
  - intros seq st Hs. destruct (H5 seq st Hs) as [T1 T2 T3]. split; [lia|done|done].
Qed.

(** Changing a rank's table for a larger one. *)
Definition table_le (t t' : InternTable) : Prop := forall name iid, it_names t !! name = Some iid -> it_names t' !! name = Some iid.

Lemma ok_table n b s seq st' :
  sink_ok n b s -> table_ok b (rk_intern st') ->
  (forall st, sk_ranks s !! seq = Some st -> table_le (rk_intern st) (rk_intern st')) ->
  sink_ok n b (set_ranks (<[seq := st']> (sk_ranks s)) s).
Proof.
  intros [H1 H0 Hw H2 H3 H4 H5 H6 H7] Ht Hle.
  assert (Hn : forall seq' name iid, names_in s seq' name iid -> names_in (set_ranks (<[seq := st']> (sk_ranks s)) s) seq' name iid).
  { intros seq' name iid (st & Hs & Hi). unfold names_in. cbn. destruct (decide (seq' = seq)) as [->|Hne].
    - exists st'. rewrite lookup_insert_eq. split; [done|]. by apply (Hle st Hs).
    - exists st. by rewrite lookup_insert_ne. }
  split; try done.
  - intros seq' st. cbn. destruct (decide (seq' = seq)) as [->|Hne]; [rewrite lookup_insert_eq; by intros [= <-]|].
    rewrite lookup_insert_ne by done. apply H5.
  - intros seq' track now iid Hin. destruct (H6 seq' track now iid Hin) as (r & l & name & Hu & Hs & Hni). exists r, l, name. split_and!; [done|done|by apply Hn].
  - intros seq' first names Hin iid name Hm. apply Hn. by eapply H7.
Qed.

Lemma table_new bound : 1 <= bound -> table_ok bound InternTable_new.
Proof. intros Hb. split; [cbn; lia|intros name iid|intros name name' iid]; cbn; by rewrite lookup_empty. Qed.

Lemma ensure_rank_ok n b rank s st s' :
  1 <= b -> sink_ok n b s -> ensure_rank rank s = (st, s') -> sink_ok n b s' /\ sk_ranks s' !! sequence_id rank = Some st /\ log s' = log s /\
    sk_component_uuids s' = sk_component_uuids s /\ sk_component_index s' = sk_component_index s /\ sk_open_slices s' = sk_open_slices s.
Proof.
  intros Hn H. unfold ensure_rank. destruct (sk_ranks s !! sequence_id rank) as [x|] eqn:E.
  - intros [= <- <-]. done.
  - intros [= <- <-]. split_and!; try done; [|cbn; by rewrite lookup_insert_eq].
    apply ok_table; [done|cbn; apply table_new; lia|]. intros x Hx. congruence.
Qed.

Lemma intern_ok bound name t iid t' :
  table_ok bound t -> bound < U64_MAX -> intern name t = (iid, t') ->
  table_ok (bound + 1) t' /\ table_le t t' /\ it_names t' !! name = Some iid.
Proof.
  intros [T1 T2 T3] Hb. unfold intern. destruct (it_names t !! name) as [x|] eqn:E.
  - intros [= <- <-]. split_and!; [|by intros ?|done]. split; [lia|done|done].
  - intros [= <- <-]. rewrite u64_add_small by (unfold U64_MAX in *; lia). split_and!.
    + split; cbn [it_next_iid it_names]; [lia| |].
      * intros n i. rewrite lookup_insert_Some. intros [[_ <-]|[_ Hi]]; [lia|]. specialize (T2 _ _ Hi). lia.
      * intros n n' i. rewrite !lookup_insert_Some. intros [[<- <-]|[Hne Hi]] [[<- Ei]|[Hne' Hi']]; [done| | |by eapply T3].
        -- specialize (T2 _ _ Hi'). lia.
        -- subst i. specialize (T2 _ _ Hi). lia.
    + intros n i Hi. cbn. rewrite lookup_insert_ne; [done|]. intros ->. congruence.
    + cbn. by rewrite lookup_insert_eq.
Qed.

(** ** Balanced slices *)

(** The slices that are open after a packet, with their sequences; [None] when a
    slice is begun twice or ended without having been begun on that sequence. *)
Definition slice_step (o : option (gmap Z Z)) (p : TracePacket) : option (gmap Z Z) :=
  match o, tpk_track_event p, tpk_trusted_packet_sequence_id p with
  | Some open, Some e, Some seq =>
      match te_type e, te_track_uuid e with
      | Some ty, Some track =>
          if ty =? TYPE_SLICE_BEGIN then if bool_decide (is_Some (open !! track)) then None else Some (<[track := seq]> open)
          else if ty =? TYPE_SLICE_END then if bool_decide (open !! track = Some seq) then Some (delete track open) else None
          else o
      | _, _ => o
      end
  | _, _, _ => o
  end.

Definition nesting (ps : list TracePacket) : option (gmap Z Z) := foldl slice_step (Some ∅) ps.

Definition nested (s : Sink) : Prop := writes_work -> nesting (log s) = Some (sk_open_slices s).

Lemma nesting_snoc ps p : nesting (ps ++ [p]) = slice_step (nesting ps) p.
Proof. unfold nesting. by rewrite foldl_app. Qed.

(** Everything but the slice packets. *)
Definition quiet (p : TracePacket) : Prop := forall o, slice_step o p = o.

Lemma quiet_describe d : quiet (describe d).
Proof. by intros []. Qed.
Lemma quiet_instant seq track now name anns : quiet (instant_packet seq track now name anns).
Proof. by intros []. Qed.
Lemma quiet_names seq first names : quiet (interned_names_packet seq first names).
Proof. by intros []. Qed.

Lemma nested_refused p s : accepted p s = false -> nested (refused p s).
Proof. intros Ha Hok. by rewrite accepted_works in Ha. Qed.

Lemma nested_quiet p s : quiet p -> nested s -> nested (added p s).
Proof. intros Hq H Hok. unfold log, added. cbn. fold (log s). by rewrite nesting_snoc, Hq, H. Qed.

Create HintDb sink discriminated.
#[local] Hint Resolve plain_describe plain_end plain_instant quiet_describe quiet_instant quiet_names : sink.

(** What a call keeps: the invariant, with larger bounds. *)
Definition good (n b : Z) (s : Sink) : Prop := sink_ok n b s /\ nested s.

(** A write of a packet that is no slice. *)
Lemma good_write n b p s r s' :
  good n b s -> plain p -> quiet p -> write_packet encode os_write p s = Some (r, s') ->
  good n b s' /\ sk_component_uuids s' = sk_component_uuids s /\ sk_component_index s' = sk_component_index s /\ sk_ranks s' = sk_ranks s /\
    sk_open_slices s' = sk_open_slices s /\ (r = Ok tt -> log s' = log s ++ [p]).
Proof.
  intros [H Hn] Hp Hq. rewrite write_packet_spec. destruct (accepted p s) eqn:Ha; intros [= <- <-]; split_and!; try done; split.
  - by apply ok_plain.
  - by apply nested_quiet.
  - by apply ok_refused.
  - by apply nested_refused.
Qed.

Lemma intern_for_ok n b rank name s iid s' :
  1 <= b < U64_MAX -> sink_ok n b s -> intern_for rank name s = (iid, s') ->
  sink_ok n (b + 1) s' /\ names_in s' (sequence_id rank) name iid /\ log s' = log s /\
    sk_component_uuids s' = sk_component_uuids s /\ sk_component_index s' = sk_component_index s /\ sk_open_slices s' = sk_open_slices s.
Proof.
  intros Hb H. unfold intern_for. destruct (ensure_rank rank s) as [st s1] eqn:E1.
  destruct (ensure_rank_ok n b rank s st s1 ltac:(lia) H E1) as (H1 & Hst & Hl & Hu & Hi & Ho).
  destruct (intern name (rk_intern st)) as [i t] eqn:E2. intros [= <- <-].
  destruct (intern_ok b name (rk_intern st) i t (so_tables _ _ _ H1 _ _ Hst) ltac:(lia) E2) as (Ht & Hle & Hin).
  split_and!; try done.
  - apply ok_table; [by apply (ok_weaken n n b); [lia|lia|]|done|]. intros st' Hst'. rewrite Hst in Hst'. injection Hst' as <-. done.
  - exists (mkRankState (rk_sequence st) t (rk_declared st)). cbn. by rewrite lookup_insert_eq.
Qed.

Lemma component_fields r l i : 0 <= r -> 0 <= l -> 0 <= i < 2 ^ 32 -> is_Some (component_uuid r l i) -> fields_ok r l i.
Proof. intros Hr Hl Hi [u Hu]. apply track_uuid_some in Hu as [??]. split; lia. Qed.

(** The next index of a layer, which no component has yet. *)
Lemma ok_next_index n b s rank layer i u :
  sink_ok n b s -> 0 <= rank -> 0 <= layer -> 0 <= n < 2 ^ 32 - 1 ->
  i = match sk_component_index s !! (rank, layer) with Some j => u32_wrap (j + 1) | None => 0 end ->
  component_uuid rank layer i = Some u ->
  sink_ok (n + 1) b (set_index (<[(rank, layer) := i]> (sk_component_index s)) s) /\ 0 <= i /\
  forall k, sk_component_uuids s !! k <> Some u.
Proof.
  intros [H1 H0 Hw H2 H3 H4 H5 H6 H7] Hr Hl Hn Hi Hu.
  assert (Hi' : 0 <= i < n + 1 /\ forall j, sk_component_index s !! (rank, layer) = Some j -> j < i).
  { destruct (sk_component_index s !! (rank, layer)) as [j|] eqn:E; [|subst i; split; [lia|done]].
    specialize (H2 _ _ E). unfold u32_wrap in Hi. rewrite Z.mod_small in Hi by lia. split; [lia|]. intros j' [= <-]. lia. }
  destruct Hi' as [Hi1 Hi2]. split_and!; [|lia|].
  - split; try done.
    + intros k j. cbn. rewrite lookup_insert_Some. intros [[_ <-]|[_ Hk]]; [lia|]. specialize (H2 _ _ Hk). lia.
    + intros r l nm v Hk. destruct (H3 r l nm v Hk) as (A1 & A2 & (i' & j & A3 & A4 & A5) & A6). split_and!; try done. exists i'. cbn.
      destruct (decide ((rank, layer) = (r, l))) as [E|Hne'].
      * injection E as <- <-. exists i. rewrite lookup_insert_eq. specialize (Hi2 j A4). split_and!; try done; lia.
      * exists j. by rewrite lookup_insert_ne.
  - intros [[r l] nm] Hk. destruct (H3 r l nm u Hk) as (A1 & A2 & (i' & j & A3 & A4 & A5) & _). pose proof (H2 _ _ A4).
    destruct (track_uuid_inj TrackKind_Component TrackKind_Component r rank l layer i' i u) as (_ & -> & -> & ->); try done.
    + apply component_fields; [done|done|lia|by rewrite A3].
    + apply component_fields; [done|done|lia|by rewrite Hu].
    + specialize (Hi2 j A4). lia.
Qed.

(** A component gets the fresh id. *)
Lemma ok_new_uuid n b s rank layer name i u parent order :
  sink_ok n b s -> 0 <= rank -> 0 <= layer -> 0 <= i ->
  sk_component_uuids s !! (rank, layer, name) = None -> (forall k, sk_component_uuids s !! k <> Some u) ->
  component_uuid rank layer i = Some u -> sk_component_index s !! (rank, layer) = Some i ->
  layer_uuid rank layer = Some parent -> track_packet u parent (display_name layer name) order ∈ log s ->
  sink_ok n b (set_uuids (<[(rank, layer, name) := u]> (sk_component_uuids s)) s).
Proof.
  intros [H1 H0 Hw H2 H3 H4 H5 H6 H7] Hr Hl Hi Hnone Hfresh Hu Hix Hp Hin. split; try done.
  - intros r l nm v. cbn. rewrite lookup_insert_Some. intros [[E <-]|[Hne Hk]]; [|by apply H3].
    injection E as <- <- <-. split_and!; [done|done|exists i, i; split_and!; try done; lia|by eauto].
  - intros k k' v. cbn. rewrite !lookup_insert_Some. intros [[<- <-]|[Hne Hk]] [[<- E]|[Hne' Hk']];
      [done|by apply Hfresh in Hk'|subst v; by apply Hfresh in Hk|by eapply H4].
  - intros seq track now iid Hb. destruct (H6 seq track now iid Hb) as (r & l & nm & A1 & A2 & A3). exists r, l, nm. split_and!; [|done|done].
    cbn. rewrite lookup_insert_ne; [done|]. intros [= <- <- <-]. congruence.
Qed.

(** ** Calls keep the invariant *)

Lemma component_good n b rank layer name s r s' :
  good n b s -> 0 <= rank -> 0 <= layer -> 0 <= n < 2 ^ 32 - 1 -> 1 <= b < U64_MAX ->
  declare_component encode os_write rank layer name s = Some (r, s') ->
  good (n + 1) (b + 1) s' /\ sk_open_slices s' = sk_open_slices s /\
  match r with Ok u => sk_component_uuids s' !! (rank, layer, name) = Some u | Err _ => True end.
Proof.
  intros G Hr Hl Hn Hb. unfold declare_component.
  assert (Hw : good (n + 1) (b + 1) s) by (destruct G as [G1 G2]; split; [by apply (ok_weaken n _ b); [lia|lia|]|done]).
  destruct (sk_component_uuids s !! (rank, layer, name)) as [u|] eqn:Eu; [intros [= <- <-]; done|].
  set (i := match sk_component_index s !! (rank, layer) with Some j => u32_wrap (j + 1) | None => 0 end). cbv zeta.
  destruct (component_uuid rank layer i) as [u|] eqn:Ec; [|done]. cbn [mbind option_bind].
  destruct (layer_uuid rank layer) as [parent|] eqn:Ep; [|done]. cbn [mbind option_bind].
  destruct G as [G1 G2]. destruct (ok_next_index n b s rank layer i u G1 Hr Hl Hn eq_refl Ec) as (K1 & Hi & Hfresh).
  set (s1 := set_index _ s) in *. assert (G1' : good (n + 1) b s1) by done.
  destruct (write_packet encode os_write _ s1) as [[r1 s2]|] eqn:Ew; [|done].
  destruct (good_write (n + 1) b _ s1 r1 s2 G1' (plain_describe _) (quiet_describe _) Ew) as ((W1 & W2) & Wu & Wi & Wr & Wo & Wl).
  destruct r1 as [[]|e]; cbn [then_do].
  - destruct (intern_for rank (display_name layer name) s2) as [iid s3] eqn:Ei. intros [= <- <-].
    destruct (intern_for_ok (n + 1) b rank _ s2 iid s3 Hb W1 Ei) as (I1 & _ & Il & Iu & Ix & Io).
    split_and!; [split| |]; cbn [sk_component_uuids set_uuids sk_open_slices]; [| |by rewrite Io, Wo|by rewrite lookup_insert_eq].
    + rewrite Iu, Wu. rewrite <- Wu at 1. rewrite <- Iu at 1. eapply (ok_new_uuid _ _ s3 rank layer name i u); try done.
      * by rewrite Iu, Wu.
      * intros k. rewrite Iu, Wu. apply Hfresh.
      * rewrite Ix, Wi. cbn. by rewrite lookup_insert_eq.
      * rewrite Il, Wl by done. apply elem_of_app. right. apply list_elem_of_singleton. reflexivity.
    + intros Hok. unfold log. cbn. fold (log s3). rewrite Il, Io. by apply W2.
  - intros [= <- <-]. split_and!; [|done|done]. split; [by apply (ok_weaken (n + 1) _ b); [lia|lia|]|done].
Qed.

Lemma nested_same s s' : log s' = log s -> sk_open_slices s' = sk_open_slices s -> nested s -> nested s'.
Proof. unfold nested. by intros -> ->. Qed.

Lemma good_weaken n n' b b' s : n <= n' -> b <= b' -> good n b s -> good n' b' s.
Proof. intros Hn Hb [H1 H2]. split; [by apply (ok_weaken n n' b)|done]. Qed.

(** Ending the open slice of a track. *)
Lemma end_good n b track seq now s r s' :
  good n b s -> sk_open_slices s !! track = Some seq ->
  write_packet encode os_write (slice_end_packet seq track now) (set_open (delete track (sk_open_slices s)) s) = Some (r, s') ->
  good n b s' /\ sk_component_uuids s' = sk_component_uuids s /\ sk_open_slices s' = delete track (sk_open_slices s).
Proof.
  intros [H1 H2] Ho. rewrite write_packet_spec. set (s1 := set_open _ s). assert (K1 : sink_ok n b s1) by (by destruct H1; split).
  destruct (accepted _ s1) eqn:Ew; intros [= <- <-].
  - split_and!; try done. split; [apply ok_plain; [done|done|apply plain_end]|]. intros Hok.
    change (nesting (log s ++ [slice_end_packet seq track now]) = Some (delete track (sk_open_slices s))).
    rewrite nesting_snoc, H2 by done. cbn. by rewrite bool_decide_eq_true_2.
  - split_and!; try done. split; [by apply ok_refused|by apply nested_refused].
Qed.

Lemma tick_good n b now position s r s' :
  good n b s -> 0 <= default 0 (tp_rank position) -> 0 <= tp_layer position -> 0 <= n < 2 ^ 32 - 1 -> 1 <= b < U64_MAX - 1 ->
  on_tick_stopped encode os_write now position s = Some (r, s') -> good (n + 1) (b + 2) s'.
Proof.
  intros G Hr Hl Hn Hb. unfold on_tick_stopped. set (rank := default 0 (tp_rank position)) in *. set (layer := tp_layer position) in *.
  set (name := tp_component position). cbv zeta.
  destruct (resolve_or_create_component encode os_write rank layer name s) as [[r1 s1]|] eqn:E1; [|done].
  assert (G1 : good (n + 1) (b + 1) s1 /\ match r1 with Ok u => sk_component_uuids s1 !! (rank, layer, name) = Some u | Err _ => True end).
  { unfold resolve_or_create_component in E1. destruct (sk_component_uuids s !! (rank, layer, name)) as [u|] eqn:Eu.
    - injection E1 as <- <-. split; [by apply (good_weaken n _ b); [lia|lia|]|done].
    - destruct (component_good n b rank layer name s r1 s1 G Hr Hl Hn ltac:(lia) E1) as (A & _ & C). done. }
  destruct G1 as [G1 U1]. destruct r1 as [track|e]; cbn [then_do]; [|intros [= <- <-]; by apply (good_weaken (n + 1) _ (b + 1)); [lia|lia|]].
  destruct (match sk_open_slices s1 !! track with Some _ => _ | None => _ end) as [[r2 s2]|] eqn:E2; [|done].
  assert (G2 : good (n + 1) (b + 1) s2 /\ sk_component_uuids s2 = sk_component_uuids s1 /\ (r2 = Ok tt -> sk_open_slices s2 !! track = None)).
  { destruct (sk_open_slices s1 !! track) as [seq|] eqn:Eo.
    - destruct (end_good _ _ track seq now s1 r2 s2 G1 Eo E2) as (A & Bq & C). split_and!; try done. intros _. rewrite C. apply lookup_delete_eq.
    - injection E2 as <- <-. done. }
  destruct G2 as (G2 & U2 & O2). destruct r2 as [[]|e]; cbn [then_do]; [|intros [= <- <-]; by apply (good_weaken (n + 1) _ (b + 1)); [lia|lia|]].
  destruct (intern_for rank (display_name layer name) s2) as [iid s3] eqn:E3. destruct G2 as [G2 N2].
  destruct (intern_for_ok (n + 1) (b + 1) rank _ s2 iid s3 ltac:(lia) G2 E3) as (G3 & Hni & Il & Iu & Ix & Io).
  replace (b + 1 + 1) with (b + 2) in G3 by lia. rewrite write_packet_spec. destruct (accepted _ s3) eqn:Ew; cbn [then_do ret]; intros [= <- <-].
  - split.
    + match goal with |- sink_ok _ _ (set_open _ ?x) => assert (K : sink_ok (n + 1) (b + 2) x); [|by destruct K; split] end.
      apply ok_added; [done|done| |intros; discriminate]. intros seq track' now' iid' [= <- <- <- <-].
      exists rank, layer, name. split_and!; [by rewrite Iu, U2|done|done].
    + intros Hok. change (nesting (log s3 ++ [slice_begin_packet (sequence_id rank) track now iid]) = Some (<[track := sequence_id rank]> (sk_open_slices s3))).
      rewrite nesting_snoc, Il, N2 by done. cbn. rewrite Io. rewrite bool_decide_eq_false_2; [done|]. rewrite O2 by done. by intros [].
  - split; [by apply ok_refused|by apply nested_refused].
Qed.

Lemma process_good n b rank pid name s r s' :
  good n b s -> 1 <= b -> declare_process encode os_write rank pid name s = Some (r, s') -> good n b s'.
Proof.
  intros G Hb. unfold declare_process. destruct (negb _); [done|]. destruct (sk_ranks s !! sequence_id rank) eqn:E; [by intros [= <- <-]|].
  destruct (process_uuid rank) as [u|]; [|done]. cbn [mbind option_bind]. destruct (write_packet encode os_write _ s) as [[r1 s1]|] eqn:Ew; [|done].
  destruct (good_write n b _ s r1 s1 G (plain_describe _) (quiet_describe _) Ew) as ((W1 & W2) & Wu & Wi & Wr & Wo & Wl).
  destruct r1; cbn [then_do ret]; intros [= <- <-]; [|done]. split; [|by apply (nested_same s1)].
  apply ok_table; [done|cbn; by apply table_new|]. intros st Hst. rewrite Wr in Hst. congruence.
Qed.

Lemma layer_good n b rank layer s r s' : good n b s -> declare_layer encode os_write rank layer s = Some (r, s') -> good n b s'.
Proof.
  intros G. unfold declare_layer. destruct (layer_uuid rank layer) as [u|]; [|done]. cbn [mbind option_bind].
  destruct (process_uuid rank) as [p|]; [|done]. cbn [mbind option_bind]. intros E.
  by apply (good_write n b _ s r s' G (plain_describe _) (quiet_describe _)) in E as (? & _).
Qed.

Lemma probe_good n b now event s r s' :
  good n b s -> 1 <= b -> on_probe_fired encode os_write uuid_order now event s = Some (r, s') -> good n b s'.
Proof.
  intros [G1 G2] Hb. unfold on_probe_fired. destruct (ensure_rank (pfe_rank event) s) as [st s1] eqn:E1.
  destruct (ensure_rank_ok n b _ s st s1 Hb G1 E1) as (H1 & _ & Hl & _ & _ & Ho).
  destruct (match find_track_for_point _ _ _ _ with Some _ => _ | None => _ end) as [track|]; [|done]. cbn [mbind option_bind]. intros E.
  assert (G : good n b s1) by (split; [done|by apply (nested_same s)]).
  by apply (good_write n b _ s1 r s' G (plain_instant _ _ _ _ _) (quiet_instant _ _ _ _ _)) in E as (? & _).
Qed.

(** Iteration visits exactly the entries of a map. *)
Hypothesis name_order_ok : forall m, name_order m ≡ₚ map_to_list m.

Lemma interned_names_inj seq seq' first first' names names' :
  interned_names_packet seq first names = interned_names_packet seq' first' names' -> seq = seq' /\ names = names'.
Proof.
  intros H. split; [by apply (f_equal tpk_trusted_packet_sequence_id) in H; injection H|].
  apply (f_equal (fun p => id_event_names <$> tpk_interned_data p)) in H. cbn in H. injection H as H.
  revert names' H. induction names as [|[i nm] names IH]; intros [|[i' nm'] names'] H; try discriminate H; [done|].
  cbn in H. injection H as -> -> H. f_equal. by apply IH.
Qed.

Lemma names_good n b rank s r s' :
  good n b s -> 1 <= b -> emit_interned_names encode os_write name_order rank s = Some (r, s') -> good n b s'.
Proof.
  intros [G1 G2] Hb. unfold emit_interned_names. cbv zeta. destruct (ensure_rank rank s) as [st s1] eqn:E1.
  destruct (ensure_rank_ok n b rank s st s1 Hb G1 E1) as (H1 & Hst & Hl & _ & _ & Ho).
  assert (N1 : nested s1) by (by apply (nested_same s)).
  destruct (entries name_order (rk_intern st)) as [|x pairs] eqn:Ee; [by intros [= <- <-]|].
  unfold write_interned_names. rewrite write_packet_spec. set (s2 := set_writer _ s1).
  assert (K2 : sink_ok n b s2) by (by destruct H1; split). assert (N2 : nested s2) by done.
  set (p := interned_names_packet _ _ _). destruct (accepted p s2) eqn:Ea; cbn [then_do ret]; intros [= <- <-];
    [|split; [by apply ok_refused|by apply nested_refused]].
  assert (G3 : good n b (added p s2)).
  { split; [|apply nested_quiet; [apply quiet_names|done]]. apply ok_added; [done|done|intros; discriminate|].
    intros seq first names Hp iid name Hin. apply interned_names_inj in Hp as [<- <-]. exists st. split; [done|].
    rewrite <- Ee in Hin. unfold entries in Hin. apply list_elem_of_fmap in Hin as ([nm i] & [= -> ->] & Hin).
    apply elem_of_map_to_list. by rewrite <- name_order_ok. }
  change (sk_ranks (added p s2)) with (sk_ranks s1). rewrite Hst. destruct G3 as [G3 N3]. split; [|done].
  apply (ok_table n b (added p s2)); [done|exact (so_tables _ _ _ H1 _ _ Hst)|].
  intros st2 Hst2. change (sk_ranks s1 !! sequence_id rank = Some st2) in Hst2. rewrite Hst in Hst2. injection Hst2 as <-. by intros ?.
Qed.

(** ** Whole runs *)

(** Ranks and layers of a session. *)
Definition op_ok (o : sink_op) : Prop :=
  match o with
  | OpProcess rank _ _ => 0 <= rank <= MAX_WORKER_RANK
  | OpLayer rank layer | OpComponent rank layer _ => 0 <= rank <= 0xFFF /\ 0 <= layer <= 0xFFFF
  | OpNames rank => True
  | OpTick _ position => 0 <= default 0 (tp_rank position) <= 0xFFF /\ 0 <= tp_layer position <= 0xFFFF
  | OpProbe _ event => 0 <= pfe_rank event <= 0xFFF
  end.

Lemma op_good n b o s s' :
  good n b s -> op_ok o -> 0 <= n < 2 ^ 32 - 1 -> 1 <= b < U64_MAX - 1 -> apply_op o s = Some s' -> good (n + 1) (b + 2) s'.
Proof.
  intros G Ho Hn Hb H.
  destruct o; cbn [apply_op op_ok] in *; unfold state_of in H; apply fmap_Some in H as ([r x] & E & ->); cbn [snd].
  - apply (good_weaken n _ b); [lia|lia|]. eapply process_good; [done|lia|done].
  - apply (good_weaken n _ b); [lia|lia|]. by eapply layer_good.
  - destruct Ho as [Hr Hl]. destruct (component_good n b rank layer name s r x G ltac:(lia) ltac:(lia) ltac:(lia) ltac:(lia) E) as (A & _).
    by apply (good_weaken (n + 1) _ (b + 1)); [lia|lia|].
  - apply (good_weaken n _ b); [lia|lia|]. eapply names_good; [done|lia|done].
  - destruct Ho as [Hr Hl]. eapply (tick_good n b now position s r x); try done; lia.
  - apply (good_weaken n _ b); [lia|lia|]. eapply probe_good; [done|lia|done].
Qed.

Lemma run_good ops : forall n b s s',
  good n b s -> Forall op_ok ops -> 0 <= n -> 1 <= b -> n + Z.of_nat (List.length ops) < 2 ^ 32 -> b + 2 * Z.of_nat (List.length ops) < U64_MAX ->
  run_sink ops s = Some s' -> good (n + Z.of_nat (List.length ops)) (b + 2 * Z.of_nat (List.length ops)) s'.
Proof.
  induction ops as [|o ops IH]; intros n b s s' G Ho Hn Hb Hn' Hb'; cbn [run_sink List.length] in *.
  - intros [= <-]. by rewrite !Z.add_0_r.
  - apply Forall_cons in Ho as [Ho1 Ho2]. destruct (apply_op o s) as [s1|] eqn:E; [|done]. cbn [mbind option_bind]. intros H.
    pose proof (op_good n b o s s1 G Ho1 ltac:(lia) ltac:(lia) E) as G1.
    apply (good_weaken (n + 1 + Z.of_nat (List.length ops)) _ (b + 2 + 2 * Z.of_nat (List.length ops))); [lia|lia|].
    eapply IH; try done; lia.
Qed.

Lemma create_good opened dir session model pid r s :
  Sink_create encode os_write opened dir session model pid = Some (r, s) -> good 0 1 s.
Proof.
  unfold Sink_create. set (s0 := mkSink _ _ _ _ _ _).
  assert (G : good 0 1 s0).
  { split; [|done]. split; [done|by constructor|..]; cbn; try (intros; set_solver); intros *; rewrite ?lookup_empty; done. }
  destruct opened as [calls|]; cbn [negb bool_decide]; [|by intros [= <- <-]]. destruct (process_uuid DAEMON_RANK) as [u|]; [|done]. cbn [mbind option_bind]. intros E.
  by apply (good_write 0 1 _ s0 r s G (plain_describe _) (quiet_describe _)) in E as (? & _).
Qed.

(** *** Nothing panics *)

Lemma uuid_total kind rank layer component : rank <= 0xFFF -> layer <= 0xFFFF -> is_Some (track_uuid kind rank layer component).
Proof. intros Hr Hl. unfold track_uuid. rewrite (proj2 (Z.leb_le _ _)) by done. by rewrite (proj2 (Z.leb_le _ _)). Qed.

Lemma write_total p s : is_Some (write_packet encode os_write p s).
Proof. by rewrite write_packet_spec. Qed.

Lemma then_total {A C} (x : option (result WriteError A * Sink)) (k : A -> Sink -> option (result WriteError C * Sink)) :
  is_Some x -> (forall a s, is_Some (k a s)) -> is_Some (then_do x k).
Proof. intros [[[a|e] s] ->] Hk; cbn [then_do]; [apply Hk|done]. Qed.

Lemma component_total rank layer name s : rank <= 0xFFF -> layer <= 0xFFFF -> is_Some (declare_component encode os_write rank layer name s).
Proof.
  intros Hr Hl. unfold declare_component. destruct (sk_component_uuids s !! _); [done|]. cbv zeta.
  match goal with |- context [component_uuid rank layer ?i] => destruct (uuid_total TrackKind_Component rank layer i Hr Hl) as [u Hu] end.
  destruct (uuid_total TrackKind_Layer rank layer 0 Hr Hl) as [v Hv]. unfold component_uuid, layer_uuid in *. rewrite Hu, Hv. cbn [mbind option_bind].
  apply then_total; [apply write_total|]. intros _ s1. by destruct (intern_for _ _ s1).
Qed.

Lemma op_total o s : op_ok o -> is_Some (apply_op o s).
Proof.
  intros Ho. destruct o; cbn [apply_op op_ok] in *; unfold state_of; apply fmap_is_Some.
  - unfold declare_process. rewrite (proj2 (Z.leb_le _ _)) by lia. cbn [negb]. destruct (sk_ranks s !! _); [done|].
    destruct (uuid_total TrackKind_Process rank 0 0) as [u Hu]; [unfold MAX_WORKER_RANK in *; lia|lia|]. unfold process_uuid. rewrite Hu. cbn [mbind option_bind].
    by apply then_total; [apply write_total|].
  - destruct Ho as [Hr Hl]. unfold declare_layer, layer_uuid, process_uuid.
    destruct (uuid_total TrackKind_Layer rank layer 0) as [u ->]; [lia|lia|]. destruct (uuid_total TrackKind_Process rank 0 0) as [v ->]; [lia|lia|].
    apply write_total.
  - apply component_total; lia.
  - unfold emit_interned_names. cbv zeta. destruct (ensure_rank rank s) as [st s1]. destruct (entries name_order _); [done|].
    by apply then_total; [unfold write_interned_names; apply write_total|].
  - destruct Ho as [Hr Hl]. unfold on_tick_stopped. cbv zeta. apply then_total.
    + unfold resolve_or_create_component. destruct (sk_component_uuids s !! _); [done|]. apply component_total; lia.
    + intros track s1. apply then_total; [destruct (sk_open_slices s1 !! track); [apply write_total|done]|]. intros _ s2.
      destruct (intern_for _ _ s2) as [iid s3]. by apply then_total; [apply write_total|].
  - unfold on_probe_fired. cbv zeta. destruct (ensure_rank _ s) as [st s1]. unfold process_uuid.
    destruct (uuid_total TrackKind_Process (pfe_rank event) 0 0) as [u ->]; [lia|lia|].
    destruct (find_track_for_point _ _ _ _); cbn [mbind option_bind]; apply write_total.
Qed.

Lemma run_total ops : forall s, Forall op_ok ops -> is_Some (run_sink ops s).
Proof.
  induction ops as [|o ops IH]; intros s Ho; [done|]. apply Forall_cons in Ho as [Ho1 Ho2]. cbn [run_sink].
  destruct (op_total o s Ho1) as [s1 ->]. by apply IH.
Qed.

Lemma create_total opened dir session model pid : is_Some (Sink_create encode os_write opened dir session model pid).
Proof.
  unfold Sink_create. destruct opened; cbn [negb bool_decide]; [|done]. unfold process_uuid.
  destruct (uuid_total TrackKind_Process DAEMON_RANK 0 0) as [u ->]; [done..|]. apply write_total.
Qed.

Lemma end_slices_total now l : forall s, is_Some (end_slices encode os_write now l s).
Proof. induction l as [|[track seq] l IH]; intros s; cbn [end_slices]; [done|]. apply then_total; [apply write_total|auto]. Qed.

Lemma close_total now s : is_Some (Sink_close encode os_write open_order now s).
Proof. unfold Sink_close. apply then_total; [apply end_slices_total|]. intros _ s1. unfold flush. cbv zeta. by destruct (flush_buf _ _). Qed.

Lemma run_sink_snoc ops o s2 s3 : forall s1, run_sink ops s1 = Some s2 -> apply_op o s2 = Some s3 -> run_sink (ops ++ [o]) s1 = Some s3.
Proof.
  induction ops as [|o' ops IH]; intros s1; cbn [run_sink app]; [by intros [= ->] ->|].
  destruct (apply_op o' s1) as [s'|]; [|done]. cbn [mbind option_bind]. apply IH.
Qed.

(** *** Closing *)

Hypothesis open_order_ok : forall m, open_order m ≡ₚ map_to_list m.

Lemma end_slices_ok n b now l : forall s,
  sink_ok n b s -> NoDup l.*1 -> (writes_work -> nesting (log s) = Some (list_to_map l)) ->
  exists r s', end_slices encode os_write now l s = Some (r, s') /\ sink_ok n b s' /\
    (writes_work -> r = Ok tt /\ nesting (log s') = Some ∅).
Proof.
  induction l as [|[track seq] l IH]; intros s H Hd Hn; cbn [end_slices].
  - exists (Ok tt), s. split_and!; try done. intros Hok. by rewrite Hn.
  - cbn in Hd. apply NoDup_cons in Hd as [Hd1 Hd2]. rewrite write_packet_spec. destruct (accepted _ s) eqn:Ew; cbn [then_do].
    + apply IH; [apply ok_plain; [done|done|apply plain_end]|done|]. intros Hok.
      change (log (added (slice_end_packet seq track now) s)) with (log s ++ [slice_end_packet seq track now]).
      rewrite nesting_snoc, Hn by done. cbn. rewrite lookup_insert_eq, bool_decide_eq_true_2 by done. f_equal.
      apply delete_insert_id. by apply not_elem_of_list_to_map.
    + eexists _, _. split; [reflexivity|]. split; [by apply ok_refused|]. intros Hok. by rewrite accepted_works in Ew.
Qed.

(** A flush of the buffer, by [close] or when the sink is dropped. *)
Lemma ok_flushed n b s ok buf :
  sink_ok n b s -> flush_buf os_write (tw_writer (sk_writer s)) = (ok, buf) ->
  sink_ok n b (set_writer (mkTraceWriter buf (tw_seen_sequences (sk_writer s)) (tw_log (sk_writer s)) (tw_cut (sk_writer s))) s).
Proof.
  intros H E. destruct (flush_buf_spec (tw_writer (sk_writer s))) as (ok' & b' & E' & Hs & _). rewrite E in E'. injection E' as -> ->.
  apply ok_writer; [done|done| |exact (so_cut _ _ _ H)|exact (so_whole _ _ _ H)]. cbn [tw_cut tw_writer]. rewrite Hs. exact (so_bytes _ _ _ H).
Qed.

Lemma drop_ok n b s : sink_ok n b s -> sink_ok n b (Sink_drop os_write s).
Proof. intros H. unfold Sink_drop. destruct (flush_buf os_write _) as [ok buf] eqn:E. by eapply ok_flushed. Qed.

(** A drop after a flush that succeeded changes nothing. *)
Lemma drop_empty s : bw_buf (tw_writer (sk_writer s)) = [] -> Sink_drop os_write s = s.
Proof. destruct s as [[[file buf calls] seen l c] ? ? ? ? ?]. cbn. by intros ->. Qed.

Lemma close_ok n b now s :
  good n b s ->
  exists r s', Sink_close encode os_write open_order now s = Some (r, s') /\ sink_ok n b s' /\
    (r = Ok tt -> bw_buf (tw_writer (sk_writer s')) = []) /\ (writes_work -> r = Ok tt /\ nesting (log s') = Some ∅).
Proof.
  intros [H Hn]. unfold Sink_close. set (s1 := set_open ∅ s). assert (H1 : sink_ok n b s1) by (by destruct H; split).
  destruct (end_slices_ok n b now (open_order (sk_open_slices s)) s1 H1) as (r & s2 & -> & H2 & Hok2).
  - rewrite open_order_ok. apply NoDup_fst_map_to_list.
  - intros Hw. change (nesting (log s) = Some (list_to_map (open_order (sk_open_slices s)))). rewrite Hn by done. f_equal.
    rewrite <- (list_to_map_to_list (sk_open_slices s)) at 1. apply list_to_map_proper; [apply NoDup_fst_map_to_list|].
    by rewrite open_order_ok.
  - destruct r as [[]|e]; cbn [then_do].
    + unfold flush. cbv zeta. destruct (flush_buf_spec (tw_writer (sk_writer s2))) as (ok & buf & E & Hs & He & Hw). rewrite E.
      exists (if ok then Ok tt else Err WriteError_Io). eexists. split; [by destruct ok|]. split; [by eapply ok_flushed|].
      split; [intros Hr; destruct ok; [by apply He|done]|]. intros Hok. rewrite (Hw Hok). split; [done|]. by destruct (Hok2 Hok).
    + eexists _, _. split; [reflexivity|]. split; [exact H2|]. split; [done|]. intros Hw. by destruct (Hok2 Hw).
Qed.


(** ** What the daemon asks for *)

(** The main loop declares the worker's process, then reports ticks and probes. *)
Definition daemon_op (o : sink_op) : Prop :=
  match o with OpProcess _ _ _ | OpTick _ _ | OpProbe _ _ => True | _ => False end.

(** A sink that was created and then used so. *)
Definition traced (s : Sink) : Prop :=
  exists calls dir session model pid s0 ops, Sink_create encode os_write (Some calls) dir session model pid = Some (Ok tt, s0) /\
    run_sink ops s0 = Some s /\ Forall daemon_op ops.

Lemma traced_step o s s' : traced s -> daemon_op o -> apply_op o s = Some s' -> traced s'.
Proof.
  intros (calls & dir & session & model & pid & s0 & ops & Hc & Hr & Ho) Hd Ha. exists calls, dir, session, model, pid, s0, (ops ++ [o]).
  split_and!; [done|by eapply run_sink_snoc|]. apply Forall_app. by repeat constructor.
Qed.

(** A packet without names, and not of a layer's track. *)
Definition nameless (p : TracePacket) : Prop :=
  tpk_interned_data p = None /\ tpk_sequence_flags p <> Some SEQ_INCREMENTAL_STATE_CLEARED /\
  forall d u rank layer, tpk_track_descriptor p = Some d -> 0 <= rank -> 0 <= layer -> layer_uuid rank layer = Some u -> td_uuid d <> Some u.

Definition all_nameless (s : Sink) : Prop := Forall nameless (log s).

Lemma nameless_write p s r s' :
  nameless p -> all_nameless s -> write_packet encode os_write p s = Some (r, s') -> all_nameless s'.
Proof.
  intros Hp H. rewrite write_packet_spec. destruct (accepted _ s); intros [= <- <-]; [|exact H].
  unfold all_nameless, log, added. cbn. apply Forall_app_2; [exact H|by apply Forall_singleton].
Qed.

Lemma nameless_event ts seq flags e : flags <> Some SEQ_INCREMENTAL_STATE_CLEARED -> nameless (event_at ts seq flags e).
Proof. intros Hf. by split_and!. Qed.

Lemma nameless_track kind rank layer component u d :
  kind <> TrackKind_Layer -> fields_ok rank layer component -> track_uuid kind rank layer component = Some u -> td_uuid d = Some u -> nameless (describe d).
Proof.
  intros Hk Hf Hu Hd. split_and!; [done|done|]. intros d' v rank' layer' [= <-] Hr Hl Hv Hd'. rewrite Hd in Hd'. injection Hd' as <-.
  pose proof Hv as Hv'. apply track_uuid_some in Hv' as [??].
  destruct (track_uuid_inj kind TrackKind_Layer rank rank' layer layer' component 0 u Hf) as (E & _); done.
Qed.

Lemma log_ensure rank s : log (snd (ensure_rank rank s)) = log s.
Proof. unfold ensure_rank. by destruct (sk_ranks s !! _). Qed.

Lemma log_intern rank name s : log (snd (intern_for rank name s)) = log s.
Proof.
  unfold intern_for. destruct (ensure_rank rank s) as [st s1] eqn:E. destruct (intern name _).
  transitivity (log s1); [done|]. by rewrite <- (log_ensure rank s), E.
Qed.

Lemma component_nameless rank layer name s r s' :
  0 <= rank <= 0xFFF -> 0 <= layer <= 0xFFFF -> all_nameless s -> declare_component encode os_write rank layer name s = Some (r, s') -> all_nameless s'.
Proof.
  intros Hr Hl H. unfold declare_component. destruct (sk_component_uuids s !! _); [by intros [= <- <-]|]. cbv zeta.
  match goal with |- context [component_uuid rank layer ?x] => set (i := x) end.
  assert (Hi : 0 <= i < 2 ^ 32) by (subst i; destruct (sk_component_index s !! _); [unfold u32_wrap; apply Z.mod_pos_bound|]; lia).
  destruct (component_uuid rank layer i) as [u|] eqn:Eu; [|done]. cbn [mbind option_bind]. destruct (layer_uuid rank layer) as [v|]; [|done]. cbn [mbind option_bind].
  destruct (write_packet encode os_write _ _) as [[r1 s1]|] eqn:Ew; [|done].
  apply nameless_write in Ew; [|eapply (nameless_track TrackKind_Component rank layer i u); [done|by split|done|done]|done].
  destruct r1; cbn [then_do]; [|by intros [= <- <-]]. pose proof (log_intern rank (display_name layer name) s1) as El.
  destruct (intern_for _ _ s1) as [iid s2]. intros [= <- <-]. unfold all_nameless. change (Forall nameless (log s2)). cbn [snd] in El. by rewrite El.
Qed.

Lemma daemon_nameless o s s' : op_ok o -> daemon_op o -> all_nameless s -> apply_op o s = Some s' -> all_nameless s'.
Proof.
  intros Ho Hd H E. destruct o as [rank pid name| | | |now position|now event]; try done;
    cbn [apply_op op_ok] in *; unfold state_of in E; apply fmap_Some in E as ([r x] & E & ->); cbn [snd].
  - unfold declare_process in E. destruct (negb _); [done|]. destruct (sk_ranks s !! _); [by injection E as <- <-|].
    destruct (process_uuid rank) as [u|] eqn:Eu; [|done]. cbn [mbind option_bind] in E. destruct (write_packet encode os_write _ s) as [[r1 s1]|] eqn:Ew; [|done].
    apply nameless_write in Ew; [|eapply (nameless_track TrackKind_Process rank 0 0 u); [done|split; unfold MAX_WORKER_RANK in *; lia|done|done]|done].
    destruct r1; cbn [then_do ret] in E; by injection E as <- <-.
  - destruct Ho as [Hr Hl]. unfold on_tick_stopped in E. cbv zeta in E.
    destruct (resolve_or_create_component encode os_write _ _ _ s) as [[r1 s1]|] eqn:E1; [|done].
    assert (H1 : all_nameless s1).
    { unfold resolve_or_create_component in E1. destruct (sk_component_uuids s !! _); [by injection E1 as <- <-|]. by eapply component_nameless. }
    destruct r1 as [track|]; cbn [then_do] in E; [|by injection E as <- <-].
    destruct (match sk_open_slices s1 !! track with Some _ => _ | None => _ end) as [[r2 s2]|] eqn:E2; [|done].
    assert (H2 : all_nameless s2).
    { destruct (sk_open_slices s1 !! track); [|by injection E2 as <- <-]. by eapply nameless_write in E2; [|by apply nameless_event|]. }
    destruct r2; cbn [then_do] in E; [|by injection E as <- <-].
    pose proof (log_intern (default 0 (tp_rank position)) (display_name (tp_layer position) (tp_component position)) s2) as El.
    destruct (intern_for _ _ s2) as [iid s3]. cbn [snd] in El.
    destruct (write_packet encode os_write _ s3) as [[r4 s4]|] eqn:E4; [|done].
    apply nameless_write in E4; [|by apply nameless_event|unfold all_nameless; by rewrite El].
    destruct r4; cbn [then_do ret] in E; by injection E as <- <-.
  - unfold on_probe_fired in E. cbv zeta in E. pose proof (log_ensure (pfe_rank event) s) as El. destruct (ensure_rank _ s) as [st s1]. cbn [snd] in El.
    destruct (match find_track_for_point _ _ _ _ with Some _ => _ | None => _ end) as [track|]; [|done]. cbn [mbind option_bind] in E.
    apply nameless_write in E; [done|by apply nameless_event|unfold all_nameless; by rewrite El].
Qed.

Lemma daemon_run_nameless ops : forall s s',
  Forall op_ok ops -> Forall daemon_op ops -> all_nameless s -> run_sink ops s = Some s' -> all_nameless s'.
Proof.
  induction ops as [|o ops IH]; intros s s' Ho Hd H; cbn [run_sink]; [by intros [= <-]|].
  apply Forall_cons in Ho as [Ho1 Ho2], Hd as [Hd1 Hd2]. destruct (apply_op o s) as [s1|] eqn:E; [|done]. cbn [mbind option_bind].
  apply IH; try done. by eapply daemon_nameless.
Qed.

(** The names of the daemon's traces are never defined.  Of the calls the
    main loop makes, none writes a table of names or clears the state of a
    sequence, though every slice is begun by name id and needs that state; and
    none describes the track of a layer, which is the parent of every
    component's track. *)
Theorem daemon_trace_names_undefined calls dir session model pid ops s0 s :
  Sink_create encode os_write (Some calls) dir session model pid = Some (Ok tt, s0) ->
  Forall op_ok ops -> Forall daemon_op ops -> run_sink ops s0 = Some s ->
  Forall nameless (tw_log (sk_writer s)) /\
  (forall seq track at_ns iid, tpk_sequence_flags (slice_begin_packet seq track at_ns iid) = Some SEQ_NEEDS_INCREMENTAL_STATE).
Proof.
  intros Hc Ho Hd Hrun. split; [|done]. apply (daemon_run_nameless ops s0 s Ho Hd); [|done].
  unfold Sink_create in Hc. cbn [negb bool_decide] in Hc. destruct (process_uuid DAEMON_RANK) as [u|] eqn:Eu; [|done]. cbn [mbind option_bind] in Hc.
  apply nameless_write in Hc; [done| |by constructor].
  eapply (nameless_track TrackKind_Process DAEMON_RANK 0 0 u); [done|split; unfold DAEMON_RANK; lia|done|done].
Qed.

End Spec.

(** ** A session with two components *)

Module Demo.

(** A code for the packets of this session only, by what tells them apart. *)
Definition key (p : TracePacket) : Z :=
  match tpk_track_event p, tpk_track_descriptor p with
  | Some e, _ => default 0 (tpk_timestamp p) * 4 + default 0 (te_type e)
  | None, Some d => 200 + default 0 (td_uuid d) mod 53
  | None, None => 255
  end.

Definition encode (p : TracePacket) : list byte :=
  [byte.of_Z (key p); byte.of_Z (default 0 (tpk_track_event p ≫= te_track_uuid) mod 53)].

Definition position (layer : Z) (component : string) : TickPosition :=
  mkTickPosition 0 StepDirection_Forward (Some 0) layer component TickEvent_Output None Phase_Prefill None None.

Definition fired : ProbeFiredEvent := mkProbeFiredEvent "p1" "m::layer.1::mlp" 3 None ProbeAction_Capture "t" 0.

Definition ops : list sink_op :=
  [OpProcess 0 42 "rank:0"; OpTick 10 (position 0 "attn"); OpTick 20 (position 1 "mlp"); OpTick 30 (position 0 "attn"); OpProbe 35 fired].

Definition names_order (m : gmap string Z) : list (string * Z) := map_to_list m.
Definition slices_order (m : gmap Z Z) : list (Z * Z) := map_to_list m.
Definition uuids_order (m : gmap (Z * Z * string) Z) : list ((Z * Z * string) * Z) := map_to_list m.

(** A system that takes three bytes at a time, and one whose disk is full after
    seven bytes. *)
Definition always (n : nat) (d : list byte) : option nat := Some (S (Nat.min 2 (List.length d - 1))).
Definition full (n : nat) (d : list byte) : option nat := if Nat.eqb n 0 then Some (Nat.min 7 (List.length d)) else None.

Lemma always_works : writes_work always.
Proof. intros n d. by eexists. Qed.

Definition created : Sink :=
  match Sink_create encode always (Some 0%nat) "/tmp" "s" "gpt2" 7 with
  | Some (_, s) => s
  | None => mkSink (mkTraceWriter (mkBufWriter [] [] 0) ∅ [] []) "" ∅ ∅ ∅ ∅
  end.

(** The session's packets, and the code's inverse on them. *)
Definition packets : list TracePacket :=
  match run_sink encode always names_order uuids_order (ops ++ [OpNames 0]) created with
  | Some s => match Sink_close encode always slices_order 50 s with Some (_, s) => log s | None => [] end
  | None => []
  end.
Definition decode (bs : list byte) : option TracePacket := snd <$> list_find (fun p => encode p = bs) packets.

Lemma all_decoded l : mapM (fun p => decode (encode p)) l = Some l -> Forall (fun p => decode (encode p) = Some p) l.
Proof.
  intros H%mapM_Some_1. induction l as [|p l IH]; [done|]. apply Forall2_cons_1 in H as [H1 H2]. constructor; [done|by apply IH].
Qed.

End Demo.


Lemma daemon_trace_names_undefined_witness :
  exists s, run_sink Demo.encode Demo.always Demo.names_order Demo.uuids_order Demo.ops Demo.created = Some s /\
    Forall nameless (tw_log (sk_writer s)) /\ exists track, slice_begin_packet 1000 track 10 1 ∈ tw_log (sk_writer s).
Proof.
  destruct (run_sink Demo.encode Demo.always Demo.names_order Demo.uuids_order Demo.ops Demo.created) as [s|] eqn:E; [|vm_compute in E; discriminate].
  exists s. split; [done|]. split.
  - eapply (daemon_trace_names_undefined Demo.encode Demo.always Demo.names_order Demo.uuids_order
      ltac:(intros p; vm_compute; discriminate) 0 "/tmp" "s" "gpt2" 7 Demo.ops Demo.created s).
    + vm_compute. reflexivity.
    + repeat constructor; vm_compute; discriminate.
    + repeat constructor.
    + exact E.
  - eexists. vm_compute in E. injection E as <-. cbn [tw_log sk_writer]. do 3 right. left.
Defined.
