(* ===== verification/TuiCache.v ===== *)
(** * TuiCache: the terminal client's cache of tensor summaries

    [crates/rocket-surgeon-tui/src/state/cache.rs], and its refinement of a
    least-recently-used list. *)

From Stdlib Require Import ZArith Lia Ascii String.
From stdpp Require Import base gmap strings list fin_maps sets.
From S2P Require Import Prelude Protocol.
Open Scope Z_scope.

Definition CacheKey : Type := (Z * string)%type.

Record TensorCache := mkTensorCache {
  tc_entries : gmap CacheKey TensorSummary;
  tc_order : list CacheKey;
  tc_max_entries : nat
}.

Definition TensorCache_new (max_entries : nat) : TensorCache := mkTensorCache ∅ [] (Nat.max max_entries 1).

(** [order.remove(position)] and [push_back] *)
Definition promote (key : CacheKey) (c : TensorCache) : TensorCache :=
  match list_find (fun k => k = key) (tc_order c) with
  | Some (pos, _) => mkTensorCache (tc_entries c) (delete pos (tc_order c) ++ [key]) (tc_max_entries c)
  | None => c
  end.

Definition contains (key : CacheKey) (c : TensorCache) : bool := bool_decide (is_Some (tc_entries c !! key)).

Definition get (key : CacheKey) (c : TensorCache) : option TensorSummary * TensorCache :=
  if contains key c then let c := promote key c in (tc_entries c !! key, c) else (None, c).

Definition peek (key : CacheKey) (c : TensorCache) : option TensorSummary := tc_entries c !! key.

(** The loop over [pop_front]; [None] when the fuel ends: with an empty queue
    the loop would not. *)
Fixpoint evict (fuel : nat) (c : TensorCache) : option TensorCache :=
  if Nat.leb (tc_max_entries c) (size (tc_entries c)) then
    match fuel with
    | O => None
    | S fuel =>
        evict fuel (match tc_order c with
                    | evicted :: order => mkTensorCache (delete evicted (tc_entries c)) order (tc_max_entries c)
                    | [] => c
                    end)
    end
  else Some c.

Definition insert_cache (key : CacheKey) (summary : TensorSummary) (c : TensorCache) : option TensorCache :=
  if contains key c then
    let c := promote key c in
    Some (mkTensorCache (<[key := summary]> (tc_entries c)) (tc_order c) (tc_max_entries c))
  else
    c ← evict (S (size (tc_entries c))) c;
    Some (mkTensorCache (<[key := summary]> (tc_entries c)) (tc_order c ++ [key]) (tc_max_entries c)).

Definition cache_len (c : TensorCache) : nat := size (tc_entries c).

Definition prefetch_keys (layer token : Z) (component : string) (tick_id : Z) : list CacheKey :=
  (if 0 <? layer then [(tick_id, (component +:+ ":layer_" +:+ to_string (layer - 1))%string)] else []) ++
  [(tick_id, (component +:+ ":layer_" +:+ to_string (u32_wrap (layer + 1)))%string);
   (tick_id, (component +:+ ":token_" +:+ to_string (u64_add token 1))%string)].

(** ** Least recently used *)

Definition Entry : Type := (CacheKey * TensorSummary)%type.
#[local] Abbreviation find := (find_key (A:=Entry) (K:=CacheKey) fst).
#[local] Abbreviation drop_entry := (drop_key (A:=Entry) (K:=CacheKey) fst).

(** Oldest first. *)
Fixpoint trim (max : nat) (l : list Entry) : list Entry :=
  match l with
  | [] => []
  | _ :: rest => if Nat.leb max (List.length l) then trim max rest else l
  end.

Inductive cache_op := CGet (key : CacheKey) | CPeek (key : CacheKey) | CInsert (key : CacheKey) (summary : TensorSummary) | CLen | CContains (key : CacheKey).
Inductive cache_answer := ASummary (s : option TensorSummary) | ALen (n : nat) | ABool (b : bool) | ADone.

Definition spec_op (max : nat) (o : cache_op) (l : list Entry) : cache_answer * list Entry :=
  match o with
  | CGet key => match find l key with Some e => (ASummary (Some e.2), drop_entry l key ++ [e]) | None => (ASummary None, l) end
  | CPeek key => (ASummary (snd <$> find l key), l)
  | CInsert key summary =>
      (ADone, match find l key with Some _ => drop_entry l key | None => trim max l end ++ [(key, summary)])
  | CLen => (ALen (List.length l), l)
  | CContains key => (ABool (bool_decide (is_Some (find l key))), l)
  end.

Definition cache_op_run (o : cache_op) (c : TensorCache) : option (cache_answer * TensorCache) :=
  match o with
  | CGet key => let (r, c) := get key c in Some (ASummary r, c)
  | CPeek key => Some (ASummary (peek key c), c)
  | CInsert key summary => c ← insert_cache key summary c; Some (ADone, c)
  | CLen => Some (ALen (cache_len c), c)
  | CContains key => Some (ABool (contains key c), c)
  end.

Fixpoint run_cache (ops : list cache_op) (c : TensorCache) : option (list cache_answer * TensorCache) :=
  match ops with
  | [] => Some ([], c)
  | o :: ops => '(a, c) ← cache_op_run o c; '(answers, c) ← run_cache ops c; Some (a :: answers, c)
  end.

Fixpoint run_spec (max : nat) (ops : list cache_op) (l : list Entry) : list cache_answer * list Entry :=
  match ops with
  | [] => ([], l)
  | o :: ops => let (a, l) := spec_op max o l in let (answers, l) := run_spec max ops l in (a :: answers, l)
  end.

(** ** The refinement *)

Record represents (max : nat) (c : TensorCache) (l : list Entry) : Prop := {
  cr_entries : exists m : gmap CacheKey Entry, keyed_by fst m l /\ tc_entries c = snd <$> m;
  cr_order : tc_order c = fst <$> l;
  cr_max : tc_max_entries c = max;
  cr_bound : (List.length l <= max)%nat
}.

Lemma rep_lookup max c l k : represents max c l -> tc_entries c !! k = snd <$> find l k.
Proof. intros [(m & Hm & ->) _ _ _]. by rewrite lookup_fmap, (kb_lookup _ _ _ Hm). Qed.

Lemma rep_size max c l : represents max c l -> size (tc_entries c) = List.length l.
Proof. intros [(m & Hm & ->) _ _ _]. rewrite map_size_fmap. by apply (keyed_size fst). Qed.

Lemma rep_contains max c l k : represents max c l -> contains k c = bool_decide (is_Some (find l k)).
Proof. intros H. unfold contains. rewrite (rep_lookup max c l k H). apply bool_decide_ext. apply fmap_is_Some. Qed.

Lemma find_same l k e : find l k = Some e -> e.1 = k.
Proof. by intros [? _]%(find_key_Some fst). Qed.

Lemma drop_cons x l k : drop_entry (x :: l) k = if decide (x.1 = k) then drop_entry l k else x :: drop_entry l k.
Proof. unfold drop_key. cbn [List.filter]. by case_bool_decide; case_decide. Qed.

(** Removing a key from the queue, by position and by value. *)
Lemma queue_delete l k e : NoDup (fst <$> l) -> find l k = Some e ->
  exists pos, list_find (fun x => x = k) (fst <$> l) = Some (pos, k) /\ delete pos (fst <$> l) = fst <$> drop_entry l k.
Proof.
  induction l as [|x l IH]; [done|]. cbn [fmap list_fmap]. intros [Hx Hn]%NoDup_cons. rewrite find_key_cons. cbn [list_find].
  destruct (decide (x.1 = k)) as [E|E].
  - intros _. exists 0%nat. cbn [delete list_delete]. split; [by rewrite E|]. rewrite drop_cons, decide_True by done. f_equal. symmetry. apply drop_key_absent.
    destruct (find l k) as [y|] eqn:Ey; [|done]. exfalso. apply Hx. apply find_key_Some in Ey as [Ey Hy]. rewrite E, <- Ey. by apply list_elem_of_fmap_2.
  - intros Hf. destruct (IH Hn Hf) as (pos & -> & Hd). exists (S pos). cbn. split; [done|]. change (x.1 :: delete pos (fst <$> l) = fst <$> drop_entry (x :: l) k). rewrite Hd.
    by rewrite drop_cons, decide_False.
Qed.

(** Moving to the back and replacing the value. *)
Lemma promote_rep max c l k e s :
  represents max c l -> find l k = Some e ->
  represents max (mkTensorCache (<[k := s]> (tc_entries (promote k c))) (tc_order (promote k c)) (tc_max_entries (promote k c))) (drop_entry l k ++ [(k, s)]).
Proof.
  intros [(m & Hm & He) Ho Hx Hb] Hf. pose proof (kb_nodup _ _ _ Hm) as Hn.
  destruct (queue_delete l k e Hn Hf) as (pos & Hp & Hd). unfold promote. rewrite Ho, Hp, Hd. split; cbn [tc_entries tc_order tc_max_entries].
  - exists (<[k := (k, s)]> m). split; [by apply (keyed_insert fst)|]. by rewrite fmap_insert, He.
  - by rewrite fmap_app.
  - done.
  - pose proof (length_drop_key (A:=Entry) (K:=CacheKey) fst l k e Hn Hf) as Hl. rewrite length_app. change (List.length (drop_entry l k) + 1 <= max)%nat. lia.
Qed.

Lemma promote_entries k c : tc_entries (promote k c) = tc_entries c.
Proof. unfold promote. by destruct (list_find _ _) as [[]|]. Qed.

Lemma promote_same max c l k e : represents max c l -> find l k = Some e -> tc_entries (promote k c) !! k = Some e.2 /\
  represents max (promote k c) (drop_entry l k ++ [e]).
Proof.
  intros H Hf. assert (Hk : tc_entries c !! k = Some e.2) by (by rewrite (rep_lookup _ _ _ k H), Hf).
  rewrite promote_entries. split; [done|]. pose proof (promote_rep max c l k e e.2 H Hf) as Hr. rewrite promote_entries, insert_id in Hr by done.
  rewrite <- (find_same _ _ _ Hf) in Hr at 4. rewrite <- surjective_pairing in Hr. rewrite <- (promote_entries k c) in Hr.
  destruct (promote k c). exact Hr.
Qed.

(** The oldest entries go until there is room. *)
Lemma evict_rep max l : forall c fuel, (1 <= max)%nat -> represents max c l -> (List.length l < fuel)%nat ->
  exists c', evict fuel c = Some c' /\ represents max c' (trim max l) /\ (List.length (trim max l) < max)%nat.
Proof.
  induction l as [|x l IH]; intros c fuel Hmax H Hf; (destruct fuel as [|fuel]; [cbn in Hf; lia|]); cbn [evict trim];
    rewrite (cr_max _ _ _ H), (rep_size _ _ _ H).
  - cbn. rewrite (proj2 (Nat.leb_gt _ _)) by lia. exists c. split_and!; [done|done|cbn; lia].
  - destruct (Nat.leb_spec max (List.length (x :: l))) as [Hl|Hl]; [|by exists c].
    destruct H as [(m & Hm & He) Ho Hx Hb]. rewrite Ho. cbn [fmap list_fmap]. apply IH; [done| |cbn in Hf; lia]. split; cbn [tc_entries tc_order tc_max_entries].
    + exists (delete x.1 m). split; [by apply (keyed_delete_head fst)|]. by rewrite fmap_delete, He.
    + done.
    + done.
    + cbn in Hb. lia.
Qed.

Lemma trim_suffix max l : exists dropped, l = dropped ++ trim max l.
Proof.
  induction l as [|x l [d IH]]; [by exists []|]. cbn [trim]. destruct (Nat.leb _ _); [|by exists []]. exists (x :: d). cbn. by rewrite <- IH.
Qed.

Lemma insert_new max c l k s : (1 <= max)%nat -> represents max c l -> find l k = None ->
  exists c', insert_cache k s c = Some c' /\ represents max c' (trim max l ++ [(k, s)]).
Proof.
  intros Hmax H Hf. unfold insert_cache. rewrite (rep_contains _ _ _ k H), Hf, bool_decide_eq_false_2 by (by intros []).
  rewrite (rep_size _ _ _ H). destruct (evict_rep max l c (S (List.length l)) Hmax H ltac:(lia)) as (c1 & -> & H1 & Hl).
  cbn [mbind option_bind]. eexists. split; [reflexivity|].
  assert (Hf1 : find (trim max l) k = None).
  { destruct (find (trim max l) k) as [e|] eqn:E; [|done]. apply find_key_Some in E as [Ek Hin]. apply find_key_None in Hf.
    exfalso. apply Hf. destruct (trim_suffix max l) as [d ->]. rewrite fmap_app, <- Ek. apply elem_of_app. right. by apply list_elem_of_fmap_2. }
  destruct H1 as [(m & Hm & He) Ho Hx Hb]. split; cbn [tc_entries tc_order tc_max_entries].
  - exists (<[k := (k, s)]> m). split; [|by rewrite fmap_insert, He]. pose proof (keyed_insert fst m (trim max l) k (k, s) Hm eq_refl) as Hk. by rewrite drop_key_absent in Hk.
  - by rewrite Ho, fmap_app.
  - done.
  - rewrite length_app. cbn. lia.
Qed.

Lemma op_represents max o c l : (1 <= max)%nat -> represents max c l ->
  exists c', cache_op_run o c = Some ((spec_op max o l).1, c') /\ represents max c' (spec_op max o l).2.
Proof.
  intros Hmax H. destruct o as [k|k|k s| |k]; cbn [cache_op_run spec_op].
  - unfold get. rewrite (rep_contains _ _ _ k H). destruct (find l k) as [e|] eqn:Hf; cbn [fst snd].
    + rewrite bool_decide_eq_true_2 by done. destruct (promote_same max c l k e H Hf) as [-> Hr]. by eexists.
    + rewrite bool_decide_eq_false_2 by (by intros []). by eexists.
  - unfold peek. rewrite (rep_lookup _ _ _ k H). by eexists.
  - destruct (find l k) as [e|] eqn:Hf; cbn [fst snd].
    + unfold insert_cache. rewrite (rep_contains _ _ _ k H), Hf, bool_decide_eq_true_2 by done. cbn [mbind option_bind]. eexists. split; [reflexivity|]. by eapply promote_rep.
    + destruct (insert_new max c l k s Hmax H Hf) as (c' & -> & Hr). by exists c'.
  - unfold cache_len. rewrite (rep_size _ _ _ H). by eexists.
  - rewrite (rep_contains _ _ _ k H). by eexists.
Qed.

Lemma run_represents max ops : forall c l, (1 <= max)%nat -> represents max c l ->
  exists c', run_cache ops c = Some ((run_spec max ops l).1, c') /\ represents max c' (run_spec max ops l).2.
Proof.
  induction ops as [|o ops IH]; intros c l Hmax H; cbn [run_cache run_spec]; [by exists c|].
  destruct (op_represents max o c l Hmax H) as (c1 & -> & H1). cbn [mbind option_bind]. destruct (spec_op max o l) as [a l1]. cbn [fst snd] in *.
  destruct (IH c1 l1 Hmax H1) as (c2 & -> & H2). cbn [mbind option_bind]. destruct (run_spec max ops l1) as [as_ l2]. by exists c2.
Qed.

Lemma new_represents max : represents (Nat.max max 1) (TensorCache_new max) [].
Proof. split; [exists ∅; split; [apply keyed_empty|by rewrite fmap_empty]|done|done|cbn; lia]. Qed.

(** The client's cache answers every sequence of calls like a list of at most
    [max(n, 1)] entries ordered by use, of which an insert drops the least
    recently used ones when it is full; [peek] and [contains] do not count as
    use; and the eviction loop always ends. *)
Theorem tensor_cache_refines_lru (n : nat) (ops : list cache_op) :
  let max := Nat.max n 1 in
  exists c, run_cache ops (TensorCache_new n) = Some ((run_spec max ops []).1, c) /\
    (forall k, peek k c = snd <$> find (run_spec max ops []).2 k) /\ (cache_len c <= max)%nat.
Proof.
  destruct (run_represents (Nat.max n 1) ops (TensorCache_new n) [] ltac:(lia) (new_represents n)) as (c & Hr & H). exists c. split_and!; [exact Hr| |].
  - intros k. by apply (rep_lookup _ _ _ k H).
  - unfold cache_len. rewrite (rep_size _ _ _ H). apply (cr_bound _ _ _ H).
Qed.
