(* ===== verification/Tui.v ===== *)
(** * Tui: the terminal client's application state

    [crates/rocket-surgeon-tui/src]: the input modes and the key decoder
    ([input/mode.rs], [input/events.rs], [input/terminal.rs]), the state and
    its reducer ([state.rs], [state/reducer.rs]), the actions and effects
    ([action.rs]), the application and its loop ([app.rs], [main.rs]) and what
    the panels show ([components/]).  A [char] is its code point, a [String]
    edited by character is the list of them.  Of a key press [crossterm] gives
    the key and whether Control is held. *)

From Stdlib Require Import ZArith Lia Ascii String SpecFloat.
From stdpp Require Import base gmap strings list fin_maps sets.
From S2P Require Import Prelude Framing Protocol Messages TuiCache.
Open Scope Z_scope.

(** ** Modes and events *)

Inductive Mode := Mode_Normal | Mode_Command | Mode_Inspect | Mode_Intervene.
#[export] Instance Mode_eq : EqDecision Mode.
Proof. solve_decision. Defined.

Definition transition (self target : Mode) : option Mode :=
  if decide (self = target) then None
  else match self, target with
       | Mode_Normal, _ => Some target
       | _, Mode_Normal => Some Mode_Normal
       | _, _ => None
       end.

Inductive Axis := Axis_Layer | Axis_TokenPosition | Axis_Head | Axis_Custom (name : string).
Inductive JumpTarget := Jump_Layer (n : Z) | Jump_Token (n : Z) | Jump_Component (name : string).

Inductive NavigationEvent :=
  | Nav_Up | Nav_Down | Nav_Left | Nav_Right | Nav_PageUp | Nav_PageDown | Nav_Home | Nav_End | Nav_ZoomIn | Nav_ZoomOut
  | Nav_JumpTo (target : JumpTarget)
  | Nav_ContinuousAdjust (axis : Axis) (value : spec_float).

Inductive CommandEvent :=
  | Cmd_Char (c : Z) | Cmd_Execute | Cmd_Cancel | Cmd_Backspace | Cmd_TabComplete | Cmd_HistoryPrev | Cmd_HistoryNext.

Inductive ModeEvent := EnterCommand | EnterInspect | EnterIntervene | ExitToNormal.

Inductive InputEvent :=
  | In_Navigation (nav : NavigationEvent)
  | In_Command (cmd : CommandEvent)
  | In_Mode (m : ModeEvent)
  | In_Quit
  | In_Resize (width height : Z).

(** The keys the decoder names; [KC_Other] is any other. *)
Inductive KeyCode :=
  | KC_Up | KC_Down | KC_Left | KC_Right | KC_PageUp | KC_PageDown | KC_Home | KC_End
  | KC_Enter | KC_Esc | KC_Backspace | KC_Tab | KC_Char (c : Z) | KC_Other.

Inductive Event :=
  | Ev_Key (code : KeyCode) (control : bool)
  | Ev_Resize (w h : Z)
  | Ev_Other.

Definition cp (c : ascii) : Z := ascii_code c.

Definition decode_ctrl (code : KeyCode) (_mode : Mode) : option InputEvent :=
  match code with
  | KC_Char c => if (c =? cp "c") || (c =? cp "q") then Some In_Quit else None
  | _ => None
  end.

(** The arrows and the letters that stand for them, in three of the modes. *)
Definition arrow (code : KeyCode) : option NavigationEvent :=
  match code with
  | KC_Up => Some Nav_Up
  | KC_Down => Some Nav_Down
  | KC_Left => Some Nav_Left
  | KC_Right => Some Nav_Right
  | KC_Char c =>
      if c =? cp "k" then Some Nav_Up else if c =? cp "j" then Some Nav_Down
      else if c =? cp "h" then Some Nav_Left else if c =? cp "l" then Some Nav_Right else None
  | _ => None
  end.

Definition zoom (code : KeyCode) : option NavigationEvent :=
  match code with
  | KC_Char c => if (c =? cp "+") || (c =? cp "=") then Some Nav_ZoomIn else if c =? cp "-" then Some Nav_ZoomOut else None
  | _ => None
  end.

Definition decode_normal (code : KeyCode) : option InputEvent :=
  match arrow code with
  | Some nav => Some (In_Navigation nav)
  | None =>
      match code with
      | KC_PageUp => Some (In_Navigation Nav_PageUp)
      | KC_PageDown => Some (In_Navigation Nav_PageDown)
      | KC_Home => Some (In_Navigation Nav_Home)
      | KC_End => Some (In_Navigation Nav_End)
      | _ =>
          match zoom code with
          | Some nav => Some (In_Navigation nav)
          | None =>
              match code with
              | KC_Char c =>
                  if c =? cp ":" then Some (In_Mode EnterCommand) else if c =? cp "i" then Some (In_Mode EnterInspect)
                  else if c =? cp "I" then Some (In_Mode EnterIntervene) else if c =? cp "q" then Some In_Quit else None
              | _ => None
              end
          end
      end
  end.

Definition decode_command (code : KeyCode) : option InputEvent :=
  match code with
  | KC_Enter => Some (In_Command Cmd_Execute)
  | KC_Esc => Some (In_Mode ExitToNormal)
  | KC_Backspace => Some (In_Command Cmd_Backspace)
  | KC_Tab => Some (In_Command Cmd_TabComplete)
  | KC_Up => Some (In_Command Cmd_HistoryPrev)
  | KC_Down => Some (In_Command Cmd_HistoryNext)
  | KC_Char c => Some (In_Command (Cmd_Char c))
  | _ => None
  end.

Definition decode_inspect (code : KeyCode) : option InputEvent :=
  match code with
  | KC_Esc => Some (In_Mode ExitToNormal)
  | _ => In_Navigation <$> match arrow code with Some nav => Some nav | None => zoom code end
  end.

Definition decode_intervene (code : KeyCode) : option InputEvent :=
  match code with
  | KC_Esc => Some (In_Mode ExitToNormal)
  | _ => In_Navigation <$> arrow code
  end.

Definition decode_key (code : KeyCode) (control : bool) (mode : Mode) : option InputEvent :=
  if control then decode_ctrl code mode
  else match mode with
       | Mode_Normal => decode_normal code
       | Mode_Command => decode_command code
       | Mode_Inspect => decode_inspect code
       | Mode_Intervene => decode_intervene code
       end.

Definition decode (event : Event) (mode : Mode) : option InputEvent :=
  match event with
  | Ev_Key code control => decode_key code control mode
  | Ev_Resize w h => Some (In_Resize w h)
  | Ev_Other => None
  end.

(** ** The state *)

Definition ViewId : Type := Z.

Inductive ViewKind :=
  | View_LayerStack | View_TensorDetail | View_ProbeWatch | View_Timeline | View_KvCache | View_Worldline
  | View_CommandLine | View_StatusBar.

Record ViewSlot := mkViewSlot { vs_id : ViewId; vs_kind : ViewKind }.

Record CursorState := mkCursorState {
  cs_layer : Z;
  cs_component : string;
  cs_token_position : Z;
  cs_focused_view : ViewId
}.

Record SessionSnapshot := mkSessionSnapshot {
  sn_status : Status;
  sn_position : option TickPosition;
  sn_capabilities : option Capabilities;
  sn_active_interventions : list InterventionRecipe;
  sn_protocol_version : string;
  sn_defined_probes : list ProbeDefinition
}.

Record ProbeStats := mkProbeStats {
  ps_fire_count : Z;
  ps_last_tick_id : Z;
  ps_last_point : string
}.

Record UiState := mkUiState {
  ui_session : SessionSnapshot;
  ui_cursor : CursorState;
  ui_mode : Mode;
  ui_views : list ViewSlot;
  ui_pending_requests : Z;
  ui_status_line : list Z;
  ui_command_buffer : list Z;
  ui_tensor_cache : TensorCache;
  ui_probe_stats : gmap string ProbeStats
}.

Definition DEFAULT_TENSOR_CACHE_CAPACITY : nat := 64.

Definition initial_ui_state : UiState := {|
  ui_session := mkSessionSnapshot Status_Uninitialized None None [] "" [];
  ui_cursor := mkCursorState 0 "" 0 0;
  ui_mode := Mode_Normal;
  ui_views := [];
  ui_pending_requests := 0;
  ui_status_line := [];
  ui_command_buffer := [];
  ui_tensor_cache := TensorCache_new DEFAULT_TENSOR_CACHE_CAPACITY;
  ui_probe_stats := ∅
|}.

Definition set_session (v : SessionSnapshot) (s : UiState) : UiState :=
  mkUiState v (ui_cursor s) (ui_mode s) (ui_views s) (ui_pending_requests s) (ui_status_line s) (ui_command_buffer s) (ui_tensor_cache s) (ui_probe_stats s).
Definition set_cursor (v : CursorState) (s : UiState) : UiState :=
  mkUiState (ui_session s) v (ui_mode s) (ui_views s) (ui_pending_requests s) (ui_status_line s) (ui_command_buffer s) (ui_tensor_cache s) (ui_probe_stats s).
Definition set_mode (v : Mode) (s : UiState) : UiState :=
  mkUiState (ui_session s) (ui_cursor s) v (ui_views s) (ui_pending_requests s) (ui_status_line s) (ui_command_buffer s) (ui_tensor_cache s) (ui_probe_stats s).
Definition set_views (v : list ViewSlot) (s : UiState) : UiState :=
  mkUiState (ui_session s) (ui_cursor s) (ui_mode s) v (ui_pending_requests s) (ui_status_line s) (ui_command_buffer s) (ui_tensor_cache s) (ui_probe_stats s).
Definition set_status_line (v : list Z) (s : UiState) : UiState :=
  mkUiState (ui_session s) (ui_cursor s) (ui_mode s) (ui_views s) (ui_pending_requests s) v (ui_command_buffer s) (ui_tensor_cache s) (ui_probe_stats s).
Definition set_command_buffer (v : list Z) (s : UiState) : UiState :=
  mkUiState (ui_session s) (ui_cursor s) (ui_mode s) (ui_views s) (ui_pending_requests s) (ui_status_line s) v (ui_tensor_cache s) (ui_probe_stats s).
Definition set_probe_stats (v : gmap string ProbeStats) (s : UiState) : UiState :=
  mkUiState (ui_session s) (ui_cursor s) (ui_mode s) (ui_views s) (ui_pending_requests s) (ui_status_line s) (ui_command_buffer s) (ui_tensor_cache s) v.

(** ** The reducer *)

Inductive Effect := RequestStep (count : Z).

(** [saturating_sub] and [saturating_add] at a width. *)
Definition sat_sub (a b : Z) : Z := Z.max 0 (a - b).
Definition sat_add (max a b : Z) : Z := Z.min max (a + b).

Definition cursor_move (nav : NavigationEvent) (c : CursorState) : CursorState :=
  let layer l := mkCursorState l (cs_component c) (cs_token_position c) (cs_focused_view c) in
  let token t := mkCursorState (cs_layer c) (cs_component c) t (cs_focused_view c) in
  match nav with
  | Nav_Up => layer (sat_sub (cs_layer c) 1)
  | Nav_Down => layer (sat_add U32_MAX (cs_layer c) 1)
  | Nav_Left => token (sat_sub (cs_token_position c) 1)
  | Nav_Right => token (sat_add U64_MAX (cs_token_position c) 1)
  | Nav_PageUp => layer (sat_sub (cs_layer c) 10)
  | Nav_PageDown => layer (sat_add U32_MAX (cs_layer c) 10)
  | Nav_Home => mkCursorState 0 (cs_component c) 0 (cs_focused_view c)
  | Nav_End => mkCursorState U32_MAX (cs_component c) U64_MAX (cs_focused_view c)
  | Nav_ZoomIn | Nav_ZoomOut | Nav_JumpTo _ | Nav_ContinuousAdjust _ _ => c
  end.

Definition clamp_cursor (s : UiState) : UiState :=
  match caps ← sn_capabilities (ui_session s); cap_num_layers caps with
  | Some num_layers =>
      if 0 <? num_layers then
        let c := ui_cursor s in
        set_cursor (mkCursorState (Z.min (cs_layer c) (num_layers - 1)) (cs_component c) (cs_token_position c) (cs_focused_view c)) s
      else s
  | None => s
  end.

Definition reduce_navigation (nav : NavigationEvent) (s : UiState) : UiState :=
  clamp_cursor (set_cursor (cursor_move nav (ui_cursor s)) s).

Definition mode_target (event : ModeEvent) : Mode :=
  match event with
  | EnterCommand => Mode_Command
  | EnterInspect => Mode_Inspect
  | EnterIntervene => Mode_Intervene
  | ExitToNormal => Mode_Normal
  end.

Definition reduce_mode (event : ModeEvent) (s : UiState) : UiState :=
  match transition (ui_mode s) (mode_target event) with
  | Some new_mode => set_mode new_mode (if decide (new_mode = Mode_Normal) then set_command_buffer [] s else s)
  | None => s
  end.

Definition codes (s : string) : list Z := cp <$> chars s.

(** [str::split_whitespace]; [acc] is the word being read, backwards. *)
Fixpoint split_whitespace (acc cs : list Z) : list (list Z) :=
  let word := match acc with [] => [] | _ => [rev acc] end in
  match cs with
  | [] => word
  | c :: cs => if char_is_whitespace c then word ++ split_whitespace [] cs else split_whitespace (c :: acc) cs
  end.

(** [str::parse::<u32>] *)
Definition parse_u32 (arg : list Z) : option Z := mapM ascii_of_cp arg ≫= parse_uint U32_MAX.

Definition parse_command (buffer : list Z) : option Effect :=
  match split_whitespace [] buffer with
  | [] => None
  | verb :: parts =>
      if bool_decide (verb = codes "step") || bool_decide (verb = codes "s") then
        Some (RequestStep (Z.max (default 1 (head parts ≫= parse_u32)) 1))
      else None
  end.

Definition reduce_command (cmd : CommandEvent) (s : UiState) : option Effect * UiState :=
  let buffer := ui_command_buffer s in
  match cmd with
  | Cmd_Char c => (None, set_command_buffer (buffer ++ [c]) s)
  | Cmd_Backspace => (None, set_command_buffer (removelast buffer) s)
  | Cmd_Execute =>
      let effect := parse_command buffer in
      let line := match effect with
                  | Some (RequestStep count) => codes ("step " +:+ to_string count)
                  | None => if decide (buffer = []) then [] else codes "unknown command: " ++ buffer
                  end in
      (effect, set_command_buffer [] (set_status_line line s))
  | Cmd_Cancel => (None, set_command_buffer [] s)
  | Cmd_TabComplete | Cmd_HistoryPrev | Cmd_HistoryNext => (None, s)
  end.

Definition apply_input (event : InputEvent) (s : UiState) : option Effect * UiState :=
  match event with
  | In_Navigation nav => (None, reduce_navigation nav s)
  | In_Mode m => (None, reduce_mode m s)
  | In_Command cmd => reduce_command cmd s
  | In_Resize _ _ | In_Quit => (None, s)
  end.

(** ** The application *)

Inductive DaemonEvent :=
  | Connected (protocol_version : string)
  | Disconnected
  | TickStopped (position : TickPosition)
  | ProbeFired (fired : ProbeFiredEvent).

Inductive Action := Act_Terminal (event : Event) | Act_Tick | Act_Daemon (event : DaemonEvent).

Inductive Flow := Flow_Continue | Flow_Quit.

Definition Outcome : Type := Flow * option Effect.

Definition CONTINUE : Outcome := (Flow_Continue, None).
Definition QUIT : Outcome := (Flow_Quit, None).

Definition default_views : list ViewSlot :=
  [mkViewSlot 0 View_LayerStack; mkViewSlot 1 View_StatusBar; mkViewSlot 2 View_CommandLine].

(** The state of [App::new]; the layout is [TuiLayout.default_layout]. *)
Definition App_new : UiState := set_views default_views initial_ui_state.

Definition apply_terminal (event : Event) (s : UiState) : Outcome * UiState :=
  match decode event (ui_mode s) with
  | Some In_Quit => (QUIT, s)
  | Some input => let (effect, s) := apply_input input s in ((Flow_Continue, effect), s)
  | None => (CONTINUE, s)
  end.

Definition apply_daemon (event : DaemonEvent) (s : UiState) : UiState :=
  let ss := ui_session s in
  match event with
  | Connected v => set_session (mkSessionSnapshot Status_Initialized (sn_position ss) (sn_capabilities ss) (sn_active_interventions ss) v (sn_defined_probes ss)) s
  | Disconnected => set_session (mkSessionSnapshot Status_Uninitialized (sn_position ss) (sn_capabilities ss) (sn_active_interventions ss) (sn_protocol_version ss) (sn_defined_probes ss)) s
  | TickStopped p => set_session (mkSessionSnapshot Status_Stopped (Some p) (sn_capabilities ss) (sn_active_interventions ss) (sn_protocol_version ss) (sn_defined_probes ss)) s
  | ProbeFired fired =>
      let entry := default (mkProbeStats 0 0 "") (ui_probe_stats s !! pfe_probe_id fired) in
      set_probe_stats (<[pfe_probe_id fired := mkProbeStats (sat_add U32_MAX (ps_fire_count entry) 1) (pfe_tick_id fired) (pfe_point fired)]> (ui_probe_stats s)) s
  end.

Definition update (action : Action) (s : UiState) : Outcome * UiState :=
  match action with
  | Act_Terminal event => apply_terminal event s
  | Act_Daemon event => (CONTINUE, apply_daemon event s)
  | Act_Tick => (CONTINUE, s)
  end.

(** The loop of [main.rs] over the actions that arrive: what it sends to the
    daemon link, whether it ended by quitting, and the last state. *)
Fixpoint run (actions : list Action) (s : UiState) : list Effect * Flow * UiState :=
  match actions with
  | [] => ([], Flow_Continue, s)
  | action :: actions =>
      let '((flow, effect), s) := update action s in
      match flow with
      | Flow_Quit => (option_list effect, Flow_Quit, s)
      | Flow_Continue => let '(effects, flow, s) := run actions s in (option_list effect ++ effects, flow, s)
      end
  end.

(** ** What the panels show *)

Definition command_line_text (s : UiState) : list Z :=
  if decide (ui_mode s = Mode_Command) then codes ":" ++ ui_command_buffer s else ui_status_line s.

(** The selected row of the layer stack; [None]: the hint is shown. *)
Definition layer_stack_selected (s : UiState) : option Z :=
  match caps ← sn_capabilities (ui_session s); cap_num_layers caps with
  | Some n => if 0 <? n then Some (Z.min (cs_layer (ui_cursor s)) (n - 1)) else None
  | None => None
  end.

Definition cache_key_for_cursor (s : UiState) : option CacheKey :=
  tick_id ← tp_tick_id <$> sn_position (ui_session s);
  if decide (cs_component (ui_cursor s) = EmptyString) then None
  else Some (tick_id, ("L" +:+ to_string (cs_layer (ui_cursor s)) +:+ "::" +:+ cs_component (ui_cursor s))%string).

Definition row_leb (a b : string * ProbeStats) : bool :=
  match ps_fire_count (snd b) ?= ps_fire_count (snd a) with
  | Lt => true
  | Eq => string_le (fst a) (fst b)
  | Gt => false
  end.

(** The cells of [ProbeWatch]: probe, fires, last tick, point. *)
Definition build_rows (s : UiState) : list (string * Z * option Z * string) :=
  let fired := sort_by row_leb (map_to_list (ui_probe_stats s)) in
  let never_fired :=
    sort_by string_le (pd_id <$> List.filter (fun p => negb (bool_decide (is_Some (ui_probe_stats s !! pd_id p)))) (sn_defined_probes (ui_session s))) in
  ((fun row : string * ProbeStats => (fst row, ps_fire_count (snd row), Some (ps_last_tick_id (snd row)), ps_last_point (snd row))) <$> fired) ++
  ((fun id => (id, 0, None, default EmptyString (pd_point <$> List.find (fun p => bool_decide (pd_id p = id)) (sn_defined_probes (ui_session s))))) <$> never_fired).
