(* ===== verification/TuiSpec.v ===== *)
(** * TuiSpec: what the terminal client's state is after any run

    The two sources of actions do not interfere; the probe table counts what
    fired; the command line sends what was typed. *)

From Stdlib Require Import ZArith Lia Ascii String Sorted.
From stdpp Require Import base gmap strings list fin_maps sets.
From S2P Require Import Prelude Framing Protocol Messages TuiCache Tui.
Open Scope Z_scope.

Definition terminal_part (actions : list Action) : list Action :=
  List.filter (fun a => match a with Act_Terminal _ => true | _ => false end) actions.

Definition daemon_part (actions : list Action) : list DaemonEvent :=
  omap (fun a => match a with Act_Daemon e => Some e | _ => None end) actions.

Definition apply_daemons (events : list DaemonEvent) (s : UiState) : UiState := foldl (fun s e => apply_daemon e s) s events.

(** ** Terminal and daemon commute *)

Definition then_daemon {A} (e : DaemonEvent) (r : A * UiState) : A * UiState := (r.1, apply_daemon e r.2).

Lemma clamp_daemon e s : clamp_cursor (apply_daemon e s) = apply_daemon e (clamp_cursor s).
Proof.
  assert (Hc : forall t : UiState, sn_capabilities (ui_session (apply_daemon e t)) = sn_capabilities (ui_session t)) by (by destruct e).
  unfold clamp_cursor. rewrite Hc. destruct (caps ← _; _) as [n|]; [|done]. destruct (0 <? n); [|done]. by destruct e.
Qed.

Lemma input_daemon i e s : apply_input i (apply_daemon e s) = then_daemon e (apply_input i s).
Proof.
  destruct i as [nav|cmd|m| |]; cbn [apply_input]; [| | |by destruct e..].
  - unfold then_daemon, reduce_navigation. cbn [fst snd]. rewrite <- clamp_daemon. by destruct e.
  - assert (Hb : ui_command_buffer (apply_daemon e s) = ui_command_buffer s) by by destruct e.
    unfold reduce_command, then_daemon. rewrite Hb. by destruct cmd, e.
  - assert (Hm : ui_mode (apply_daemon e s) = ui_mode s) by by destruct e.
    unfold reduce_mode, then_daemon. cbn [fst snd]. rewrite Hm. destruct (transition _ _) as [t|]; [|done]. case_decide; by destruct e.
Qed.

Lemma terminal_daemon ev e s : apply_terminal ev (apply_daemon e s) = then_daemon e (apply_terminal ev s).
Proof.
  unfold apply_terminal. replace (ui_mode (apply_daemon e s)) with (ui_mode s) by (by destruct e).
  destruct (decode ev (ui_mode s)) as [i|]; [|done].
  destruct i; [..|done|]; rewrite input_daemon; unfold then_daemon; by destruct (apply_input _ _).
Qed.

Lemma run_daemon actions : forall e s,
  Forall (fun a => is_Some (match a with Act_Terminal ev => Some ev | _ => None end)) actions ->
  run actions (apply_daemon e s) = then_daemon e (run actions s).
Proof.
  induction actions as [|a actions IH]; intros e s Ha; [done|]. apply Forall_cons in Ha as [[ev Hev] Ha].
  destruct a as [ev'| |]; try done. cbn [run update]. rewrite terminal_daemon. unfold then_daemon.
  destruct (apply_terminal ev' s) as [[flow effect] s1]. cbn [fst snd]. destruct flow; [|done].
  rewrite IH by done. unfold then_daemon. by destruct (run actions s1) as [[? ?] ?].
Qed.

Lemma terminal_part_Forall actions :
  Forall (fun a => is_Some (match a with Act_Terminal ev => Some ev | _ => None end)) (terminal_part actions).
Proof. induction actions as [|[] actions IH]; cbn; try done. by constructor. Qed.

Lemma run_split (actions : list Action) (s : UiState) :
  let keys := run (terminal_part actions) s in
  (run actions s).1 = keys.1 /\
  ((run actions s).1.2 = Flow_Continue -> (run actions s).2 = apply_daemons (daemon_part actions) keys.2).
Proof.
  cbn. revert s. induction actions as [|a actions IH]; intros s; [done|]. destruct a as [ev| |e]; cbn [run update terminal_part List.filter daemon_part omap list_omap].
  - destruct (apply_terminal ev s) as [[flow effect] s1]. destruct flow; [|done]. destruct (IH s1) as [H1 H2].
    change (List.filter _ actions) with (terminal_part actions). change (list_omap _ _ _ actions) with (daemon_part actions).
    destruct (run actions s1) as [[es f] s2], (run (terminal_part actions) s1) as [[es' f'] s2']. cbn in *. by simplify_eq.
  - destruct (IH s) as [H1 H2]. change (List.filter _ actions) with (terminal_part actions). change (list_omap _ _ _ actions) with (daemon_part actions).
    by destruct (run actions s) as [[es f] s2].
  - destruct (IH (apply_daemon e s)) as [H1 H2]. rewrite (run_daemon (terminal_part actions) e s (terminal_part_Forall actions)) in H1, H2.
    change (List.filter _ actions) with (terminal_part actions). change (list_omap _ _ _ actions) with (daemon_part actions).
    destruct (run actions (apply_daemon e s)) as [[es f] s2]. cbn [CONTINUE option_list app]. unfold then_daemon in *. cbn [fst snd] in *. split; [done|]. intros Hf. rewrite (H2 Hf).
    (* the first event first *)
    cbn [apply_daemons foldl]. done.
Qed.

(** Terminal input and daemon events do not interfere, however they
    interleave: what the loop sends to the daemon and whether it ends depend only
    on the keys, and if it has not ended the state is that of the keys alone with
    the daemon's events applied. *)
Theorem sources_do_not_interfere (actions : list Action) (s : UiState) :
  let keys := run (terminal_part actions) s in
  (run actions s).1 = keys.1 /\
  ((run actions s).1.2 = Flow_Continue -> (run actions s).2 = apply_daemons (daemon_part actions) keys.2).
Proof. apply run_split. Qed.

(** ** What the daemon's events leave *)

Definition fired (id : string) (events : list DaemonEvent) : list ProbeFiredEvent :=
  omap (fun e => match e with ProbeFired f => if decide (pfe_probe_id f = id) then Some f else None | _ => None end) events.

Definition stats_of (fs : list ProbeFiredEvent) : option ProbeStats :=
  (fun f => mkProbeStats (Z.min U32_MAX (Z.of_nat (List.length fs))) (pfe_tick_id f) (pfe_point f)) <$> last fs.

Definition link_status (events : list DaemonEvent) : Status :=
  default Status_Uninitialized (last (omap (fun e =>
    match e with
    | Connected _ => Some Status_Initialized
    | Disconnected => Some Status_Uninitialized
    | TickStopped _ => Some Status_Stopped
    | ProbeFired _ => None
    end) events)).

Definition stopped_at (events : list DaemonEvent) : option TickPosition :=
  last (omap (fun e => match e with TickStopped p => Some p | _ => None end) events).

(** What daemon events decide, and keys never change. *)
Definition daemon_view (s : UiState) : SessionSnapshot * gmap string ProbeStats := (ui_session s, ui_probe_stats s).

Lemma terminal_view ev s : daemon_view (apply_terminal ev s).2 = daemon_view s.
Proof.
  unfold apply_terminal. destruct (decode ev (ui_mode s)) as [i|]; [|done].
  assert (H : daemon_view (apply_input i s).2 = daemon_view s).
  { destruct i as [nav|cmd|m| |]; try done; cbn [apply_input].
    - unfold reduce_navigation, clamp_cursor. cbn [snd]. destruct (caps ← _; _) as [n|]; [|done]. by destruct (0 <? n).
    - by destruct cmd.
    - unfold reduce_mode. destruct (transition _ _); [|done]. cbn [snd]. by case_decide. }
  destruct i; try done; by destruct (apply_input _ _).
Qed.

Lemma keys_view actions : forall s, daemon_part actions = [] -> daemon_view (run actions s).2 = daemon_view s.
Proof.
  induction actions as [|a actions IH]; intros s Hd; [done|]. destruct a as [ev| |e]; try done; cbn [run update].
  - pose proof (terminal_view ev s) as Hv. destruct (apply_terminal ev s) as [[flow effect] s1]. destruct flow; [|done].
    specialize (IH s1 Hd). destruct (run actions s1) as [[? ?] ?]. cbn in *. by rewrite IH.
  - specialize (IH s Hd). by destruct (run actions s) as [[? ?] ?].
Qed.

Lemma terminal_part_daemon actions : daemon_part (terminal_part actions) = [].
Proof. by induction actions as [|[]]. Qed.

Lemma fired_snoc id events e : fired id (events ++ [e]) = fired id events ++ fired id [e].
Proof. apply omap_app. Qed.

Lemma stats_snoc fs f : stats_of (fs ++ [f]) =
  let entry := default (mkProbeStats 0 0 "") (stats_of fs) in
  Some (mkProbeStats (sat_add U32_MAX (ps_fire_count entry) 1) (pfe_tick_id f) (pfe_point f)).
Proof.
  unfold stats_of. rewrite last_snoc, length_app. cbn. do 2 f_equal. unfold sat_add. destruct (last fs) as [g|] eqn:E; cbn; [lia|].
  apply last_None in E as ->. done.
Qed.

Lemma daemons_exact events s : daemon_view s = daemon_view App_new ->
  let s' := apply_daemons events s in
  (forall id, ui_probe_stats s' !! id = stats_of (fired id events)) /\
  sn_status (ui_session s') = link_status events /\ sn_position (ui_session s') = stopped_at events /\ sn_capabilities (ui_session s') = None.
Proof.
  intros [= Hs Hp]. induction events as [|e events IH] using rev_ind; cbn in *.
  - rewrite Hs, Hp. done.
  - unfold apply_daemons in *. rewrite foldl_app. cbn [foldl]. set (t := foldl _ s events) in *. destruct IH as (I1 & I2 & I3 & I4).
    unfold link_status, stopped_at in *. rewrite !omap_app. destruct e as [v| |p|f]; cbn [omap list_omap]; rewrite ?app_nil_r, ?last_snoc; cbn;
      (split; [|done]); intros id; rewrite fired_snoc; cbn; rewrite ?app_nil_r; [apply I1..|].
    case_decide as E; subst.
    + rewrite lookup_insert_eq, stats_snoc, I1. done.
    + by rewrite lookup_insert_ne, app_nil_r.
Qed.

(** Whatever was typed meanwhile, after any run that did not quit the probe
    table holds for every probe how often it fired (saturating at [u32::MAX]) and
    the tick and point of its last firing; the status shown is that of the last
    connection or stop event, and the position that of the last stop. *)
Theorem daemon_events_exact (actions : list Action) (Hc : (run actions App_new).1.2 = Flow_Continue) :
  let s := (run actions App_new).2 in
  let events := daemon_part actions in
  (forall id, ui_probe_stats s !! id = stats_of (fired id events)) /\
  sn_status (ui_session s) = link_status events /\ sn_position (ui_session s) = stopped_at events.
Proof.
  cbn. destruct (run_split actions App_new) as [_ H]. rewrite (H Hc).
  destruct (daemons_exact (daemon_part actions) (run (terminal_part actions) App_new).2) as (H1 & H2 & H3 & _); [|done].
  apply keys_view, terminal_part_daemon.
Qed.

(** ** The rows of the probe panel *)

Definition row_order (a b : string * ProbeStats) : Prop :=
  ps_fire_count b.2 < ps_fire_count a.2 \/ ps_fire_count a.2 = ps_fire_count b.2 /\ string_le a.1 b.1 = true.

#[export] Instance row_order_trans : Transitive row_order.
Proof. intros a b c [|[? H1]] [|[? H2]]; unfold row_order; try (left; lia). right. split; [lia|]. by eapply string_le_trans. Qed.

Lemma row_leb_order a b : if row_leb a b then row_order a b else row_order b a.
Proof.
  unfold row_leb, row_order. destruct (Z.compare_spec (ps_fire_count b.2) (ps_fire_count a.2)); [|by left|by left].
  destruct (string_le a.1 b.1) eqn:E; right; [done|]. destruct (string_le_total a.1 b.1); [congruence|done].
Qed.

(** The probe panel shows one row for every probe that has fired, with its
    count and last firing, the most fired first and equal counts by name; then
    the defined probes that have not, by name, with a count of 0. *)
Theorem probe_rows_exact (s : UiState) :
  exists rows ids,
    build_rows s = ((fun row : string * ProbeStats => (row.1, ps_fire_count row.2, Some (ps_last_tick_id row.2), ps_last_point row.2)) <$> rows) ++
      ((fun id => (id, 0, None, default EmptyString (pd_point <$> List.find (fun p => bool_decide (pd_id p = id)) (sn_defined_probes (ui_session s))))) <$> ids) /\
    (forall id st, (id, st) ∈ rows <-> ui_probe_stats s !! id = Some st) /\ NoDup rows.*1 /\ StronglySorted row_order rows /\
    (forall id, id ∈ ids <-> id ∈ pd_id <$> sn_defined_probes (ui_session s) /\ ui_probe_stats s !! id = None) /\
    StronglySorted (fun a b => string_le a b = true) ids.
Proof.
  unfold build_rows. eexists _, _. split; [reflexivity|]. split_and!.
  - intros id st. rewrite sort_by_perm. apply elem_of_map_to_list.
  - rewrite (sort_by_perm row_leb (map_to_list (ui_probe_stats s))). apply NoDup_fst_map_to_list.
  - apply sort_by_sorted; [apply _|]. apply row_leb_order.
  - intros id. rewrite sort_by_perm, !list_elem_of_fmap. split.
    + intros (p & -> & Hp). apply list_elem_of_In, filter_In in Hp as [Hp Hn]. apply list_elem_of_In in Hp. split; [by exists p|].
      apply negb_true_iff, bool_decide_eq_false in Hn. by apply eq_None_not_Some.
    + intros [(p & -> & Hp) Hn]. exists p. split; [done|]. apply list_elem_of_In, filter_In. split; [by apply list_elem_of_In|].
      apply negb_true_iff, bool_decide_eq_false. rewrite Hn. by intros [].
  - apply sort_by_sorted; [intros a b c; apply string_le_trans|]. intros x y. destruct (string_le x y) eqn:E; [done|].
    destruct (string_le_total x y); [congruence|done].
Qed.

(** ** The invariant of the state *)

Record ui_ok (s : UiState) : Prop := {
  uk_buffer : ui_mode s <> Mode_Command -> ui_command_buffer s = [];
  uk_layer : u32_ok (cs_layer (ui_cursor s));
  uk_token : u64_ok (cs_token_position (ui_cursor s));
  uk_views : ui_views s = default_views;
  uk_depth : forall c n, sn_capabilities (ui_session s) = Some c -> cap_num_layers c = Some n -> u32_ok n
}.

Lemma App_new_ok : ui_ok App_new.
Proof. split; try done; unfold u32_ok, u64_ok, U32_MAX, U64_MAX; cbn; lia. Qed.

Lemma cursor_move_ok nav c : u32_ok (cs_layer c) -> u64_ok (cs_token_position c) ->
  u32_ok (cs_layer (cursor_move nav c)) /\ u64_ok (cs_token_position (cursor_move nav c)).
Proof. unfold u32_ok, u64_ok, sat_sub, sat_add, U32_MAX, U64_MAX. destruct nav; cbn [cursor_move cs_layer cs_token_position]; unfold sat_sub, sat_add, U32_MAX, U64_MAX; lia. Qed.

Lemma set_cursor_ok c s : u32_ok (cs_layer c) -> u64_ok (cs_token_position c) -> ui_ok s -> ui_ok (set_cursor c s).
Proof. intros Hl Ht [Hb _ _ Hv Hd]. by split. Qed.

Lemma clamp_ok s : ui_ok s -> ui_ok (clamp_cursor s).
Proof.
  intros H. unfold clamp_cursor. destruct (caps ← _; _) as [n|] eqn:E; [|done]. destruct (Z.ltb_spec 0 n); [|done].
  apply bind_Some in E as (c & Ec & En). pose proof (uk_depth _ H c n Ec En) as Hd. pose proof (uk_layer _ H) as Hl.
  apply set_cursor_ok; [unfold u32_ok in *; cbn; lia|apply (uk_token _ H)|done].
Qed.

Lemma navigation_ok nav s : ui_ok s -> ui_ok (reduce_navigation nav s).
Proof.
  intros H. destruct (cursor_move_ok nav (ui_cursor s) (uk_layer _ H) (uk_token _ H)). by apply clamp_ok, set_cursor_ok.
Qed.

Lemma mode_event_ok m s : ui_ok s -> ui_ok (reduce_mode m s).
Proof.
  intros [Hb Hl Ht Hv Hd]. unfold reduce_mode. destruct (transition _ _) as [t|] eqn:E; [|by split].
  destruct (decide (t = Mode_Normal)) as [->|Hn]; split; try done. cbn. intros _. apply Hb. intros Hm.
  unfold transition in E. rewrite Hm in E. case_decide; [done|]. by destruct m; cbn in E; simplify_eq.
Qed.

Lemma command_ok cmd s : ui_mode s = Mode_Command -> ui_ok s -> ui_ok (reduce_command cmd s).2.
Proof. intros Hm [Hb Hl Ht Hv Hd]. destruct cmd; split; cbn; done. Qed.

(** The decoder gives command events in command mode only. *)
Lemma decode_command_mode ev m cmd : decode ev m = Some (In_Command cmd) -> m = Mode_Command.
Proof.
  destruct ev as [code [] | |]; cbn; try done.
  - destruct code; cbn; try done. by destruct (_ || _).
  - destruct m; cbn; try done; unfold decode_normal, decode_inspect, decode_intervene; intros H; exfalso; destruct code; cbn in H; repeat case_match; simplify_eq/=.
Qed.

Lemma terminal_ok ev s : ui_ok s -> ui_ok (apply_terminal ev s).2.
Proof.
  intros H. unfold apply_terminal. destruct (decode ev (ui_mode s)) as [i|] eqn:E; [|done].
  destruct i as [nav|cmd|m| |]; cbn [apply_input]; try done.
  - by apply navigation_ok.
  - apply decode_command_mode in E. pose proof (command_ok cmd s E H). by destruct (reduce_command cmd s).
  - by apply mode_event_ok.
Qed.

Lemma daemon_ok e s : ui_ok s -> ui_ok (apply_daemon e s).
Proof. intros [Hb Hl Ht Hv Hd]. by destruct e; split. Qed.

Lemma app_run_ok actions : forall s, ui_ok s -> ui_ok (run actions s).2.
Proof.
  induction actions as [|a actions IH]; intros s H; [done|]. cbn [run].
  assert (Hu : ui_ok (update a s).2) by (destruct a; [by apply terminal_ok|done|by apply daemon_ok]).
  destruct (update a s) as [[flow effect] s1]. destruct flow; [|done]. specialize (IH s1 Hu). by destruct (run actions s1) as [[? ?] ?].
Qed.

(** In every state the application reaches, there is a command text only in
    command mode, the cursor is a [u32] layer and a [u64] token, and the
    views are the default ones. *)
Theorem app_state_invariant (actions : list Action) :
  let s := (run actions App_new).2 in
  (ui_mode s <> Mode_Command -> ui_command_buffer s = []) /\
  0 <= cs_layer (ui_cursor s) <= U32_MAX /\ 0 <= cs_token_position (ui_cursor s) <= U64_MAX /\ ui_views s = default_views.
Proof. destruct (app_run_ok actions App_new App_new_ok) as [H1 H2 H3 H4 _]. done. Qed.

(** ** The command line *)

(** The actions that leave the command line open: everything but Enter, Escape
    and the two keys that quit. *)
Definition editing (a : Action) : bool :=
  match a with
  | Act_Terminal (Ev_Key code true) => negb (bool_decide (is_Some (decode_ctrl code Mode_Command)))
  | Act_Terminal (Ev_Key (KC_Enter | KC_Esc) false) => false
  | _ => true
  end.

Definition edit (t : list Z) (a : Action) : list Z :=
  match a with
  | Act_Terminal (Ev_Key (KC_Char c) false) => t ++ [c]
  | Act_Terminal (Ev_Key KC_Backspace false) => removelast t
  | _ => t
  end.

Definition key (code : KeyCode) : Action := Act_Terminal (Ev_Key code false).

Definition command_view (s : UiState) : Mode * list Z := (ui_mode s, ui_command_buffer s).

Lemma update_editing a s : ui_mode s = Mode_Command -> editing a = true ->
  exists s', update a s = (CONTINUE, s') /\ command_view s' = (Mode_Command, edit (ui_command_buffer s) a).
Proof.
  intros Hm Ha. unfold command_view. destruct a as [[code control| |]| |e]; cbn [update]; unfold apply_terminal; rewrite ?Hm; cbn [decode].
  - destruct control.
    + exists s. assert (Hn : decode_ctrl code Mode_Command = None) by (destruct code; try done; cbn in Ha |- *; by destruct (_ || _)).
      cbn [decode_key]. rewrite Hn, Hm. by destruct code.
    + destruct code; try done; cbn; eexists; (split; [reflexivity|]); cbn; by rewrite Hm.
  - exists s. by rewrite Hm.
  - exists s. by rewrite Hm.
  - exists s. by rewrite Hm.
  - eexists. split; [reflexivity|]. by destruct e; cbn; rewrite Hm.
Qed.

Lemma run_editing edits : forall s rest, ui_mode s = Mode_Command -> forallb editing edits = true ->
  exists s', run (edits ++ rest) s = run rest s' /\ command_view s' = (Mode_Command, foldl edit (ui_command_buffer s) edits).
Proof.
  induction edits as [|a edits IH]; intros s rest Hm He; [exists s; by unfold command_view; rewrite Hm|].
  apply andb_true_iff in He as [Ha He]. destruct (update_editing a s Hm Ha) as (s1 & Hu & [= H1 H2]).
  destruct (IH s1 rest H1 He) as (s2 & H3 & H4). exists s2. cbn [app run]. rewrite Hu. cbn [CONTINUE]. rewrite H3, H4, H2. split; [|done].
  by destruct (run rest s2) as [[? ?] ?].
Qed.

Lemma run_enter s : ui_mode s = Mode_Command ->
  exists s', run [key KC_Enter] s = (option_list (parse_command (ui_command_buffer s)), Flow_Continue, s') /\ command_view s' = (Mode_Command, []) /\
    ui_status_line s' = match parse_command (ui_command_buffer s) with
                        | Some (RequestStep n) => codes ("step " +:+ to_string n)
                        | None => if decide (ui_command_buffer s = []) then [] else codes "unknown command: " ++ ui_command_buffer s
                        end.
Proof.
  intros Hm. unfold key. cbn [run update]. unfold apply_terminal. rewrite Hm. cbn [decode decode_key decode_command apply_input reduce_command option_list].
  eexists. rewrite app_nil_r. split; [reflexivity|]. split; [|done]. unfold command_view. cbn. by rewrite Hm.
Qed.

(** A colon in normal mode, then any keys but Enter, Escape and the quit keys,
    interleaved with any events of the daemon, then Enter: the loop sends exactly
    the effect that the text as edited (characters appended, Backspace removing the
    last) parses to, nothing before it, and says so in the status line; the
    command line stays open and empty. *)
Theorem typed_command_sent (s : UiState) (edits : list Action)
  (Hm : ui_mode s = Mode_Normal) (Hb : ui_command_buffer s = []) (He : forallb editing edits = true) :
  let typed := foldl edit [] edits in
  exists s', run (key (KC_Char (cp ":")) :: edits ++ [key KC_Enter]) s = (option_list (parse_command typed), Flow_Continue, s') /\
    ui_mode s' = Mode_Command /\ ui_command_buffer s' = [] /\
    ui_status_line s' = match parse_command typed with
                        | Some (RequestStep n) => codes ("step " +:+ to_string n)
                        | None => if decide (typed = []) then [] else codes "unknown command: " ++ typed
                        end.
Proof.
  intros typed. set (s1 := set_mode Mode_Command s).
  assert (H1 : update (key (KC_Char (cp ":"))) s = (CONTINUE, s1)).
  { unfold key. cbn [update]. unfold apply_terminal. rewrite Hm. unfold s1. cbn [decode decode_key]. replace (decode_normal (KC_Char (cp ":"))) with (Some (In_Mode EnterCommand)) by reflexivity. cbn [apply_input]. unfold reduce_mode. by rewrite Hm. }
  destruct (run_editing edits s1 [key KC_Enter] eq_refl He) as (s2 & H2 & [= Hm2 Hb2]).
  destruct (run_enter s2 Hm2) as (s3 & H3 & [= Hm3 Hb3] & H4). exists s3.
  cbn [run]. rewrite H1. cbn [CONTINUE]. rewrite H2, H3. rewrite Hb2 in *. cbn in Hb2, H4 |- *. rewrite Hb in *. by split_and!.
Qed.

(** ** What is a step command *)

Definition blank (cs : list Z) : Prop := Forall (fun c => char_is_whitespace c = true) cs.
Definition word (cs : list Z) : Prop := cs <> [] /\ Forall (fun c => char_is_whitespace c = false) cs.
(** the end of a word *)
Definition ends (cs : list Z) : Prop := match cs with [] => True | c :: _ => char_is_whitespace c = true end.

Lemma split_blank lead cs : blank lead -> split_whitespace [] (lead ++ cs) = split_whitespace [] cs.
Proof. induction 1 as [|c lead Hc _ IH]; [done|]. cbn. by rewrite Hc. Qed.

Lemma split_word_acc w : forall acc tail, Forall (fun c => char_is_whitespace c = false) w -> ends tail -> rev acc ++ w <> [] ->
  split_whitespace acc (w ++ tail) = (rev acc ++ w) :: split_whitespace [] tail.
Proof.
  induction w as [|c w IH]; intros acc tail Hw Ht Hn.
  - rewrite app_nil_r in *. destruct acc as [|a acc]; [done|]. destruct tail as [|c tail]; [done|]. cbn in Ht |- *. by rewrite Ht.
  - apply Forall_cons in Hw as [Hc Hw]. cbn. rewrite Hc, IH; [|done..|].
    + cbn. by rewrite <- app_assoc.
    + cbn. by destruct (rev acc).
Qed.

Lemma split_word w tail : word w -> ends tail -> split_whitespace [] (w ++ tail) = w :: split_whitespace [] tail.
Proof. intros [Hn Hw] Ht. by rewrite split_word_acc. Qed.

(** Every text is blank, or blanks, a word and the rest. *)
Lemma text_cases cs : blank cs \/ exists lead w tail, cs = lead ++ w ++ tail /\ blank lead /\ word w /\ ends tail.
Proof.
  induction cs as [|c cs IH]; [left; constructor|]. destruct (char_is_whitespace c) eqn:E.
  - destruct IH as [H|(lead & w & tail & -> & Hl & Hw & Ht)]; [left; by constructor|]. right. exists (c :: lead), w, tail. split_and!; [done|by constructor|done|done].
  - right. destruct IH as [H|(lead & w & tail & -> & Hl & [Hn Hw] & Ht)].
    + exists [], [c], cs. split_and!; [done|constructor|by split; [|repeat constructor]|]. destruct H; done.
    + destruct lead as [|x lead].
      * exists [], (c :: w), tail. split_and!; [done|constructor|split; [done|by constructor]|done].
      * exists [], [c], ((x :: lead) ++ w ++ tail). split_and!; [done|constructor|by split; [|repeat constructor]|]. by apply Forall_cons in Hl as [? _].
Qed.

Lemma split_all_blank cs : blank cs -> split_whitespace [] cs = [].
Proof. intros H. rewrite <- (app_nil_r cs), split_blank by done. done. Qed.

Lemma first_word cs w ws : split_whitespace [] cs = w :: ws <->
  exists lead tail, cs = lead ++ w ++ tail /\ blank lead /\ word w /\ ends tail /\ split_whitespace [] tail = ws.
Proof.
  split.
  - intros H. destruct (text_cases cs) as [Hb|(lead & w' & tail & -> & Hl & Hw & Ht)]; [by rewrite split_all_blank in H|].
    rewrite split_blank, split_word in H by done. injection H as -> <-. by exists lead, tail.
  - intros (lead & tail & -> & Hl & Hw & Ht & <-). by rewrite split_blank, split_word.
Qed.

(** The count that the text after the verb gives. *)
Inductive step_count (tail : list Z) : Z -> Prop :=
| count_missing : blank tail -> step_count tail 1
| count_given lead arg rest n : tail = lead ++ arg ++ rest -> blank lead -> word arg -> ends rest ->
    parse_u32 arg = Some n -> step_count tail (Z.max n 1)
| count_not_a_number lead arg rest : tail = lead ++ arg ++ rest -> blank lead -> word arg -> ends rest ->
    parse_u32 arg = None -> step_count tail 1.

Lemma step_count_spec tail n : step_count tail n <-> n = Z.max (default 1 (head (split_whitespace [] tail) ≫= parse_u32)) 1.
Proof.
  split.
  - intros [Hb|lead arg rest m -> Hl Ha Hr Hp|lead arg rest -> Hl Ha Hr Hp]; [by rewrite split_all_blank| |];
      rewrite split_blank, split_word by done; cbn; by rewrite Hp.
  - intros ->. destruct (text_cases tail) as [Hb|(lead & w & rest & -> & Hl & Hw & Hr)].
    + rewrite split_all_blank by done. by apply count_missing.
    + rewrite split_blank, split_word by done. cbn. destruct (parse_u32 w) as [m|] eqn:E; [by eapply count_given|by eapply count_not_a_number].
Qed.

Lemma parse_u32_bound arg n : parse_u32 arg = Some n -> 0 <= n <= U32_MAX.
Proof. unfold parse_u32. intros (cs & _ & H)%bind_Some. by apply parse_uint_bound in H. Qed.

(** A command is sent exactly when the first word of the text is [step] or
    [s]; the number of ticks it asks for is the second word where that is a
    [u32], at least 1, and 1 when it is missing or not a number; every count
    sent is a [u32] greater than 0. *)
Theorem step_command_language (buffer : list Z) (n : Z) :
  (parse_command buffer = Some (RequestStep n) <->
   exists lead verb tail, buffer = lead ++ verb ++ tail /\ blank lead /\ (verb = codes "step" \/ verb = codes "s") /\ ends tail /\ step_count tail n) /\
  (parse_command buffer = Some (RequestStep n) -> 1 <= n <= U32_MAX).
Proof.
  assert (Hw : forall verb, verb = codes "step" \/ verb = codes "s" -> word verb) by (intros v [-> | ->]; split; [done|by repeat constructor|done|by repeat constructor]).
  split.
  - unfold parse_command. split.
    + intros H. destruct (split_whitespace [] buffer) as [|verb parts] eqn:E; [done|].
      apply first_word in E as (lead & tail & -> & Hl & Hv & Ht & <-). destruct (_ || _) eqn:Ev; [|done]. injection H as <-.
      exists lead, verb, tail. split_and!; [done|done| |done|by apply step_count_spec].
      apply orb_true_iff in Ev as [Ev|Ev]; apply bool_decide_eq_true in Ev; auto.
    + intros (lead & verb & tail & -> & Hl & Hv & Ht & ->%step_count_spec). rewrite split_blank, split_word by auto.
      destruct Hv as [-> | ->]; done.
  - unfold parse_command. intros H. destruct (split_whitespace [] buffer) as [|verb parts]; [done|]. destruct (_ || _); [|done]. injection H as <-.
    destruct (head parts ≫= parse_u32) as [m|] eqn:E; cbn; [|unfold U32_MAX; lia].
    apply bind_Some in E as (arg & _ & Hp). apply parse_u32_bound in Hp. unfold U32_MAX in *. lia.
Qed.

(** ** Witnesses *)

Module Demo.

Definition type_text (s : string) : list Action := (fun c : ascii => key (KC_Char (cp c))) <$> chars s.

Definition fired : ProbeFiredEvent := mkProbeFiredEvent "p1" "m::layer.1::mlp" 3 None ProbeAction_Capture "t" 0.

(** [stxep<BS>...]: a command with a slip of the key, while a probe fires twice. *)
Definition edits : list Action :=
  type_text "stx" ++ [key KC_Backspace; Act_Daemon (ProbeFired fired); Act_Tick] ++ type_text "ep  12" ++ [Act_Daemon (ProbeFired fired)].

Definition session : list Action :=
  [Act_Daemon (Connected "0.3.0"); key (KC_Char (cp "j"))] ++ key (KC_Char (cp ":")) :: edits ++ [key KC_Enter].

End Demo.

Lemma sources_do_not_interfere_witness :
  (run Demo.session App_new).1 = ([RequestStep 12], Flow_Continue) /\
  (run Demo.session App_new).2 = apply_daemons (daemon_part Demo.session) (run (terminal_part Demo.session) App_new).2.
Proof.
  destruct (sources_do_not_interfere Demo.session App_new) as [H1 H2]. split; [rewrite H1; reflexivity|]. apply H2. reflexivity.
Defined.

Lemma daemon_events_exact_witness :
  ui_probe_stats (run Demo.session App_new).2 !! "p1"%string = Some (mkProbeStats 2 3 "m::layer.1::mlp").
Proof. destruct (daemon_events_exact Demo.session eq_refl) as [H _]. rewrite (H "p1"%string). reflexivity. Defined.

Lemma typed_command_sent_witness :
  exists s', run (key (KC_Char (cp ":")) :: Demo.edits ++ [key KC_Enter]) App_new = ([RequestStep 12], Flow_Continue, s') /\
    ui_status_line s' = codes "step 12".
Proof.
  destruct (typed_command_sent App_new Demo.edits eq_refl eq_refl eq_refl) as (s' & H & _ & _ & Hl). exists s'. split; [exact H|exact Hl].
Defined.

Lemma step_command_language_witness :
  (exists lead verb tail, codes "  s 0 x" = lead ++ verb ++ tail /\ blank lead /\ (verb = codes "step" \/ verb = codes "s") /\ ends tail /\ step_count tail 1) /\
  1 <= 1 <= U32_MAX.
Proof.
  destruct (step_command_language (codes "  s 0 x") 1) as [H1 H2].
  assert (Hp : parse_command (codes "  s 0 x") = Some (RequestStep 1)) by reflexivity. split; [apply H1, Hp|apply H2, Hp].
Defined.
