(* ===== verification/TuiLayout.v ===== *)
(** * TuiLayout: how the terminal client divides the screen

    [crates/rocket-surgeon-tui/src/tiling.rs] and the default layout of [app.rs].
    Ratios are [f32]s; widths and heights [u16]s.  [Rect::new] is [ratatui]'s, a
    parameter: where the rectangle's far corner is a [u16] it gives the rectangle
    that was asked for. *)

From Stdlib Require Import ZArith Lia SpecFloat.
From stdpp Require Import base gmap strings list.
From S2P Require Import Prelude Float Tui.
Open Scope Z_scope.

(** ** [f32] *)

Definition f32 : Type := spec_float.
Definition f32_mul : f32 -> f32 -> f32 := SFmul 24 128.
Definition f32_add : f32 -> f32 -> f32 := SFadd 24 128.
(** [f32::from] of a [u16] *)
Definition f32_from_u16 (w : Z) : f32 := binary_normalize 24 128 w 0 false.
Definition U16_MAX : Z := 2 ^ 16 - 1.
(** [as u16]: towards zero, saturating; NaN is 0. *)
Definition f32_as_u16 (x : f32) : Z :=
  match x with
  | S754_finite false m e => Z.min (Z.shiftl (Z.pos m) e) U16_MAX
  | S754_infinity false => U16_MAX
  | _ => 0
  end.
(** The literals, rounded to nearest. *)
Definition f32_0_1 : f32 := S754_finite false 13421773 (-27).
Definition f32_0_9 : f32 := S754_finite false 15099494 (-24).
Definition f32_0_5 : f32 := S754_finite false 8388608 (-24).
Definition f32_0_6 : f32 := S754_finite false 10066330 (-24).
Definition f32_0_92 : f32 := S754_finite false 15435039 (-24).

(** [ratio.clamp(0.1, 0.9)] *)
Definition clamp_ratio (x : f32) : f32 :=
  let x := if SFltb x f32_0_1 then f32_0_1 else x in if SFltb f32_0_9 x then f32_0_9 else x.

(** ** Layouts *)

Record Rect := mkRect { rc_x : Z; rc_y : Z; rc_width : Z; rc_height : Z }.

Inductive Layout :=
| Single (id : ViewId)
| HSplit (left_ right_ : Layout) (ratio : f32)
| VSplit (top bottom : Layout) (ratio : f32).

Definition single (view : ViewId) : Layout := Single view.
Definition hsplit (l r : Layout) (ratio : f32) : Layout := HSplit l r (clamp_ratio ratio).
Definition vsplit (t b : Layout) (ratio : f32) : Layout := VSplit t b (clamp_ratio ratio).

Definition adjust_ratio (delta : f32) (l : Layout) : Layout :=
  match l with
  | HSplit a b ratio => HSplit a b (clamp_ratio (f32_add ratio delta))
  | VSplit a b ratio => VSplit a b (clamp_ratio (f32_add ratio delta))
  | Single _ => l
  end.

Fixpoint view_ids (l : Layout) : list ViewId :=
  match l with
  | Single id => [id]
  | HSplit a b _ | VSplit a b _ => view_ids a ++ view_ids b
  end.

Definition default_layout : Layout := vsplit (single 0) (vsplit (single 1) (single 2) f32_0_5) f32_0_92.

Definition propose_layout (old new : UiState) : option Layout :=
  let component s := cs_component (ui_cursor s) in
  if bool_decide (component old <> component new) && bool_decide (component new <> EmptyString)
  then Some (hsplit (single 0) (single 2) f32_0_6) else None.

(** [(f32::from(n) * ratio) as u16] *)
Definition portion (n : Z) (ratio : f32) : Z := f32_as_u16 (f32_mul (f32_from_u16 n) ratio).

Definition u16_wrap (z : Z) : Z := z mod 2 ^ 16.

Section Resolve.
Context (Rect_new : Z -> Z -> Z -> Z -> Rect).

Fixpoint resolve (l : Layout) (area : Rect) : list (ViewId * Rect) :=
  match l with
  | Single id => [(id, area)]
  | HSplit a b ratio =>
      let left_width := portion (rc_width area) ratio in
      let right_width := sat_sub (rc_width area) left_width in
      resolve a (Rect_new (rc_x area) (rc_y area) left_width (rc_height area)) ++
      resolve b (Rect_new (u16_wrap (rc_x area + left_width)) (rc_y area) right_width (rc_height area))
  | VSplit a b ratio =>
      let top_height := portion (rc_height area) ratio in
      let bottom_height := sat_sub (rc_height area) top_height in
      resolve a (Rect_new (rc_x area) (rc_y area) (rc_width area) top_height) ++
      resolve b (Rect_new (rc_x area) (u16_wrap (rc_y area + top_height)) (rc_width area) bottom_height)
  end.

End Resolve.

(** ** A clamped ratio takes a part of the whole *)

Definition valid_f32 (x : f32) : Prop := valid_binary 24 128 x = true.

(** What clamping leaves: NaN, or a number from 0.1 to 0.9. *)
Definition ratio_ok (x : f32) : Prop :=
  x = S754_nan \/ exists m e, x = S754_finite false m e /\ Z.pos (digits2_pos m) = 24 /\ -27 <= e <= -24 /\ Z.pos m + 2 <= 2 ^ (- e).

Lemma bounded_digits m e : bounded 24 128 m e = true -> -27 <= e -> Z.pos (digits2_pos m) = 24.
Proof. unfold bounded, canonical_mantissa, fexp, emin. rewrite andb_true_iff, Z.eqb_eq, Z.leb_le. lia. Qed.

Lemma digits_below m : Z.pos (digits2_pos m) = 24 -> Z.pos m < 2 ^ 24.
Proof. rewrite digits2_log2. intros H. apply Z.log2_lt_pow2; lia. Qed.

Lemma clamp_ratio_ok x : valid_f32 x -> ratio_ok (clamp_ratio x).
Proof.
  assert (H1 : ratio_ok f32_0_1) by (right; eexists _, _; split; [reflexivity|]; split; [reflexivity|lia]).
  assert (H9 : ratio_ok f32_0_9) by (right; eexists _, _; split; [reflexivity|]; split; [reflexivity|lia]).
  intros Hv. unfold clamp_ratio. destruct (SFltb x f32_0_1) eqn:El; [exact H1|]. destruct (SFltb f32_0_9 x) eqn:Er; [exact H9|].
  unfold SFltb, f32_0_1, f32_0_9 in El, Er. destruct x as [[]|[]| |[] m e]; try discriminate; [by left|].
  right. exists m, e. split; [done|]. cbn [SFcompare] in El, Er.
  destruct (Z.compare_spec e (-27)) as [Ee|Ee|Ee]; [| discriminate |].
  - pose proof (bounded_digits m e Hv ltac:(lia)) as Hd. apply digits_below in Hd as Hm. split; [exact Hd|]. split; [lia|]. subst e. change (2 ^ (- -27)) with 134217728. lia.
  - pose proof (bounded_digits m e Hv ltac:(lia)) as Hd. apply digits_below in Hd as Hm.
    destruct (Z.compare_spec (-24) e) as [Ee'|Ee'|Ee']; [|discriminate|].
    + change (Pos.compare_cont Eq 15099494 m) with (15099494 ?= m)%positive in Er.
      assert (Em : (m <= 15099494)%positive) by (destruct (Pos.compare_spec 15099494 m) as [Em|Em|Em]; [by rewrite Em|discriminate Er|by apply Pos.lt_le_incl]).
      clear Er El. split; [exact Hd|]. split; [lia|]. subst e. change (2 ^ (- -24)) with 16777216. lia.
    + split; [exact Hd|]. split; [lia|]. assert (Hp : 2 ^ 25 <= 2 ^ (- e)) by (apply Z.pow_le_mono_r; lia). lia.
Qed.

Lemma from_u16 w : 0 < w <= U16_MAX -> exists m e, f32_from_u16 w = S754_finite false m e /\ -23 <= e < 0 /\ Z.pos m = w * 2 ^ (- e).
Proof.
  unfold U16_MAX. intros Hw. destruct w as [|w|w]; [lia| |lia]. unfold f32_from_u16. cbn [binary_normalize]. unfold binary_round.
  pose proof (digits2_log2 w) as Hd. assert (Hl : 0 <= Z.log2 (Z.pos w) <= 15) by (split; [apply Z.log2_nonneg|]; change 15 with (Z.log2 (2 ^ 16 - 1)); apply Z.log2_le_mono; lia).
  assert (Hf : fexp 24 128 (Z.pos (digits2_pos w) + 0) = Z.pos (digits2_pos w) - 24) by (unfold fexp, emin; lia).
  unfold shl_align. rewrite Hf. destruct (Z.pos (digits2_pos w) - 24 - 0) as [|d|d] eqn:Ed; [lia|lia|].
  assert (Hm : Z.pos (Pos.iter xO w d) = Z.pos w * 2 ^ Z.pos d).
  { clear. induction d as [|d IH] using Pos.peano_ind; [cbn; lia|]. rewrite Pos.iter_succ, Pos2Z.inj_succ, Z.pow_succ_r by lia. change (2 * Z.pos (Pos.iter xO w d) = Z.pos w * (2 * 2 ^ Z.pos d)). lia. }
  exists (Pos.iter xO w d), (Z.pos (digits2_pos w) - 24). split; [|split; [lia|]].
  - apply round_aux_exact; [|lia]. rewrite digits2_log2, Hm, Z.log2_mul_pow2 by lia. lia.
  - rewrite Hm. do 2 f_equal. lia.
Qed.

Lemma digits_mul a b : Z.pos (digits2_pos (a * b)) <= Z.pos (digits2_pos a) + Z.pos (digits2_pos b).
Proof. rewrite !digits2_log2, Pos2Z.inj_mul. pose proof (Z.log2_mul_above (Z.pos a) (Z.pos b)). lia. Qed.

(** Comparing [m * 2^e] with an integer at a smaller exponent. *)
Lemma shiftl_le m w f e : f <= e -> f <= 0 -> m * 2 ^ (e - f) <= w * 2 ^ (- f) -> Z.shiftl m e <= w.
Proof.
  intros Hf Hn H. destruct (Z.le_gt_cases 0 e) as [He|He].
  - rewrite Z.shiftl_mul_pow2 by done. apply (Z.mul_le_mono_pos_r _ _ (2 ^ (- f))); [by apply Z.pow_pos_nonneg; lia|].
    rewrite <- Z.mul_assoc, <- Z.pow_add_r by lia. by replace (e + - f) with (e - f) by lia.
  - rewrite Z.shiftl_div_pow2 by lia. apply Z.div_le_upper_bound; [apply Z.pow_pos_nonneg; lia|].
    apply (Z.mul_le_mono_pos_r _ _ (2 ^ (e - f))); [by apply Z.pow_pos_nonneg; lia|].
    replace (- f) with (- e + (e - f)) in H by lia. rewrite Z.pow_add_r in H by lia. lia.
Qed.

Lemma portion_bound w ratio : 0 <= w <= U16_MAX -> ratio_ok ratio -> 0 <= portion w ratio <= w.
Proof.
  intros Hw Hr. unfold portion, f32_mul. destruct (decide (w = 0)) as [->|Hn].
  - destruct Hr as [->|(m & e & -> & _)]; cbn; lia.
  - destruct (from_u16 w ltac:(lia)) as (mx & ex & -> & Hex & Hmx). destruct Hr as [->|(m & e & -> & Hd & He & Hm)]; [cbn; lia|].
    cbn [SFmul xorb]. pose proof (digits_mul mx m) as Hp. rewrite Hd in Hp. pose proof (digits2_log2 mx) as Hdx.
    assert (Hx : Z.pos (digits2_pos mx) <= 39).
    { rewrite Hdx. assert (Z.log2 (Z.pos mx) < 39); [|lia]. apply Z.log2_lt_pow2; [lia|]. rewrite Hmx. unfold U16_MAX in Hw.
      assert (2 ^ (- ex) <= 2 ^ 23) by (apply Z.pow_le_mono_r; lia). change (2 ^ 39) with (2 ^ 16 * 2 ^ 23). nia. }
    destruct (binary_round_aux _ _ _ _ _ _) as [|s| |[] m' e'] eqn:E; cbn [f32_as_u16]; try lia.
    + exfalso. revert E. apply round_aux_finite; lia.
    + apply round_aux_bound in E as [He' Hb].
      assert (Hk : Z.pos (mx * m) + 2 ^ last_place 24 128 (mx * m) (ex + e) <= Z.pos mx * 2 ^ (- e) \/ last_place 24 128 (mx * m) (ex + e) = 0 /\ Z.pos (mx * m) <= Z.pos mx * 2 ^ (- e)).
      { rewrite Pos2Z.inj_mul. destruct (decide (last_place 24 128 (mx * m) (ex + e) = 0)) as [Hz|Hz]; [right; split; [done|nia]|left].
        assert (Hl : last_place 24 128 (mx * m) (ex + e) <= Z.log2 (Z.pos mx) + 1) by (unfold last_place, fexp, emin; lia).
        assert (2 ^ last_place 24 128 (mx * m) (ex + e) <= 2 * Z.pos mx); [|nia].
        etrans; [apply Z.pow_le_mono_r; [lia|exact Hl]|]. pose proof (Z.log2_spec (Z.pos mx) ltac:(lia)). rewrite Z.pow_add_r by (try apply Z.log2_nonneg; lia). lia. }
      assert (Hv : Z.pos m' * 2 ^ (e' - (ex + e)) <= w * 2 ^ (- (ex + e))).
      { replace (w * 2 ^ (- (ex + e))) with (Z.pos mx * 2 ^ (- e)) by (rewrite Hmx, <- Z.mul_assoc, <- Z.pow_add_r by lia; do 2 f_equal; lia).
        destruct (Z.eqb_spec (last_place 24 128 (mx * m) (ex + e)) 0) as [Hz|Hz]; [destruct Hk as [Hk|[_ Hk]]; [pose proof (Z.pow_pos_nonneg 2 (last_place 24 128 (mx * m) (ex + e)) ltac:(lia) ltac:(lia)); lia|lia]|].
        destruct Hk as [Hk|[? _]]; [lia|done]. }
      split; [apply Z.min_glb; [apply Z.shiftl_nonneg; lia|unfold U16_MAX; lia]|]. etrans; [apply Z.le_min_l|]. apply (shiftl_le _ _ (ex + e)); [exact He'|lia|exact Hv].
Qed.

(** ** The screen is divided *)

Fixpoint ratios_ok (l : Layout) : Prop :=
  match l with
  | Single _ => True
  | HSplit a b r | VSplit a b r => ratio_ok r /\ ratios_ok a /\ ratios_ok b
  end.

Definition on_screen (r : Rect) : Prop :=
  0 <= rc_x r /\ 0 <= rc_width r /\ rc_x r + rc_width r <= U16_MAX /\ 0 <= rc_y r /\ 0 <= rc_height r /\ rc_y r + rc_height r <= U16_MAX.

Definition in_rect (x y : Z) (r : Rect) : bool :=
  (rc_x r <=? x) && (x <? rc_x r + rc_width r) && (rc_y r <=? y) && (y <? rc_y r + rc_height r).

(** The panels that a cell belongs to. *)
Definition panels_at (x y : Z) (panels : list (ViewId * Rect)) : nat := length (List.filter (fun p => in_rect x y p.2) panels).

Lemma panels_at_app x y a b : panels_at x y (a ++ b) = (panels_at x y a + panels_at x y b)%nat.
Proof. unfold panels_at. by rewrite List.filter_app, length_app. Qed.

Section Tiles.
Context (Rect_new : Z -> Z -> Z -> Z -> Rect)
  (Rect_new_fits : forall x y w h, on_screen (mkRect x y w h) -> Rect_new x y w h = mkRect x y w h).

Lemma u16_wrap_small z : 0 <= z <= U16_MAX -> u16_wrap z = z.
Proof. unfold U16_MAX, u16_wrap. intros. apply Z.mod_small. lia. Qed.

Lemma resolve_tiles l : forall area, ratios_ok l -> on_screen area ->
  (resolve Rect_new l area).*1 = view_ids l /\
  forall x y, panels_at x y (resolve Rect_new l area) = if in_rect x y area then 1%nat else 0%nat.
Proof.
  induction l as [id|a IHa b IHb r|a IHa b IHb r]; intros area Hl Ha; cbn [resolve view_ids].
  - split; [done|]. intros x y. unfold panels_at. cbn. by destruct (in_rect x y area).
  - destruct Hl as (Hr & Hla & Hlb). destruct area as [x0 y0 w h]. unfold on_screen in Ha. cbn [rc_x rc_y rc_width rc_height] in *.
    pose proof (portion_bound w r ltac:(lia) Hr) as Hp. set (k := portion w r) in *. clearbody k. unfold sat_sub. rewrite u16_wrap_small, Z.max_r by lia.
    rewrite !Rect_new_fits by (unfold on_screen; cbn; lia).
    destruct (IHa (mkRect x0 y0 k h) Hla ltac:(unfold on_screen; cbn; lia)) as [Ia1 Ia2], (IHb (mkRect (x0 + k) y0 (w - k) h) Hlb ltac:(unfold on_screen; cbn; lia)) as [Ib1 Ib2].
    split; [by rewrite fmap_app, Ia1, Ib1|]. intros x y. rewrite panels_at_app, Ia2, Ib2. unfold in_rect. cbn [rc_x rc_y rc_width rc_height].
    destruct (Z.leb_spec y0 y), (Z.ltb_spec y (y0 + h)), (Z.leb_spec x0 x), (Z.ltb_spec x (x0 + k)), (Z.leb_spec (x0 + k) x), (Z.ltb_spec x (x0 + k + (w - k))), (Z.ltb_spec x (x0 + w)); cbn; lia.
  - destruct Hl as (Hr & Hla & Hlb). destruct area as [x0 y0 w h]. unfold on_screen in Ha. cbn [rc_x rc_y rc_width rc_height] in *.
    pose proof (portion_bound h r ltac:(lia) Hr) as Hp. set (k := portion h r) in *. clearbody k. unfold sat_sub. rewrite u16_wrap_small, Z.max_r by lia.
    rewrite !Rect_new_fits by (unfold on_screen; cbn; lia).
    destruct (IHa (mkRect x0 y0 w k) Hla ltac:(unfold on_screen; cbn; lia)) as [Ia1 Ia2], (IHb (mkRect x0 (y0 + k) w (h - k)) Hlb ltac:(unfold on_screen; cbn; lia)) as [Ib1 Ib2].
    split; [by rewrite fmap_app, Ia1, Ib1|]. intros x y. rewrite panels_at_app, Ia2, Ib2. unfold in_rect. cbn [rc_x rc_y rc_width rc_height].
    destruct (Z.leb_spec x0 x), (Z.ltb_spec x (x0 + w)), (Z.leb_spec y0 y), (Z.ltb_spec y (y0 + k)), (Z.leb_spec (y0 + k) y), (Z.ltb_spec y (y0 + k + (h - k))), (Z.ltb_spec y (y0 + h)); cbn; lia.
Qed.

Lemma split_ok a b ratio : ratios_ok a -> ratios_ok b -> valid_f32 ratio -> ratios_ok (hsplit a b ratio) /\ ratios_ok (vsplit a b ratio).
Proof. intros Ha Hb Hr. pose proof (clamp_ratio_ok ratio Hr). by repeat split. Qed.

(** C39: a layout made with [hsplit] and [vsplit] from any ratios, NaN and the
    infinities included, divides the screen: the panels are those of the layout,
    in order, and every cell of the area belongs to exactly one of them, no cell
    outside to any, whatever the rounding of the [f32] products; the default
    layout is one. *)
Theorem layout_partitions (l : Layout) (area : Rect) (Hl : ratios_ok l) (Ha : on_screen area) :
  (resolve Rect_new l area).*1 = view_ids l /\
  (forall x y, panels_at x y (resolve Rect_new l area) = if in_rect x y area then 1%nat else 0%nat) /\
  (forall l' ratio, ratios_ok l' -> valid_f32 ratio -> ratios_ok (hsplit l l' ratio) /\ ratios_ok (vsplit l l' ratio)) /\
  ratios_ok default_layout.
Proof.
  destruct (resolve_tiles l area Hl Ha) as [H1 H2]. split_and!; [done|done| |].
  - intros l' ratio Hl' Hr. by apply split_ok.
  - repeat apply split_ok; done.
Qed.

End Tiles.

Lemma layout_partitions_witness :
  resolve mkRect default_layout (mkRect 0 0 80 24) = [(0, mkRect 0 0 80 21); (1, mkRect 0 21 80 1); (2, mkRect 0 22 80 2)] /\
  panels_at 79 23 (resolve mkRect default_layout (mkRect 0 0 80 24)) = 1%nat.
Proof.
  destruct (layout_partitions mkRect (fun _ _ _ _ _ => eq_refl) (single 0) (mkRect 0 0 80 24)) as (_ & _ & _ & Hd); [exact I|vm_compute; intuition discriminate|].
  destruct (layout_partitions mkRect (fun _ _ _ _ _ => eq_refl) default_layout (mkRect 0 0 80 24)) as (_ & H & _); [exact Hd|vm_compute; intuition discriminate|].
  split; [vm_compute; reflexivity|]. rewrite H. reflexivity.
Defined.
