(* ===== verification/TuiPanels.v ===== *)
(** * TuiPanels: what the terminal client puts on the screen

    [components/] and the drawing of [app.rs] as the contents handed to the
    terminal library, rectangle by rectangle; [render/capability.rs], the
    detection of what the terminal can do, over the environment's variables; and
    the life cycle of the terminal's modes in [tui.rs]. *)

From Stdlib Require Import ZArith Lia Ascii String SpecFloat.
From stdpp Require Import base gmap strings list.
From S2P Require Import Prelude Float Protocol Messages TuiCache Tui TuiSpec TuiLayout.
Open Scope Z_scope.

(** ** Contents

    A text is a Rust string, or the code points the user typed. *)
Inductive Text := Str (s : string) | Codes (before : string) (l : list Z).

Inductive Color := Cyan | White | Black | DarkGray.
Record Style := mkStyle { st_fg : option Color; st_bg : option Color }.
Definition plain : Style := mkStyle None None.
Definition fg (c : Color) : Style := mkStyle (Some c) None.

Definition Span : Type := Text * Style.

Inductive Panel :=
| Paragraph (title : option string) (style : Style) (lines : list (list Span))
| Rows (title : string) (items : list string) (highlight : Style) (selected : Z)
| Table (title : string) (header : list Span) (rows : list (list Span)).

Definition raw (s : string) : list Span := [(Str s, plain)].

(** [{:>width}] of an ASCII text. *)
Definition pad_left (width : nat) (s : string) : string :=
  text (repeat " "%char (width - List.length (chars s)) ++ chars s).

(** [Debug] *)
Definition debug_mode (m : Mode) : string :=
  match m with Mode_Normal => "Normal" | Mode_Command => "Command" | Mode_Inspect => "Inspect" | Mode_Intervene => "Intervene" end.
Definition debug_status (s : Status) : string :=
  match s with
  | Status_Uninitialized => "Uninitialized" | Status_Initialized => "Initialized" | Status_Attaching => "Attaching"
  | Status_Stopped => "Stopped" | Status_Stepping => "Stepping" | Status_Inspecting => "Inspecting" | Status_Modifying => "Modifying"
  | Status_Replaying => "Replaying" | Status_Detaching => "Detaching"
  end.
Definition debug_list (l : list Z) : string := ("[" +:+ String.concat ", " (to_string <$> l) +:+ "]")%string.

(** ** Panels *)

Definition hint (title msg : string) : Panel := Paragraph (Some title) (fg DarkGray) [raw msg].

Definition draw_layer_stack (s : UiState) : Panel :=
  match caps ← sn_capabilities (ui_session s); cap_num_layers caps with
  | Some n =>
      if 0 <? n
      then Rows "Layers" ((fun i => "Layer " +:+ pad_left 3 (to_string i))%string <$> seqZ 0 n) (mkStyle (Some Black) (Some Cyan))
             (Z.min (cs_layer (ui_cursor s)) (n - 1))
      else hint "Layers" "(awaiting capabilities — attach a model to see layers)"
  | None => hint "Layers" "(awaiting capabilities — attach a model to see layers)"
  end.

Definition draw_status_bar (s : UiState) : Panel :=
  let cursor := ui_cursor s in
  let pos := ("L" +:+ to_string (cs_layer cursor) +:+ " T" +:+ to_string (cs_token_position cursor) +:+ " " +:+ cs_component cursor)%string in
  let pending := if 0 <? ui_pending_requests s then (" [" +:+ to_string (ui_pending_requests s) +:+ "]")%string else ""%string in
  Paragraph None (mkStyle (Some White) (Some DarkGray))
    [raw (" " +:+ debug_mode (ui_mode s) +:+ " | " +:+ debug_status (sn_status (ui_session s)) +:+ " | " +:+ pos +:+ pending)].

Definition draw_command_line (s : UiState) : Panel :=
  Paragraph None plain [[(if decide (ui_mode s = Mode_Command) then Codes ":" (ui_command_buffer s) else Codes "" (ui_status_line s), plain)]].

Definition stat_line (label value : string) : list Span :=
  [(Str (pad_left 10 label +:+ "  "), fg DarkGray); (Str value, fg White)].

Definition summary_lines (key : CacheKey) (summary : TensorSummary) : list (list Span) :=
  let stats := ts_stats summary in
  let f4 := print_fixed 4 in
  [[(Str (snd key), fg Cyan); (Str ("  @ tick " +:+ to_string (fst key)), fg DarkGray)];
   raw "";
   stat_line "shape" (debug_list (ts_shape summary));
   stat_line "dtype" (debug_dtype (ts_dtype summary));
   stat_line "device" (ts_device summary);
   raw "";
   stat_line "mean" (f4 (tst_mean stats));
   stat_line "std" (f4 (tst_std stats));
   stat_line "min..max" (f4 (tst_min stats) +:+ " .. " +:+ f4 (tst_max stats));
   stat_line "abs_max" (f4 (tst_abs_max stats));
   stat_line "l2_norm" (f4 (tst_l2_norm stats));
   stat_line "sparsity" (print_fixed 2 (f64_mul (tst_sparsity stats) (f64_of_Z 100)) +:+ "%")]%string.

Definition draw_tensor_detail (s : UiState) : Panel :=
  match cache_key_for_cursor s with
  | None => hint "Tensor" "(awaiting tick position — step the model)"
  | Some key =>
      match peek key (ui_tensor_cache s) with
      | Some summary => Paragraph (Some "Tensor"%string) plain (summary_lines key summary)
      | None => hint "Tensor" "(no tensor captured at cursor — fire a probe and step)"
      end
  end.

Definition probe_row (row : string * Z * option Z * string) : list Span :=
  let '(id, fires, last, point) := row in
  match last with
  | Some tick => [(Str id, fg Cyan); (Str (to_string fires), fg White); (Str ("t" +:+ to_string tick), fg DarkGray); (Str point, fg White)]
  | None => [(Str id, fg DarkGray); (Str "0", fg DarkGray); (Str "—", fg DarkGray); (Str point, fg DarkGray)]
  end.

Definition draw_probe_watch (s : UiState) : Panel :=
  if bool_decide (ui_probe_stats s = ∅) && bool_decide (sn_defined_probes (ui_session s) = [])
  then hint "Probes" "(no probes defined — register one with rocket/probe)"
  else Table "Probes" [(Str "probe", fg DarkGray); (Str "fires", fg DarkGray); (Str "last", fg DarkGray); (Str "point", fg DarkGray)]
         (probe_row <$> build_rows s).

Definition draw_placeholder (id : ViewId) : Panel := hint ("View " +:+ to_string id) "(awaiting data)".

(** ** A frame *)

Definition draw_view (s : UiState) (id : ViewId) : Panel :=
  match vs_kind <$> List.find (fun v => bool_decide (vs_id v = id)) (ui_views s) with
  | Some View_LayerStack => draw_layer_stack s
  | Some View_TensorDetail => draw_tensor_detail s
  | Some View_ProbeWatch => draw_probe_watch s
  | Some View_StatusBar => draw_status_bar s
  | Some View_CommandLine => draw_command_line s
  | _ => draw_placeholder id
  end.

Section Draw.
Context (Rect_new : Z -> Z -> Z -> Z -> Rect).

Definition draw (layout : Layout) (s : UiState) (area : Rect) : list (Rect * Panel) :=
  (fun '(id, rect) => (rect, draw_view s id)) <$> resolve Rect_new layout area.

End Draw.

(** ** Terminal capabilities

    [env]: [std::env::var]. *)
Inductive GraphicsTier := HalfBlock | Sixel | Kitty.
Inductive ColorDepth := Basic | Color256 | TrueColor.
Record TerminalCapabilities := mkTerminalCapabilities { tc_graphics : GraphicsTier; tc_color : ColorDepth; tc_width : Z; tc_height : Z }.

Definition detect_color_depth (env : string -> option string) : ColorDepth :=
  if bool_decide (env "COLORTERM" = Some "truecolor" \/ env "COLORTERM" = Some "24bit")%string then TrueColor
  else match env "TERM"%string with
       | Some term => if contains_chars (chars "256color") (chars term) then Color256 else Basic
       | None => Basic
       end.

Definition detect_graphics_tier (env : string -> option string) : GraphicsTier :=
  if bool_decide (env "TERM_PROGRAM" = Some "WezTerm" \/ env "TERM" = Some "xterm-kitty" \/ is_Some (env "KITTY_WINDOW_ID"))%string then Kitty
  else if bool_decide (env "TERM_PROGRAM" = Some "mlterm" \/ is_Some (env "SIXEL_SUPPORT"))%string then Sixel
  else HalfBlock.

Definition detect (env : string -> option string) (size : option (Z * Z)) : TerminalCapabilities :=
  let (width, height) := default (80, 24) size in
  mkTerminalCapabilities (detect_graphics_tier env) (detect_color_depth env) width height.

(** ** The terminal's modes

    What the client switches on and must switch off again.  Each call into the
    terminal succeeds or fails. *)
Record Terminal := mkTerminal { tm_raw : bool; tm_alternate : bool; tm_cursor : bool }.
Definition at_rest : Terminal := mkTerminal false false true.

Record Tui := mkTui { tui_terminal : Terminal; tui_restored : bool }.

(** [enable_raw_mode], [EnterAlternateScreen], [Terminal::new]; the state the
    terminal is left in when one fails comes with the failure. *)
Definition Tui_new (raw_ok alternate_ok terminal_ok : bool) (t : Terminal) : result Terminal Tui :=
  if negb raw_ok then Err t
  else let t := mkTerminal true (tm_alternate t) (tm_cursor t) in
  if negb alternate_ok then Err t
  else let t := mkTerminal (tm_raw t) true (tm_cursor t) in
  if negb terminal_ok then Err t else Ok (mkTui t false).

(** A frame hides the cursor. *)
Definition Tui_draw (u : Tui) : Tui := mkTui (mkTerminal (tm_raw (tui_terminal u)) (tm_alternate (tui_terminal u)) false) (tui_restored u).

(** [disable_raw_mode], [LeaveAlternateScreen], [show_cursor] *)
Definition restore (raw_ok alternate_ok cursor_ok : bool) (u : Tui) : bool * Tui :=
  if tui_restored u then (true, u)
  else
    let t := tui_terminal u in
    if negb raw_ok then (false, u)
    else let t := mkTerminal false (tm_alternate t) (tm_cursor t) in
    if negb alternate_ok then (false, mkTui t false)
    else let t := mkTerminal (tm_raw t) false (tm_cursor t) in
    if negb cursor_ok then (false, mkTui t false)
    else (true, mkTui (mkTerminal (tm_raw t) (tm_alternate t) true) true).

(** [Drop]: one more attempt. *)
Definition drop_tui (raw_ok alternate_ok cursor_ok : bool) (u : Tui) : Terminal := tui_terminal (restore raw_ok alternate_ok cursor_ok u).2.

(** ** Properties *)

Section Frame.
Context (Rect_new : Z -> Z -> Z -> Z -> Rect)
  (Rect_new_fits : forall x y w h, on_screen (mkRect x y w h) -> Rect_new x y w h = mkRect x y w h).

Lemma draw_panels layout s area : (draw Rect_new layout s area).*2 = draw_view s <$> (resolve Rect_new layout area).*1.
Proof. unfold draw. induction (resolve Rect_new layout area) as [|[id r] l IH]; [done|]. cbn. by rewrite IH. Qed.

Lemma draw_rects layout s area : (draw Rect_new layout s area).*1 = (resolve Rect_new layout area).*2.
Proof. unfold draw. induction (resolve Rect_new layout area) as [|[id r] l IH]; [done|]. cbn. by rewrite IH. Qed.

Lemma rects_at x y (panels : list (ViewId * Rect)) : length (List.filter (in_rect x y) panels.*2) = panels_at x y panels.
Proof. unfold panels_at. induction panels as [|[id r] l IH]; [done|]. cbn. destruct (in_rect x y r); cbn; by rewrite IH. Qed.

(** Whatever the user and the daemon have done, a frame consists of the layer
    stack, the status bar and the command line of the state the application is
    in, each drawn once, and every cell of the screen belongs to exactly one of
    the three rectangles.  The other panels are never drawn: no action adds a
    view. *)
Theorem frame_shows_the_state (actions : list Action) (area : Rect) (Ha : on_screen area) :
  let s := (run actions App_new).2 in
  let frame := draw Rect_new default_layout s area in
  frame.*2 = [draw_layer_stack s; draw_status_bar s; draw_command_line s] /\
  (forall x y, length (List.filter (in_rect x y) frame.*1) = if in_rect x y area then 1%nat else 0%nat).
Proof.
  cbv zeta. set (s := (run actions App_new).2).
  assert (Hd : ratios_ok default_layout) by (repeat apply split_ok; done).
  destruct (resolve_tiles Rect_new Rect_new_fits default_layout area Hd Ha) as [Hids Hcells].
  assert (Hv : ui_views s = default_views) by apply (app_run_ok actions App_new App_new_ok).
  split; [|intros x y; by rewrite draw_rects, rects_at].
  rewrite draw_panels, Hids. cbn [view_ids default_layout vsplit single app fmap list_fmap]. unfold draw_view. by rewrite Hv.
Qed.

End Frame.

(** Once made, the client gives the terminal back as it found it, however many
    attempts fail before: the last one restores what the others left, and a
    terminal that is restored is not touched again. *)
Theorem terminal_is_given_back (draws : nat) (u : Tui) (Hu : Tui_new true true true at_rest = Ok u) (attempts : list (bool * bool * bool)) :
  let drawn := Nat.iter draws Tui_draw u in
  let tried := foldl (fun u '(r, a, c) => (restore r a c u).2) drawn attempts in
  drop_tui true true true tried = at_rest /\
  (tui_restored tried = true <-> existsb (fun '(r, a, c) => r && a && c) attempts = true) /\
  (tui_restored tried = true -> forall r a c, drop_tui r a c tried = at_rest).
Proof.
  injection Hu as <-. cbv zeta.
  assert (H : forall attempts u, (tui_restored u = true -> tui_terminal u = at_rest) ->
    let tried := foldl (fun u '(r, a, c) => (restore r a c u).2) u attempts in
    (tui_restored tried = true -> tui_terminal tried = at_rest) /\
    tui_restored tried = tui_restored u || existsb (fun '(r, a, c) => r && a && c) attempts).
  { clear attempts. induction attempts as [|[[r a] c] attempts IH]; intros u Hu; cbn [foldl existsb]; [split; [done|by rewrite orb_false_r]|].
    assert (Hr : (tui_restored (restore r a c u).2 = true -> tui_terminal (restore r a c u).2 = at_rest) /\
      tui_restored (restore r a c u).2 = tui_restored u || (r && a && c)).
    { unfold restore. destruct (tui_restored u) eqn:E; [cbn; rewrite E; by split|]. by destruct r, a, c; cbn; rewrite ?E. }
    destruct Hr as [H1 H2]. destruct (IH _ H1) as [H3 H4]. split; [done|]. by rewrite H4, H2, orb_assoc. }
  assert (Hd : tui_restored (Nat.iter draws Tui_draw (mkTui (mkTerminal true true true) false)) = false).
  { induction draws as [|n IHn]; [done|]. cbn. exact IHn. }
  destruct (H attempts (Nat.iter draws Tui_draw (mkTui (mkTerminal true true true) false))) as [H1 H2]; [by rewrite Hd|].
  rewrite Hd in H2. cbn [orb] in H2. set (tried := foldl _ _ attempts) in *. clearbody tried. split_and!; [|by rewrite <- H2|].
  - unfold drop_tui, restore. destruct (tui_restored tried) eqn:E; [by apply H1|done].
  - intros Hr r a c. unfold drop_tui, restore. rewrite Hr. by apply H1.
Qed.

(** When the alternate screen cannot be entered there is no [Tui] to drop, and
    the terminal stays in raw mode. *)
Example failed_start_keeps_raw_mode : Tui_new true false true at_rest = Err (mkTerminal true false true).
Proof. reflexivity. Qed.

(** A terminal that offers both gets the kitty protocol. *)
Example kitty_over_sixel : detect_graphics_tier (fun v => if bool_decide (v = "KITTY_WINDOW_ID" \/ v = "SIXEL_SUPPORT")%string then Some "1"%string else None) = Kitty.
Proof. reflexivity. Qed.

Lemma frame_shows_the_state_witness :
  (draw mkRect default_layout (run [Act_Terminal (Ev_Key (KC_Char 58) false)] App_new).2 (mkRect 0 0 80 24)).*1 =
    [mkRect 0 0 80 21; mkRect 0 21 80 1; mkRect 0 22 80 2] /\
  (draw mkRect default_layout (run [Act_Terminal (Ev_Key (KC_Char 58) false)] App_new).2 (mkRect 0 0 80 24)).*2 =
    [hint "Layers" "(awaiting capabilities — attach a model to see layers)";
     Paragraph None (mkStyle (Some White) (Some DarkGray)) [raw " Command | Uninitialized | L0 T0 "];
     Paragraph None plain [[(Codes ":" [], plain)]]].
Proof.
  split; [vm_compute; reflexivity|].
  destruct (frame_shows_the_state mkRect (fun _ _ _ _ _ => eq_refl) [Act_Terminal (Ev_Key (KC_Char 58) false)] (mkRect 0 0 80 24)
    ltac:(vm_compute; intuition discriminate)) as [H _].
  rewrite H. vm_compute. reflexivity.
Defined.

Lemma terminal_is_given_back_witness :
  drop_tui true true true (restore true false true (mkTui (mkTerminal true true true) false)).2 = at_rest.
Proof. exact (proj1 (terminal_is_given_back 0 (mkTui (mkTerminal true true true) false) eq_refl [(true, false, true)])). Defined.
