(* ===== verification/TuiFraming.v ===== *)
(** * TuiFraming: the message framing of the terminal client

    [crates/rocket-surgeon-tui/src/client/connection.rs], the reader and the
    frame that [request] writes, against the framing of the transport crate
    ([Framing]) that the daemon uses.  The client's reader bounds the number and
    the length of the headers, and has a larger limit for the body. *)

From Stdlib Require Import ZArith Lia Ascii String.
From stdpp Require Import base strings list sets.
From S2P Require Import Prelude Framing.
Open Scope Z_scope.

Definition MAX_MESSAGE_SIZE : Z := 64 * 1024 * 1024.
Definition MAX_HEADER_COUNT : nat := 16.
Definition MAX_HEADER_LINE_LEN : Z := 1024.

Inductive ClientError :=
| CE_Closed
| CE_Io (kind : IoErrorKind)
| CE_Json
| CE_MissingContentLength
| CE_InvalidContentLength
| CE_Cancelled
| CE_Rpc (code : Z) (message : string)
| CE_MessageTooLarge
| CE_TooManyHeaders
| CE_HeaderLineTooLong.

(** The header loop; [allowed] more headers are allowed. *)
Fixpoint client_headers (allowed : nat) (content_length : option Z) (input : list ascii)
  : result ClientError (option Z) * list ascii :=
  match read_line input with
  | (Err k, rest) => (Err (CE_Io k), rest)
  | (Ok line, rest) =>
      if (length line =? 0)%nat then (Err CE_Closed, rest)
      else if MAX_HEADER_LINE_LEN <? Z.of_nat (length line) then (Err CE_HeaderLineTooLong, rest)
      else
        let trimmed := drop_while_end is_eol line in
        if (length trimmed =? 0)%nat then (Ok content_length, rest)
        else match allowed with
             | O => (Err CE_TooManyHeaders, rest)
             | S allowed =>
                 match split_once ":" trimmed with
                 | Some (key, value) =>
                     if eq_ignore_ascii_case key content_length_key then
                       match parse_trimmed_usize value with
                       | Some n => client_headers allowed (Some n) rest
                       | None => (Err CE_InvalidContentLength, rest)
                       end
                     else client_headers allowed content_length rest
                 | None => client_headers allowed content_length rest
                 end
             end
  end.

Definition read_content_length_message (input : list ascii) : result ClientError string * list ascii :=
  match client_headers MAX_HEADER_COUNT None input with
  | (Err e, rest) => (Err e, rest)
  | (Ok None, rest) => (Err CE_MissingContentLength, rest)
  | (Ok (Some len), rest) =>
      if MAX_MESSAGE_SIZE <? len then (Err CE_MessageTooLarge, rest)
      else match read_exact len rest with
           | (Err k, rest) => (Err (CE_Io k), rest)
           | (Ok body, rest) => if utf8_valid body then (Ok (text body), rest) else (Err (CE_Io InvalidData), rest)
           end
  end.

(** The bytes [request] queues for a body. *)
Definition client_frame (body : string) : list ascii :=
  chars "Content-Length: " ++ print_dec (Z.of_nat (length (chars body))) ++ [CR; LF; CR; LF] ++ chars body.

(** ** The client reads no more than the daemon *)

(** Where the client's header loop succeeds the daemon's gives the same, with as
    many iterations. *)
Lemma client_headers_agree allowed : forall cl input r rest fuel,
  client_headers allowed cl input = (Ok r, rest) -> (allowed < fuel)%nat -> read_headers fuel cl input = Some (Ok r, rest).
Proof.
  induction allowed as [|allowed IH]; intros cl input r rest fuel; (destruct fuel as [|fuel]; [lia|]); cbn [client_headers read_headers];
    destruct (read_line input) as [[line|k] rest'] eqn:E; try done; destruct (length line =? 0)%nat; try done; destruct (_ <? _); try done;
    destruct (length _ =? 0)%nat; try done; try congruence.
  intros H Hf. destruct (split_once ":" _) as [[key value]|]; [|apply IH; [done|lia]].
  destruct (eq_ignore_ascii_case _ _); [|apply IH; [done|lia]]. destruct (parse_trimmed_usize value); [|done]. apply IH; [done|lia].
Qed.

(** Fewer iterations are needed than the input has bytes. *)
Lemma read_headers_fuel fuel : forall fuel' cl input r,
  read_headers fuel cl input = Some r -> (length input < fuel')%nat -> read_headers fuel' cl input = Some r.
Proof.
  induction fuel as [|fuel IH]; intros [|fuel'] cl input r; [done|done|lia|]. cbn [read_headers].
  destruct (read_line input) as [[line|k] rest] eqn:E; [|done]. apply read_line_spec in E as (line' & -> & <-).
  destruct line as [|c line]; [done|]. cbn [length Nat.eqb]; cbv iota. intros H Hf.
  assert (length rest < fuel')%nat by (rewrite length_app in Hf; simpl in Hf; lia).
  destruct (length _ =? 0)%nat; [done|]. destruct (split_once ":" _) as [[key value]|]; [|by apply IH].
  destruct (eq_ignore_ascii_case _ _); [|by apply IH]. destruct (parse_trimmed_usize value); [|done]. by apply IH.
Qed.

Lemma client_read_ok input body rest :
  read_content_length_message input = (Ok body, rest) ->
  exists len rest0, client_headers MAX_HEADER_COUNT None input = (Ok (Some len), rest0) /\ len <= MAX_MESSAGE_SIZE /\
    read_exact len rest0 = (Ok (chars body), rest) /\ utf8_valid (chars body) = true.
Proof.
  unfold read_content_length_message. destruct (client_headers _ None input) as [[[len|]|e] rest0]; try done.
  destruct (Z.ltb_spec MAX_MESSAGE_SIZE len); [done|]. destruct (read_exact len rest0) as [[b|k] rest'] eqn:Er; [|done].
  destruct (utf8_valid b) eqn:Hu; [|done]. intros [= <- <-]. exists len, rest0. by rewrite chars_text.
Qed.

(** C37: the two readers of the protocol agree: whatever bytes arrive, a message
    that the client accepts is, up to the transport crate's limit of 16 MiB, the
    message that crate's reader gives on the same bytes, and both resume at the
    same place.  Only the client refuses more. *)
Theorem client_reader_agrees (input rest : list ascii) (body : string)
  (H : read_content_length_message input = (Ok body, rest)) :
  (exists headers, input = headers ++ chars body ++ rest) /\ utf8_valid (chars body) = true /\
  (exists n, read_headers (S (length input)) None input = Some (Ok (Some n), chars body ++ rest) /\
    read_message input = if MAX_MESSAGE_BYTES <? n then Some (Err (MessageTooLarge n), chars body ++ rest) else Some (Ok body, rest)).
Proof.
  apply client_read_ok in H as (len & rest0 & Hh & Hl & Hr & Hu).
  pose proof (client_headers_agree _ _ _ _ _ (S MAX_HEADER_COUNT) Hh ltac:(lia)) as Hd.
  apply (read_headers_fuel _ (S (length input))) in Hd; [|lia].
  destruct (read_exact_spec _ _ _ _ Hr) as [Hrest _]. destruct (read_headers_suffix _ _ _ _ _ Hd) as [hdr Hin].
  split; [exists hdr; by rewrite <- Hrest|]. split; [done|]. exists len. rewrite <- Hrest. split; [done|].
  unfold read_message. rewrite Hd. destruct (MAX_MESSAGE_BYTES <? len); [done|]. by rewrite Hr, Hu, text_chars.
Qed.

(** ** What either side writes, the other reads *)

Definition client_readable (m : string) : Prop :=
  utf8_valid (chars m) = true /\ Z.of_nat (length (chars m)) <= MAX_MESSAGE_SIZE.

Lemma length_print_dec n : 0 <= n -> (length (print_dec n) <= S (Z.to_nat (Z.log2 n)))%nat.
Proof.
  intros _. unfold print_dec. cut (forall fuel m acc, (length (print_dec_loop fuel m acc) <= fuel + length acc)%nat).
  { intros H. specialize (H (S (Z.to_nat (Z.log2 n))) n []). cbn [length] in H. lia. }
  induction fuel as [|fuel IH]; intros m acc; cbn [print_dec_loop]; [lia|]. destruct (m <? 10); [cbn; lia|].
  etrans; [apply IH|]. cbn. lia.
Qed.

Lemma header_line_short n : 0 <= n <= MAX_MESSAGE_SIZE -> Z.of_nat (length (header_line n)) <= MAX_HEADER_LINE_LEN.
Proof.
  intros Hn. pose proof (length_print_dec n ltac:(lia)) as Hl.
  assert (Z.log2 n <= 26) by (change 26 with (Z.log2 MAX_MESSAGE_SIZE); apply Z.log2_le_mono; lia).
  unfold header_line. rewrite !length_app. cbn [length]. change (length (chars "Content-Length: ")) with 16%nat.
  unfold MAX_HEADER_LINE_LEN. lia.
Qed.

Lemma client_headers_written allowed n rest : (0 < allowed)%nat -> 0 <= n <= MAX_MESSAGE_SIZE ->
  client_headers allowed None (header_line n ++ CR :: LF :: rest) = (Ok (Some n), rest).
Proof.
  intros Ha Hn. destruct allowed as [|allowed]; [lia|]. cbn [client_headers]. rewrite header_line_read by lia.
  change (length (header_line n) =? 0)%nat with false; cbv iota.
  destruct (Z.ltb_spec MAX_HEADER_LINE_LEN (Z.of_nat (length (header_line n)))) as [Hl|_]; [pose proof (header_line_short n Hn); lia|].
  rewrite header_line_trim by lia.
  change (length (chars "Content-Length: " ++ print_dec n) =? 0)%nat with false; cbv iota.
  change (split_once ":" (chars "Content-Length: " ++ print_dec n)) with (Some (chars "Content-Length", " "%char :: print_dec n)); cbv iota beta.
  change (eq_ignore_ascii_case (chars "Content-Length") content_length_key) with true; cbv iota.
  rewrite parse_trimmed_print by (unfold MAX_MESSAGE_SIZE in Hn; unfold_int; lia).
  replace (read_line (CR :: LF :: rest)) with (Ok (E:=IoErrorKind) [CR; LF], rest); [by destruct allowed|].
  change (CR :: LF :: rest) with ([CR] ++ LF :: rest). unfold read_line. by rewrite take_line_app by (vm_compute; set_solver).
Qed.

Lemma client_read_written m rest : client_readable m -> read_content_length_message (write_message m ++ rest) = (Ok m, rest).
Proof.
  intros [Hu Hl]. set (n := Z.of_nat (length (chars m))) in *.
  assert (write_message m ++ rest = header_line n ++ CR :: LF :: chars m ++ rest) as -> by (unfold write_message, header_line; by rewrite <- !app_assoc).
  unfold read_content_length_message. rewrite client_headers_written by (unfold MAX_HEADER_COUNT; lia).
  destruct (Z.ltb_spec MAX_MESSAGE_SIZE n); [lia|].
  unfold read_exact. rewrite length_app, Zle_imp_le_bool by lia. unfold n. by rewrite Nat2Z.id, take_app_length, drop_app_length, Hu, text_chars.
Qed.

Fixpoint client_read_all (n : nat) (input : list ascii) : option (list string * list ascii) :=
  match n with
  | O => Some ([], input)
  | S n => match read_content_length_message input with
           | (Ok m, rest) => '(ms, rest) ← client_read_all n rest; Some (m :: ms, rest)
           | (Err _, _) => None
           end
  end.

Lemma client_reads_written msgs rest : Forall client_readable msgs ->
  client_read_all (length msgs) (concat (map write_message msgs) ++ rest) = Some (msgs, rest).
Proof. induction 1 as [|m msgs Hm _ IH]; [done|]. cbn [length map concat client_read_all]. by rewrite <- app_assoc, client_read_written, IH. Qed.

(** The two ends of the connection understand each other: the client reads
    any messages of at most 64 MiB that the transport crate's writer wrote, one
    by one, unchanged and in order, and the daemon's reader any frames of at most
    16 MiB that the client queued. *)
Theorem client_and_daemon_interoperate (msgs : list string) (rest : list ascii) :
  (Forall client_readable msgs -> client_read_all (length msgs) (concat (map write_message msgs) ++ rest) = Some (msgs, rest)) /\
  (Forall sendable msgs -> read_messages (length msgs) (concat (map client_frame msgs) ++ rest) = Some (msgs, rest)).
Proof. split; intros H; [by apply client_reads_written|by apply read_messages_written]. Qed.

Lemma client_reader_agrees_witness :
  read_message (client_frame "{}" ++ [CR]) = Some (Ok "{}"%string, [CR]).
Proof.
  destruct (client_reader_agrees (client_frame "{}" ++ [CR]) [CR] "{}" eq_refl) as (_ & _ & n & Hn & ->).
  vm_compute in Hn. injection Hn as <-. reflexivity.
Defined.

Lemma client_and_daemon_interoperate_witness :
  client_read_all 2 (concat (map write_message ["{}"; "[1]"]%string) ++ [CR]) = Some (["{}"; "[1]"]%string, [CR]) /\
  read_messages 2 (concat (map client_frame ["{}"; "[1]"]%string) ++ [CR]) = Some (["{}"; "[1]"]%string, [CR]).
Proof.
  destruct (client_and_daemon_interoperate ["{}"; "[1]"]%string [CR]) as [H1 H2].
  split; [apply H1|apply H2]; repeat constructor; vm_compute; discriminate.
Defined.
