(* ===== verification/TuiLink.v ===== *)
(** * TuiLink: the terminal client's connection

    [crates/rocket-surgeon-tui/src/client/connection.rs]: concurrent callers of
    [Connection::request], the writer and the reader task, as steps of one
    state.  A caller's [request] has three points at which others can run: after
    its id is taken, after its sender is in the map, and while it waits.  Parsing
    and printing JSON are parameters, and so is what the reader gets from
    [read_content_length_message] ([TuiFraming]): a step of the environment. *)

From Stdlib Require Import ZArith Lia Ascii String.
From stdpp Require Import base gmap strings list fin_maps sets.
From S2P Require Import Prelude Protocol Json Framing TuiFraming.
Open Scope Z_scope.

Definition I64_MAX : Z := 2 ^ 63 - 1.

#[export] Instance RequestId_eq : EqDecision RequestId.
Proof. solve_decision. Defined.

#[export] Instance RequestId_countable : Countable RequestId.
Proof.
  refine (inj_countable' (fun id => match id with RequestId_Number n => inl n | RequestId_String s => inr s end)
    (fun x => match x with inl n => RequestId_Number n | inr s => RequestId_String s end) _). by intros [].
Defined.

Section Connection.
Context `{J : SerdeJson}.
(** [serde_json::to_string] of a request; [from_str::<Response>] and
    [from_str::<RawMessage>] *)
Context (print_request : Request -> string) (parse_response : string -> option Response) (parse_raw : string -> option RawMessage).

(** Where a call of [request] is; the id is kept to the end. *)
Inductive Caller :=
| Numbered (id : RequestId) (frame : list ascii)
| Registered (id : RequestId) (frame : list ascii)
| Waiting (id : RequestId)
| Finished (id : RequestId) (r : result ClientError Response).

Definition caller_id (c : Caller) : RequestId :=
  match c with Numbered id _ | Registered id _ | Waiting id | Finished id _ => id end.

(** [cn_pending] gives the caller that holds the other end of the sender;
    [cn_delivered] what was sent and not looked at. *)
Record Conn := mkConn {
  cn_next_id : Z;
  cn_pending : gmap RequestId nat;
  cn_callers : gmap nat Caller;
  cn_queue : list (list ascii);
  cn_written : list ascii;
  cn_writer : bool;
  cn_reader : bool;
  cn_delivered : gmap nat (result ClientError Response);
  cn_notified : list Notification
}.

Definition Conn_spawn : Conn := mkConn 1 ∅ ∅ [] [] true true ∅ [].

Definition QUEUE_CAPACITY : nat := 64.

Definition set_caller (c : nat) (v : Caller) (s : Conn) : Conn :=
  mkConn (cn_next_id s) (cn_pending s) (<[c := v]> (cn_callers s)) (cn_queue s) (cn_written s) (cn_writer s) (cn_reader s) (cn_delivered s) (cn_notified s).

(** [fetch_add] and the frame. *)
Definition begin_request (c : nat) (method : string) (params : Value) (s : Conn) : option Conn :=
  match cn_callers s !! c with
  | Some _ => None
  | None =>
      let raw := cn_next_id s in
      let id := RequestId_Number (raw mod I64_MAX) in
      let frame := client_frame (print_request (Request_new id method params)) in
      Some (set_caller c (Numbered id frame)
        (mkConn (u64_add raw 1) (cn_pending s) (cn_callers s) (cn_queue s) (cn_written s) (cn_writer s) (cn_reader s) (cn_delivered s) (cn_notified s)))
  end.

(** [insert] into the map; a sender that was there is dropped. *)
Definition register (c : nat) (s : Conn) : option Conn :=
  match cn_callers s !! c with
  | Some (Numbered id frame) =>
      Some (set_caller c (Registered id frame)
        (mkConn (cn_next_id s) (<[id := c]> (cn_pending s)) (cn_callers s) (cn_queue s) (cn_written s) (cn_writer s) (cn_reader s) (cn_delivered s) (cn_notified s)))
  | _ => None
  end.

(** [outgoing_tx.send]: waits for room, fails once the writer has ended. *)
Definition send (c : nat) (s : Conn) : option Conn :=
  match cn_callers s !! c with
  | Some (Registered id frame) =>
      if cn_writer s then
        if (length (cn_queue s) <? QUEUE_CAPACITY)%nat then
          Some (set_caller c (Waiting id)
            (mkConn (cn_next_id s) (cn_pending s) (cn_callers s) (cn_queue s ++ [frame]) (cn_written s) (cn_writer s) (cn_reader s) (cn_delivered s) (cn_notified s)))
        else None
      else Some (set_caller c (Finished id (Err CE_Closed)) s)
  | _ => None
  end.

(** One round of [write_loop]: the frame and a flush, or an error after
    [partial] bytes. *)
Definition write_frame (s : Conn) : option Conn :=
  match cn_writer s, cn_queue s with
  | true, frame :: queue =>
      Some (mkConn (cn_next_id s) (cn_pending s) (cn_callers s) queue (cn_written s ++ frame) true (cn_reader s) (cn_delivered s) (cn_notified s))
  | _, _ => None
  end.

Definition write_error (partial : nat) (s : Conn) : option Conn :=
  match cn_writer s, cn_queue s with
  | true, frame :: _ =>
      Some (mkConn (cn_next_id s) (cn_pending s) (cn_callers s) [] (cn_written s ++ take partial frame) false (cn_reader s) (cn_delivered s) (cn_notified s))
  | _, _ => None
  end.

(** One round of [read_loop]. *)
Definition read_text (msg : string) (s : Conn) : option Conn :=
  if cn_reader s then
    Some match parse_response msg with
         | Some resp =>
             match cn_pending s !! rsp_id resp with
             | Some c => mkConn (cn_next_id s) (delete (rsp_id resp) (cn_pending s)) (cn_callers s) (cn_queue s) (cn_written s) (cn_writer s) (cn_reader s)
                           (<[c := Ok resp]> (cn_delivered s)) (cn_notified s)
             | None => s
             end
         | None =>
             match parse_raw msg ≫= into_notification with
             | Some n => mkConn (cn_next_id s) (cn_pending s) (cn_callers s) (cn_queue s) (cn_written s) (cn_writer s) (cn_reader s) (cn_delivered s) (cn_notified s ++ [n])
             | None => s
             end
         end
  else None.

(** The reader's last round: every pending sender is drained. *)
Definition read_error (s : Conn) : option Conn :=
  if cn_reader s then
    Some (mkConn (cn_next_id s) ∅ (cn_callers s) (cn_queue s) (cn_written s) (cn_writer s) false
      (foldr (fun p m => <[p.2 := Err CE_Closed]> m) (cn_delivered s) (map_to_list (cn_pending s))) (cn_notified s))
  else None.

Definition has_sender (c : nat) (s : Conn) : bool := existsb (fun p => Nat.eqb p.2 c) (map_to_list (cn_pending s)).

(** [rx.await] *)
Definition receive (c : nat) (s : Conn) : option Conn :=
  match cn_callers s !! c with
  | Some (Waiting id) =>
      match cn_delivered s !! c with
      | Some r => Some (set_caller c (Finished id r) s)
      | None => if has_sender c s then None else Some (set_caller c (Finished id (Err CE_Cancelled)) s)
      end
  | _ => None
  end.

Inductive link_op :=
| OpBegin (c : nat) (method : string) (params : Value)
| OpRegister (c : nat)
| OpSend (c : nat)
| OpWrite
| OpWriteError (partial : nat)
| OpMessage (msg : string)
| OpReadError
| OpReceive (c : nat).

(** [None]: the step is not possible (the task waits). *)
Definition link_step (o : link_op) (s : Conn) : option Conn :=
  match o with
  | OpBegin c method params => begin_request c method params s
  | OpRegister c => register c s
  | OpSend c => send c s
  | OpWrite => write_frame s
  | OpWriteError partial => write_error partial s
  | OpMessage msg => read_text msg s
  | OpReadError => read_error s
  | OpReceive c => receive c s
  end.

Fixpoint link_run (ops : list link_op) (s : Conn) : option Conn :=
  match ops with
  | [] => Some s
  | o :: ops => s ← link_step o s; link_run ops s
  end.

Lemma link_run_app a b s : link_run (a ++ b) s = s' ← link_run a s; link_run b s'.
Proof. revert s; induction a as [|o a IH]; intros s; [done|]. cbn. destruct (link_step o s); cbn; [apply IH|done]. Qed.

Definition begins (ops : list link_op) : Z := Z.of_nat (length (List.filter (fun o => match o with OpBegin _ _ _ => true | _ => false end) ops)).

(** ** The invariant *)

(** A caller whose sender is or was in the map. *)
Definition in_map (v : Caller) : bool := match v with Numbered _ _ => false | _ => true end.

(** What a caller can be given: a message that was read with its id, or that
    the link is closed. *)
Definition good_answer (ops : list link_op) (id : RequestId) (r : result ClientError Response) : Prop :=
  match r with
  | Ok resp => rsp_id resp = id /\ exists msg, OpMessage msg ∈ ops /\ parse_response msg = Some resp
  | Err e => e = CE_Closed
  end.

Record link_inv (ops : list link_op) (s : Conn) : Prop := {
  li_next : cn_next_id s = 1 + begins ops;
  li_ids : forall c v, cn_callers s !! c = Some v -> exists k, caller_id v = RequestId_Number k /\ 1 <= k < cn_next_id s;
  li_inj : forall c c' v v', cn_callers s !! c = Some v -> cn_callers s !! c' = Some v' -> caller_id v = caller_id v' -> c = c';
  li_pending : forall id c, cn_pending s !! id = Some c -> cn_delivered s !! c = None /\ exists v, cn_callers s !! c = Some v /\ caller_id v = id /\ in_map v = true;
  li_delivered : forall c r, cn_delivered s !! c = Some r -> exists v, cn_callers s !! c = Some v /\ in_map v = true /\ good_answer ops (caller_id v) r;
  li_settled : forall c v, cn_callers s !! c = Some v -> in_map v = true -> cn_pending s !! caller_id v = Some c \/ is_Some (cn_delivered s !! c);
  li_answers : forall c id r, cn_callers s !! c = Some (Finished id r) -> good_answer ops id r
}.

Lemma spawn_inv : link_inv [] Conn_spawn.
Proof. split; cbn; intros; simplify_map_eq; done. Qed.

Lemma good_answer_mono ops o id r : good_answer ops id r -> good_answer (ops ++ [o]) id r.
Proof. destruct r as [resp|e]; [|done]. intros (H1 & msg & H2 & H3). split; [done|]. exists msg. rewrite elem_of_app. auto. Qed.

(** Steps that leave ids, senders and callers alone. *)
Lemma quiet_inv ops o s s' :
  link_inv ops s -> cn_next_id s' = cn_next_id s -> cn_pending s' = cn_pending s -> cn_callers s' = cn_callers s -> cn_delivered s' = cn_delivered s ->
  begins (ops ++ [o]) = begins ops -> link_inv (ops ++ [o]) s'.
Proof.
  intros [H1 H2 H3 H4 H5 H6 H7] En Ep Ec Ed Eb. split; rewrite ?En, ?Ep, ?Ec, ?Ed, ?Eb; try done.
  - intros c r Hr. destruct (H5 c r Hr) as (v & Hv & Hm & Ha). eauto using good_answer_mono.
  - intros c id r Hr. eauto using good_answer_mono.
Qed.

Lemma begins_snoc ops o : begins (ops ++ [o]) = begins ops + match o with OpBegin _ _ _ => 1 | _ => 0 end.
Proof. unfold begins. rewrite List.filter_app, length_app. destruct o; cbn; lia. Qed.

(** A caller moves on, its id and its sender unchanged. *)
Lemma move_inv ops s c v v' :
  link_inv ops s -> cn_callers s !! c = Some v -> caller_id v' = caller_id v -> in_map v' = in_map v ->
  (forall id r, v' = Finished id r -> good_answer ops id r) -> link_inv ops (set_caller c v' s).
Proof.
  intros [H1 H2 H3 H4 H5 H6 H7] Hc Hid Hm Hf.
  assert (L : forall k w, <[c := v']> (cn_callers s) !! k = Some w -> exists w0, cn_callers s !! k = Some w0 /\ caller_id w = caller_id w0 /\ in_map w = in_map w0).
  { intros k w [[<- <-]|[_ Hw]]%lookup_insert_Some; eauto. }
  assert (R : forall k w, cn_callers s !! k = Some w -> exists w', <[c := v']> (cn_callers s) !! k = Some w' /\ caller_id w' = caller_id w /\ in_map w' = in_map w).
  { intros k w Hw. destruct (decide (c = k)) as [->|]; [|exists w; by rewrite lookup_insert_ne]. exists v'. rewrite lookup_insert_eq. by simplify_eq. }
  split; cbn [set_caller cn_next_id cn_pending cn_callers cn_delivered]; try done.
  - intros k w (w0 & Hw & -> & _)%L. by eapply H2.
  - intros k k' w w' (w0 & Hw & -> & _)%L (w0' & Hw' & -> & _)%L. by eapply H3.
  - intros id k Hp. destruct (H4 id k Hp) as (Hd & w & Hw & <- & Hi). split; [done|]. destruct (R k w Hw) as (w' & Hw' & Hi' & Hm'). exists w'. split_and!; [done|done|congruence].
  - intros k r Hr. destruct (H5 k r Hr) as (w & Hw & Hi & Ha). destruct (R k w Hw) as (w' & Hw' & Hi' & Hm'). exists w'. rewrite Hi'. split_and!; [done|congruence|done].
  - intros k w (w0 & Hw & -> & Hm')%L. rewrite Hm'. by apply H6.
  - intros k id r [[-> ->]|[_ Hw]]%lookup_insert_Some; eauto.
Qed.

Lemma answer_ops ops o s : link_inv ops s -> begins (ops ++ [o]) = begins ops -> link_inv (ops ++ [o]) s.
Proof. intros H. by apply (quiet_inv ops o s s). Qed.

Lemma begin_inv ops o c method params s s' : o = OpBegin c method params -> begins (ops ++ [o]) < I64_MAX ->
  begin_request c method params s = Some s' -> link_inv ops s -> link_inv (ops ++ [o]) s'.
Proof.
  intros -> Hb. unfold begin_request. destruct (cn_callers s !! c) eqn:Ec; [done|]. intros [= <-] [H1 H2 H3 H4 H5 H6 H7].
  rewrite begins_snoc in *. assert (0 <= begins ops) by (unfold begins; lia). unfold I64_MAX in *.
  assert (En : cn_next_id s mod (2 ^ 63 - 1) = cn_next_id s) by (apply Z.mod_small; lia).
  assert (Ea : u64_add (cn_next_id s) 1 = cn_next_id s + 1) by (apply u64_add_small; unfold_int; lia).
  split; cbn [set_caller cn_next_id cn_pending cn_callers cn_delivered]; rewrite ?En, ?Ea.
  - rewrite begins_snoc. lia.
  - intros k w [[<- <-]|[_ Hw]]%lookup_insert_Some; [exists (cn_next_id s); cbn; split; [done|lia]|].
    destruct (H2 k w Hw) as (n & Hn & ?). exists n. split; [done|lia].
  - assert (F : forall k w, cn_callers s !! k = Some w -> caller_id w <> RequestId_Number (cn_next_id s)).
    { intros k w Hw E. destruct (H2 k w Hw) as (n & Hn & ?). rewrite E in Hn. injection Hn as <-. lia. }
    intros k k' w w' [[<- <-]|[_ Hw]]%lookup_insert_Some [[<- <-]|[_ Hw']]%lookup_insert_Some; cbn; try done.
    + intros E. by destruct (F k' w' Hw').
    + intros E. by destruct (F k w Hw).
    + by eapply H3.
  - intros id k Hp. destruct (H4 id k Hp) as (Hd & w & Hw & ?). split; [done|]. exists w. split; [|done]. rewrite lookup_insert_ne; [done|congruence].
  - intros k r Hr. destruct (H5 k r Hr) as (w & Hw & Hi & Ha). exists w. split_and!; [|done|by apply good_answer_mono]. rewrite lookup_insert_ne; [done|congruence].
  - intros k w [[<- <-]|[_ Hw]]%lookup_insert_Some; [done|]. by apply H6.
  - intros k id r [[_ ?]|[_ Hw]]%lookup_insert_Some; [done|]. apply good_answer_mono. eauto.
Qed.

Lemma register_inv ops c s s' : register c s = Some s' -> link_inv ops s -> link_inv ops s'.
Proof.
  unfold register. destruct (cn_callers s !! c) as [[id frame| | |]|] eqn:Ec; try done. intros [= <-] [H1 H2 H3 H4 H5 H6 H7].
  assert (Hnd : cn_delivered s !! c = None).
  { destruct (cn_delivered s !! c) as [r|] eqn:E; [|done]. destruct (H5 c r E) as (v & Hv & Hm & _). by simplify_eq. }
  assert (Hnp : forall id', cn_pending s !! id' <> Some c).
  { intros id' E. destruct (H4 id' c E) as (_ & v & Hv & _ & Hm). by simplify_eq. }
  assert (Hfresh : cn_pending s !! id = None).
  { destruct (cn_pending s !! id) as [c'|] eqn:E; [|done]. destruct (H4 id c' E) as (_ & v & Hv & Hid & Hm). exfalso.
    assert (c' = c) as -> by (by eapply (H3 c' c v (Numbered id frame))). by apply (Hnp id). }
  split; cbn [set_caller cn_next_id cn_pending cn_callers cn_delivered]; try done.
  - intros k w [[<- <-]|[_ Hw]]%lookup_insert_Some; [apply (H2 c _ Ec)|by eapply H2].
  - intros k k' w w' Hk Hk' E. apply lookup_insert_Some in Hk as [[<- <-]|[? Hk]]; apply lookup_insert_Some in Hk' as [[<- <-]|[? Hk']]; try done.
    + by eapply (H3 c k' (Numbered id frame)).
    + by eapply (H3 k c w (Numbered id frame)).
    + by eapply H3.
  - intros id' k [[<- <-]|[Hne Hp]]%lookup_insert_Some.
    + split; [done|]. exists (Registered id frame). by rewrite lookup_insert_eq.
    + destruct (H4 id' k Hp) as (Hd & w & Hw & ?). split; [done|]. exists w. split; [|done]. rewrite lookup_insert_ne; [done|]. intros ->. by apply (Hnp id').
  - intros k r Hr. destruct (H5 k r Hr) as (w & Hw & Hi & Ha). exists w. split_and!; [|done|done]. rewrite lookup_insert_ne; [done|congruence].
  - intros k w [[<- <-]|[Hne Hw]]%lookup_insert_Some Hm; [left; by rewrite lookup_insert_eq|].
    destruct (H6 k w Hw Hm) as [Hp|Hd]; [left|by right]. rewrite lookup_insert_ne; [done|]. intros E. rewrite <- E, Hfresh in Hp. done.
  - intros k id' r [[_ ?]|[_ Hw]]%lookup_insert_Some; [done|]. eauto.
Qed.

(** What draining the map delivers. *)
Lemma drained_lookup (l : list (RequestId * nat)) (d : gmap nat (result ClientError Response)) c :
  foldr (fun p m => <[p.2 := Err CE_Closed]> m) d l !! c = if bool_decide (c ∈ l.*2) then Some (Err CE_Closed) else d !! c.
Proof.
  induction l as [|[id k] l IH]; [done|]. cbn [foldr fmap list_fmap snd]. destruct (decide (k = c)) as [->|Hk].
  - rewrite lookup_insert_eq, bool_decide_eq_true_2; [done|]. apply list_elem_of_here.
  - rewrite lookup_insert_ne, IH by done. apply (f_equal (fun b : bool => if b then _ else _)). apply bool_decide_ext. rewrite elem_of_cons. naive_solver.
Qed.

Lemma in_range_map c (m : gmap RequestId nat) : c ∈ (map_to_list m).*2 <-> exists id, m !! id = Some c.
Proof.
  rewrite list_elem_of_fmap. split.
  - intros ([id k] & -> & Hin%elem_of_map_to_list). by exists id.
  - intros [id Hid]. exists (id, c). split; [done|]. by apply elem_of_map_to_list.
Qed.

Lemma read_error_inv ops s s' : read_error s = Some s' -> link_inv ops s -> link_inv ops s'.
Proof.
  unfold read_error. destruct (cn_reader s); [|done]. intros [= <-] [H1 H2 H3 H4 H5 H6 H7].
  split; cbn [cn_next_id cn_pending cn_callers cn_delivered]; try done.
  - intros k r. rewrite drained_lookup. case_bool_decide as E; [|by apply H5]. intros [= <-].
    apply in_range_map in E as [id Hid]. destruct (H4 id k Hid) as (_ & v & Hv & _ & Hm). by exists v.
  - intros k v Hv Hm. right. rewrite drained_lookup. case_bool_decide as E; [done|]. destruct (H6 k v Hv Hm) as [Hp|Hd]; [|done].
    exfalso. apply E, in_range_map. eauto.
Qed.

Lemma message_inv ops msg s s' : read_text msg s = Some s' -> link_inv ops s -> link_inv (ops ++ [OpMessage msg]) s'.
Proof.
  unfold read_text. destruct (cn_reader s); [|done]. intros [= <-] H.
  assert (Eb : begins (ops ++ [OpMessage msg]) = begins ops) by (rewrite begins_snoc; lia).
  destruct (parse_response msg) as [resp|] eqn:Ep; [|destruct (parse_raw msg ≫= into_notification); by apply (quiet_inv ops _ s)].
  destruct (cn_pending s !! rsp_id resp) as [c|] eqn:Ec; [|by apply answer_ops].
  destruct H as [H1 H2 H3 H4 H5 H6 H7]. destruct (H4 _ _ Ec) as (Hnd & v & Hv & Hid & Hm).
  split; cbn [cn_next_id cn_pending cn_callers cn_delivered]; try done.
  - by rewrite Eb.
  - intros id k [Hne Hp]%lookup_delete_Some. destruct (H4 id k Hp) as (Hd & w & Hw & Hi & Hw'). split; [|by exists w].
    rewrite lookup_insert_ne; [done|]. intros <-. simplify_eq.
  - intros k r [[<- <-]|[Hne Hr]]%lookup_insert_Some.
    + exists v. split_and!; [done|done|]. split; [done|]. exists msg. split; [|done]. apply elem_of_app. right. by apply list_elem_of_singleton.
    + destruct (H5 k r Hr) as (w & Hw & Hi & Ha). eauto using good_answer_mono.
  - intros k w Hw Hi. destruct (decide (k = c)) as [->|Hk]; [right; by rewrite lookup_insert_eq|].
    destruct (H6 k w Hw Hi) as [Hp|Hd]; [left|right; by rewrite lookup_insert_ne]. rewrite lookup_delete_ne; [done|]. intros E. apply Hk.
    rewrite E in Ec. congruence.
  - intros k id r Hr. eauto using good_answer_mono.
Qed.

Lemma has_sender_spec c s : has_sender c s = true <-> exists id, cn_pending s !! id = Some c.
Proof.
  unfold has_sender. rewrite existsb_exists. split.
  - intros ([id k] & Hin & E). apply Nat.eqb_eq in E as <-. exists id. by apply elem_of_map_to_list, list_elem_of_In.
  - intros [id Hid]. exists (id, c). split; [|apply Nat.eqb_refl]. by apply list_elem_of_In, elem_of_map_to_list.
Qed.

(** A caller that waits was answered or still has a sender: it is never
    cancelled. *)
Lemma receive_cases ops c s s' : link_inv ops s -> receive c s = Some s' ->
  exists id r, cn_callers s !! c = Some (Waiting id) /\ cn_delivered s !! c = Some r /\ s' = set_caller c (Finished id r) s.
Proof.
  intros H. unfold receive. destruct (cn_callers s !! c) as [[| |id|]|] eqn:Ec; try done.
  destruct (cn_delivered s !! c) as [r|] eqn:Ed; [intros [= <-]; by exists id, r|].
  destruct (has_sender c s) eqn:Es; [done|]. exfalso. destruct (li_settled _ _ H c _ Ec eq_refl) as [Hp|Hd].
  - assert (has_sender c s = true) by (apply has_sender_spec; eauto). congruence.
  - rewrite Ed in Hd. by destruct Hd.
Qed.

Lemma step_inv ops o s s' : link_step o s = Some s' -> begins (ops ++ [o]) < I64_MAX -> link_inv ops s -> link_inv (ops ++ [o]) s'.
Proof.
  intros Hs Hb H. assert (Eb : (forall c m p, o <> OpBegin c m p) -> begins (ops ++ [o]) = begins ops) by (intros Hn; rewrite begins_snoc; destruct o; try lia; by destruct (Hn c method params)).
  destruct o as [c method params|c|c| |partial|msg| |c]; cbn [link_step] in Hs; [|specialize (Eb ltac:(done))..].
  - by eapply begin_inv.
  - apply answer_ops; [|done]. by eapply register_inv.
  - apply answer_ops; [|done]. unfold send in Hs. destruct (cn_callers s !! c) as [[|id frame| |]|] eqn:Ec; try done. destruct (cn_writer s).
    + destruct (_ <? _)%nat; [|done]. injection Hs as <-. apply (move_inv ops _ c (Registered id frame)); try done. by destruct H; split.
    + injection Hs as <-. apply (move_inv ops _ c (Registered id frame)); try done. by intros ? ? [= <- <-].
  - unfold write_frame in Hs. destruct (cn_writer s), (cn_queue s); simplify_eq. by apply (quiet_inv ops _ s).
  - unfold write_error in Hs. destruct (cn_writer s), (cn_queue s); simplify_eq. by apply (quiet_inv ops _ s).
  - by eapply message_inv.
  - apply answer_ops; [|done]. by eapply read_error_inv.
  - apply answer_ops; [|done]. destruct (receive_cases ops c s s' H Hs) as (id & r & Hc & Hd & ->).
    apply (move_inv ops _ c (Waiting id)); try done. intros ? ? [= <- <-]. destruct (li_delivered _ _ H c r Hd) as (v & Hv & _ & Ha). by simplify_eq.
Qed.

Lemma begins_app a b : begins (a ++ b) = begins a + begins b.
Proof. unfold begins. rewrite List.filter_app, length_app. lia. Qed.

Lemma begins_nonneg ops : 0 <= begins ops.
Proof. unfold begins. lia. Qed.

Lemma run_inv ops' : forall ops s s', link_run ops' s = Some s' -> begins (ops ++ ops') < I64_MAX -> link_inv ops s -> link_inv (ops ++ ops') s'.
Proof.
  induction ops' as [|o ops' IH]; intros ops s s'; cbn [link_run].
  - intros [= ->] _ H. by rewrite app_nil_r.
  - intros (s1 & Hs & Hr)%bind_Some Hb H. change (o :: ops') with ([o] ++ ops') in *. rewrite app_assoc in *. eapply IH; [exact Hr|done|].
    eapply step_inv; [exact Hs| |done]. rewrite begins_app in Hb. pose proof (begins_nonneg ops'). lia.
Qed.

Lemma link_reachable_inv ops s : link_run ops Conn_spawn = Some s -> begins ops < I64_MAX -> link_inv ops s.
Proof. intros Hr Hb. apply (run_inv ops [] Conn_spawn s Hr Hb spawn_inv). Qed.

(** C32: whatever the callers, the two tasks and the daemon do, in any order: a
    request that returned a response returned one that was read from the daemon
    and carries its own id, no two requests have the same id, and the only error
    is that the link is closed; a request is never given another's answer and
    never cancelled (below 2^63 - 1 requests, where ids would repeat). *)
Theorem responses_reach_their_request (ops : list link_op) (s : Conn)
  (Hr : link_run ops Conn_spawn = Some s) (Hb : begins ops < I64_MAX) :
  (forall c id r, cn_callers s !! c = Some (Finished id r) ->
     match r with
     | Ok resp => rsp_id resp = id /\ exists msg, OpMessage msg ∈ ops /\ parse_response msg = Some resp
     | Err e => e = CE_Closed
     end) /\
  (forall c c' v v', cn_callers s !! c = Some v -> cn_callers s !! c' = Some v' -> caller_id v = caller_id v' -> c = c').
Proof. pose proof (link_reachable_inv ops s Hr Hb) as H. split; [apply (li_answers _ _ H)|apply (li_inj _ _ H)]. Qed.

Lemma waiting_has_sender ops s c id : link_inv ops s -> cn_callers s !! c = Some (Waiting id) -> cn_delivered s !! c = None -> cn_pending s !! id = Some c.
Proof. intros H Hc Hd. destruct (li_settled _ _ H c _ Hc eq_refl) as [Hp|[r Hr]]; [done|congruence]. Qed.

(** C33: while the reader runs, no request waits for ever on a daemon that
    answers or goes away: whenever one is waiting, the next message with its id
    lets it return that response, and the end of the stream lets it return
    [Closed], whatever else the connection has done. *)
Theorem waiting_request_returns (ops : list link_op) (s : Conn) (c : nat) (id : RequestId)
  (Hr : link_run ops Conn_spawn = Some s) (Hb : begins ops < I64_MAX)
  (Hc : cn_callers s !! c = Some (Waiting id)) (Hl : cn_reader s = true) (Hd : cn_delivered s !! c = None) :
  (forall msg resp, parse_response msg = Some resp -> rsp_id resp = id ->
     exists s', link_run [OpMessage msg; OpReceive c] s = Some s' /\ cn_callers s' !! c = Some (Finished id (Ok resp))) /\
  (exists s', link_run [OpReadError; OpReceive c] s = Some s' /\ cn_callers s' !! c = Some (Finished id (Err CE_Closed))).
Proof.
  pose proof (waiting_has_sender ops s c id (link_reachable_inv ops s Hr Hb) Hc Hd) as Hp. split.
  - intros msg resp Hm Hid. cbn [link_run link_step]. unfold read_text. rewrite Hl, Hm, Hid, Hp. cbn [mbind option_bind].
    unfold receive. cbn [cn_callers cn_delivered]. rewrite Hc, lookup_insert_eq. cbn [mbind option_bind]. eexists. split; [reflexivity|]. cbn. by rewrite lookup_insert_eq.
  - cbn [link_run link_step]. unfold read_error. rewrite Hl. cbn [mbind option_bind].
    unfold receive. cbn [cn_callers cn_delivered]. rewrite Hc, drained_lookup, bool_decide_eq_true_2 by (apply in_range_map; eauto).
    cbn [mbind option_bind]. eexists. split; [reflexivity|]. cbn. by rewrite lookup_insert_eq.
Qed.

(** ** A request after the reader ended *)

Definition stuck (c : nat) (id : RequestId) (s : Conn) : Prop :=
  cn_reader s = false /\ cn_callers s !! c = Some (Waiting id) /\ cn_pending s !! id = Some c /\ cn_delivered s !! c = None.

Lemma stuck_step ops o c id s s' : link_step o s = Some s' -> link_inv ops s -> stuck c id s -> stuck c id s'.
Proof.
  intros Hs H (Hl & Hc & Hp & Hd). destruct o as [k method params|k|k| |partial|msg| |k]; cbn [link_step] in Hs.
  - unfold begin_request in Hs. destruct (cn_callers s !! k) eqn:Ek; [done|]. injection Hs as <-. unfold stuck; cbn.
    rewrite lookup_insert_ne by congruence. done.
  - unfold register in Hs. destruct (cn_callers s !! k) as [[id' frame| | |]|] eqn:Ek; try done. injection Hs as <-. unfold stuck; cbn.
    rewrite lookup_insert_ne by congruence. split_and!; [done|done| |done]. rewrite lookup_insert_ne; [done|]. intros ->.
    assert (k = c) as -> by (by eapply (li_inj _ _ H)). congruence.
  - unfold send in Hs. destruct (cn_callers s !! k) as [[|id' frame| |]|] eqn:Ek; try done. destruct (cn_writer s).
    + destruct (_ <? _)%nat; [|done]. injection Hs as <-. unfold stuck; cbn. by rewrite lookup_insert_ne by congruence.
    + injection Hs as <-. unfold stuck; cbn. by rewrite lookup_insert_ne by congruence.
  - unfold write_frame in Hs. destruct (cn_writer s), (cn_queue s); simplify_eq. done.
  - unfold write_error in Hs. destruct (cn_writer s), (cn_queue s); simplify_eq. done.
  - unfold read_text in Hs. by rewrite Hl in Hs.
  - unfold read_error in Hs. by rewrite Hl in Hs.
  - destruct (receive_cases ops k s s' H Hs) as (id' & r & Hk & Hr & ->). unfold stuck; cbn. rewrite lookup_insert_ne; [done|]. intros ->. congruence.
Qed.

Lemma stuck_run ops' : forall ops c id s s', link_run ops' s = Some s' -> begins (ops ++ ops') < I64_MAX -> link_inv ops s -> stuck c id s -> stuck c id s'.
Proof.
  induction ops' as [|o ops' IH]; intros ops c id s s'; cbn [link_run]; [by intros [= ->]|].
  intros (s1 & Hs & Hr)%bind_Some Hb H Hk. change (o :: ops') with ([o] ++ ops') in Hb. rewrite app_assoc in Hb.
  eapply (IH (ops ++ [o])); [exact Hr|done| |by eapply stuck_step].
  eapply step_inv; [exact Hs| |done]. rewrite begins_app in Hb. pose proof (begins_nonneg ops'). lia.
Qed.

(** A request that got its frame into the queue after the reader had ended
    (the daemon is gone but the writer has not noticed) never returns, whatever
    happens afterwards, the writer's failure included: nobody drains the map
    again, and its sender is never dropped. *)
Theorem late_request_never_returns (ops ops' : list link_op) (s s' : Conn) (c : nat) (id : RequestId)
  (Hr : link_run ops Conn_spawn = Some s) (Hl : cn_reader s = false)
  (Hc : cn_callers s !! c = Some (Waiting id)) (Hd : cn_delivered s !! c = None)
  (Hr' : link_run ops' s = Some s') (Hb : begins (ops ++ ops') < I64_MAX) :
  cn_callers s' !! c = Some (Waiting id) /\ receive c s' = None.
Proof.
  assert (Hb0 : begins ops < I64_MAX) by (rewrite begins_app in Hb; pose proof (begins_nonneg ops'); lia).
  pose proof (link_reachable_inv ops s Hr Hb0) as H.
  destruct (stuck_run ops' ops c id s s' Hr' Hb H) as (_ & Hc' & Hp & Hd'); [split_and!; [done|done|by eapply waiting_has_sender|done]|].
  split; [done|]. unfold receive. rewrite Hc', Hd'. by rewrite (proj2 (has_sender_spec c s')) by eauto.
Qed.

(** ** Reconnecting

    What [connect] gives at each attempt is the argument [results]; the delays
    are in milliseconds. *)

Record ReconnectingClient (C : Type) := mkReconnectingClient {
  rc_conn : C;
  rc_max_retries : nat;
  rc_base_delay : Z
}.
Arguments mkReconnectingClient {C}.
Arguments rc_conn {C}.
Arguments rc_max_retries {C}.
Arguments rc_base_delay {C}.

Definition ReconnectingClient_new {C} (conn : C) : ReconnectingClient C := mkReconnectingClient conn 5 100.

(** [2u32.saturating_pow(attempt)] *)
Definition saturating_pow2 (attempt : nat) : Z := Z.min U32_MAX (2 ^ Z.of_nat attempt).

(** The loop from [attempt] on, [retries] attempts left: the delays slept, the
    result, and the client. *)
Fixpoint reconnect_from {C} (results : nat -> result ClientError C) (attempt retries : nat) (rc : ReconnectingClient C)
  : list Z * result ClientError C * ReconnectingClient C :=
  match retries with
  | O => ([], Err CE_Closed, rc)
  | S retries =>
      let delay := rc_base_delay rc * saturating_pow2 attempt in
      match results attempt with
      | Ok conn => ([delay], Ok conn, mkReconnectingClient conn (rc_max_retries rc) (rc_base_delay rc))
      | Err e =>
          if (attempt + 1 <? rc_max_retries rc)%nat then
            let '(delays, r, rc) := reconnect_from results (S attempt) retries rc in (delay :: delays, r, rc)
          else ([delay], Err e, rc)
      end
  end.

Definition reconnect {C} (results : nat -> result ClientError C) (rc : ReconnectingClient C) :=
  reconnect_from results 0 (rc_max_retries rc) rc.

(** [request], given what each connection answers. *)
Definition reconnecting_request {C} (results : nat -> result ClientError C) (answer : C -> result ClientError Response) (rc : ReconnectingClient C)
  : result ClientError Response * ReconnectingClient C :=
  match answer (rc_conn rc) with
  | Err (CE_Closed | CE_Cancelled) =>
      let '(_, r, rc) := reconnect results rc in
      match r with
      | Ok conn => (answer conn, rc)
      | Err e => (Err e, rc)
      end
  | r => (r, rc)
  end.

Lemma reconnect_from_spec {C} (results : nat -> result ClientError C) retries : forall attempt (rc : ReconnectingClient C),
  (attempt + retries = rc_max_retries rc)%nat -> (0 < retries)%nat ->
  let '(delays, r, rc') := reconnect_from results attempt retries rc in
  exists n, (n < retries)%nat /\ delays = (fun i => rc_base_delay rc * saturating_pow2 (attempt + i)) <$> seq 0 (S n) /\
    r = results (attempt + n)%nat /\ (forall i, (i < n)%nat -> is_ok (results (attempt + i)%nat) = false) /\
    (if is_ok r then rc_conn rc' = match r with Ok c => c | Err _ => rc_conn rc end else n = (retries - 1)%nat /\ rc' = rc).
Proof.
  induction retries as [|retries IH]; intros attempt rc Hn Hp; [lia|]. cbn [reconnect_from].
  destruct (results attempt) as [conn|e] eqn:Er.
  - exists 0%nat. cbn [seq fmap list_fmap]. rewrite Nat.add_0_r. split_and!; [lia|done|done|lia|done].
  - destruct (Nat.ltb_spec (attempt + 1) (rc_max_retries rc)) as [Hl|Hl].
    + specialize (IH (S attempt) rc ltac:(lia) ltac:(lia)). destruct (reconnect_from results (S attempt) retries rc) as [[delays r] rc'].
      destruct IH as (n & Hlt & Hd & Hr & Hf & Hok). exists (S n). split_and!.
      * lia.
      * rewrite <- (cons_seq (S n) 0). cbn [fmap list_fmap]. rewrite Nat.add_0_r, Hd, <- (fmap_S_seq 0 (S n)), <- list_fmap_compose. f_equal. apply list_fmap_ext. intros i x _. cbn. do 2 f_equal. lia.
      * rewrite Hr. f_equal. lia.
      * intros [|i] Hi; [by rewrite Nat.add_0_r, Er|]. rewrite <- (Hf i ltac:(lia)). do 2 f_equal. lia.
      * destruct (is_ok r); [done|]. destruct Hok. split; [lia|done].
    + exists 0%nat. cbn [seq fmap list_fmap]. rewrite Nat.add_0_r. split_and!; [lia|done|done|lia|]. cbn. split; [lia|done].
Qed.

(** Reconnecting tries at most [max_retries] times, each attempt after a
    delay twice the one before, stops at the first that succeeds and keeps that
    connection, and fails only if all did, with the last one's error; a request
    whose link is up is passed through, and one that fails for any reason but a
    lost link is not repeated. *)
Theorem reconnect_first_success {C} (results : nat -> result ClientError C) (answer : C -> result ClientError Response) (rc : ReconnectingClient C)
  (Hp : (0 < rc_max_retries rc)%nat) :
  (exists n, (n < rc_max_retries rc)%nat /\
    (reconnect results rc).1.1 = (fun i => rc_base_delay rc * saturating_pow2 i) <$> seq 0 (S n) /\
    (reconnect results rc).1.2 = results n /\ (forall i, (i < n)%nat -> is_ok (results i) = false) /\
    (is_ok (results n) = false -> n = (rc_max_retries rc - 1)%nat)) /\
  (forall r, answer (rc_conn rc) = r -> r <> Err CE_Closed -> r <> Err CE_Cancelled -> reconnecting_request results answer rc = (r, rc)).
Proof.
  split.
  - pose proof (reconnect_from_spec results (rc_max_retries rc) 0 rc ltac:(lia) Hp) as H. unfold reconnect.
    destruct (reconnect_from results 0 (rc_max_retries rc) rc) as [[delays r] rc']. destruct H as (n & Hn & Hd & Hr & Hf & Hok).
    exists n. cbn in *. split_and!; [done|exact Hd|done|done|]. intros Hf'. rewrite Hr, Hf' in Hok. by destruct Hok.
  - intros r Hr H1 H2. unfold reconnecting_request. rewrite Hr. destruct r as [|[]]; done.
Qed.

End Connection.

(** ** Witnesses *)

Module Demo.

#[local] Existing Instance json_ref.

Definition print_request (r : Request) : string := (req_method r +:+ match req_id r with RequestId_Number n => i64_to_string n | RequestId_String s => s end)%string.
Definition ok_response (n : Z) : Response := Response_success (RequestId_Number n) (JObj []).
Definition parse_response (msg : string) : option Response :=
  if decide (msg = "1"%string) then Some (ok_response 1) else if decide (msg = "2"%string) then Some (ok_response 2) else None.
Definition parse_raw (msg : string) : option RawMessage := None.

Abbreviation run := (link_run (J:=json_ref) print_request parse_response parse_raw).
Abbreviation spawned := (Conn_spawn (J:=json_ref)).

(** Two requests in flight, answered out of order. *)
Definition two : list (link_op (J:=json_ref)) :=
  [OpBegin 0 "a" JNull; OpBegin 1 "b" JNull; OpRegister 1; OpRegister 0; OpSend 0; OpSend 1; OpWrite; OpWrite].
Definition answered : list (link_op (J:=json_ref)) := two ++ [OpMessage "2"; OpMessage "1"; OpReceive 0; OpReceive 1].
(** The daemon goes away; then a request. *)
Definition late : list (link_op (J:=json_ref)) := [OpReadError; OpBegin 0 "rocket/step" JNull; OpRegister 0; OpSend 0].

End Demo.

Lemma responses_reach_their_request_witness :
  exists s, Demo.run Demo.answered Demo.spawned = Some s /\ cn_callers s !! 0%nat = Some (Finished (RequestId_Number 1) (Ok (Demo.ok_response 1))) /\
    rsp_id (Demo.ok_response 1) = RequestId_Number 1 /\ exists msg, OpMessage msg ∈ Demo.answered /\ Demo.parse_response msg = Some (Demo.ok_response 1).
Proof.
  destruct (Demo.run Demo.answered Demo.spawned) as [s|] eqn:E; [|vm_compute in E; discriminate E]. exists s.
  assert (Hc : cn_callers s !! 0%nat = Some (Finished (RequestId_Number 1) (Ok (Demo.ok_response 1)))) by (vm_compute in E; injection E as <-; reflexivity).
  destruct (responses_reach_their_request _ _ _ Demo.answered s E ltac:(reflexivity)) as [H _]. split; [reflexivity|]. split; [exact Hc|]. apply (H 0%nat _ _ Hc).
Defined.

Lemma waiting_request_returns_witness :
  exists s s', Demo.run Demo.two Demo.spawned = Some s /\ Demo.run [OpMessage "2"; OpReceive 1] s = Some s' /\
    cn_callers s' !! 1%nat = Some (Finished (RequestId_Number 2) (Ok (Demo.ok_response 2))).
Proof.
  destruct (Demo.run Demo.two Demo.spawned) as [s|] eqn:E; [|vm_compute in E; discriminate E]. exists s.
  destruct (waiting_request_returns _ _ _ Demo.two s 1 (RequestId_Number 2) E ltac:(reflexivity)) as [H _];
    [vm_compute in E; injection E as <-; reflexivity..|].
  destruct (H "2"%string (Demo.ok_response 2) eq_refl eq_refl) as (s' & Hs & Hc). exists s'. split; [reflexivity|]. split; [exact Hs|exact Hc].
Defined.

Lemma late_request_never_returns_witness :
  exists s s', Demo.run Demo.late Demo.spawned = Some s /\ Demo.run [OpWriteError 3] s = Some s' /\
    cn_callers s' !! 0%nat = Some (Waiting (RequestId_Number 1)) /\ receive 0 s' = None.
Proof.
  destruct (Demo.run Demo.late Demo.spawned) as [s|] eqn:E; [|vm_compute in E; discriminate E].
  destruct (Demo.run [OpWriteError 3] s) as [s'|] eqn:E'; [|vm_compute in E; injection E as <-; discriminate E'].
  exists s, s'. split; [reflexivity|]. split; [exact E'|].
  apply (late_request_never_returns _ _ _ Demo.late [OpWriteError 3] s s' 0 (RequestId_Number 1) E); [vm_compute in E; injection E as <-; reflexivity..|exact E'|reflexivity].
Defined.

Lemma reconnect_first_success_witness :
  let rc := ReconnectingClient_new (C:=nat) 0%nat in
  let results i := if (i <? 2)%nat then Err (CE_Closed) else Ok i in
  exists n, (n < 5)%nat /\ (reconnect results rc).1.1 = (fun i => 100 * saturating_pow2 i) <$> seq 0 (S n) /\ results n = Ok 2%nat.
Proof.
  cbv zeta. destruct (reconnect_first_success (J:=json_ref) (fun i => if (i <? 2)%nat then Err (CE_Closed) else Ok i) (fun _ => Err CE_Closed) (ReconnectingClient_new (C:=nat) 0%nat)) as [(n & Hn & Hd & Hr & _) _]; [cbn; lia|].
  exists n. split; [exact Hn|]. split; [exact Hd|]. rewrite <- Hr. reflexivity.
Defined.
