(* ===== verification/Notify.v ===== *)
(** * Notify: event notifications and the protocol trace

    [crates/rocket-surgeon/src/notifications.rs] (the subscription filter and
    the numbered event stream) and [trace_log.rs] (the bounded log of protocol
    messages).  The text of a notification is a parameter ([serde_json]); the
    writer is the bytes written so far. *)

From Stdlib Require Import ZArith Lia Ascii String.
From stdpp Require Import base strings list.
From S2P Require Import Prelude Framing Protocol Messages Json.
Open Scope Z_scope.

(** ** Filtering *)

Section Filter.
Context `{J : SerdeJson}.

Definition method_to_event_type (method : string) : option EventType :=
  if decide (method = event.TICK_STOPPED) then Some EventType_TickStopped
  else if decide (method = event.TICK_HEARTBEAT) then Some EventType_TickHeartbeat
  else if decide (method = event.PROBE_FIRED) then Some EventType_ProbeFired
  else if decide (method = event.REPLAY_DIVERGENCE) then Some EventType_ReplayDivergence
  else if decide (method = event.ERROR) then Some EventType_Error
  else None.

(** [as_u64().and_then(|n| u32::try_from(n).ok())] *)
Definition u32_try_from (n : Z) : option Z := if n <=? U32_MAX then Some n else None.

Definition event_coordinates (method : string) (params : Value) : option Z * option string :=
  if decide (method = event.TICK_STOPPED) then
    let pos := value_index params "position" in
    (n ← value_as_u64 (value_index pos "layer"); u32_try_from n, value_as_str (value_index pos "component"))
  else if decide (method = event.PROBE_FIRED) then
    match value_as_str (value_index params "point") with
    | None => (None, None)
    | Some point =>
        let parts := split_on ":"%char (chars point) in
        (s ← parts !! 2%nat; parse_uint U32_MAX s, text <$> parts !! 3%nat)
    end
  else (None, None).

(** [strip_suffix('*')] *)
Definition strip_star (pattern : string) : option string :=
  match reverse (chars pattern) with
  | c :: r => if decide (c = "*"%char) then Some (text (reverse r)) else None
  | [] => None
  end.

Definition component_glob_matches (pattern component : string) : bool :=
  if decide (pattern = "*"%string) then true
  else match strip_star pattern with
       | Some prefix => starts_with (chars prefix) (chars component)
       | None => bool_decide (pattern = component)
       end.

Definition event_matches_filter (filter : option SubscribeFilter) (method : string) (params : Value) : bool :=
  match filter with
  | None => true
  | Some f =>
      let allowed_event :=
        match sf_events f with
        | None => true
        | Some allowed => match method_to_event_type method with
                          | Some et => bool_decide (et ∈ allowed)
                          | None => false
                          end
        end in
      if negb allowed_event then false
      else
        let (layer, component) := event_coordinates method params in
        if match sf_layers f, layer with Some allowed, Some l => negb (bool_decide (l ∈ allowed)) | _, _ => false end
        then false
        else if match sf_components f, component with
                | Some patterns, Some c => negb (existsb (fun p => component_glob_matches p c) patterns)
                | _, _ => false
                end
        then false
        else true
  end.

(** ** Sending *)

Context (to_json : Notification -> string).

(** The writer and the sequence counter. *)
Record Sender := mkSender { sd_written : list ascii; sd_seq : Z }.

Definition stamp (seq : Z) (params : Value) : Value := default params (value_insert params "seq" (json_u64 seq)).

Definition send_notification (method : string) (params : Value) (sd : Sender) : Sender :=
  let notification := Notification_new method (stamp (sd_seq sd) params) in
  mkSender (sd_written sd ++ write_message (to_json notification)) (u64_add (sd_seq sd) 1).

Definition send_notification_filtered (method : string) (params : Value) (filter : option SubscribeFilter) (sd : Sender)
  : Sender :=
  if event_matches_filter filter method params then send_notification method params sd else sd.

(** ** Specification *)

(** An event as it happens: its method, its parameters and the filter in force. *)
Definition Event : Type := string * Value * option SubscribeFilter.

Definition send_all (es : list Event) (sd : Sender) : Sender :=
  foldl (fun sd '(m, p, f) => send_notification_filtered m p f sd) sd es.

(** [component] follows the glob: it is matched by [*], by its own name, or by
    a prefix with a star behind. *)
Definition glob (pattern component : string) : Prop :=
  pattern = component \/ exists p r, pattern = (p +:+ "*")%string /\ component = (p +:+ r)%string.

(** The event passes every dimension the subscriber constrained; an event
    without a coordinate is not constrained in it. *)
Definition passes (filter : option SubscribeFilter) (method : string) (params : Value) : Prop :=
  forall f, filter = Some f ->
    (forall allowed, sf_events f = Some allowed -> exists et, method_to_event_type method = Some et /\ et ∈ allowed) /\
    (forall allowed l, sf_layers f = Some allowed -> fst (event_coordinates method params) = Some l -> l ∈ allowed) /\
    (forall patterns c, sf_components f = Some patterns -> snd (event_coordinates method params) = Some c ->
       exists p, p ∈ patterns /\ glob p c).

(** The notifications a subscriber gets: the events that pass, numbered from [seq]. *)
Fixpoint numbered (seq : Z) (es : list (string * Value)) : list Notification :=
  match es with
  | [] => []
  | (m, p) :: es => Notification_new m (stamp seq p) :: numbered (seq + 1) es
  end.

Lemma strip_star_Some pattern p : strip_star pattern = Some p <-> pattern = (p +:+ "*")%string.
Proof.
  unfold strip_star. split.
  - destruct (reverse (chars pattern)) as [|c r] eqn:E; [done|]. case_decide; [subst c|done]. intros [= <-].
    apply chars_inj. rewrite chars_app, chars_text. apply (f_equal reverse) in E. rewrite reverse_involutive, reverse_cons in E.
    done.
  - intros ->. rewrite chars_app. change (chars "*") with ["*"%char]. rewrite reverse_app.
    change (reverse ["*"%char]) with ["*"%char]. cbn [app]. rewrite decide_True by done. by rewrite reverse_involutive, text_chars.
Qed.

Lemma component_glob_spec pattern component : component_glob_matches pattern component = true <-> glob pattern component.
Proof.
  unfold component_glob_matches, glob. case_decide as Hs.
  - split; [|done]. intros _. right. exists ""%string, component. by subst.
  - destruct (strip_star pattern) as [p|] eqn:E.
    + apply strip_star_Some in E. unfold starts_with. destruct (strip_prefix (chars p) (chars component)) as [r|] eqn:Er.
      * split; [|done]. intros _. right. exists p, (text r). split; [done|]. apply strip_prefix_spec in Er.
        apply chars_inj. by rewrite chars_app, chars_text.
      * split; [done|]. intros [-> | (p' & r & -> & ->)].
        -- rewrite E, chars_app in Er. by rewrite (proj2 (strip_prefix_spec _ _ _) eq_refl) in Er.
        -- apply (f_equal chars) in E. rewrite !chars_app in E. apply app_inj_tail in E as [->%chars_inj _].
           rewrite chars_app in Er. by rewrite (proj2 (strip_prefix_spec _ _ _) eq_refl) in Er.
    + rewrite bool_decide_eq_true. split; [by left|]. intros [|(p & r & Hp & _)]; [done|].
      apply strip_star_Some in Hp. congruence.
Qed.

Lemma event_matches_spec filter method params : event_matches_filter filter method params = true <-> passes filter method params.
Proof.
  unfold event_matches_filter, passes. destruct filter as [f|]; [|naive_solver].
  destruct (event_coordinates method params) as [layer component]. cbn [fst snd].
  assert (E1 : match sf_events f with None => true | Some allowed =>
      match method_to_event_type method with Some et => bool_decide (et ∈ allowed) | None => false end end = true <->
    forall allowed, sf_events f = Some allowed -> exists et, method_to_event_type method = Some et /\ et ∈ allowed).
  { destruct (sf_events f); [|naive_solver]. destruct (method_to_event_type method) as [et|]; [rewrite bool_decide_eq_true|]; naive_solver. }
  assert (E2 : match sf_layers f, layer with Some allowed, Some l => negb (bool_decide (l ∈ allowed)) | _, _ => false end = false <->
    forall allowed l, sf_layers f = Some allowed -> layer = Some l -> l ∈ allowed).
  { destruct (sf_layers f), layer; rewrite ?negb_false_iff, ?bool_decide_eq_true; naive_solver. }
  assert (E3 : match sf_components f, component with
      | Some patterns, Some c => negb (existsb (fun p => component_glob_matches p c) patterns) | _, _ => false end = false <->
    forall patterns c, sf_components f = Some patterns -> component = Some c -> exists p, p ∈ patterns /\ glob p c).
  { destruct (sf_components f) as [ps|], component as [c|]; [|naive_solver..]. rewrite negb_false_iff, existsb_exists.
    setoid_rewrite component_glob_spec. setoid_rewrite <- list_elem_of_In. naive_solver. }
  destruct (match sf_events f with None => _ | Some _ => _ end); cbn [negb]; [|naive_solver].
  destruct (match sf_layers f with Some _ => _ | None => _ end); [naive_solver|].
  destruct (match sf_components f with Some _ => _ | None => _ end); naive_solver.
Qed.

Definition kept (es : list Event) : list (string * Value) :=
  omap (fun '(m, p, f) => if event_matches_filter f m p then Some (m, p) else None) es.

Lemma numbered_length seq es : length (numbered seq es) = length es.
Proof. revert seq. induction es as [|[m p] es IH]; intros seq; [done|]. cbn. by rewrite IH. Qed.

Lemma send_all_spec es : forall sd,
  0 <= sd_seq sd -> sd_seq sd + Z.of_nat (length es) <= U64_MAX ->
  send_all es sd = mkSender (sd_written sd ++ concat (map write_message (to_json <$> numbered (sd_seq sd) (kept es))))
    (sd_seq sd + Z.of_nat (length (kept es))).
Proof.
  induction es as [|[[m p] f] es IH]; intros [w n] H0 Hb; cbn [sd_seq sd_written] in *.
  - cbn. by rewrite app_nil_r, Z.add_0_r.
  - cbn [length] in Hb. change (send_all ((m, p, f) :: es) ?sd) with (send_all es (send_notification_filtered m p f sd)).
    unfold send_notification_filtered. cbn [kept omap list_omap]. destruct (event_matches_filter f m p).
    + assert (E : u64_add n 1 = n + 1) by (apply u64_add_small; lia). unfold send_notification. cbn [sd_seq sd_written]. rewrite E.
      rewrite IH by (cbn [sd_seq]; lia). cbn [sd_seq sd_written].
      cbn [length numbered fmap list_fmap map concat]. rewrite <- app_assoc. f_equal. unfold kept. lia.
    + rewrite IH by (cbn; lia). done.
Qed.

(** C28: the event stream of a subscriber.  Of any sequence of events, each with
    the filter in force when it happens, exactly those that pass every dimension
    of the filter are sent, in order, as notifications numbered consecutively
    from the current counter: a dropped event leaves no gap.  A client that reads
    the stream with the framing of the transport gets exactly these texts, when
    each is UTF-8 of at most the 16 MiB that the reader accepts and the counter
    does not wrap. *)
Theorem notification_stream (es : list Event) (seq : Z) (rest : list ascii)
    (H0 : 0 <= seq) (Hb : seq + Z.of_nat (length es) <= U64_MAX)
    (Htext : Forall sendable (to_json <$> numbered seq (kept es))) :
  (forall m p f, event_matches_filter f m p = true <-> passes f m p) /\
  let sd := send_all es (mkSender [] seq) in
  sd_seq sd = seq + Z.of_nat (length (kept es)) /\
  read_messages (length (kept es)) (sd_written sd ++ rest) = Some (to_json <$> numbered seq (kept es), rest).
Proof.
  split; [intros; apply event_matches_spec|]. rewrite send_all_spec by (cbn; lia). cbn [sd_seq sd_written app]. split; [done|].
  rewrite <- (read_messages_written _ rest Htext). by rewrite length_fmap, numbered_length.
Qed.

End Filter.

(** ** The protocol trace *)

Module TraceLog.

Definition DEFAULT_MAX_ENTRIES : Z := 10000.

Inductive Direction := Inbound | Outbound.

Record TraceEntry := mkTraceEntry { timestamp_us : Z; direction : Direction; raw : string }.

(** [epoch] is the origin of the timestamps, which are arguments here. *)
Record TraceLog := mkTraceLog { entries : list TraceEntry; max_entries : Z; total_recorded : Z }.

Definition new : TraceLog := mkTraceLog [] DEFAULT_MAX_ENTRIES 0.

Definition record (now_us : Z) (d : Direction) (message : string) (l : TraceLog) : TraceLog :=
  let es := if max_entries l <=? Z.of_nat (length (entries l)) then tail (entries l) else entries l in
  mkTraceLog (es ++ [mkTraceEntry now_us d message]) (max_entries l) (u64_add (total_recorded l) 1).

Definition len (l : TraceLog) : Z := total_recorded l.
Definition buffered (l : TraceLog) : Z := Z.of_nat (length (entries l)).
Definition is_empty (l : TraceLog) : bool := bool_decide (entries l = []).

Section Jsonl.
Context `{J : SerdeJson} (from_str : string -> option Value) (value_text : Value -> string).

Definition line_of (e : TraceEntry) : Value :=
  json_object [("t", json_u64 (timestamp_us e));
               ("d", json_string (match direction e with Inbound => "in" | Outbound => "out" end));
               ("msg", default (json_string (raw e)) (from_str (raw e)))]%string.

Definition to_jsonl (l : TraceLog) : string :=
  foldl (fun out e => (out +:+ value_text (line_of e) +:+ String (ascii_of_nat 10) "")%string) ""%string (entries l).
End Jsonl.

Definition record_all (ms : list TraceEntry) (l : TraceLog) : TraceLog :=
  foldl (fun l e => record (timestamp_us e) (direction e) (raw e) l) l ms.

(** The last [n] elements. *)
Definition last_n {A} (n : nat) (l : list A) : list A := drop (length l - n) l.

Lemma last_n_snoc {A} (n : nat) (l : list A) (x : A) :
  (0 < n)%nat -> last_n n (l ++ [x]) = (if (n <=? length (last_n n l))%nat then tail (last_n n l) else last_n n l) ++ [x].
Proof.
  intros Hn. unfold last_n. rewrite length_drop, length_app. cbn [length].
  destruct (Nat.leb_spec n (length l - (length l - n))).
  - rewrite drop_app_le by lia. f_equal. replace (length l + 1 - n)%nat with (S (length l - n)) by lia.
    rewrite <- (Nat.add_1_r (length l - n)), <- drop_drop. by destruct (drop (length l - n) l).
  - rewrite drop_app_le by lia. f_equal. f_equal. lia.
Qed.

Lemma record_all_spec ms :
  Z.of_nat (length ms) <= U64_MAX ->
  record_all ms new = mkTraceLog (last_n (Z.to_nat DEFAULT_MAX_ENTRIES) ms) DEFAULT_MAX_ENTRIES (Z.of_nat (length ms)).
Proof.
  induction ms as [|e ms IH] using rev_ind; intros Hb; [done|]. rewrite length_app in Hb. cbn [length] in Hb.
  unfold record_all in *. rewrite foldl_app, IH by lia. cbn [foldl]. unfold record. cbn [entries max_entries total_recorded].
  rewrite last_n_snoc by (unfold DEFAULT_MAX_ENTRIES; lia). rewrite length_app. cbn [length]. f_equal.
  - f_equal; [|by destruct e].
    destruct (Z.leb_spec DEFAULT_MAX_ENTRIES (Z.of_nat (length (last_n (Z.to_nat DEFAULT_MAX_ENTRIES) ms)))),
      (Nat.leb_spec (Z.to_nat DEFAULT_MAX_ENTRIES) (length (last_n (Z.to_nat DEFAULT_MAX_ENTRIES) ms)));
      try done; exfalso; unfold DEFAULT_MAX_ENTRIES in *; lia.
  - rewrite u64_add_small; lia.
Qed.

End TraceLog.

(** ** A concrete stream: a filter keeps one of two events *)

Lemma notification_stream_witness :
  exists sd, sd = @send_all json_ref ntf_method
      [(event.TICK_STOPPED, JObj [], Some (mkSubscribeFilter (Some [EventType_ProbeFired]) None None));
       (event.TICK_HEARTBEAT, JObj [], None)] (mkSender [] 4) /\
    sd_seq sd = 5 /\ read_messages 1 (sd_written sd ++ []) = Some (["tick.heartbeat"%string], []).
Proof.
  destruct (@notification_stream json_ref ntf_method
      [(event.TICK_STOPPED, JObj [], Some (mkSubscribeFilter (Some [EventType_ProbeFired]) None None));
       (event.TICK_HEARTBEAT, JObj [], None)] 4 []) as (_ & Hq & Hr).
  - lia.
  - vm_compute. discriminate.
  - constructor; [|constructor]. vm_compute. split; [reflexivity|discriminate].
  - eexists. split; [reflexivity|]. split; [exact Hq|exact Hr].
Defined.
