(* ===== verification/TuiDaemon.v ===== *)
(** * TuiDaemon: the terminal client's task for the daemon link

    [crates/rocket-surgeon-tui/src/daemon.rs] (handshake, the loop that serves
    both directions, the mapping of notifications) and [client/subscription.rs].
    What a request returns is an argument where it is made ([TuiLink] says what it
    can be); so is which of the two sources [select!] finds ready. *)

From Stdlib Require Import ZArith Lia Ascii String.
From stdpp Require Import base gmap strings list fin_maps sets.
From S2P Require Import Prelude Protocol Messages Json Framing TuiFraming Session Dispatch Notify TuiCache Tui TuiSpec.
Open Scope Z_scope.

#[export] Instance EventType_countable : Countable EventType.
Proof.
  refine (inj_countable' (fun e => match e with EventType_TickStopped => 0%nat | EventType_TickHeartbeat => 1%nat | EventType_ProbeFired => 2%nat
      | EventType_ReplayDivergence => 3%nat | EventType_Error => 4%nat end)
    (fun n => match n with 0%nat => EventType_TickStopped | 1%nat => EventType_TickHeartbeat | 2%nat => EventType_ProbeFired | 3%nat => EventType_ReplayDivergence | _ => EventType_Error end) _).
  by intros [].
Defined.

Definition TUI_PROTOCOL_VERSION : string := "0.3.0".

Section Daemon.
Context `{J : SerdeJson}.
(** [serde_json::from_value] of the two payloads the client understands. *)
Context (parse_position : Value -> option TickPosition) (parse_fired : Value -> option ProbeFiredEvent).

Definition map_notification (n : Notification) : option DaemonEvent :=
  if decide (ntf_method n = event.TICK_STOPPED) then
    params ← ntf_params n; position ← value_get params "position"; TickStopped <$> parse_position position
  else if decide (ntf_method n = event.PROBE_FIRED) then
    params ← ntf_params n; ProbeFired <$> parse_fired params
  else None.

(** Requests, in the order they are made: the method, and what it returned. *)
Definition Answer : Type := result ClientError Response.

Definition effect_request (e : Effect) : string * Value :=
  match e with
  | RequestStep count => (method.STEP, json_object [("direction"%string, json_string "forward"); ("count"%string, json_u64 count)])
  end.

Definition link_lost (e : ClientError) : bool := match e with CE_Closed | CE_Cancelled => true | _ => false end.

(** [dispatch_effect], given what the request returned. *)
Definition dispatch_effect (answer : Answer) : result ClientError unit :=
  match answer with
  | Ok _ => Ok tt
  | Err e => if link_lost e then Err e else Ok tt
  end.

Definition checked (answer : Answer) : result ClientError Response :=
  let? resp := answer in
  match rsp_error resp with
  | Some err => Err (CE_Rpc (rpe_code err) (rpe_message err))
  | None => Ok resp
  end.

Inductive RecvError := Recv_Closed | Recv_Lagged (skipped : Z).

(** What [select!] found: a notification, an effect with the answer its request
    got, or that the application has dropped the sender. *)
Inductive select_event :=
| SelNotification (r : result RecvError Notification)
| SelEffect (effect : Effect) (answer : Answer)
| SelNoMoreEffects.

(** The serving loop; [open n] tells whether the [n]-th action can still be
    delivered.  The events sent, and how the loop ended ([None]: it goes on). *)
Fixpoint serve (open : nat -> bool) (n : nat) (events : list select_event) : list DaemonEvent * option (result ClientError unit) :=
  match events with
  | [] => ([], None)
  | SelNotification (Ok ntf) :: events =>
      match map_notification ntf with
      | Some e =>
          if open n then let (sent, r) := serve open (S n) events in (e :: sent, r)
          else ([], Some (Err CE_Closed))
      | None => serve open n events
      end
  | SelNotification (Err Recv_Closed) :: _ => ([], Some (Ok tt))
  | SelNotification (Err (Recv_Lagged _)) :: events => serve open n events
  | SelEffect _ answer :: events =>
      match dispatch_effect answer with
      | Ok _ => serve open n events
      | Err e => ([], Some (Err e))
      end
  | SelNoMoreEffects :: _ => ([], Some (Ok tt))
  end.

Definition reported_version (resp : Response) : string :=
  default TUI_PROTOCOL_VERSION
    (r ← rsp_result resp; value_as_str (value_index (value_index (value_index r "data") "capabilities") "protocol_version")).

(** The requests of the handshake that have not returned yet are [None]. *)
Definition drive (open : nat -> bool) (initialize subscribe : option Answer) (events : list select_event)
  : list DaemonEvent * option (result ClientError unit) :=
  match initialize with
  | None => ([], None)
  | Some initialize =>
  match checked initialize with
  | Err e => ([], Some (Err e))
  | Ok resp =>
      if open 0%nat then
        let connected := Connected (reported_version resp) in
        match subscribe with
        | None => ([connected], None)
        | Some (Err e) => if link_lost e then ([connected], Some (Err e))
                          else let (sent, r) := serve open 1 events in (connected :: sent, r)
        | Some (Ok _) => let (sent, r) := serve open 1 events in (connected :: sent, r)
        end
      else ([], Some (Err CE_Closed))
  end
  end.

(** What starting the daemon gives: an error, or a child with or without the
    pipes to its standard input and output. *)
Record Child := mkChild { has_stdin : bool; has_stdout : bool }.

Definition run_link (spawned : result IoErrorKind Child) (open : nat -> bool) (initialize subscribe : option Answer) (events : list select_event)
  : list DaemonEvent * option (result ClientError unit) :=
  match spawned with
  | Err kind => ([], Some (Err (CE_Io kind)))
  | Ok child =>
      if negb (has_stdin child) then ([], Some (Err (CE_Io (Io_Other "daemon child stdin unavailable"))))
      else if negb (has_stdout child) then ([], Some (Err (CE_Io (Io_Other "daemon child stdout unavailable"))))
      else drive open initialize subscribe events
  end.

(** The task of [spawn]: [Disconnected] follows the end of [run_link], whatever
    it was. *)
Definition link_task (spawned : result IoErrorKind Child) (open : nat -> bool) (initialize subscribe : option Answer) (events : list select_event)
  : list DaemonEvent * bool :=
  match run_link spawned open initialize subscribe events with
  | (sent, Some _) => (sent ++ [Disconnected], true)
  | (sent, None) => (sent, false)
  end.

(** ** What the application is told *)

Lemma map_notification_cases n e : map_notification n = Some e -> (exists p, e = TickStopped p) \/ (exists f, e = ProbeFired f).
Proof.
  unfold map_notification. case_decide; [|case_decide; [|done]].
  - intros (params & _ & (position & _ & (p & _ & ->)%fmap_Some)%bind_Some)%bind_Some; eauto.
  - intros (params & _ & (f & _ & ->)%fmap_Some)%bind_Some; eauto.
Qed.

Definition payload (e : DaemonEvent) : bool := match e with TickStopped _ | ProbeFired _ => true | _ => false end.

Lemma serve_payload open events : forall n, Forall (fun e => payload e = true) (serve open n events).1.
Proof.
  induction events as [|ev events IH]; intros n; [constructor|]. destruct ev as [[ntf|[|k]]|eff answer|]; cbn [serve]; try done; [..|destruct (dispatch_effect answer); done].
  destruct (map_notification ntf) as [e|] eqn:E; [|done]. destruct (open n); [|done].
  specialize (IH (S n)). destruct (serve open (S n) events) as [sent r]. constructor; [|done]. by destruct (map_notification_cases ntf e E) as [[p ->]|[f ->]].
Qed.

Lemma drive_shape open initialize subscribe events :
  (drive open initialize subscribe events).1 = [] \/
  exists v sent, (drive open initialize subscribe events).1 = Connected v :: sent /\ Forall (fun e => payload e = true) sent.
Proof.
  unfold drive. destruct initialize as [initialize|]; [|by left]. destruct (checked initialize) as [resp|e]; [|by left]. destruct (open 0%nat); [|by left].
  right. exists (reported_version resp).
  pose proof (serve_payload open events 1) as H. destruct (serve open 1 events) as [sent r].
  destruct subscribe as [[sresp|e]|]; [by exists sent| |by exists []]. destruct (link_lost e); [by exists []; split; [|constructor]|by exists sent].
Qed.

(** The events that end the loop. *)
Definition fatal (ev : select_event) : bool :=
  match ev with
  | SelNotification (Err Recv_Closed) | SelNoMoreEffects => true
  | SelEffect _ (Err e) => link_lost e
  | _ => false
  end.

Lemma serve_ends events : forall n, is_Some (serve (fun _ => true) n events).2 <-> existsb fatal events = true.
Proof.
  induction events as [|ev events IH]; intros n; cbn [serve existsb]; [split; [by intros []|done]|].
  destruct ev as [[ntf|[|k]]|eff [resp|e]|]; cbn [serve fatal orb dispatch_effect]; try apply IH; try (split; [done|by eexists]).
  - destruct (map_notification ntf); [|apply IH]. specialize (IH (S n)). destruct (serve _ (S n) events). exact IH.
  - destruct (link_lost e); [|apply IH]. split; [done|by eexists].
Qed.

(** The daemon runs and can be talked to. *)
Definition reachable_child (spawned : result IoErrorKind Child) : bool :=
  match spawned with Ok child => has_stdin child && has_stdout child | Err _ => false end.

Definition handshake_pending (spawned : result IoErrorKind Child) (initialize : option Answer) : Prop :=
  reachable_child spawned = true /\ initialize = None.

(** What ends the link: a daemon that does not start or has no pipes, a refused
    handshake, a connection lost under a request, a closed stream, an application
    that has gone away. *)
Definition link_ends (spawned : result IoErrorKind Child) (initialize subscribe : option Answer) (events : list select_event) : Prop :=
  reachable_child spawned = false \/
  exists a, initialize = Some a /\
    (is_ok (checked a) = false \/
     exists b, subscribe = Some b /\ ((exists e, b = Err e /\ link_lost e = true) \/ existsb fatal events = true)).

Lemma drive_ends initialize subscribe events :
  is_Some (drive (fun _ => true) initialize subscribe events).2 <->
  exists a, initialize = Some a /\
    (is_ok (checked a) = false \/
     exists b, subscribe = Some b /\ ((exists e, b = Err e /\ link_lost e = true) \/ existsb fatal events = true)).
Proof.
  unfold drive. destruct initialize as [a|]; [|split; [by intros []|by intros (? & [=] & _)]].
  destruct (checked a) as [resp|e] eqn:Ea.
  2:{ split; [|by eexists]. intros _. exists a. split; [done|]. left. by rewrite Ea. }
  pose proof (serve_ends events 1) as H. destruct (serve _ 1 events) as [sent r]. cbn in H.
  destruct subscribe as [[sresp|e]|]; [|destruct (link_lost e) eqn:El|]; cbn; rewrite ?H.
  - split; [intros Hf; exists a; split; [done|]; right; by exists (Ok sresp); split; [|right]|].
    intros (? & [= <-] & [Hx|(b & [= <-] & [(? & ? & _)|?])]); [by rewrite Ea in Hx|done|done].
  - split; [|by eexists]. intros _. exists a. split; [done|]. right. exists (Err e). split; [done|]. left. by exists e.
  - split; [intros Hf; exists a; split; [done|]; right; by exists (Err e); split; [|right]|].
    intros (? & [= <-] & [Hx|(b & [= <-] & [(? & [= <-] & ?)|?])]); [by rewrite Ea in Hx|congruence|done].
  - split; [by intros []|]. intros (? & [= <-] & [Hx|(b & [=] & _)]). by rewrite Ea in Hx.
Qed.

Lemma run_link_ends spawned initialize subscribe events :
  is_Some (run_link spawned (fun _ => true) initialize subscribe events).2 <-> link_ends spawned initialize subscribe events.
Proof.
  unfold run_link, link_ends. destruct spawned as [child|kind]; [|split; [by left|by eexists]]. cbn [reachable_child].
  destruct (has_stdin child); cbn [negb andb]; [|split; [by left|by eexists]].
  destruct (has_stdout child); cbn [negb andb]; [|split; [by left|by eexists]].
  rewrite drive_ends. split; [by right|]. by intros [|].
Qed.

Lemma run_link_shape spawned initialize subscribe events :
  (run_link spawned (fun _ => true) initialize subscribe events).1 = [] \/
  exists v sent, (run_link spawned (fun _ => true) initialize subscribe events).1 = Connected v :: sent /\ Forall (fun e => payload e = true) sent.
Proof.
  unfold run_link. destruct spawned as [child|kind]; [|by left]. destruct (negb _); [by left|]. destruct (negb _); [by left|]. apply drive_shape.
Qed.

(** A link that goes on has told the application nothing exactly while the
    handshake is pending. *)
Lemma run_link_silent spawned initialize subscribe events :
  (run_link spawned (fun _ => true) initialize subscribe events).2 = None ->
  ((run_link spawned (fun _ => true) initialize subscribe events).1 = [] <-> handshake_pending spawned initialize).
Proof.
  unfold run_link, handshake_pending. destruct spawned as [child|kind]; [|done]. cbn [reachable_child].
  destruct (has_stdin child); cbn [negb andb]; [|done]. destruct (has_stdout child); cbn [negb andb]; [|done].
  unfold drive. destruct initialize as [a|]; [|done]. destruct (checked a) as [resp|e]; [|done].
  destruct (serve _ 1 events) as [sent r].
  destruct subscribe as [[sresp|e]|]; [|destruct (link_lost e)|]; cbn; intros; (split; [done|by intros [_ [=]]]).
Qed.

Definition is_disconnected (e : DaemonEvent) : bool := match e with Disconnected => true | _ => false end.

Lemma payload_no_disconnect es : Forall (fun e => payload e = true) es -> List.filter is_disconnected es = [].
Proof. induction 1 as [|e es He _ IH]; [done|]. by destruct e. Qed.

Lemma connected_status v es : Forall (fun e => payload e = true) es -> link_status (Connected v :: es) <> Status_Uninitialized.
Proof.
  induction es as [|e es IH] using rev_ind; intros H; [done|]. unfold link_status in *.
  change (Connected v :: es ++ [e]) with ((Connected v :: es) ++ [e]). apply Forall_app in H as [H [He _]%Forall_cons].
  rewrite omap_app. destruct e; try done; cbn [omap list_omap]; [by rewrite last_snoc|]. rewrite app_nil_r. by apply IH.
Qed.

(** C35: however keys and the link's events interleave, as long as the user has
    not quit and the application has taken what the link sent, the status bar
    says [Uninitialized] exactly while the handshake is pending and when the link
    has ended.  The link ends exactly if the daemon cannot be started or has no
    pipes, the handshake is refused or fails, the connection is lost under a
    later request, the notification stream closes or the application goes away -
    never because the daemon refuses a request after the handshake; and the end
    is reported once. *)
Theorem status_shows_the_link (spawned : result IoErrorKind Child) (initialize subscribe : option Answer) (events : list select_event) (actions : list Action) :
  let task := link_task spawned (fun _ => true) initialize subscribe events in
  daemon_part actions = task.1 -> (run actions App_new).1.2 = Flow_Continue ->
  (task.2 = true <-> link_ends spawned initialize subscribe events) /\
  (sn_status (ui_session (run actions App_new).2) = Status_Uninitialized <-> handshake_pending spawned initialize \/ task.2 = true) /\
  length (List.filter is_disconnected task.1) = if task.2 then 1%nat else 0%nat.
Proof.
  cbn zeta. intros Hd Hc. destruct (run_split actions App_new) as [_ H]. rewrite (H Hc).
  destruct (daemons_exact (daemon_part actions) (run (terminal_part actions) App_new).2) as (_ & -> & _ & _); [apply keys_view, terminal_part_daemon|].
  rewrite Hd, <- run_link_ends. clear H Hc Hd. unfold link_task. pose proof (run_link_shape spawned initialize subscribe events) as Hs.
  pose proof (run_link_silent spawned initialize subscribe events) as Hq.
  destruct (run_link spawned _ initialize subscribe events) as [sent [r|]]; cbn [fst snd] in *.
  - split_and!; [split; [by eexists|done]| |].
    + unfold link_status. rewrite omap_app. cbn [omap list_omap]. rewrite last_snoc. split; [by right|done].
    + destruct Hs as [->|(v & es & -> & He)]; [done|]. cbn. by rewrite List.filter_app, (payload_no_disconnect es He).
  - specialize (Hq eq_refl). destruct Hs as [->|(v & es & -> & He)].
    + split_and!; [split; [done|by intros []]| |done]. split; [intros _; left; by apply Hq|done].
    + split_and!; [split; [done|by intros []]| |].
      * split; [intros E'; by destruct (connected_status v es He)|]. intros [Hp|]; [|done]. by apply Hq in Hp.
      * cbn. by rewrite (payload_no_disconnect es He).
Qed.

End Daemon.

(** ** Subscriptions *)

Record SubscriptionState := mkSubscriptionState {
  sub_events : gset EventType;
  sub_layers : option (list Z);
  sub_components : option (list string)
}.

Definition initial_subscription_state : SubscriptionState := mkSubscriptionState ∅ None None.

(** The derived order: that of the declaration. *)
Definition event_type_le (a b : EventType) : bool :=
  let index e := match e with
                 | EventType_TickStopped => 0 | EventType_TickHeartbeat => 1 | EventType_ProbeFired => 2
                 | EventType_ReplayDivergence => 3 | EventType_Error => 4
                 end in
  index a <=? index b.

Definition subscribe_filter (st : SubscriptionState) : option SubscribeFilter :=
  if decide (sub_events st = ∅ /\ sub_layers st = None /\ sub_components st = None) then None
  else
    let event_list := if decide (sub_events st = ∅) then None else Some (sort_by event_type_le (elements (sub_events st))) in
    Some (mkSubscribeFilter event_list (sub_layers st) (sub_components st)).

Section Subscription.
Context `{J : SerdeJson} {se_subscribe : Serialize SubscribeRequest}.
(** [client.request] on the other side's state *)
Context {W : Type} (request : string -> Value -> W -> Answer * W).

Definition accepted (answer : Answer) : result ClientError unit :=
  let? resp := answer in
  match rsp_error resp with
  | Some err => Err (CE_Rpc (rpe_code err) (rpe_message err))
  | None => Ok tt
  end.

Definition update_filter (events : gset EventType) (layers : option (list Z)) (components : option (list string)) (st : SubscriptionState) (w : W)
  : result ClientError unit * SubscriptionState * W :=
  let st' := mkSubscriptionState events layers components in
  if decide (events = sub_events st /\ layers = sub_layers st /\ components = sub_components st) then (Ok tt, st, w)
  else
    let (resp, w) := request method.SUBSCRIBE (to_value (mkSubscribeRequest (subscribe_filter st'))) w in
    match accepted resp with
    | Ok _ => (Ok tt, st', w)
    | Err e => (Err e, st, w)
    end.

Definition unsubscribe (st : SubscriptionState) (w : W) : result ClientError unit * SubscriptionState * W :=
  let (resp, w) := request method.UNSUBSCRIBE (json_object []) w in
  match accepted resp with
  | Ok _ => (Ok tt, initial_subscription_state, w)
  | Err e => (Err e, st, w)
  end.

End Subscription.

(** What the subscriber asked for: no constraint where it gave none. *)
Definition wanted `{SerdeJson} (st : SubscriptionState) (method : string) (params : Value) : Prop :=
  (sub_events st = ∅ \/ exists et, method_to_event_type method = Some et /\ et ∈ sub_events st) /\
  (forall allowed l, sub_layers st = Some allowed -> fst (event_coordinates method params) = Some l -> l ∈ allowed) /\
  (forall patterns c, sub_components st = Some patterns -> snd (event_coordinates method params) = Some c -> exists p, p ∈ patterns /\ glob p c).

(** The client's state and the daemon's session: the daemon's handlers of
    [Dispatch] answer. *)
Section WithDaemon.
Context `{J : SerdeJson} {WR : Wire} {se_subscribe : Serialize SubscribeRequest}.
(** [serde]: what was serialized is parsed back, a request is an object, and an
    empty object is an [UnsubscribeRequest]. *)
Context (subscribe_roundtrip : forall r : SubscribeRequest, from_value (to_value r) = Ok r)
  (subscribe_not_null : forall r : SubscribeRequest, value_is_null (to_value r) = false)
  (unsubscribe_parses : from_value (json_object []) = Ok mkUnsubscribeRequest).

Definition daemon_request (rid : RequestId) (m : string) (params : Value) (s : Session) : Answer * Session :=
  let request := Request_new rid m params in
  if decide (m = method.SUBSCRIBE) then let (r, s) := handle_subscribe request s in (Ok r, s)
  else (Ok (handle_unsubscribe request s), s).

Lemma filter_wanted st method params : event_matches_filter (subscribe_filter st) method params = true <-> wanted st method params.
Proof.
  rewrite event_matches_spec. unfold passes, wanted, subscribe_filter. case_decide as E.
  - destruct E as (-> & -> & ->). naive_solver.
  - case_decide as Ee.
    + rewrite Ee. split; [intros H; specialize (H _ eq_refl); naive_solver|]. intros (_ & H2 & H3) f [= <-]. cbn. naive_solver.
    + split.
      * intros H. specialize (H _ eq_refl) as (H1 & H2 & H3). cbn in *. split; [|done]. right. destruct (H1 _ eq_refl) as (et & Het & Hin).
        exists et. rewrite sort_by_perm, elem_of_elements in Hin. done.
      * intros ([?|(et & Het & Hin)] & H2 & H3) f [= <-]; [done|]. cbn. split; [|done]. intros allowed [= <-]. exists et. by rewrite sort_by_perm, elem_of_elements.
Qed.

Lemma daemon_subscribe rid r s : daemon_request rid method.SUBSCRIBE (to_value r) s =
  match require_stopped method.SUBSCRIBE s with
  | Ok _ => let s := set_event_filter (SubscribeRequest_filter r) s in
            (Ok (serialize_envelope rid (envelope s (mkSubscribeResponse available_events (status s)))), s)
  | Err e => (Ok (session_error_to_response rid e), s)
  end.
Proof.
  unfold daemon_request. rewrite decide_True by done. unfold handle_subscribe, with_params, parse_params, Request_new, null_to_none.
  rewrite subscribe_not_null. cbn [req_params default from_option id]. rewrite subscribe_roundtrip. unfold when_stopped_or. cbn [req_id].
  change "rocket/subscribe"%string with method.SUBSCRIBE. by destruct (require_stopped method.SUBSCRIBE s).
Qed.

(** With the daemon's handler at the other end, a filter that
    [update_filter] has set is the one the daemon sends events by: it lets
    through exactly the events of the kinds, layers and components asked for; a
    refusal (the model is not stopped) leaves both sides as they were; and a
    client and a daemon that agree still do after any call. *)
Theorem subscription_agreed (rid : RequestId) (events : gset EventType) (layers : option (list Z)) (components : option (list string))
  (st : SubscriptionState) (s : Session) (Ha : s_event_filter s = subscribe_filter st) :
  let '(r, st', s') := update_filter (daemon_request rid) events layers components st s in
  s_event_filter s' = subscribe_filter st' /\
  (r = Ok tt -> st' = mkSubscriptionState events layers components /\
     forall m params, event_matches_filter (s_event_filter s') m params = true <-> wanted st' m params) /\
  (r <> Ok tt -> status s <> Status_Stopped /\ st' = st /\ s' = s).
Proof.
  unfold update_filter. case_decide as E.
  - destruct E as (-> & -> & ->). split_and!; [done| |done]. intros _. split; [by destruct st|]. rewrite Ha. apply filter_wanted.
  - rewrite daemon_subscribe. unfold require_stopped. destruct (status s) eqn:Es; cbn [accepted serialize_envelope Response_success rsp_error session_error_to_response error_response Response_error from_error_data SubscribeRequest_filter];
      (split_and!; [done| |]; [try done|by try (intros []; done)]).
    intros _. split; [done|]. apply filter_wanted.
Qed.

(** An [unsubscribe] is always acknowledged and never heard: the client takes
    it that nothing is subscribed, the session keeps the filter, and events pass
    or not as before. *)
Theorem unsubscribe_keeps_filter (rid : RequestId) (st : SubscriptionState) (s : Session) :
  unsubscribe (daemon_request rid) st s = (Ok tt, initial_subscription_state, s).
Proof.
  unfold unsubscribe, daemon_request. rewrite decide_False by done. unfold handle_unsubscribe, with_params, parse_params, Request_new, null_to_none.
  cbn [req_params]. destruct (value_is_null _); cbn [default from_option id]; by rewrite unsubscribe_parses.
Qed.

End WithDaemon.

(** ** Witnesses *)

Module Demo.

#[local] Existing Instance json_ref.

Definition event_number (e : EventType) : Z :=
  match e with
  | EventType_TickStopped => 0 | EventType_TickHeartbeat => 1 | EventType_ProbeFired => 2 | EventType_ReplayDivergence => 3 | EventType_Error => 4
  end.
Definition number_event (n : Z) : EventType :=
  if n =? 0 then EventType_TickStopped else if n =? 1 then EventType_TickHeartbeat else if n =? 2 then EventType_ProbeFired
  else if n =? 3 then EventType_ReplayDivergence else EventType_Error.

Definition list_out {A} (f : A -> JValue) (l : option (list A)) : JValue := match l with Some l => JArr (f <$> l) | None => JNull end.
Definition list_in {A} (f : JValue -> A) (v : JValue) : option (list A) := match v with JArr l => Some (f <$> l) | _ => None end.
Definition number (v : JValue) : Z := match v with JNum n => n | _ => 0 end.
Definition str (v : JValue) : string := match v with JStr s => s | _ => EmptyString end.

Lemma list_in_out {A} (f : A -> JValue) g l : (forall x, g (f x) = x) -> list_in g (list_out f l) = l.
Proof.
  intros H. destruct l as [l|]; [|done]. cbn. f_equal. rewrite <- list_fmap_compose. transitivity (id <$> l); [|apply list_fmap_id].
  apply list_fmap_ext. intros i x _. apply H.
Qed.

Definition to_json (r : SubscribeRequest) : JValue :=
  JObj [("filter"%string, match SubscribeRequest_filter r with
                          | None => JNull
                          | Some f => JArr [list_out (fun e => JNum (event_number e)) (sf_events f); list_out JNum (sf_layers f); list_out JStr (sf_components f)]
                          end)].
Definition of_json (v : JValue) : result string SubscribeRequest :=
  match v with
  | JObj [(_, JArr [e; l; c])] => Ok (mkSubscribeRequest (Some (mkSubscribeFilter (list_in (fun v => number_event (number v)) e) (list_in number l) (list_in str c))))
  | JObj [(_, JNull)] => Ok (mkSubscribeRequest None)
  | _ => Err "not a subscription"%string
  end.

Lemma roundtrip r : of_json (to_json r) = Ok r.
Proof. destruct r as [[[e l c]|]]; [|done]. cbn. rewrite !list_in_out; [done|done|done|by intros []]. Qed.

#[local] Instance se : Serialize SubscribeRequest := to_json.
#[local] Instance se_any T : Serialize T | 100 := fun _ => JNull.
#[local] Instance de_any T : Deserialize T | 100 := fun _ => Err "not supported"%string.
#[local] Instance de : Deserialize SubscribeRequest := of_json.
#[local] Instance de_un : Deserialize UnsubscribeRequest := fun _ => Ok mkUnsubscribeRequest.
#[local] Instance wire : Wire.
Proof. constructor; apply _. Defined.

Definition stopped : Session := Session.set_state (Session.set_status Status_Stopped (s_state Session.new)) Session.new.

Definition position (v : JValue) : option TickPosition :=
  match v with JNum n => Some (mkTickPosition n StepDirection_Forward None 0 "" TickEvent_Output None Phase_Prefill None None) | _ => None end.
Definition no_probe (v : JValue) : option ProbeFiredEvent := None.

Definition stop (n : Z) : select_event := SelNotification (Ok (Notification_new event.TICK_STOPPED (JObj [("position"%string, JNum n)]))).
Definition refused : Response := Response_error (RequestId_Number 3) (mkRpcError (-32001) "not stopped" None).
Definition accepted : Response := Response_success (RequestId_Number 1) (JObj []).

(** A step that is refused, a stop, then the connection is lost under a request. *)
Definition history : list select_event := [SelEffect (RequestStep 1) (Ok refused); stop 7; SelEffect (RequestStep 2) (Err CE_Cancelled); stop 8].

End Demo.

#[local] Existing Instance json_ref.

Lemma status_shows_the_link_witness :
  (let task := link_task (J:=json_ref) Demo.position Demo.no_probe (Ok (mkChild true true)) (fun _ => true) (Some (Ok Demo.accepted)) (Some (Ok Demo.refused)) Demo.history in
   task.2 = true /\ sn_status (ui_session (run (Act_Daemon <$> task.1) App_new).2) = Status_Uninitialized) /\
  (let task := link_task (J:=json_ref) Demo.position Demo.no_probe (Ok (mkChild true true)) (fun _ => true) None None [] in
   task.2 = false /\ sn_status (ui_session (run (Act_Daemon <$> task.1) App_new).2) = Status_Uninitialized).
Proof.
  cbv zeta. split.
  - destruct (status_shows_the_link (J:=json_ref) Demo.position Demo.no_probe (Ok (mkChild true true)) (Some (Ok Demo.accepted)) (Some (Ok Demo.refused)) Demo.history
      (Act_Daemon <$> (link_task (J:=json_ref) Demo.position Demo.no_probe (Ok (mkChild true true)) (fun _ => true) (Some (Ok Demo.accepted)) (Some (Ok Demo.refused)) Demo.history).1)) as (_ & H & _);
      [reflexivity|reflexivity|].
    split; [reflexivity|]. apply H. right. reflexivity.
  - destruct (status_shows_the_link (J:=json_ref) Demo.position Demo.no_probe (Ok (mkChild true true)) None None []
      (Act_Daemon <$> (link_task (J:=json_ref) Demo.position Demo.no_probe (Ok (mkChild true true)) (fun _ => true) None None []).1)) as (_ & H & _);
      [reflexivity|reflexivity|].
    split; [reflexivity|]. apply H. left. split; reflexivity.
Defined.

Lemma subscription_agreed_witness :
  exists r st s, update_filter (se_subscribe:=Demo.se) (daemon_request (WR:=Demo.wire) (RequestId_Number 2)) {[EventType_ProbeFired]} (Some [3]) None
      initial_subscription_state Demo.stopped = (r, st, s) /\
    r = Ok tt /\ s_event_filter s = Some (mkSubscribeFilter (Some [EventType_ProbeFired]) (Some [3]) None) /\
    (forall m params, event_matches_filter (s_event_filter s) m params = true <-> wanted st m params).
Proof.
  pose proof (subscription_agreed (WR:=Demo.wire) (se_subscribe:=Demo.se) Demo.roundtrip (fun _ => eq_refl) (RequestId_Number 2) {[EventType_ProbeFired]} (Some [3]) None
    initial_subscription_state Demo.stopped eq_refl) as H.
  destruct (update_filter _ _ _ _ _ _) as [[r st] s] eqn:E. destruct H as (_ & H & _). exists r, st, s.
  assert (Hr : r = Ok tt /\ s_event_filter s = Some (mkSubscribeFilter (Some [EventType_ProbeFired]) (Some [3]) None)).
  { vm_compute in E. injection E as <- _ <-. split; reflexivity. }
  split; [reflexivity|]. split; [apply Hr|]. split; [apply Hr|]. apply H, Hr.
Defined.

Lemma unsubscribe_keeps_filter_witness :
  unsubscribe (daemon_request (WR:=Demo.wire) (RequestId_Number 2)) initial_subscription_state Demo.stopped = (Ok tt, initial_subscription_state, Demo.stopped).
Proof. apply (unsubscribe_keeps_filter (WR:=Demo.wire)). reflexivity. Defined.
