(* ===== verification/Orchestrator.v ===== *)
(** * Orchestrator: the life of the worker process

    [crates/rocket-surgeon-orchestrator/src/dispatch.rs] and
    [worker_handle.rs].  The operating system is an argument: what spawning,
    polling, writing to and reading from the child gives during a request is a
    record [Io], so every failure can happen at every point.  [children] is the
    set of child processes that were started and not yet killed and reaped
    ([WorkerHandle::kill], which dropping the handle runs too). *)

From Stdlib Require Import ZArith Lia Ascii String.
From stdpp Require Import base gmap sets strings list.
From S2P Require Import Prelude Framing Protocol Stdio Messages Json.
Open Scope Z_scope.

Section Orchestrator.
Context `{J : SerdeJson}.

Record WorkerHandle := mkWorkerHandle { pid : Z }.

Record OrchestratorState := mkOrchestratorState {
  worker : option WorkerHandle;
  worker_bin : string;
  log_level : string;
  (** not a field of the Rust type: the processes this one has started *)
  children : gset Z
}.

Record Io := mkIo {
  io_spawn : result string Z;
  io_alive : bool;
  io_send : result string unit;
  io_recv : result string Response
}.

Definition set_worker (w : option WorkerHandle) (st : OrchestratorState) : OrchestratorState :=
  mkOrchestratorState w (worker_bin st) (log_level st) (children st).
Definition set_children (c : gset Z) (st : OrchestratorState) : OrchestratorState :=
  mkOrchestratorState (worker st) (worker_bin st) (log_level st) c.

Definition spawn (io : Io) (st : OrchestratorState) : result string WorkerHandle * OrchestratorState :=
  match io_spawn io with
  | Ok p => (Ok (mkWorkerHandle p), set_children ({[p]} ∪ children st) st)
  | Err e => (Err e, st)
  end.

(** [kill], explicit or by [Drop] *)
Definition kill (w : WorkerHandle) (st : OrchestratorState) : OrchestratorState :=
  set_children (children st ∖ {[pid w]}) st.

Definition internal (request : Request) (message : string) : Response :=
  Response_error (req_id request) (mkRpcError INTERNAL_ERROR message None).

(** The worker's pid is written into a successful attach result. *)
Definition stamp_pid (w : WorkerHandle) (response : Response) : Response :=
  mkResponse (rsp_jsonrpc response) (rsp_id response)
    (match rsp_result response with
     | Some result => Some (default result (value_insert result "worker_pid" (json_u64 (pid w))))
     | None => None
     end) (rsp_error response).

Definition handle_host_attach (io : Io) (request : Request) (st : OrchestratorState) : Response * OrchestratorState :=
  match worker st with
  | Some _ => (internal request "Worker already running", st)
  | None =>
      match spawn io st with
      | (Err e, st) => (internal request ("Failed to spawn worker: " +:+ e)%string, st)
      | (Ok w, st) =>
          match io_send io with
          | Err e => (internal request ("Failed to send request to worker: " +:+ e)%string, kill w st)
          | Ok _ =>
              match io_recv io with
              | Err e => (internal request ("Worker failed during attach: " +:+ e)%string, kill w st)
              | Ok response =>
                  match rsp_error response with
                  | Some _ => (response, kill w st)
                  | None => (stamp_pid w response, set_worker (Some w) st)
                  end
              end
          end
      end
  end.

Definition handle_host_detach (io : Io) (request : Request) (st : OrchestratorState) : Response * OrchestratorState :=
  match worker st with
  | None => (internal request "No worker running", st)
  | Some w =>
      (* taken out of the state, and dropped on every path *)
      let st := kill w (set_worker None st) in
      if negb (io_alive io) then (internal request "Worker process is no longer running", st)
      else match io_send io with
           | Err e => (internal request ("Failed to send detach to worker: " +:+ e)%string, st)
           | Ok _ => match io_recv io with
                     | Ok r => (r, st)
                     | Err e => (internal request ("Worker failed during detach: " +:+ e)%string, st)
                     end
           end
  end.

Definition forward_to_worker (io : Io) (request : Request) (st : OrchestratorState) : Response * OrchestratorState :=
  match worker st with
  | None => (internal request "No worker running", st)
  | Some w =>
      if negb (io_alive io) then (internal request "Worker process is no longer running", kill w (set_worker None st))
      else match io_send io with
           | Err e => (internal request ("Failed to send request to worker: " +:+ e)%string, st)
           | Ok _ => match io_recv io with
                     | Ok r => (r, st)
                     | Err e => (internal request ("Worker failed: " +:+ e)%string, st)
                     end
           end
  end.

Definition forwarded : list string :=
  [internal.HOST_STEP; internal.HOST_CONFIGURE_HOOKS; internal.HOST_UPDATE_PROBES; internal.HOST_INSPECT;
   internal.HOST_VIEW; internal.HOST_KV_READ; internal.HOST_KV_INTERVENE; internal.HOST_EXPORT_ENV;
   internal.HOST_CHECKPOINT; internal.HOST_REPLAY].

Definition dispatch (io : Io) (request : Request) (st : OrchestratorState) : Response * OrchestratorState :=
  let m := req_method request in
  if decide (m = internal.HOST_ATTACH) then handle_host_attach io request st
  else if decide (m = internal.HOST_DETACH) then handle_host_detach io request st
  else if decide (m ∈ forwarded) then forward_to_worker io request st
  else (Response_error (req_id request) (mkRpcError METHOD_NOT_FOUND ("Method not found: " +:+ m)%string None), st).

(** ** Ownership of the child process *)

Definition start (bin level : string) : OrchestratorState := mkOrchestratorState None bin level ∅.

Definition run (st : OrchestratorState) (h : list (Io * Request)) : OrchestratorState :=
  foldl (fun st ir => (dispatch ir.1 ir.2 st).2) st h.

(** Exactly the worker the state holds is alive. *)
Definition owns (st : OrchestratorState) : Prop :=
  children st = match worker st with Some w => {[pid w]} | None => ∅ end.

Lemma kill_owned w st : children st = {[pid w]} -> children (kill w st) = ∅.
Proof. intros H. cbn. rewrite H. set_solver. Qed.

Lemma dispatch_owns io request st : owns st -> owns (dispatch io request st).2.
Proof.
  unfold owns. intros H. unfold dispatch. destruct (decide _); [|destruct (decide _); [|destruct (decide _); [|done]]].
  - unfold handle_host_attach, spawn. destruct (worker st) as [w|] eqn:Ew; [cbn; by rewrite Ew|].
    destruct (io_spawn io) as [p|err]; [|cbn; by rewrite Ew].
    destruct (io_send io); [destruct (io_recv io) as [r|]; [destruct (rsp_error r)|]|]; cbn; rewrite H, ?Ew; set_solver.
  - unfold handle_host_detach. destruct (worker st) as [w|] eqn:Ew; [|cbn; by rewrite Ew].
    destruct (negb _); [|destruct (io_send io); [destruct (io_recv io)|]]; cbn; rewrite H; set_solver.
  - unfold forward_to_worker. destruct (worker st) as [w|] eqn:Ew; [|cbn; by rewrite Ew].
    destruct (negb _); [cbn; rewrite H; set_solver|].
    destruct (io_send io); [destruct (io_recv io)|]; cbn; by rewrite Ew.
Qed.

Lemma run_owns h : forall st, owns st -> owns (run st h).
Proof. induction h as [|[io r] h IH]; intros st H; [done|]. apply IH. by apply dispatch_owns. Qed.

(** When a worker is kept: an attach that spawned one and got an answer without
    an error, and until a detach or the discovery that it died. *)
Definition keeps (io : Io) (request : Request) (st : OrchestratorState) : bool :=
  match worker st with
  | None => bool_decide (req_method request = internal.HOST_ATTACH) &&
            match io_spawn io, io_send io, io_recv io with
            | Ok _, Ok _, Ok r => match rsp_error r with None => true | Some _ => false end
            | _, _, _ => false
            end
  | Some _ => negb (bool_decide (req_method request = internal.HOST_DETACH)) &&
              (io_alive io || negb (bool_decide (req_method request ∈ forwarded)))
  end.

Lemma dispatch_keeps io request st :
  bool_decide (is_Some (worker (dispatch io request st).2)) = keeps io request st.
Proof.
  unfold dispatch, keeps.
  assert (Hd : internal.HOST_DETACH <> internal.HOST_ATTACH) by done.
  assert (Ha : internal.HOST_ATTACH ∉ forwarded) by (apply (bool_decide_eq_true_1 _); reflexivity).
  destruct (decide (req_method request = internal.HOST_ATTACH)) as [E|E].
  { rewrite E. rewrite (bool_decide_eq_true_2 _ eq_refl), (bool_decide_eq_false_2 (_ = internal.HOST_DETACH)) by done.
    rewrite (bool_decide_eq_false_2 _ Ha). unfold handle_host_attach, spawn. destruct (worker st) as [w|] eqn:Ew.
    - cbn. rewrite Ew. by destruct (io_alive io).
    - cbn. destruct (io_spawn io); [|cbn; by rewrite Ew].
      destruct (io_send io); [destruct (io_recv io) as [r|]; [destruct (rsp_error r)|]|]; cbn; by rewrite ?Ew. }
  rewrite (bool_decide_eq_false_2 (_ = internal.HOST_ATTACH)) by done. cbn [andb].
  destruct (decide (req_method request = internal.HOST_DETACH)) as [E2|E2].
  { rewrite (bool_decide_eq_true_2 _ E2). cbn [negb andb]. unfold handle_host_detach. destruct (worker st) eqn:Ew; [|cbn; by rewrite Ew].
    destruct (negb _); [|destruct (io_send io); [destruct (io_recv io)|]]; done. }
  rewrite (bool_decide_eq_false_2 _ E2). cbn [negb andb].
  destruct (decide (req_method request ∈ forwarded)) as [E3|E3].
  - rewrite (bool_decide_eq_true_2 _ E3). cbn [negb]. rewrite orb_false_r. unfold forward_to_worker.
    destruct (worker st) eqn:Ew; [|cbn; by rewrite Ew].
    destruct (io_alive io); cbn [negb]; [|done]. destruct (io_send io); [destruct (io_recv io)|]; cbn; by rewrite Ew.
  - rewrite (bool_decide_eq_false_2 _ E3). cbn [negb]. rewrite orb_true_r. cbn. by destruct (worker st).
Qed.

(** ** The main loop

    [main] of [crates/rocket-surgeon-orchestrator/src/main.rs]: when the loop
    ends the state is dropped, and with it the worker's handle. *)

Context (parse_request : string -> result string Request) (print_response : Response -> string) (parse_failure : string -> string).

Definition serve (ios : list Io) (input : list ascii) (st : OrchestratorState) (written : list ascii)
  : option (list ascii * OrchestratorState) :=
  message_loop (fun io request st => Some (dispatch io request st)) parse_request print_response parse_failure ios input st written.

Definition drop_state (st : OrchestratorState) : OrchestratorState :=
  match worker st with Some w => set_worker None (kill w st) | None => st end.

(** What the worker-bound requests answer: those of [forwarded], and the detach. *)
Definition worker_bound (request : Request) : Prop :=
  req_method request ∈ forwarded \/ req_method request = internal.HOST_DETACH.

Lemma dispatch_worker_bound io request st : worker_bound request ->
  dispatch io request st = (if decide (req_method request = internal.HOST_DETACH) then handle_host_detach io request st
                            else forward_to_worker io request st).
Proof.
  intros Hb. unfold dispatch.
  assert (Hd : internal.HOST_DETACH <> internal.HOST_ATTACH) by done.
  assert (Ha : internal.HOST_ATTACH ∉ forwarded) by (apply (bool_decide_eq_true_1 _); reflexivity).
  rewrite decide_False by (intros E; destruct Hb as [Hb|Hb]; rewrite E in Hb; congruence).
  destruct (decide _); [done|]. destruct Hb as [Hb|Hb]; [|congruence]. by rewrite decide_True.
Qed.

(** Without a worker, with a dead one, and with one that cannot be written to or
    does not answer, the request is refused; otherwise the answer is the worker's. *)
Lemma worker_bound_answers io request st : worker_bound request ->
  (worker st = None -> dispatch io request st = (internal request "No worker running", st)) /\
  (is_Some (worker st) -> (dispatch io request st).1 =
     (if io_alive io then
        match io_send io, io_recv io with
        | Ok _, Ok r => r
        | Err e, _ => internal request ((if decide (req_method request = internal.HOST_DETACH)
                        then "Failed to send detach to worker: " else "Failed to send request to worker: ") +:+ e)
        | Ok _, Err e => internal request ((if decide (req_method request = internal.HOST_DETACH)
                        then "Worker failed during detach: " else "Worker failed: ") +:+ e)
        end
      else internal request "Worker process is no longer running"))%string.
Proof.
  intros Hb. rewrite dispatch_worker_bound by done. unfold handle_host_detach, forward_to_worker.
  split.
  - intros ->. by destruct (decide _).
  - intros [w ->]. destruct (decide _); destruct (io_alive io); cbn [negb]; try done; destruct (io_send io); try done; by destruct (io_recv io).
Qed.

(** C24: the orchestrator never leaks a process and never answers for a worker it
    does not have.  Whatever requests arrive and whatever fails - spawning,
    writing, reading, the worker dying - the child processes not yet killed and
    reaped are exactly the worker it holds, so there is at most one; a worker is
    kept exactly from an attach answered without an error until a detach, or
    until a request finds it dead.  A second attach is refused.  A request bound
    for the worker (detach and the ten forwarded methods) is refused with an
    error, and changes nothing, when there is no worker; it is refused when the
    worker is found dead, and when writing to it or reading from it fails; and
    otherwise its answer is the worker's own. *)
Theorem no_orphan_workers (bin level : string) (h : list (Io * Request)) :
  let st := run (start bin level) h in
  children st = match worker st with Some w => {[pid w]} | None => ∅ end /\
  forall io request,
    bool_decide (is_Some (worker (dispatch io request st).2)) = keeps io request st /\
    (req_method request = internal.HOST_ATTACH -> is_Some (worker st) ->
       dispatch io request st = (internal request "Worker already running", st)) /\
    (worker_bound request ->
       (worker st = None -> dispatch io request st = (internal request "No worker running", st)) /\
       (is_Some (worker st) -> (dispatch io request st).1 =
          (if io_alive io then
             match io_send io, io_recv io with
             | Ok _, Ok r => r
             | Err e, _ => internal request ((if decide (req_method request = internal.HOST_DETACH)
                             then "Failed to send detach to worker: " else "Failed to send request to worker: ") +:+ e)
             | Ok _, Err e => internal request ((if decide (req_method request = internal.HOST_DETACH)
                             then "Worker failed during detach: " else "Worker failed: ") +:+ e)
             end
           else internal request "Worker process is no longer running")))%string.
Proof.
  cbv zeta. split; [by apply run_owns|]. intros io request. split; [apply dispatch_keeps|]. split.
  - intros E [w Hw]. unfold dispatch, handle_host_attach. by rewrite decide_True, Hw.
  - apply worker_bound_answers.
Qed.

(** The orchestrator's process from start to end: one framed answer for every
    framed message, in order, a message that does not parse included; and
    whatever bytes arrive and whatever fails, no child outlives the process. *)
Theorem orchestrator_serves_messages (bin level : string) (ios : list Io) (texts : list string) (rest : list ascii)
    (Ht : Forall sendable texts) (Hl : length ios = length texts) :
  (exists written st out, serve ios (concat (map write_message texts) ++ rest) (start bin level) [] = Some (written, st) /\
     length out = length texts /\ (Forall sendable out -> read_messages (length texts) written = Some (out, []))) /\
  (forall ios input written st, serve ios input (start bin level) [] = Some (written, st) -> children (drop_state st) = ∅).
Proof.
  split.
  - pose proof (message_loop_answers (fun io request st => Some (dispatch io request st)) parse_request print_response parse_failure ios texts rest (start bin level) Ht Hl) as H.
    destruct (loop_replies_total (fun io request st => Some (dispatch io request st)) parse_request print_response parse_failure ios texts (start bin level)) as [[out st2] E]; [by eexists|].
    rewrite E in H. unfold serve. destruct (message_loop _ _ _ _ _ _ _ _) as [[written st]|]; [|done]. destruct H as (_ & H1 & H2). by exists written, st, out.
  - intros ios' input written st H.
    assert (Ho : owns st).
    { refine (message_loop_invariant _ _ _ _ owns _ ios' input (start bin level) [] written st _ H); [|reflexivity]. intros io request s resp s' Hs [= E]. pose proof (dispatch_owns io request s Hs) as Hd. by rewrite E in Hd. }
    unfold drop_state, owns in *. destruct (worker st) as [w|]; [|done]. cbn. rewrite Ho. set_solver.
Qed.

End Orchestrator.
