(* ===== verification/Link.v ===== *)
(** * Link: the daemon's connection to the orchestrator

    [crates/rocket-surgeon/src/orchestrator_handle.rs]: requests with
    consecutive ids over the pipes of a child process.  The child and the pipe
    are the class [Peer]: writing a request and reading the next message gives
    a response or the text of a transport error, and changes the peer. *)

From Stdlib Require Import ZArith Lia Ascii String.
From stdpp Require Import base strings list.
From S2P Require Import Prelude Protocol Messages Json Dispatch.
Open Scope Z_scope.

Class Peer `{SerdeJson} := {
  peer : Type;
  (** [send] followed by [recv] *)
  exchange : Request -> peer -> result string Response * peer
}.

(** The derived instances used on this connection. *)
Class HostWire `{J : SerdeJson} := {
  hse_attach :: Serialize HostAttachRequest;
  hse_detach :: Serialize HostDetachRequest;
  hse_step :: Serialize HostStepRequest;
  hse_inspect :: Serialize HostInspectRequest;
  hse_view :: Serialize HostViewRequest;
  hse_kv_read :: Serialize HostKvReadRequest;
  hse_kv_intervene :: Serialize HostKvInterveneRequest;
  hse_update_probes :: Serialize HostUpdateProbesRequest;
  hse_export_env :: Serialize HostExportEnvRequest;
  hse_checkpoint :: Serialize HostCheckpointRequest;
  hse_replay :: Serialize HostReplayRequest;
  hde_attach :: Deserialize HostAttachResponse;
  hde_step :: Deserialize HostStepResponse;
  hde_inspect :: Deserialize HostInspectResponse;
  hde_view :: Deserialize HostViewResponse;
  hde_kv_read :: Deserialize HostKvReadResponse;
  hde_kv_intervene :: Deserialize HostKvInterveneResponse;
  hde_update_probes :: Deserialize HostUpdateProbesResponse;
  hde_export_env :: Deserialize HostExportEnvResponse;
  hde_checkpoint :: Deserialize HostCheckpointResponse;
  hde_replay :: Deserialize HostReplayResponse
}.

Section Link.
Context `{J : SerdeJson} {P : Peer} {HW : HostWire}.

Record OrchestratorHandle := mkOrchestratorHandle { oh_peer : peer; oh_next_id : Z }.

(** [spawn], once the process runs. *)
Definition connect (p : peer) : OrchestratorHandle := mkOrchestratorHandle p 1.

(** [next_id], [Request::new], [send] and [recv] *)
Definition call_raw {Req} `{!Serialize Req} (method : string) (req : Req) (o : OrchestratorHandle)
  : result string Response * OrchestratorHandle :=
  let request := Request_new (RequestId_Number (oh_next_id o)) method (to_value req) in
  let (r, p) := exchange request (oh_peer o) in
  (r, mkOrchestratorHandle p (oh_next_id o + 1)).

(** The error check of the methods that parse their answer: [what] is the
    method's name in its messages. *)
Definition check_error (what : string) (rsp : Response) : result string Response :=
  match rsp_error rsp with
  | Some err => Err ("orchestrator " +:+ what +:+ " failed (code " +:+ i64_to_string (rpe_code err) +:+ "): " +:+ rpe_message err)%string
  | None => Ok rsp
  end.

Definition parse_result {T} `{!Deserialize T} (what : string) (rsp : Response) : result string T :=
  match rsp_result rsp with
  | None => Err ("orchestrator " +:+ what +:+ ": missing result")%string
  | Some v => from_value v
  end.

Definition call {Req T} `{!Serialize Req, !Deserialize T} (what method : string) (req : Req) (o : OrchestratorHandle)
  : result string T * OrchestratorHandle :=
  let (r, o) := call_raw method req o in
  (let? rsp := r in let? rsp := check_error what rsp in parse_result what rsp, o).

Definition attach (req : HostAttachRequest) (o : OrchestratorHandle) : result string HostAttachResponse * OrchestratorHandle :=
  call "attach" internal.HOST_ATTACH req o.
Definition detach (handle : Z) (o : OrchestratorHandle) : result string unit * OrchestratorHandle :=
  let (r, o) := call_raw internal.HOST_DETACH (mkHostDetachRequest handle) o in
  (let? rsp := r in let? _ := check_error "detach" rsp in Ok tt, o).
Definition step (req : HostStepRequest) (o : OrchestratorHandle) : result string HostStepResponse * OrchestratorHandle :=
  call "step" internal.HOST_STEP req o.
Definition inspect_raw (req : HostInspectRequest) (o : OrchestratorHandle) : result string Response * OrchestratorHandle :=
  call_raw internal.HOST_INSPECT req o.
Definition view_raw (req : HostViewRequest) (o : OrchestratorHandle) : result string Response * OrchestratorHandle :=
  call_raw internal.HOST_VIEW req o.
Definition kv_read_raw (req : HostKvReadRequest) (o : OrchestratorHandle) : result string Response * OrchestratorHandle :=
  call_raw internal.HOST_KV_READ req o.
Definition kv_intervene_raw (req : HostKvInterveneRequest) (o : OrchestratorHandle) : result string Response * OrchestratorHandle :=
  call_raw internal.HOST_KV_INTERVENE req o.
Definition update_probes (req : HostUpdateProbesRequest) (o : OrchestratorHandle)
  : result string HostUpdateProbesResponse * OrchestratorHandle := call "update_probes" internal.HOST_UPDATE_PROBES req o.
Definition export_env (req : HostExportEnvRequest) (o : OrchestratorHandle)
  : result string HostExportEnvResponse * OrchestratorHandle := call "export_env" internal.HOST_EXPORT_ENV req o.
Definition checkpoint (req : HostCheckpointRequest) (o : OrchestratorHandle)
  : result string HostCheckpointResponse * OrchestratorHandle := call "checkpoint" internal.HOST_CHECKPOINT req o.
Definition replay (req : HostReplayRequest) (o : OrchestratorHandle) : result string HostReplayResponse * OrchestratorHandle :=
  call "replay" internal.HOST_REPLAY req o.

End Link.
