(* ===== verification/Bundle.v ===== *)
(** * Bundle: writing an export bundle

    [crates/rocket-surgeon/src/bundle.rs]: [assemble_bundle] writes a gzipped tar
    archive next to its destination and renames it there.  The tar and flate2
    crates are the class [Archive]; which of the system's calls fail is the
    record [BundleIo].  Files are keyed by the text of their path. *)

From Stdlib Require Import ZArith Lia Ascii String.
From coqutil Require Import Byte.
From stdpp Require Import base gmap strings list.
From S2P Require Import Prelude.
Open Scope Z_scope.

Abbreviation Files := (gmap string (list byte)).

(** ** [Path::with_extension] *)

(** The path from its end, without trailing separators and [/.] components. *)
Fixpoint trim_separators (rpath : list ascii) : list ascii :=
  match rpath with
  | "/"%char :: r => trim_separators r
  | "."%char :: (("/"%char :: _) as r) => trim_separators r
  | _ => rpath
  end.

Definition not_slash (c : ascii) : bool := negb (bool_decide (c = "/"%char)).

(** [Path::file_name], with what stands before it. *)
Definition file_name (path : string) : option (list ascii * list ascii) :=
  let (rname, rparent) := span not_slash (trim_separators (rev (chars path))) in
  if decide (rname = [] \/ rname = chars "." \/ rname = chars "..") then None else Some (rev rparent, rev rname).

(** [Path::file_stem] of a name: what precedes its last dot, unless the name
    starts with it. *)
Definition file_stem (name : list ascii) : list ascii :=
  match span (fun c => negb (bool_decide (c = "."%char))) (rev name) with
  | (_, _ :: ((_ :: _) as rstem)) => rev rstem
  | _ => name
  end.

Definition with_extension (path extension : string) : string :=
  match file_name path with
  | Some (parent, name) => text (parent ++ file_stem name ++ "."%char :: chars extension)
  | None => path
  end.

(** ** The archive *)

Record BundleArtifact := mkBundleArtifact { art_name : string; art_data : list byte }.

(** [tar::Header::new_gnu()] with its size and mode set. *)
Record TarHeader := mkTarHeader { th_size : Z; th_mode : Z }.

Class Archive := {
  (** the blocks of one member; [None] for a name that tar refuses *)
  tar_entry : TarHeader -> string -> list byte -> option (list byte);
  (** the end-of-archive blocks *)
  tar_end : list byte;
  gzip : list byte -> list byte
}.

(** Which calls succeed, and what a failing run has left in the temporary file. *)
Record BundleIo := mkBundleIo {
  io_create : bool;
  io_append : nat -> bool;
  io_finalize : bool;
  io_finish : bool;
  io_rename : bool;
  io_stat : bool;
  io_left : list byte
}.

Section Assemble.
Context {AR : Archive}.

(** The mode is [0o644]. *)
Definition artifact_header (a : BundleArtifact) : TarHeader := mkTarHeader (Z.of_nat (List.length (art_data a))) 0x1A4.

(** The loop over the artifacts, from the [i]-th. *)
Fixpoint append_artifacts (io : BundleIo) (i : nat) (artifacts : list BundleArtifact) (tar : list byte) : result string (list byte) :=
  match artifacts with
  | [] => Ok tar
  | a :: rest =>
      match (if io_append io i then tar_entry (artifact_header a) (art_name a) (art_data a) else None) with
      | Some blocks => append_artifacts io (S i) rest (tar ++ blocks)
      | None => Err ("append " +:+ art_name a)%string
      end
  end.

(** The error is the context that [anyhow] displays. *)
Definition assemble_bundle (io : BundleIo) (path : string) (artifacts : list BundleArtifact) (fs : Files) : result string Z * Files :=
  let tmp_path := with_extension path "tar.gz.tmp" in
  let failed context := (Err context, <[tmp_path := io_left io]> fs) in
  if negb (io_create io) then (Err ("create " +:+ tmp_path)%string, fs)
  else match append_artifacts io 0 artifacts [] with
       | Err context => failed context
       | Ok tar =>
           if negb (io_finalize io) then failed "finalize tar"%string
           else if negb (io_finish io) then failed "finalize gzip"%string
           else
             let data := gzip (tar ++ tar_end) in
             if negb (io_rename io) then (Err ("rename " +:+ tmp_path +:+ " → " +:+ path)%string, <[tmp_path := data]> fs)
             else
               let fs := <[path := data]> (delete tmp_path fs) in
               if negb (io_stat io) then (Err "stat bundle"%string, fs)
               else (Ok (Z.of_nat (List.length data)), fs)
       end.

(** ** What an export leaves behind *)

(** The archive of the artifacts, if tar takes all the names. *)
Definition bundle_of (artifacts : list BundleArtifact) : option (list byte) :=
  blocks ← mapM (fun a => tar_entry (artifact_header a) (art_name a) (art_data a)) artifacts;
  Some (gzip (concat blocks ++ tar_end)).

Lemma append_artifacts_ok io artifacts : forall i tar tar',
  append_artifacts io i artifacts tar = Ok tar' ->
  exists blocks, mapM (fun a => tar_entry (artifact_header a) (art_name a) (art_data a)) artifacts = Some blocks /\ tar' = tar ++ concat blocks.
Proof.
  induction artifacts as [|a rest IH]; intros i tar tar'; cbn [append_artifacts].
  - intros [= <-]. exists []. by rewrite app_nil_r.
  - destruct (io_append io i); [|done]. destruct (tar_entry _ _ _) as [b|] eqn:E; [|done]. intros (bs & Eb & ->)%IH.
    exists (b :: bs). cbn. by rewrite E, Eb, <- app_assoc.
Qed.

End Assemble.

Lemma trim_separators_suffix r : exists junk, r = junk ++ trim_separators r /\ (junk = [] \/ exists c j, junk = c :: j /\ c <> "p"%char).
Proof.
  assert (H : forall n r, (List.length r <= n)%nat -> exists junk, r = junk ++ trim_separators r /\ (junk = [] \/ exists c j, junk = c :: j /\ c <> "p"%char)); [|by apply (H (List.length r))].
  clear r. induction n as [|n IH]; intros [|c r] Hn; [exists []; auto|cbn in Hn; lia|exists []; auto|]. cbn in Hn.
  destruct (IH r ltac:(lia)) as (j & Ej & _).
  destruct (decide (c = "/"%char)) as [->|Hs].
  { exists ("/"%char :: j). cbn [trim_separators app]. split; [by rewrite <- Ej|right; by exists "/"%char, j]. }
  destruct (decide (c = "."%char /\ head r = Some "/"%char)) as [[-> Hh]|Hd].
  { destruct r as [|c' r]; [done|]. injection Hh as ->. exists ("."%char :: j). split; [|right; by exists "."%char, j].
    change (trim_separators ("."%char :: "/"%char :: r)) with (trim_separators ("/"%char :: r)). cbn [app]. by rewrite <- Ej. }
  exists []. split; [|by left]. cbn [app]. destruct c as [[] [] [] [] [] [] [] []]; try done.
  destruct r as [|c' r]; [done|]. destruct c' as [[] [] [] [] [] [] [] []]; try done. by destruct Hd.
Qed.

(** A stem is a prefix of the name; what it leaves out is its last dot and what
    follows. *)
Lemma file_stem_spec name : file_stem name = name \/ exists ext, name = file_stem name ++ "."%char :: ext /\ "."%char ∉ ext.
Proof.
  unfold file_stem. destruct (span _ (rev name)) as [a b] eqn:E. apply span_run in E as (E & Ha & Hb).
  destruct b as [|c [|c' b]]; [by left|by left|]. right. cbn in Hb. apply negb_false_iff, bool_decide_eq_true in Hb as ->.
  exists (rev a). split.
  - rewrite <- (rev_involutive name), E, rev_app_distr. cbn [rev]. by rewrite <- !app_assoc.
  - rewrite list_elem_of_In, <- in_rev, <- list_elem_of_In. intros H. rewrite Forall_forall in Ha. specialize (Ha _ H).
    by rewrite bool_decide_eq_true_2 in Ha.
Qed.

(** The temporary file is not the destination. *)
Lemma tmp_path_differs path : is_Some (file_name path) -> with_extension path "tar.gz.tmp" <> path.
Proof.
  intros [[parent name] Hn]. unfold with_extension. rewrite Hn. intros E. apply (f_equal chars) in E. rewrite chars_text in E.
  unfold file_name in Hn. destruct (trim_separators_suffix (rev (chars path))) as (junk & Ej & Hj).
  destruct (span _ _) as [rname rparent] eqn:Es. apply span_run in Es as (Es & _ & _). case_decide; [done|]. injection Hn as <- <-.
  rewrite Es, app_assoc in Ej. apply (f_equal (@rev ascii)) in E. rewrite Ej in E.
  destruct Hj as [->|(c & j & -> & Hc)].
  2:{ rewrite !rev_app_distr in E. cbn in E. by injection E as <-. }
  cbn [app] in E. rewrite rev_app_distr, rev_involutive in E. apply app_inv_tail in E. apply (f_equal (@rev ascii)) in E.
  rewrite rev_involutive in E. destruct (file_stem_spec (rev rname)) as [Hs|(ext & Hs & He)].
  - rewrite Hs in E. apply (f_equal (@List.length ascii)) in E. rewrite length_app in E. cbn in E. lia.
  - rewrite Hs in E at 2. apply app_inv_head in E. injection E as <-. apply He. vm_compute. set_solver.
Qed.

Section Atomic.
Context {AR : Archive}.

(** A run never leaves a partial archive at its destination: whichever call
    fails, the destination holds what it held before or the archive of all the
    artifacts, and no other file has changed but the temporary one.  A run that
    answers with a size has written the archive, of that size, and has left no
    temporary file; and it does when no call fails and tar takes the names. *)
Lemma assemble_bundle_atomic io path artifacts fs r fs' (Hp : is_Some (file_name path)) :
  let tmp := with_extension path "tar.gz.tmp" in
  assemble_bundle io path artifacts fs = (r, fs') ->
  (forall p, p <> path -> p <> tmp -> fs' !! p = fs !! p) /\
  (fs' !! path = fs !! path \/ exists data, bundle_of artifacts = Some data /\ fs' !! path = Some data) /\
  match r with
  | Ok size => fs' !! tmp = None /\ exists data, bundle_of artifacts = Some data /\ fs' !! path = Some data /\ size = Z.of_nat (List.length data)
  | Err _ => True
  end.
Proof.
  cbv zeta. pose proof (tmp_path_differs path Hp) as Ht. unfold assemble_bundle.
  set (tmp := with_extension path "tar.gz.tmp") in *.
  assert (Hleft : forall d p, p <> tmp -> (<[tmp := d]> fs) !! p = fs !! p) by (intros d p Hd; by rewrite lookup_insert_ne).
  destruct (io_create io); [|intros [= <- <-]; by auto]. cbn [negb].
  destruct (append_artifacts _ _ _ _) as [tar|e] eqn:E; [|intros [= <- <-]; by auto].
  apply append_artifacts_ok in E as (blocks & Eb & ->).
  assert (Hb : bundle_of artifacts = Some (gzip (concat blocks ++ tar_end))) by (unfold bundle_of; by rewrite Eb).
  cbn [app]. revert Hb. generalize (gzip (concat blocks ++ tar_end)) as data. intros data Hb.
  destruct (io_finalize io); [|intros [= <- <-]; by auto]. destruct (io_finish io); [|intros [= <- <-]; by auto].
  destruct (io_rename io); [|intros [= <- <-]; by auto]. cbn [negb].
  assert (Hw : forall p, p <> path -> p <> tmp -> (<[path := data]> (delete tmp fs)) !! p = fs !! p).
  { intros p H1 H2. by rewrite lookup_insert_ne, lookup_delete_ne. }
  assert (Hd : (<[path := data]> (delete tmp fs)) !! path = Some data) by (by rewrite lookup_insert_eq).
  destruct (io_stat io); intros [= <- <-]; cbn [negb]; (split; [done|]); (split; [right; by exists data|]); [|done].
  split; [by rewrite lookup_insert_ne, lookup_delete_eq|by exists data].
Qed.

Lemma assemble_bundle_succeeds io path artifacts fs data :
  io_create io = true -> (forall i, io_append io i = true) -> io_finalize io = true -> io_finish io = true -> io_rename io = true -> io_stat io = true ->
  bundle_of artifacts = Some data -> (assemble_bundle io path artifacts fs).1 = Ok (Z.of_nat (List.length data)).
Proof.
  intros H1 H2 H3 H4 H5 H6. unfold bundle_of, assemble_bundle. destruct (mapM _ artifacts) as [blocks|] eqn:E; [|done]. intros [= <-].
  rewrite H1, H3, H4, H5, H6. cbn [negb].
  assert (Ha : forall i tar, append_artifacts io i artifacts tar = Ok (tar ++ concat blocks)); [|by rewrite Ha].
  revert blocks E. induction artifacts as [|a rest IH]; intros blocks E i tar; cbn [append_artifacts].
  { injection E as <-. by rewrite app_nil_r. }
  cbn [mapM] in E. apply bind_Some in E as (b & Eb & E). apply bind_Some in E as (bs & Ebs & [= <-]).
  rewrite H2, Eb, (IH bs Ebs). cbn [concat]. by rewrite <- app_assoc.
Qed.

End Atomic.

Example with_extension_keeps_tar : with_extension "out/run.tar.gz" "tar.gz.tmp" = "out/run.tar.tar.gz.tmp"%string.
Proof. reflexivity. Qed.

(** Bundles that differ in their last extension share the temporary file. *)
Example tmp_path_shared : with_extension "out/a.gz" "tar.gz.tmp" = with_extension "out/a.zip" "tar.gz.tmp".
Proof. reflexivity. Qed.
