(* ===== verification/SessionExport.v ===== *)
(** * SessionExport: the session bundle

    [handle_export] and [collect_env_artifacts] of
    [crates/rocket-surgeon/src/dispatch.rs], over the archive writer of
    [Bundle].  Pretty-printing JSON and reading the Perfetto trace are
    parameters; the order in which the store lists its ids and the outcomes of
    the system's calls are arguments. *)

From Stdlib Require Import ZArith Lia Ascii String.
From coqutil Require Import Byte.
From stdpp Require Import base gmap strings list.
From S2P Require Import Prelude Protocol Messages Stats TensorStore Json Session SessionInv Target Dispatch DispatchSpec Notify Link Bundle.
Open Scope Z_scope.

Class ExportWire `{J : SerdeJson} := {
  xde_request :: Deserialize ExportRequest;
  xse_response :: Serialize (ResponseEnvelope ExportResponse);
  xse_recipes :: Serialize (list InterventionRecipe);
  xse_tier :: Serialize CheckpointTier
}.

Section Exporting.
Context `{J : SerdeJson} {WR : Wire} {P : Peer} {HW : HostWire} {XW : ExportWire} {AR : Archive}.
(** [serde_json::to_vec_pretty] of a [Value], the bytes of a text *)
Context (to_vec_pretty : Value -> list byte) (text_bytes : string -> list byte).
(** [serde_json::from_str] and printing, for the trace *)
Context (from_str : string -> option Value) (value_text : Value -> string).

Definition json_artifact (name : string) (v : Value) : BundleArtifact := mkBundleArtifact name (to_vec_pretty v).

Definition collect_env_artifacts (request : Request) (mh : Z) (o : OrchestratorHandle)
  : result Response (list BundleArtifact) * OrchestratorHandle :=
  match Link.export_env (mkHostExportEnvRequest mh) o with
  | (Err e, o) => (Err (internal_error (req_id request) ("export_env call failed: " +:+ e)%string), o)
  | (Ok env, o) =>
      (Ok [json_artifact "env.json" (HostExportEnvResponse_env env);
           json_artifact "model-info.json" (HostExportEnvResponse_model_info env);
           mkBundleArtifact "prompt.json"
             match HostExportEnvResponse_prompt env with
             | Some p => to_vec_pretty p
             | None => text_bytes "null"
             end], o)
  end.

(** One [tensors/<id>.bin] per id the store still has; reading marks it as used. *)
Fixpoint tensor_artifacts (ids : list string) (store : TensorStore) : list BundleArtifact * TensorStore :=
  match ids with
  | [] => ([], store)
  | id :: ids =>
      let (data, store) := TensorStore.raw_data store id in
      let (arts, store) := tensor_artifacts ids store in
      (match data with
       | Some data => mkBundleArtifact ("tensors/" +:+ id +:+ ".bin")%string data :: arts
       | None => arts
       end, store)
  end.

Definition bookmark_json (c : CheckpointRef) : Value :=
  json_object [("name", json_option json_string (cr_bookmark c)); ("tick_id", json_u64 (cr_tick_id c));
               ("layer", json_u64 (cr_layer_idx c)); ("checkpoint_id", json_string (cr_checkpoint_id c))]%string.

Definition segment_json (g : WorldlineSegment) : Value :=
  json_object [("id", json_u64 (seg_id g)); ("parent_segment", json_option json_u64 (seg_parent_segment g));
               ("branch_tick", json_option json_u64 (seg_branch_tick g));
               ("tick_range", json_array [json_u64 (fst (seg_tick_range g)); json_u64 (snd (seg_tick_range g))])]%string.

Definition worldlines_json (w : WorldlineState) : Value :=
  json_object [("current_segment", json_u64 (wl_current_segment w));
               ("segments", json_array (segment_json <$> wl_segments w))]%string.

(** Automatic checkpoints are not exported. *)
Definition automatic (id : string) : bool :=
  starts_with (chars "auto-") (chars id) || starts_with (chars "sub-") (chars id).

Definition checkpoint_artifact (c : CheckpointRef) : BundleArtifact :=
  json_artifact ("checkpoints/" +:+ cr_checkpoint_id c +:+ "/meta.json")%string
    (json_object [("checkpoint_id", json_string (cr_checkpoint_id c)); ("tier", to_value (cr_tier c));
                  ("tick_id", json_u64 (cr_tick_id c)); ("layer_idx", json_u64 (cr_layer_idx c))]%string).

Definition manifest_json (s : Session) : Value :=
  json_object [("protocol_version", json_string "0.1.0"); ("session_id", json_string (ss_session_id (s_state s)));
               ("bundle_schema_version", json_string "1.0.0")]%string.

Definition handle_export (request : Request) (trace : TraceLog.TraceLog) (ids : list string) (perfetto : option (list byte))
    (io : BundleIo) (mh : Z) (s : Session) (store : TensorStore) (o : OrchestratorHandle) (fs : Files)
  : Response * TensorStore * OrchestratorHandle * Files :=
  with_params request (fun r => (r, store, o, fs)) (fun req =>
    when_stopped_or request "rocket/session.export" s (fun r => (r, store, o, fs))
      (let head := [json_artifact "manifest.json" (manifest_json s);
                    json_artifact "interventions.json" (to_value (s_interventions s))] in
       let trace_jsonl := TraceLog.to_jsonl from_str value_text trace in
       let log := if decide (trace_jsonl = ""%string) then [] else [mkBundleArtifact "protocol-trace.jsonl" (text_bytes trace_jsonl)] in
       let (tensors, store) := if ExportRequest_include_tensors req then tensor_artifacts ids store else ([], store) in
       match collect_env_artifacts request mh o with
       | (Err rsp, o) => (rsp, store, o, fs)
       | (Ok env, o) =>
           let pf := match perfetto with Some data => [mkBundleArtifact "trace.perfetto-trace" data] | None => [] end in
           let bookmarks := bookmark_json <$> List.filter (fun c => bool_decide (is_Some (cr_bookmark c))) (ss_checkpoints (s_state s)) in
           let tail := [json_artifact "bookmarks.json" (json_array bookmarks);
                        json_artifact "worldlines.json" (worldlines_json (ss_worldline (s_state s)))] in
           let ckpts := checkpoint_artifact <$>
             List.filter (fun c => negb (automatic (cr_checkpoint_id c))) (ss_checkpoints (s_state s)) in
           let artifacts := head ++ log ++ tensors ++ env ++ pf ++ tail ++ ckpts in
           match assemble_bundle io (ExportRequest_path req) artifacts fs with
           | (Ok size, fs) => (serialize_envelope (req_id request) (envelope s
                                 (mkExportResponse (ExportRequest_path req) size (u32_wrap (Z.of_nat (List.length artifacts))))), store, o, fs)
           | (Err e, fs) => (internal_error (req_id request) ("bundle assembly failed: " +:+ e)%string, store, o, fs)
           end
       end)).

Lemma handle_export_answers request trace ids perfetto io mh s store o fs :
  answers request s (handle_export request trace ids perfetto io mh s store o fs).1.1.1 s.
Proof.
  unfold handle_export, with_params. destruct (parse_params request) as [req|e]; [|apply answers_params].
  unfold when_stopped_or. destruct (require_stopped _ s) eqn:E; [|apply answers_error; by eapply require_stopped_hinted].
  destruct (if ExportRequest_include_tensors req then _ else _) as [tensors store'].
  unfold collect_env_artifacts. destruct (Link.export_env _ o) as [[env|e] o']; [|apply answers_internal].
  destruct (assemble_bundle _ _ _ _) as [[size|e] fs']; [apply answers_success_same|apply answers_internal].
Qed.

(** ** What an export contains *)

Lemma raw_data_keeps store id id' : data <$> entries (TensorStore.raw_data store id).2 !! id' = data <$> entries store !! id'.
Proof.
  unfold TensorStore.raw_data. destruct (entries store !! id) as [t|] eqn:E; [|done]. cbn.
  destruct (decide (id = id')) as [->|Hi]; [by rewrite lookup_insert_eq, E|by rewrite lookup_insert_ne].
Qed.

(** A tensor that the store has is in the bundle, and what is there comes from
    the store. *)
Lemma tensor_artifacts_spec ids : forall store a,
  a ∈ (tensor_artifacts ids store).1 <->
  exists id bytes, id ∈ ids /\ data <$> entries store !! id = Some bytes /\ a = mkBundleArtifact ("tensors/" +:+ id +:+ ".bin")%string bytes.
Proof.
  induction ids as [|id ids IH]; intros store a; cbn [tensor_artifacts].
  { split; [by intros ?%elem_of_nil|intros (? & ? & H & _); by apply elem_of_nil in H]. }
  pose proof (raw_data_keeps store id) as Hk. destruct (TensorStore.raw_data store id) as [d store1] eqn:E1. cbn in Hk.
  specialize (IH store1 a). destruct (tensor_artifacts ids store1) as [arts store2]. cbn [fst] in *. setoid_rewrite Hk in IH.
  assert (Hd : d = data <$> entries store !! id).
  { unfold TensorStore.raw_data in E1. by destruct (entries store !! id) as [t|]; injection E1 as <- _. }
  rewrite Hd. split.
  - intros Ha. destruct (data <$> entries store !! id) as [b|] eqn:Ed.
    + apply elem_of_cons in Ha as [->|(id' & b' & H1 & H2)%IH]; [exists id, b|exists id', b']; set_solver.
    + apply IH in Ha as (id' & b' & H1 & H2). exists id', b'. set_solver.
  - intros (id' & b' & [->|Hin]%elem_of_cons & Hb & ->); [rewrite Hb; by left|].
    assert (H : mkBundleArtifact ("tensors/" +:+ id' +:+ ".bin")%string b' ∈ arts) by (apply IH; eauto).
    destruct (data <$> entries store !! id); [by right|done].
Qed.

(** What a bundle must hold: first the manifest, then every tensor listed when
    tensors are asked for, the trace file when there is one, and a description
    of every checkpoint that was not taken automatically. *)
Record bundle_contents (req : ExportRequest) (s : Session) (store : TensorStore) (ids : list string) (perfetto : option (list byte))
    (artifacts : list BundleArtifact) : Prop := {
  bc_manifest : head artifacts = Some (json_artifact "manifest.json" (manifest_json s));
  bc_tensors id bytes : ExportRequest_include_tensors req = true -> id ∈ ids -> data <$> entries store !! id = Some bytes ->
    mkBundleArtifact ("tensors/" +:+ id +:+ ".bin")%string bytes ∈ artifacts;
  bc_trace bytes : perfetto = Some bytes -> mkBundleArtifact "trace.perfetto-trace" bytes ∈ artifacts;
  bc_checkpoints c : c ∈ ss_checkpoints (s_state s) -> automatic (cr_checkpoint_id c) = false -> checkpoint_artifact c ∈ artifacts
}.

(** C40: an export whose parameters parse and whose path ends in a file name
    replaces its destination as a whole or not at all: whatever the
    worker and the system do, the file at the requested path is the one that was
    there or a complete bundle, and no file but it and the temporary one has
    changed.  When the answer is not an error the bundle is there, and the
    answer gives its size and the number of its artifacts. *)
Theorem session_export_atomic (request : Request) trace ids perfetto io mh (s : Session) (store : TensorStore) o (fs fs' : Files) rsp store' o' (req : ExportRequest)
    (Hreq : parse_params request = Ok req) (Hpath : is_Some (file_name (ExportRequest_path req))) :
  let path := ExportRequest_path req in
  let tmp := with_extension path "tar.gz.tmp" in
  let complete artifacts data := bundle_contents req s store ids perfetto artifacts /\ bundle_of artifacts = Some data /\ fs' !! path = Some data in
  handle_export request trace ids perfetto io mh s store o fs = (rsp, store', o', fs') ->
  (forall p, p <> path -> p <> tmp -> fs' !! p = fs !! p) /\
  (fs' !! path = fs !! path \/ exists artifacts data, complete artifacts data) /\
  (rsp_error rsp = None -> fs' !! tmp = None /\ exists artifacts data, complete artifacts data /\
     rsp = serialize_envelope (req_id request) (envelope s
             (mkExportResponse path (Z.of_nat (List.length data)) (u32_wrap (Z.of_nat (List.length artifacts)))))).
Proof.
  cbv zeta. unfold handle_export, with_params. rewrite Hreq. unfold when_stopped_or.
  destruct (require_stopped _ s) as [[]|e]; [|intros [= <- <- <- <-]; split_and!; [done|by left|done]].
  pose proof (tensor_artifacts_spec ids store) as Ht.
  destruct (if ExportRequest_include_tensors req then _ else _) as [tensors store1] eqn:Et.
  unfold collect_env_artifacts. destruct (Link.export_env _ o) as [[env|e] o1]; [|intros [= <- <- <- <-]; split_and!; [done|by left|done]].
  match goal with |- context [assemble_bundle io _ ?l fs] => set (artifacts := l) end.
  assert (Hc : bundle_contents req s store ids perfetto artifacts).
  { unfold artifacts. split.
    - done.
    - intros id b Hi Hin Hb. rewrite Hi in Et. rewrite Et in Ht. cbn [fst] in Ht. rewrite !elem_of_app. right; right; left. apply Ht. eauto.
    - intros b ->. rewrite !elem_of_app. do 4 right; left. by left.
    - intros c Hin Ha. rewrite !elem_of_app. do 6 right. apply list_elem_of_fmap. exists c. split; [done|].
      rewrite list_elem_of_In, filter_In, <- list_elem_of_In, Ha. done. }
  clearbody artifacts. destruct (assemble_bundle io _ artifacts fs) as [r fs1] eqn:Eb.
  pose proof (assemble_bundle_atomic io _ artifacts fs r fs1 Hpath Eb) as (H1 & H2 & H3).
  destruct r as [size|e]; intros [= <- <- <- <-]; (split; [done|]); (split; [destruct H2 as [|(data & ? & ?)]; [by left|right; by exists artifacts, data]|]); [|done].
  destruct H3 as (H3 & data & Hd & Hf & ->). intros _. split; [done|]. by exists artifacts, data.
Qed.

End Exporting.

Module Demo.

Definition client : @Wire json_ref.
Proof. unshelve econstructor; first [exact (fun _ => Err "unknown"%string)|exact (fun _ => JNull)]. Defined.

Definition worker : @Peer json_ref :=
  {| peer := unit; exchange := fun rq p => (Ok (@Response_success (@serde_value json_ref) (req_id rq) JNull), p) |}.

Definition host : @HostWire json_ref.
Proof. unshelve econstructor; first [exact (fun _ => Ok (@mkHostExportEnvResponse (@serde_value json_ref) JNull JNull None))|exact (fun _ => Err "unknown"%string)|exact (fun _ => JNull)]. Defined.

Definition exports : @ExportWire json_ref.
Proof. constructor; [exact (fun _ => Ok (mkExportRequest "out/run.tar.gz" true))|exact (fun _ => JNull)..]. Defined.

(** An archive that lists names and bytes, uncompressed. *)
Definition archive : Archive :=
  {| tar_entry := fun h name data => Some (byte.of_Z (th_size h) :: data); tar_end := [byte.of_Z 0]; gzip := fun l => l |}.

#[local] Existing Instance json_ref.

Definition stopped : Session :=
  Session.set_state (Session.set_status Status_Stopped (s_state Session.new)) Session.new.
Definition store : TensorStore :=
  mkTensorStore {["t1" := mkStoredTensor "t1" [2] DType_Int8 "cpu" [byte.of_Z 1; byte.of_Z 2] None 0]}%string 1 8 4096 2.
Definition all_well : BundleIo := mkBundleIo true (fun _ => true) true true true true [].
Definition old : Files := {["out/run.tar.gz" := [byte.of_Z 9]]}%string.
Definition export (io : BundleIo) :=
  handle_export (P := worker) (HW := host) (XW := exports) (AR := archive) (fun _ => [byte.of_Z 7]) (fun _ => []) (fun _ => None) (fun _ => ""%string)
    (@mkRequest (@serde_value json_ref) "2.0" (RequestId_Number 1) "rocket/session.export" (Some JNull))
    (TraceLog.new) ["t1"%string] None io 7 stopped store (connect (P := worker) tt) old.

End Demo.

(** An export over an older bundle that succeeds, and one whose rename fails. *)
Lemma session_export_atomic_witness :
  (exists artifacts data, mkBundleArtifact "tensors/t1.bin" [byte.of_Z 1; byte.of_Z 2] ∈ artifacts /\
     @bundle_of Demo.archive artifacts = Some data /\ (Demo.export Demo.all_well).2 !! "out/run.tar.gz"%string = Some data) /\
  rsp_error (Demo.export (mkBundleIo true (fun _ => true) true true false true [])).1.1.1 <> None /\
  (Demo.export (mkBundleIo true (fun _ => true) true true false true [])).2 !! "out/run.tar.gz"%string = Some [byte.of_Z 9].
Proof.
  split; [|by split; vm_compute].
  destruct (Demo.export Demo.all_well) as [[[rsp store] o] fs] eqn:E.
  assert (Hr : rsp_error rsp = None) by (change rsp with (rsp, store, o, fs).1.1.1; rewrite <- E; vm_compute; reflexivity).
  unfold Demo.export in E.
  destruct (session_export_atomic (P := Demo.worker) (HW := Demo.host) (XW := Demo.exports) (AR := Demo.archive) _ _ _ _ _ _ _ _ _ _ _ _ _ _ _ _ _ _
    (mkExportRequest "out/run.tar.gz" true) eq_refl ltac:(by eexists) E) as (_ & _ & H).
  destruct (H Hr) as (_ & artifacts & data & (Hc & Hb & Hf) & _). exists artifacts, data. split_and!; [|done|done].
  destruct Hc as [_ Ht _ _]. apply (Ht "t1"%string [byte.of_Z 1; byte.of_Z 2]); [done|by left|done].
Defined.
