(* ===== verification/Main.v ===== *)
(** * Main: the daemon's request loop

    [crates/rocket-surgeon/src/main.rs]: one turn of the loop takes a message,
    routes it to the worker and to its handler, commits an attach or a detach,
    writes the answer, sends the notifications of a step and takes automatic
    checkpoints.  The state of the loop is the record [Daemon]; the heartbeat of
    an idle turn is [heartbeat].  The trace sink follows the attached model, and
    stale shared-memory objects are swept at the start and when a minute has
    passed; what the clocks say is part of a turn.  The command line and the
    logging are left out. *)

From Stdlib Require Import ZArith Lia Ascii String SpecFloat.
From coqutil Require Import Byte.
From stdpp Require Import base gmap strings list.
From S2P Require Import Prelude HostDispatch Cleanup Perfetto.
From S2P Require Import Prelude Winnow Grammar Protocol Messages Registry Shm Stats TensorStore Json Session SessionInv.
From S2P Require Import Target Dispatch DispatchSpec InspectSpec Notify Link Bundle SessionExport.
Open Scope Z_scope.

Class EventWire `{J : SerdeJson} := {
  ese_stopped :: Serialize TickStoppedEvent;
  ese_heartbeat :: Serialize TickHeartbeatEvent;
  ese_fired :: Serialize ProbeFiredEvent
}.

(** The trace file: packets as bytes, the system's answers to calls of [write],
    the order in which the sink iterates its maps. *)
Class TraceIo := {
  tr_encode : TracePacket -> list byte;
  tr_os_write : nat -> list byte -> option nat;
  tr_open_order : gmap Z Z -> list (Z * Z);
  tr_uuid_order : gmap (Z * Z * string) Z -> list ((Z * Z * string) * Z)
}.

(** A sweep: the listing of [/dev/shm], the processes that live, the objects. *)
Record Sweep := mkSweep { sw_entries : list (list ascii); sw_alive : Z -> bool; sw_world : World }.

Section Main.
Context `{J : SerdeJson} {WR : Wire} {P : Peer} {HW : HostWire} {EW : EventWire} {XW : ExportWire} {AR : Archive} {TI : TraceIo} {W : Winnow}.
Context (values_of : ProbeRegistry -> list StoredProbe) (point_error : string -> string).
Context (blake3_hex : list byte -> string) `{NM : Numerics}.
Context (b64_decode : string -> result string (list byte)) (b64_encode : list byte -> string).
Context (shm_error_text : ShmError -> string) (store_error_text : StoreError -> string).
(** [serde_json::to_string] and [from_str] of messages; the answer to a message that does not parse *)
Context (response_text : Response -> string) (notification_text : Notification -> string).
Context (parse_request : string -> result string Request) (parse_error_text : string -> string).
(** The parameters of [SessionExport] *)
Context (to_vec_pretty : Value -> list byte) (text_bytes : string -> list byte).
Context (from_str : string -> option Value) (value_text : Value -> string).

(** The variables of [main] that a turn reads and writes. *)
Record Daemon := mkDaemon {
  d_session : Session;
  d_store : TensorStore;
  d_trace : TraceLog.TraceLog;
  d_orchestrator : option OrchestratorHandle;
  d_model_handle : option Z;
  d_consumer : option Consumer;
  d_registry : ProbeRegistry;
  d_scopes : list GranularityScope;
  d_events_enabled : bool;
  d_sender : Sender;
  (** the files as the daemon has left them *)
  d_files : Files;
  d_perfetto : option Sink;
  (** the traces closed so far; the shared-memory objects as the last sweep left them *)
  d_traces : list Sink;
  d_shm : World
}.

(** What a turn gets from outside. *)
Record Turn := mkTurn {
  tn_env : Env;
  tn_auto_uuid : string;
  (** both binaries are known; spawning the orchestrator *)
  tn_binaries : bool;
  tn_spawn : result string peer;
  (** [DoomRingConsumer::open] *)
  tn_open_ring : string -> option Consumer;
  (** iteration order of the checkpoint positions *)
  tn_order : list (string * TickPosition);
  (** iteration order of the store's ids; the bytes of the trace file, if there is one *)
  tn_ids : list string;
  tn_perfetto : option (list byte);
  (** the system's calls of an export *)
  tn_bundle : BundleIo;
  tn_now_in : Z;
  tn_now_out : Z;
  (** making the trace file (and the number of the next [write]), its directory,
      the daemon's pid, the clock of the sink at its calls *)
  tn_sink : option nat;
  tn_temp_dir : string;
  tn_pid : Z;
  tn_trace_ns : nat -> Z;
  (** a sweep, when a minute has passed since the last one *)
  tn_sweep : option Sweep
}.

Definition initial : Daemon :=
  mkDaemon Session.new TensorStore.new TraceLog.new None None None Registry.new [] false (mkSender [] 0) ∅ None [] (mkWorld ∅ 0).

Definition set_session (s : Session) (d : Daemon) : Daemon :=
  mkDaemon s (d_store d) (d_trace d) (d_orchestrator d) (d_model_handle d) (d_consumer d) (d_registry d) (d_scopes d) (d_events_enabled d) (d_sender d) (d_files d) (d_perfetto d) (d_traces d) (d_shm d).
Definition set_store (x : TensorStore) (d : Daemon) : Daemon :=
  mkDaemon (d_session d) x (d_trace d) (d_orchestrator d) (d_model_handle d) (d_consumer d) (d_registry d) (d_scopes d) (d_events_enabled d) (d_sender d) (d_files d) (d_perfetto d) (d_traces d) (d_shm d).
Definition set_trace (x : TraceLog.TraceLog) (d : Daemon) : Daemon :=
  mkDaemon (d_session d) (d_store d) x (d_orchestrator d) (d_model_handle d) (d_consumer d) (d_registry d) (d_scopes d) (d_events_enabled d) (d_sender d) (d_files d) (d_perfetto d) (d_traces d) (d_shm d).
Definition set_orchestrator (x : option OrchestratorHandle) (d : Daemon) : Daemon :=
  mkDaemon (d_session d) (d_store d) (d_trace d) x (d_model_handle d) (d_consumer d) (d_registry d) (d_scopes d) (d_events_enabled d) (d_sender d) (d_files d) (d_perfetto d) (d_traces d) (d_shm d).
Definition set_model_handle (x : option Z) (d : Daemon) : Daemon :=
  mkDaemon (d_session d) (d_store d) (d_trace d) (d_orchestrator d) x (d_consumer d) (d_registry d) (d_scopes d) (d_events_enabled d) (d_sender d) (d_files d) (d_perfetto d) (d_traces d) (d_shm d).
Definition set_consumer (x : option Consumer) (d : Daemon) : Daemon :=
  mkDaemon (d_session d) (d_store d) (d_trace d) (d_orchestrator d) (d_model_handle d) x (d_registry d) (d_scopes d) (d_events_enabled d) (d_sender d) (d_files d) (d_perfetto d) (d_traces d) (d_shm d).
Definition set_registry (x : ProbeRegistry) (d : Daemon) : Daemon :=
  mkDaemon (d_session d) (d_store d) (d_trace d) (d_orchestrator d) (d_model_handle d) (d_consumer d) x (d_scopes d) (d_events_enabled d) (d_sender d) (d_files d) (d_perfetto d) (d_traces d) (d_shm d).
Definition set_scopes (x : list GranularityScope) (d : Daemon) : Daemon :=
  mkDaemon (d_session d) (d_store d) (d_trace d) (d_orchestrator d) (d_model_handle d) (d_consumer d) (d_registry d) x (d_events_enabled d) (d_sender d) (d_files d) (d_perfetto d) (d_traces d) (d_shm d).
Definition set_events (x : bool) (d : Daemon) : Daemon :=
  mkDaemon (d_session d) (d_store d) (d_trace d) (d_orchestrator d) (d_model_handle d) (d_consumer d) (d_registry d) (d_scopes d) x (d_sender d) (d_files d) (d_perfetto d) (d_traces d) (d_shm d).
Definition set_sender (x : Sender) (d : Daemon) : Daemon :=
  mkDaemon (d_session d) (d_store d) (d_trace d) (d_orchestrator d) (d_model_handle d) (d_consumer d) (d_registry d) (d_scopes d) (d_events_enabled d) x (d_files d) (d_perfetto d) (d_traces d) (d_shm d).
Definition set_files (x : Files) (d : Daemon) : Daemon :=
  mkDaemon (d_session d) (d_store d) (d_trace d) (d_orchestrator d) (d_model_handle d) (d_consumer d) (d_registry d) (d_scopes d) (d_events_enabled d) (d_sender d) x (d_perfetto d) (d_traces d) (d_shm d).
Definition set_perfetto (x : option Sink) (d : Daemon) : Daemon :=
  mkDaemon (d_session d) (d_store d) (d_trace d) (d_orchestrator d) (d_model_handle d) (d_consumer d) (d_registry d) (d_scopes d) (d_events_enabled d) (d_sender d) (d_files d) x (d_traces d) (d_shm d).
Definition set_traces (x : list Sink) (d : Daemon) : Daemon :=
  mkDaemon (d_session d) (d_store d) (d_trace d) (d_orchestrator d) (d_model_handle d) (d_consumer d) (d_registry d) (d_scopes d) (d_events_enabled d) (d_sender d) (d_files d) (d_perfetto d) x (d_shm d).
Definition set_shm (x : World) (d : Daemon) : Daemon :=
  mkDaemon (d_session d) (d_store d) (d_trace d) (d_orchestrator d) (d_model_handle d) (d_consumer d) (d_registry d) (d_scopes d) (d_events_enabled d) (d_sender d) (d_files d) (d_perfetto d) (d_traces d) x.

(** ** Calls to the worker *)

Definition spawn_and_attach (t : Turn) (request : Request) : result string (OrchestratorHandle * HostAttachResponse) :=
  match req_params request with
  | None => Err "attach request missing params"%string
  | Some params =>
      match from_value params with
      | Err e => Err ("failed to parse attach params: " +:+ e)%string
      | Ok req =>
          let host_req := mkHostAttachRequest (AttachRequest_model_path req) (AttachRequest_model_family req)
            (AttachRequest_device req) (AttachRequest_dtype req) 0 (AttachRequest_config req) in
          if negb (tn_binaries t) then Err "orchestrator or worker binary not found"%string
          else match tn_spawn t with
               | Err e => Err ("failed to spawn orchestrator: " +:+ e)%string
               | Ok p =>
                   match Link.attach host_req (connect p) with
                   | (Ok host_resp, orch) => Ok (orch, host_resp)
                   | (Err e, _) => Err ("orchestrator attach failed: " +:+ e)%string
                   end
               end
      end
  end.

Definition resolve_granularity (explicit : option TickGranularity) (scopes : list GranularityScope) : option TickGranularity :=
  match explicit with
  | Some g => Some g
  | None => gs_granularity <$> head scopes
  end.

Definition default_step_request : StepRequest := mkStepRequest StepDirection_Forward 1 None EnvelopeMode_Full None None.

Definition try_orchestrator_step (request : Request) (scopes : list GranularityScope) (interventions : list InterventionRecipe)
    (link : option OrchestratorHandle) (mh : option Z) : option HostStepResponse * option OrchestratorHandle :=
  match link, mh with
  | Some o, Some mh =>
      match (match req_params request with None => Ok default_step_request | Some p => from_value p end) with
      | Err _ => (None, Some o)
      | Ok req =>
          let host_req := mkHostStepRequest mh (StepRequest_count req) (StepRequest_direction req)
            (resolve_granularity (StepRequest_granularity req) scopes) None interventions (StepRequest_tokens req) in
          match Link.step host_req o with
          | (Ok hr, o) => (Some hr, Some o)
          | (Err _, o) => (None, Some o)
          end
      end
  | _, _ => (None, link)
  end.

Definition f_0_999 : f64 := S754_finite false 8998192055486251 (-53).
Definition f_0_05 : f64 := S754_finite false 7205759403792794 (-57).
Definition f_0_6 : f64 := S754_finite false 5404319552844595 (-53).

Definition try_orchestrator_replay (request : Request) (link : option OrchestratorHandle) (mh : option Z)
  : option HostReplayResponse * option OrchestratorHandle :=
  match link, mh with
  | Some o, Some mh =>
      match (match req_params request with None => None | Some p => match from_value p with Ok r => Some r | Err _ => None end end) with
      | None => (None, Some o)
      | Some req =>
          let host_req := mkHostReplayRequest mh (ReplayRequest_from_checkpoint req) (ReplayRequest_stop_at req)
            (default [] (ReplayRequest_interventions req)) (ReplayRequest_verify req)
            (default false (ReplayRequest_deterministic req)) (default f_0_999 (ReplayRequest_cosine_threshold req))
            (default f_0_05 (ReplayRequest_mre_threshold req)) in
          match Link.replay host_req o with
          | (Ok resp, o) => (Some resp, Some o)
          | (Err _, o) => (None, Some o)
          end
      end
  | _, _ => (None, link)
  end.

(** The eager checkpoint before a backward step: [bytes_captured] of a successful capture. *)
Definition sub_checkpoint (mh : Z) (s : Session) (o : OrchestratorHandle) : Session * OrchestratorHandle :=
  if SFltb (s_arena_utilization s) f_0_6 then
    let current_tick := default 0 (ss_tick_id (s_state s)) in
    let sub_id := ("sub-" +:+ to_string (wl_current_segment (ss_worldline (s_state s))) +:+ "-" +:+ to_string current_tick)%string in
    match Link.checkpoint (HostCheckpointRequest_Create mh sub_id CreateCheckpointTier_Activation current_tick 0) o with
    | (Ok resp, o) => (update_arena_utilization (HostCheckpointResponse_bytes_captured resp) s, o)
    | (Err _, o) => (s, o)
    end
  else (s, o).

Definition try_backward_step (order : list (string * TickPosition)) (link : option OrchestratorHandle) (mh : option Z) (s : Session)
  : option HostStepResponse * option OrchestratorHandle * Session :=
  let target_tick := u64_saturating_sub (default 0 (ss_tick_id (s_state s))) 1 in
  match find_checkpoint_before order (u64_add target_tick 1), link, mh with
  | Some ckpt_id, Some o, Some mh =>
      let (s, o) := sub_checkpoint mh s o in
      let host_req := mkHostReplayRequest mh ckpt_id None (s_interventions s) false false f_0_999 f_0_05 in
      match Link.replay host_req o with
      | (Ok hr, o) =>
          (Some (mkHostStepResponse (HostReplayResponse_stopped_at hr) [] false false []), Some o,
           advance_worldline_segment target_tick s)
      | (Err _, o) => (None, Some o, s)
      end
  | _, _, _ => (None, link, s)
  end.

(** The common part of [try_orchestrator_inspect], [_view], [_kv_read] and
    [_kv_intervene]: an RPC error of the worker is the answer; an unparseable
    request is left to the handler. *)
Definition try_raw {Q R} `{!Deserialize Q, !Deserialize R}
    (send : Z -> Q -> OrchestratorHandle -> result string Response * OrchestratorHandle)
    (request : Request) (link : option OrchestratorHandle) (mh : option Z)
  : result Response (option R) * option OrchestratorHandle :=
  match link with
  | None => (Ok None, None)
  | Some o =>
      match mh with
      | None => (Ok None, Some o)
      | Some mh =>
          match from_value <$> req_params request with
          | Some (Ok req) =>
              match send mh req o with
              | (Err e, o) => (Err (internal_error (req_id request) ("orchestrator transport error: " +:+ e)%string), Some o)
              | (Ok rsp, o) =>
                  (match rsp_error rsp with
                   | Some err => Err (Response_error (req_id request) err)
                   | None =>
                       match rsp_result rsp with
                       | None => Ok None
                       | Some value =>
                           match from_value value with
                           | Ok hr => Ok (Some hr)
                           | Err e => Err (internal_error (req_id request)
                                        ("failed to parse orchestrator response: " +:+ e)%string)
                           end
                       end
                   end, Some o)
              end
          | _ => (Ok None, Some o)
          end
      end
  end.

Definition try_orchestrator_inspect (request : Request) (link : option OrchestratorHandle) (mh : option Z)
  : result Response (option HostInspectResponse) * option OrchestratorHandle :=
  try_raw (fun mh req => inspect_raw (mkHostInspectRequest mh (InspectRequest_target req) (InspectRequest_detail req)
                                        (InspectRequest_slices req))) request link mh.

Definition try_orchestrator_view (request : Request) (link : option OrchestratorHandle) (mh : option Z)
  : result Response (option HostViewResponse) * option OrchestratorHandle :=
  try_raw (fun mh req => view_raw (mkHostViewRequest mh (ViewRequest_view req) (ViewRequest_params req))) request link mh.

Definition try_orchestrator_kv_read (request : Request) (link : option OrchestratorHandle) (mh : option Z)
  : result Response (option HostKvReadResponse) * option OrchestratorHandle :=
  try_raw (fun mh req => kv_read_raw (mkHostKvReadRequest mh (KvReadRequest_layers req) (KvReadRequest_positions req)
    (KvReadRequest_heads req) (KvReadRequest_slot req) (KvReadRequest_metric req))) request link mh.

Definition try_orchestrator_kv_intervene (request : Request) (link : option OrchestratorHandle) (mh : option Z)
  : result Response (option HostKvInterveneResponse) * option OrchestratorHandle :=
  try_raw (fun mh req => kv_intervene_raw (mkHostKvInterveneRequest mh (KvInterveneRequest_layers req)
    (KvInterveneRequest_positions req) (KvInterveneRequest_heads req) (KvInterveneRequest_slot req)
    (KvInterveneRequest_operation req))) request link mh.

(** The answer of [_host/detach] is only logged; the handle is dropped, which kills the child. *)
Definition detach_orchestrator (d : Daemon) : Daemon :=
  let d := match d_model_handle d, d_orchestrator d with
           | Some handle, Some o => let (_, o) := Link.detach handle o in set_orchestrator (Some o) d
           | _, _ => d
           end in
  set_orchestrator None (set_model_handle None d).

Definition propagate_probes (d : Daemon) : Daemon :=
  match d_orchestrator d, d_model_handle d with
  | Some o, Some mh =>
      let enabled := List.filter pd_enabled (list_ (values_of (d_registry d))) in
      set_orchestrator (Some (Link.update_probes (mkHostUpdateProbesRequest mh enabled) o).2) d
  | _, _ => d
  end.

Definition default_position : TickPosition :=
  mkTickPosition 0 StepDirection_Forward (Some 0) 0 "" TickEvent_Output None Phase_Decode None None.

(** ** Routing *)

(** What a branch of the routing leaves: the response, the worker's answer to a
    step, and an attach to commit. *)
Record Routed := mkRouted {
  rt_response : Response;
  rt_step : option HostStepResponse;
  rt_attached : option (OrchestratorHandle * HostAttachResponse)
}.

Definition plain (r : Response) : Routed := mkRouted r None None.

Definition failed (r : Response) : bool := bool_decide (is_Some (rsp_error r)).

Definition route_attach (t : Turn) (request : Request) (d : Daemon) : Routed * Daemon :=
  let attach_with backend :=
    let (resp, s) := handle_attach (tn_env t) request backend (d_session d) in (resp, set_session s d) in
  match from_value <$> req_params request with
  | Some (Ok attach_req) =>
      match validate_attach attach_req (d_session d) with
      | Err e => (plain (session_error_to_response (req_id request) e), d)
      | Ok _ =>
          match spawn_and_attach t request with
          | Ok (orch, host_resp) =>
              let (resp, d) := attach_with (Ok host_resp) in
              (mkRouted resp None (if failed resp then None else Some (orch, host_resp)), d)
          | Err msg => let (resp, d) := attach_with (Err msg) in (plain resp, d)
          end
      end
  | _ => let (resp, d) := attach_with (Err "attach params missing or malformed"%string) in (plain resp, d)
  end.

Definition is_backward (request : Request) : bool :=
  match req_params request with
  | Some p => match value_get p "direction" with
              | Some v => bool_decide (value_as_str v = Some "backward"%string)
              | None => false
              end
  | None => false
  end.

Definition route_step (t : Turn) (request : Request) (d : Daemon) : Routed * Daemon :=
  let s := d_session d in
  if is_backward request then
    match try_backward_step (tn_order t) (d_orchestrator d) (d_model_handle d) s with
    | (None, link, s) =>
        (plain (error_response (req_id request)
           (error_with_hint ErrorCode_CapabilityNotSupported "No checkpoint available for backward step")),
         set_orchestrator link (set_session s d))
    | (Some hr, link, s) =>
        let (resp, s) := handle_step request (Some hr) s in
        (mkRouted resp (Some hr) None, set_orchestrator link (set_session s d))
    end
  else
    let (hr, link) := try_orchestrator_step request (d_scopes d) (s_interventions s) (d_orchestrator d) (d_model_handle d) in
    let (resp, s) := handle_step request hr s in
    (mkRouted resp hr None, set_orchestrator link (set_session s d)).

Definition route_inspect (request : Request) (d : Daemon) : option (Routed * Daemon) :=
  let (r, link) := try_orchestrator_inspect request (d_orchestrator d) (d_model_handle d) in
  let d := set_orchestrator link d in
  match r with
  | Err rsp => Some (plain rsp, d)
  | Ok host =>
      '(rsp, store, consumer) ← handle_inspect blake3_hex b64_decode b64_encode shm_error_text store_error_text
                                  request host (d_store d) (d_consumer d) (d_session d);
      Some (plain rsp, set_consumer consumer (set_store store d))
  end.

(** The three branches that answer with the worker's data. *)
Definition route_query {R} (r : result Response (option R) * option OrchestratorHandle) (handle : option R -> Response) (d : Daemon)
  : Routed * Daemon :=
  (plain match r.1 with Ok host => handle host | Err rsp => rsp end, set_orchestrator r.2 d).

Definition route_probe (request : Request) (d : Daemon) : Routed * Daemon :=
  let d := match from_value <$> req_params request with
           | Some (Ok (ProbeRequest_SetGranularity scopes)) => set_scopes scopes d
           | _ => d
           end in
  let (resp, registry) := handle_probe values_of point_error request (d_registry d) (d_session d) in
  let d := set_registry registry d in
  (plain resp, if failed resp then d else propagate_probes d).

Definition route_checkpoint (t : Turn) (request : Request) (d : Daemon) : Routed * Daemon :=
  let '(resp, s, sent) := handle_checkpoint (tn_env t) request (bool_decide (is_Some (d_orchestrator d))) (d_model_handle d) (d_session d) in
  let link := match d_orchestrator d with
              | Some o => Some (foldl (fun o req => (Link.checkpoint req o).2) o sent)
              | None => None
              end in
  (plain resp, set_orchestrator link (set_session s d)).

Definition route_export (t : Turn) (request : Request) (d : Daemon) : option (Routed * Daemon) :=
  (* [expect("orchestrator required for export")], [expect("model_handle required for export")] *)
  o ← d_orchestrator d; mh ← d_model_handle d;
  let '(resp, store, o, fs) := handle_export to_vec_pretty text_bytes from_str value_text request (d_trace d) (tn_ids t)
                                 (_ ← d_perfetto d; tn_perfetto t) (tn_bundle t) mh (d_session d) (d_store d) o (d_files d) in
  Some (plain resp, set_files fs (set_orchestrator (Some o) (set_store store d))).

Definition route (t : Turn) (request : Request) (d : Daemon) : option (Routed * Daemon) :=
  let m := req_method request in
  let s := d_session d in
  if decide (m = method.ATTACH) then Some (route_attach t request d)
  else if decide (m = method.STEP) then Some (route_step t request d)
  else if decide (m = method.INSPECT) then route_inspect request d
  else if decide (m = method.VIEW) then
    Some (route_query (try_orchestrator_view request (d_orchestrator d) (d_model_handle d)) (fun h => handle_view request h s) d)
  else if decide (m = method.KV_READ) then
    Some (route_query (try_orchestrator_kv_read request (d_orchestrator d) (d_model_handle d)) (fun h => handle_kv_read request h s) d)
  else if decide (m = method.KV_INTERVENE) then
    Some (route_query (try_orchestrator_kv_intervene request (d_orchestrator d) (d_model_handle d))
            (fun h => handle_kv_intervene request h s) d)
  else if decide (m = method.PROBE) then Some (route_probe request d)
  else if decide (m = method.SUBSCRIBE) then
    let (resp, s) := handle_subscribe request s in
    let d := set_session s d in
    Some (plain resp, if failed resp then d else set_events true d)
  else if decide (m = method.UNSUBSCRIBE) then Some (plain (handle_unsubscribe request s), set_events false d)
  else if decide (m = method.SESSION_EXPORT) then route_export t request d
  else if decide (m = method.CHECKPOINT) then Some (route_checkpoint t request d)
  else if decide (m = method.REPLAY) then
    let (hr, link) := try_orchestrator_replay request (d_orchestrator d) (d_model_handle d) in
    let (resp, s) := handle_replay request hr s in
    Some (plain resp, set_orchestrator link (set_session s d))
  else '(resp, s) ← dispatch (tn_env t) request s; Some (plain resp, set_session s d).

(** ** The trace sink *)

(** Errors of the sink are only logged; [None] is a panic of its assertions. *)
Definition open_trace (t : Turn) (worker_pid : option Z) (d : Daemon) : option Daemon :=
  let st := s_state (d_session d) in
  '(created, s) ← Sink_create tr_encode tr_os_write (tn_sink t) (tn_temp_dir t) (ss_session_id st)
                   (default "unknown"%string (ss_model_id st)) (tn_pid t);
  match created with
  | Err _ => Some d
  | Ok _ => '(_, s) ← declare_process tr_encode tr_os_write 0 (default 0 worker_pid) "rank:0" s; Some (set_perfetto (Some s) d)
  end.

Definition close_trace (t : Turn) (d : Daemon) : option Daemon :=
  match d_perfetto d with
  | None => Some d
  | Some s =>
      '(_, s) ← Sink_close tr_encode tr_os_write tr_open_order (tn_trace_ns t 0) s;
      Some (set_traces (d_traces d ++ [Sink_drop tr_os_write s]) (set_perfetto None d))
  end.

Definition trace_tick (now_ns : Z) (position : option TickPosition) (d : Daemon) : option Daemon :=
  match d_perfetto d, position with
  | Some s, Some pos => '(_, s) ← on_tick_stopped tr_encode tr_os_write now_ns pos s; Some (set_perfetto (Some s) d)
  | _, _ => Some d
  end.

(** The events in order, the [i]-th call of the turn for the first of them. *)
Fixpoint trace_probes (now_ns : nat -> Z) (i : nat) (events : list ProbeFiredEvent) (d : Daemon) : option Daemon :=
  match d_perfetto d, events with
  | Some s, pe :: rest =>
      '(_, s) ← on_probe_fired tr_encode tr_os_write tr_uuid_order (now_ns i) pe s;
      trace_probes now_ns (S i) rest (set_perfetto (Some s) d)
  | _, _ => Some d
  end.

(** ** Stale shared memory *)

Definition sweep_stale (sw : Sweep) (d : Daemon) : Daemon :=
  let names := discover_stale_region_names (sw_alive sw) (sw_entries sw) in
  set_shm (sweep_stale_regions names (sw_world sw)).2 d.

(** ** One turn of the loop *)

Definition commit_attached (t : Turn) (a : option (OrchestratorHandle * HostAttachResponse)) (d : Daemon) : option Daemon :=
  match a with
  | None => Some d
  | Some (orch, host) =>
      let d := set_model_handle (Some (HostAttachResponse_model_handle host)) (set_orchestrator (Some orch) d) in
      let d := set_session (set_auto_checkpoint_layers (checkpoint_layers (HostAttachResponse_num_layers host)) (d_session d)) d in
      let d := set_consumer (name ← HostAttachResponse_shm_name host; tn_open_ring t name) d in
      open_trace t (HostAttachResponse_worker_pid host) d
  end.

Definition after_detach (t : Turn) (request : Request) (resp : Response) (d : Daemon) : option Daemon :=
  if negb (failed resp) && bool_decide (req_method request = method.DETACH)
  then d ← close_trace t d; Some (set_consumer None (detach_orchestrator d)) else Some d.

Definition periodic_sweep (t : Turn) (d : Daemon) : Daemon :=
  match tn_sweep t with Some sw => sweep_stale sw d | None => d end.

Definition write_text (text : string) (d : Daemon) : Daemon :=
  set_sender (mkSender (sd_written (d_sender d) ++ Framing.write_message text) (sd_seq (d_sender d))) d.

Definition notify (method : string) (params : Value) (d : Daemon) : Daemon :=
  set_sender (send_notification_filtered notification_text method params (s_event_filter (d_session d)) (d_sender d)) d.

(** [tick.stopped] and [probe.fired] after a step, to the client and to the trace *)
Definition step_events (t : Turn) (request : Request) (r : Routed) (d : Daemon) : option Daemon :=
  if d_events_enabled d && negb (failed (rt_response r)) && bool_decide (req_method request = method.STEP) then
    let st := s_state (d_session d) in
    let d := notify event.TICK_STOPPED
               (to_value (mkTickStoppedEvent (default default_position (ss_position st)) (ss_status st))) d in
    d ← trace_tick (tn_trace_ns t 0) (ss_position st) d;
    match rt_step r with
    | Some hr =>
        let d := foldl (fun d pe => notify event.PROBE_FIRED (to_value pe) d) d (hsrsp_events hr) in
        trace_probes (tn_trace_ns t) 1 (hsrsp_events hr) d
    | None => Some d
    end
  else Some d.

Definition auto_checkpoint (t : Turn) (request : Request) (r : Routed) (d : Daemon) : Daemon :=
  match (if negb (failed (rt_response r)) && bool_decide (req_method request = method.STEP) then rt_step r else None) with
  | None => d
  | Some hr =>
      let layer := tp_layer (hsrsp_position hr) in
      if bool_decide (layer ∈ s_auto_checkpoint_layers (d_session d)) then
        match d_orchestrator d, d_model_handle d with
        | Some o, Some mh =>
            let auto_id := ("auto-" +:+ tn_auto_uuid t)%string in
            let req := HostCheckpointRequest_Create mh auto_id CreateCheckpointTier_Activation
                         (default 0 (ss_tick_id (s_state (d_session d)))) layer in
            match Link.checkpoint req o with
            | (Err _, o) => set_orchestrator (Some o) d
            | (Ok _, o) =>
                set_session (snd (checkpoint_create_with_id (tn_auto_uuid t) (env_now (tn_env t))
                  (Some CreateCheckpointTier_Activation) (Some auto_id) (d_session d))) (set_orchestrator (Some o) d)
            end
        | _, _ => d
        end
      else d
  end.

Definition record_out (t : Turn) (text : string) (d : Daemon) : Daemon :=
  set_trace (TraceLog.record (tn_now_out t) TraceLog.Outbound text (d_trace d)) d.

(** A request that parsed; [None] is a panic. *)
Definition serve_request (t : Turn) (request : Request) (d : Daemon) : option Daemon :=
  '(r, d) ← route t request d;
  d ← commit_attached t (rt_attached r) d;
  d ← after_detach t request (rt_response r) d;
  let d := periodic_sweep t d in
  let text := response_text (rt_response r) in
  d ← step_events t request r (write_text text (record_out t text d));
  Some (auto_checkpoint t request r d).

Definition serve_message (t : Turn) (raw : string) (d : Daemon) : option Daemon :=
  let d := set_trace (TraceLog.record (tn_now_in t) TraceLog.Inbound raw (d_trace d)) d in
  match parse_request raw with
  | Ok request => serve_request t request d
  | Err e => let text := parse_error_text e in Some (write_text text (record_out t text d))
  end.

(** The heartbeat of a turn without a message. *)
Definition heartbeat (uptime stopped : f64) (d : Daemon) : Daemon :=
  if d_events_enabled d then
    notify event.TICK_HEARTBEAT
      (to_value (mkTickHeartbeatEvent (default default_position (ss_position (s_state (d_session d)))) uptime stopped [])) d
  else d.

Inductive Input := Message (t : Turn) (raw : string) | Idle (uptime stopped : f64).

Definition turn (i : Input) (d : Daemon) : option Daemon :=
  match i with
  | Message t raw => serve_message t raw d
  | Idle u s => Some (heartbeat u s d)
  end.

Fixpoint run (inputs : list Input) (d : Daemon) : option Daemon :=
  match inputs with
  | [] => Some d
  | i :: inputs => d ← turn i d; run inputs d
  end.

(** Before the loop, and behind it: the sweep of what earlier sessions left;
    the trace is closed, the orchestrator is dropped. *)
Definition startup (sw : Sweep) : Daemon := sweep_stale sw initial.
Definition shutdown (t : Turn) (d : Daemon) : option Daemon :=
  d ← close_trace t d; Some (set_orchestrator None d).

End Main.
