(* ===== verification/MainSpec.v ===== *)
(** * MainSpec: what the daemon's loop guarantees

    The invariant that ties the session to the worker connection, the ways
    the loop can panic, and the bytes a client sees for a message. *)

From Stdlib Require Import ZArith Lia Ascii String SpecFloat.
From coqutil Require Import Byte.
From stdpp Require Import base gmap strings list.
From S2P Require Import Prelude HostDispatch Cleanup Perfetto PerfettoSpec.
From S2P Require Import Prelude Winnow Grammar Protocol Messages Registry Shm Stats TensorStore Json Session SessionInv.
From S2P Require Import Target Dispatch DispatchSpec InspectSpec Notify Link Bundle SessionExport Main.
Open Scope Z_scope.

(** ** The store's summaries *)

Lemma evict_oldest_size s :
  size (entries s) <> 0%nat -> (size (entries (evict_oldest (map_to_list (entries s)) s)) < size (entries s))%nat.
Proof.
  intros Hne. unfold evict_oldest. destruct (min_by_gen _) as [[id t]|] eqn:E.
  - apply min_by_gen_spec in E as [Hin _]. apply elem_of_map_to_list in Hin. rewrite Hin. cbn [entries].
    rewrite map_size_delete, Hin. lia.
  - apply min_by_gen_None, map_to_list_empty_iff in E. by rewrite E in Hne.
Qed.

Lemma evict_loop_total n fuel : forall s, (size (entries s) <= fuel)%nat -> is_Some (evict_loop fuel n s).
Proof.
  induction fuel as [|fuel IH]; intros s Hs; cbn [evict_loop]; destruct (must_evict s n) eqn:E; eauto;
    apply andb_prop in E as [E%negb_true_iff%Nat.eqb_neq _].
  - lia.
  - apply IH. pose proof (evict_oldest_size s E). lia.
Qed.

(** Every tensor that the loop keeps has had its summary computed. *)
Definition cached (s : TensorStore) : Prop := map_Forall (fun _ t => is_Some (summary t)) (entries s).

Lemma cached_touch s id t : cached s -> is_Some (summary t) -> cached (touch s id t).
Proof. intros Hs Ht. by apply map_Forall_insert_2. Qed.

Lemma cached_evict it s : cached s -> cached (evict_oldest it s).
Proof.
  intros Hs. unfold evict_oldest. destruct (min_by_gen it) as [[id t]|]; [|done]. destruct (entries s !! id); [|done].
  by apply map_Forall_delete.
Qed.

Lemma cached_evict_loop n fuel : forall s s', cached s -> evict_loop fuel n s = Some s' -> cached s'.
Proof.
  induction fuel as [|fuel IH]; intros s s' Hs; cbn [evict_loop]; destruct (must_evict s n); try done; try by intros [= <-].
  apply IH. by apply cached_evict.
Qed.

Lemma cached_raw s id : cached s -> cached (raw_data s id).2.
Proof. intros Hs. unfold raw_data. destruct (entries s !! id) eqn:E; [|done]. apply cached_touch; [done|]. by eapply Hs. Qed.

Lemma cached_slice s id o n : cached s -> cached (TensorStore.slice s id o n).2.
Proof. intros Hs. unfold TensorStore.slice. destruct (entries s !! id) eqn:E; [|done]. apply cached_touch; [done|]. by eapply Hs. Qed.

Lemma cached_artifacts ids : forall s, cached s -> cached (tensor_artifacts ids s).2.
Proof.
  induction ids as [|id ids IH]; intros s Hs; cbn [tensor_artifacts]; [done|].
  pose proof (cached_raw s id Hs) as Hr. destruct (raw_data s id) as [d s1]. specialize (IH s1 Hr). by destruct (tensor_artifacts ids s1).
Qed.

(** The tensor under an id that was inserted: what was there, or a new one. *)
Lemma insert_stores s id b shp dt dev : cached s ->
  exists h s' t, insert_with_id s id b shp dt dev = Some (h, s') /\ th_tensor_id h = id /\ entries s' !! id = Some t /\
    (is_Some (summary t) \/ shape t = shp) /\ (forall t', is_Some (summary t') -> cached (touch s' id t')).
Proof.
  intros Hs. unfold insert_with_id. destruct (entries s !! id) as [t|] eqn:E.
  - do 2 eexists. exists (set_gen (access_generation s) t). split; [done|]. split; [done|]. cbn. rewrite lookup_insert_eq. split; [done|].
    assert (Ht : is_Some (summary t)) by (by eapply Hs). split; [by left|]. intros t' Ht'. by apply cached_touch; [apply cached_touch|].
  - destruct (evict_loop_total (Z.of_nat (List.length b)) (size (entries s)) s (le_n _)) as [s1 E1]. rewrite E1.
    do 3 eexists. split; [reflexivity|]. split; [done|]. cbn. rewrite lookup_insert_eq. split; [reflexivity|]. split; [by right|].
    intros t' Ht'. unfold cached, touch. cbn. rewrite insert_insert_eq. apply map_Forall_insert_2; [done|]. by eapply cached_evict_loop.
Qed.

Section Total.
Context `{J : SerdeJson} {WR : Wire}.
Context (blake3_hex : list byte -> string) `{NM : Numerics}.
Context (b64_decode : string -> result string (list byte)) (b64_encode : list byte -> string).
Context (shm_error_text : ShmError -> string) (store_error_text : StoreError -> string).

Lemma push_summary_cached id s slots g t :
  entries s !! id = Some t -> (forall t', is_Some (summary t') -> cached (touch s id t')) ->
  match push_summary id s slots g with
  | Some g' => cached (ig_store g')
  | None => summary t = None /\ 0 ∈ shape t
  end.
Proof.
  intros Ht Hs. unfold push_summary, summarize. rewrite Ht. destruct (summary t) as [[stats top_k]|] eqn:E; cbn [mbind option_bind].
  - rewrite E. cbn [mbind option_bind ig_store]. apply Hs. by rewrite E.
  - destruct (compute_summary (data t) (dtype t) (shape t)) as [[stats top_k]|] eqn:Ec; cbn [mbind option_bind].
    + by apply Hs.
    + split; [done|]. by eapply compute_summary_None.
Qed.

(** A captured tensor that cannot be inspected: one with a zero dimension, or
    with a length in the ring beyond any vector's. *)
Definition uninspectable (consumer : option Consumer) (ct : CapturedTensor) : Prop :=
  0 ∈ ct_shape ct \/ oversized consumer ct.

Lemma ingest_one_cached request consumer ct g : cached (ig_store g) ->
  match ingest_one blake3_hex b64_decode shm_error_text request consumer ct g with
  | Some (Ok g') => cached (ig_store g')
  | Some (Err rsp) => rsp_id rsp = req_id request
  | None => uninspectable consumer ct
  end.
Proof.
  intros Hs. unfold ingest_one. destruct (parse_dtype _) as [dt|]; [|done]. destruct (TensorStore.contains _ _) eqn:Ec.
  { apply bool_decide_eq_true in Ec as [t Ht]. assert (Hsum : is_Some (summary t)) by exact (Hs _ _ Ht).
    match goal with |- context [push_summary _ ?s ?sl g] => pose proof (push_summary_cached _ s sl g t Ht) as Hp end.
    destruct (push_summary _ _ _ g); cbn; [apply Hp; intros; by apply cached_touch|].
    destruct Hp as [Hp _]; [intros; by apply cached_touch|]. rewrite Hp in Hsum. by destruct Hsum. }
  assert (Hins : forall id b slots, match ('(handle, store) ← insert_with_id (ig_store g) id b (ct_shape ct) dt (ct_device ct);
    @Ok Response Ingest <$> push_summary (th_tensor_id handle) store slots g) with
    | Some (Ok g') => cached (ig_store g')
    | Some (Err rsp) => rsp_id rsp = req_id request
    | None => uninspectable consumer ct end).
  { intros id b slots. destruct (insert_stores (ig_store g) id b (ct_shape ct) dt (ct_device ct) Hs) as (h & s' & t & -> & Eh & Ht & Hor & Hc).
    cbn. rewrite Eh. pose proof (push_summary_cached id s' slots g t Ht Hc) as Hp. destruct (push_summary _ _ _ g); cbn; [done|].
    destruct Hp as [Hn Hz]. destruct Hor as [Hor|Hsh]; [rewrite Hn in Hor; by destruct Hor|left; by rewrite <- Hsh]. }
  destruct (ct_shm_offset ct) as [o|] eqn:Eo, (ct_byte_length ct) as [n|] eqn:En.
  { destruct (read_from_shm _ consumer o n) as [[b|e]|] eqn:Er; cbn [mbind option_bind]; [apply Hins|done|]. right.
    unfold read_from_shm, read_absolute, read_vec in Er. destruct consumer as [c|]; [|done]. cbn in Er.
    destruct (Z.ltb_spec ISIZE_MAX n); [|done]. split; [done|]. by exists o, n. }
  all: (destruct (ct_data_base64 ct); [|done]); (destruct (b64_decode _); [|done]); apply Hins.
Qed.

Lemma ingest_cached request consumer captured : forall g, cached (ig_store g) ->
  match ingest blake3_hex b64_decode shm_error_text request consumer captured g with
  | Some (Ok g') => cached (ig_store g')
  | Some (Err (rsp, store)) => cached store /\ rsp_id rsp = req_id request
  | None => Exists (uninspectable consumer) captured
  end.
Proof.
  induction captured as [|ct captured IH]; intros g Hg; cbn [ingest]; [done|].
  pose proof (ingest_one_cached request consumer ct g Hg) as H1.
  destruct (ingest_one _ _ _ request consumer ct g) as [[g'|rsp]|]; cbn [mbind option_bind]; [|done|by left].
  specialize (IH g' H1). destruct (ingest _ _ _ request consumer captured g') as [[|[]]|]; try done. by right.
Qed.

Definition inspecting := handle_inspect blake3_hex b64_decode b64_encode shm_error_text store_error_text.

(** Inspecting answers with the id of the request and opens no ring, unless a
    captured tensor cannot be inspected. *)
Lemma inspect_returns request host store consumer s : cached store ->
  match inspecting request host store consumer s with
  | Some (rsp, store', consumer') => cached store' /\ rsp_id rsp = req_id request /\ (consumer = None -> consumer' = None)
  | None => exists hr, host = Some hr /\ Exists (uninspectable consumer) (HostInspectResponse_tensors hr)
  end.
Proof.
  intros Hs. assert (Hq : forall T (S : Serialize T) (r : result SessionError T), rsp_id (answer_with request r) = req_id request)
    by (by intros T S []).
  unfold inspecting, handle_inspect, with_params. destruct (parse_params request) as [req|]; [|done].
  unfold when_stopped_or. destruct (require_stopped _ s); [|done].
  destruct (negb _).
  { by destruct (invalid_target_total (InspectRequest_target req)) as (e & -> & _). }
  destruct host as [[[|ct captured]]|]; [done| |done]. cbn [HostInspectResponse_tensors].
  unfold ingest_and_respond. pose proof (ingest_cached request consumer (ct :: captured) (mkIngest store [] None 0) Hs) as Hi.
  destruct (ingest _ _ _ request consumer (ct :: captured) _) as [[g|[rsp st]]|]; cbn [mbind option_bind].
  - assert (Hst : cached (slice_data b64_encode store_error_text request req (ig_first g) (ig_store g)).2).
    { unfold slice_data. destruct (InspectRequest_detail req), (InspectRequest_slices req) as [[|[o n]]|], (ig_first g) as [tid|]; try done.
      pose proof (cached_slice (ig_store g) tid o n Hi) as Hc. by destruct (TensorStore.slice _ _ _ _). }
    destruct (slice_data _ _ _ _ _ _) as [[o|rsp] st] eqn:Es; cbn [snd] in Hst.
    + split; [done|]. split; [apply Hq|by intros ->].
    + split; [done|]. split; [|by intros ->]. unfold slice_data in Es.
      destruct (InspectRequest_detail req), (InspectRequest_slices req) as [[|[]]|], (ig_first g); try done.
      destruct (TensorStore.slice _ _ _ _) as [[b|[]] ?]; by simplify_eq.
  - by destruct Hi.
  - by eexists.
Qed.
End Total.

(** ** Handlers and the phase of the session *)

Section Phase.
Context `{J : SerdeJson} {WR : Wire}.

Definition stopped (s : Session) : Prop := status s = Status_Stopped.

(** The handler neither attaches nor detaches, and keeps the recipes valid and the session well formed. *)
Record quiet (s s' : Session) : Prop := {
  qu_phase : stopped s' <-> stopped s;
  qu_ok : session_ok s -> session_ok s';
  qu_recipes : Forall recipe_valid (s_interventions s) -> Forall recipe_valid (s_interventions s')
}.

Lemma quiet_refl s : quiet s s.
Proof. by split. Qed.
Lemma quiet_trans s1 s2 s3 : quiet s1 s2 -> quiet s2 s3 -> quiet s1 s3.
Proof. intros [] []. split; [tauto|auto|auto]. Qed.

Definition moves_phase (c : Call) : bool := match c with CAttach _ _ _ _ _ _ | CDetach => true | _ => false end.

Lemma exec_phase c s : moves_phase c = false -> stopped (exec c s) <-> stopped s.
Proof.
  unfold stopped. intros Hc. destruct c; try done; cbn [exec]; unfold when_stopped, initialize, Session.step, Session.replay, checkpoint_restore,
    checkpoint_delete, checkpoint_create_with_id, define_view, update_arena_utilization;
    repeat (case_match || (case_bool_decide; cbn [negb])); simplify_eq/=; try done.
  unfold status in *. cbn. split; [done|congruence].
Qed.

Lemma exec_quiet c s : moves_phase c = false -> admissible c -> quiet s (exec c s).
Proof. intros. split; [by apply exec_phase|apply exec_ok|by apply exec_recipes]. Qed.

Lemma with_params_quiet {T} `{!Deserialize T} request s (k : T -> Response * Session) :
  (forall req, quiet s (k req).2) -> quiet s (with_params request (fun r => (r, s)) k).2.
Proof. intros H. unfold with_params. destruct (parse_params request); [done|apply quiet_refl]. Qed.

Lemma op_quiet {T} `{!Serialize T} request s (op : result SessionError T * Session) c :
  op.2 = exec c s -> moves_phase c = false -> admissible c -> quiet s (let (r, s') := op in (answer_with request r, s')).2.
Proof. destruct op as [r s']. cbn. intros ->. apply exec_quiet. Qed.

Lemma handle_initialize_quiet env request s : quiet s (handle_initialize env request s).2.
Proof. apply with_params_quiet. intros req. by apply (op_quiet _ _ _ (CInitialize (env_uuid env) req)). Qed.

Lemma handle_step_quiet request host s : quiet s (handle_step request host s).2.
Proof.
  apply with_params_quiet. intros req. set (x := match host with Some hr => _ | None => _ end). destruct x as [[pos fc] fired].
  by apply (op_quiet _ _ _ (CStep req pos fc fired)).
Qed.

Lemma handle_replay_quiet request host s : quiet s (handle_replay request host s).2.
Proof. apply with_params_quiet. intros req. by apply (op_quiet _ _ _ (CReplay req host)). Qed.

Lemma handle_view_define_quiet request s : quiet s (handle_view_define request s).2.
Proof. apply with_params_quiet. intros [name spec]. by apply (op_quiet _ _ _ (CDefineView name spec)). Qed.

Lemma handle_subscribe_quiet request s : quiet s (handle_subscribe request s).2.
Proof.
  apply with_params_quiet. intros req. unfold when_stopped_or.
  destruct (require_stopped_cases "rocket/subscribe" s) as [[Hs E]|[_ [e E]]]; rewrite E; [|apply quiet_refl].
  pose proof (exec_quiet (CEventFilter (SubscribeRequest_filter req)) s eq_refl I) as H. cbn [exec] in H. by rewrite guarded in H.
Qed.

Lemma handle_checkpoint_quiet env request orch mh s : quiet s (handle_checkpoint env request orch mh s).1.2.
Proof.
  unfold handle_checkpoint, with_params. destruct (parse_params request) as [req|e]; [|apply quiet_refl].
  unfold when_stopped_or. destruct (require_stopped_cases "rocket/checkpoint" s) as [[Hs E]|[_ [e E]]]; rewrite E; [|apply quiet_refl].
  assert (H : forall c f, exec c s = when_stopped "rocket/checkpoint" f s -> moves_phase c = false -> admissible c -> quiet s (f s)).
  { intros c f Hc Hm Ha. pose proof (exec_quiet c s Hm Ha) as Hq. by rewrite Hc, guarded in Hq. }
  destruct req as [tier|id| |id|tick name].
  - destruct (if orch then mh else None).
    + by apply (H (CCreate (env_uuid env) (env_now env) tier (Some (env_uuid env))) (fun s => snd (checkpoint_create_with_id _ _ _ _ s))).
    + by apply (H (CCreate (env_uuid env) (env_now env) tier None) (fun s => snd (checkpoint_create_with_id _ _ _ _ s))).
  - pose proof (H (CRestore id) _ eq_refl eq_refl I) as Hq. revert Hq. cbv beta. destruct (checkpoint_restore id s); exact (fun q => q).
  - apply quiet_refl.
  - pose proof (H (CDelete id) _ eq_refl eq_refl I) as Hq. revert Hq. cbv beta. destruct (checkpoint_delete id s); exact (fun q => q).
  - by apply (H (CBookmark (env_uuid env) (env_now env) tick name) (fun s => snd (checkpoint_bookmark _ _ _ _ s))).
Qed.

Lemma handle_intervene_quiet request s rsp s' : handle_intervene request s = Some (rsp, s') -> quiet s s'.
Proof.
  intros E. assert (Hq : forall c f, exec c s = when_stopped "rocket/intervene" f s -> moves_phase c = false -> admissible c ->
    status s = Status_Stopped -> quiet s (f s)).
  { intros c f Hc Hm Ha Hst. pose proof (exec_quiet c s Hm Ha) as Hq. by rewrite Hc, guarded in Hq. }
  revert E. unfold handle_intervene, with_params. destruct (parse_params request) as [req|e]; [|intros [= <- <-]; apply quiet_refl].
  unfold when_stopped_or. destruct (require_stopped_cases "rocket/intervene" s) as [[Hs Er]|[_ [e Er]]]; rewrite Er;
    [|intros [= <- <-]; apply quiet_refl].
  destruct req as [recipe|id|].
  - destruct (validate_recipe_total recipe) as ([[]|d] & -> & Hd); cbn [mbind option_bind]; intros [= <- <-]; [|apply quiet_refl].
    by apply (Hq (CSetIntervention recipe)).
  - intros [= <- <-]. by apply (Hq (CClearIntervention id) (fun s => snd (clear_intervention id s))).
  - intros [= <- <-]. apply quiet_refl.
Qed.

(** Failing leaves the session; otherwise attach stops it and detach releases it. *)
Lemma answers_failed request s rsp s' : answers request s rsp s' -> failed rsp = true -> s' = s.
Proof. intros H [e He]%bool_decide_eq_true. by destruct (an_error _ _ _ _ H e He) as [-> _]. Qed.

Lemma handle_attach_phase env request backend s :
  let r := handle_attach env request backend s in
  failed r.1 = false -> (exists host, backend = Ok host) /\ stopped r.2.
Proof.
  unfold handle_attach, with_params. destruct (parse_params request) as [req|e]; [|done].
  destruct backend as [host|m]; [|done]. cbv beta iota zeta. destruct (_ || _); [done|].
  destruct (validate_attach req s); [|done]. intros _. split; [eauto|done].
Qed.

Lemma handle_detach_phase request s : failed (handle_detach request s).1 = false -> ~ stopped (handle_detach request s).2.
Proof.
  unfold handle_detach, Session.detach. destruct (_ || _); [done|]. destruct (negb _); [done|]. by intros _.
Qed.

(** The router: everything but detach is quiet. *)
Lemma dispatch_quiet env request s rsp s' :
  dispatch env request s = Some (rsp, s') -> req_method request <> method.DETACH -> quiet s s'.
Proof.
  unfold dispatch. intros E Hd. rewrite (decide_False (P := req_method request = method.DETACH)) in E by done.
  repeat match type of E with context [decide (req_method request = ?m)] =>
    destruct (decide (req_method request = m)) in E; cbv iota in E end;
    try (injection E as E); try (by eapply handle_intervene_quiet);
    first [ injection E as <- <-; apply quiet_refl
          | match type of E with ?x = _ => replace s' with x.2 by (by rewrite E) end;
            first [apply handle_initialize_quiet | apply handle_step_quiet | apply handle_subscribe_quiet
                  | apply handle_view_define_quiet | apply handle_checkpoint_quiet | apply handle_replay_quiet]
          | subst; apply quiet_refl ].
Qed.

Lemma dispatch_detach env request s :
  req_method request = method.DETACH -> dispatch env request s = Some (handle_detach request s).
Proof. intros E. unfold dispatch. rewrite E. done. Qed.

End Phase.

(** ** The loop *)

(** The encoding of a packet fits in memory. *)
Class TraceIoLaws `{TraceIo} := {
  tr_encode_size p : Z.of_nat (List.length (tr_encode p)) <= U64_MAX
}.

Section Loop.
Context `{J : SerdeJson} {WR : Wire} {P : Peer} {HW : HostWire} {EW : EventWire} {XW : ExportWire} {AR : Archive} {TI : TraceIo} {TL : TraceIoLaws} {W : Winnow}.
Context (values_of : ProbeRegistry -> list StoredProbe) (point_error : string -> string).
Context (blake3_hex : list byte -> string) `{NM : Numerics}.
Context (b64_decode : string -> result string (list byte)) (b64_encode : list byte -> string).
Context (shm_error_text : ShmError -> string) (store_error_text : StoreError -> string).
Context (response_text : Response -> string) (notification_text : Notification -> string).
Context (parse_request : string -> result string Request) (parse_error_text : string -> string).
Context (to_vec_pretty : Value -> list byte) (text_bytes : string -> list byte).
Context (from_str : string -> option Value) (value_text : Value -> string).

Abbreviation the_route := (route values_of point_error blake3_hex b64_decode b64_encode shm_error_text
  store_error_text to_vec_pretty text_bytes from_str value_text).
Abbreviation serve := (serve_request values_of point_error blake3_hex b64_decode b64_encode shm_error_text
  store_error_text response_text notification_text to_vec_pretty text_bytes from_str value_text).
Abbreviation the_turn := (turn values_of point_error blake3_hex b64_decode b64_encode shm_error_text
  store_error_text response_text notification_text parse_request parse_error_text to_vec_pretty text_bytes
  from_str value_text).
Abbreviation the_run := (run values_of point_error blake3_hex b64_decode b64_encode shm_error_text
  store_error_text response_text notification_text parse_request parse_error_text to_vec_pretty text_bytes
  from_str value_text).

(** A sink that the loop has made and used, and one that it has closed. *)
Definition traced_here : Sink -> Prop := traced tr_encode tr_os_write map_to_list tr_uuid_order.
Definition closed (s : Sink) : Prop :=
  exists s0 now_ns r s1, traced_here s0 /\ Sink_close tr_encode tr_os_write tr_open_order now_ns s0 = Some (r, s1) /\ s = Sink_drop tr_os_write s1.

(** The worker connection exists exactly while the session is stopped, and the
    session is well formed; a trace is kept only then. *)
Record daemon_ok (d : Daemon) : Prop := {
  do_session : session_ok (d_session d);
  do_recipes : Forall recipe_valid (s_interventions (d_session d));
  do_orch : is_Some (d_orchestrator d) <-> stopped (d_session d);
  do_handle : is_Some (d_model_handle d) <-> stopped (d_session d);
  do_consumer : is_Some (d_consumer d) -> stopped (d_session d);
  do_tracing : is_Some (d_perfetto d) -> stopped (d_session d);
  do_traced : forall s, d_perfetto d = Some s -> traced_here s;
  do_closed : Forall closed (d_traces d);
  do_store : cached (d_store d)
}.

(** What routing may change before the attach or detach is committed. *)
Record routed_ok (request : Request) (d : Daemon) (r : Routed) (d' : Daemon) : Prop := {
  ro_id : rsp_id (rt_response r) = req_id request;
  ro_sender : d_sender d' = d_sender d;
  ro_trace : d_trace d' = d_trace d;
  ro_sink : d_perfetto d' = d_perfetto d /\ d_traces d' = d_traces d;
  ro_session : session_ok (d_session d) -> session_ok (d_session d');
  ro_store : cached (d_store d) -> cached (d_store d');
  ro_recipes : Forall recipe_valid (s_interventions (d_session d)) -> Forall recipe_valid (s_interventions (d_session d'));
  ro_handle : d_model_handle d' = d_model_handle d;
  ro_orch : is_Some (d_orchestrator d') <-> is_Some (d_orchestrator d);
  ro_consumer : is_Some (d_consumer d') -> is_Some (d_consumer d);
  ro_phase : match rt_attached r with
             | Some _ => req_method request = method.ATTACH /\ stopped (d_session d')
             | None => if negb (failed (rt_response r)) && bool_decide (req_method request = method.DETACH)
                       then ~ stopped (d_session d') else stopped (d_session d') <-> stopped (d_session d)
             end
}.

Lemma routed_quiet request d r d' :
  rsp_id (rt_response r) = req_id request -> rt_attached r = None ->
  d_sender d' = d_sender d -> d_trace d' = d_trace d -> d_perfetto d' = d_perfetto d /\ d_traces d' = d_traces d ->
  d_model_handle d' = d_model_handle d -> (cached (d_store d) -> cached (d_store d')) ->
  (is_Some (d_orchestrator d') <-> is_Some (d_orchestrator d)) -> (is_Some (d_consumer d') -> is_Some (d_consumer d)) ->
  quiet (d_session d) (d_session d') -> req_method request <> method.DETACH -> routed_ok request d r d'.
Proof.
  intros H1 H2 H3 H4 Hsink H5 Hstore H6 H7 [Q1 Q2 Q3] H9. split; try done. rewrite H2.
  rewrite (bool_decide_eq_false_2 _ H9), andb_false_r. done.
Qed.

(** The calls to the worker neither open nor close the connection. *)
Lemma try_step_link request scopes iv link mh :
  is_Some (try_orchestrator_step request scopes iv link mh).2 <-> is_Some link.
Proof.
  unfold try_orchestrator_step. destruct link as [o|], mh; try done.
  destruct (match req_params request with None => _ | Some _ => _ end); [|done]. by destruct (Link.step _ o) as [[]].
Qed.

Lemma try_replay_link request link mh : is_Some (try_orchestrator_replay request link mh).2 <-> is_Some link.
Proof.
  unfold try_orchestrator_replay. destruct link as [o|], mh; try done.
  destruct (match req_params request with None => _ | Some _ => _ end); [|done]. by destruct (Link.replay _ o) as [[]].
Qed.

Lemma try_raw_spec {Q R} `{!Deserialize Q, !Deserialize R} send request link mh :
  let r := @try_raw J P Q R _ _ send request link mh in
  (is_Some r.2 <-> is_Some link) /\ match r.1 with Ok _ => True | Err rsp => rsp_id rsp = req_id request end.
Proof.
  unfold try_raw. destruct link as [o|]; [|done]. destruct mh as [mh|]; [|done].
  destruct (from_value <$> req_params request) as [[req|]|]; try done.
  destruct (send mh req o) as [[rsp|e] o']; [|done]. cbn. split; [done|].
  destruct (rsp_error rsp); [done|]. destruct (rsp_result rsp) as [v|]; [|done]. by destruct (from_value v).
Qed.

Lemma arena_quiet b s : quiet s (update_arena_utilization b s).
Proof. apply (exec_quiet (CArena b) s eq_refl I). Qed.
Lemma advance_quiet tick s : quiet s (advance_worldline_segment tick s).
Proof. apply (exec_quiet (CAdvance tick) s eq_refl I). Qed.

Lemma sub_checkpoint_quiet mh s o : quiet s (sub_checkpoint mh s o).1.
Proof.
  unfold sub_checkpoint. destruct (SFltb _ _); [|apply quiet_refl].
  destruct (Link.checkpoint _ o) as [[]]; [apply arena_quiet|apply quiet_refl].
Qed.

Lemma backward_quiet order link mh s :
  let r := try_backward_step order link mh s in (is_Some r.1.2 <-> is_Some link) /\ quiet s r.2.
Proof.
  unfold try_backward_step. destruct (find_checkpoint_before _ _); [|by split; [|apply quiet_refl]].
  destruct link as [o|]; [|by split; [|apply quiet_refl]]. destruct mh as [mh|]; [|by split; [|apply quiet_refl]].
  pose proof (sub_checkpoint_quiet mh s o) as Hq. destruct (sub_checkpoint mh s o) as [s1 o1]. cbn in Hq.
  destruct (Link.replay _ o1) as [[hr|e] o2]; cbn; (split; [done|]); [|done].
  eapply quiet_trans; [exact Hq|apply advance_quiet].
Qed.

(** *** The branches *)

Lemma route_attach_ok t request d : req_method request = method.ATTACH ->
  let r := route_attach t request d in routed_ok request d r.1 r.2.
Proof.
  intros Hm. assert (Hnd : bool_decide (req_method request = method.DETACH) = false) by (by rewrite Hm).
  assert (Hb : forall backend, let r := handle_attach (tn_env t) request backend (d_session d) in
    failed r.1 = true -> routed_ok request d (plain r.1) (set_session r.2 d)).
  { intros backend r Hf. pose proof (handle_attach_answers (tn_env t) request backend (d_session d)) as Ha. fold r in Ha. cbn in Ha.
    pose proof (answers_failed _ _ _ _ Ha Hf) as E.
    split; cbn; rewrite ?E, ?Hnd, ?andb_false_r; try done. apply (an_id _ _ _ _ Ha). }
  assert (Hm' : forall m, failed (handle_attach (tn_env t) request (Err m) (d_session d)).1 = true).
  { intros m. destruct (failed _) eqn:E; [done|]. apply handle_attach_phase in E as [[? ?] _]. done. }
  unfold route_attach. destruct (from_value <$> req_params request) as [[areq|]|].
  2,3: specialize (Hb (Err "attach params missing or malformed"%string) (Hm' _)); by destruct (handle_attach _ _ _ _).
  destruct (validate_attach areq (d_session d)) as [[]|e].
  2:{ split; cbn; rewrite ?Hnd, ?andb_false_r; done. }
  destruct (spawn_and_attach t request) as [[orch host]|msg].
  2:{ specialize (Hb (Err msg) (Hm' _)). by destruct (handle_attach _ _ _ _). }
  specialize (Hb (Ok host)). cbv zeta in Hb. pose proof (handle_attach_answers (tn_env t) request (Ok host) (d_session d)) as Ha.
  pose proof (handle_attach_phase (tn_env t) request (Ok host) (d_session d)) as Hp. cbv zeta in *.
  destruct (handle_attach _ _ _ _) as [resp s']. cbn in *. destruct (failed resp) eqn:Ef; [by apply Hb|].
  destruct (Hp eq_refl) as [_ Hs]. destruct (an_calls _ _ _ _ Ha) as (cs & Hc & ->).
  split; cbn; try done; [apply (an_id _ _ _ _ Ha)|..].
  - clear -Hc. revert Hc. generalize (d_session d). induction cs as [|c cs IH]; intros s Hc Hok; [done|].
    apply Forall_cons in Hc as [? ?]. apply IH; [done|]. by apply exec_ok.
  - clear -Hc. revert Hc. generalize (d_session d). induction cs as [|c cs IH]; intros s Hc Hok; [done|].
    apply Forall_cons in Hc as [? ?]. apply IH; [done|]. by apply exec_recipes.
Qed.

Lemma route_step_ok t request d : req_method request = method.STEP ->
  let r := route_step t request d in routed_ok request d r.1 r.2.
Proof.
  intros Hm. assert (Hnd : req_method request <> method.DETACH) by (by rewrite Hm). unfold route_step.
  destruct (is_backward request).
  - pose proof (backward_quiet (tn_order t) (d_orchestrator d) (d_model_handle d) (d_session d)) as [Hl Hq].
    destruct (try_backward_step _ _ _ _) as [[[hr|] link] s]; cbn in Hl, Hq; [|by apply routed_quiet].
    pose proof (handle_step_quiet request (Some hr) s) as Hq2. pose proof (handle_step_answers request (Some hr) s) as Ha.
    destruct (handle_step request (Some hr) s) as [resp s2]. cbn in *. apply routed_quiet; try done.
    + apply (an_id _ _ _ _ Ha). + by eapply quiet_trans.
  - pose proof (try_step_link request (d_scopes d) (s_interventions (d_session d)) (d_orchestrator d) (d_model_handle d)) as Hl.
    destruct (try_orchestrator_step _ _ _ _ _) as [hr link]. cbn in Hl.
    pose proof (handle_step_quiet request hr (d_session d)) as Hq. pose proof (handle_step_answers request hr (d_session d)) as Ha.
    destruct (handle_step request hr (d_session d)) as [resp s2]. cbn in *. apply routed_quiet; try done. apply (an_id _ _ _ _ Ha).
Qed.

(** An inspection for which the worker reports a tensor that cannot be inspected. *)
Definition inspect_uninspectable (request : Request) (d : Daemon) : Prop :=
  req_method request = method.INSPECT /\
  exists hr link, try_orchestrator_inspect request (d_orchestrator d) (d_model_handle d) = (Ok (Some hr), link) /\
    Exists (uninspectable (d_consumer d)) (HostInspectResponse_tensors hr).

Lemma route_inspect_ok request d : req_method request = method.INSPECT -> cached (d_store d) ->
  match route_inspect blake3_hex b64_decode b64_encode shm_error_text store_error_text request d with
  | Some (r, d') => routed_ok request d r d'
  | None => inspect_uninspectable request d
  end.
Proof.
  intros Hm Hs. assert (Hnd : req_method request <> method.DETACH) by (by rewrite Hm). unfold route_inspect, inspect_uninspectable.
  assert (Hr : let r := try_orchestrator_inspect request (d_orchestrator d) (d_model_handle d) in
    (is_Some r.2 <-> is_Some (d_orchestrator d)) /\ match r.1 with Ok _ => True | Err rsp => rsp_id rsp = req_id request end)
    by apply try_raw_spec.
  destruct (try_orchestrator_inspect _ _ _) as [[host|rsp] link]; cbn in Hr; destruct Hr as [Hl He].
  2:{ by apply routed_quiet. }
  pose proof (inspect_returns blake3_hex b64_decode b64_encode shm_error_text store_error_text request host
    (d_store d) (d_consumer d) (d_session d) Hs) as H.
  unfold inspecting in H. cbn [d_store d_consumer d_session set_orchestrator].
  destruct (handle_inspect _ _ _ _ _ request host _ _ _) as [[[rsp st] c]|]; cbn [mbind option_bind].
  - destruct H as (Hst & Hid & Hc). apply routed_quiet; try done. cbn. intros [x ->]. destruct (d_consumer d); [eauto|]. by specialize (Hc eq_refl).
  - destruct H as (hr & -> & H). split; [done|]. by exists hr, link.
Qed.

Lemma route_query_ok {R} request (r : result Response (option R) * option OrchestratorHandle) handle d :
  req_method request <> method.DETACH -> (is_Some r.2 <-> is_Some (d_orchestrator d)) ->
  match r.1 with Ok _ => True | Err rsp => rsp_id rsp = req_id request end ->
  (forall h, answers request (d_session d) (handle h) (d_session d)) ->
  let x := route_query r handle d in routed_ok request d x.1 x.2.
Proof.
  intros Hm Hl He Ha. destruct r as [[h|rsp] link]; cbn in *; apply routed_quiet; try done; try apply quiet_refl.
  apply (an_id _ _ _ _ (Ha h)).
Qed.

Lemma handle_probe_id request registry s : rsp_id (handle_probe values_of point_error request registry s).1 = req_id request.
Proof.
  unfold handle_probe, when_stopped_or. destruct (require_stopped _ s); [|done].
  unfold with_params. destruct (parse_params request) as [[probe| |id|id|id|scopes]|e]; try done; unfold probe_answer.
  - by destruct (Registry.define registry probe) as [[]].
  - by destruct (Registry.enable registry id) as [[]].
  - by destruct (Registry.disable registry id) as [[]].
  - by destruct (Registry.remove registry id) as [[]].
Qed.

Lemma route_probe_ok request d : req_method request = method.PROBE ->
  let x := route_probe values_of point_error request d in routed_ok request d x.1 x.2.
Proof.
  intros Hm. assert (Hnd : req_method request <> method.DETACH) by (by rewrite Hm). unfold route_probe.
  set (d1 := match from_value <$> req_params request with Some (Ok (ProbeRequest_SetGranularity scopes)) => set_scopes scopes d | _ => d end).
  assert (H1 : d_session d1 = d_session d /\ d_sender d1 = d_sender d /\ d_trace d1 = d_trace d /\
    d_model_handle d1 = d_model_handle d /\ d_orchestrator d1 = d_orchestrator d /\ d_consumer d1 = d_consumer d /\
    (d_perfetto d1 = d_perfetto d /\ d_traces d1 = d_traces d) /\ d_store d1 = d_store d).
  { unfold d1. by destruct (from_value <$> _) as [[[]|]|]. }
  destruct H1 as (E1 & E2 & E3 & E4 & E5 & E6 & E7 & E8).
  pose proof (handle_probe_id request (d_registry d1) (d_session d1)) as Hid.
  destruct (handle_probe _ _ request (d_registry d1) (d_session d1)) as [resp registry]. cbn in Hid |- *.
  unfold propagate_probes. cbn. rewrite E4, E5.
  destruct (failed resp); [|destruct (d_orchestrator d) eqn:Eo, (d_model_handle d) eqn:Eh]; apply routed_quiet; cbn;
    rewrite ?E1, ?E2, ?E3, ?E4, ?E5, ?E6, ?E8, ?Eo, ?Eh; try done; apply quiet_refl.
Qed.

Lemma route_checkpoint_ok t request d : req_method request = method.CHECKPOINT ->
  let x := route_checkpoint t request d in routed_ok request d x.1 x.2.
Proof.
  intros Hm. assert (Hnd : req_method request <> method.DETACH) by (by rewrite Hm). unfold route_checkpoint.
  set (b := bool_decide (is_Some (d_orchestrator d))).
  pose proof (handle_checkpoint_answers (tn_env t) request b (d_model_handle d) (d_session d)) as Ha.
  pose proof (handle_checkpoint_quiet (tn_env t) request b (d_model_handle d) (d_session d)) as Hq.
  destruct (handle_checkpoint _ _ _ _ _) as [[resp s] sent]. cbn in *. apply routed_quiet; try done; [apply (an_id _ _ _ _ Ha)|].
  cbn. by destruct (d_orchestrator d).
Qed.

Abbreviation the_export := (route_export to_vec_pretty text_bytes from_str value_text).

Lemma export_cached request trace ids perfetto io mh se store o fs : cached store ->
  cached (handle_export to_vec_pretty text_bytes from_str value_text request trace ids perfetto io mh se store o fs).1.1.2.
Proof.
  intros Hs. unfold handle_export, with_params. destruct (parse_params request) as [req|]; [|done]. unfold when_stopped_or.
  destruct (require_stopped _ se); [|done]. cbv zeta. pose proof (cached_artifacts ids store Hs) as Ha.
  assert (Hst : cached (if ExportRequest_include_tensors req then tensor_artifacts ids store else ([], store)).2) by (by destruct (ExportRequest_include_tensors req)).
  destruct (if ExportRequest_include_tensors req then _ else _) as [tensors store']. destruct (collect_env_artifacts _ _ request mh o) as [[env|rsp] o']; [|done].
  by destruct (assemble_bundle _ _ _ fs) as [[size|e] fs'].
Qed.

Lemma route_export_ok t request d r d' : req_method request = method.SESSION_EXPORT ->
  the_export t request d = Some (r, d') -> routed_ok request d r d'.
Proof.
  intros Hm. assert (Hnd : req_method request <> method.DETACH) by (by rewrite Hm). unfold route_export.
  destruct (d_orchestrator d) as [o|] eqn:Eo; [|done]. destruct (d_model_handle d) as [mh|] eqn:Eh; [|done]. cbn.
  pose proof (handle_export_answers to_vec_pretty text_bytes from_str value_text request (d_trace d) (tn_ids t)
    (_ ← d_perfetto d; tn_perfetto t) (tn_bundle t) mh (d_session d) (d_store d) o (d_files d)) as Ha.
  pose proof (export_cached request (d_trace d) (tn_ids t)
    (_ ← d_perfetto d; tn_perfetto t) (tn_bundle t) mh (d_session d) (d_store d) o (d_files d)) as Hst.
  destruct (handle_export _ _ _ _ _ _ _ _ _ _ _ _ _ _) as [[[resp st] o'] fs']. intros [= <- <-]. cbn in Ha, Hst.
  apply routed_quiet; cbn; rewrite ?Eo; try done. apply (an_id _ _ _ _ Ha).
Qed.

Lemma route_rest_ok t request d resp s : dispatch (tn_env t) request (d_session d) = Some (resp, s) ->
  routed_ok request d (plain resp) (set_session s d).
Proof.
  intros E. assert (Hid : rsp_id resp = req_id request).
  { destruct (dispatch_answers (tn_env t) request (d_session d)) as (r' & s' & E' & H). rewrite E in E'. injection E' as <- <-.
    destruct (decide _); [apply (an_id _ _ _ _ H)|by destruct H as [_ ->]]. }
  destruct (decide (req_method request = method.DETACH)) as [Hd|Hd].
  2:{ apply routed_quiet; try done. by eapply dispatch_quiet. }
  rewrite dispatch_detach in E by done. injection E as E. pose proof (handle_detach_answers request (d_session d)) as Ha.
  pose proof (handle_detach_phase request (d_session d)) as Hp. rewrite E in Ha, Hp. cbn in Ha, Hp.
  assert (Es : s = (handle_detach request (d_session d)).2) by (by rewrite E).
  split; cbn; try done.
  - intros Hok. rewrite Es. unfold handle_detach. pose proof (detach_ok _ Hok) as H. by destruct (Session.detach (d_session d)).
  - intros Hr. pose proof (exec_recipes CDetach (d_session d) I Hr) as H. cbn [exec] in H. rewrite Es. unfold handle_detach.
    by destruct (Session.detach (d_session d)).
  - rewrite (bool_decide_eq_true_2 _ Hd), andb_true_r. destruct (failed resp) eqn:Ef; [|by apply Hp].
    cbn. by rewrite (answers_failed _ _ _ _ Ha Ef).
Qed.

(** Routing returns unless it is an export without a worker or an inspection of
    what cannot be inspected, and then it is within [routed_ok]. *)
Lemma route_ok t request d : cached (d_store d) ->
  match the_route t request d with
  | Some (r, d') => routed_ok request d r d'
  | None => req_method request = method.SESSION_EXPORT /\ (d_orchestrator d = None \/ d_model_handle d = None) \/
      inspect_uninspectable request d
  end.
Proof.
  intros Hst. unfold route.
  destruct (decide (req_method request = method.ATTACH)) as [E|]; [by pose proof (route_attach_ok t request d E); destruct (route_attach t request d)|].
  destruct (decide (req_method request = method.STEP)) as [E|]; [by pose proof (route_step_ok t request d E); destruct (route_step t request d)|].
  destruct (decide (req_method request = method.INSPECT)) as [E|].
  { pose proof (route_inspect_ok request d E Hst) as Hi. destruct (route_inspect _ _ _ _ _ request d) as [[]|]; [done|by right]. }
  destruct (decide (req_method request = method.VIEW)) as [E|].
  { apply (route_query_ok request); [by rewrite E|apply try_raw_spec..|]. intros h. apply handle_view_answers. }
  destruct (decide (req_method request = method.KV_READ)) as [E|].
  { apply (route_query_ok request); [by rewrite E|apply try_raw_spec..|]. intros h. apply handle_kv_read_answers. }
  destruct (decide (req_method request = method.KV_INTERVENE)) as [E|].
  { apply (route_query_ok request); [by rewrite E|apply try_raw_spec..|]. intros h. apply handle_kv_intervene_answers. }
  destruct (decide (req_method request = method.PROBE)) as [E|].
  { by pose proof (route_probe_ok request d E); destruct (route_probe values_of point_error request d). }
  destruct (decide (req_method request = method.SUBSCRIBE)) as [E|].
  { pose proof (handle_subscribe_answers request (d_session d)) as Ha. pose proof (handle_subscribe_quiet request (d_session d)) as Hq.
    destruct (handle_subscribe request (d_session d)) as [resp s]. cbn in *.
    destruct (failed resp); apply routed_quiet; try done; try apply (an_id _ _ _ _ Ha); by rewrite E. }
  destruct (decide (req_method request = method.UNSUBSCRIBE)) as [E|].
  { destruct (handle_queries_answer (tn_env t) request (d_session d)) as (_ & _ & Ha & _).
    apply routed_quiet; try done; [apply (an_id _ _ _ _ Ha)|by rewrite E]. }
  destruct (decide (req_method request = method.SESSION_EXPORT)) as [E|].
  { destruct (the_export t request d) as [[r d']|] eqn:Ex; [by eapply route_export_ok|]. left. split; [done|].
    unfold route_export in Ex. destruct (d_orchestrator d); [|by left]. destruct (d_model_handle d); [|by right].
    cbn in Ex. by destruct (handle_export _ _ _ _ _ _ _ _ _ _ _ _ _ _) as [[[]]]. }
  destruct (decide (req_method request = method.CHECKPOINT)) as [E|].
  { by pose proof (route_checkpoint_ok t request d E); destruct (route_checkpoint t request d). }
  destruct (decide (req_method request = method.REPLAY)) as [E|].
  { pose proof (try_replay_link request (d_orchestrator d) (d_model_handle d)) as Hl.
    destruct (try_orchestrator_replay request _ _) as [hr link]. cbn in Hl.
    pose proof (handle_replay_answers request hr (d_session d)) as Ha. pose proof (handle_replay_quiet request hr (d_session d)) as Hq.
    destruct (handle_replay request hr (d_session d)) as [resp s]. cbn in *. apply routed_quiet; try done; [apply (an_id _ _ _ _ Ha)|by rewrite E]. }
  destruct (dispatch_answers (tn_env t) request (d_session d)) as (resp & s & Ed & _). rewrite Ed. cbn. by apply (route_rest_ok t).
Qed.

(** *** After routing *)

Lemma set_perfetto_id d : set_perfetto (d_perfetto d) d = d.
Proof. by destruct d. Qed.

Lemma open_trace_ok t pid d : exists x, open_trace t pid d = Some (set_perfetto x d) /\
  (x = d_perfetto d \/ exists s, x = Some s /\ traced_here s).
Proof.
  unfold open_trace.
  set (model := default "unknown"%string (ss_model_id (s_state (d_session d)))). set (session := ss_session_id (s_state (d_session d))).
  destruct (create_total tr_encode tr_os_write tr_encode_size (tn_sink t) (tn_temp_dir t) session model (tn_pid t)) as [[[[]|e] s] E];
    rewrite E; cbn [mbind option_bind].
  2:{ exists (d_perfetto d). rewrite set_perfetto_id. auto. }
  destruct (tn_sink t) as [calls|] eqn:Hok; [|done].
  destruct (op_total tr_encode tr_os_write map_to_list tr_uuid_order tr_encode_size (OpProcess 0 (default 0 pid) "rank:0") s) as [s' Hs];
    [cbn; unfold MAX_WORKER_RANK; lia|].
  assert (Ht : traced_here s').
  { eapply (traced_step _ _ _ _ (OpProcess 0 (default 0 pid) "rank:0")); [|done|exact Hs].
    exists calls, (tn_temp_dir t), session, model, (tn_pid t), s, []. done. }
  cbn [apply_op] in Hs. unfold state_of in Hs. destruct (declare_process _ _ _ _ _ s) as [[r s1]|]; [|done]. injection Hs as ->.
  exists (Some s'). eauto.
Qed.

Lemma close_trace_ok t d : (forall s, d_perfetto d = Some s -> traced_here s) ->
  exists more, close_trace t d = Some (set_traces (d_traces d ++ more) (set_perfetto None d)) /\ Forall closed more.
Proof.
  intros Ht. unfold close_trace. destruct (d_perfetto d) as [s|] eqn:E.
  - destruct (close_total tr_encode tr_os_write tr_open_order tr_encode_size (tn_trace_ns t 0) s) as [[r s'] Hc]. rewrite Hc.
    exists [Sink_drop tr_os_write s']. split; [done|]. constructor; [|done]. exists s, (tn_trace_ns t 0), r, s'. auto.
  - exists []. rewrite app_nil_r. split; [|done]. rewrite <- E. by destruct d.
Qed.

Lemma finish_ok t request d r d1 :
  daemon_ok d -> routed_ok request d r d1 ->
  exists d2 d3, commit_attached t (rt_attached r) d1 = Some d2 /\ after_detach t request (rt_response r) d2 = Some d3 /\
    daemon_ok d3 /\ d_sender d3 = d_sender d /\ d_trace d3 = d_trace d /\ (req_method request = method.STEP -> d3 = d1).
Proof.
  intros [O1 O2 O3 O4 O5 O6 O7 O8 O9] [R1 R2 R3 [R10 R11] R4 R12 R5 R6 R7 R8 R9]. specialize (R4 O1). specialize (R5 O2). specialize (R12 O9).
  destruct (rt_attached r) as [[orch host]|]; cbn [commit_attached].
  - destruct R9 as [Hm Hs]. set (d2 := set_consumer _ _).
    destruct (open_trace_ok t (HostAttachResponse_worker_pid host) d2) as (x & -> & Hx). exists (set_perfetto x d2), (set_perfetto x d2).
    split; [done|]. unfold after_detach. rewrite Hm, bool_decide_eq_false_2, andb_false_r by done. split; [done|].
    pose proof (exec_quiet (CAutoLayers (checkpoint_layers (HostAttachResponse_num_layers host))) (d_session d1) eq_refl I) as Hq.
    cbn [exec] in Hq. rewrite guarded in Hq by done. destruct Hq as [Q1 Q2 Q3].
    split; [|done]. split; cbn; auto; try (split; by eauto); [|by rewrite R11].
    intros s ->. destruct Hx as [Hx|(s' & [= ->] & ?)]; [|done]. cbn in Hx. apply O7. by rewrite <- R10.
  - unfold after_detach. exists d1. destruct (negb _ && _) eqn:Ed.
    + destruct (close_trace_ok t d1) as (more & -> & Hmore); [by rewrite R10|]. cbn [mbind option_bind]. eexists. split; [done|]. split; [done|].
      apply andb_true_iff in Ed as [_ Hm%bool_decide_eq_true]. unfold detach_orchestrator. cbn [d_model_handle d_orchestrator set_traces set_perfetto].
      assert (Hn : forall o, is_Some (@None o) <-> stopped (d_session d1)).
      { intros o. split; [by intros []|done]. }
      destruct (d_model_handle d1), (d_orchestrator d1) as [o|]; cbn; try (destruct (Link.detach _ o)); cbn;
        (split; [|by rewrite Hm]); (split; cbn; try done; try (by intros []); rewrite R11; by apply Forall_app).
    + exists d1. split; [done|]. split; [done|]. split; [|done].
      split; rewrite ?R6, ?R10, ?R11; try done; [tauto..| |]; intros H; apply R9; auto.
Qed.

(** The ranks and layers of a step's position and events fit the ids of tracks. *)
Definition traceable (position : option TickPosition) (step : option HostStepResponse) : Prop :=
  (forall p, position = Some p -> op_ok (OpTick 0 p)) /\
  (forall hr, step = Some hr -> Forall (fun pe => op_ok (OpProbe 0 pe)) (hsrsp_events hr)).

(** What a call of the sink may change. *)
Definition trace_moves (d d' : Daemon) : Prop :=
  exists x, d' = set_perfetto x d /\ (is_Some x -> is_Some (d_perfetto d)) /\ (forall s, x = Some s -> traced_here s).

Lemma trace_moves_refl d : (forall s, d_perfetto d = Some s -> traced_here s) -> trace_moves d d.
Proof. intros H. exists (d_perfetto d). by rewrite set_perfetto_id. Qed.

Lemma trace_tick_spec now_ns position d : (forall s, d_perfetto d = Some s -> traced_here s) ->
  match trace_tick now_ns position d with
  | Some d' => trace_moves d d'
  | None => is_Some (d_perfetto d) /\ exists p, position = Some p /\ ~ op_ok (OpTick now_ns p)
  end.
Proof.
  intros Ht. unfold trace_tick. destruct (d_perfetto d) as [s|] eqn:Es; [|by apply trace_moves_refl; rewrite Es].
  destruct position as [p|]; [|by apply trace_moves_refl; rewrite Es].
  pose proof (op_total tr_encode tr_os_write map_to_list tr_uuid_order tr_encode_size (OpTick now_ns p) s) as Htot.
  pose proof (traced_step tr_encode tr_os_write map_to_list tr_uuid_order (OpTick now_ns p) s) as Hstep.
  cbn [apply_op] in Htot, Hstep. unfold state_of in Htot, Hstep. destruct (on_tick_stopped _ _ _ _ s) as [[r s']|]; cbn [mbind option_bind].
  - exists (Some s'). split_and!; [done|by rewrite Es|]. intros ? [= <-]. apply (Hstep s' (Ht s eq_refl)); done.
  - split; [done|]. exists p. split; [done|]. intros Ho. by destruct (Htot Ho).
Qed.

Lemma trace_probes_spec now_ns events : forall i d, (forall s, d_perfetto d = Some s -> traced_here s) ->
  match trace_probes now_ns i events d with
  | Some d' => trace_moves d d'
  | None => is_Some (d_perfetto d) /\ ~ Forall (fun pe => op_ok (OpProbe 0 pe)) events
  end.
Proof.
  induction events as [|pe events IH]; intros i d Ht; cbn [trace_probes].
  { destruct (d_perfetto d) eqn:Es; by apply trace_moves_refl; rewrite Es. }
  destruct (d_perfetto d) as [s|] eqn:Es; [|by apply trace_moves_refl; rewrite Es].
  pose proof (op_total tr_encode tr_os_write map_to_list tr_uuid_order tr_encode_size (OpProbe (now_ns i) pe) s) as Htot.
  pose proof (traced_step tr_encode tr_os_write map_to_list tr_uuid_order (OpProbe (now_ns i) pe) s) as Hstep.
  cbn [apply_op] in Htot, Hstep. unfold state_of in Htot, Hstep. destruct (on_probe_fired _ _ _ _ _ s) as [[r s']|]; cbn [mbind option_bind].
  - assert (Hs' : traced_here s') by (apply (Hstep s' (Ht s eq_refl)); done).
    specialize (IH (S i) (set_perfetto (Some s') d)). cbn [d_perfetto set_perfetto] in IH. specialize (IH ltac:(by intros ? [= <-])).
    destruct (trace_probes _ _ _ _) as [d'|].
    + destruct IH as (x & -> & H1 & H2). exists x. split_and!; [done|by rewrite Es|done].
    + destruct IH as [_ Hn]. split; [done|]. intros [_ ?]%Forall_cons. by apply Hn.
  - split; [done|]. intros [Ho _]%Forall_cons. by destruct (Htot Ho).
Qed.

Lemma fired_events_sent (p : ProbeFiredEvent -> Value) es : forall d, exists e,
  foldl (fun d pe => notify notification_text event.PROBE_FIRED (p pe) d) d es = set_sender (send_all notification_text e (d_sender d)) d.
Proof.
  induction es as [|x es IH]; intros d; [exists []; by destruct d|].
  cbn. destruct (IH (notify notification_text event.PROBE_FIRED (p x) d)) as (e & ->).
  by exists ((event.PROBE_FIRED, p x, s_event_filter (d_session d)) :: e).
Qed.

Lemma step_events_spec t request r d : (forall s, d_perfetto d = Some s -> traced_here s) ->
  match step_events notification_text t request r d with
  | Some d' => exists es, trace_moves (set_sender (send_all notification_text es (d_sender d)) d) d' /\
      (es <> [] -> failed (rt_response r) = false /\ req_method request = method.STEP)
  | None => d_events_enabled d = true /\ req_method request = method.STEP /\ is_Some (d_perfetto d) /\
      ~ traceable (ss_position (s_state (d_session d))) (rt_step r)
  end.
Proof.
  intros Ht. unfold step_events. destruct (d_events_enabled d && _ && _) eqn:E.
  2:{ exists []. split; [|done]. destruct d. by apply trace_moves_refl. }
  apply andb_prop in E as [[E1 E2%negb_true_iff]%andb_prop E3%bool_decide_eq_true].
  set (position := ss_position (s_state (d_session d))).
  set (ev := to_value (mkTickStoppedEvent (default default_position position) (ss_status (s_state (d_session d))))).
  set (d1 := notify notification_text event.TICK_STOPPED ev d).
  pose proof (trace_tick_spec (tn_trace_ns t 0) position d1 Ht) as H1.
  destruct (trace_tick _ _ d1) as [d2|]; cbn [mbind option_bind].
  2:{ destruct H1 as (Hs & p & Hp & Hn). split_and!; try done. intros [Hp' _]. by apply Hn, Hp'. }
  destruct H1 as (x & -> & Hx1 & Hx2). destruct (rt_step r) as [hr|] eqn:Er.
  2:{ exists [(event.TICK_STOPPED, ev, s_event_filter (d_session d))]. split; [by exists x|done]. }
  destruct (fired_events_sent to_value (hsrsp_events hr) (set_perfetto x d1)) as (e & ->). set (d3 := set_sender _ _).
  pose proof (trace_probes_spec (tn_trace_ns t) (hsrsp_events hr) 1 d3 Hx2) as H3.
  destruct (trace_probes _ _ _ d3) as [d4|].
  - destruct H3 as (y & -> & Hy1 & Hy2). exists ((event.TICK_STOPPED, ev, s_event_filter (d_session d)) :: e). split; [|done].
    exists y. split_and!; [done|intros H; by apply Hx1, Hy1|done].
  - destruct H3 as (Hs & Hn). split_and!; [done..|by apply Hx1|]. intros [_ H]. by apply Hn, H.
Qed.

Lemma auto_checkpoint_ok t request r d : daemon_ok d ->
  let d' := auto_checkpoint t request r d in daemon_ok d' /\ d_sender d' = d_sender d /\ d_trace d' = d_trace d.
Proof.
  intros H. unfold auto_checkpoint. set (go := negb (failed (rt_response r)) && _).
  destruct (if go then rt_step r else None) as [hr|]; [|done].
  case_bool_decide; [|done]. destruct (d_orchestrator d) as [o|] eqn:Eo; [|done].
  destruct (d_model_handle d) as [mh|] eqn:Eh; [|done]. destruct H as [O1 O2 O3 O4 O5 O6 O7 O8 O9].
  assert (Hs : stopped (d_session d)) by (apply O3; rewrite Eo; eauto).
  destruct (Link.checkpoint _ o) as [[rsp|e] o']; cbn; (split; [|done]).
  - pose proof (exec_quiet (CCreate (tn_auto_uuid t) (env_now (tn_env t)) (Some CreateCheckpointTier_Activation)
      (Some ("auto-" +:+ tn_auto_uuid t)%string)) (d_session d) eq_refl I) as Hq.
    cbn [exec] in Hq. rewrite guarded in Hq by done. destruct Hq as [Q1 Q2 Q3].
    split; cbn; auto; rewrite ?Q1, ?Eh in *; try done; split; eauto.
  - split; cbn; rewrite ?Eh in *; try done; split; eauto.
Qed.

Lemma sender_ok sd d : daemon_ok d -> daemon_ok (set_sender sd d).
Proof. by intros []. Qed.

Lemma sweep_ok t d : daemon_ok d -> daemon_ok (periodic_sweep t d).
Proof. unfold periodic_sweep. destruct (tn_sweep t); [|done]. by intros []. Qed.

Lemma trace_moves_ok d d' : daemon_ok d -> trace_moves d d' -> daemon_ok d' /\ d_sender d' = d_sender d /\ d_trace d' = d_trace d.
Proof. intros [] (x & -> & H1 & H2). split; [|done]. split; cbn; auto. Qed.

Lemma periodic_sweep_same t d : d_sender (periodic_sweep t d) = d_sender d /\ d_trace (periodic_sweep t d) = d_trace d /\
  d_session (periodic_sweep t d) = d_session d /\ d_perfetto (periodic_sweep t d) = d_perfetto d /\
  d_events_enabled (periodic_sweep t d) = d_events_enabled d.
Proof. unfold periodic_sweep. by destruct (tn_sweep t). Qed.

(** The three ways in which a request brings the loop down: an export while no
    model is attached, a traced step that reports a rank or a layer beyond
    the ids of tracks, and an inspection that meets a tensor with a zero
    dimension or with a length beyond any vector's ([inspect_uninspectable]). *)
Definition export_unattached (request : Request) (d : Daemon) : Prop :=
  req_method request = method.SESSION_EXPORT /\ ~ stopped (d_session d).

Definition step_untraceable (t : Turn) (request : Request) (d : Daemon) : Prop :=
  req_method request = method.STEP /\ is_Some (d_perfetto d) /\
  exists r d1, the_route t request d = Some (r, d1) /\ d_events_enabled d1 = true /\
    ~ traceable (ss_position (s_state (d_session d1))) (rt_step r).

(** One request: the invariant, the bytes written, the trace - or a panic. *)
Lemma serve_request_ok t request d : daemon_ok d ->
  match serve t request d with
  | Some d' => daemon_ok d' /\ exists rsp es, rsp_id rsp = req_id request /\
      d_sender d' = send_all notification_text es
        (mkSender (sd_written (d_sender d) ++ Framing.write_message (response_text rsp)) (sd_seq (d_sender d))) /\
      (es <> [] -> failed rsp = false /\ req_method request = method.STEP) /\
      d_trace d' = TraceLog.record (tn_now_out t) TraceLog.Outbound (response_text rsp) (d_trace d)
  | None => export_unattached request d \/ step_untraceable t request d \/ inspect_uninspectable request d
  end.
Proof.
  intros Hd. unfold serve_request, step_untraceable. pose proof (route_ok t request d (do_store d Hd)) as Hr.
  destruct (the_route t request d) as [[r d1]|] eqn:Ert; cbn [mbind option_bind].
  2:{ destruct Hr as [[Hm Hn]|Hr]; [left|right; by right]. split; [done|]. intros Hs. destruct Hd as [_ _ O3 O4 _].
      apply O3 in Hs as Ho. apply O4 in Hs as Hh. destruct Hn as [Hn|Hn]; rewrite Hn in *; [by destruct Ho|by destruct Hh]. }
  destruct (finish_ok t request d r d1 Hd Hr) as (d2 & d3 & -> & E3 & H3 & S3 & T3 & Hstep). cbn [mbind option_bind].
  rewrite E3. cbn [mbind option_bind]. destruct (periodic_sweep_same t d3) as (S4 & T4 & N4 & P4 & V4).
  pose proof (sweep_ok t d3 H3) as H4. set (d4 := periodic_sweep t d3) in *. set (d5 := write_text _ _).
  assert (H5 : daemon_ok d5) by (by apply sender_ok; destruct H4).
  pose proof (step_events_spec t request r d5 (do_traced _ H5)) as Hev.
  destruct (step_events _ _ _ _ d5) as [d6|]; cbn [mbind option_bind].
  - destruct Hev as (es & Hmv & Hes). apply trace_moves_ok in Hmv as (H6 & S6 & T6); [|by apply sender_ok].
    destruct (auto_checkpoint_ok t request r d6 H6) as (H7 & S7 & T7). split; [done|]. exists (rt_response r), es.
    split; [apply Hr|]. rewrite S7, T7, S6, T6. subst d5. cbn. by rewrite S4, T4, S3, T3.
  - right. left. destruct Hev as (Hv & Hm & Hp & Hn). split; [done|]. specialize (Hstep Hm). subst d5. cbn in Hv, Hp, Hn.
    rewrite V4, Hstep in Hv. rewrite P4, Hstep in Hp. rewrite N4, Hstep in Hn. split; [|by exists r, d1].
    destruct (ro_sink _ _ _ _ Hr) as [<- _]. done.
Qed.

Lemma trace_ok x d : daemon_ok d -> daemon_ok (set_trace x d).
Proof. by intros []. Qed.

Lemma turn_ok i d d' : daemon_ok d -> the_turn i d = Some d' -> daemon_ok d'.
Proof.
  intros Hd. destruct i as [t raw|u st]; cbn [turn].
  - unfold serve_message. destruct (parse_request raw) as [request|e].
    + pose proof (serve_request_ok t request _ (trace_ok (TraceLog.record (tn_now_in t) TraceLog.Inbound raw (d_trace d)) d Hd)) as H.
      destruct (serve t request _); [|done]. intros [= <-]. by destruct H.
    + intros [= <-]. by apply sender_ok, trace_ok, trace_ok.
  - intros [= <-]. unfold heartbeat. destruct (d_events_enabled d); [|done]. by apply sender_ok.
Qed.

Lemma startup_ok sw : daemon_ok (startup sw).
Proof. split; cbn; [apply new_ok|constructor|..]; try done; (split; [by intros []|done]) || by intros []. Qed.

Lemma run_daemon_ok inputs : forall d d', daemon_ok d -> the_run inputs d = Some d' -> daemon_ok d'.
Proof.
  induction inputs as [|i inputs IH]; intros d d' Hd; cbn [run]; [by intros [= <-]|].
  destruct (the_turn i d) as [d1|] eqn:E; [|done]. cbn. apply IH. by eapply turn_ok.
Qed.

(** The daemon when it has taken a message. *)
Definition received (t : Turn) (raw : string) (d : Daemon) : Daemon :=
  set_trace (TraceLog.record (tn_now_in t) TraceLog.Inbound raw (d_trace d)) d.

(** C5: the daemon's loop.  Whatever messages arrive and whatever the worker
    does - answering anything, failing to spawn, losing its connection - the
    state after any number of turns is consistent: the session is well formed
    with valid recipes, the connection to a worker and its model handle exist
    exactly while the session is stopped, a ring is mapped and a trace is kept
    only then, and every trace, open or closed, is one that was created and then
    used by the calls of the loop; every stored tensor has its summary.  Only
    three inputs make the loop panic: an export request while no model is
    attached, and that one always does; a traced step whose position has a layer,
    or a rank, or a probe event a rank, beyond the ids of tracks; and an
    inspection for which the worker reports a tensor with a zero dimension in its
    shape, or one in the ring with a length beyond [isize::MAX]. *)
Theorem daemon_loop_safe (sw : Sweep) (inputs : list Input) (d : Daemon) :
  the_run inputs (startup sw) = Some d ->
  daemon_ok d /\
  (forall i, the_turn i d = None ->
    exists t raw request, i = Message t raw /\ parse_request raw = Ok request /\
      (export_unattached request d \/ step_untraceable t request (received t raw d) \/ inspect_uninspectable request (received t raw d))) /\
  (forall t raw request, parse_request raw = Ok request -> export_unattached request d -> the_turn (Message t raw) d = None).
Proof.
  intros Hrun. pose proof (run_daemon_ok inputs _ d (startup_ok sw) Hrun) as Hd. split; [done|]. split.
  - intros [t raw|u st]; cbn [turn]; [|done]. unfold serve_message. fold (received t raw d).
    pose proof (trace_ok _ d Hd : daemon_ok (received t raw d)) as Hdt.
    destruct (parse_request raw) as [request|e] eqn:Ep; [|done]. pose proof (serve_request_ok t request _ Hdt) as H.
    intros E. rewrite E in H. by exists t, raw, request.
  - intros t raw request Hp [Hm Hs]. cbn [turn]. unfold serve_message. rewrite Hp. unfold serve_request, route. rewrite Hm. cbn -[route_export].
    assert (Hn : d_orchestrator d = None).
    { destruct (d_orchestrator d) eqn:E; [|done]. exfalso. apply Hs, (do_orch d Hd). eauto. }
    unfold route_export. cbn [d_orchestrator set_trace]. by rewrite Hn.
Qed.

(** C6: what a client sees of one message.  A turn that does not panic writes
    exactly one framed answer - the response to the request, with its id, or the
    parse error - and behind it only the notifications of a successful step, and
    records message and answer in the trace. *)
Theorem message_answered (sw : Sweep) (inputs : list Input) (t : Turn) (raw : string) (d d' : Daemon) :
  the_run inputs (startup sw) = Some d -> the_turn (Message t raw) d = Some d' ->
  exists text es,
    d_sender d' = send_all notification_text es
      (mkSender (sd_written (d_sender d) ++ Framing.write_message text) (sd_seq (d_sender d))) /\
    d_trace d' = TraceLog.record (tn_now_out t) TraceLog.Outbound text
      (TraceLog.record (tn_now_in t) TraceLog.Inbound raw (d_trace d)) /\
    match parse_request raw with
    | Ok request => exists rsp, text = response_text rsp /\ rsp_id rsp = req_id request /\
        (es <> [] -> rsp_error rsp = None /\ req_method request = method.STEP)
    | Err e => text = parse_error_text e /\ es = []
    end.
Proof.
  intros Hrun. pose proof (run_daemon_ok inputs _ d (startup_ok sw) Hrun) as Hd. cbn [turn]. unfold serve_message.
  set (dt := set_trace _ d). pose proof (trace_ok _ d Hd : daemon_ok dt) as Hdt.
  destruct (parse_request raw) as [request|e].
  - pose proof (serve_request_ok t request dt Hdt) as H. destruct (serve t request dt); [|done]. intros [= <-].
    destruct H as (_ & rsp & es & Hid & Hs & Hes & Ht). exists (response_text rsp), es. split; [done|]. split; [done|].
    exists rsp. split; [done|]. split; [done|]. intros Hne. destruct (Hes Hne) as [Hf Hm]. split; [|done].
    apply bool_decide_eq_false in Hf. by apply eq_None_not_Some.
  - intros [= <-]. by exists (parse_error_text e), [].
Qed.

End Loop.

(** ** Concrete runs *)

Module Demo.

(** A client whose messages are method names, and a worker that answers every call. *)
Definition client : @Wire json_ref.
Proof.
  unshelve econstructor.
  2: exact (fun _ => Ok (@mkAttachRequest (@serde_value json_ref) "/models/m" "llama" "cpu" None 1 None)).
  2: exact (fun _ => Ok (mkStepRequest StepDirection_Forward 1 None EnvelopeMode_Full None None)).
  2: exact (fun _ => Ok (mkInspectRequest "llama:0:3:attn.o_proj:output" InspectDetail_Summary None None None EnvelopeMode_None)).
  3: exact (fun _ => Ok (mkSubscribeRequest None)).
  1: exact (fun _ => Ok (@mkInitializeRequest (@serde_value json_ref) "tui" "0.3.0" None None)).
  1-10: exact (fun _ => Err "unknown"%string).
  all: exact (fun _ => JNull).
Defined.

Definition worker : @Peer json_ref :=
  {| peer := unit; exchange := fun rq p => (Ok (@Response_success (@serde_value json_ref) (req_id rq) JNull), p) |}.

(** Its steps stop in a given layer, and it captures a tensor with as many elements. *)
Definition host (layer : Z) : @HostWire json_ref.
Proof.
  unshelve econstructor.
  12: exact (fun _ => Ok (mkHostAttachResponse 7 2 4 64 [] "llama" [] None (Some 99))).
  12: exact (fun _ => Ok (mkHostStepResponse
    (mkTickPosition 1 StepDirection_Forward (Some 0) layer "mlp" TickEvent_Output None Phase_Decode None None) [] false false [])).
  12: exact (fun _ => Ok (mkHostInspectResponse
    [mkCapturedTensor "model.layers.3.self_attn.o_proj" "o_proj" 3 [layer] "uint8" "cpu" "t1" None None None (Some "AQ=="%string)])).
  12-18: exact (fun _ => Err "unknown"%string).
  all: exact (fun _ => JNull).
Defined.

Definition events : @EventWire json_ref.
Proof. constructor; exact (fun _ => JNull). Defined.

Definition exports : @ExportWire json_ref.
Proof. constructor; [exact (fun _ => Err "unknown"%string)|exact (fun _ => JNull)..]. Defined.

Definition trace_io : TraceIo :=
  {| tr_encode := fun _ => []; tr_os_write := fun _ d => Some (List.length d); tr_open_order := map_to_list; tr_uuid_order := map_to_list |}.
#[export] Instance trace_io_laws : @TraceIoLaws trace_io.
Proof. constructor. intros p. unfold U64_MAX. cbn. lia. Qed.

Definition archive : Archive :=
  {| tar_entry := fun _ _ data => Some data; tar_end := []; gzip := fun data => data |}.

Definition parse (raw : string) : result string (@Request (@serde_value json_ref)) :=
  if decide (raw = "?"%string) then Err "expected value"%string
  else Ok (@mkRequest (@serde_value json_ref) "2.0" (RequestId_Number 1) raw (Some JNull)).

Abbreviation daemon_turn layer := (@turn json_ref client worker (host layer) events exports archive trace_io winnow_ref (fun _ => []) (fun _ => ""%string)
  (fun _ => "h"%string) numerics_ref InspectSpec.Demo.decode_in (fun _ => ""%string) (fun _ => ""%string)
  (fun _ => ""%string) (fun r => if bool_decide (is_Some (rsp_error r)) then "error"%string else "ok"%string) (fun _ => "{}"%string)
  parse (fun e => e) (fun _ => []) (fun _ => []) (fun _ => None) (fun _ => ""%string)).

Abbreviation daemon_run layer := (@run json_ref client worker (host layer) events exports archive trace_io winnow_ref (fun _ => []) (fun _ => ""%string)
  (fun _ => "h"%string) numerics_ref InspectSpec.Demo.decode_in (fun _ => ""%string) (fun _ => ""%string)
  (fun _ => ""%string) (fun r => if bool_decide (is_Some (rsp_error r)) then "error"%string else "ok"%string) (fun _ => "{}"%string)
  parse (fun e => e) (fun _ => []) (fun _ => []) (fun _ => None) (fun _ => ""%string)).

Definition now : @Turn json_ref worker := @mkTurn json_ref worker (mkEnv "u1" 0 S754_nan) "u2" true (Ok tt) (fun _ => None) [] [] None (mkBundleIo true (fun _ => true) true true true true []) 0 0
  (Some 0%nat) "/tmp" 42 Z.of_nat None.

Definition attach_messages : list (@Input json_ref worker) := [Message now "initialize"; Message now "attach"].
Definition sweep : Sweep := mkSweep [chars "rs-2a-0"; chars "rs-1-0"; chars "other"] (Z.eqb 1) (mkWorld {["/rs-2a-0" := []; "/rs-1-0" := []; "/other" := []]} 0)%string.
Abbreviation start := (@startup json_ref worker sweep).

End Demo.

(** The start unlinks the region of the process that is gone. *)
Example startup_sweeps : d_shm Demo.start = mkWorld {["/rs-1-0" := []; "/other" := []]}%string 0.
Proof. vm_compute. reflexivity. Qed.

(** Attaching connects a worker and opens a trace; the session is then stopped. *)
Lemma daemon_loop_safe_witness :
  exists d, Demo.daemon_run 3 Demo.attach_messages Demo.start = Some d /\ d_model_handle d = Some 7 /\ stopped (d_session d) /\
    exists s, d_perfetto d = Some s /\ @traced_here Demo.trace_io s.
Proof.
  assert (H : (fun d => (d_model_handle d, bool_decide (is_Some (d_perfetto d)))) <$> Demo.daemon_run 3 Demo.attach_messages Demo.start =
    Some (Some 7, true)) by (vm_compute; reflexivity).
  destruct (Demo.daemon_run 3 Demo.attach_messages Demo.start) as [d|] eqn:E; [|discriminate H].
  cbn in H. injection H as Hh Hp. apply bool_decide_eq_true in Hp.
  exists d. split; [reflexivity|]. split; [exact Hh|].
  destruct (@daemon_loop_safe json_ref Demo.client Demo.worker (Demo.host 3) Demo.events Demo.exports Demo.archive Demo.trace_io Demo.trace_io_laws
    winnow_ref _ _ _ _ _ _ _ _ _ _ _ _ _ _ _ _ Demo.sweep Demo.attach_messages d E) as [Hd _].
  split; [apply (do_handle d Hd); rewrite Hh; eauto|]. destruct Hp as [s Hs]. exists s. split; [exact Hs|]. exact (do_traced d Hd s Hs).
Defined.

(** A message that does not parse is answered with the parse error. *)
Lemma message_answered_witness :
  exists d', Demo.daemon_turn 3 (Message Demo.now "?") Demo.start = Some d' /\
    sd_written (d_sender d') = Framing.write_message "expected value".
Proof.
  destruct (@message_answered json_ref Demo.client Demo.worker (Demo.host 3) Demo.events Demo.exports Demo.archive Demo.trace_io Demo.trace_io_laws
    winnow_ref (fun _ => []) (fun _ => ""%string)
    (fun _ => "h"%string) numerics_ref InspectSpec.Demo.decode_in (fun _ => ""%string) (fun _ => ""%string)
    (fun _ => ""%string) (fun r => if bool_decide (is_Some (rsp_error r)) then "error"%string else "ok"%string) (fun _ => "{}"%string)
    Demo.parse (fun e => e) (fun _ => []) (fun _ => []) (fun _ => None) (fun _ => ""%string)
    Demo.sweep [] Demo.now "?" Demo.start _ eq_refl eq_refl) as (text & es & Hs & _ & -> & ->).
  eexists. split; [reflexivity|]. exact (f_equal sd_written Hs).
Defined.

(** A subscribed client steps: with the worker in layer 3 the trace gets its
    slice, in layer 65536 the daemon is gone. *)
Definition stepping : list (@Input json_ref Demo.worker) :=
  Demo.attach_messages ++ [Message Demo.now "rocket/subscribe"; Message Demo.now "rocket/step"].

Example step_is_traced :
  (d ← Demo.daemon_run 3 stepping Demo.start; s ← d_perfetto d; last (tw_log (sk_writer s))) =
    Some (slice_begin_packet 1000 (Z.lor (Z.shiftl 3 60) (Z.shiftl 3 32)) 0 1).
Proof. vm_compute. reflexivity. Qed.

Example step_beyond_track_ids_panics : Demo.daemon_run 65536 stepping Demo.start = None.
Proof. vm_compute. reflexivity. Qed.

(** An inspection is answered when the tensor has an element, and when its shape
    has a zero dimension the daemon is gone. *)
Definition inspecting_messages : list (@Input json_ref Demo.worker) := Demo.attach_messages ++ [Message Demo.now "rocket/inspect"].

Example inspection_stores : (fun d => len (d_store d)) <$> Demo.daemon_run 1 inspecting_messages Demo.start = Some 1%nat.
Proof. vm_compute. reflexivity. Qed.

Example zero_dimension_inspection_panics : Demo.daemon_run 0 inspecting_messages Demo.start = None.
Proof. vm_compute. reflexivity. Qed.
