(* ===== verification/Tasks.v ===== *)
(** * Tasks: the build tasks

    [xtask/src/main.rs]: every subcommand as a program over the system it runs
    in.  What the system answers (the current directory, the files, the clock,
    how a command ends) is the class [System] and may depend on everything that
    was run and printed before, which is the history.  Command lines are parsed
    by clap, so [main] takes the subcommand; paths stand in messages as their
    bytes. *)

From Stdlib Require Import ZArith Lia Ascii String Sorted.
From stdpp Require Import base strings list sorting.
From S2P Require Import Prelude Framing ShmNames Bundle.
Open Scope Z_scope.

(** ** Paths *)

(** [std::path::Component] on Unix. *)
Inductive Component := RootDir | CurDir | ParentDir | Normal (name : list ascii).

Definition component (segment : list ascii) : list Component :=
  if decide (segment = [] \/ segment = chars ".") then []
  else if decide (segment = chars "..") then [ParentDir] else [Normal segment].

Definition components (path : string) : list Component :=
  match split_on "/"%char (chars path) with
  | [] => []
  | [] :: [] => []
  | [] :: rest => RootDir :: concat (component <$> rest)
  | first :: rest => (if decide (first = chars ".") then [CurDir] else component first) ++ concat (component <$> rest)
  end.

Definition component_rank (c : Component) : Z :=
  match c with RootDir => 0 | CurDir => 1 | ParentDir => 2 | Normal _ => 3 end.

Definition component_compare (a b : Component) : comparison :=
  match a, b with
  | Normal x, Normal y => String.compare (text x) (text y)
  | _, _ => (component_rank a ?= component_rank b)
  end.

Fixpoint components_compare (a b : list Component) : comparison :=
  match a, b with
  | [], [] => Eq
  | [], _ :: _ => Lt
  | _ :: _, [] => Gt
  | x :: a, y :: b => match component_compare x y with Eq => components_compare a b | c => c end
  end.

(** [Ord] of paths, which [sort] uses. *)
Definition path_le (a b : string) : bool :=
  match components_compare (components a) (components b) with Gt => false | _ => true end.

(** [Path::extension]: what follows the last dot of the name, unless the name starts with it. *)
Definition extension (path : string) : option (list ascii) :=
  '(_, name) ← file_name path;
  match span (fun c => negb (bool_decide (c = "."%char))) (rev name) with
  | (rext, _ :: (_ :: _)) => Some (rev rext)
  | _ => None
  end.

(** [Path::to_str] *)
Definition path_str (path : string) : option string := if utf8_valid (chars path) then Some path else None.

(** ** Commands and the system *)

Record Command := mkCommand { cm_program : string; cm_args : list string; cm_env : list (string * string) }.

(** [std::process::ExitStatus]: an exit code, or the text that names a signal. *)
Inductive ExitStatus := Exited (code : Z) | Signaled (signal : string).

Definition success (s : ExitStatus) : bool := match s with Exited 0 => true | _ => false end.

Definition exit_text (s : ExitStatus) : string :=
  match s with
  | Exited code => "exit status: " +:+ to_string code
  | Signaled signal => "signal: " +:+ signal
  end.

Inductive Event := Spawned (c : Command) | Printed (line : string).
Abbreviation History := (list Event).

Class System := {
  sys_cwd : History -> result string string;
  sys_is_file : History -> string -> bool;
  (** the entries of a directory: their names, or an error each *)
  sys_read_dir : History -> string -> result string (list (result string string));
  (** how a command ends, with what it has written when that is captured *)
  sys_spawn : History -> Command -> result string (ExitStatus * list ascii);
  (** seconds since the epoch; [None] before it *)
  sys_secs : History -> option Z;
  (** [Display] of a [FromUtf8Error] *)
  utf8_error_text : list ascii -> string
}.

Section Tasks.
Context {S : System}.

(** [anyhow::Error]: the contexts from the outermost to the cause. *)
Abbreviation Error := (list string).

Definition Task (A : Type) : Type := History -> result Error A * History.

#[global] Instance task_ret : MRet Task := fun _ a h => (Ok a, h).
#[global] Instance task_bind : MBind Task :=
  fun _ _ f m h => match m h with (Ok a, h) => f a h | (Err e, h) => (Err e, h) end.

Definition fail {A} (e : Error) : Task A := fun h => (Err e, h).
Definition bail {A} (message : string) : Task A := fail [message].
Definition get {A} (f : History -> A) : Task A := fun h => (Ok (f h), h).
Definition ok {A} (r : result string A) : Task A := match r with Ok a => mret a | Err e => fail [e] end.
Definition some {A} (message : string) (o : option A) : Task A := match o with Some a => mret a | None => bail message end.

(** [.context(message)] *)
Definition context {A} (message : string) (m : Task A) : Task A :=
  fun h => match m h with (Err e, h) => (Err (message :: e), h) | r => r end.

(** A result that is looked at instead of being passed on. *)
Definition attempt {A} (m : Task A) : Task (result Error A) := fun h => let (r, h) := m h in (Ok r, h).
Definition settle {A} (r : result Error A) : Task A := fun h => (r, h).

(** [{e:#}] *)
Definition error_text (e : Error) : string := String.concat ": " e.

Definition eprintln (line : string) : Task unit := fun h => (Ok tt, h ++ [Printed line]).
Definition spawn (c : Command) : Task (ExitStatus * list ascii) := fun h => ok (sys_spawn h c) (h ++ [Spawned c]).
Definition current_dir : Task string := r ← get sys_cwd; ok r.
Definition is_file (path : string) : Task bool := get (fun h => sys_is_file h path).

Definition run (program : string) (args : list string) : Task unit :=
  eprintln ("==> " +:+ program +:+ " " +:+ String.concat " " args);;
  '(status, _) ← context ("failed to run " +:+ program) (spawn (mkCommand program args []));
  if success status then mret tt else bail (program +:+ " exited with " +:+ exit_text status).

Definition venv_bin (name : string) : Task string :=
  cwd ← context "cwd" current_dir;
  let exe := path_join (path_join cwd ".venv/bin") name in
  found ← is_file exe;
  if negb found then bail (name +:+ " not found at " +:+ exe +:+ " — run `cargo xtask setup`")
  else some "non-utf8 venv executable path" (path_str exe).

Definition venv_python : Task string := venv_bin "python".

(** ** The tasks *)

Definition setup : Task unit :=
  repo_root ← context "cwd" current_dir;
  let script := path_join (path_join repo_root "scripts") "bootstrap.sh" in
  found ← is_file script;
  if negb found then bail ("bootstrap script not found at " +:+ script)
  else path ← some "non-utf8 script path" (path_str script); context "bootstrap.sh failed" (run "bash" [path]).

Definition fmt (check : bool) : Task unit :=
  context "rustfmt failed" (run "cargo" (["fmt"; "--all"] ++ if check then ["--"; "--check"] else [])).

Definition clippy : Task unit :=
  context "clippy failed" (run "cargo" ["clippy"; "--workspace"; "--all-targets"; "--"; "-D"; "warnings"]).

Definition test : Task unit :=
  context "cargo test failed"
    (run "cargo" ["test"; "--workspace"; "--all-targets"; "--exclude"; "rocket-surgeon-python"; "--exclude"; "rocket-surgeon-worker"]).

Definition ruff (fix_ : bool) : Task unit :=
  ruff ← venv_bin "ruff";
  if fix_ then
    run ruff ["check"; "--fix"; "python/"; "tests/"];;
    context "ruff format failed" (run ruff ["format"; "python/"; "tests/"])
  else
    context "ruff check failed" (run ruff ["check"; "python/"; "tests/"]);;
    context "ruff format check failed" (run ruff ["format"; "--check"; "python/"; "tests/"]).

Definition mypy : Task unit := m ← venv_bin "mypy"; context "mypy failed" (run m ["python/rocket_surgeon"]).

(** [Command::new(tool).arg("--version").output().is_ok_and(..)] *)
Definition tool_works (tool : string) : Task bool :=
  r ← attempt (spawn (mkCommand tool ["--version"] []));
  mret match r with Ok (status, _) => success status | Err _ => false end.

Definition deny : Task unit :=
  works ← tool_works "cargo-deny";
  if negb works then bail "cargo-deny not found — run `cargo xtask setup` or `cargo install cargo-deny --locked`"
  else context "cargo deny check failed" (run "cargo" ["deny"; "check"]).

Definition pytest : Task unit :=
  py ← venv_python; context "pytest failed" (run py ["-m"; "pytest"; "python/tests"; "-v"]).

Definition conformance : Task unit :=
  py ← venv_python;
  context "conformance tests failed"
    (run py ["-m"; "pytest"; "python/tests/conformance"; "-v"; "--no-header"; "-m"; "not nightly"]).

Definition tck : Task unit :=
  py ← venv_python; context "tck tests failed" (run py ["-m"; "pytest"; "python/tests/tck"; "-v"; "--no-header"]).

(** ** End-to-end scripts *)

(** The filter of the directory entries, without the pattern of [test_watch_once]. *)
Definition e2e_named (path : string) : bool :=
  match extension path with Some ext => eq_ignore_ascii_case ext (chars "py") | None => false end &&
  match file_name path with
  | Some (_, name) => utf8_valid name && starts_with (chars "test_e2e_") name
  | None => false
  end.

Definition entry_paths (dir : string) (entries : list (result string string)) : list string :=
  omap (fun e => match e with Ok name => Some (path_join dir name) | Err _ => None end) entries.

(** The directory [tests], its scripts that satisfy [p], sorted. *)
Definition scripts_where (p : string -> bool) : Task (string * list string) :=
  cwd ← context "cwd" current_dir;
  let tests_dir := path_join cwd "tests" in
  r ← get (fun h => sys_read_dir h tests_dir);
  entries ← context ("read " +:+ tests_dir) (ok r);
  scripts ← get (fun h => List.filter (fun path => sys_is_file h path && e2e_named path && p path) (entry_paths tests_dir entries));
  mret (tests_dir, sort_by path_le scripts).

(** Every script runs, and those that fail are collected. *)
Fixpoint run_scripts (py : string) (scripts failures : list string) : Task (list string) :=
  match scripts with
  | [] => mret failures
  | script :: rest =>
      path ← some "non-utf8 script path" (path_str script);
      r ← attempt (run py ["-u"; path]);
      run_scripts py rest (if is_ok r then failures else failures ++ [path])
  end.

Definition report (failures : list string) : Task unit :=
  if decide (failures = []) then mret tt
  else bail (to_string (Z.of_nat (List.length failures)) +:+ " e2e test(s) failed: " +:+ String.concat ", " failures).

Definition e2e : Task unit :=
  '(tests_dir, scripts) ← scripts_where (fun _ => true);
  if decide (scripts = []) then bail ("no e2e test scripts found in " +:+ tests_dir)
  else py ← venv_python; failures ← run_scripts py scripts []; report failures.

(** The pattern is looked for in the name of the script. *)
Definition matches_pattern (pattern : option string) (path : string) : bool :=
  match pattern, file_name path with
  | Some p, Some (_, name) => contains_chars (chars p) name
  | Some _, None => false
  | None, _ => true
  end.

Definition e2e_scripts_matching (pattern : option string) : Task (list string) :=
  '(_, scripts) ← scripts_where (matches_pattern pattern); mret scripts.

(** ** Watching *)

Definition ensure_cargo_watch : Task unit :=
  works ← tool_works "cargo-watch";
  if (works : bool) then mret tt else bail "cargo-watch not found — run `cargo xtask setup` or `cargo install cargo-watch`".

Definition watch : Task unit :=
  ensure_cargo_watch;;
  run "cargo" ["watch"; "--clear"; "--watch"; "crates"; "--watch"; "python"; "--ext"; "rs,py"; "-x"; "xtask watch-once"].

Definition test_watch (pattern : option string) : Task unit :=
  ensure_cargo_watch;;
  let inner := match pattern with Some p => ("xtask test-watch-once " +:+ p)%string | None => "xtask test-watch-once"%string end in
  run "cargo" ["watch"; "--clear"; "--watch"; "crates"; "--watch"; "python"; "--watch"; "tests"; "--watch"; "tck"; "--ext"; "rs,py,feature"; "-x"; inner].

(** [String::from_utf8], [trim] and [to_owned]: the characters that stay, as bytes again. *)
Definition trimmed (bytes : list ascii) : option string :=
  cps ← utf8_decode bytes; Some (text (concat (utf8_encode <$> trim cps))).

(** The two phases of the build, the second with the library path of the venv's Python. *)
Definition build_all : Task unit :=
  context "workspace build failed"
    (run "cargo" ["build"; "--workspace"; "--exclude"; "rocket-surgeon-python"; "--exclude"; "rocket-surgeon-worker"]);;
  py ← venv_python;
  '(status, stdout) ← context "query python LIBDIR"
    (spawn (mkCommand py ["-c"; "import sysconfig; print(sysconfig.get_config_var('LIBDIR'))"] []));
  if negb (success status) then bail "failed to query venv LIBDIR"
  else
    libdir ← context "non-utf8 LIBDIR" (some (utf8_error_text stdout) (trimmed stdout));
    eprintln ("==> cargo build -p rocket-surgeon-worker (DYLD/LD_LIBRARY_PATH=" +:+ libdir +:+ ")");;
    '(status, _) ← context "failed to run cargo"
      (spawn (mkCommand "cargo" ["build"; "-p"; "rocket-surgeon-worker"] [("DYLD_LIBRARY_PATH", libdir); ("LD_LIBRARY_PATH", libdir)]));
    if success status then mret tt else bail ("worker build exited with " +:+ exit_text status).

Definition stamp (secs : Z) : string :=
  (zero_pad 2 (secs / 3600 mod 24) +:+ ":" +:+ zero_pad 2 (secs / 60 mod 60) +:+ ":" +:+ zero_pad 2 (secs mod 60))%string.

Definition now_stamp : Task string := get (fun h => stamp (default 0 (sys_secs h))).

Definition watch_once : Task unit :=
  started ← now_stamp;
  eprintln ("[watch " +:+ started +:+ "] rebuild starting");;
  r ← attempt build_all;
  done ← now_stamp;
  eprintln match r with
           | Ok _ => "[watch " +:+ done +:+ "] rebuild OK"
           | Err e => "[watch " +:+ done +:+ "] rebuild FAILED: " +:+ error_text e
           end;;
  settle r.

(** The closure of [test_watch_once] *)
Definition test_run (pattern : option string) : Task unit :=
  match pattern with None => test | Some _ => mret tt end;;
  scripts ← e2e_scripts_matching pattern;
  if decide (scripts = []) then
    bail match pattern with Some p => "no e2e scripts matched pattern '" +:+ p +:+ "'" | None => "no e2e scripts found" end
  else py ← venv_python; failures ← run_scripts py scripts []; report failures.

Definition test_watch_once (pattern : option string) : Task unit :=
  started ← now_stamp;
  let label := default "<all>" pattern in
  eprintln ("[test-watch " +:+ started +:+ "] run starting (pattern=" +:+ label +:+ ")");;
  r ← attempt (test_run pattern);
  done ← now_stamp;
  eprintln match r with
           | Ok _ => "[test-watch " +:+ done +:+ "] PASS (pattern=" +:+ label +:+ ")"
           | Err e => "[test-watch " +:+ done +:+ "] FAIL (pattern=" +:+ label +:+ "): " +:+ error_text e
           end;;
  settle r.

(** ** The program *)

Inductive Xtask :=
| Lint
| Fmt (check : bool)
| Clippy
| Test
| Ruff (fix_ : bool)
| Mypy
| Pytest
| E2e
| Tck
| Conformance
| Deny
| Ci
| Setup
| Watch
| TestWatch (pattern : option string)
| WatchOnce
| TestWatchOnce (pattern : option string).

Definition main (cmd : Xtask) : Task unit :=
  match cmd with
  | Lint => fmt true;; clippy;; ruff false;; mypy
  | Fmt check => fmt check
  | Clippy => clippy
  | Test => test
  | Ruff fix_ => ruff fix_
  | Mypy => mypy
  | Pytest => pytest
  | E2e => e2e
  | Conformance => conformance
  | Tck => tck
  | Deny => deny
  | Ci => fmt true;; clippy;; ruff false;; mypy;; deny;; test;; pytest;; e2e
  | Setup => setup
  | Watch => watch
  | TestWatch pattern => test_watch pattern
  | WatchOnce => watch_once
  | TestWatchOnce pattern => test_watch_once pattern
  end.

End Tasks.
