(* ===== verification/TasksSpec.v ===== *)
(** * TasksSpec: what the build tasks run

    A green [ci] has run every check on every script, each with success; no
    task starts a Python tool but the virtual environment's; the end-to-end
    loop runs every script whatever fails; the watchers report the outcome they
    return. *)

From Stdlib Require Import ZArith Lia Ascii String Sorted.
From stdpp Require Import base strings list sets sorting.
From S2P Require Import Prelude Framing ShmNames Bundle Tasks.
Open Scope Z_scope.

Create HintDb tame.

(** ** The order of paths *)

Lemma component_compare_antisym a b : component_compare b a = CompOpp (component_compare a b).
Proof. destruct a, b; try done. apply String.compare_antisym. Qed.

Lemma component_compare_eq a b : component_compare a b = Eq <-> a = b.
Proof.
  split; [|intros ->; destruct (component_compare b b) eqn:E; [done|..]; pose proof (component_compare_antisym b b) as H; by rewrite E in H].
  destruct a as [| | |x], b as [| | |y]; cbn; try done. intros H%String.compare_eq_iff%text_inj. by subst.
Qed.

Lemma component_lt_trans a b c : component_compare a b = Lt -> component_compare b c = Lt -> component_compare a c = Lt.
Proof.
  destruct a as [| | |x], b as [| | |y], c as [| | |z]; cbn; try done. intros H1 H2.
  assert (Hxz : string_le (text x) (text z) = true) by (eapply (string_le_trans _ (text y)); unfold string_le; by rewrite ?H1, ?H2).
  unfold string_le in Hxz. destruct (String.compare (text x) (text z)) eqn:E; try done.
  apply String.compare_eq_iff in E. rewrite E, (String.compare_antisym (text z) (text y)), H2 in H1. done.
Qed.

Lemma components_compare_antisym a b : components_compare b a = CompOpp (components_compare a b).
Proof.
  revert b. induction a as [|x a IH]; intros [|y b]; cbn; try done. rewrite (component_compare_antisym x y), IH.
  by destruct (component_compare x y).
Qed.

Lemma components_compare_trans a b c :
  components_compare a b <> Gt -> components_compare b c <> Gt -> components_compare a c <> Gt.
Proof.
  revert b c. induction a as [|x a IH]; intros [|y b] [|z c]; cbn; try done. specialize (IH b c).
  destruct (component_compare x y) eqn:E1; try done; destruct (component_compare y z) eqn:E2; try done.
  - apply component_compare_eq in E1 as ->. by rewrite E2.
  - apply component_compare_eq in E1 as ->. by rewrite E2.
  - apply component_compare_eq in E2 as <-. by rewrite E1.
  - by rewrite (component_lt_trans _ _ _ E1 E2).
Qed.

Lemma path_le_sorts l : StronglySorted (fun a b => path_le a b = true) (sort_by path_le l).
Proof.
  assert (Hle : forall a b, path_le a b = true <-> components_compare (components a) (components b) <> Gt).
  { intros a b. unfold path_le. by destruct (components_compare _ _). }
  apply sort_by_sorted.
  - intros a b c. rewrite !Hle. apply components_compare_trans.
  - intros a b. destruct (path_le a b) eqn:E; [done|]. rewrite Hle, components_compare_antisym. unfold path_le in E.
    by destruct (components_compare (components a) (components b)).
Qed.

(** ** What a run leaves in the history *)

Section Spec.
Context {S : System}.

(** From [h] to [h'] exactly the commands [cs] ran, in this order, each of them
    with success. *)
Inductive ran : History -> list Command -> History -> Prop :=
| ran_nil h : ran h [] h
| ran_printed h line cs h' : ran (h ++ [Printed line]) cs h' -> ran h cs h'
| ran_command h c out cs h' : sys_spawn h c = Ok (Exited 0, out) -> ran (h ++ [Spawned c]) cs h' -> ran h (c :: cs) h'.

Lemma ran_app h cs h1 cs' h' : ran h cs h1 -> ran h1 cs' h' -> ran h (cs ++ cs') h'.
Proof. induction 1; intros; [done|eapply ran_printed; eauto|eapply ran_command; eauto]. Qed.

Lemma success_true s : success s = true -> s = Exited 0.
Proof. destruct s as [[| |]|]; done. Qed.

(** Success of a composition is success of its parts. *)
Lemma task_bind_ok {A B} (m : Task A) (f : A -> Task B) h b h' :
  (m ≫= f) h = (Ok b, h') -> exists a h1, m h = (Ok a, h1) /\ f a h1 = (Ok b, h').
Proof. unfold mbind, task_bind. destruct (m h) as [[a|e] h1]; [by eauto|done]. Qed.

Lemma context_ok {A} message (m : Task A) h a h' : context message m h = (Ok a, h') -> m h = (Ok a, h').
Proof. unfold context. by destruct (m h) as [[]]. Qed.

Definition runs {A} (m : Task A) (cs : list Command) : Prop := forall h a h', m h = (Ok a, h') -> ran h cs h'.

Lemma runs_seq {A B} (m : Task A) (k : Task B) cs cs' : runs m cs -> runs k cs' -> runs (m;; k) (cs ++ cs').
Proof. intros Hm Hk h b h' (a & h1 & E1 & E2)%task_bind_ok. eapply ran_app; eauto. Qed.

Lemma runs_context {A} message (m : Task A) cs : runs m cs -> runs (context message m) cs.
Proof. intros Hm h a h' E%context_ok. eauto. Qed.

Lemma task_run_ok program args h h' : run program args h = (Ok tt, h') -> ran h [mkCommand program args []] h'.
Proof.
  unfold run. intros (? & h1 & [= <- <-] & E)%task_bind_ok. apply task_bind_ok in E as ([status out] & h2 & E%context_ok & E2).
  unfold spawn, ok in E. destruct (sys_spawn _ _) as [[st o]|] eqn:Es; [|done]. injection E as <- <- <-.
  destruct (success st) eqn:Hs; [|done]. apply success_true in Hs as ->. injection E2 as <-.
  eapply ran_printed, ran_command; [exact Es|constructor].
Qed.

Lemma runs_run program args : runs (run program args) [mkCommand program args []].
Proof. intros h [] h'. apply task_run_ok. Qed.

Lemma tool_works_ok tool h works h' :
  tool_works tool h = (Ok works, h') -> works = true -> ran h [mkCommand tool ["--version"] []] h'.
Proof.
  unfold tool_works. intros (r & h1 & E1 & [= <- <-])%task_bind_ok Hw. unfold attempt, spawn, ok in E1.
  destruct (sys_spawn _ _) as [[st o]|] eqn:Es; injection E1 as <- <-; [|done]. apply success_true in Hw as ->.
  eapply ran_command; [exact Es|constructor].
Qed.

(** The directory the tasks run in does not change. *)
Context (root : string) (Hroot : forall h, sys_cwd h = Ok root).

Definition venv (name : string) : string := path_join (path_join root ".venv/bin") name.
Definition cargo (args : list string) : Command := mkCommand "cargo" args [].
Definition python (args : list string) : Command := mkCommand (venv "python") args [].
Definition tests : string := path_join root "tests".

Lemma cwd_ok h d h' : context "cwd" current_dir h = (Ok d, h') -> d = root /\ h' = h.
Proof. unfold context, current_dir, mbind, task_bind, get. cbn. rewrite Hroot. by intros [= -> ->]. Qed.

Lemma venv_bin_ok name h exe h' : venv_bin name h = (Ok exe, h') -> exe = venv name /\ h' = h /\ sys_is_file h exe = true.
Proof.
  unfold venv_bin. intros (d & h1 & [-> ->]%cwd_ok & E)%task_bind_ok. apply task_bind_ok in E as (found & h2 & [= <- <-] & E).
  change (path_join (path_join root ".venv/bin") name) with (venv name) in E.
  destruct (sys_is_file h (venv name)) eqn:Hf; [|done]. cbn in E. unfold some, path_str in E.
  destruct (utf8_valid _); [|done]. by injection E as <- <-.
Qed.

Lemma runs_venv {A} name (f : string -> Task A) cs : runs (f (venv name)) cs -> runs (venv_bin name ≫= f) cs.
Proof. intros Hf h a h' (exe & h1 & (-> & -> & _)%venv_bin_ok & E)%task_bind_ok. eauto. Qed.

Lemma runs_deny : runs deny [mkCommand "cargo-deny" ["--version"] []; cargo ["deny"; "check"]].
Proof.
  intros h a h' (w & h1 & E1 & E2)%task_bind_ok. destruct w; [|done]. apply (ran_app _ [_] h1); [by eapply tool_works_ok|].
  cbn [negb] in E2. eapply runs_context; [apply runs_run|exact E2].
Qed.

Lemma runs_mypy : runs mypy [mkCommand (venv "mypy") ["python/rocket_surgeon"] []].
Proof. apply runs_venv, runs_context, runs_run. Qed.

Lemma runs_pytest : runs pytest [python ["-m"; "pytest"; "python/tests"; "-v"]].
Proof. apply runs_venv, runs_context, runs_run. Qed.

Lemma runs_ruff : runs (ruff false)
  [mkCommand (venv "ruff") ["check"; "python/"; "tests/"] []; mkCommand (venv "ruff") ["format"; "--check"; "python/"; "tests/"] []].
Proof. apply runs_venv. apply (runs_seq _ _ [_] [_]); apply runs_context, runs_run. Qed.

(** *** The end-to-end scripts *)

Definition script_command (script : string) : Command := python ["-u"; script].

Lemma run_scripts_ok scripts : forall failures h out h',
  run_scripts (venv "python") scripts failures h = (Ok out, h') ->
  (exists more, out = failures ++ more) /\ (out = failures -> ran h (script_command <$> scripts) h').
Proof.
  induction scripts as [|script rest IH]; intros failures h out h'; cbn [run_scripts].
  { intros [= <- <-]. split; [exists []; by rewrite app_nil_r|constructor]. }
  intros (path & h1 & E1 & E)%task_bind_ok. apply task_bind_ok in E as (r & h2 & E2 & E3).
  unfold some, path_str in E1. destruct (utf8_valid (chars script)); [|done]. injection E1 as <- <-.
  unfold attempt in E2. destruct (run (venv "python") ["-u"; script] h) as [r0 h3] eqn:Er. injection E2 as <- <-.
  apply IH in E3 as [[more ->] Hran]. destruct r0 as [[]|e]; cbn [is_ok] in *.
  - split; [by exists more|]. intros H. rewrite fmap_cons. apply (ran_app _ [_] h3); [by eapply task_run_ok|auto].
  - split; [exists (script :: more); by rewrite <- app_assoc|]. intros H. apply (f_equal List.length) in H.
    rewrite !length_app in H. cbn in H. lia.
Qed.

(** The scripts that a listing of the directory [tests] holds. *)
Definition scripts_of (h : History) (entries : list (result string string)) : list string :=
  sort_by path_le (List.filter (fun path => sys_is_file h path && e2e_named path && true) (entry_paths tests entries)).

Lemma e2e_ok h h' : e2e h = (Ok tt, h') ->
  exists entries, sys_read_dir h tests = Ok entries /\ scripts_of h entries <> [] /\ ran h (script_command <$> scripts_of h entries) h'.
Proof.
  unfold e2e, scripts_where. intros ([dir scripts] & h1 & E1 & E2)%task_bind_ok.
  apply task_bind_ok in E1 as (d & h2 & [-> ->]%cwd_ok & E1). apply task_bind_ok in E1 as (r & h3 & [= <- <-] & E1).
  fold tests in E1. apply task_bind_ok in E1 as (entries & h4 & E%context_ok & E1). unfold ok in E.
  destruct (sys_read_dir h tests) as [es|]; [|done]. injection E as <- <-. injection E1 as <- <- <-.
  fold (scripts_of h es) in E2. exists es. split; [done|]. case_decide; [done|]. split; [done|].
  apply task_bind_ok in E2 as (py & h2 & (-> & -> & _)%venv_bin_ok & E). apply task_bind_ok in E as (failures & h3 & E & Er).
  unfold report in Er. case_decide; [|done]. injection Er as ->. subst failures. by apply run_scripts_ok in E as [_ Hr]; auto.
Qed.

(** *** The full suite *)

(** What [ci] runs before the end-to-end scripts. *)
Definition ci_checks : list Command :=
  [ cargo ["fmt"; "--all"; "--"; "--check"];
    cargo ["clippy"; "--workspace"; "--all-targets"; "--"; "-D"; "warnings"];
    mkCommand (venv "ruff") ["check"; "python/"; "tests/"] [];
    mkCommand (venv "ruff") ["format"; "--check"; "python/"; "tests/"] [];
    mkCommand (venv "mypy") ["python/rocket_surgeon"] [];
    mkCommand "cargo-deny" ["--version"] [];
    cargo ["deny"; "check"];
    cargo ["test"; "--workspace"; "--all-targets"; "--exclude"; "rocket-surgeon-python"; "--exclude"; "rocket-surgeon-worker"];
    python ["-m"; "pytest"; "python/tests"; "-v"] ].

Lemma runs_fmt check : runs (fmt check) [cargo (["fmt"; "--all"] ++ if check then ["--"; "--check"] else [])].
Proof. apply runs_context, runs_run. Qed.

Lemma seq_ok {A} (m : Task A) (k : Task unit) cs h h' :
  runs m cs -> (m;; k) h = (Ok tt, h') -> exists h1, ran h cs h1 /\ k h1 = (Ok tt, h').
Proof. intros Hm (a & h1 & E1 & E2)%task_bind_ok. exists h1. eauto. Qed.

Theorem ci_green h h' :
  main Ci h = (Ok tt, h') ->
  exists h1 entries,
    ran h ci_checks h1 /\
    sys_read_dir h1 tests = Ok entries /\ scripts_of h1 entries <> [] /\
    ran h1 (script_command <$> scripts_of h1 entries) h'.
Proof.
  cbn [main]. intros E.
  apply (seq_ok _ _ _ _ _ (runs_fmt true)) in E as (h1 & R1 & E).
  apply (seq_ok _ _ _ _ _ (runs_context _ _ _ (runs_run _ _))) in E as (h2 & R2 & E).
  apply (seq_ok _ _ _ _ _ runs_ruff) in E as (h3 & R3 & E).
  apply (seq_ok _ _ _ _ _ runs_mypy) in E as (h4 & R4 & E).
  apply (seq_ok _ _ _ _ _ runs_deny) in E as (h5 & R5 & E).
  apply (seq_ok _ _ _ _ _ (runs_context _ _ _ (runs_run _ _))) in E as (h6 & R6 & E).
  apply (seq_ok _ _ _ _ _ runs_pytest) in E as (h7 & R7 & E).
  apply e2e_ok in E as (entries & Hd & Hne & R8). exists h7, entries. split; [|done].
  repeat (eapply (ran_app _ [_]); [eassumption|]). eapply (ran_app _ [_; _]); [exact R3|].
  eapply (ran_app _ [_]); [exact R4|]. eapply (ran_app _ [_; _]); [exact R5|]. eapply (ran_app _ [_]); [exact R6|exact R7].
Qed.

(** ** Which programs run *)

(** A tool of Python is the one of the virtual environment. *)
Definition known_program (program : string) : Prop :=
  program ∈ ["cargo"; "cargo-deny"; "cargo-watch"; "bash"]%string \/
  exists name, name ∈ ["ruff"; "mypy"; "python"]%string /\ program = venv name.

Definition known_event (e : Event) : Prop := match e with Spawned c => known_program (cm_program c) | Printed _ => True end.

(** [m] only adds to the history, known programs only, and ends with a value in [Q] if with any. *)
Definition tame {A} (m : Task A) (Q : A -> Prop) : Prop :=
  forall h, exists new, (m h).2 = h ++ new /\ Forall known_event new /\ forall a, (m h).1 = Ok a -> Q a.

Definition anything {A} (_ : A) : Prop := True.

Lemma tame_bind {A B} (m : Task A) (f : A -> Task B) P Q : tame m P -> (forall a, P a -> tame (f a) Q) -> tame (m ≫= f) Q.
Proof.
  intros Hm Hf h. destruct (Hm h) as (new & E & Hn & HP). unfold mbind, task_bind.
  destruct (m h) as [[a|e] h1]; cbn in E, HP; subst h1; [|exists new; by split_and!].
  destruct (Hf a (HP a eq_refl) (h ++ new)) as (new' & E' & Hn' & HQ). exists (new ++ new').
  split; [by rewrite E', app_assoc|]. split; [by apply Forall_app|done].
Qed.

Lemma tame_weaken {A} (m : Task A) (P Q : A -> Prop) : tame m P -> (forall a, P a -> Q a) -> tame m Q.
Proof. intros Hm HPQ h. destruct (Hm h) as (new & ? & ? & ?). exists new. eauto. Qed.

Lemma tame_seq {A B} (m : Task A) (k : Task B) Q : tame m anything -> tame k Q -> tame (m;; k) Q.
Proof. intros Hm Hk. eapply tame_bind; [exact Hm|by intros]. Qed.

(** What leaves the history alone. *)
Lemma tame_still {A} (r : History -> result (list string) A) : tame (fun h => (r h, h)) anything.
Proof. intros h. exists []. by rewrite app_nil_r. Qed.
Lemma tame_ret {A} (a : A) : tame (mret a) anything.
Proof. apply (tame_still (fun _ => Ok a)). Qed.
Lemma tame_fail {A} e Q : tame (fail (A := A) e) Q.
Proof. intros h. exists []. by rewrite app_nil_r. Qed.
Lemma tame_bail {A} s Q : tame (bail (A := A) s) Q.
Proof. apply tame_fail. Qed.
Lemma tame_get {A} (f : History -> A) : tame (get f) anything.
Proof. apply (tame_still (fun h => Ok (f h))). Qed.
Lemma tame_settle {A} (r : result (list string) A) : tame (settle r) anything.
Proof. apply (tame_still (fun _ => r)). Qed.
Lemma tame_ok {A} (r : result string A) : tame (ok r) anything.
Proof. destruct r; [apply tame_ret|apply tame_fail]. Qed.
Lemma tame_some {A} message (o : option A) : tame (some message o) anything.
Proof. destruct o; [apply tame_ret|apply tame_bail]. Qed.
Lemma tame_context {A} message (m : Task A) Q : tame m Q -> tame (context message m) Q.
Proof. intros Hm h. unfold context. destruct (Hm h) as (new & E & Hn & HQ). exists new. by destruct (m h) as [[]]. Qed.
Lemma tame_attempt {A} (m : Task A) Q : tame m Q -> tame (attempt m) anything.
Proof. intros Hm h. unfold attempt. destruct (Hm h) as (new & E & Hn & _). exists new. by destruct (m h). Qed.
Lemma tame_print line : tame (eprintln line) anything.
Proof. intros h. exists [Printed line]. split_and!; [done| |done]. by constructor. Qed.
Lemma tame_spawn c : known_program (cm_program c) -> tame (spawn c) anything.
Proof.
  intros Hc h. exists [Spawned c]. unfold spawn, ok. destruct (sys_spawn h c); (split_and!; [done| |done]); by constructor.
Qed.

#[local] Hint Resolve tame_ret tame_fail tame_bail tame_get tame_settle tame_ok tame_some tame_print : tame.

(** The rules in the order of a task's text. *)
Ltac tame_step :=
  first
    [ progress intros
    | match goal with
      | |- known_program _ => by (left; set_solver) || assumption || (eapply or_intror; eexists; split; [|reflexivity]; set_solver)
      | |- tame (context _ _) _ => apply tame_context
      | |- tame (attempt _) _ => eapply tame_attempt
      | |- tame (spawn _) _ => apply tame_spawn
      | |- tame (_ ≫= _) _ => eapply tame_bind; [|intros]
      | |- tame (if ?b then _ else _) _ => destruct b
      | |- tame (match ?x with _ => _ end) _ => destruct x
      end
    | solve [eauto with tame] ].

Lemma tame_run program args : known_program program -> tame (run program args) anything.
Proof. intros Hp. unfold run. repeat tame_step. Qed.

Lemma tame_venv name : name ∈ ["ruff"; "mypy"; "python"]%string -> tame (venv_bin name) known_program.
Proof.
  intros Hn h. unfold venv_bin, context, current_dir, mbind, task_bind, get, ok, is_file. rewrite Hroot. cbn.
  exists []. rewrite app_nil_r. destruct (sys_is_file _ _); cbn; [|done]. unfold some, path_str.
  destruct (utf8_valid _); (split_and!; [done..|]); [|done]. intros a [= <-]. right. by exists name.
Qed.

(** A tool of the virtual environment is looked up and run. *)
Lemma tame_tool {A} name (f : string -> Task A) : name ∈ ["ruff"; "mypy"; "python"]%string ->
  (forall exe, known_program exe -> tame (f exe) anything) -> tame (venv_bin name ≫= f) anything.
Proof. intros Hn Hf. eapply tame_bind; [by apply tame_venv|exact Hf]. Qed.

Lemma tame_cargo args : tame (run "cargo" args) anything.
Proof. apply tame_run. left. set_solver. Qed.

Lemma tame_works tool : known_program tool -> tame (tool_works tool) anything.
Proof. intros H. unfold tool_works. repeat tame_step. Qed.

Lemma tame_scripts p : tame (scripts_where p) anything.
Proof. unfold scripts_where, current_dir. repeat tame_step. Qed.

Lemma tame_run_scripts py scripts : known_program py -> forall failures, tame (run_scripts py scripts failures) anything.
Proof.
  intros Hp. induction scripts as [|s rest IH]; intros failures; cbn [run_scripts]; [apply tame_ret|].
  eapply tame_bind; [apply tame_some|intros path _]. eapply tame_bind; [by eapply tame_attempt, tame_run|intros r _]. apply IH.
Qed.

#[local] Hint Extern 2 (known_program _) => left; set_solver : tame.
#[local] Hint Resolve tame_cargo tame_run tame_works tame_scripts tame_run_scripts : tame.

Lemma tame_report failures : tame (report failures) anything.
Proof. unfold report. case_decide; auto with tame. Qed.

Lemma tame_loop scripts : tame (py ← venv_python; failures ← run_scripts py scripts []; report failures) anything.
Proof. apply tame_tool; [set_solver|]. intros py Hp. eapply tame_bind; [by apply tame_run_scripts|intros; apply tame_report]. Qed.

Lemma tame_ruff fix_ : tame (ruff fix_) anything.
Proof. apply tame_tool; [set_solver|]. intros exe He. destruct fix_; apply tame_seq; try apply tame_context; by apply tame_run. Qed.

Lemma tame_venv_tool name context_ args :
  name ∈ ["ruff"; "mypy"; "python"]%string -> tame (exe ← venv_bin name; context context_ (run exe args)) anything.
Proof. intros Hn. apply tame_tool; [done|]. intros exe He. by apply tame_context, tame_run. Qed.

Lemma tame_deny : tame deny anything.
Proof. unfold deny. repeat tame_step. Qed.

Lemma tame_e2e : tame e2e anything.
Proof.
  eapply tame_bind; [apply tame_scripts|]. intros [dir scripts] _. case_decide; [apply tame_bail|apply tame_loop].
Qed.

Lemma tame_setup : tame setup anything.
Proof.
  unfold setup, current_dir, is_file. repeat tame_step.
Qed.

Lemma tame_build_all : tame build_all anything.
Proof.
  apply tame_seq; [apply tame_context, tame_cargo|]. apply tame_tool; [set_solver|]. intros py Hp. repeat tame_step.
Qed.

Lemma tame_test_run pattern : tame (test_run pattern) anything.
Proof.
  apply tame_seq; [destruct pattern; [apply tame_ret|apply tame_context, tame_cargo]|].
  eapply tame_bind; [eapply tame_bind; [apply tame_scripts|intros [] _; apply tame_ret]|]. intros scripts _.
  case_decide; [apply tame_bail|apply tame_loop].
Qed.

Lemma tame_fmt check : tame (fmt check) anything.
Proof. apply tame_context, tame_cargo. Qed.
Lemma tame_clippy : tame clippy anything.
Proof. apply tame_context, tame_cargo. Qed.
Lemma tame_test : tame test anything.
Proof. apply tame_context, tame_cargo. Qed.

(** The tasks that run one tool of the virtual environment. *)
Lemma tame_venv_tasks : Forall (fun m => tame m anything) [mypy; pytest; conformance; tck].
Proof. repeat constructor; apply tame_venv_tool; set_solver. Qed.

Lemma tame_cargo_watch : tame ensure_cargo_watch anything.
Proof. unfold ensure_cargo_watch. repeat tame_step. Qed.

#[local] Hint Resolve tame_ruff tame_deny tame_e2e tame_setup tame_build_all tame_test_run tame_fmt tame_clippy tame_test tame_cargo_watch : tame.

(** Whatever a task finds and however its commands end, it adds to the history
    only; every program it starts is cargo, one of cargo's two companions, the
    bootstrap's shell or a tool of the virtual environment. *)
Theorem tasks_use_the_venv cmd h : exists new, (main cmd h).2 = h ++ new /\ Forall known_event new.
Proof.
  enough (H : tame (main cmd) anything) by (destruct (H h) as (new & ? & ? & _); eauto).
  pose proof tame_venv_tasks as Hv. rewrite !Forall_cons in Hv. destruct Hv as (? & ? & ? & ? & _).
  destruct cmd; cbn [main]; repeat (apply tame_seq; [solve [auto with tame]|]); auto with tame.
  all: unfold watch, test_watch, watch_once, test_watch_once, now_stamp; repeat tame_step.
Qed.

(** ** Every script runs *)

(** The scripts whose command does not end with success, each run after its
    predecessors, and the history afterwards. *)
Fixpoint script_outcomes (py : string) (scripts : list string) (h : History) : list string * History :=
  match scripts with
  | [] => ([], h)
  | s :: rest =>
      let h1 := h ++ [Printed ("==> " +:+ py +:+ " -u " +:+ s)%string] in
      let c := mkCommand py ["-u"; s]%string [] in
      let (failed, h') := script_outcomes py rest (h1 ++ [Spawned c]) in
      (match sys_spawn h1 c with Ok (Exited 0, _) => failed | _ => s :: failed end, h')
  end.

Lemma run_outcome program args h :
  exists r, run program args h = (r, (h ++ [Printed ("==> " +:+ program +:+ " " +:+ String.concat " " args)%string]) ++ [Spawned (mkCommand program args [])]) /\
    is_ok r = match sys_spawn (h ++ [Printed ("==> " +:+ program +:+ " " +:+ String.concat " " args)%string]) (mkCommand program args []) with
              | Ok (Exited 0, _) => true
              | _ => false
              end.
Proof.
  unfold run, context, spawn, ok, mbind, task_bind, eprintln. cbn [fst snd].
  destruct (sys_spawn _ _) as [[st out]|e]; cbn; [|by eexists].
  destruct (success st) eqn:Est; cbn; (eexists; split; [reflexivity|]); [by apply success_true in Est as ->|].
  destruct st as [[| |]|]; done.
Qed.

Lemma run_scripts_all py scripts : Forall (fun s => utf8_valid (chars s) = true) scripts -> forall failures h,
  run_scripts py scripts failures h = (Ok (failures ++ (script_outcomes py scripts h).1), (script_outcomes py scripts h).2).
Proof.
  induction 1 as [|s rest Hs _ IH]; intros failures h; cbn [run_scripts script_outcomes]; [by rewrite app_nil_r|].
  unfold mbind, task_bind, some, path_str, attempt. rewrite Hs. cbn [mret task_ret].
  destruct (run_outcome py ["-u"; s]%string h) as (r & -> & Hr).
  change (String.concat " " ["-u"; s]%string) with ("-u " +:+ s)%string in *. rewrite Hr, IH. unfold mret, task_ret.
  destruct (script_outcomes py rest _) as [failed h']. cbn [fst snd].
  destruct (sys_spawn _ _) as [[[[| |]|] out]|e]; cbn [fst]; by rewrite <- ?app_assoc.
Qed.

Lemma script_outcomes_run py scripts : forall h,
  (script_outcomes py scripts h).2 =
  h ++ concat ((fun s => [Printed ("==> " +:+ py +:+ " -u " +:+ s)%string; Spawned (mkCommand py ["-u"; s]%string [])]) <$> scripts).
Proof.
  induction scripts as [|s rest IH]; intros h; cbn [script_outcomes]; [by rewrite app_nil_r|].
  specialize (IH ((h ++ [Printed ("==> " +:+ py +:+ " -u " +:+ s)%string]) ++ [Spawned (mkCommand py ["-u"; s]%string [])])).
  destruct (script_outcomes py rest _) as [failed h']. cbn in IH |- *. rewrite IH, <- !app_assoc. done.
Qed.

(** A failing script does not stop the loop: the message counts and names the
    scripts that failed, in the order they ran. *)
Theorem e2e_runs_every_script h entries :
  sys_read_dir h tests = Ok entries -> scripts_of h entries <> [] ->
  sys_is_file h (venv "python") = true -> utf8_valid (chars (venv "python")) = true ->
  Forall (fun s => utf8_valid (chars s) = true) (scripts_of h entries) ->
  e2e h = (let failed := (script_outcomes (venv "python") (scripts_of h entries) h).1 in
           (if decide (failed = []) then Ok tt
            else Err [(to_string (Z.of_nat (List.length failed)) +:+ " e2e test(s) failed: " +:+ String.concat ", " failed)%string],
            (script_outcomes (venv "python") (scripts_of h entries) h).2)).
Proof.
  intros Hd Hne Hf Hu Hs. unfold e2e, scripts_where, context, current_dir, mbind, task_bind, get, ok. rewrite Hroot. cbn.
  fold tests. rewrite Hd. cbn. fold (scripts_of h entries). rewrite decide_False by done.
  unfold venv_python, venv_bin, context, current_dir, is_file, mbind, task_bind, get, ok. rewrite Hroot. cbn.
  change (path_join (path_join root ".venv/bin") "python") with (venv "python"). rewrite Hf. cbn.
  unfold some, path_str. rewrite Hu. unfold mret, task_ret. rewrite run_scripts_all by done. cbn [app fst snd]. unfold report. by case_decide.
Qed.

(** ** The watchers *)

(** What an iteration of a watcher returns is what it says: its last line is the
    verdict of the run it made, which is its result. *)
Lemma watch_once_says h r h' : watch_once h = (r, h') ->
  exists started done h1, build_all (h ++ [Printed ("[watch " +:+ started +:+ "] rebuild starting")%string]) = (r, h1) /\
    h' = h1 ++ [Printed match r with
                        | Ok _ => "[watch " +:+ done +:+ "] rebuild OK"
                        | Err e => "[watch " +:+ done +:+ "] rebuild FAILED: " +:+ error_text e
                        end%string].
Proof.
  unfold watch_once, mbind, task_bind, now_stamp, get, eprintln, attempt, settle. cbn.
  destruct (build_all _) as [r0 h1] eqn:E. cbn. intros [= <- <-]. do 3 eexists. split; [exact E|reflexivity].
Qed.

Lemma test_watch_once_says pattern h r h' : test_watch_once pattern h = (r, h') ->
  exists started done h1,
    test_run pattern (h ++ [Printed ("[test-watch " +:+ started +:+ "] run starting (pattern=" +:+ default "<all>" pattern +:+ ")")%string]) = (r, h1) /\
    h' = h1 ++ [Printed match r with
                        | Ok _ => "[test-watch " +:+ done +:+ "] PASS (pattern=" +:+ default "<all>" pattern +:+ ")"
                        | Err e => "[test-watch " +:+ done +:+ "] FAIL (pattern=" +:+ default "<all>" pattern +:+ "): " +:+ error_text e
                        end%string].
Proof.
  unfold test_watch_once, mbind, task_bind, now_stamp, get, eprintln, attempt, settle. cbn.
  destruct (test_run pattern _) as [r0 h1] eqn:E. cbn. intros [= <- <-]. do 3 eexists. split; [exact E|reflexivity].
Qed.

End Spec.

(** ** The order of the scripts *)

Lemma split_on_snoc sep a b : sep ∉ b -> split_on sep (a ++ sep :: b) = split_on sep a ++ [b].
Proof.
  intros Hb. induction a as [|c a IH]; cbn [app split_on].
  - rewrite decide_True by done. by rewrite split_on_sep_free.
  - destruct (decide (c = sep)); [by rewrite IH|]. rewrite IH. destruct (split_on sep a) eqn:E; [by apply split_on_nonnil in E|done].
Qed.

(** The name of a directory entry. *)
Definition entry_name (name : string) : Prop :=
  chars name <> [] /\ chars name <> chars "." /\ chars name <> chars ".." /\ "/"%char ∉ chars name.

Lemma component_name name : entry_name name -> component (chars name) = [Normal (chars name)].
Proof. intros (H1 & H2 & H3 & _). unfold component. rewrite decide_False by tauto. by rewrite decide_False. Qed.

Lemma path_join_chars base name : base <> ""%string -> exists a,
  chars (path_join base name) = a ++ "/"%char :: chars name /\ (chars base = a \/ chars base = a ++ ["/"%char]).
Proof.
  intros Hb. unfold path_join. case_decide as Hd; rewrite !chars_app.
  - destruct Hd as [|Hd]; [done|]. destruct (rev (chars base)) as [|c r] eqn:E; [done|]. injection Hd as ->. exists (rev r).
    assert (Hc : chars base = rev r ++ ["/"%char]) by (by rewrite <- (rev_involutive (chars base)), E).
    rewrite Hc, <- app_assoc. auto.
  - exists (chars base). auto.
Qed.

Lemma components_join base name : base <> ""%string -> entry_name name ->
  components (path_join base name) = components base ++ [Normal (chars name)].
Proof.
  intros Hb Hn. destruct (path_join_chars base name Hb) as (a & E & Ha). pose proof Hn as (_ & _ & _ & Hslash).
  unfold components. rewrite E, split_on_snoc by done.
  assert (Hs : forall segs, concat (component <$> segs ++ [chars name]) = concat (component <$> segs) ++ [Normal (chars name)]).
  { intros segs. rewrite fmap_app, concat_app. cbn. by rewrite component_name. }
  assert (Hs0 : forall segs, concat (component <$> segs ++ [[]]) = concat (component <$> segs)).
  { intros segs. rewrite fmap_app, concat_app. cbn. by rewrite !app_nil_r. }
  pose proof (split_on_nonnil "/"%char a) as Hne. pose proof (join_split "/"%char a) as Hj. destruct Ha as [Ha|Ha]; rewrite Ha.
  - assert (Ea : split_on "/"%char a <> [[]]).
    { intros H. rewrite H in Hj. apply Hb, chars_inj. by rewrite Ha, <- Hj. }
    destruct (split_on "/"%char a) as [|[|c l] [|seg segs]]; try done.
    + pose proof (Hs (seg :: segs)) as H. cbn [app] in *. by rewrite H.
    + pose proof (Hs []) as H. cbn [app] in *. by rewrite H, app_assoc.
    + pose proof (Hs (seg :: segs)) as H. cbn [app] in *. by rewrite H, app_assoc.
  - rewrite (split_on_snoc "/"%char a []) by set_solver.
    destruct (split_on "/"%char a) as [|[|c l] segs]; try done.
    + pose proof (Hs segs) as H. pose proof (Hs0 segs) as H'. destruct segs; cbn [app] in *; by rewrite H, H'.
    + cbn [app]. by rewrite Hs, Hs0, app_assoc.
Qed.

Lemma component_compare_refl c : component_compare c c = Eq.
Proof. by apply component_compare_eq. Qed.

Lemma components_compare_prefix p a b : components_compare (p ++ a) (p ++ b) = components_compare a b.
Proof. induction p as [|x p IH]; [done|]. cbn. by rewrite component_compare_refl. Qed.

(** Entries of one directory are ordered by their names. *)
Lemma path_le_names dir a b : dir <> ""%string -> entry_name a -> entry_name b ->
  path_le (path_join dir a) (path_join dir b) = string_le a b.
Proof.
  intros Hd Ha Hb. unfold path_le, string_le. rewrite !components_join, components_compare_prefix by done. cbn.
  rewrite !text_chars. by destruct (String.compare a b).
Qed.

Lemma insert_by_map {A B} (f : A -> B) le x l : insert_by le (f x) (f <$> l) = f <$> insert_by (fun x y => le (f x) (f y)) x l.
Proof. induction l as [|y l IH]; [done|]. rewrite fmap_cons. cbn [insert_by]. rewrite IH. by destruct (le (f x) (f y)). Qed.

Lemma sort_by_map {A B} (f : A -> B) le le' l :
  (forall x y, x ∈ l -> y ∈ l -> le (f x) (f y) = le' x y) -> sort_by le (f <$> l) = f <$> sort_by le' l.
Proof.
  intros H. rewrite <- (sort_by_ext (fun x y => le (f x) (f y)) le' l) by done. clear H. unfold sort_by.
  induction l as [|x l IH]; [done|]. rewrite fmap_cons. cbn [foldr]. rewrite IH. apply insert_by_map.
Qed.

(** The scripts of a directory run in the order of their names. *)
Theorem scripts_by_name dir names : dir <> ""%string -> Forall entry_name names ->
  sort_by path_le (path_join dir <$> names) = path_join dir <$> sort_by string_le names.
Proof.
  intros Hd Hn. apply sort_by_map. rewrite Forall_forall in Hn. intros x y Hx Hy. apply path_le_names; auto.
Qed.

(** ** Time stamps *)

Lemma zero_pad_2 n : 0 <= n < 100 -> exists a b, chars (zero_pad 2 n) = [a; b] /\ is_ascii_digit a = true /\ is_ascii_digit b = true.
Proof.
  intros Hn. assert (H : forallb (fun n => match chars (zero_pad 2 n) with [a; b] => is_ascii_digit a && is_ascii_digit b | _ => false end)
                           (seqZ 0 100) = true) by (vm_compute; reflexivity).
  rewrite forallb_forall in H. specialize (H n). rewrite <- list_elem_of_In, elem_of_seqZ in H. specialize (H ltac:(lia)). unfold is_true in H.
  destruct (chars (zero_pad 2 n)) as [|a [|b [|]]]; try done. apply andb_true_iff in H as [? ?]. eauto.
Qed.

Lemma stamp_shape secs : exists h1 h2 m1 m2 s1 s2,
  chars (stamp secs) = [h1; h2; ":"; m1; m2; ":"; s1; s2]%char /\
  Forall (fun c => is_ascii_digit c = true) [h1; h2; m1; m2; s1; s2].
Proof.
  unfold stamp. rewrite !chars_app.
  destruct (zero_pad_2 (secs / 3600 mod 24)) as (h1 & h2 & -> & ? & ?); [pose proof (Z.mod_pos_bound (secs / 3600) 24); lia|].
  destruct (zero_pad_2 (secs / 60 mod 60)) as (m1 & m2 & -> & ? & ?); [pose proof (Z.mod_pos_bound (secs / 60) 60); lia|].
  destruct (zero_pad_2 (secs mod 60)) as (s1 & s2 & -> & ? & ?); [pose proof (Z.mod_pos_bound secs 60); lia|].
  exists h1, h2, m1, m2, s1, s2. split; [done|]. by repeat constructor.
Qed.

(** ** The output of a command, trimmed *)

Lemma drop_while_suffix {A} (p : A -> bool) l : exists a, l = a ++ drop_while p l /\ Forall (fun x => p x = true) a.
Proof.
  induction l as [|x l (a & E & Ha)]; [by exists []|]. cbn [drop_while]. destruct (p x) eqn:Ep; [|by exists []].
  exists (x :: a). split; [by rewrite E at 1|by constructor].
Qed.

(** Only white space at both ends goes; the bytes between stay. *)
Lemma trimmed_spec bytes s : trimmed bytes = Some s -> exists a b,
  bytes = concat (utf8_encode <$> a) ++ chars s ++ concat (utf8_encode <$> b) /\
  Forall (fun c => char_is_whitespace c = true) (a ++ b).
Proof.
  unfold trimmed. destruct (utf8_decode bytes) as [cps|] eqn:E; [|done]. intros [= <-]. apply utf8_encode_decode in E as <-.
  rewrite chars_text. unfold trim, drop_while_end. destruct (drop_while_suffix char_is_whitespace cps) as (a & Ea & Ha).
  destruct (drop_while_suffix char_is_whitespace (rev (drop_while char_is_whitespace cps))) as (b & Eb & Hb).
  apply (f_equal (@rev Z)) in Eb. rewrite rev_involutive, rev_app_distr in Eb. exists a, (rev b). split.
  - rewrite Ea at 1. rewrite Eb at 1. by rewrite !fmap_app, !concat_app, <- ?app_assoc.
  - apply Forall_app. split; [done|]. by apply Forall_rev.
Qed.

(** ** A concrete checkout *)

Module Demo.

(** A repository whose commands succeed, but for the scripts of a list. *)
Definition checkout (broken : list string) : System := {|
  sys_cwd := fun _ => Ok "/repo"%string;
  sys_is_file := fun _ path => negb (bool_decide (path = "/repo/tests/test_e2e_dir.py"%string));
  sys_read_dir := fun _ dir =>
    if bool_decide (dir = "/repo/tests"%string)
    then Ok [Ok "test_e2e_step.py"; Ok "e2e_harness.py"; Err "input/output error"; Ok "test_e2e_dir.py"; Ok "test_e2e_adapter.PY"]%string
    else Err "no such directory"%string;
  sys_spawn := fun _ c =>
    match cm_args c with
    | [flag; script] => if bool_decide (flag = "-u" /\ script ∈ broken)%string then Ok (Exited 1, []) else Ok (Exited 0, chars " /usr/lib ")
    | _ => Ok (Exited 0, [])
    end;
  sys_secs := fun h => Some (3600 + 60 * Z.of_nat (List.length h));
  utf8_error_text := fun _ => "invalid utf-8 sequence"%string
|}.

Definition scripts : list string := ["/repo/tests/test_e2e_adapter.PY"; "/repo/tests/test_e2e_step.py"]%string.

End Demo.

Lemma ci_green_witness : exists h',
  @main (Demo.checkout []) Ci [] = (Ok tt, h') /\
  exists h1, @ran (Demo.checkout []) [] (ci_checks "/repo") h1 /\
             @ran (Demo.checkout []) h1 (script_command "/repo" <$> Demo.scripts) h'.
Proof.
  destruct (@main (Demo.checkout []) Ci []) as [r h'] eqn:E. exists h'.
  assert (Hr : r = Ok tt) by (vm_compute in E; injection E as <- _; reflexivity). rewrite Hr in E. split; [by rewrite Hr|].
  destruct (@ci_green (Demo.checkout []) "/repo" ltac:(reflexivity) [] h' E) as (h1 & entries & R1 & Hd & _ & R2).
  exists h1. split; [exact R1|]. vm_compute in Hd. injection Hd as <-. exact R2.
Defined.

(** One broken script: the other one still runs, and the message names the one. *)
Lemma e2e_runs_every_script_witness :
  @e2e (Demo.checkout ["/repo/tests/test_e2e_adapter.PY"%string]) [] =
  (Err ["1 e2e test(s) failed: /repo/tests/test_e2e_adapter.PY"%string],
   [Printed "==> /repo/.venv/bin/python -u /repo/tests/test_e2e_adapter.PY"; Spawned (script_command "/repo" "/repo/tests/test_e2e_adapter.PY");
    Printed "==> /repo/.venv/bin/python -u /repo/tests/test_e2e_step.py"; Spawned (script_command "/repo" "/repo/tests/test_e2e_step.py")]).
Proof.
  rewrite (@e2e_runs_every_script (Demo.checkout ["/repo/tests/test_e2e_adapter.PY"%string]) "/repo" ltac:(reflexivity) []
             [Ok "test_e2e_step.py"; Ok "e2e_harness.py"; Err "input/output error"; Ok "test_e2e_dir.py"; Ok "test_e2e_adapter.PY"]%string);
    [vm_compute; reflexivity|reflexivity|vm_compute; discriminate|reflexivity..|repeat constructor].
Defined.

Example watch_says : @watch_once (Demo.checkout []) [] =
  (Ok tt,
   [Printed "[watch 01:00:00] rebuild starting";
    Printed "==> cargo build --workspace --exclude rocket-surgeon-python --exclude rocket-surgeon-worker";
    Spawned (cargo ["build"; "--workspace"; "--exclude"; "rocket-surgeon-python"; "--exclude"; "rocket-surgeon-worker"]);
    Spawned (python "/repo" ["-c"; "import sysconfig; print(sysconfig.get_config_var('LIBDIR'))"]);
    Printed "==> cargo build -p rocket-surgeon-worker (DYLD/LD_LIBRARY_PATH=/usr/lib)";
    Spawned (mkCommand "cargo" ["build"; "-p"; "rocket-surgeon-worker"] [("DYLD_LIBRARY_PATH", "/usr/lib"); ("LD_LIBRARY_PATH", "/usr/lib")]);
    Printed "[watch 01:06:00] rebuild OK"]%string).
Proof. vm_compute. reflexivity. Qed.

(** The full suite names neither the conformance tests nor the tests of the two
    crates that embed Python. *)
Example ci_leaves_out : Forall (fun c => "python/tests/conformance"%string ∉ cm_args c) (ci_checks "/repo") /\
  cargo ["test"; "--workspace"; "--all-targets"; "--exclude"; "rocket-surgeon-python"; "--exclude"; "rocket-surgeon-worker"] ∈ ci_checks "/repo".
Proof.
  split; [eapply bool_decide_unpack; vm_compute; exact I|].
  unfold ci_checks. repeat (apply list_elem_of_here || apply list_elem_of_further).
Qed.
